(* ===== verification/_CoqProject ===== *)
-Q . S2P
Prelude.v
Ctype.v
CString.v
Encoding.v
Containers.v
NetLib.v
NetLibNumeric.v
ConfigValues.v
Config.v
WellFormed.v
ShowConf.v
ConfRoundtrip.v
CSort.v
Terminal.v
Ipc.v
SetConf.v
Show.v
ShowOk.v
Uapi.v
UapiRoundtrip.v
Netlink.v
NetlinkOk.v
NetlinkSocket.v
IpcLinux.v
IpcLinuxSet.v
IpcLinuxGet.v
IpcLinuxDump.v
IpcUnix.v
IpcUnixOk.v
Highlighter.v
HighlighterOk.v
Curve25519.v
Rfc7748.v
Curve25519Field.v
Curve25519Ok.v
Fiat32.v
Fiat32Field.v
Fiat32Ok.v
Prime25519.v
X25519.v
Keys.v
Main.v
Regex.v
AndroidShell.v
AndroidBinder.v
Android.v
AndroidUp.v
AndroidScript.v
AndroidRun.v
AndroidUsers.v
AndroidNet.v
AndroidQuote.v
AndroidParcel.v
AndroidConf.v
WgCurve.v
WgCurveOk.v
WgKeysOk.v
WgDevice.v
WgDeviceOk.v
KernelImage.v
Bsd.v
FreeBsd.v
FreeBsdOk.v
OpenBsd.v
OpenBsdOk.v
WinHash.v
WinLibc.v
WinPipes.v
IpcWindows.v
IpcWindowsOk.v
ElfCleaner.v
ElfCleanerOk.v
ElfFileOk.v
NatPunch.v
NatPunchOk.v
