(* ===== verification/Prelude.v ===== *)
(** * Verification of the AmneziaWG command line tools

    The tools (src/tunnel/tools/amneziawg-tools) configure the tunnels of AmneziaWG, a
    WireGuard with obfuscated packets.  The command [awg] reads the state of an interface
    from a back end (the kernel, through netlink on Linux, ioctls on FreeBSD and OpenBSD and
    device controls on Windows, or a userspace daemon through a text protocol), prints it, or
    hands it a new state read from a configuration file or from the command line.  It also makes keys.  The program [awg-quick] for Android brings a tunnel up
    and down from a configuration file: it creates the interface, has [awg setconf] read the
    file, and tells Android's network daemon of users, name servers, addresses and routes
    through shell commands.  A highlighter colours configuration files for editors.  The
    embeddable library configures tunnels from other programs, without the fields of AmneziaWG.
    The build cleans the executables for Android with the ELF cleaner (../../elf-cleaner).
    The development translates these programs into functions over bytes and integers of their
    machine width, and proves what each promises.  Paths below are relative to
    amneziawg-tools/src unless they start with contrib.

    ** How programs are translated

    A buffer is a [list byte]; a C string is the part before its NUL.  Integers are [Z] with
    the wrap-around of their type written out ([u8] to [u128]); [Platform] is what C leaves
    open, the sign of [char] and the width of [long].  A linked list is a list and a pointer
    into it an index; a union is its bytes.  A function that may call [exit] or run for ever
    returns an [outcome]; a parser that updates an object through a pointer returns the object
    with the result.  Messages on the standard error and running out of memory are left out.
    A string that is a NULL pointer is [None]; a function that follows it has no result, or exits with
    the status of the signal.

    The code the programs call and that is not theirs is an interface, a class of operations
    with a class of laws that state documented behaviour, and an instance that shows the laws
    can hold: [NetLib] (name resolution, addresses as text, the environment; NetLibNumeric.v
    resolves numeric addresses), [CSort] ([qsort]; an insertion sort), [Ipc] (the devices),
    [Random] (the sources of random bytes), [NetlinkKernel] (the sockets of the kernel; a
    kernel that follows a script), [UnixSockets] (the sockets of daemons; a directory),
    [Nvlist] and [WgIoctl] (the lists of names and values and the ioctls of FreeBSD), [WgData]
    (the ioctls of OpenBSD), [Windows] (adapters, files and the driver; a driver that echoes),
    [Pipes] (the named pipes of Windows), [Punch] (what the hole-punching client runs on; the
    server of the example),
    [Phone] (the commands, files and random numbers of an Android phone and its binder
    library, with [PhoneLaws] and [ParcelLaws]; AndroidScript.v follows a script).  A program
    of the shell kind is a state transformer that may exit: what it has done is the list of
    its events, and the output of a command is fixed when the command starts.

    ** The files

    - Prelude.v: bytes, machine integers, outcomes, record update, shared lemmas and tactics.
      CString.v: the functions of <string.h>, <stdlib.h> and the numerals of [printf].
    - Ctype.v (ctype.h) and Encoding.v (encoding.c): character classes, keys in base64 and
      hexadecimal, branch-free as in the source.  Shown: both encodings round-trip, the
      decoders accept exactly the canonical texts, the zero test is equality.
    - Containers.v (containers.h): [wgdevice], [wgpeer], [wgallowedip] and their flags.
    - ConfigValues.v, Config.v (config.c): the value parsers, [process_line],
      [config_read_line], [config_read_cmd].  Shown there and in WellFormed.v: what each parser
      accepts and where integers are cut; every accepted configuration is a well-formed device
      ([wf_device]) whose list pointers are right, proved line by line; reading ends when the
      resolver retries a bounded number of times.
    - ShowConf.v (showconf.c) and ConfRoundtrip.v: the printed configuration is read back as
      the device it shows, and prints again as the same text.
    - CSort.v, Ipc.v (ipc.c), SetConf.v (setconf.c, set.c): the list of interface names; the
      commands that configure.  Shown: syncconf removes exactly the peers the file lacks and
      the interface ends with the peers of the file; only well-formed devices are handed over.
    - Terminal.v (terminal.c), Show.v and ShowOk.v (show.c): what [awg show] prints.  Shown:
      escape sequences are removed and nothing else; peers are listed by their last handshake;
      secret keys do not reach the output unless asked for; the table for scripts splits back
      into its fields; times are exact and fit their buffers; every interface is shown.
    - Uapi.v and UapiRoundtrip.v (ipc-uapi.h): the text protocol of userspace daemons; what is
      written for a device is parsed back into it.
    - Netlink.v and NetlinkOk.v (netlink.h): attributes, messages, callbacks and sockets.  Shown:
      what is written is read back attribute by attribute, checked writes stay within the
      buffer, and invariants of callbacks carry over whole dumps, also of attributes the tools
      did not write.  NetlinkSocket.v: the socket functions over the system calls, as an
      implementation of [NetlinkKernel] that passes on whole datagrams only.
    - IpcLinux.v (ipc-linux.h, linux/wireguard.h), the back end for the kernel module.
      IpcLinuxSet.v: [cut] is the machine that splits peers into fragments; for a device whose
      own attributes, which are written without a check, fit the buffer, the messages of
      [kernel_set_device] make its steps, each message within the buffer, the call ends and
      stops at the first refusal.  IpcLinuxGet.v: those messages, dumped back, are read and
      joined into the device that was set, unless it has a magic header that the messages do
      not carry (one of three characters is read as a number).  IpcLinuxDump.v: a device read from any dump is
      well formed, and interrupted dumps are read again.
    - IpcUnix.v and IpcUnixOk.v (ipc-uapi-unix.h, ipc.c): the sockets of daemons and the choice
      between a daemon and the kernel.  Shown: the list of interfaces holds the tunnels of the
      link dump and the daemons behind the sockets, and nothing else.
    - Highlighter.v and HighlighterOk.v (contrib/highlighter): the spans are in order and in
      bounds, every character of the input is printed once, and the key validator agrees with
      the configuration reader.
    - Rfc7748.v: the function X25519 of RFC 7748 over the integers modulo 2^255 - 19
      ([x25519]), which the two implementations of curve25519.c are compared with.
      Curve25519.v, Curve25519Field.v, Curve25519Ok.v (curve25519-hacl64.h): the one for
      machines with 128-bit integers, on five 51-bit words.  Fiat32.v, Fiat32Field.v,
      Fiat32Ok.v (curve25519-fiat32.h): the one for the others, on ten words of 26 and 25
      bits.  Prime25519.v: 2^255 - 19 is prime.  X25519.v: each implementation, its integers
      wrapping around as those of C, writes the bytes of [x25519], and the two builds agree on every
      input, although their ladders do not start at the same bit.
    - Keys.v (genkey.c, pubkey.c) and Main.v (wg.c): the commands that make keys, and the
      dispatch, with what a whole run can and cannot do and the status it exits with.
    - Regex.v: the patterns of <regex.h> that awg-quick uses; the matcher computes their
      meaning.  AndroidShell.v, AndroidBinder.v, Android.v, AndroidUp.v (wg-quick/android.c):
      the commands with their output, the DNS resolver service, and every function up to the
      exit handler.  AndroidScript.v: a phone for concrete runs.  Shown: a run of [up] that exits
      deletes the interface it began to create exactly when it fails, unless the name of the
      interface is not a pattern (AndroidRun.v); which users the ranges hold, for every
      content of the memory behind the list of applications, which is read (AndroidUsers.v); where the MTU
      comes from, and which rules an interface name matches (AndroidNet.v); addresses and
      servers are single arguments to the shell and fit their buffers, search domains are
      not quoted (AndroidQuote.v); the parcel for the resolver starts with its size
      (AndroidParcel.v); the file handed to [awg setconf] is what [awg showconf] printed, and
      is read as that device (AndroidConf.v).
    - WgCurve.v, WgDevice.v (contrib/embeddable-wg-library): keys, and devices over netlink.
      WgCurveOk.v: the library's X25519, sixteen signed words with partial arithmetic, computes
      [x25519] and never overflows.  WgKeysOk.v: base64 and random keys agree with the tools.
      WgDeviceOk.v: setting and reading agree with IpcLinux.v on the common fields, by a
      simulation of the callbacks; after an interrupted dump reading never returns; adding
      an interface takes any acknowledgement for its own.
    - KernelImage.v: what a device is after its way through the structures of a kernel, shared by
      the next three back ends.  Bsd.v, FreeBsd.v, FreeBsdOk.v (ipc-freebsd.h): the nvlists of a
      device.  OpenBsd.v, OpenBsdOk.v (ipc-openbsd.h, uapi/openbsd/net/if_wg.h): structures in
      one buffer.  Shown: a device that is set is read back, on FreeBSD whole, on OpenBSD without
      IPv6 endpoints and the packets I1 to I5, and when it has not both peers and attributes of
      AmneziaWG, whose members overlap (what such a buffer holds is left to the class [WgData]);
      a string that is NULL though its flag is set ends the call; a bad prefix is an error that its caller does not
      take for one; the loop around the ioctl ends.
    - WinHash.v (wincompat/include/hashtable.h): the hash table refines a finite map.  WinLibc.v
      (wincompat/libc.c): [getline] reads lines.  WinPipes.v (ipc-uapi-windows.h): the pipes of
      daemons.  IpcWindows.v, IpcWindowsOk.v (ipc-windows.h, uapi/windows/wireguard.h): adapters,
      their cache, and devices as structures; [errno] is part of the state.  Shown: a device that
      is set is read back without its mark, the size of the buffer is exact or refused, and the
      caches of adapters and pipes answer as a new enumeration, for adapters that have
      an instance and an interface each.
    - ElfCleaner.v (../../elf-cleaner): the file as bytes that are read and written through the
      structures of elf.h, [process_elf] for both classes, [parse_file], [argmatch] and [main].
      ElfCleanerOk.v: cleaning a dynamic section permutes its cleaned entries, with the null ones
      last when they were before, and touches nothing else, by an invariant of the loop that
      exchanges entries; a dry run permutes the entries or leaves the file.
      ElfFileOk.v: the command of the build on a whole file, and a dry run of it.
    - NatPunch.v, NatPunchOk.v (contrib/nat-hole-punching): the server's table, the client, its
      packet filter and the kernel's machine for it.  Shown: the server answers with the address
      from which a key last sent; a client whose peers the server has heard sets all their
      endpoints in one round.

    ** Fuel

    Loops that are not structural take a number of turns.  [resolve_loop] may run for ever by
    design (WG_ENDPOINT_RESOLUTION_RETRIES=infinity); with a limit, fuel above the limit is
    enough.  [name_loop] and the loops of [awg show] need more turns than there are names;
    [read_loop] one more than the bytes asked for, since each read gives at least one;
    [put_runs] one more than the length of the string.  [attr_loop] and [cb_run] have more
    turns than the bytes they walk over, of which every turn takes some; [set_loop] needs one
    more than there are peers and allowed IPs; [get_loop] one more than there are interrupted
    dumps; [recv_run] more than the datagrams of an answer.  The theorems state these bounds,
    and that the loops end within them.  [draw_netid] draws random numbers until one is large
    enough and is [Spinning] when all its draws are too small; [app_tokens] has more turns
    than there are bytes in the list and behind it.  [ob_get_loop] needs one more turn than the
    bound on the size the kernel reports; [list_devices] and [find_device] more than there are
    adapters; [win_get_loop] two when the driver keeps the size it asks for; [getline_all] more
    than there are lines.  [process_elf] needs more turns than there are program and section
    headers and twice the entries of the dynamic section, since the place of a removed entry is
    visited again; in a dry run too, where the index of the last entry goes down at each exchange.
    [punch_peers_loop] has more turns than there are bytes to read; [check_again] may go on for
    ever when a peer is never heard, and needs one turn when all are.

    ** What is not modelled

    The shell scripts of awg-quick for other systems; the other small programs of contrib, which
    pass values between system calls (kernel memory, control messages of sockets, notifications
    through libnl); the fuzzers, which
    call the modelled code; the start-up code of the Windows layer; the Go library with its Java
    bindings; and the Android application, which are in other languages or only pass values on.
    Freeing memory and closing handles are left out throughout. *)

From Stdlib Require Export ZArith Lia List Bool.
From Stdlib Require Export Strings.String Strings.Byte.
From stdpp Require Export base numbers list.
#[local] Open Scope Z_scope.

(** ** Bytes

    Every buffer of the program ([char *], [uint8_t []]) is a [list byte].  The
    numeric value of a byte is [b2z]; storing an integer expression into a
    [char] or [uint8_t] keeps its low eight bits, [z2b]. *)

Definition b2z (b : byte) : Z := Z.of_N (Byte.to_N b).

Definition z2b (z : Z) : byte :=
  match Byte.of_N (Z.to_N (z mod 256)) with
  | Some b => b
  | None => x00
  end.

(** A C string literal. *)
Definition text (s : string) : list byte := list_byte_of_string s.
Arguments text s%_string_scope.

#[export] Instance byte_eq_dec : EqDecision byte := Byte.byte_eq_dec.

(** ** Machine integers

    Unsigned [w]-bit values are integers in [0 .. 2^w-1]; [uw w] is the
    wrap-around of unsigned arithmetic and of a conversion to an unsigned type. *)

Definition uw (w z : Z) : Z := z mod 2 ^ w.
Definition u8 : Z -> Z := uw 8.
Definition u16 : Z -> Z := uw 16.
Definition u32 : Z -> Z := uw 32.
Definition u64 : Z -> Z := uw 64.
Definition u128 : Z -> Z := uw 128.

(** What the program leaves to the implementation: the signedness of plain
    [char] (signed on x86, unsigned on ARM) and the width of [unsigned long]. *)
Class Platform := {
  char_signed : bool;
  ulong_bits : Z;
}.

Definition ULONG_MAX `{Platform} : Z := 2 ^ ulong_bits - 1.

(** The two data models the tools are built for. *)
Class PlatformOk (P : Platform) := {
  ulong_bits_cases : ulong_bits = 32 \/ ulong_bits = 64;
}.

Definition lp64_x86 : Platform := {| char_signed := true; ulong_bits := 64 |}.
Definition ilp32_arm : Platform := {| char_signed := false; ulong_bits := 32 |}.

#[export] Instance lp64_x86_ok : PlatformOk lp64_x86.
Proof. constructor. by right. Qed.
#[export] Instance ilp32_arm_ok : PlatformOk ilp32_arm.
Proof. constructor. by left. Qed.

(** The [int] a [char] promotes to. *)
Definition char_val `{Platform} (c : byte) : Z :=
  if char_signed && (128 <=? b2z c) then b2z c - 256 else b2z c.

(** ** Outcomes

    A function of the program returns, leaves the process through [exit], or, for
    the one loop that may run for ever, is still running when the fuel is spent. *)

Inductive outcome (A : Type) : Type :=
| Returns (a : A)
| Exits (code : Z)
| OutOfFuel.
Arguments Returns {A} a.
Arguments Exits {A} code.
Arguments OutOfFuel {A}.

Definition obind {A B : Type} (m : outcome A) (k : A -> outcome B) : outcome B :=
  match m with
  | Returns a => k a
  | Exits code => Exits code
  | OutOfFuel => OutOfFuel
  end.

Declare Scope awg_scope.
Delimit Scope awg_scope with awg.
Notation "'let!' x ':=' m 'in' k" := (obind m (fun x => k))
  (at level 10, x binder, m at level 100, k at level 200) : awg_scope.

(** ** Record update

    [r <| field := v |>] is [r] with [field] replaced; the setter of a projection is
    found by abstracting the projection in the eta-expansion of the record. *)

Class Eta (R : Type) := eta : R -> R.
Class Setter {R T : Type} (proj : R -> T) := modify : (T -> T) -> R -> R.
Arguments modify {R T} proj {_} f r /.

Ltac head_of t := lazymatch t with ?f _ => head_of f | _ => t end.

Ltac derive_setter proj :=
  match type of proj with
  | ?R -> ?T =>
      let e := constr:(_ : Eta R) in
      let e := eval cbv delta [eta] in e in
      let h := head_of e in
      let body := eval cbv beta delta [h] in e in
      match eval pattern proj in body with
      | ?abs _ =>
          let t := eval cbv beta in
            (fun (f : T -> T) (r : R) => abs (fun x => f (proj x)) r) in
          exact t
      end
  end.

#[export] Hint Extern 1 (Setter ?proj) => derive_setter proj : typeclass_instances.

Notation "r '<|' proj ':=' v '|>'" := (modify proj (fun _ => v) r)
  (at level 1, left associativity, proj constr, v constr at level 99) : awg_scope.
Notation "r '<|' proj '::=' f '|>'" := (modify proj f r)
  (at level 1, left associativity, proj constr, f constr at level 99) : awg_scope.


(** ** Lists of bytes *)

(** All the bytes, for the arguments by exhaustion. *)
Definition all_bytes : list byte := map z2b (seqZ 0 256).

(** [buf\[i\]]; the program never reads past the terminating NUL, which is not
    part of the list, so the default is that NUL. *)
Definition byte_at (s : list byte) (i : nat) : byte := nth i s x00.

(** The little-endian integer a buffer holds. *)
Fixpoint le_bytes (s : list byte) : Z :=
  match s with
  | [] => 0
  | b :: s' => b2z b + 256 * le_bytes s'
  end.

(** The first [n] bytes of the little-endian image of an integer. *)
Fixpoint bytes_le (n : nat) (z : Z) : list byte :=
  match n with
  | O => []
  | S n' => z2b z :: bytes_le n' (z / 256)
  end.

(** ** Automation *)

Create HintDb awg.
Create Rewrite HintDb awg.

(** Closes the goals on booleans over integer comparisons. *)
Ltac boolz :=
  repeat match goal with
  | H : _ && _ = true |- _ => apply andb_true_iff in H; destruct H
  | H : _ || _ = false |- _ => apply orb_false_iff in H; destruct H
  | H : negb _ = true |- _ => apply negb_true_iff in H
  | H : negb _ = false |- _ => apply negb_false_iff in H
  | H : (_ <? _) = true |- _ => apply Z.ltb_lt in H
  | H : (_ <? _) = false |- _ => apply Z.ltb_ge in H
  | H : (_ <=? _) = true |- _ => apply Z.leb_le in H
  | H : (_ <=? _) = false |- _ => apply Z.leb_gt in H
  | H : (_ =? _) = true |- _ => apply Z.eqb_eq in H
  | H : (_ =? _) = false |- _ => apply Z.eqb_neq in H
  end.

(** Linear arithmetic with divisions and remainders by constants. *)
Ltac zlia := Z.div_mod_to_equations; lia.

(** Splits on the innermost scrutinee of the goal, keeping its equation. *)
Ltac split_match :=
  match goal with
  | |- context [match ?x with _ => _ end] =>
      lazymatch x with context [match _ with _ => _ end] => fail | _ => destruct x eqn:? end
  end.

(** ** Lemmas on bytes *)

Lemma b2z_range (b : byte) : 0 <= b2z b < 256.
Proof. unfold b2z. pose proof (Byte.to_N_bounded b). lia. Qed.

Lemma b2z_inj (a b : byte) : b2z a = b2z b -> a = b.
Proof.
  unfold b2z. intros H%N2Z.inj.
  pose proof (Byte.of_to_N a); pose proof (Byte.of_to_N b). congruence.
Qed.

Lemma b2z_z2b (z : Z) : b2z (z2b z) = z mod 256.
Proof.
  unfold z2b, b2z. pose proof (Z.mod_pos_bound z 256 eq_refl).
  destruct (Byte.of_N _) eqn:E.
  - apply Byte.to_of_N in E. rewrite E. lia.
  - apply Byte.of_N_None_iff in E. lia.
Qed.

Lemma b2z_z2b_small (z : Z) : 0 <= z < 256 -> b2z (z2b z) = z.
Proof. intros. by rewrite b2z_z2b, Z.mod_small. Qed.

Lemma z2b_b2z (b : byte) : z2b (b2z b) = b.
Proof. apply b2z_inj, b2z_z2b_small, b2z_range. Qed.

Lemma elem_of_all_bytes (b : byte) : In b all_bytes.
Proof.
  unfold all_bytes. apply in_map_iff. exists (b2z b). split; [apply z2b_b2z |].
  apply list_elem_of_In, elem_of_seqZ. pose proof (b2z_range b). lia.
Qed.

Lemma z2b_eq (a b : Z) : a mod 256 = b mod 256 -> z2b a = z2b b.
Proof. intros H. unfold z2b. by rewrite H. Qed.

(** A decidable fact that holds of the 256 bytes holds of every byte. *)
Lemma byte_exhaust (P : byte -> bool) :
  forallb P all_bytes = true -> forall b, P b = true.
Proof. intros H b. exact (proj1 (forallb_forall P all_bytes) H b (elem_of_all_bytes b)). Qed.

Lemma byte_eqb_refl (b : byte) : Byte.eqb b b = true.
Proof. by apply Byte.byte_dec_lb. Qed.

Lemma byte_eqb_eq (a b : byte) : Byte.eqb a b = true <-> a = b.
Proof. split; [apply Byte.byte_dec_bl | apply Byte.byte_dec_lb]. Qed.

Lemma byte_eqb_neq (a b : byte) : Byte.eqb a b = false <-> a <> b.
Proof.
  rewrite <- byte_eqb_eq. destruct (Byte.eqb a b); split; congruence.
Qed.

(** ** Lemmas on machine integers *)

Lemma uw_range (w z : Z) : 0 <= w -> 0 <= uw w z < 2 ^ w.
Proof. intros. apply Z.mod_pos_bound, Z.pow_pos_nonneg; lia. Qed.

Lemma uw_small (w z : Z) : 0 <= z < 2 ^ w -> uw w z = z.
Proof. apply Z.mod_small. Qed.

Lemma land_mask (a n : Z) : 0 <= n -> Z.land a (2 ^ n - 1) = a mod 2 ^ n.
Proof. intros. rewrite <- Z.land_ones by done. f_equal. by rewrite Z.ones_equiv, <- Z.sub_1_r. Qed.

(** Or-ing two values with no bit in common adds them. *)
Lemma lor_disjoint (a b n : Z) :
  0 <= n -> 0 <= b < 2 ^ n -> Z.lor (a * 2 ^ n) b = a * 2 ^ n + b.
Proof.
  intros Hn Hb.
  assert (Z.land (a * 2 ^ n) b = 0) as H0.
  { apply Z.bits_inj'. intros i Hi. rewrite Z.land_spec, Z.bits_0.
    destruct (Z.lt_ge_cases i n) as [? | Hni].
    - by rewrite Z.mul_pow2_bits_low.
    - assert (Z.testbit b i = false) as ->; [| by rewrite andb_false_r].
      apply Z.testbit_false; [done |].
      rewrite Z.div_small; [done |]. split; [lia |].
      eapply Z.lt_le_trans; [apply Hb |]. by apply Z.pow_le_mono_r. }
  rewrite Z.add_nocarry_lxor by done. by rewrite Z.lxor_lor.
Qed.

Lemma land_neg_iff (a b : Z) : Z.land a b < 0 <-> a < 0 /\ b < 0.
Proof. apply Z.land_neg. Qed.

Lemma lor_neg_iff (a b : Z) : Z.lor a b < 0 <-> a < 0 \/ b < 0.
Proof. apply Z.lor_neg. Qed.

(** The integers of [n + 1] bits, sign included. *)
Lemma small_range_shiftr (z n : Z) : 0 <= n ->
  - 2 ^ n <= z < 2 ^ n <-> Z.shiftr z n = 0 \/ Z.shiftr z n = -1.
Proof.
  intros Hn. rewrite Z.shiftr_div_pow2 by done.
  assert (0 < 2 ^ n) by (apply Z.pow_pos_nonneg; lia).
  pose proof (Z.div_mod z (2 ^ n)). pose proof (Z.mod_pos_bound z (2 ^ n)).
  split; [| nia]. intros. assert (z / 2 ^ n < 1) by (apply Z.div_lt_upper_bound; lia).
  assert (-1 <= z / 2 ^ n) by (apply Z.div_le_lower_bound; lia). lia.
Qed.

Lemma land_small_range (a b n : Z) :
  0 <= n -> - 2 ^ n <= a < 2 ^ n -> - 2 ^ n <= b < 2 ^ n ->
  - 2 ^ n <= Z.land a b < 2 ^ n.
Proof.
  intros Hn. rewrite !small_range_shiftr, Z.shiftr_land by done.
  intros [-> | ->] [-> | ->]; cbn; auto.
Qed.

Lemma lor_small_range (a b n : Z) :
  0 <= n -> - 2 ^ n <= a < 2 ^ n -> - 2 ^ n <= b < 2 ^ n ->
  - 2 ^ n <= Z.lor a b < 2 ^ n.
Proof.
  intros Hn. rewrite !small_range_shiftr, Z.shiftr_lor by done.
  intros [-> | ->] [-> | ->]; cbn; auto.
Qed.

Lemma le_bytes_range (s : list byte) : 0 <= le_bytes s < 256 ^ Z.of_nat (length s).
Proof.
  induction s as [|b s IH]; cbn [le_bytes length]; [lia |].
  pose proof (b2z_range b).
  rewrite Nat2Z.inj_succ, Z.pow_succ_r by lia. lia.
Qed.

Lemma bytes_le_length (n : nat) (z : Z) : length (bytes_le n z) = n.
Proof. revert z. induction n; intros; cbn; auto. Qed.

Lemma le_bytes_bytes_le (n : nat) (z : Z) :
  le_bytes (bytes_le n z) = z mod 256 ^ Z.of_nat n.
Proof.
  revert z. induction n as [|n IH]; intros z; cbn [le_bytes bytes_le].
  - by rewrite Z.mod_1_r.
  - rewrite IH, b2z_z2b, Nat2Z.inj_succ, Z.pow_succ_r by lia.
    rewrite Z.rem_mul_r by (try apply Z.pow_nonzero; lia). lia.
Qed.

Lemma bytes_le_le_bytes (s : list byte) : bytes_le (length s) (le_bytes s) = s.
Proof.
  induction s as [|b s IH]; cbn [length bytes_le le_bytes]; [done |].
  pose proof (b2z_range b). f_equal.
  - apply b2z_inj. rewrite b2z_z2b, (Z.mul_comm 256), Z.mod_add, Z.mod_small; lia.
  - rewrite (Z.mul_comm 256), Z.div_add, Z.div_small by lia. apply IH.
Qed.

(** ** Lemmas on lists *)

Lemma map_byte_at {A} (f : byte -> A) (s : list byte) (n : nat) :
  length s = n -> map (fun i => f (byte_at s i)) (seq 0 n) = map f s.
Proof.
  intros <-. induction s as [|b s IH]; [done |]. cbn [length seq map]. f_equal.
  rewrite <- seq_shift, map_map. exact IH.
Qed.

Lemma byte_at_pairs (f g : byte -> byte) (s : list byte) (i : nat) : (i < length s)%nat ->
  byte_at (concat (map (fun b => [f b; g b]) s)) (2 * i) = f (byte_at s i)
  /\ byte_at (concat (map (fun b => [f b; g b]) s)) (2 * i + 1) = g (byte_at s i).
Proof.
  revert i. induction s as [|b s IH]; intros i Hi; cbn in Hi; [lia |].
  destruct i as [|i]; [done |].
  replace (2 * S i)%nat with (S (S (2 * i))) by lia. apply (IH i). lia.
Qed.

Lemma forallb_weaken {A} (f g : A -> bool) (l : list A) :
  (forall x, f x = true -> g x = true) -> forallb f l = true -> forallb g l = true.
Proof. rewrite !forallb_forall. eauto. Qed.

Lemma forallb_not_in {A} (f : A -> bool) (l : list A) (x : A) :
  f x = false -> forallb f l = true -> ~ In x l.
Proof. rewrite forallb_forall. intros Hx Hl Hin. apply Hl in Hin. congruence. Qed.

#[export] Hint Resolve b2z_range : awg.
#[export] Hint Rewrite b2z_z2b z2b_b2z byte_eqb_refl : awg.
