(* ===== verification/Ctype.v ===== *)
(** * Character classes (src/ctype.h)

    The branch-free, locale-independent replacements of [<ctype.h>]: each is the
    bit trick of the source over the [int] argument, with the specification that
    it decides the intended character class on every [char] value, signed or not,
    and on [EOF]. *)

From S2P Require Import Prelude.
#[local] Open Scope Z_scope.

Definition char_is_space (c : Z) : bool :=
  let d := u8 (c - 9) in
  negb (Z.land (Z.shiftr 0x80001F (Z.land d 31)) (Z.shiftr 1 (Z.shiftr d 5)) =? 0).

Definition char_is_digit (c : Z) : bool :=
  negb (Z.shiftr (u32 (Z.land (47 - c) (c - 58))) 31 =? 0).

Definition char_is_alpha (c : Z) : bool :=
  negb (Z.shiftr (u32 (Z.land (96 - Z.lor c 32) (Z.lor c 32 - 123))) 31 =? 0).

(** The classes of a character of a buffer. *)
Definition is_space_char `{Platform} (c : byte) : bool := char_is_space (char_val c).
Definition is_digit_char `{Platform} (c : byte) : bool := char_is_digit (char_val c).

(** The sign bit of a 32-bit value. *)
Lemma sign_bit (z : Z) : - 2 ^ 31 <= z < 2 ^ 31 ->
  Z.shiftr (u32 z) 31 = if z <? 0 then 1 else 0.
Proof.
  intros. unfold u32, uw. rewrite Z.shiftr_div_pow2 by lia.
  destruct (Z.ltb_spec z 0).
  - rewrite <- (Z.mod_add z 1), (Z.mod_small (z + 1 * 2 ^ 32)) by lia.
    symmetry. apply Z.div_unique with (r := z + 2 ^ 31); lia.
  - rewrite Z.mod_small, Z.div_small; lia.
Qed.

(** [char_is_space] recognises tab, newline, vertical tab, form feed, carriage
    return and space. *)
Lemma char_is_space_iff (c : Z) : -128 <= c <= 255 ->
  char_is_space c = true <-> 9 <= c <= 13 \/ c = 32.
Proof.
  intros Hc.
  assert (forallb (fun c => Bool.eqb (char_is_space c)
    (((9 <=? c) && (c <=? 13)) || (c =? 32))) (seqZ (-128) 384) = true) as H by by vm_compute.
  rewrite forallb_forall in H. specialize (H c).
  rewrite Bool.eqb_true_iff in H. rewrite H; [lia |].
  apply list_elem_of_In, elem_of_seqZ. lia.
Qed.

Lemma char_is_digit_iff (c : Z) : - 2 ^ 31 + 58 <= c < 2 ^ 31 ->
  char_is_digit c = true <-> 48 <= c <= 57.
Proof.
  intros. unfold char_is_digit.
  rewrite sign_bit by (apply land_small_range; lia).
  pose proof (land_neg_iff (47 - c) (c - 58)).
  destruct (Z.ltb_spec (Z.land (47 - c) (c - 58)) 0); cbn; lia.
Qed.

Lemma char_is_alpha_iff (c : Z) : -128 <= c <= 255 ->
  char_is_alpha c = true <-> 65 <= c <= 90 \/ 97 <= c <= 122.
Proof.
  intros Hc.
  assert (forallb (fun c => Bool.eqb (char_is_alpha c)
    (((65 <=? c) && (c <=? 90)) || ((97 <=? c) && (c <=? 122)))) (seqZ (-128) 384) = true)
    as H by by vm_compute.
  rewrite forallb_forall in H. specialize (H c).
  rewrite Bool.eqb_true_iff in H. rewrite H; [lia |].
  apply list_elem_of_In, elem_of_seqZ. lia.
Qed.

Lemma char_val_range `{Platform} (c : byte) : -128 <= char_val c <= 255.
Proof.
  unfold char_val. pose proof (b2z_range c).
  destruct char_signed; cbn; [| lia]. destruct (Z.leb_spec 128 (b2z c)); lia.
Qed.

Lemma char_val_small `{Platform} (c : byte) : b2z c < 128 -> char_val c = b2z c.
Proof.
  intros. unfold char_val. destruct (Z.leb_spec 128 (b2z c)); [lia |].
  by rewrite andb_false_r.
Qed.

(** White space and digits are below 128, so the signedness of [char] does not
    matter to these two classes. *)
Lemma is_space_char_iff `{Platform} (c : byte) :
  is_space_char c = true <-> 9 <= b2z c <= 13 \/ b2z c = 32.
Proof.
  unfold is_space_char. rewrite char_is_space_iff by apply char_val_range.
  pose proof (b2z_range c). unfold char_val.
  destruct char_signed; cbn; [| done].
  destruct (Z.leb_spec 128 (b2z c)); lia.
Qed.

Lemma is_digit_char_iff `{Platform} (c : byte) :
  is_digit_char c = true <-> 48 <= b2z c <= 57.
Proof.
  unfold is_digit_char. pose proof (char_val_range c).
  rewrite char_is_digit_iff by lia.
  pose proof (b2z_range c). unfold char_val.
  destruct char_signed; cbn; [| done].
  destruct (Z.leb_spec 128 (b2z c)); lia.
Qed.
