(* ===== verification/CString.v ===== *)
(** * The C string functions the program calls

    A C string is the [list byte] before its terminating NUL, so [strlen] is
    [length] and a pointer into a string is the suffix it points to.  Numbers are
    read by [strtoul] and its variants and written by the ["%u"], ["%d"] and ["%x"]
    conversions. *)

From S2P Require Import Prelude Ctype.
#[local] Open Scope Z_scope.

(** ** Comparison *)

Fixpoint beq (a b : list byte) : bool :=
  match a, b with
  | [], [] => true
  | x :: a', y :: b' => Byte.eqb x y && beq a' b'
  | _, _ => false
  end.

Definition to_lower (c : byte) : byte :=
  if (65 <=? b2z c) && (b2z c <=? 90) then z2b (b2z c + 32) else c.

(** [!strcmp(a, b)], [!strcasecmp(a, b)] and [!strncasecmp(a, b, n)]. *)
Definition strcmp_eq (a b : list byte) : bool := beq a b.
Definition strcasecmp_eq (a b : list byte) : bool := beq (map to_lower a) (map to_lower b).
Definition strncasecmp_eq (a b : list byte) (n : nat) : bool :=
  beq (map to_lower (take n a)) (map to_lower (take n b)).

(** ** Search *)

(** The string a buffer holds: its bytes up to the first NUL. *)
Fixpoint c_str (s : list byte) : list byte :=
  match s with
  | [] => []
  | c :: s' => if Byte.eqb c x00 then [] else c :: c_str s'
  end.

(** [strchr(s, c) != NULL]. *)
Definition has_byte (c : byte) (s : list byte) : bool := existsb (Byte.eqb c) s.

(** [strsep(&s, d)]: the token before the first delimiter, and what [s] becomes. *)
Fixpoint strsep (d : byte) (s : list byte) : list byte * option (list byte) :=
  match s with
  | [] => ([], None)
  | c :: s' => if Byte.eqb c d then ([], Some s')
               else let '(tok, rest) := strsep d s' in (c :: tok, rest)
  end.

(** The tokens of [while ((tok = strsep(&s, d)))]. *)
Fixpoint split_on (d : byte) (s : list byte) : list (list byte) :=
  match s with
  | [] => [[]]
  | c :: s' =>
      if Byte.eqb c d then [] :: split_on d s'
      else match split_on d s' with
           | tok :: toks => (c :: tok) :: toks
           | [] => [[c]]
           end
  end.

(** [strrchr(s, d)]: what is before and after the last delimiter. *)
Fixpoint split_last (d : byte) (s : list byte) : option (list byte * list byte) :=
  match s with
  | [] => None
  | c :: s' =>
      match split_last d s' with
      | Some (a, b) => Some (c :: a, b)
      | None => if Byte.eqb c d then Some ([], s') else None
      end
  end.

(** The successive results of [getline]: every line keeps its newline, and the last
    one may lack it. *)
Fixpoint getlines (s : list byte) : list (list byte) :=
  match s with
  | [] => []
  | c :: s' =>
      if Byte.eqb c x0a then [c] :: getlines s'
      else match getlines s' with
           | l :: ls => (c :: l) :: ls
           | [] => [[c]]
           end
  end.

(** ** Numbers *)

(** The value of a digit in bases up to 36. *)
Definition digit_val (c : byte) : option Z :=
  let z := b2z c in
  if (48 <=? z) && (z <=? 57) then Some (z - 48)
  else if (97 <=? z) && (z <=? 122) then Some (z - 87)
  else if (65 <=? z) && (z <=? 90) then Some (z - 55)
  else None.

Definition base_digit (base : Z) (c : byte) : option Z :=
  match digit_val c with
  | Some d => if d <? base then Some d else None
  | None => None
  end.

(** The longest run of digits, its value, and what follows. *)
Fixpoint scan_digits (base acc : Z) (s : list byte) : Z * list byte :=
  match s with
  | [] => (acc, [])
  | c :: s' =>
      match base_digit base c with
      | Some d => scan_digits base (acc * base + d) s'
      | None => (acc, s)
      end
  end.

(** [isspace] in the C locale. *)
Definition c_isspace (c : byte) : bool := ((9 <=? b2z c) && (b2z c <=? 13)) || (b2z c =? 32).

Fixpoint skip_space (s : list byte) : list byte :=
  match s with
  | c :: s' => if c_isspace c then skip_space s' else s
  | [] => []
  end.

Definition read_sign (s : list byte) : bool * list byte :=
  match s with
  | c :: s' => if Byte.eqb c "-"%byte then (true, s')
               else if Byte.eqb c "+"%byte then (false, s') else (false, s)
  | [] => (false, [])
  end.

(** The optional ["0x"] of base 16, which counts only before a digit. *)
Definition skip_0x (base : Z) (s : list byte) : list byte :=
  match s with
  | z :: x :: d :: _ =>
      if (base =? 16) && Byte.eqb z "0"%byte && Byte.eqb (to_lower x) "x"%byte
         && (match base_digit 16 d with Some _ => true | None => false end)
      then drop 2 s else s
  | _ => s
  end.

(** The common part of the [strto*] family: the sign, the magnitude and the end
    pointer; [None] when there is no digit. *)
Definition strto_scan (base : Z) (s : list byte) : option (bool * Z * list byte) :=
  let '(neg, s') := read_sign (skip_space s) in
  let digits := skip_0x base s' in
  let '(v, rest) := scan_digits base 0 digits in
  if (length rest =? length digits)%nat then None else Some (neg, v, rest).

(** [strtoul(s, &end, base)] with a [bits]-wide result: saturation on overflow,
    negation modulo [2^bits] after a minus sign. *)
Definition strtou (bits base : Z) (s : list byte) : Z * list byte :=
  match strto_scan base s with
  | None => (0, s)
  | Some (neg, v, rest) =>
      (if 2 ^ bits - 1 <? v then 2 ^ bits - 1 else if neg then uw bits (- v) else v, rest)
  end.

Definition strtoul `{Platform} : Z -> list byte -> Z * list byte := strtou ulong_bits.
Definition strtoull : Z -> list byte -> Z * list byte := strtou 64.

Definition strtoll (base : Z) (s : list byte) : Z * list byte :=
  match strto_scan base s with
  | None => (0, s)
  | Some (neg, v, rest) =>
      let v := if neg then - v else v in
      (Z.max (- 2 ^ 63) (Z.min (2 ^ 63 - 1) v), rest)
  end.

(** The digits of a number, most significant first; [fuel] bounds their count. *)
Definition digit_char (d : Z) : byte := if d <? 10 then z2b (d + 48) else z2b (d + 87).

Fixpoint digits_of (fuel : nat) (base n : Z) (acc : list byte) : list byte :=
  match fuel with
  | O => acc
  | S fuel' =>
      let acc' := digit_char (n mod base) :: acc in
      if n <? base then acc' else digits_of fuel' base (n / base) acc'
  end.

(** ["%u"] and ["%x"]: a number has at most one digit more than its binary length. *)
Definition print_base (base n : Z) : list byte := digits_of (S (Z.to_nat (Z.log2 n))) base n [].
Definition print_u : Z -> list byte := print_base 10.
Definition print_x : Z -> list byte := print_base 16.

(** ["%d"]. *)
Definition print_d (n : Z) : list byte :=
  if n <? 0 then "-"%byte :: print_u (- n) else print_u n.

(** ** Lemmas on comparison and search *)

Lemma beq_refl (a : list byte) : beq a a = true.
Proof. induction a; cbn; [done |]. by rewrite byte_eqb_refl. Qed.

Lemma beq_eq (a b : list byte) : beq a b = true <-> a = b.
Proof.
  split; [| intros ->; apply beq_refl]. revert b.
  induction a as [|x a IH]; intros [|y b]; cbn; try done.
  intros [->%byte_eqb_eq H]%andb_true_iff. f_equal. by apply IH.
Qed.

Lemma beq_neq (a b : list byte) : a <> b -> beq a b = false.
Proof. destruct (beq a b) eqn:E; [| done]. apply beq_eq in E. done. Qed.

Lemma split_on_no (d : byte) (s : list byte) : ~ In d s -> split_on d s = [s].
Proof.
  induction s as [|c s IH]; cbn; [done |]. intros H.
  destruct (Byte.eqb c d) eqn:E; [apply byte_eqb_eq in E; tauto |].
  rewrite IH by tauto. done.
Qed.

Lemma split_on_app (d : byte) (a s : list byte) :
  ~ In d a -> split_on d (a ++ d :: s) = a :: split_on d s.
Proof.
  induction a as [|c a IH]; cbn; intros H.
  - by rewrite byte_eqb_refl.
  - destruct (Byte.eqb c d) eqn:E; [apply byte_eqb_eq in E; tauto |].
    rewrite IH by tauto. done.
Qed.

(** The token loop over [strsep] is [split_on]. *)
Lemma split_on_strsep (d : byte) (s : list byte) :
  split_on d s = let '(tok, rest) := strsep d s in
                 tok :: match rest with Some s' => split_on d s' | None => [] end.
Proof.
  induction s as [|c s IH]; cbn; [done |].
  destruct (Byte.eqb c d); [done |]. rewrite IH. by destruct (strsep d s).
Qed.

Lemma strsep_app (d : byte) (a s : list byte) : ~ In d a -> strsep d (a ++ d :: s) = (a, Some s).
Proof.
  induction a as [|c a IH]; cbn; intros H.
  - by rewrite byte_eqb_refl.
  - destruct (Byte.eqb c d) eqn:E; [apply byte_eqb_eq in E; tauto |].
    rewrite IH by tauto. done.
Qed.

Lemma strsep_no (d : byte) (s : list byte) : ~ In d s -> strsep d s = (s, None).
Proof.
  induction s as [|c s IH]; cbn; [done |]. intros H.
  destruct (Byte.eqb c d) eqn:E; [apply byte_eqb_eq in E; tauto |].
  rewrite IH by tauto. done.
Qed.

Lemma split_last_no (d : byte) (s : list byte) : ~ In d s -> split_last d s = None.
Proof.
  induction s as [|c s IH]; cbn; [done |]. intros H. rewrite IH by tauto.
  destruct (Byte.eqb c d) eqn:E; [apply byte_eqb_eq in E; tauto | done].
Qed.

Lemma split_last_app (d : byte) (a s : list byte) :
  ~ In d s -> split_last d (a ++ d :: s) = Some (a, s).
Proof.
  intros H. induction a as [|c a IH]; cbn.
  - rewrite split_last_no by done. by rewrite byte_eqb_refl.
  - by rewrite IH.
Qed.

Lemma has_byte_iff (c : byte) (s : list byte) : has_byte c s = true <-> In c s.
Proof.
  unfold has_byte. rewrite existsb_exists. split.
  - intros (x & Hx & ->%byte_eqb_eq). done.
  - intros H. exists c. split; [done | apply byte_eqb_refl].
Qed.

Lemma c_str_no_nul (s : list byte) : ~ In x00 s -> c_str s = s.
Proof.
  induction s as [|c s IH]; cbn; [done |]. intros H.
  destruct (Byte.eqb c x00) eqn:E; [apply byte_eqb_eq in E; tauto |].
  rewrite IH by tauto. done.
Qed.

Lemma getlines_cons (l rest : list byte) :
  ~ In x0a l -> getlines (l ++ x0a :: rest) = (l ++ [x0a]) :: getlines rest.
Proof.
  induction l as [|c l IH]; cbn [app getlines In]; intros H.
  - done.
  - destruct (Byte.eqb c x0a) eqn:E; [apply byte_eqb_eq in E; tauto |].
    rewrite IH by tauto. done.
Qed.

(** ** Numbers are read back as they are printed *)

Lemma digit_char_val (d : Z) : 0 <= d < 36 -> digit_val (digit_char d) = Some d.
Proof.
  intros Hd.
  assert (forallb (fun d => match digit_val (digit_char d) with Some v => v =? d | None => false end)
    (seqZ 0 36) = true) as Hall by by vm_compute.
  rewrite forallb_forall in Hall. specialize (Hall d).
  destruct (digit_val (digit_char d)); [f_equal; apply Z.eqb_eq, Hall | discriminate Hall];
    apply list_elem_of_In, elem_of_seqZ; lia.
Qed.

Lemma base_digit_char (base d : Z) :
  base <= 36 -> 0 <= d < base -> base_digit base (digit_char d) = Some d.
Proof.
  intros. unfold base_digit. rewrite digit_char_val by lia.
  by rewrite (proj2 (Z.ltb_lt d base)) by lia.
Qed.

(** [ds] is a run of digits of value [n]. *)
Definition numeral (base n : Z) (ds : list byte) : Prop :=
  ds <> [] /\ Forall (fun c => is_Some (base_digit base c)) ds
  /\ forall a s, scan_digits base a (ds ++ s)
                 = scan_digits base (a * base ^ Z.of_nat (length ds) + n) s.

Lemma digits_of_numeral (fuel : nat) (base n : Z) (acc : list byte) :
  2 <= base <= 36 -> 0 <= n -> Z.log2 n < Z.of_nat fuel ->
  exists ds, digits_of fuel base n acc = ds ++ acc /\ numeral base n ds.
Proof.
  intros Hb. revert n acc. induction fuel as [|fuel IH]; intros n acc Hn Hf.
  { pose proof (Z.log2_nonneg n). lia. }
  cbn [digits_of]. pose proof (Z.mod_pos_bound n base ltac:(lia)).
  pose proof (base_digit_char base (n mod base) ltac:(lia) ltac:(lia)) as Hd.
  destruct (Z.ltb_spec n base).
  - exists [digit_char (n mod base)]. split; [done |]. split; [done |]. split.
    + constructor; [by eexists | done].
    + intros a s. cbn [app scan_digits length]. rewrite Hd.
      rewrite (Z.mod_small n base) by lia. f_equal. change (Z.of_nat 1) with 1. lia.
  - destruct (IH (n / base) (digit_char (n mod base) :: acc)) as (ds & -> & Hne & Hds & Hv).
    { apply Z.div_pos; lia. }
    { assert (n / base <= n / 2) by (apply Z.div_le_compat_l; lia).
      assert (Z.log2 (n / base) <= Z.log2 (n / 2)) by (by apply Z.log2_le_mono).
      assert (Z.log2 (n / 2) = Z.log2 n - 1); [| lia].
      rewrite <- Z.div2_div, Z.div2_spec, Z.log2_shiftr by lia.
      pose proof (Z.log2_pos n ltac:(lia)). lia. }
    exists (ds ++ [digit_char (n mod base)]). rewrite <- app_assoc. split; [done |].
    split; [by destruct ds |]. split.
    + apply Forall_app. split; [done |]. constructor; [by eexists | done].
    + intros a s. rewrite <- app_assoc, Hv. cbn [app scan_digits]. rewrite Hd. f_equal.
      rewrite length_app, Nat2Z.inj_add, Z.pow_add_r by lia. cbn [length].
      change (Z.of_nat 1) with 1. rewrite Z.pow_1_r.
      pose proof (Z.div_mod n base ltac:(lia)). nia.
Qed.

Lemma print_base_numeral (base n : Z) :
  2 <= base <= 36 -> 0 <= n -> numeral base n (print_base base n).
Proof.
  intros Hb Hn. pose proof (Z.log2_nonneg n).
  destruct (digits_of_numeral (S (Z.to_nat (Z.log2 n))) base n []) as (ds & E & H'); [done | done | lia |].
  unfold print_base. by rewrite E, app_nil_r.
Qed.

(** A digit of base at most 36 is neither white space nor a sign. *)
Lemma base_digit_plain (base : Z) (c : byte) : is_Some (base_digit base c) ->
  c_isspace c = false /\ Byte.eqb c "-"%byte = false /\ Byte.eqb c "+"%byte = false.
Proof.
  intros [d Hd]. unfold base_digit in Hd. destruct (digit_val c) eqn:E; [| done].
  assert (forallb (fun c => match digit_val c with
    | Some _ => negb (c_isspace c) && negb (Byte.eqb c "-"%byte) && negb (Byte.eqb c "+"%byte)
    | None => true end) all_bytes = true) as Hall by by vm_compute.
  pose proof (byte_exhaust _ Hall c) as Hc. cbv beta in Hc. rewrite E in Hc. clear Hall. by boolz.
Qed.

Lemma numeral_scan (base n : Z) (ds : list byte) :
  numeral base n ds -> scan_digits base 0 ds = (n, []).
Proof. intros (_ & _ & H). specialize (H 0 []). rewrite app_nil_r in H. by rewrite H. Qed.

Lemma numeral_head (base n : Z) (ds : list byte) : numeral base n ds ->
  skip_space ds = ds /\ read_sign ds = (false, ds).
Proof.
  intros (Hne & Hds & _). destruct ds as [|c ds]; [done |].
  apply Forall_cons in Hds as [(Hs & Hm & Hp)%base_digit_plain _].
  cbn [skip_space read_sign]. by rewrite Hs, Hm, Hp.
Qed.

Lemma skip_0x_10 (s : list byte) : skip_0x 10 s = s.
Proof. by destruct s as [|? [|? [|? ?]]]. Qed.

Lemma strto_scan_10 (n : Z) (ds : list byte) :
  numeral 10 n ds -> strto_scan 10 ds = Some (false, n, []).
Proof.
  intros Hd. unfold strto_scan. destruct (numeral_head _ _ _ Hd) as [-> ->].
  rewrite skip_0x_10, (numeral_scan _ _ _ Hd).
  destruct Hd as (Hne & _). by destruct ds.
Qed.

Lemma strto_scan_0x (n : Z) (ds : list byte) :
  numeral 16 n ds -> strto_scan 16 ("0"%byte :: "x"%byte :: ds) = Some (false, n, []).
Proof.
  intros Hd. pose proof (numeral_scan _ _ _ Hd) as Hs. destruct Hd as (Hne & Hds & _).
  destruct ds as [|c ds]; [done |]. apply Forall_cons in Hds as [[d Hc] _].
  unfold strto_scan. change (skip_space _) with ("0"%byte :: "x"%byte :: c :: ds).
  change (read_sign _) with (false, "0"%byte :: "x"%byte :: c :: ds). cbv iota beta.
  unfold skip_0x. rewrite Hc.
  change ((16 =? 16) && Byte.eqb "0" "0" && Byte.eqb (to_lower "x") "x" && true) with true.
  cbn [drop]. by rewrite Hs.
Qed.

Lemma strtou_print_u (bits n : Z) :
  0 <= n < 2 ^ bits -> strtou bits 10 (print_u n) = (n, []).
Proof.
  intros Hn. unfold strtou, print_u.
  rewrite (strto_scan_10 n) by (apply print_base_numeral; lia).
  by rewrite (proj2 (Z.ltb_ge (2 ^ bits - 1) n)) by lia.
Qed.

Lemma strtou_print_x (bits n : Z) :
  0 <= n < 2 ^ bits -> strtou bits 16 ("0"%byte :: "x"%byte :: print_x n) = (n, []).
Proof.
  intros Hn. unfold strtou, print_x.
  rewrite (strto_scan_0x n) by (apply print_base_numeral; lia).
  by rewrite (proj2 (Z.ltb_ge (2 ^ bits - 1) n)) by lia.
Qed.

(** The characters of a decimal numeral. *)
Lemma print_u_digits (n : Z) : 0 <= n ->
  print_u n <> [] /\ Forall (fun c => 48 <= b2z c <= 57) (print_u n).
Proof.
  intros Hn. destruct (print_base_numeral 10 n ltac:(lia) Hn) as (Hne & Hds & _).
  split; [done |]. eapply Forall_impl; [exact Hds |]. intros c [d Hd].
  assert (forallb (fun c => match base_digit 10 c with
    | Some _ => (48 <=? b2z c) && (b2z c <=? 57) | None => true end) all_bytes = true)
    as Hall by by vm_compute.
  pose proof (byte_exhaust _ Hall c) as Hc. cbv beta in Hc. rewrite Hd in Hc. clear Hall. by boolz.
Qed.

(** The two definitions of white space agree. *)
Lemma is_space_char_eq `{Platform} (c : byte) : is_space_char c = c_isspace c.
Proof.
  apply eq_true_iff_eq. rewrite is_space_char_iff. unfold c_isspace.
  rewrite orb_true_iff, andb_true_iff, !Z.leb_le, Z.eqb_eq. done.
Qed.

(** What [strtoul] returns fits the result type. *)
Lemma scan_digits_nonneg (base acc : Z) (s : list byte) :
  0 <= base -> 0 <= acc -> 0 <= fst (scan_digits base acc s).
Proof.
  intros Hb. revert acc. induction s as [|c s IH]; intros acc Ha; cbn [scan_digits fst]; [done |].
  destruct (base_digit base c) as [d |] eqn:E; [| done].
  assert (0 <= d).
  { unfold base_digit, digit_val in E.
    repeat match type of E with context [if ?b then _ else _] => destruct b eqn:?; boolz; try done end;
      boolz; simplify_eq; lia. }
  apply IH. nia.
Qed.

Lemma strtou_range (bits base : Z) (s : list byte) :
  0 < bits -> 0 <= base -> 0 <= fst (strtou bits base s) < 2 ^ bits.
Proof.
  intros Hb Hbase. assert (0 < 2 ^ bits) by (apply Z.pow_pos_nonneg; lia).
  unfold strtou, strto_scan. destruct (read_sign _) as [neg s'].
  pose proof (scan_digits_nonneg base 0 (skip_0x base s') Hbase ltac:(lia)) as Hn.
  destruct (scan_digits base 0 (skip_0x base s')) as [v rest]. cbn [fst] in Hn.
  destruct (_ =? _)%nat; cbn [fst]; [lia |].
  destruct (Z.ltb_spec (2 ^ bits - 1) v); [lia |].
  destruct neg; [apply uw_range |]; lia.
Qed.
