(* ===== verification/Encoding.v ===== *)
(** * Key encodings (src/encoding.c)

    The constant-time base64 and hexadecimal codecs of 32-byte keys.  The
    definitions are the arithmetic of the source, on [int], [uint8_t] and
    [unsigned int] values as the C promotions make them; the theorems relate them
    to the RFC 4648 alphabet and to each other. *)

From S2P Require Import Prelude Ctype.
#[local] Open Scope Z_scope.

Definition WG_KEY_LEN : nat := 32.
Definition WG_KEY_LEN_BASE64 : nat := (WG_KEY_LEN + 2) / 3 * 4 + 1.
Definition WG_KEY_LEN_HEX : nat := WG_KEY_LEN * 2 + 1.

(** ** Base64 *)

(** The character of a six-bit value. *)
Definition base64_char (i : Z) : byte :=
  z2b (i + 65
       + Z.land (Z.shiftr (25 - i) 8) 6
       - Z.land (Z.shiftr (51 - i) 8) 75
       - Z.land (Z.shiftr (61 - i) 8) 15
       + Z.land (Z.shiftr (62 - i) 8) 3).

Definition encode_base64 (src0 src1 src2 : byte) : list byte :=
  let s0 := b2z src0 in
  let s1 := b2z src1 in
  let s2 := b2z src2 in
  let input := [ u8 (Z.land (Z.shiftr s0 2) 63);
                 u8 (Z.land (Z.lor (Z.shiftl s0 4) (Z.shiftr s1 4)) 63);
                 u8 (Z.land (Z.lor (Z.shiftl s1 2) (Z.shiftr s2 6)) 63);
                 u8 (Z.land s2 63) ] in
  map base64_char input.

(** The last block is padded with a zero byte and its fourth character is
    overwritten by ['=']; the terminating NUL is the end of the list. *)
Definition key_to_base64 (key : list byte) : list byte :=
  let block i := encode_base64 (byte_at key (i * 3)) (byte_at key (i * 3 + 1))
                               (byte_at key (i * 3 + 2)) in
  let n := (WG_KEY_LEN / 3)%nat in
  let body := concat (map block (seq 0 n)) in
  let tail := encode_base64 (byte_at key (n * 3)) (byte_at key (n * 3 + 1)) x00 in
  take (WG_KEY_LEN_BASE64 - 2) (body ++ tail) ++ ["="%byte].

(** The value of one base64 character, -1 when it is not one. *)
Definition base64_digit `{Platform} (src : byte) : Z :=
  let c := char_val src in
  -1
  + Z.land (Z.shiftr (Z.land (65 - 1 - c) (c - (90 + 1))) 8) (c - 64)
  + Z.land (Z.shiftr (Z.land (97 - 1 - c) (c - (122 + 1))) 8) (c - 70)
  + Z.land (Z.shiftr (Z.land (48 - 1 - c) (c - (57 + 1))) 8) (c + 5)
  + Z.land (Z.shiftr (Z.land (43 - 1 - c) (c - (43 + 1))) 8) 63
  + Z.land (Z.shiftr (Z.land (47 - 1 - c) (c - (47 + 1))) 8) 64.

Definition decode_base64 `{Platform} (s0 s1 s2 s3 : byte) : Z :=
  let step val i c := Z.lor val (Z.shiftl (base64_digit c) (18 - 6 * i)) in
  step (step (step (step 0 0 s0) 1 s1) 2 s2) 3 s3.

(** [key_from_base64] overwrites the whole key once the length test has passed,
    whatever it answers, and leaves it alone before that. *)
Definition key_from_base64 `{Platform} (key base64 : list byte) : list byte * bool :=
  if negb (length base64 =? WG_KEY_LEN_BASE64 - 1)%nat
     || negb (Byte.eqb (byte_at base64 (WG_KEY_LEN_BASE64 - 2)) "="%byte)
  then (key, false)
  else
    let n := (WG_KEY_LEN / 3)%nat in
    let block i := decode_base64 (byte_at base64 (i * 4)) (byte_at base64 (i * 4 + 1))
                                 (byte_at base64 (i * 4 + 2)) (byte_at base64 (i * 4 + 3)) in
    let vals := map block (seq 0 n) in
    let last := decode_base64 (byte_at base64 (n * 4)) (byte_at base64 (n * 4 + 1))
                              (byte_at base64 (n * 4 + 2)) "A"%byte in
    let ret := fold_left (fun ret val => u8 (Z.lor ret (Z.shiftr (u32 val) 31))) vals 0 in
    let ret := u8 (Z.lor ret (Z.lor (Z.shiftr (u32 last) 31) (Z.land last 0xff))) in
    let bytes val := [ z2b (Z.land (Z.shiftr val 16) 0xff);
                       z2b (Z.land (Z.shiftr val 8) 0xff);
                       z2b (Z.land val 0xff) ] in
    let key := concat (map bytes vals)
               ++ [ z2b (Z.land (Z.shiftr last 16) 0xff); z2b (Z.land (Z.shiftr last 8) 0xff) ] in
    (key, negb (Z.land 1 (Z.shiftr (ret - 1) 8) =? 0)).

(** ** Hexadecimal *)

(** The character of a four-bit value, in [unsigned int] arithmetic. *)
Definition hex_char (n : Z) : byte :=
  z2b (87 + n + Z.land (Z.shiftr (u32 (n - 10)) 8) (u32 (Z.lnot 38))).

Definition key_to_hex (key : list byte) : list byte :=
  concat (map (fun i => let k := b2z (byte_at key i) in
                        [ hex_char (Z.shiftr k 4); hex_char (Z.land k 0xf) ])
              (seq 0 WG_KEY_LEN)).

(** One half of the loop body of [key_from_hex]: the value of a character and what
    it contributes to [ret]. *)
Definition hex_digit (hex : byte) : Z * Z :=
  let c := b2z hex in
  let c_num := u8 (Z.lxor c 48) in
  let c_num0 := u8 (Z.shiftr (u32 (c_num - 10)) 8) in
  let c_alpha := u8 (u32 (Z.land c (u32 (Z.lnot 32)) - 55)) in
  let c_alpha0 := u8 (Z.shiftr (Z.lxor (u32 (c_alpha - 10)) (u32 (c_alpha - 16))) 8) in
  let bad := Z.shiftr (Z.lor c_num0 c_alpha0 - 1) 8 in
  (u8 (Z.lor (Z.land c_num0 c_num) (Z.land c_alpha0 c_alpha)), bad).

Definition key_from_hex (key hex : list byte) : list byte * bool :=
  if negb (length hex =? WG_KEY_LEN_HEX - 1)%nat then (key, false)
  else
    let step '(ret, key) i :=
      let '(hi, bad_hi) := hex_digit (byte_at hex (2 * i)) in
      let '(lo, bad_lo) := hex_digit (byte_at hex (2 * i + 1)) in
      let ret := u8 (Z.lor (u8 (Z.lor ret bad_hi)) bad_lo) in
      (ret, key ++ [z2b (Z.lor (u8 (hi * 16)) lo)]) in
    let '(ret, key) := fold_left step (seq 0 WG_KEY_LEN) (0, []) in
    (key, negb (Z.land 1 (Z.shiftr (ret - 1) 8) =? 0)).

Definition key_is_zero (key : list byte) : bool :=
  let acc := fold_left (fun acc i => u8 (Z.lor acc (b2z (byte_at key i)))) (seq 0 WG_KEY_LEN) 0 in
  negb (Z.land 1 (Z.shiftr (acc - 1) 8) =? 0).

(** ** The RFC 4648 alphabets, for the specifications *)

Definition base64_alphabet : list byte :=
  text "ABCDEFGHIJKLMNOPQRSTUVWXYZabcdefghijklmnopqrstuvwxyz0123456789+/".

Definition hex_alphabet : list byte := text "0123456789abcdef".

(** The characters that are the digits of a hexadecimal numeral, either case. *)
Definition hex_value (c : byte) : option Z :=
  let z := b2z c in
  if (48 <=? z) && (z <=? 57) then Some (z - 48)
  else if (97 <=? z) && (z <=? 102) then Some (z - 87)
  else if (65 <=? z) && (z <=? 70) then Some (z - 55)
  else None.

(** ** Base64 lemmas *)

Lemma seqZ_forallb (P : Z -> bool) (n z : Z) :
  forallb P (seqZ 0 n) = true -> 0 <= z < n -> P z = true.
Proof.
  intros H Hz. rewrite forallb_forall in H. apply H.
  apply list_elem_of_In, elem_of_seqZ. lia.
Qed.

Lemma base64_char_alphabet (i : Z) :
  0 <= i < 64 -> base64_char i = byte_at base64_alphabet (Z.to_nat i).
Proof.
  intros Hi. apply byte_eqb_eq.
  by apply (seqZ_forallb (fun i => Byte.eqb (base64_char i)
    (byte_at base64_alphabet (Z.to_nat i))) 64).
Qed.

(** A character has the value of its place in the alphabet, and -1 outside it. *)
Lemma base64_digit_spec `{Platform} (c : byte) :
  base64_digit c = -1 /\ (forall i, 0 <= i < 64 -> base64_char i <> c)
  \/ 0 <= base64_digit c < 64 /\ base64_char (base64_digit c) = c.
Proof.
  assert (forall b P, char_signed = b -> @base64_digit P c = @base64_digit
    {| char_signed := char_signed; ulong_bits := 0 |} c) as Hp by done.
  rewrite (Hp _ _ eq_refl). clear Hp. destruct (@char_signed H).
  all: set (P := Build_Platform _ _).
  all: assert (forallb (fun c => if base64_digit c =? -1
      then forallb (fun i => negb (Byte.eqb (base64_char i) c)) (seqZ 0 64)
      else (0 <=? base64_digit c) && (base64_digit c <? 64)
           && Byte.eqb (base64_char (base64_digit c)) c) all_bytes = true)
    as Hall by by vm_compute.
  all: pose proof (byte_exhaust _ Hall c) as Hc; cbv beta in Hc.
  all: destruct (base64_digit c =? -1) eqn:E; boolz.
  1, 3: left; split; [done |]; intros i Hi Heq;
    apply (seqZ_forallb _ _ _ Hc) in Hi; by rewrite Heq, byte_eqb_refl in Hi.
  all: right; split; [lia |]; by apply byte_eqb_eq.
Qed.

Lemma base64_digit_range `{Platform} (c : byte) : -1 <= base64_digit c < 64.
Proof. destruct (base64_digit_spec c) as [[-> _] | [? _]]; lia. Qed.

Lemma base64_char_inj (i j : Z) :
  0 <= i < 64 -> 0 <= j < 64 -> base64_char i = base64_char j -> i = j.
Proof.
  intros Hi Hj E.
  assert (forallb (fun i => forallb (fun j =>
    negb (Byte.eqb (base64_char i) (base64_char j)) || (i =? j)) (seqZ 0 64)) (seqZ 0 64) = true)
    as Hall by by vm_compute.
  apply (seqZ_forallb _ _ _ Hall) in Hi. apply (seqZ_forallb _ _ _ Hi) in Hj.
  rewrite E, byte_eqb_refl in Hj. cbn in Hj. lia.
Qed.

Lemma base64_digit_char `{Platform} (i : Z) :
  0 <= i < 64 -> base64_digit (base64_char i) = i.
Proof.
  intros Hi. destruct (base64_digit_spec (base64_char i)) as [[_ Hn] | [Hr He]].
  - by destruct (Hn i Hi).
  - by apply base64_char_inj.
Qed.

(** The four six-bit digits of three bytes, and back. *)
Definition digits64 (a b c : Z) : list Z :=
  [a / 4; a mod 4 * 16 + b / 16; b mod 16 * 4 + c / 64; c mod 64].

Lemma encode_base64_digits (a b c : byte) :
  encode_base64 a b c = map base64_char (digits64 (b2z a) (b2z b) (b2z c)).
Proof.
  unfold encode_base64, digits64.
  pose proof (b2z_range a); pose proof (b2z_range b); pose proof (b2z_range c).
  change 63 with (2 ^ 6 - 1). rewrite !land_mask by lia.
  rewrite !Z.shiftl_mul_pow2, !Z.shiftr_div_pow2 by lia.
  assert (forall x y n m, 0 <= x < 256 -> 0 <= y < 256 -> 0 <= n -> m = 8 - n -> 0 <= m ->
    Z.lor (x * 2 ^ n) (y / 2 ^ m) = x * 2 ^ n + y / 2 ^ m) as Hlor.
  { intros x y n m Hx Hy Hn Hm Hm0. apply lor_disjoint; [done |].
    split; [apply Z.div_pos; lia |]. apply Z.div_lt_upper_bound; [lia |].
    rewrite <- Z.pow_add_r by lia. replace (m + n) with 8 by lia. lia. }
  rewrite (Hlor _ _ 4 4), (Hlor _ _ 2 6) by lia.
  unfold u8, uw. cbn [map].
  change (2 ^ 6) with 64; change (2 ^ 8) with 256; change (2 ^ 4) with 16; change (2 ^ 2) with 4.
  do 3 (f_equal; [f_equal; zlia |]). do 2 f_equal. zlia.
Qed.

Lemma digits64_range (a b c : Z) :
  0 <= a < 256 -> 0 <= b < 256 -> 0 <= c < 256 ->
  Forall (fun d => 0 <= d < 64) (digits64 a b c).
Proof. intros. repeat constructor; zlia. Qed.

(** The value of a block whose four characters are digits; a block with another
    character has a negative value. *)
Lemma decode_base64_value `{Platform} (s0 s1 s2 s3 : byte) :
  let d := base64_digit in
  decode_base64 s0 s1 s2 s3
  = if (0 <=? d s0) && (0 <=? d s1) && (0 <=? d s2) && (0 <=? d s3)
    then d s0 * 2 ^ 18 + d s1 * 2 ^ 12 + d s2 * 2 ^ 6 + d s3
    else decode_base64 s0 s1 s2 s3.
Proof.
  intros d. destruct (_ && _) eqn:E; [boolz | done].
  pose proof (base64_digit_range s1); pose proof (base64_digit_range s2);
    pose proof (base64_digit_range s3).
  unfold decode_base64. fold d. change (18 - 6 * 0) with 18; change (18 - 6 * 1) with 12;
    change (18 - 6 * 2) with 6; change (18 - 6 * 3) with 0.
  rewrite Z.lor_0_l, !Z.shiftl_mul_pow2 by lia. subst d.
  rewrite (lor_disjoint _ (base64_digit s1 * 2 ^ 12) 18) by lia.
  replace (base64_digit s0 * 2 ^ 18 + base64_digit s1 * 2 ^ 12)
    with ((base64_digit s0 * 2 ^ 6 + base64_digit s1) * 2 ^ 12) by lia.
  rewrite (lor_disjoint _ (base64_digit s2 * 2 ^ 6) 12) by lia.
  replace ((base64_digit s0 * 2 ^ 6 + base64_digit s1) * 2 ^ 12 + base64_digit s2 * 2 ^ 6)
    with (((base64_digit s0 * 2 ^ 6 + base64_digit s1) * 2 ^ 6 + base64_digit s2) * 2 ^ 6) by lia.
  rewrite (lor_disjoint _ (base64_digit s3 * 2 ^ 0) 6) by lia. lia.
Qed.

(** ** The accumulators of the constant-time tests *)

Lemma u8_lor (r x : Z) : 0 <= r < 256 -> u8 (Z.lor r x) = Z.lor r (u8 x).
Proof.
  intros. unfold u8, uw. rewrite <- !Z.land_ones by lia.
  rewrite <- (Z.mod_small r (2 ^ 8)) at 2 by lia.
  rewrite <- Z.land_ones, Z.land_lor_distr_l by lia. done.
Qed.

Lemma u8_lor_l (x y : Z) : u8 (Z.lor (u8 x) y) = u8 (Z.lor x y).
Proof.
  unfold u8, uw. rewrite <- !Z.land_ones by lia.
  rewrite !Z.land_lor_distr_l, <- Z.land_assoc. by rewrite Z.land_diag.
Qed.

Lemma u8_lor_range (r x : Z) : 0 <= u8 (Z.lor r x) < 256.
Proof. apply (uw_range 8); lia. Qed.

Lemma u8_lor_zero (r x : Z) : 0 <= r < 256 -> u8 (Z.lor r x) = 0 <-> r = 0 /\ u8 x = 0.
Proof. intros. rewrite u8_lor by done. apply Z.lor_eq_0_iff. Qed.

(** [ret |= g x] over a list: the accumulator stays a byte and is zero exactly when
    every contribution is. *)
Lemma acc_or_zero {A} (g : A -> Z) (l : list A) (r : Z) : 0 <= r < 256 ->
  0 <= fold_left (fun r x => u8 (Z.lor r (g x))) l r < 256
  /\ (fold_left (fun r x => u8 (Z.lor r (g x))) l r = 0
      <-> r = 0 /\ Forall (fun x => u8 (g x) = 0) l).
Proof.
  revert r. induction l as [|x l IH]; intros r Hr; cbn [fold_left].
  - split; [done |]. split; [auto | tauto].
  - destruct (IH (u8 (Z.lor r (g x))) (u8_lor_range _ _)) as [Hb Hz].
    split; [done |]. rewrite Hz, u8_lor_zero, Forall_cons by done. tauto.
Qed.

(** [1 & ((ret - 1) >> 8)] of a byte is the test that it is zero. *)
Lemma zero_mask (ret : Z) : 0 <= ret < 256 ->
  negb (Z.land 1 (Z.shiftr (ret - 1) 8) =? 0) = (ret =? 0).
Proof.
  intros Hr. apply Bool.eqb_prop.
  by apply (seqZ_forallb (fun ret => Bool.eqb (negb (Z.land 1 (Z.shiftr (ret - 1) 8) =? 0))
    (ret =? 0)) 256).
Qed.

(** ** Blocks *)

Lemma encode_base64_chars (a b c : byte) :
  let e i := byte_at (encode_base64 a b c) i in
  encode_base64 a b c = [e 0%nat; e 1%nat; e 2%nat; e 3%nat].
Proof. done. Qed.

Lemma decode_encode_block `{Platform} (a b c : byte) :
  let e i := byte_at (encode_base64 a b c) i in
  decode_base64 (e 0%nat) (e 1%nat) (e 2%nat) (e 3%nat) = b2z a * 2 ^ 16 + b2z b * 2 ^ 8 + b2z c.
Proof.
  intros e. pose proof (b2z_range a); pose proof (b2z_range b); pose proof (b2z_range c).
  subst e. cbv beta. rewrite encode_base64_digits. unfold digits64, byte_at. cbn [map nth].
  rewrite decode_base64_value, !base64_digit_char by zlia.
  rewrite !(proj2 (Z.leb_le 0 _)) by zlia. cbn [andb]. zlia.
Qed.

Lemma encode_last_pad (a b : byte) : byte_at (encode_base64 a b x00) 3 = "A"%byte.
Proof. rewrite encode_base64_digits. done. Qed.

Lemma block_bytes (v : Z) : 0 <= v < 2 ^ 24 ->
  b2z (z2b (Z.land (Z.shiftr v 16) 0xff)) = v / 65536 /\
  b2z (z2b (Z.land (Z.shiftr v 8) 0xff)) = v / 256 mod 256 /\
  b2z (z2b (Z.land v 0xff)) = v mod 256.
Proof.
  intros. change 0xff with (2 ^ 8 - 1). rewrite !land_mask, !b2z_z2b, !Z.shiftr_div_pow2 by lia.
  change (2 ^ 8) with 256; change (2 ^ 16) with 65536. zlia.
Qed.

Lemma decode_base64_neg `{Platform} (s0 s1 s2 s3 : byte) :
  (0 <=? base64_digit s0) && (0 <=? base64_digit s1)
  && (0 <=? base64_digit s2) && (0 <=? base64_digit s3) = false ->
  - 2 ^ 24 <= decode_base64 s0 s1 s2 s3 < 0.
Proof.
  intros E.
  pose proof (base64_digit_range s0); pose proof (base64_digit_range s1);
    pose proof (base64_digit_range s2); pose proof (base64_digit_range s3).
  unfold decode_base64. rewrite !Z.shiftl_mul_pow2 by lia. split.
  - repeat apply lor_small_range; lia.
  - apply lor_neg_iff. rewrite !lor_neg_iff. lia.
Qed.

(** The flag and the bytes of a block: either the flag is raised, or the block is
    the encoding of the bytes. *)
Lemma decode_block_cases `{Platform} (s0 s1 s2 s3 : byte) :
  let v := decode_base64 s0 s1 s2 s3 in
  Z.shiftr (u32 v) 31 = 1 \/
  Z.shiftr (u32 v) 31 = 0 /\ 0 <= v < 2 ^ 24 /\
  encode_base64 (z2b (Z.land (Z.shiftr v 16) 0xff)) (z2b (Z.land (Z.shiftr v 8) 0xff))
                (z2b (Z.land v 0xff)) = [s0; s1; s2; s3].
Proof.
  intros v.
  destruct ((0 <=? base64_digit s0) && (0 <=? base64_digit s1)
            && (0 <=? base64_digit s2) && (0 <=? base64_digit s3)) eqn:E.
  - right. pose proof (decode_base64_value s0 s1 s2 s3) as Hv. cbv zeta in Hv.
    rewrite E in Hv. fold v in Hv. boolz.
    destruct (base64_digit_spec s0) as [[? _] | [? Hs0]]; [lia |].
    destruct (base64_digit_spec s1) as [[? _] | [? Hs1]]; [lia |].
    destruct (base64_digit_spec s2) as [[? _] | [? Hs2]]; [lia |].
    destruct (base64_digit_spec s3) as [[? _] | [? Hs3]]; [lia |].
    assert (0 <= v < 2 ^ 24) as Hr by lia.
    split; [rewrite sign_bit by lia; destruct (Z.ltb_spec v 0); lia |]. split; [done |].
    rewrite encode_base64_digits. destruct (block_bytes v Hr) as (-> & -> & ->).
    transitivity (map base64_char [base64_digit s0; base64_digit s1; base64_digit s2;
      base64_digit s3]); [| cbn [map]; by rewrite Hs0, Hs1, Hs2, Hs3].
    f_equal. unfold digits64. repeat (f_equal; [zlia |]). f_equal. zlia.
  - left. pose proof (decode_base64_neg _ _ _ _ E) as Hn. fold v in Hn.
    rewrite sign_bit by lia. destruct (Z.ltb_spec v 0); lia.
Qed.

(** ** Whole keys *)

(** Takes a list of known length apart. *)
Tactic Notation "explode" integer(n) ident(l) :=
  do n (destruct l as [|? l]; [discriminate |]); destruct l; [| discriminate].

Definition block_value `{Platform} (x : byte * byte * byte * byte) : Z :=
  let '(a, b, c, d) := x in decode_base64 a b c d.

Definition block_chars (x : byte * byte * byte * byte) : list byte :=
  let '(a, b, c, d) := x in [a; b; c; d].

Definition value_bytes (v : Z) : list byte :=
  [ z2b (Z.land (Z.shiftr v 16) 0xff); z2b (Z.land (Z.shiftr v 8) 0xff); z2b (Z.land v 0xff) ].

Lemma shiftr31_range (v : Z) : 0 <= Z.shiftr (u32 v) 31 < 2.
Proof.
  pose proof (uw_range 32 v). unfold u32. rewrite Z.shiftr_div_pow2 by lia.
  split; [apply Z.div_pos; lia | apply Z.div_lt_upper_bound; lia].
Qed.

Lemma u8_small_zero (x : Z) : 0 <= x < 256 -> u8 x = 0 <-> x = 0.
Proof. intros. unfold u8. by rewrite uw_small. Qed.

(** What [key_from_base64] computes on a string of the right shape, block by block. *)
Lemma key_from_base64_blocks `{Platform} (key : list byte)
    (blocks : list (byte * byte * byte * byte)) (l0 l1 l2 : byte) :
  length blocks = 10%nat ->
  let last := decode_base64 l0 l1 l2 "A"%byte in
  exists ok, key_from_base64 key (concat (map block_chars blocks) ++ [l0; l1; l2; "="%byte])
             = (concat (map (fun x => value_bytes (block_value x)) blocks)
                ++ take 2 (value_bytes last), ok)
  /\ (ok = true <-> Forall (fun x => Z.shiftr (u32 (block_value x)) 31 = 0) blocks
                    /\ Z.shiftr (u32 last) 31 = 0 /\ Z.land last 0xff = 0).
Proof.
  intros Hlen last.
  pose (ret := fold_left (fun ret val => u8 (Z.lor ret (Z.shiftr (u32 val) 31)))
                 (map block_value blocks) 0).
  destruct (acc_or_zero (fun v => Z.shiftr (u32 v) 31) (map block_value blocks) 0)
    as [Hr Hz]; [lia |]. fold ret in Hr, Hz.
  exists (negb (Z.land 1 (Z.shiftr (u8 (Z.lor ret (Z.lor (Z.shiftr (u32 last) 31)
    (Z.land last 0xff))) - 1) 8) =? 0)).
  split.
  - unfold ret, last. explode 10 blocks.
    repeat match goal with p : _ * _ |- _ => destruct p end.
    cbv [key_from_base64 WG_KEY_LEN_BASE64 WG_KEY_LEN block_chars block_value map concat app
      length Nat.div Nat.divmod fst snd Nat.sub Nat.add Nat.mul Nat.eqb negb byte_at nth seq
      orb Byte.eqb]. cbn [Byte.to_bits Bool.eqb fst snd]. reflexivity.
  - rewrite zero_mask by apply u8_lor_range.
    rewrite Z.eqb_eq, u8_lor_zero, Hz, Forall_map by done.
    pose proof (shiftr31_range last).
    assert (0 <= Z.land last 0xff < 256).
    { change 0xff with (2 ^ 8 - 1). rewrite land_mask by lia. apply Z.mod_pos_bound. lia. }
    rewrite u8_lor_zero, u8_small_zero by lia.
    assert (Forall (fun x => u8 (Z.shiftr (u32 (block_value x)) 31) = 0) blocks
            <-> Forall (fun x => Z.shiftr (u32 (block_value x)) 31 = 0) blocks) as Hf.
    { apply Forall_proper; [| done]. intros x. pose proof (shiftr31_range (block_value x)).
      apply u8_small_zero. lia. }
    unfold compose. rewrite Hf. tauto.
Qed.

Definition encoded_block (a b c : byte) : byte * byte * byte * byte :=
  let e := byte_at (encode_base64 a b c) in (e 0%nat, e 1%nat, e 2%nat, e 3%nat).

Lemma encoded_block_chars (a b c : byte) :
  block_chars (encoded_block a b c) = encode_base64 a b c.
Proof. symmetry. apply encode_base64_chars. Qed.

Lemma encoded_block_value `{Platform} (a b c : byte) :
  block_value (encoded_block a b c) = b2z a * 2 ^ 16 + b2z b * 2 ^ 8 + b2z c.
Proof. apply decode_encode_block. Qed.

Lemma value_bytes_id (a b c : byte) :
  value_bytes (b2z a * 2 ^ 16 + b2z b * 2 ^ 8 + b2z c) = [a; b; c].
Proof.
  pose proof (b2z_range a); pose proof (b2z_range b); pose proof (b2z_range c).
  destruct (block_bytes (b2z a * 2 ^ 16 + b2z b * 2 ^ 8 + b2z c)) as (E1 & E2 & E3); [lia |].
  unfold value_bytes.
  f_equal; [| f_equal; [| f_equal]]; apply b2z_inj; rewrite ?E1, ?E2, ?E3; zlia.
Qed.

Lemma u32_sign_small (a b c : byte) :
  Z.shiftr (u32 (b2z a * 2 ^ 16 + b2z b * 2 ^ 8 + b2z c)) 31 = 0.
Proof.
  pose proof (b2z_range a); pose proof (b2z_range b); pose proof (b2z_range c).
  rewrite sign_bit by lia. destruct (Z.ltb_spec (b2z a * 2 ^ 16 + b2z b * 2 ^ 8 + b2z c) 0); lia.
Qed.

(** Ten triples and two bytes are encoded as ten blocks and a padded one. *)
Lemma key_to_base64_triples (triples : list (byte * byte * byte)) (l0 l1 : byte) :
  length triples = 10%nat ->
  key_to_base64 (concat (map (fun '(a, b, c) => [a; b; c]) triples) ++ [l0; l1])
  = concat (map block_chars (map (fun '(a, b, c) => encoded_block a b c) triples))
    ++ [byte_at (encode_base64 l0 l1 x00) 0; byte_at (encode_base64 l0 l1 x00) 1;
        byte_at (encode_base64 l0 l1 x00) 2; "="%byte].
Proof.
  intros Hlen. explode 10 triples. repeat match goal with p : _ * _ |- _ => destruct p end.
  cbn [map concat app]. unfold key_to_base64.
  cbv [WG_KEY_LEN_BASE64 WG_KEY_LEN map Nat.div Nat.divmod fst snd Nat.sub Nat.add Nat.mul seq].
  rewrite !encoded_block_chars. cbv [byte_at]; cbn [nth].
  match goal with |- take _ (?l ++ ?e) ++ _ = _ =>
    change 43%nat with (40 + 3)%nat; rewrite (take_app_add' l e 40 3) by done end.
  by rewrite <- app_assoc.
Qed.

(** The base64 text of a key as ten whole blocks and a padded one. *)
Lemma key_to_base64_blocks (key : list byte) : length key = 32%nat ->
  exists blocks l0 l1, length blocks = 10%nat
  /\ key = concat (map (fun '(a, b, c) => [a; b; c]) blocks) ++ [l0; l1]
  /\ key_to_base64 key
     = concat (map block_chars (map (fun '(a, b, c) => encoded_block a b c) blocks))
       ++ [byte_at (encode_base64 l0 l1 x00) 0; byte_at (encode_base64 l0 l1 x00) 1;
           byte_at (encode_base64 l0 l1 x00) 2; "="%byte].
Proof.
  intros Hlen. explode 32 key.
  match goal with |- exists _ _ _, _ /\ [?a0; ?a1; ?a2; ?a3; ?a4; ?a5; ?a6; ?a7; ?a8; ?a9; ?a10;
    ?a11; ?a12; ?a13; ?a14; ?a15; ?a16; ?a17; ?a18; ?a19; ?a20; ?a21; ?a22; ?a23; ?a24; ?a25;
    ?a26; ?a27; ?a28; ?a29; ?a30; ?a31] = _ /\ _ =>
    exists [(a0, a1, a2); (a3, a4, a5); (a6, a7, a8); (a9, a10, a11); (a12, a13, a14);
       (a15, a16, a17); (a18, a19, a20); (a21, a22, a23); (a24, a25, a26); (a27, a28, a29)];
    exists a30, a31
  end.
  split; [done |]. split; [done |]. by rewrite <- key_to_base64_triples.
Qed.

Lemma key_base64_decodes `{Platform} (old key : list byte) :
  length key = 32%nat -> key_from_base64 old (key_to_base64 key) = (key, true).
Proof.
  intros Hlen.
  destruct (key_to_base64_blocks key Hlen) as (blocks & l0 & l1 & Hn & -> & ->).
  edestruct (key_from_base64_blocks old (map (fun '(a, b, c) => encoded_block a b c) blocks))
    as (ok & -> & Hok); [by rewrite length_map |].
  rewrite <- (encode_last_pad l0 l1), decode_encode_block in *.
  rewrite value_bytes_id, map_map.
  assert (map (fun x => value_bytes (block_value (let '(a, b, c) := x in encoded_block a b c))) blocks
          = map (fun '(a, b, c) => [a; b; c]) blocks) as ->.
  { apply map_ext. intros [[a b] c]. by rewrite encoded_block_value, value_bytes_id. }
  replace ok with true; [done |]. symmetry. apply Hok. split; [| split].
  - apply Forall_map, Forall_true. intros [[a b] c]. unfold compose.
    rewrite encoded_block_value. apply u32_sign_small.
  - apply u32_sign_small.
  - change 0xff with (2 ^ 8 - 1). rewrite land_mask by lia.
    pose proof (b2z_range l0); pose proof (b2z_range l1).
    change (b2z x00) with 0. change (2 ^ 8) with 256. change (2 ^ 16) with 65536. zlia.
Qed.

Lemma key_to_base64_length (key : list byte) :
  length key = 32%nat -> length (key_to_base64 key) = 44%nat.
Proof.
  intros Hk. destruct (key_to_base64_blocks key Hk) as (blocks & l0 & l1 & Hn & _ & ->).
  explode 10 blocks; repeat match goal with p : _ * _ |- _ => destruct p end; done.
Qed.

Lemma encode_base64_in (a b c : byte) :
  Forall (fun x => In x base64_alphabet) (encode_base64 a b c).
Proof.
  assert (forall i, 0 <= i < 64 -> In (base64_char i) base64_alphabet) as Hc.
  { intros i Hi. rewrite base64_char_alphabet by done. apply nth_In.
    change (length base64_alphabet) with 64%nat. lia. }
  unfold encode_base64. change 63 with (2 ^ 6 - 1).
  apply Forall_map, List.Forall_forall. intros z Hz. apply Hc. cbn [In] in Hz.
  rewrite !land_mask in Hz by lia. unfold u8, uw in Hz.
  assert (forall y, 0 <= (y mod 2 ^ 6) mod 2 ^ 8 < 64) as Hm.
  { intros y. pose proof (Z.mod_pos_bound y (2 ^ 6) eq_refl). rewrite Z.mod_small; lia. }
  by destruct Hz as [<- | [<- | [<- | [<- | []]]]]; apply Hm.
Qed.

Lemma key_to_base64_chars (key : list byte) :
  Forall (fun x => In x ("="%byte :: base64_alphabet)) (key_to_base64 key).
Proof.
  assert (forall a b c, Forall (fun x => In x ("="%byte :: base64_alphabet)) (encode_base64 a b c)) as Hb.
  { intros. eapply Forall_impl; [apply encode_base64_in |]. by right. }
  unfold key_to_base64. apply Forall_app. split.
  - apply Forall_take, Forall_app. split; [| apply Hb].
    apply Forall_concat, Forall_map, Forall_true. intros i. apply Hb.
  - apply Forall_singleton. by left.
Qed.

(** C37: The base64 text of a 32-byte key is 44 characters of the alphabet and its padding,
    and it is read back as that key: [key_from_base64] accepts what [key_to_base64]
    writes, whatever the buffer held before. *)
Theorem key_base64_roundtrip `{Platform} (old key : list byte) : length key = 32%nat ->
  length (key_to_base64 key) = 44%nat
  /\ Forall (fun x => In x ("="%byte :: base64_alphabet)) (key_to_base64 key)
  /\ key_from_base64 old (key_to_base64 key) = (key, true).
Proof.
  intros Hk. split; [by apply key_to_base64_length |]. split; [apply key_to_base64_chars |].
  by apply key_base64_decodes.
Qed.

Lemma key_from_base64_shape `{Platform} (old key s : list byte) :
  key_from_base64 old s = (key, true) ->
  exists blocks l0 l1 l2, length blocks = 10%nat
  /\ s = concat (map block_chars blocks) ++ [l0; l1; l2; "="%byte].
Proof.
  unfold key_from_base64. destruct (_ || _) eqn:E; [congruence |]. intros _.
  apply orb_false_iff in E as [Hl%negb_false_iff%Nat.eqb_eq He%negb_false_iff%byte_eqb_eq].
  change (WG_KEY_LEN_BASE64 - 1)%nat with 44%nat in Hl. explode 44 s.
  match goal with |- exists _ _ _ _, _ /\ [?a0; ?a1; ?a2; ?a3; ?a4; ?a5; ?a6; ?a7; ?a8; ?a9; ?a10;
    ?a11; ?a12; ?a13; ?a14; ?a15; ?a16; ?a17; ?a18; ?a19; ?a20; ?a21; ?a22; ?a23; ?a24; ?a25;
    ?a26; ?a27; ?a28; ?a29; ?a30; ?a31; ?a32; ?a33; ?a34; ?a35; ?a36; ?a37; ?a38; ?a39; ?l0; ?l1;
    ?l2; _] = _ =>
    exists [(a0, a1, a2, a3); (a4, a5, a6, a7); (a8, a9, a10, a11); (a12, a13, a14, a15);
      (a16, a17, a18, a19); (a20, a21, a22, a23); (a24, a25, a26, a27); (a28, a29, a30, a31);
      (a32, a33, a34, a35); (a36, a37, a38, a39)], l0, l1, l2
  end.
  split; [done |]. change (WG_KEY_LEN_BASE64 - 2)%nat with 43%nat in He.
  unfold byte_at in He. cbn [nth] in He. by rewrite He.
Qed.

Lemma decoded_block_encodes `{Platform} (x : byte * byte * byte * byte) :
  Z.shiftr (u32 (block_value x)) 31 = 0 ->
  exists a b c, value_bytes (block_value x) = [a; b; c] /\ x = encoded_block a b c.
Proof.
  destruct x as [[[s0 s1] s2] s3]. cbn [block_value]. intros E.
  destruct (decode_block_cases s0 s1 s2 s3) as [E' | (_ & _ & He)]; [lia |].
  eexists _, _, _. split; [reflexivity |]. unfold encoded_block. rewrite He. done.
Qed.

Lemma decoded_blocks_encode `{Platform} (blocks : list (byte * byte * byte * byte)) :
  Forall (fun x => Z.shiftr (u32 (block_value x)) 31 = 0) blocks ->
  exists triples, length triples = length blocks
  /\ map (fun x => value_bytes (block_value x)) blocks = map (fun '(a, b, c) => [a; b; c]) triples
  /\ blocks = map (fun '(a, b, c) => encoded_block a b c) triples.
Proof.
  induction 1 as [| x blocks Hx _ (triples & IH1 & IH2 & IH3)]; [by exists [] |].
  destruct (decoded_block_encodes x Hx) as (a & b & c & E1 & E2).
  exists ((a, b, c) :: triples). cbn. rewrite IH1, E1, IH2, <- IH3, <- E2. done.
Qed.

Lemma key_from_base64_length `{Platform} (old key s : list byte) :
  key_from_base64 old s = (key, true) -> length key = 32%nat.
Proof.
  intros Hk.
  destruct (key_from_base64_shape _ _ _ Hk) as (blocks & l0 & l1 & l2 & Hn & ->).
  destruct (key_from_base64_blocks old blocks l0 l1 l2 Hn) as (ok & E & _).
  rewrite E in Hk. injection Hk as <- _. explode 10 blocks. done.
Qed.

(** A block decodes to a nonnegative value exactly when its characters are digits. *)
Lemma decode_sign `{Platform} (s0 s1 s2 s3 : byte) :
  Z.shiftr (u32 (decode_base64 s0 s1 s2 s3)) 31 = 0
  <-> Forall (fun c => 0 <= base64_digit c) [s0; s1; s2; s3].
Proof.
  rewrite !Forall_cons. split.
  - intros E. destruct (decode_block_cases s0 s1 s2 s3) as [E' | (_ & _ & Henc)]; [lia |].
    assert (Forall (fun c => 0 <= base64_digit c) [s0; s1; s2; s3]) as Hall.
    { rewrite <- Henc. eapply Forall_impl; [apply encode_base64_in |]. cbn beta. intros c Hc.
      destruct (base64_digit_spec c) as [[_ Hno] | [? _]]; [| lia].
      apply In_nth with (d := x00) in Hc as (i & Hi & <-). change (length base64_alphabet) with 64%nat in Hi.
      destruct (Hno (Z.of_nat i)); [lia |]. rewrite base64_char_alphabet, Nat2Z.id by lia. done. }
    by rewrite !Forall_cons in Hall.
  - intros (H0 & H1 & H2 & H3 & _). pose proof (decode_base64_value s0 s1 s2 s3) as Hv. cbv zeta in Hv.
    rewrite !(proj2 (Z.leb_le 0 _)) in Hv by done. cbn [andb] in Hv. rewrite Hv.
    pose proof (base64_digit_range s0); pose proof (base64_digit_range s1);
      pose proof (base64_digit_range s2); pose proof (base64_digit_range s3).
    rewrite sign_bit by lia. rewrite (proj2 (Z.ltb_ge _ 0)) by lia. done.
Qed.

(** [key_from_base64] accepts a string of the right shape exactly when its characters are
    digits and the last one has no bit beyond the 256 of the key. *)
Lemma key_from_base64_digits `{Platform} (old s : list byte) :
  length s = 44%nat -> byte_at s 43 = "="%byte ->
  snd (key_from_base64 old s) = true
  <-> Forall (fun c => 0 <= base64_digit c) (take 43 s) /\ base64_digit (byte_at s 42) mod 4 = 0.
Proof.
  intros Hl Heq.
  assert (exists blocks l0 l1 l2, length blocks = 10%nat
          /\ s = concat (map block_chars blocks) ++ [l0; l1; l2; "="%byte]) as (blocks & l0 & l1 & l2 & Hn & ->).
  { explode 44 s. unfold byte_at in Heq. cbn [nth] in Heq. subst.
    match goal with |- exists _ _ _ _, _ /\ [?a0; ?a1; ?a2; ?a3; ?a4; ?a5; ?a6; ?a7; ?a8; ?a9; ?a10;
      ?a11; ?a12; ?a13; ?a14; ?a15; ?a16; ?a17; ?a18; ?a19; ?a20; ?a21; ?a22; ?a23; ?a24; ?a25;
      ?a26; ?a27; ?a28; ?a29; ?a30; ?a31; ?a32; ?a33; ?a34; ?a35; ?a36; ?a37; ?a38; ?a39; ?l0; ?l1;
      ?l2; _] = _ =>
      by exists [(a0, a1, a2, a3); (a4, a5, a6, a7); (a8, a9, a10, a11); (a12, a13, a14, a15);
        (a16, a17, a18, a19); (a20, a21, a22, a23); (a24, a25, a26, a27); (a28, a29, a30, a31);
        (a32, a33, a34, a35); (a36, a37, a38, a39)], l0, l1, l2
    end. }
  assert (length (concat (map block_chars blocks)) = 40%nat) as Hc.
  { clear -Hn. explode 10 blocks; repeat match goal with p : _ * _ |- _ => destruct p end; done. }
  destruct (key_from_base64_blocks old blocks l0 l1 l2 Hn) as (ok & -> & Hok). cbn [snd]. rewrite Hok.
  change 43%nat with (40 + 3)%nat. rewrite (take_app_add' _ _ 40 3) by done.
  unfold byte_at. rewrite app_nth2 by lia. rewrite Hc. cbn [Nat.sub nth firstn].
  rewrite Forall_app, decode_sign, !Forall_cons.
  assert (Forall (fun x => Z.shiftr (u32 (block_value x)) 31 = 0) blocks
          <-> Forall (fun c => 0 <= base64_digit c) (concat (map block_chars blocks))) as ->.
  { clear. induction blocks as [|[[[a b] c] d] blocks IH]; [by split |].
    cbn [map concat block_chars]. rewrite Forall_app, Forall_cons, IH, <- decode_sign. done. }
  assert (base64_digit "A"%byte = 0) as HA.
  { unfold base64_digit, char_val. rewrite andb_false_r. done. }
  rewrite HA. pose proof (decode_base64_value l0 l1 l2 "A"%byte) as Hv. cbv zeta in Hv. rewrite HA in Hv.
  enough (0 <= base64_digit l0 -> 0 <= base64_digit l1 -> 0 <= base64_digit l2 ->
    Z.land (decode_base64 l0 l1 l2 "A"%byte) 0xff = 0 <-> base64_digit l2 mod 4 = 0).
  { assert (Forall (fun c => 0 <= base64_digit c) []) by constructor. assert (0 <= 0) by lia. tauto. }
  intros H0 H1 H2. rewrite !(proj2 (Z.leb_le 0 _)) in Hv by lia. cbn [andb] in Hv. rewrite Hv.
  change 0xff with (2 ^ 8 - 1). rewrite land_mask by lia. change (2 ^ 8) with 256. zlia.
Qed.

Lemma key_from_base64_text `{Platform} (old key s : list byte) :
  key_from_base64 old s = (key, true) -> s = key_to_base64 key.
Proof.
  intros Hk.
  destruct (key_from_base64_shape _ _ _ Hk) as (blocks & l0 & l1 & l2 & Hn & ->).
  destruct (key_from_base64_blocks old blocks l0 l1 l2 Hn) as (ok & E & Hok).
  rewrite E in Hk. injection Hk as <- ->.
  destruct (proj1 Hok eq_refl) as (Hb & Hs & Hl).
  destruct (decoded_blocks_encode blocks Hb) as (triples & Ht & -> & ->).
  destruct (decoded_block_encodes (l0, l1, l2, "A"%byte) Hs) as (a & b & c & Ev & El).
  cbn [block_value] in Ev. unfold value_bytes in Ev.
  assert (c = x00) as -> by (rewrite Hl in Ev; by injection Ev as _ _ <-).
  injection Ev as -> -> _.
  unfold encoded_block in El. injection El as El0 El1 El2.
  rewrite key_to_base64_triples by lia. by rewrite El0, El1, El2.
Qed.

(** [key_from_base64] accepts only canonical text: a string it accepts is the
    base64 text of the 32 bytes it stores, so no two strings name one key. *)
Theorem key_from_base64_canonical `{Platform} (old key s : list byte) :
  key_from_base64 old s = (key, true) -> length key = 32%nat /\ s = key_to_base64 key.
Proof. intros Hk. split; [by eapply key_from_base64_length | by eapply key_from_base64_text]. Qed.

(** ** Hexadecimal lemmas *)

(** The branch-free value of a character is its value as a digit; the contribution
    to [ret] is 0 for a digit and -1 otherwise. *)
Lemma hex_digit_spec (c : byte) :
  match hex_value c with
  | Some v => hex_digit c = (v, 0) /\ 0 <= v < 16
  | None => snd (hex_digit c) = -1
  end.
Proof.
  assert (forallb (fun c => match hex_value c with
    | Some v => (fst (hex_digit c) =? v) && (snd (hex_digit c) =? 0) && (0 <=? v) && (v <? 16)
    | None => snd (hex_digit c) =? -1 end) all_bytes = true) as Hall by by vm_compute.
  pose proof (byte_exhaust _ Hall c) as Hc. cbv beta in Hc.
  destruct (hex_value c); boolz; [| done].
  split; [| lia]. destruct (hex_digit c); cbn in *. congruence.
Qed.

Lemma hex_char_value (n : Z) : 0 <= n < 16 ->
  hex_value (hex_char n) = Some n /\ hex_char n = byte_at hex_alphabet (Z.to_nat n).
Proof.
  intros Hn.
  assert (forallb (fun n => match hex_value (hex_char n) with Some v => v =? n | None => false end
    && Byte.eqb (hex_char n) (byte_at hex_alphabet (Z.to_nat n))) (seqZ 0 16) = true)
    as Hall by by vm_compute.
  pose proof (seqZ_forallb _ _ _ Hall Hn) as H. cbv beta in H. boolz.
  split; [| by apply byte_eqb_eq]. destruct (hex_value (hex_char n)); [| done].
  f_equal. lia.
Qed.

(** The loop of [key_from_hex] over the pairs of characters. *)
Definition hex_byte (hi lo : byte) : byte :=
  z2b (Z.lor (u8 (fst (hex_digit hi) * 16)) (fst (hex_digit lo))).

Definition hex_pair (hex : list byte) (i : nat) : byte * byte :=
  (byte_at hex (2 * i), byte_at hex (2 * i + 1)).

Definition hex_pair_bad (p : byte * byte) : Z :=
  Z.lor (snd (hex_digit (fst p))) (snd (hex_digit (snd p))).

Lemma key_from_hex_fold (hex : list byte) (idx : list nat) (ret : Z) (key : list byte) :
  0 <= ret < 256 ->
  fold_left (fun '(ret, key) i =>
      let '(hi, bad_hi) := hex_digit (byte_at hex (2 * i)) in
      let '(lo, bad_lo) := hex_digit (byte_at hex (2 * i + 1)) in
      let ret := u8 (Z.lor (u8 (Z.lor ret bad_hi)) bad_lo) in
      (ret, key ++ [z2b (Z.lor (u8 (hi * 16)) lo)])) idx (ret, key)
  = (fold_left (fun r i => u8 (Z.lor r (hex_pair_bad (hex_pair hex i)))) idx ret,
     key ++ map (fun i => hex_byte (byte_at hex (2 * i)) (byte_at hex (2 * i + 1))) idx).
Proof.
  revert ret key. induction idx as [|i idx IH]; intros ret key Hr; cbn [fold_left map].
  - by rewrite app_nil_r.
  - destruct (hex_digit (byte_at hex (2 * i))) as [hi bhi] eqn:E1.
    destruct (hex_digit (byte_at hex (2 * i + 1))) as [lo blo] eqn:E2.
    rewrite IH by apply u8_lor_range. f_equal.
    + f_equal. unfold hex_pair_bad, hex_pair. cbn [fst snd]. rewrite E1, E2. cbn [snd].
      by rewrite u8_lor_l, Z.lor_assoc.
    + rewrite <- app_assoc. cbn [app]. unfold hex_byte. by rewrite E1, E2.
Qed.

(** A pair contributes nothing to [ret] exactly when both characters are digits. *)
Lemma hex_pair_bad_zero (p : byte * byte) :
  u8 (hex_pair_bad p) = 0 <-> is_Some (hex_value (fst p)) /\ is_Some (hex_value (snd p)).
Proof.
  unfold hex_pair_bad. pose proof (hex_digit_spec (fst p)) as Hh.
  pose proof (hex_digit_spec (snd p)) as Hl.
  destruct (hex_value (fst p)), (hex_value (snd p)).
  - destruct Hh as [-> _], Hl as [-> _]. cbn. split; eauto.
  - destruct Hh as [-> _]. rewrite Hl. cbn.
    split; [intros [=] | intros [_ [? [=]]]].
  - destruct Hl as [-> _]. rewrite Hh. cbn. split; [intros [=] | intros [[? [=]] _]].
  - rewrite Hh, Hl. cbn. split; [intros [=] | intros [[? [=]] _]].
Qed.

(** What [key_from_hex] does on a string of 64 characters. *)
Lemma key_from_hex_eq (old hex : list byte) : length hex = 64%nat ->
  exists ok, key_from_hex old hex
    = (map (fun i => hex_byte (byte_at hex (2 * i)) (byte_at hex (2 * i + 1))) (seq 0 32), ok)
  /\ (ok = true <-> Forall (fun i => is_Some (hex_value (byte_at hex (2 * i)))
                             /\ is_Some (hex_value (byte_at hex (2 * i + 1)))) (seq 0 32)).
Proof.
  intros Hl. unfold key_from_hex. rewrite Hl.
  change (negb (64 =? WG_KEY_LEN_HEX - 1)%nat) with false. cbv iota.
  rewrite key_from_hex_fold by lia. cbn [app].
  destruct (acc_or_zero (fun i => hex_pair_bad (hex_pair hex i)) (seq 0 WG_KEY_LEN) 0)
    as [Hr Hz]; [lia |].
  eexists. split; [reflexivity |]. rewrite zero_mask by done.
  rewrite Z.eqb_eq, Hz. setoid_rewrite hex_pair_bad_zero. cbn [hex_pair fst snd]. tauto.
Qed.

Lemma hex_byte_chars (b : byte) :
  hex_byte (hex_char (Z.shiftr (b2z b) 4)) (hex_char (Z.land (b2z b) 0xf)) = b.
Proof.
  apply byte_eqb_eq.
  by apply (byte_exhaust (fun b => Byte.eqb (hex_byte (hex_char (Z.shiftr (b2z b) 4))
    (hex_char (Z.land (b2z b) 0xf))) b)).
Qed.

Lemma hex_nibbles (b : byte) : 0 <= Z.shiftr (b2z b) 4 < 16 /\ 0 <= Z.land (b2z b) 0xf < 16.
Proof.
  pose proof (b2z_range b). rewrite Z.shiftr_div_pow2 by lia.
  change 0xf with (2 ^ 4 - 1). rewrite land_mask by lia.
  change (2 ^ 4) with 16. zlia.
Qed.

(** The hexadecimal text of a key, byte by byte. *)
Lemma key_to_hex_map (key : list byte) : length key = 32%nat ->
  key_to_hex key
  = concat (map (fun b => [hex_char (Z.shiftr (b2z b) 4); hex_char (Z.land (b2z b) 0xf)]) key).
Proof.
  intros Hl. unfold key_to_hex. f_equal.
  exact (map_byte_at (fun b => [hex_char (Z.shiftr (b2z b) 4); hex_char (Z.land (b2z b) 0xf)])
           key 32 Hl).
Qed.

Lemma key_hex_decodes (old key : list byte) :
  length key = 32%nat -> key_from_hex old (key_to_hex key) = (key, true).
Proof.
  intros Hl. rewrite key_to_hex_map by done.
  pose (f := fun b => hex_char (Z.shiftr (b2z b) 4)). pose (g := fun b => hex_char (Z.land (b2z b) 0xf)).
  change (key_from_hex old (concat (map (fun b => [f b; g b]) key)) = (key, true)).
  destruct (key_from_hex_eq old (concat (map (fun b => [f b; g b]) key))) as (ok & -> & Hok).
  { clear -Hl. by explode 32 key. }
  assert (forall i, i ∈ seq 0 32 -> (i < length key)%nat) as Hi
    by (intros i ?%elem_of_seq; lia).
  f_equal.
  - transitivity (map id key); [| apply map_id]. rewrite <- (map_byte_at id key 32 Hl).
    apply map_ext_in. intros i ?%list_elem_of_In%Hi.
    destruct (byte_at_pairs f g key i) as [-> ->]; [done |]. apply hex_byte_chars.
  - apply Hok, Forall_forall. intros i ?%Hi.
    destruct (byte_at_pairs f g key i) as [-> ->]; [done |].
    destruct (hex_nibbles (byte_at key i)) as [? ?].
    split; eexists; by apply hex_char_value.
Qed.

Lemma key_to_hex_shape (key : list byte) : length key = 32%nat ->
  length (key_to_hex key) = 64%nat /\ Forall (fun x => In x hex_alphabet) (key_to_hex key).
Proof.
  intros Hl. rewrite key_to_hex_map by done. split; [by explode 32 key |].
  assert (forall n, 0 <= n < 16 -> In (hex_char n) hex_alphabet) as Hc.
  { intros n Hn. destruct (hex_char_value n Hn) as [_ ->]. apply nth_In.
    change (length hex_alphabet) with 16%nat. lia. }
  apply Forall_concat, Forall_map, Forall_true. intros b. unfold compose.
  destruct (hex_nibbles b). apply Forall_cons; split; [by apply Hc |]. apply Forall_singleton. by apply Hc.
Qed.

(** The hexadecimal text of a 32-byte key, as the userspace protocol carries it, is 64
    lower-case digits and is read back as that key. *)
Theorem key_hex_roundtrip (old key : list byte) : length key = 32%nat ->
  length (key_to_hex key) = 64%nat
  /\ Forall (fun x => In x hex_alphabet) (key_to_hex key)
  /\ key_from_hex old (key_to_hex key) = (key, true).
Proof.
  intros Hk. destruct (key_to_hex_shape key Hk). split; [done |]. split; [done |].
  by apply key_hex_decodes.
Qed.

(** [key_from_hex] accepts a string exactly when it is 64 hexadecimal digits of
    either case; the constant-time digit test has no false positive or negative. *)
Theorem key_from_hex_accepts (old hex : list byte) :
  snd (key_from_hex old hex) = true
  <-> length hex = 64%nat /\ Forall (fun c => is_Some (hex_value c)) hex.
Proof.
  destruct (Nat.eq_dec (length hex) 64%nat) as [Hl | Hl].
  - destruct (key_from_hex_eq old hex Hl) as (ok & -> & Hok). cbn [snd]. rewrite Hok.
    split; [| intros [_ Hf]].
    + intros Hf. split; [done |]. rewrite Forall_forall in Hf. apply Forall_forall.
      intros c (j & Hj & <-)%list_elem_of_In%(In_nth _ _ x00).
      destruct (Hf (j / 2)%nat) as [He Ho].
      { apply elem_of_seq. split; [lia |]. apply Nat.Div0.div_lt_upper_bound. lia. }
      assert (j = 2 * (j / 2) \/ j = 2 * (j / 2) + 1)%nat as [-> | ->]; [| apply He | apply Ho].
      pose proof (Nat.div_mod_eq j 2). pose proof (Nat.mod_upper_bound j 2). lia.
    + apply Forall_forall. intros i [_ Hi]%elem_of_seq.
      rewrite Forall_forall in Hf. split; apply Hf; unfold byte_at;
        apply list_elem_of_In, nth_In; lia.
  - unfold key_from_hex. destruct (_ =? _)%nat eqn:E; [apply Nat.eqb_eq in E; done |].
    cbn. split; [done | tauto].
Qed.

(** [key_is_zero] answers true exactly on the all-zero key. *)
Theorem key_is_zero_spec (key : list byte) :
  length key = 32%nat -> key_is_zero key = true <-> key = repeat x00 32.
Proof.
  intros Hl. unfold key_is_zero.
  destruct (acc_or_zero (fun i => b2z (byte_at key i)) (seq 0 WG_KEY_LEN) 0) as [Hr Hz]; [lia |].
  rewrite zero_mask, Z.eqb_eq, Hz by done. split.
  - intros [_ Hf]. rewrite Forall_forall in Hf.
    transitivity (map id key); [symmetry; apply map_id |]. rewrite <- (map_byte_at id key 32 Hl).
    change (repeat x00 32) with (map (fun _ => x00) (seq 0 32)).
    apply map_ext_in. intros i Hi%list_elem_of_In. unfold id. apply b2z_inj.
    specialize (Hf i Hi). pose proof (b2z_range (byte_at key i)).
    change (b2z x00) with 0. by apply u8_small_zero.
  - intros ->. split; [done |]. apply Forall_forall. intros i _.
    unfold byte_at. by rewrite nth_repeat.
Qed.

(** ** Witnesses *)

Section Witnesses.
#[local] Existing Instance lp64_x86.

Lemma key_base64_roundtrip_witness :
  let key := map z2b (seqZ 100 32) in
  length (key_to_base64 key) = 44%nat
  /\ Forall (fun x => In x ("="%byte :: base64_alphabet)) (key_to_base64 key)
  /\ key_from_base64 (repeat x00 32) (key_to_base64 key) = (key, true).
Proof. apply (key_base64_roundtrip (repeat x00 32) (map z2b (seqZ 100 32))). reflexivity. Defined.

Lemma key_from_base64_canonical_witness :
  length (map z2b (seqZ 0 32)) = 32%nat
  /\ text "AAECAwQFBgcICQoLDA0ODxAREhMUFRYXGBkaGxwdHh8=" = key_to_base64 (map z2b (seqZ 0 32)).
Proof.
  apply (key_from_base64_canonical (repeat x00 32) (map z2b (seqZ 0 32))
           (text "AAECAwQFBgcICQoLDA0ODxAREhMUFRYXGBkaGxwdHh8=")). vm_compute. reflexivity.
Defined.

Lemma key_hex_roundtrip_witness :
  let key := map z2b (seqZ 100 32) in
  length (key_to_hex key) = 64%nat
  /\ Forall (fun x => In x hex_alphabet) (key_to_hex key)
  /\ key_from_hex (repeat x00 32) (key_to_hex key) = (key, true).
Proof. apply (key_hex_roundtrip (repeat x00 32) (map z2b (seqZ 100 32))). reflexivity. Defined.

Lemma key_is_zero_spec_witness :
  key_is_zero (repeat x00 31 ++ [x01]) = true <-> repeat x00 31 ++ [x01] = repeat x00 32.
Proof. apply (key_is_zero_spec (repeat x00 31 ++ [x01])). reflexivity. Defined.
End Witnesses.
