(* ===== verification/Containers.v ===== *)
(** * The device, peer and allowed-IP records (src/containers.h)

    The linked lists [first_peer]/[next_peer] and [first_allowedip]/[next_allowedip]
    are lists; a pointer to a cell of such a list is its index.  The unions are the
    bytes they occupy: [ip4] is the first four bytes of [ip], [endpoint] holds the
    bytes of the [sockaddr], whose family is its first, little-endian, 16-bit field. *)

From S2P Require Import Prelude Encoding.
#[local] Open Scope Z_scope.
#[local] Open Scope awg_scope.

Definition AF_UNSPEC : Z := 0.
Definition AF_INET : Z := 2.
Definition AF_INET6 : Z := 10.

Definition IFNAMSIZ : nat := 16.
Definition MAX_AWG_STRING_LEN : Z := 5 * 1024.

Definition sizeof_sockaddr_in : nat := 16.
Definition sizeof_sockaddr_in6 : nat := 28.

Record timespec64 := Timespec64 {
  tv_sec : Z;
  tv_nsec : Z;
}.

Record wgallowedip := WgAllowedip {
  family : Z;
  ip : list byte;
  cidr : Z;
}.

Definition ip4 (a : wgallowedip) : list byte := take 4 (ip a).
Definition ip6 (a : wgallowedip) : list byte := ip a.

(** The flags of a peer, [1U << n]. *)
Definition WGPEER_REMOVE_ME : Z := 1.
Definition WGPEER_REPLACE_ALLOWEDIPS : Z := 2.
Definition WGPEER_HAS_PUBLIC_KEY : Z := 4.
Definition WGPEER_HAS_PRESHARED_KEY : Z := 8.
Definition WGPEER_HAS_PERSISTENT_KEEPALIVE_INTERVAL : Z := 16.
Definition WGPEER_HAS_AWG : Z := 32.

Record wgpeer := WgPeer {
  peer_flags : Z;
  peer_public_key : list byte;
  preshared_key : list byte;
  endpoint : list byte;
  last_handshake_time : timespec64;
  rx_bytes : Z;
  tx_bytes : Z;
  persistent_keepalive_interval : Z;
  awg : bool;
  allowedips : list wgallowedip;
}.

(** The flags of a device. *)
Definition WGDEVICE_REPLACE_PEERS : Z := 1.
Definition WGDEVICE_HAS_PRIVATE_KEY : Z := 2.
Definition WGDEVICE_HAS_PUBLIC_KEY : Z := 4.
Definition WGDEVICE_HAS_LISTEN_PORT : Z := 8.
Definition WGDEVICE_HAS_FWMARK : Z := 16.
Definition WGDEVICE_HAS_JC : Z := 32.
Definition WGDEVICE_HAS_JMIN : Z := 64.
Definition WGDEVICE_HAS_JMAX : Z := 128.
Definition WGDEVICE_HAS_S1 : Z := 256.
Definition WGDEVICE_HAS_S2 : Z := 512.
Definition WGDEVICE_HAS_H1 : Z := 1024.
Definition WGDEVICE_HAS_H2 : Z := 2048.
Definition WGDEVICE_HAS_H3 : Z := 4096.
Definition WGDEVICE_HAS_H4 : Z := 8192.
Definition WGDEVICE_HAS_S3 : Z := 16384.
Definition WGDEVICE_HAS_S4 : Z := 32768.
Definition WGDEVICE_HAS_I1 : Z := 65536.
Definition WGDEVICE_HAS_I2 : Z := 131072.
Definition WGDEVICE_HAS_I3 : Z := 262144.
Definition WGDEVICE_HAS_I4 : Z := 524288.
Definition WGDEVICE_HAS_I5 : Z := 1048576.

(** A [char *] field is [None] when the pointer is NULL. *)
Record wgdevice := WgDevice {
  name : list byte;
  ifindex : Z;
  flags : Z;
  public_key : list byte;
  private_key : list byte;
  fwmark : Z;
  listen_port : Z;
  peers : list wgpeer;
  junk_packet_count : Z;
  junk_packet_min_size : Z;
  junk_packet_max_size : Z;
  init_packet_junk_size : Z;
  response_packet_junk_size : Z;
  cookie_reply_packet_junk_size : Z;
  transport_packet_junk_size : Z;
  init_packet_magic_header : option (list byte);
  response_packet_magic_header : option (list byte);
  underload_packet_magic_header : option (list byte);
  transport_packet_magic_header : option (list byte);
  i1 : option (list byte);
  i2 : option (list byte);
  i3 : option (list byte);
  i4 : option (list byte);
  i5 : option (list byte);
}.

#[export] Instance eta_wgallowedip : Eta wgallowedip :=
  fun r => WgAllowedip (family r) (ip r) (cidr r).

#[export] Instance eta_wgpeer : Eta wgpeer :=
  fun r => WgPeer (peer_flags r) (peer_public_key r) (preshared_key r) (endpoint r)
    (last_handshake_time r) (rx_bytes r) (tx_bytes r) (persistent_keepalive_interval r)
    (awg r) (allowedips r).

#[export] Instance eta_wgdevice : Eta wgdevice :=
  fun r => WgDevice (name r) (ifindex r) (flags r) (public_key r) (private_key r) (fwmark r)
    (listen_port r) (peers r) (junk_packet_count r) (junk_packet_min_size r)
    (junk_packet_max_size r) (init_packet_junk_size r) (response_packet_junk_size r)
    (cookie_reply_packet_junk_size r) (transport_packet_junk_size r)
    (init_packet_magic_header r) (response_packet_magic_header r)
    (underload_packet_magic_header r) (transport_packet_magic_header r)
    (i1 r) (i2 r) (i3 r) (i4 r) (i5 r).

(** ** What [calloc] returns *)

Definition zero_key : list byte := repeat x00 WG_KEY_LEN.
Definition zero_allowedip : wgallowedip := WgAllowedip AF_UNSPEC (repeat x00 16) 0.
Definition zero_peer : wgpeer :=
  WgPeer 0 zero_key zero_key (repeat x00 sizeof_sockaddr_in6) (Timespec64 0 0) 0 0 0 false [].
Definition zero_device : wgdevice :=
  WgDevice [] 0 0 zero_key zero_key 0 0 [] 0 0 0 0 0 0 0
    None None None None None None None None None.

(** ** Field access *)

(** [flags & f] as a condition, and [flags |= f]. *)
Definition has_flag (flags f : Z) : bool := negb (Z.land flags f =? 0).

Definition set_dev_flag (f : Z) (d : wgdevice) : wgdevice := d <| flags ::= fun x => Z.lor x f |>.
Definition set_peer_flag (f : Z) (p : wgpeer) : wgpeer := p <| peer_flags ::= fun x => Z.lor x f |>.

(** [addr.sa_family] of the bytes of a [sockaddr]. *)
Definition sa_family (sa : list byte) : Z := le_bytes (take 2 sa).

(** [memcpy(dst, src, n)] into the front of a larger object. *)
Definition memcpy_front (dst src : list byte) : list byte := src ++ drop (length src) dst.

(** [strncpy(name, s, IFNAMSIZ - 1); name\[IFNAMSIZ - 1\] = 0]. *)
Definition set_name (s : list byte) (d : wgdevice) : wgdevice := d <| name := take (IFNAMSIZ - 1) s |>.

(** [last->next = new], or [first = new] when there is no last cell: a cell that
    already had a successor loses it. *)
Definition link_after {A} (l : list A) (last : option nat) (new : A) : list A :=
  match last with
  | Some i => take (S i) l ++ [new]
  | None => [new]
  end.

(** The index of the cell [link_after] adds. *)
Definition linked_at (last : option nat) : nat :=
  match last with
  | Some i => S i
  | None => O
  end.

(** The pointer to the last cell of a list. *)
Definition last_index {A} (l : list A) : option nat :=
  match l with
  | [] => None
  | _ => Some (length l - 1)%nat
  end.

(** ** Lemmas *)

(** With the pointer at the last cell, linking appends and the new cell is last. *)
Lemma link_after_last {A} (l : list A) (new : A) :
  link_after l (last_index l) new = l ++ [new].
Proof.
  destruct l as [|x l]; [done |]. cbn [last_index link_after length].
  f_equal. apply take_ge. cbn. lia.
Qed.

Lemma linked_at_last {A} (l : list A) (new : A) :
  Some (linked_at (last_index l)) = last_index (l ++ [new]).
Proof.
  destruct l as [|x l]; [done |]. cbn [last_index linked_at app length].
  rewrite length_app. cbn [length]. f_equal. lia.
Qed.

Lemma linked_at_length {A} (l : list A) : linked_at (last_index l) = length l.
Proof. destruct l as [|x l]; [done |]. cbn. lia. Qed.

Lemma has_flag_lor (fl f g : Z) : has_flag (Z.lor fl f) g = has_flag fl g || has_flag f g.
Proof.
  unfold has_flag. rewrite Z.land_lor_distr_l.
  destruct (Z.eqb_spec (Z.land fl g) 0) as [-> | H1]; cbn [negb orb].
  - done.
  - destruct (Z.eqb_spec (Z.lor (Z.land fl g) (Z.land f g)) 0) as [H2 | _]; [| done].
    apply Z.lor_eq_0_iff in H2. tauto.
Qed.

Lemma zero_key_length : length zero_key = 32%nat.
Proof. done. Qed.

(** ** Attributes that may be missing *)

(** An attribute that may be missing: a flag and a field that keep their values then. *)
Lemma cond_field {T} (proj : wgdevice -> T) `{S : !Setter proj} (c : bool) (f : Z) (v : T) (d : wgdevice) :
  modify proj (fun old => old) d = d ->
  (if c then set_dev_flag f (d <| proj := v |>) else d)
  = set_dev_flag (if c then f else 0) (modify proj (fun old => if c then v else old) d).
Proof.
  intros Hid. destruct c; [done |]. cbv match. rewrite Hid. destruct d. unfold set_dev_flag. cbn. by rewrite Z.lor_0_r.
Qed.

Lemma cond_bare {T} (proj : wgdevice -> T) `{S : !Setter proj} (c : bool) (v : T) (d : wgdevice) :
  modify proj (fun old => old) d = d ->
  (if c then d <| proj := v |> else d) = modify proj (fun old => if c then v else old) d.
Proof. intros Hid. by destruct c. Qed.

(** A flag is its own bit. *)
Lemma flag_bit (fl n : Z) : 0 <= n -> (if has_flag fl (2 ^ n) then 2 ^ n else 0) = Z.land fl (2 ^ n).
Proof.
  intros Hn. assert (Z.land fl (2 ^ n) = if Z.testbit fl n then 2 ^ n else 0) as E.
  { apply Z.bits_inj'. intros i Hi. rewrite Z.land_spec, Z.pow2_bits_eqb by done.
    destruct (Z.eqb_spec n i) as [<- | Hne].
    - rewrite andb_true_r. destruct (Z.testbit fl n) eqn:T; [by rewrite Z.pow2_bits_true | by rewrite Z.bits_0].
    - rewrite andb_false_r. destruct (Z.testbit fl n); [by rewrite Z.pow2_bits_false | by rewrite Z.bits_0]. }
  unfold has_flag. rewrite E. assert (0 < 2 ^ n) by (apply Z.pow_pos_nonneg; lia).
  destruct (Z.testbit fl n); [| done]. destruct (Z.eqb_spec (2 ^ n) 0); [lia | done].
Qed.

Lemma flags_kept (fl : Z) (fs : list Z) : Forall (fun f => exists n, 0 <= n /\ f = 2 ^ n) fs ->
  fold_left (fun acc f => Z.lor acc (if has_flag fl f then f else 0)) fs 0 = Z.land fl (fold_left Z.lor fs 0).
Proof.
  intros Hbits.
  assert (forall a, fold_left (fun acc f => Z.lor acc (if has_flag fl f then f else 0)) fs (Z.land fl a)
                    = Z.land fl (fold_left Z.lor fs a)) as H.
  { induction Hbits as [|f l (n & Hn & ->) _ IH]; intros a; [done |]. cbn [fold_left].
    by rewrite flag_bit, <- Z.land_lor_distr_r. }
  specialize (H 0). by rewrite Z.land_0_r in H.
Qed.

(** Each of a list of numerals is a flag. *)
Ltac each_flag :=
  repeat apply Forall_cons_2; [.. | by apply Forall_nil];
  match goal with |- exists n, 0 <= n /\ ?f = _ => exists (Z.log2 f); vm_compute; split; [discriminate | reflexivity] end.

(** Computes on a device whose fields are known. *)
Ltac device_fields :=
  cbn [set_dev_flag modify name ifindex flags public_key private_key fwmark listen_port peers junk_packet_count
       junk_packet_min_size junk_packet_max_size init_packet_junk_size response_packet_junk_size cookie_reply_packet_junk_size
       transport_packet_junk_size init_packet_magic_header response_packet_magic_header underload_packet_magic_header
       transport_packet_magic_header i1 i2 i3 i4 i5].

#[export] Hint Rewrite @link_after_last @linked_at_length has_flag_lor : awg.
