(* ===== verification/NetLib.v ===== *)
(** * The network functions of libc, as an interface

    Name resolution, the textual form of addresses and the environment are code
    outside the repository.  [NetLib] is what the program calls; [NetLibLaws] is the
    documented behaviour the theorems rely on: the numeric text of an address is read
    back as that address and is made of the characters such a text has. *)

From S2P Require Import Prelude CString Containers.
#[local] Open Scope Z_scope.

(** The error codes of [getaddrinfo] that the program tells apart. *)
Inductive gai_code := EAI_NONAME | EAI_FAIL | EAI_NODATA | EAI_SYSTEM | EAI_TRANSIENT.

(** [getaddrinfo]: an error code, or the first [struct addrinfo] of the answer, its
    family and the bytes of [ai_addr] ([ai_addrlen] is their number). *)
Inductive gai_result :=
| GaiError (code : gai_code)
| GaiOk (ai_family : Z) (ai_addr : list byte).

Class NetLib := {
  (** [getenv]. *)
  getenv : list byte -> option (list byte);
  (** [getaddrinfo(node, service)], at its [n]-th attempt; [AI_PASSIVE] when [node]
      is NULL. *)
  getaddrinfo : nat -> option (list byte) -> list byte -> gai_result;
  (** [inet_pton(af, text)]: the 4 or 16 bytes of the address. *)
  inet_pton : Z -> list byte -> option (list byte);
  (** [inet_ntop(af, bytes)]. *)
  inet_ntop : Z -> list byte -> option (list byte);
  (** [getnameinfo] with [NI_NUMERICHOST | NI_NUMERICSERV] on the bytes of a
      [sockaddr]: the host and service texts. *)
  getnameinfo : list byte -> option (list byte * list byte);
}.

(** A printable character that means nothing in a configuration line. *)
Definition plain_char (c : byte) : bool :=
  (33 <=? b2z c) && (b2z c <=? 126)
  && negb (Byte.eqb c "#"%byte) && negb (Byte.eqb c ","%byte) && negb (Byte.eqb c "/"%byte)
  && negb (Byte.eqb c "["%byte) && negb (Byte.eqb c "]"%byte).

(** The bytes of a [sockaddr_in] and of a [sockaddr_in6] as a resolver fills them in:
    family, port (big-endian), address, with padding, flow label and scope zero. *)
Definition sockaddr_in (port addr : list byte) : list byte :=
  [x02; x00] ++ port ++ addr ++ repeat x00 8.
Definition sockaddr_in6 (port addr : list byte) : list byte :=
  [x0a; x00] ++ port ++ repeat x00 4 ++ addr ++ repeat x00 4.

Inductive is_endpoint : list byte -> Prop :=
| EndpointIn port addr :
    length port = 2%nat -> length addr = 4%nat -> is_endpoint (sockaddr_in port addr)
| EndpointIn6 port addr :
    length port = 2%nat -> length addr = 16%nat -> is_endpoint (sockaddr_in6 port addr).

Class NetLibLaws (N : NetLib) := {
  (** The text of an address is read back as that address. *)
  pton_ntop4 : forall a, length a = 4%nat ->
    exists t, inet_ntop AF_INET a = Some t /\ inet_pton AF_INET t = Some a
      /\ t <> [] /\ forallb plain_char t = true /\ has_byte ":"%byte t = false;
  pton_ntop6 : forall a, length a = 16%nat ->
    exists t, inet_ntop AF_INET6 a = Some t /\ inet_pton AF_INET6 t = Some a
      /\ t <> [] /\ forallb plain_char t = true /\ has_byte ":"%byte t = true;
  (** The length of what [inet_pton] stores. *)
  pton_length4 : forall t a, inet_pton AF_INET t = Some a -> length a = 4%nat;
  pton_length6 : forall t a, inet_pton AF_INET6 t = Some a -> length a = 16%nat;
  (** The numeric text of an endpoint resolves, at any attempt, to that endpoint; an
      IPv6 host has a colon and an IPv4 one has none. *)
  gai_nameinfo : forall sa, is_endpoint sa ->
    exists host service, getnameinfo sa = Some (host, service)
      /\ (forall n, getaddrinfo n (Some host) service = GaiOk (sa_family sa) sa)
      /\ host <> [] /\ forallb plain_char host = true
      /\ service <> [] /\ forallb plain_char service = true
      /\ has_byte ":"%byte service = false
      /\ has_byte ":"%byte host = bool_decide (sa_family sa = AF_INET6);
  (** A decimal port is its own service name. *)
  gai_port : forall port, 0 < port < 65536 ->
    exists af sa, getaddrinfo 0 None (print_u port) = GaiOk af sa
      /\ (af = AF_INET /\ length sa = sizeof_sockaddr_in
          \/ af = AF_INET6 /\ length sa = sizeof_sockaddr_in6)
      /\ b2z (byte_at sa 2) * 256 + b2z (byte_at sa 3) = port;
}.
