(* ===== verification/NetLibNumeric.v ===== *)
(** * A resolver that knows numeric addresses only

    An instance of [NetLib] that satisfies [NetLibLaws]: dotted decimal IPv4
    addresses, IPv6 addresses as eight hexadecimal groups, decimal services, an empty
    environment, and every other name unknown.  The witnesses of the theorems that
    assume the laws run on it. *)

From S2P Require Import Prelude CString Containers NetLib.
#[local] Open Scope Z_scope.

(** A decimal or hexadecimal number with no superfluous digit. *)
Definition read_number (base max : Z) (tok : list byte) : option Z :=
  let '(v, rest) := scan_digits base 0 tok in
  if (v <=? max) && beq (print_base base v) tok then Some v else None.

Definition pton4 (t : list byte) : option (list byte) :=
  match map (read_number 10 255) (split_on "."%byte t) with
  | [Some a; Some b; Some c; Some d] => Some [z2b a; z2b b; z2b c; z2b d]
  | _ => None
  end.

Definition ntop4 (a : list byte) : option (list byte) :=
  match a with
  | [a; b; c; d] =>
      Some (print_u (b2z a) ++ "."%byte :: print_u (b2z b) ++ "."%byte :: print_u (b2z c)
            ++ "."%byte :: print_u (b2z d))
  | _ => None
  end.

Fixpoint groups6 (a : list byte) : list Z :=
  match a with
  | hi :: lo :: a' => (b2z hi * 256 + b2z lo) :: groups6 a'
  | _ => []
  end.

Fixpoint join_groups (gs : list Z) : list byte :=
  match gs with
  | [] => []
  | [g] => print_x g
  | g :: gs' => print_x g ++ ":"%byte :: join_groups gs'
  end.

Definition ntop6 (a : list byte) : option (list byte) :=
  if (length a =? 16)%nat then Some (join_groups (groups6 a)) else None.

Fixpoint read_groups (toks : list (list byte)) : option (list byte) :=
  match toks with
  | [] => Some []
  | tok :: toks' =>
      match read_number 16 65535 tok, read_groups toks' with
      | Some v, Some a => Some (z2b (v / 256) :: z2b v :: a)
      | _, _ => None
      end
  end.

Definition pton6 (t : list byte) : option (list byte) :=
  match read_groups (split_on ":"%byte t) with
  | Some a => if (length a =? 16)%nat then Some a else None
  | None => None
  end.

Definition port_bytes (port : Z) : list byte := [z2b (port / 256); z2b port].

Definition numeric_getaddrinfo (node : option (list byte)) (service : list byte) : gai_result :=
  match read_number 10 65535 service with
  | None => GaiError EAI_NONAME
  | Some port =>
      match node with
      | None => GaiOk AF_INET (sockaddr_in (port_bytes port) (repeat x00 4))
      | Some host =>
          if has_byte ":"%byte host then
            match pton6 host with
            | Some a => GaiOk AF_INET6 (sockaddr_in6 (port_bytes port) a)
            | None => GaiError EAI_NONAME
            end
          else
            match pton4 host with
            | Some a => GaiOk AF_INET (sockaddr_in (port_bytes port) a)
            | None => GaiError EAI_NONAME
            end
      end
  end.

Definition numeric_getnameinfo (sa : list byte) : option (list byte * list byte) :=
  let service := print_u (b2z (byte_at sa 2) * 256 + b2z (byte_at sa 3)) in
  if sa_family sa =? AF_INET then
    match ntop4 (take 4 (drop 4 sa)) with Some host => Some (host, service) | None => None end
  else if sa_family sa =? AF_INET6 then
    match ntop6 (take 16 (drop 8 sa)) with Some host => Some (host, service) | None => None end
  else None.

#[export] Instance numeric_net : NetLib := {|
  getenv := fun _ => None;
  getaddrinfo := fun _ => numeric_getaddrinfo;
  inet_pton := fun af => if af =? AF_INET then pton4 else pton6;
  inet_ntop := fun af => if af =? AF_INET then ntop4 else ntop6;
  getnameinfo := numeric_getnameinfo;
|}.

(** ** The laws *)

Lemma read_number_print (base max v : Z) :
  2 <= base <= 36 -> 0 <= v <= max -> read_number base max (print_base base v) = Some v.
Proof.
  intros Hb Hv. unfold read_number.
  rewrite (numeral_scan base v) by (apply print_base_numeral; lia).
  by rewrite beq_refl, (proj2 (Z.leb_le v max)) by lia.
Qed.

(** The characters of a numeral are letters and digits. *)
Lemma numeral_alnum (base n : Z) (ds : list byte) : numeral base n ds ->
  forallb (fun c => match digit_val c with Some _ => true | None => false end) ds = true.
Proof.
  intros (_ & Hds & _). apply forallb_forall. intros c Hc%list_elem_of_In.
  rewrite Forall_forall in Hds. destruct (Hds c Hc) as [d Hd].
  unfold base_digit in Hd. by destruct (digit_val c).
Qed.

Lemma alnum_plain (c : byte) :
  match digit_val c with Some _ => true | None => false end = true ->
  plain_char c = true /\ c <> "."%byte /\ c <> ":"%byte.
Proof.
  intros Hd.
  assert (forallb (fun c => match digit_val c with
    | Some _ => plain_char c && negb (Byte.eqb c "."%byte) && negb (Byte.eqb c ":"%byte)
    | None => true end) all_bytes = true) as Hall by by vm_compute.
  pose proof (byte_exhaust _ Hall c) as Hc. cbv beta in Hc. clear Hall.
  destruct (digit_val c); [| discriminate]. boolz.
  split; [done |]. split; by apply byte_eqb_neq.
Qed.

Lemma print_base_plain (base n : Z) : 2 <= base <= 36 -> 0 <= n ->
  forallb plain_char (print_base base n) = true
  /\ ~ In "."%byte (print_base base n) /\ ~ In ":"%byte (print_base base n)
  /\ print_base base n <> [].
Proof.
  intros Hb Hn. pose proof (print_base_numeral base n Hb Hn) as Hp.
  pose proof (numeral_alnum _ _ _ Hp) as Ha. rewrite forallb_forall in Ha.
  split; [| split; [| split]].
  - apply forallb_forall. intros c Hc. by apply alnum_plain, Ha.
  - intros Hc%Ha. discriminate Hc.
  - intros Hc%Ha. discriminate Hc.
  - apply Hp.
Qed.

Lemma pton4_ntop4 (a b c d : byte) :
  exists t, ntop4 [a; b; c; d] = Some t /\ pton4 t = Some [a; b; c; d]
  /\ t <> [] /\ forallb plain_char t = true /\ has_byte ":"%byte t = false.
Proof.
  eexists. split; [reflexivity |]. unfold print_u, pton4.
  pose proof (b2z_range a); pose proof (b2z_range b);
    pose proof (b2z_range c); pose proof (b2z_range d).
  destruct (print_base_plain 10 (b2z a)) as (Pa & Da & Ca & Na); [lia | lia |].
  destruct (print_base_plain 10 (b2z b)) as (Pb & Db & Cb & Nb); [lia | lia |].
  destruct (print_base_plain 10 (b2z c)) as (Pc & Dc & Cc & Nc); [lia | lia |].
  destruct (print_base_plain 10 (b2z d)) as (Pd & Dd & Cd & Nd); [lia | lia |].
  split; [| split; [| split]].
  - rewrite !split_on_app, split_on_no by done. cbn [map].
    rewrite !read_number_print by lia. by rewrite !z2b_b2z.
  - by destruct (print_base 10 (b2z a)).
  - repeat (rewrite forallb_app || cbn [forallb]). by rewrite Pa, Pb, Pc, Pd.
  - destruct (has_byte _ _) eqn:E; [| done]. apply has_byte_iff in E.
    repeat (apply in_app_or in E as [E | E]; [tauto |]; destruct E as [[=] | E]). tauto.
Qed.

Lemma groups6_range (a : list byte) : Forall (fun g => 0 <= g <= 65535) (groups6 a).
Proof.
  induction a as [a IH] using (well_founded_induction (well_founded_ltof _ (@length byte))).
  destruct a as [|hi [|lo a]]; [constructor | constructor |]. cbn [groups6].
  pose proof (b2z_range hi); pose proof (b2z_range lo).
  constructor; [lia |]. apply IH. unfold ltof. cbn. lia.
Qed.

Lemma split_join_groups (g : Z) (gs : list Z) :
  Forall (fun g => 0 <= g <= 65535) (g :: gs) ->
  split_on ":"%byte (join_groups (g :: gs)) = map print_x (g :: gs)
  /\ forallb plain_char (join_groups (g :: gs)) = true
  /\ has_byte ":"%byte (join_groups (g :: gs)) = negb (length gs =? 0)%nat
  /\ join_groups (g :: gs) <> [].
Proof.
  revert g. induction gs as [|g' gs IH]; intros g [Hg Hgs]%Forall_cons;
    destruct (print_base_plain 16 g) as (Pg & _ & Cg & Ng); [lia | lia | | lia | lia |].
  - cbn [join_groups map length]. unfold print_x. split; [by apply split_on_no |].
    split; [done |]. split; [| done].
    destruct (has_byte _ _) eqn:E; [| done]. by apply has_byte_iff in E.
  - destruct (IH g' Hgs) as (IH1 & IH2 & IH3 & IH4).
    change (join_groups (g :: g' :: gs)) with (print_x g ++ ":"%byte :: join_groups (g' :: gs)).
    unfold print_x at 1 3 4 5. split; [| split; [| split]].
    + rewrite split_on_app by done. by rewrite IH1.
    + rewrite forallb_app. cbn [forallb]. by rewrite Pg, IH2.
    + apply has_byte_iff, in_or_app. right. by left.
    + by destruct (print_base 16 g).
Qed.

Lemma read_print_groups (a : list byte) : Nat.even (length a) = true ->
  read_groups (map print_x (groups6 a)) = Some a.
Proof.
  induction a as [a IH] using (well_founded_induction (well_founded_ltof _ (@length byte))).
  destruct a as [|hi [|lo a]]; [done | done |]. intros He. cbn [groups6 map read_groups].
  pose proof (b2z_range hi); pose proof (b2z_range lo).
  rewrite (IH a); [| unfold ltof; cbn; lia | done].
  unfold print_x. rewrite read_number_print by lia.
  do 3 f_equal; [| f_equal]; apply b2z_inj; rewrite b2z_z2b; zlia.
Qed.

Lemma pton6_ntop6 (a : list byte) : length a = 16%nat ->
  exists t, ntop6 a = Some t /\ pton6 t = Some a
  /\ t <> [] /\ forallb plain_char t = true /\ has_byte ":"%byte t = true.
Proof.
  intros Hl. unfold ntop6, pton6. rewrite Hl. eexists. split; [reflexivity |].
  pose proof (groups6_range a) as Hg. pose proof (read_print_groups a) as Hr.
  rewrite Hl in Hr. specialize (Hr eq_refl).
  destruct (groups6 a) as [|g gs] eqn:E.
  { by destruct a as [|? [|? ?]]. }
  destruct (split_join_groups g gs Hg) as (-> & Hp & Hc & Hn).
  rewrite Hr, Hl. split; [done |]. split; [done |]. split; [done |]. rewrite Hc.
  destruct gs; [| done]. by destruct a as [|? [|? [|? [|? ?]]]].
Qed.

Lemma pton4_length (t a : list byte) : pton4 t = Some a -> length a = 4%nat.
Proof.
  unfold pton4. intros Ht.
  repeat match type of Ht with context [match ?x with _ => _ end] => destruct x; try done end.
  by injection Ht as <-.
Qed.

Lemma pton6_length (t a : list byte) : pton6 t = Some a -> length a = 16%nat.
Proof.
  unfold pton6. destruct (read_groups _); [| done].
  destruct (length l =? 16)%nat eqn:E; [| done]. intros [= <-]. by apply Nat.eqb_eq.
Qed.


Lemma port_bytes_id (p q : byte) : port_bytes (b2z p * 256 + b2z q) = [p; q].
Proof.
  pose proof (b2z_range p); pose proof (b2z_range q).
  unfold port_bytes. f_equal; [| f_equal]; apply b2z_inj; rewrite b2z_z2b; zlia.
Qed.

(** Resolving what [getnameinfo] prints. *)
Lemma numeric_gai_nameinfo (sa : list byte) : is_endpoint sa ->
  exists host service, numeric_getnameinfo sa = Some (host, service)
    /\ numeric_getaddrinfo (Some host) service = GaiOk (sa_family sa) sa
    /\ host <> [] /\ forallb plain_char host = true
    /\ service <> [] /\ forallb plain_char service = true
    /\ has_byte ":"%byte service = false
    /\ has_byte ":"%byte host = bool_decide (sa_family sa = AF_INET6).
Proof.
  intros Hsa.
  assert (exists p q, byte_at sa 2 = p /\ byte_at sa 3 = q) as (p & q & Ep & Eq) by eauto.
  pose proof (b2z_range p); pose proof (b2z_range q).
  destruct (print_base_plain 10 (b2z p * 256 + b2z q)) as (Ps & _ & Cs & Ns); [lia | lia |].
  assert (has_byte ":"%byte (print_u (b2z p * 256 + b2z q)) = false) as Hs.
  { destruct (has_byte _ _) eqn:E; [| done]. by apply has_byte_iff in E. }
  unfold numeric_getnameinfo. rewrite Ep, Eq.
  destruct Hsa as [port addr Hp Ha | port addr Hp Ha];
    destruct port as [|p' [|q' [|? ?]]]; try done; unfold byte_at in Ep, Eq; cbn in Ep, Eq; subst p' q'.
  - destruct addr as [|a [|b [|c [|d [|? ?]]]]]; try done.
    destruct (pton4_ntop4 a b c d) as (t & Et & Ht & Hn & Hpl & Hc).
    exists t, (print_u (b2z p * 256 + b2z q)).
    change (take 4 (drop 4 (sockaddr_in [p; q] [a; b; c; d]))) with [a; b; c; d].
    change (sa_family (sockaddr_in [p; q] [a; b; c; d])) with AF_INET. rewrite Et.
    split; [done |]. unfold numeric_getaddrinfo. unfold print_u in *.
    rewrite read_number_print, Hc, Ht, port_bytes_id by lia. done.
  - destruct (pton6_ntop6 addr Ha) as (t & Et & Ht & Hn & Hpl & Hc).
    exists t, (print_u (b2z p * 256 + b2z q)).
    change (drop 8 (sockaddr_in6 [p; q] addr)) with (addr ++ repeat x00 4).
    rewrite (take_app_length' addr _ 16) by done.
    change (sa_family (sockaddr_in6 [p; q] addr)) with AF_INET6.
    change (AF_INET6 =? AF_INET) with false. rewrite Et.
    split; [done |]. unfold numeric_getaddrinfo. unfold print_u in *.
    rewrite read_number_print, Hc, Ht, port_bytes_id by lia. done.
Qed.

#[export] Instance numeric_net_laws : NetLibLaws numeric_net.
Proof.
  split; cbn -[print_u sizeof_sockaddr_in sizeof_sockaddr_in6].
  - intros a Ha. destruct a as [|a [|b [|c [|d [|? ?]]]]]; try done. apply pton4_ntop4.
  - apply pton6_ntop6.
  - apply pton4_length.
  - apply pton6_length.
  - intros sa Hsa. destruct (numeric_gai_nameinfo sa Hsa) as (h & s & ? & ? & ?).
    exists h, s. tauto.
  - intros port Hp. eexists _, _. unfold numeric_getaddrinfo.
    unfold print_u. rewrite read_number_print by lia. split; [done |].
    split; [by left |]. unfold sockaddr_in, port_bytes, byte_at. cbn [app nth].
    rewrite !b2z_z2b. zlia.
Qed.
