(* ===== verification/ConfigValues.v ===== *)
(** * Configuration values (src/config.c, the parse_* functions)

    One definition per parser.  A parser takes the objects its pointer arguments
    designate and returns its [bool] result with their new contents; what it prints
    on standard error is not modelled, and allocation succeeds.  [parse_uint16],
    [parse_bool] and [parse_dns_retries] may end the process. *)

From Stdlib Require Import Sorted.
From S2P Require Import Prelude Ctype CString Encoding Containers NetLib.
#[local] Open Scope Z_scope.
#[local] Open Scope awg_scope.

Definition UINT16_MAX : Z := 65535.
Definition UINT32_MAX : Z := 4294967295.
Definition INT_MAX : Z := 2147483647.

Section Values.
Context `{Platform} `{NetLib}.

(** [value\[0\]] is a digit; the NUL of an empty string is not. *)
Definition starts_with_digit (value : list byte) : bool := is_digit_char (byte_at value 0).

(** [ntohs] of the port field, at offset 2 of both socket address types. *)
Definition sockaddr_port (sa : list byte) : Z := b2z (byte_at sa 2) * 256 + b2z (byte_at sa 3).

Definition is_inet_addr (af : Z) (sa : list byte) : bool :=
  ((af =? AF_INET) && (length sa =? sizeof_sockaddr_in)%nat)
  || ((af =? AF_INET6) && (length sa =? sizeof_sockaddr_in6)%nat).

Definition parse_port (port flags : Z) (value : list byte) : bool * Z * Z :=
  if (length value =? 0)%nat then (false, port, flags)
  else
    match getaddrinfo 0 None value with
    | GaiError _ => (false, port, flags)
    | GaiOk af sa =>
        if is_inet_addr af sa then (true, sockaddr_port sa, Z.lor flags WGDEVICE_HAS_LISTEN_PORT)
        else (false, port, flags)
    end.

Definition parse_fwmark (fwmark flags : Z) (value : list byte) : bool * Z * Z :=
  if strcasecmp_eq value (text "off") then (true, 0, Z.lor flags WGDEVICE_HAS_FWMARK)
  else if negb (starts_with_digit value) then (false, fwmark, flags)
  else
    let base := if (2 <? Z.of_nat (length value)) && Byte.eqb (byte_at value 0) "0"%byte
                   && Byte.eqb (byte_at value 1) "x"%byte then 16 else 10 in
    let '(ret, rest) := strtoul base value in
    if negb (length rest =? 0)%nat || (UINT32_MAX <? ret) then (false, fwmark, flags)
    else (true, ret, Z.lor flags WGDEVICE_HAS_FWMARK).

Definition parse_key (key value : list byte) : bool * list byte :=
  let '(key, ok) := key_from_base64 key value in
  if ok then (true, key) else (false, zero_key).

(** The key file [path] as [fopen] and [fread] present it: [None] when it cannot be
    opened, its contents otherwise; no read error occurs. *)
Definition parse_keyfile (key : list byte) (file : option (list byte)) : bool * list byte :=
  match file with
  | None => (false, key)
  | Some content =>
      if (length content <? WG_KEY_LEN_BASE64 - 1)%nat then
        if (length content =? 0)%nat then (true, zero_key) else (false, key)
      else
        let dst := take (WG_KEY_LEN_BASE64 - 1) content in
        let trailing := drop (WG_KEY_LEN_BASE64 - 1) content in
        if forallb (fun c => char_is_space (b2z c)) trailing then parse_key key (c_str dst)
        else (false, key)
  end.

(** [inet_pton] stores into the union and leaves its other bytes. *)
Definition parse_ip (allowedip : wgallowedip) (value : list byte) : bool * wgallowedip :=
  let allowedip := allowedip <| family := AF_UNSPEC |> in
  let af := if has_byte ":"%byte value then AF_INET6 else AF_INET in
  match inet_pton af value with
  | Some addr =>
      (true, allowedip <| ip ::= fun old => memcpy_front old addr |> <| family := af |>)
  | None => (false, allowedip)
  end.

Definition parse_dns_retries : outcome Z :=
  match getenv (text "WG_ENDPOINT_RESOLUTION_RETRIES") with
  | None => Returns 15
  | Some retries =>
      if strcmp_eq retries (text "infinity") then Returns (-1)
      else
        let '(ret, rest) := strtoul 10 retries in
        if negb (length rest =? 0)%nat || (INT_MAX <? ret) then Exits 1 else Returns ret
  end.

(** The errors after which [parse_endpoint] does not try again. *)
Definition gai_permanent (code : gai_code) : bool :=
  match code with
  | EAI_NONAME | EAI_FAIL | EAI_NODATA => true
  | _ => false
  end.

(** [timeout = min(20000000, timeout * 6 / 5)], in [unsigned int]. *)
Definition next_timeout (timeout : Z) : Z := Z.min 20000000 (u32 (timeout * 6) / 5).

(** The resolution loop: [attempt] counts the calls, [retries] those left (-1 for no
    limit), [waited] lists the pauses.  It stops with an answer or with an error. *)
Fixpoint resolve_loop (fuel attempt : nat) (retries timeout : Z) (host service : list byte)
    (waited : list Z) : outcome (gai_result * list Z) :=
  match fuel with
  | O => OutOfFuel
  | S fuel' =>
      match getaddrinfo attempt (Some host) service with
      | GaiOk af sa => Returns (GaiOk af sa, waited)
      | GaiError code =>
          if gai_permanent code || (retries =? 0) then Returns (GaiError code, waited)
          else resolve_loop fuel' (S attempt) (if 0 <=? retries then retries - 1 else retries)
                 (next_timeout timeout) host service (waited ++ [timeout])
      end
  end.

(** The host and the service of an endpoint: ["\[host\]:service"] or
    ["host:service"], cut at the last colon. *)
Definition split_endpoint (value : list byte) : option (list byte * list byte) :=
  if Byte.eqb (byte_at value 0) "["%byte then
    match strsep "]"%byte value with
    | (_, None) => None
    | (begin, Some rest) =>
        if negb (Byte.eqb (byte_at rest 0) ":"%byte) || (length (drop 1 rest) =? 0)%nat then None
        else Some (drop 1 begin, drop 1 rest)
    end
  else
    match split_last ":"%byte value with
    | None => None
    | Some (begin, rest) => if (length rest =? 0)%nat then None else Some (begin, rest)
    end.

Definition parse_endpoint (fuel : nat) (endpoint value : list byte) : outcome (bool * list byte) :=
  let! retries := parse_dns_retries in
  if (length value =? 0)%nat then Returns (false, endpoint)
  else
    match split_endpoint value with
    | None => Returns (false, endpoint)
    | Some (host, service) =>
        let! answer := resolve_loop fuel 0 retries 1000000 host service [] in
        match fst answer with
        | GaiError _ => Returns (false, endpoint)
        | GaiOk af sa =>
            if is_inet_addr af sa then Returns (true, memcpy_front endpoint sa)
            else Returns (false, endpoint)
        end
    end.

Definition parse_persistent_keepalive (interval flags : Z) (value : list byte) : bool * Z * Z :=
  if strcasecmp_eq value (text "off") then
    (true, 0, Z.lor flags WGPEER_HAS_PERSISTENT_KEEPALIVE_INTERVAL)
  else if negb (starts_with_digit value) then (false, interval, flags)
  else
    let '(ret, rest) := strtoul 10 value in
    if negb (length rest =? 0)%nat || (65535 <? ret) then (false, interval, flags)
    else (true, u16 ret, Z.lor flags WGPEER_HAS_PERSISTENT_KEEPALIVE_INTERVAL).

(** [ntohl(ip\[i\])]: the [i]-th 32-bit word of an address. *)
Definition addr_word (addr : list byte) (i : nat) : Z :=
  let b k := b2z (byte_at addr (4 * i + k)) in
  b 0%nat * 2 ^ 24 + b 1%nat * 2 ^ 16 + b 2%nat * 2 ^ 8 + b 3%nat.

(** The loop [for (i = last; i >= 0; --i)] of [validate_netmask], [n] being [i + 1]. *)
Fixpoint netmask_loop (addr : list byte) (cidr : Z) (n : nat) : bool :=
  match n with
  | O => true
  | S i =>
      let zi := Z.of_nat i in
      if 32 * (zi + 1) <=? cidr then true
      else
        let mask := if 32 * zi <? cidr then Z.shiftr UINT32_MAX (cidr - 32 * zi) else UINT32_MAX in
        if negb (Z.land (addr_word addr i) mask =? 0) then false else netmask_loop addr cidr i
  end.

Definition validate_netmask (allowedip : wgallowedip) : bool :=
  if family allowedip =? AF_INET then netmask_loop (ip4 allowedip) (cidr allowedip) 1
  else if family allowedip =? AF_INET6 then netmask_loop (ip6 allowedip) (cidr allowedip) 4
  else true.

(** One token of [AllowedIPs]: the new cell, or [None] on an error.  A nonzero host
    part only makes the program print a warning. *)
Definition parse_allowedip (entry : list byte) : option wgallowedip :=
  let '(ip, mask) := strsep "/"%byte entry in
  let '(ok, new_allowedip) := parse_ip zero_allowedip ip in
  if negb ok then None
  else
    match mask with
    | Some mask =>
        if negb (starts_with_digit mask) then None
        else
          let '(cidr, rest) := strtoul 10 mask in
          if negb (length rest =? 0)%nat
             || ((32 <? cidr) && (family new_allowedip =? AF_INET))
             || ((128 <? cidr) && (family new_allowedip =? AF_INET6)) then None
          else Some (new_allowedip <| Containers.cidr := u8 cidr |>)
    | None =>
        if family new_allowedip =? AF_INET then Some (new_allowedip <| Containers.cidr := 32 |>)
        else if family new_allowedip =? AF_INET6 then Some (new_allowedip <| Containers.cidr := 128 |>)
        else None
    end.

(** The loop over the tokens; a failure leaves the cells linked so far and does not
    advance the caller's [last_allowedip]. *)
Fixpoint allowedips_loop (l : list wgallowedip) (last : option nat) (entries : list (list byte)) :
    bool * list wgallowedip * option nat :=
  match entries with
  | [] => (true, l, last)
  | entry :: entries' =>
      match parse_allowedip entry with
      | None => (false, l, last)
      | Some new => allowedips_loop (link_after l last new) (Some (linked_at last)) entries'
      end
  end.

Definition parse_allowedips (peer : wgpeer) (last_allowedip : option nat) (value : list byte) :
    bool * wgpeer * option nat :=
  let peer := set_peer_flag WGPEER_REPLACE_ALLOWEDIPS peer in
  if (length value =? 0)%nat then (true, peer, last_allowedip)
  else
    let '(ok, l, last) := allowedips_loop (allowedips peer) last_allowedip
                            (split_on ","%byte value) in
    (ok, peer <| allowedips := l |>, if ok then last else last_allowedip).

Definition parse_awg_string (device_value : option (list byte)) (value : list byte) :
    bool * option (list byte) :=
  if (length value =? 0)%nat then (true, None)
  else if MAX_AWG_STRING_LEN <=? Z.of_nat (length value) then (false, device_value)
  else (true, Some value).

(** The result of [strtoul] is first truncated to [uint32_t]. *)
Definition parse_uint16 (device_value : Z) (value : list byte) : outcome (bool * Z) :=
  if (length value =? 0)%nat then Returns (false, device_value)
  else
    let '(ret, rest) := strtoul 10 value in
    let ret := u32 ret in
    if negb (length rest =? 0)%nat || (UINT16_MAX <? ret) then Exits 1
    else Returns (true, u16 ret).

Definition parse_bool (device_value : bool) (value : list byte) : outcome (bool * bool) :=
  if (length value =? 0)%nat then Returns (false, device_value)
  else if strcasecmp_eq value (text "off") then Returns (true, false)
  else if strcasecmp_eq value (text "on") then Returns (true, true)
  else if negb (starts_with_digit value) then Returns (false, device_value)
  else
    let '(ret, rest) := strtoul 10 value in
    let ret := u32 ret in
    if negb (length rest =? 0)%nat then Exits 1 else Returns (true, negb (ret =? 0)).

End Values.

(** ** Numbers *)

Section Numbers.
Context `{P : Platform} `{!PlatformOk P}.

Lemma ulong_pow : 2 ^ 32 <= 2 ^ ulong_bits /\ 0 < ulong_bits.
Proof. destruct ulong_bits_cases as [-> | ->]; lia. Qed.

Lemma strtoul_print_u (n : Z) : 0 <= n < 2 ^ ulong_bits -> strtoul 10 (print_u n) = (n, []).
Proof. apply strtou_print_u. Qed.

Lemma starts_with_digit_print_u (n : Z) : 0 <= n -> starts_with_digit (print_u n) = true.
Proof.
  intros Hn. destruct (print_u_digits n Hn) as [Hne Hd].
  destruct (print_u n) as [|c s]; [done |]. apply is_digit_char_iff.
  by apply Forall_cons in Hd as [? _].
Qed.

Lemma print_u_not_word (n : Z) (w : list byte) :
  0 <= n -> match w with c :: _ => 97 <= b2z (to_lower c) | [] => False end ->
  strcasecmp_eq (print_u n) w = false.
Proof.
  intros Hn Hw. destruct (print_u_digits n Hn) as [Hne Hd].
  destruct (print_u n) as [|c s]; [done |]. apply Forall_cons in Hd as [Hc _].
  destruct w as [|x w]; [done |]. unfold strcasecmp_eq. cbn [map beq].
  assert (Byte.eqb (to_lower c) (to_lower x) = false) as ->; [| done].
  apply byte_eqb_neq. intros E. rewrite <- E in Hw. unfold to_lower in Hw.
  destruct (Z.leb_spec 65 (b2z c)); cbn [andb] in Hw; lia.
Qed.

Lemma print_u_nonempty (n : Z) : 0 <= n -> (length (print_u n) =? 0)%nat = false.
Proof. intros Hn. destruct (print_u_digits n Hn) as [Hne _]. by destruct (print_u n). Qed.

(** [parse_uint16] on a decimal numeral: the value is reduced modulo 2^32 before it is
    compared with 65535, so a numeral of 2^32 + 5 sets the field to 5, while 65536
    ends the process. *)
Theorem parse_uint16_decimal (old n : Z) : 0 <= n < 2 ^ ulong_bits ->
  parse_uint16 old (print_u n)
  = if n mod 2 ^ 32 <=? 65535 then Returns (true, n mod 2 ^ 32) else Exits 1.
Proof.
  intros Hn. unfold parse_uint16. rewrite print_u_nonempty, strtoul_print_u by lia.
  unfold u32, uw, UINT16_MAX. cbn [length Nat.eqb negb orb].
  pose proof (Z.mod_pos_bound n (2 ^ 32) eq_refl).
  destruct (Z.ltb_spec 65535 (n mod 2 ^ 32)), (Z.leb_spec (n mod 2 ^ 32) 65535); try lia; [done |].
  do 2 f_equal. unfold u16. apply uw_small. lia.
Qed.

(** [parse_persistent_keepalive] accepts a decimal numeral exactly up to 65535, whatever
    the width of [unsigned long], and stores its value. *)
Theorem parse_persistent_keepalive_decimal (old fl n : Z) : 0 <= n ->
  parse_persistent_keepalive old fl (print_u n)
  = if n <=? 65535 then (true, n, Z.lor fl WGPEER_HAS_PERSISTENT_KEEPALIVE_INTERVAL)
    else (false, old, fl).
Proof.
  intros Hn. unfold parse_persistent_keepalive.
  rewrite (print_u_not_word n (text "off")) by done.
  rewrite starts_with_digit_print_u by done. cbn [negb].
  destruct ulong_pow as [Hw Hw0]. unfold strtoul, strtou, print_u.
  rewrite (strto_scan_10 n) by (apply print_base_numeral; lia).
  cbn [length Nat.eqb negb orb].
  destruct (Z.ltb_spec (2 ^ ulong_bits - 1) n).
  - rewrite (proj2 (Z.leb_gt n 65535)) by lia.
    destruct (Z.ltb_spec 65535 (2 ^ ulong_bits - 1)); [done | lia].
  - destruct (Z.ltb_spec 65535 n), (Z.leb_spec n 65535); try lia; [done |].
    do 2 f_equal. unfold u16. apply uw_small. lia.
Qed.

Lemma parse_keepalive_print (old fl n : Z) : 0 <= n <= 65535 ->
  parse_persistent_keepalive old fl (print_u n)
  = (true, n, Z.lor fl WGPEER_HAS_PERSISTENT_KEEPALIVE_INTERVAL).
Proof.
  intros Hn. unfold parse_persistent_keepalive. destruct ulong_pow as [Hw Hw0].
  rewrite (print_u_not_word n (text "off")), starts_with_digit_print_u, strtoul_print_u by (done || lia).
  cbn [negb length Nat.eqb orb]. rewrite (proj2 (Z.ltb_ge 65535 n)) by lia.
  do 2 f_equal. unfold u16. apply uw_small. lia.
Qed.

Lemma parse_fwmark_hex (old fl n : Z) : 0 <= n < 2 ^ 32 ->
  parse_fwmark old fl ("0"%byte :: "x"%byte :: print_x n)
  = (true, n, Z.lor fl WGDEVICE_HAS_FWMARK).
Proof.
  intros Hn. unfold parse_fwmark.
  change (strcasecmp_eq _ _) with false.
  assert (starts_with_digit ("0"%byte :: "x"%byte :: print_x n) = true) as ->
    by (by apply is_digit_char_iff).
  cbn [negb]. destruct (print_base_numeral 16 n ltac:(lia) ltac:(lia)) as (Hne & _).
  fold (print_x n) in Hne.
  assert ((2 <? Z.of_nat (length ("0"%byte :: "x"%byte :: print_x n))) = true) as ->.
  { apply Z.ltb_lt. destruct (print_x n); [done |]. cbn [length]. lia. }
  change (true && _ && _) with true. destruct ulong_pow. cbv iota beta.
  unfold strtoul. rewrite strtou_print_x by lia. cbn [length Nat.eqb negb orb].
  unfold UINT32_MAX. by rewrite (proj2 (Z.ltb_ge 4294967295 n)) by lia.
Qed.

(** The firewall mark is a 32-bit value whatever the text, but a decimal numeral above
    2^32 - 1 is refused only where [unsigned long] is wider than 32 bits: on a 32-bit
    platform [strtoul] saturates and the mark becomes 0xffffffff. *)
Theorem parse_fwmark_decimal (old fl n : Z) : 0 <= n ->
  parse_fwmark old fl (print_u n)
  = if (n <=? UINT32_MAX) || (ulong_bits =? 32)
    then (true, Z.min n UINT32_MAX, Z.lor fl WGDEVICE_HAS_FWMARK) else (false, old, fl).
Proof.
  intros Hn. unfold parse_fwmark, UINT32_MAX.
  rewrite (print_u_not_word n (text "off")) by done.
  rewrite starts_with_digit_print_u by done. cbn [negb].
  assert (Byte.eqb (byte_at (print_u n) 1) "x"%byte = false) as ->.
  { destruct (print_u_digits n Hn) as [_ Hd]. apply byte_eqb_neq. intros E.
    destruct (print_u n) as [|a [|b s]]; cbn in E; [done | done |]. subst b.
    rewrite !Forall_cons in Hd. destruct Hd as (_ & Hx & _). by cbv in Hx; destruct Hx. }
  rewrite andb_false_r. unfold strtoul, strtou, print_u.
  rewrite (strto_scan_10 n) by (apply print_base_numeral; lia).
  cbn [length Nat.eqb negb orb].
  destruct ulong_bits_cases as [-> | ->]; [rewrite orb_true_r | rewrite orb_false_r];
    match goal with |- context [?a <? n] => destruct (Z.ltb_spec a n) end;
    repeat match goal with |- context [4294967295 <? ?a] => destruct (Z.ltb_spec 4294967295 a) end;
    try destruct (Z.leb_spec n 4294967295); try lia; try done; do 2 f_equal; lia.
Qed.
End Numbers.

(** ** Name resolution *)

Section Resolution.
Context `{NetLib}.

(** The pauses between attempts that the loop can make from [timeout] on. *)
Fixpoint backoff (n : nat) (timeout : Z) : list Z :=
  match n with
  | O => []
  | S n' => timeout :: backoff n' (next_timeout timeout)
  end.

Lemma next_timeout_range (t : Z) :
  1000000 <= t <= 20000000 -> t <= next_timeout t <= 20000000 /\ 1000000 <= next_timeout t.
Proof.
  intros Ht. unfold next_timeout, u32. rewrite uw_small by lia.
  assert (t <= t * 6 / 5) by (apply Z.div_le_lower_bound; lia). lia.
Qed.

(** Every pause is between one and twenty seconds and no pause is shorter than the one
    before it; the [unsigned int] product never wraps. *)
Lemma backoff_bounds (n : nat) (t : Z) : 1000000 <= t <= 20000000 ->
  Forall (fun x => t <= x <= 20000000) (backoff n t) /\ StronglySorted Z.le (backoff n t).
Proof.
  revert t. induction n as [|n IH]; intros t Ht; cbn [backoff].
  { split; constructor. }
  destruct (next_timeout_range t Ht) as [Hn Hn'].
  destruct (IH (next_timeout t)) as [IHf IHs]; [lia |]. split; constructor; try done; try lia.
  - eapply Forall_impl; [exact IHf |]. cbn. lia.
  - eapply Forall_impl; [exact IHf |]. cbn. lia.
Qed.

(** With a limit of [r] retries the loop ends within [r + 1] attempts. *)
Lemma resolve_loop_bounded (r : nat) (fuel attempt : nat) (timeout : Z) (h s : list byte) (w : list Z) :
  (r < fuel)%nat ->
  exists answer k, resolve_loop fuel attempt (Z.of_nat r) timeout h s w
                   = Returns (answer, w ++ backoff k timeout)
  /\ (k <= r)%nat
  /\ getaddrinfo (attempt + k) (Some h) s = answer
  /\ (forall j, (j < k)%nat -> exists c, getaddrinfo (attempt + j) (Some h) s = GaiError c
                                    /\ gai_permanent c = false).
Proof.
  revert fuel attempt timeout w. induction r as [|r IH]; intros fuel attempt timeout w Hf;
    (destruct fuel as [|fuel]; [lia |]); cbn [resolve_loop];
    destruct (getaddrinfo attempt (Some h) s) as [c | af sa] eqn:E.
  - exists (GaiError c), O. change (Z.of_nat 0 =? 0) with true. rewrite orb_true_r, app_nil_r, Nat.add_0_r.
    split; [done |]. split; [lia |]. split; [done |]. lia.
  - exists (GaiOk af sa), O. rewrite app_nil_r, Nat.add_0_r. split; [done |]. split; [lia |].
    split; [done |]. lia.
  - destruct (gai_permanent c) eqn:Ep.
    { exists (GaiError c), O. rewrite app_nil_r, Nat.add_0_r. cbn [orb].
      split; [done |]. split; [lia |]. split; [done |]. lia. }
    destruct (Z.eqb_spec (Z.of_nat (S r)) 0); [lia |]. cbn [orb].
    destruct (Z.leb_spec 0 (Z.of_nat (S r))); [| lia].
    replace (Z.of_nat (S r) - 1) with (Z.of_nat r) by lia.
    destruct (IH fuel (S attempt) (next_timeout timeout) (w ++ [timeout])) as
      (a & k & -> & Hk & Ha & Hj); [lia |].
    exists a, (S k). cbn [backoff]. rewrite <- app_assoc. split; [done |]. split; [lia |].
    split; [by rewrite <- Ha, Nat.add_succ_comm |].
    intros [|j] Hjk; [rewrite Nat.add_0_r; eauto |].
    rewrite <- Nat.add_succ_comm. apply Hj. lia.
  - exists (GaiOk af sa), O. rewrite app_nil_r, Nat.add_0_r. split; [done |]. split; [lia |].
    split; [done |]. lia.
Qed.

(** The resolution of an endpoint with at most [r] retries ends after at most [r + 1]
    calls of [getaddrinfo]; it answers what the last call answered, all the earlier
    calls failed with a transient error, and the pauses between them grow from one
    second to at most twenty. *)
Theorem resolve_loop_terminates (r : nat) (fuel : nat) (h s : list byte) :
  (r < fuel)%nat ->
  exists answer k pauses,
    resolve_loop fuel 0 (Z.of_nat r) 1000000 h s [] = Returns (answer, pauses)
  /\ length pauses = k /\ (k <= r)%nat /\ getaddrinfo k (Some h) s = answer
  /\ (forall j, (j < k)%nat -> exists c, getaddrinfo j (Some h) s = GaiError c
                                    /\ gai_permanent c = false)
  /\ Forall (fun x => 1000000 <= x <= 20000000) pauses /\ StronglySorted Z.le pauses.
Proof.
  intros Hf.
  destruct (resolve_loop_bounded r fuel 0 1000000 h s [] Hf) as (a & k & E & Hk & Ha & Hj).
  destruct (backoff_bounds k 1000000) as [Hb Hs]; [lia |].
  exists a, k, (backoff k 1000000). split; [done |].
  split; [| by repeat split].
  clear. generalize 1000000. induction k; intros; cbn; [done |]. by rewrite IHk.
Qed.
End Resolution.

(** ** Netmasks *)

(** The first [n] words of an address as one number, most significant first. *)
Fixpoint addr_value (addr : list byte) (n : nat) : Z :=
  match n with
  | O => 0
  | S n' => addr_value addr n' * 2 ^ 32 + addr_word addr n'
  end.

Lemma addr_word_range (addr : list byte) (i : nat) : 0 <= addr_word addr i < 2 ^ 32.
Proof.
  unfold addr_word.
  pose proof (b2z_range (byte_at addr (4 * i + 0))); pose proof (b2z_range (byte_at addr (4 * i + 1)));
  pose proof (b2z_range (byte_at addr (4 * i + 2))); pose proof (b2z_range (byte_at addr (4 * i + 3))).
  lia.
Qed.

Lemma shiftr_mask (k : Z) : 0 <= k <= 32 -> Z.shiftr UINT32_MAX k = 2 ^ (32 - k) - 1.
Proof.
  intros Hk. rewrite Z.shiftr_div_pow2 by lia.
  assert (2 ^ 32 = 2 ^ k * 2 ^ (32 - k)) as E by (rewrite <- Z.pow_add_r by lia; f_equal; lia).
  assert (0 < 2 ^ k) by (apply Z.pow_pos_nonneg; lia).
  change UINT32_MAX with (2 ^ 32 - 1). symmetry.
  apply Z.div_unique with (r := 2 ^ k - 1); [lia |]. nia.
Qed.

(** The loop tests the bits below the prefix length, word by word. *)
Lemma netmask_loop_spec (addr : list byte) (cidr : Z) (n : nat) :
  0 <= cidr -> let bits := 32 * Z.of_nat n in
  netmask_loop addr cidr n = true <->
  (if cidr <=? bits then addr_value addr n mod 2 ^ (bits - cidr) = 0 else True).
Proof.
  intros Hc. induction n as [|n IH]; cbn [netmask_loop addr_value]; cbv zeta in *.
  { change (32 * Z.of_nat 0) with 0. destruct (Z.leb_spec cidr 0); [| done].
    rewrite Z.mod_0_l by (apply Z.pow_nonzero; lia). done. }
  replace (32 * Z.of_nat (S n)) with (32 * (Z.of_nat n + 1)) by lia.
  destruct (Z.leb_spec (32 * (Z.of_nat n + 1)) cidr).
  { destruct (Z.leb_spec cidr (32 * (Z.of_nat n + 1))); [| done].
    replace (32 * (Z.of_nat n + 1) - cidr) with 0 by lia. by rewrite Z.mod_1_r. }
  rewrite (proj2 (Z.leb_le cidr _)) by lia.
  pose proof (addr_word_range addr n) as Hw.
  destruct (Z.ltb_spec (32 * Z.of_nat n) cidr).
  - rewrite shiftr_mask, land_mask by lia.
    set (k := 32 - (cidr - 32 * Z.of_nat n)) in *.
    replace (32 * (Z.of_nat n + 1) - cidr) with k by (unfold k; lia).
    assert ((addr_value addr n * 2 ^ 32 + addr_word addr n) mod 2 ^ k = addr_word addr n mod 2 ^ k) as ->.
    { replace (2 ^ 32) with (2 ^ (32 - k) * 2 ^ k) by (rewrite <- Z.pow_add_r by lia; f_equal; lia).
      rewrite Z.mul_assoc, Z.add_comm, Z.mod_add by (apply Z.pow_nonzero; lia). done. }
    destruct (Z.eqb_spec (addr_word addr n mod 2 ^ k) 0); cbn [negb]; [| by split].
    rewrite IH. rewrite (proj2 (Z.leb_gt cidr (32 * Z.of_nat n))) by lia. tauto.
  - change UINT32_MAX with (2 ^ 32 - 1). rewrite land_mask, (Z.mod_small (addr_word addr n)) by lia.
    rewrite (proj2 (Z.leb_le cidr (32 * Z.of_nat n))) in IH by lia.
    set (k := 32 * Z.of_nat n - cidr) in *.
    replace (32 * (Z.of_nat n + 1) - cidr) with (32 + k) by (unfold k; lia).
    rewrite Z.pow_add_r by lia.
    assert (0 < 2 ^ k) by (apply Z.pow_pos_nonneg; lia).
    rewrite Z.rem_mul_r by lia. rewrite Z.div_add_l, (Z.div_small (addr_word addr n)), Z.add_0_r by lia.
    rewrite (Z.add_comm (addr_value addr n * 2 ^ 32)), Z.mod_add, Z.mod_small by lia.
    pose proof (Z.mod_pos_bound (addr_value addr n) (2 ^ k) ltac:(lia)).
    destruct (Z.eqb_spec (addr_word addr n) 0); cbn [negb]; [| split; [done | lia]].
    rewrite IH. lia.
Qed.

(** [validate_netmask] is true exactly when the bits of the address after the prefix
    are zero: the low [32 - cidr] bits of an IPv4 address, the low [128 - cidr] bits
    of an IPv6 address, and any address of another family. *)
Theorem validate_netmask_spec (a : wgallowedip) : 0 <= cidr a ->
  validate_netmask a = true <->
  (family a = AF_INET -> cidr a <= 32 -> addr_value (ip4 a) 1 mod 2 ^ (32 - cidr a) = 0)
  /\ (family a = AF_INET6 -> cidr a <= 128 -> addr_value (ip6 a) 4 mod 2 ^ (128 - cidr a) = 0).
Proof.
  intros Hc. unfold validate_netmask.
  destruct (Z.eqb_spec (family a) AF_INET) as [-> | Hn4].
  - rewrite netmask_loop_spec by done. change (32 * Z.of_nat 1) with 32.
    destruct (Z.leb_spec (cidr a) 32); split; try tauto; try (intros [H' _]; by apply H');
      (split; [intros; done || lia | done]).
  - destruct (Z.eqb_spec (family a) AF_INET6) as [-> | Hn6].
    + rewrite netmask_loop_spec by done. change (32 * Z.of_nat 4) with 128.
      destruct (Z.leb_spec (cidr a) 128); split; try tauto; try (intros [_ H']; by apply H');
        (split; [done | intros; done || lia]).
    + split; [| done]. done.
Qed.

(** ** Witnesses *)

Section Witnesses.
#[local] Existing Instance lp64_x86.

Lemma parse_uint16_decimal_witness :
  parse_uint16 0 (print_u (2 ^ 32 + 5))
  = if (2 ^ 32 + 5) mod 2 ^ 32 <=? 65535 then Returns (true, (2 ^ 32 + 5) mod 2 ^ 32) else Exits 1.
Proof. apply (parse_uint16_decimal 0 (2 ^ 32 + 5)). vm_compute. split; [discriminate | reflexivity]. Defined.

Lemma parse_persistent_keepalive_decimal_witness :
  parse_persistent_keepalive 7 1 (print_u 65536)
  = if 65536 <=? 65535 then (true, 65536, Z.lor 1 WGPEER_HAS_PERSISTENT_KEEPALIVE_INTERVAL)
    else (false, 7, 1).
Proof. apply (parse_persistent_keepalive_decimal 7 1 65536). lia. Defined.

Lemma parse_fwmark_decimal_witness :
  @parse_fwmark ilp32_arm 0 0 (print_u 99999999999) = (true, UINT32_MAX, Z.lor 0 WGDEVICE_HAS_FWMARK).
Proof. apply (@parse_fwmark_decimal ilp32_arm _ 0 0 99999999999). lia. Defined.

(** A resolver that has a transient failure twice before it answers. *)
#[local] Instance flaky_net : NetLib := {|
  getenv _ := None;
  getaddrinfo n _ _ := if (n <? 2)%nat then GaiError EAI_TRANSIENT
                       else GaiOk AF_INET (sockaddr_in [x01; x02] [x7f; x00; x00; x01]);
  inet_pton _ _ := None;
  inet_ntop _ _ := None;
  getnameinfo _ := None;
|}.

Lemma resolve_loop_terminates_witness :
  exists answer k pauses,
    resolve_loop 16 0 15 1000000 (text "host") (text "1") [] = Returns (answer, pauses)
  /\ length pauses = k /\ (k <= 15)%nat /\ getaddrinfo k (Some (text "host")) (text "1") = answer
  /\ (forall j, (j < k)%nat -> exists c, getaddrinfo j (Some (text "host")) (text "1") = GaiError c
                                    /\ gai_permanent c = false)
  /\ Forall (fun x => 1000000 <= x <= 20000000) pauses /\ StronglySorted Z.le pauses.
Proof. apply (resolve_loop_terminates 15 16 (text "host") (text "1")). lia. Defined.

Lemma validate_netmask_spec_witness :
  let a := WgAllowedip AF_INET (x0a :: repeat x00 15) 8 in
  validate_netmask a = true <->
  (family a = AF_INET -> cidr a <= 32 -> addr_value (ip4 a) 1 mod 2 ^ (32 - cidr a) = 0)
  /\ (family a = AF_INET6 -> cidr a <= 128 -> addr_value (ip6 a) 4 mod 2 ^ (128 - cidr a) = 0).
Proof. apply (validate_netmask_spec (WgAllowedip AF_INET (x0a :: repeat x00 15) 8)). vm_compute. discriminate. Defined.
End Witnesses.
