(* ===== verification/Config.v ===== *)
(** * Configuration files and command lines (src/config.c)

    The line reader ([config_read_init], [config_read_line], [config_read_finish]),
    [process_line] with its chain of keys, and [config_read_cmd], the argument reader
    of [awg set].  [config_ctx] keeps the device under construction and the two
    pointers into its lists; [config_read_line] answers [None] when it returns false,
    since it has then freed the device. *)

From S2P Require Import Prelude Ctype CString Encoding Containers NetLib ConfigValues.
#[local] Open Scope Z_scope.
#[local] Open Scope awg_scope.

Record config_ctx := ConfigCtx {
  device : wgdevice;
  last_peer : option nat;
  last_allowedip : option nat;
  is_peer_section : bool;
  is_device_section : bool;
}.

#[export] Instance eta_config_ctx : Eta config_ctx :=
  fun r => ConfigCtx (device r) (last_peer r) (last_allowedip r) (is_peer_section r)
             (is_device_section r).

Definition COMMENT_CHAR : byte := "#".
Definition awg_special_handshake_keys : list (list byte) :=
  [text "I1"; text "I2"; text "I3"; text "I4"; text "I5"].

(** The value after [key] when the line starts with it, in either case, and goes on. *)
Definition get_value (line key : list byte) : option (list byte) :=
  if (length line <=? length key)%nat then None
  else if strncasecmp_eq line key (length key) then Some (drop (length key) line) else None.

Definition strip_spaces `{Platform} (s : list byte) : list byte :=
  List.filter (fun c => negb (is_space_char c)) s.

(** The scan of [clean_special_handshake_line] after the trailing white space has
    been cut off. *)
Fixpoint clean_value `{Platform} (input : list byte) (found_equals found_value_start : bool) :
    list byte :=
  match input with
  | [] => []
  | c :: input' =>
      if negb found_equals then
        if Byte.eqb c "="%byte then c :: clean_value input' true found_value_start
        else if negb (is_space_char c) then c :: clean_value input' found_equals found_value_start
        else clean_value input' found_equals found_value_start
      else if negb found_value_start then
        if negb (is_space_char c) then c :: clean_value input' found_equals true
        else clean_value input' found_equals found_value_start
      else c :: clean_value input' found_equals found_value_start
  end.

(** The position after the last character that is not white space. *)
Fixpoint value_end `{Platform} (input : list byte) (i : nat) : nat :=
  match i with
  | O => O
  | S i' => if negb (is_space_char (byte_at input i')) then i else value_end input i'
  end.

Definition clean_special_handshake_line `{Platform} (input : list byte) (len : nat) : list byte :=
  clean_value (take (value_end input len) input) false false.

Section Config.
Context `{Platform} `{NetLib} (fuel : nat).

(** A parse of a device field that raises a flag of its own on success. *)
Definition dev_uint16 (ctx : config_ctx) (get : wgdevice -> Z) (set : Z -> wgdevice -> wgdevice)
    (flag : Z) (value : list byte) : outcome (bool * config_ctx) :=
  let! res := parse_uint16 (get (device ctx)) value in
  let '(ret, v) := res in
  Returns (ret, ctx <| device ::= fun d =>
                  let d := set v d in if ret then set_dev_flag flag d else d |>).

Definition dev_string (ctx : config_ctx) (get : wgdevice -> option (list byte))
    (set : option (list byte) -> wgdevice -> wgdevice) (flag : Z) (value : list byte) :
    outcome (bool * config_ctx) :=
  let '(ret, v) := parse_awg_string (get (device ctx)) value in
  Returns (ret, ctx <| device ::= fun d =>
                  let d := set v d in if ret then set_dev_flag flag d else d |>).

(** [*ctx->last_peer] replaced. *)
Definition update_peer (ctx : config_ctx) (f : wgpeer -> wgpeer) : config_ctx :=
  match last_peer ctx with
  | Some i => ctx <| device ::= fun d => d <| peers ::= alter f i |> |>
  | None => ctx
  end.

Definition current_peer (ctx : config_ctx) : wgpeer :=
  match last_peer ctx with
  | Some i => nth i (peers (device ctx)) zero_peer
  | None => zero_peer
  end.

Definition process_device_line (ctx : config_ctx) (line : list byte) : outcome (bool * config_ctx) :=
  let key_match key := get_value line (text key) in
  match key_match "ListenPort="%string with
  | Some value =>
      let '(ret, port, fl) := parse_port (listen_port (device ctx)) (flags (device ctx)) value in
      Returns (ret, ctx <| device ::= fun d => d <| listen_port := port |> <| flags := fl |> |>)
  | None =>
  match key_match "FwMark="%string with
  | Some value =>
      let '(ret, mark, fl) := parse_fwmark (fwmark (device ctx)) (flags (device ctx)) value in
      Returns (ret, ctx <| device ::= fun d => d <| fwmark := mark |> <| flags := fl |> |>)
  | None =>
  match key_match "PrivateKey="%string with
  | Some value =>
      let '(ret, key) := parse_key (private_key (device ctx)) value in
      Returns (ret, ctx <| device ::= fun d =>
                      let d := d <| private_key := key |> in
                      if ret then set_dev_flag WGDEVICE_HAS_PRIVATE_KEY d else d |>)
  | None =>
  match key_match "Jc="%string with
  | Some value => dev_uint16 ctx junk_packet_count (fun v d => d <| junk_packet_count := v |>)
                    WGDEVICE_HAS_JC value
  | None =>
  match key_match "Jmin="%string with
  | Some value => dev_uint16 ctx junk_packet_min_size (fun v d => d <| junk_packet_min_size := v |>)
                    WGDEVICE_HAS_JMIN value
  | None =>
  match key_match "Jmax="%string with
  | Some value => dev_uint16 ctx junk_packet_max_size (fun v d => d <| junk_packet_max_size := v |>)
                    WGDEVICE_HAS_JMAX value
  | None =>
  match key_match "S1="%string with
  | Some value => dev_uint16 ctx init_packet_junk_size (fun v d => d <| init_packet_junk_size := v |>)
                    WGDEVICE_HAS_S1 value
  | None =>
  match key_match "S2="%string with
  | Some value => dev_uint16 ctx response_packet_junk_size
                    (fun v d => d <| response_packet_junk_size := v |>) WGDEVICE_HAS_S2 value
  | None =>
  match key_match "S3="%string with
  | Some value => dev_uint16 ctx cookie_reply_packet_junk_size
                    (fun v d => d <| cookie_reply_packet_junk_size := v |>) WGDEVICE_HAS_S3 value
  | None =>
  match key_match "S4="%string with
  | Some value => dev_uint16 ctx transport_packet_junk_size
                    (fun v d => d <| transport_packet_junk_size := v |>) WGDEVICE_HAS_S4 value
  | None =>
  match key_match "H1="%string with
  | Some value => dev_string ctx init_packet_magic_header
                    (fun v d => d <| init_packet_magic_header := v |>) WGDEVICE_HAS_H1 value
  | None =>
  match key_match "H2="%string with
  | Some value => dev_string ctx response_packet_magic_header
                    (fun v d => d <| response_packet_magic_header := v |>) WGDEVICE_HAS_H2 value
  | None =>
  match key_match "H3="%string with
  | Some value => dev_string ctx underload_packet_magic_header
                    (fun v d => d <| underload_packet_magic_header := v |>) WGDEVICE_HAS_H3 value
  | None =>
  match key_match "H4="%string with
  | Some value => dev_string ctx transport_packet_magic_header
                    (fun v d => d <| transport_packet_magic_header := v |>) WGDEVICE_HAS_H4 value
  | None =>
  match key_match "I1="%string with
  | Some value => dev_string ctx i1 (fun v d => d <| i1 := v |>) WGDEVICE_HAS_I1 value
  | None =>
  match key_match "I2="%string with
  | Some value => dev_string ctx i2 (fun v d => d <| i2 := v |>) WGDEVICE_HAS_I2 value
  | None =>
  match key_match "I3="%string with
  | Some value => dev_string ctx i3 (fun v d => d <| i3 := v |>) WGDEVICE_HAS_I3 value
  | None =>
  match key_match "I4="%string with
  | Some value => dev_string ctx i4 (fun v d => d <| i4 := v |>) WGDEVICE_HAS_I4 value
  | None =>
  match key_match "I5="%string with
  | Some value => dev_string ctx i5 (fun v d => d <| i5 := v |>) WGDEVICE_HAS_I5 value
  | None => Returns (false, ctx)
  end end end end end end end end end end end end end end end end end end end.

Definition process_peer_line (ctx : config_ctx) (line : list byte) : outcome (bool * config_ctx) :=
  let key_match key := get_value line (text key) in
  let peer := current_peer ctx in
  match key_match "Endpoint="%string with
  | Some value =>
      let! res := parse_endpoint fuel (endpoint peer) value in
      let '(ret, ep) := res in
      Returns (ret, update_peer ctx (fun p => p <| endpoint := ep |>))
  | None =>
  match key_match "PublicKey="%string with
  | Some value =>
      let '(ret, key) := parse_key (peer_public_key peer) value in
      Returns (ret, update_peer ctx (fun p =>
                      let p := p <| peer_public_key := key |> in
                      if ret then set_peer_flag WGPEER_HAS_PUBLIC_KEY p else p))
  | None =>
  match key_match "AllowedIPs="%string with
  | Some value =>
      let '(ret, peer', last) := parse_allowedips peer (last_allowedip ctx) value in
      Returns (ret, (update_peer ctx (fun _ => peer')) <| last_allowedip := last |>)
  | None =>
  match key_match "PersistentKeepalive="%string with
  | Some value =>
      let '(ret, interval, fl) := parse_persistent_keepalive (persistent_keepalive_interval peer)
                                    (peer_flags peer) value in
      Returns (ret, update_peer ctx (fun p =>
                      p <| persistent_keepalive_interval := interval |> <| peer_flags := fl |>))
  | None =>
  match key_match "PresharedKey="%string with
  | Some value =>
      let '(ret, key) := parse_key (preshared_key peer) value in
      Returns (ret, update_peer ctx (fun p =>
                      let p := p <| preshared_key := key |> in
                      if ret then set_peer_flag WGPEER_HAS_PRESHARED_KEY p else p))
  | None =>
  match key_match "AdvancedSecurity="%string with
  | Some value =>
      let! res := parse_bool (awg peer) value in
      let '(ret, v) := res in
      Returns (ret, update_peer ctx (fun p =>
                      let p := p <| awg := v |> in
                      if ret then set_peer_flag WGPEER_HAS_AWG p else p))
  | None => Returns (false, ctx)
  end end end end end end.

Definition process_line (ctx : config_ctx) (line : list byte) : outcome (bool * config_ctx) :=
  if strcasecmp_eq line (text "[Interface]") then
    Returns (true, ctx <| is_peer_section := false |> <| is_device_section := true |>)
  else if strcasecmp_eq line (text "[Peer]") then
    let new_peer := set_peer_flag WGPEER_REPLACE_ALLOWEDIPS zero_peer in
    Returns (true, ConfigCtx
      ((device ctx) <| peers ::= fun l => link_after l (last_peer ctx) new_peer |>)
      (Some (linked_at (last_peer ctx))) None true false)
  else if is_device_section ctx then process_device_line ctx line
  else if is_peer_section ctx then process_peer_line ctx line
  else Returns (false, ctx).

(** The part of a line before the comment character. *)
Definition before_comment (input : list byte) : list byte := fst (strsep COMMENT_CHAR input).

Definition clean_line (input : list byte) : list byte :=
  let len := length (before_comment input) in
  if existsb (fun key => strncasecmp_eq input key 2) awg_special_handshake_keys
  then clean_special_handshake_line input len
  else strip_spaces (take len input).

Definition config_read_line (ctx : config_ctx) (input : list byte) : outcome (option config_ctx) :=
  let line := clean_line input in
  if (length line =? 0)%nat then Returns (Some ctx)
  else
    let! res := process_line ctx line in
    let '(ret, ctx) := res in
    Returns (if ret then Some ctx else None).

Definition config_read_init (append : bool) : config_ctx :=
  let dev := if append then zero_device
             else zero_device <| flags ::= fun x => Z.lor x (Z.lor (Z.lor WGDEVICE_REPLACE_PEERS
                    WGDEVICE_HAS_PRIVATE_KEY) WGDEVICE_HAS_FWMARK) |> in
  ConfigCtx dev None None false false.

Definition config_read_finish (ctx : config_ctx) : option wgdevice :=
  if forallb (fun p => has_flag (peer_flags p) WGPEER_HAS_PUBLIC_KEY) (peers (device ctx))
  then Some (device ctx) else None.

(** The lines of a file in order; [None] when a line was refused. *)
Fixpoint config_read_lines (ctx : config_ctx) (lines : list (list byte)) :
    outcome (option config_ctx) :=
  match lines with
  | [] => Returns (Some ctx)
  | l :: ls =>
      let! res := config_read_line ctx l in
      match res with
      | None => Returns None
      | Some ctx => config_read_lines ctx ls
      end
  end.

(** A whole configuration text, read as [setconf_main] reads it. *)
Definition config_read_text (append : bool) (content : list byte) : outcome (option wgdevice) :=
  let! res := config_read_lines (config_read_init append) (map c_str (getlines content)) in
  Returns (match res with Some ctx => config_read_finish ctx | None => None end).

(** ** [awg set] *)

(** What the loop of [config_read_cmd] keeps: the device and the pointers to the
    current peer and to its last allowed IP. *)
Record cmd_state := CmdState {
  cmd_device : wgdevice;
  cmd_peer : option nat;
  cmd_allowedip : option nat;
}.

(** Key files, by path. *)
Context (read_file : list byte -> option (list byte)).

Definition cmd_uint16 (st : cmd_state) (get : wgdevice -> Z) (set : Z -> wgdevice -> wgdevice)
    (flag : Z) (value : list byte) : outcome (option cmd_state) :=
  let! res := parse_uint16 (get (cmd_device st)) value in
  let '(ret, v) := res in
  Returns (if ret then Some (CmdState (set_dev_flag flag (set v (cmd_device st)))
                               (cmd_peer st) (cmd_allowedip st))
           else None).

Definition cmd_string (st : cmd_state) (get : wgdevice -> option (list byte))
    (set : option (list byte) -> wgdevice -> wgdevice) (flag : Z) (value : list byte) :
    outcome (option cmd_state) :=
  let '(ret, v) := parse_awg_string (get (cmd_device st)) value in
  Returns (if ret then Some (CmdState (set_dev_flag flag (set v (cmd_device st)))
                               (cmd_peer st) (cmd_allowedip st))
           else None).

Definition cmd_set_device (st : cmd_state) (ok : bool) (d : wgdevice) : outcome (option cmd_state) :=
  Returns (if ok then Some (CmdState d (cmd_peer st) (cmd_allowedip st)) else None).

Definition cmd_set_peer (st : cmd_state) (i : nat) (ok : bool) (f : wgpeer -> wgpeer) :
    outcome (option cmd_state) :=
  cmd_set_device st ok ((cmd_device st) <| peers ::= alter f i |>).

(** The options of the device, refused once a peer has been named. *)
Definition cmd_device_option (st : cmd_state) (key value : list byte) :
    option (outcome (option cmd_state)) :=
  let d := cmd_device st in
  let key_is k := strcmp_eq key (text k) in
  if key_is "listen-port"%string then Some (
    let '(ret, port, fl) := parse_port (listen_port d) (flags d) value in
    cmd_set_device st ret (d <| listen_port := port |> <| flags := fl |>))
  else if key_is "fwmark"%string then Some (
    let '(ret, mark, fl) := parse_fwmark (fwmark d) (flags d) value in
    cmd_set_device st ret (d <| fwmark := mark |> <| flags := fl |>))
  else if key_is "private-key"%string then Some (
    let '(ret, key) := parse_keyfile (private_key d) (read_file value) in
    cmd_set_device st ret (set_dev_flag WGDEVICE_HAS_PRIVATE_KEY (d <| private_key := key |>)))
  else if key_is "jc"%string then Some (cmd_uint16 st junk_packet_count
    (fun v d => d <| junk_packet_count := v |>) WGDEVICE_HAS_JC value)
  else if key_is "jmin"%string then Some (cmd_uint16 st junk_packet_min_size
    (fun v d => d <| junk_packet_min_size := v |>) WGDEVICE_HAS_JMIN value)
  else if key_is "jmax"%string then Some (cmd_uint16 st junk_packet_max_size
    (fun v d => d <| junk_packet_max_size := v |>) WGDEVICE_HAS_JMAX value)
  else if key_is "s1"%string then Some (cmd_uint16 st init_packet_junk_size
    (fun v d => d <| init_packet_junk_size := v |>) WGDEVICE_HAS_S1 value)
  else if key_is "s2"%string then Some (cmd_uint16 st response_packet_junk_size
    (fun v d => d <| response_packet_junk_size := v |>) WGDEVICE_HAS_S2 value)
  else if key_is "s3"%string then Some (cmd_uint16 st cookie_reply_packet_junk_size
    (fun v d => d <| cookie_reply_packet_junk_size := v |>) WGDEVICE_HAS_S3 value)
  else if key_is "s4"%string then Some (cmd_uint16 st transport_packet_junk_size
    (fun v d => d <| transport_packet_junk_size := v |>) WGDEVICE_HAS_S4 value)
  else if key_is "h1"%string then Some (cmd_string st init_packet_magic_header
    (fun v d => d <| init_packet_magic_header := v |>) WGDEVICE_HAS_H1 value)
  else if key_is "h2"%string then Some (cmd_string st response_packet_magic_header
    (fun v d => d <| response_packet_magic_header := v |>) WGDEVICE_HAS_H2 value)
  else if key_is "h3"%string then Some (cmd_string st underload_packet_magic_header
    (fun v d => d <| underload_packet_magic_header := v |>) WGDEVICE_HAS_H3 value)
  else if key_is "h4"%string then Some (cmd_string st transport_packet_magic_header
    (fun v d => d <| transport_packet_magic_header := v |>) WGDEVICE_HAS_H4 value)
  else if key_is "i1"%string then Some (cmd_string st i1 (fun v d => d <| i1 := v |>) WGDEVICE_HAS_I1 value)
  else if key_is "i2"%string then Some (cmd_string st i2 (fun v d => d <| i2 := v |>) WGDEVICE_HAS_I2 value)
  else if key_is "i3"%string then Some (cmd_string st i3 (fun v d => d <| i3 := v |>) WGDEVICE_HAS_I3 value)
  else if key_is "i4"%string then Some (cmd_string st i4 (fun v d => d <| i4 := v |>) WGDEVICE_HAS_I4 value)
  else if key_is "i5"%string then Some (cmd_string st i5 (fun v d => d <| i5 := v |>) WGDEVICE_HAS_I5 value)
  else None.

(** [peer <key>]: the new peer is linked before its key is parsed. *)
Definition cmd_new_peer (st : cmd_state) (value : list byte) : outcome (option cmd_state) :=
  let d := cmd_device st in
  let '(ret, key) := parse_key zero_key value in
  let new_peer := set_peer_flag WGPEER_HAS_PUBLIC_KEY (zero_peer <| peer_public_key := key |>) in
  Returns (if ret then Some (CmdState (d <| peers ::= fun l => link_after l (cmd_peer st) new_peer |>)
                               (Some (linked_at (cmd_peer st))) None)
           else None).

(** The options of the current peer that take a value. *)
Definition cmd_peer_option (st : cmd_state) (i : nat) (key value : list byte) :
    option (outcome (option cmd_state)) :=
  let p := nth i (peers (cmd_device st)) zero_peer in
  let key_is k := strcmp_eq key (text k) in
  if key_is "endpoint"%string then Some (
    let! res := parse_endpoint fuel (endpoint p) value in
    let '(ret, ep) := res in
    cmd_set_peer st i ret (fun p => p <| endpoint := ep |>))
  else if key_is "allowed-ips"%string then Some (
    let '(ret, p', last) := parse_allowedips p (cmd_allowedip st) (strip_spaces value) in
    let! res := cmd_set_peer st i ret (fun _ => p') in
    Returns (match res with
             | Some st => Some (CmdState (cmd_device st) (cmd_peer st) last)
             | None => None
             end))
  else if key_is "persistent-keepalive"%string then Some (
    let '(ret, interval, fl) := parse_persistent_keepalive (persistent_keepalive_interval p)
                                  (peer_flags p) value in
    cmd_set_peer st i ret (fun p =>
      p <| persistent_keepalive_interval := interval |> <| peer_flags := fl |>))
  else if key_is "preshared-key"%string then Some (
    let '(ret, key) := parse_keyfile (preshared_key p) (read_file value) in
    cmd_set_peer st i ret (fun p =>
      set_peer_flag WGPEER_HAS_PRESHARED_KEY (p <| preshared_key := key |>)))
  else if key_is "advanced-security"%string then Some (
    let! res := parse_bool (awg p) value in
    let '(ret, v) := res in
    cmd_set_peer st i ret (fun p => set_peer_flag WGPEER_HAS_AWG (p <| awg := v |>)))
  else None.

(** One turn of the loop: the new state with the number of arguments consumed beyond
    the first, or [None] for [goto error]. *)
Definition cmd_step (st : cmd_state) (key : list byte) (rest : list (list byte)) :
    outcome (option (cmd_state * bool)) :=
  let with_value r :=
    let! res := r in Returns (match res with Some st => Some (st, true) | None => None end) in
  let device_option :=
    match rest, cmd_peer st with
    | value :: _, None => cmd_device_option st key value
    | _, _ => None
    end in
  match device_option with
  | Some r => with_value r
  | None =>
      match rest, strcmp_eq key (text "peer") with
      | value :: _, true => with_value (cmd_new_peer st value)
      | _, _ =>
          match cmd_peer st with
          | None => Returns None
          | Some i =>
              if strcmp_eq key (text "remove") then
                let! res := cmd_set_peer st i true (set_peer_flag WGPEER_REMOVE_ME) in
                Returns (match res with Some st => Some (st, false) | None => None end)
              else
                match rest with
                | value :: _ =>
                    match cmd_peer_option st i key value with
                    | Some r => with_value r
                    | None => Returns None
                    end
                | [] => Returns None
                end
          end
      end
  end.

Fixpoint cmd_loop (st : cmd_state) (argv : list (list byte)) : outcome (option wgdevice) :=
  match argv with
  | [] => Returns (Some (cmd_device st))
  | key :: rest =>
      let! res := cmd_step st key rest in
      match res with
      | None => Returns None
      | Some (st, with_value) =>
          match with_value, rest with
          | true, _ :: rest' => cmd_loop st rest'
          | _, _ => cmd_loop st rest
          end
      end
  end.

Definition config_read_cmd (argv : list (list byte)) : outcome (option wgdevice) :=
  cmd_loop (CmdState zero_device None None) argv.

End Config.
