(* ===== verification/WellFormed.v ===== *)
(** * Well-formed devices, and what each parser keeps of them

    [wf_device] is the representation invariant of a [struct wgdevice]: the sizes of
    its keys, addresses and strings and the widths of its integers.  [ctx_ok] adds what
    [struct config_ctx] promises: its pointers designate the last peer and the last
    allowed IP.  Every line of a configuration keeps [ctx_ok], and every argument of
    [awg set] keeps the corresponding invariant of its loop. *)

From S2P Require Import Prelude Ctype CString Encoding Containers NetLib NetLibNumeric ConfigValues Config.
#[local] Open Scope Z_scope.
#[local] Open Scope awg_scope.

Definition is_u16 (z : Z) : Prop := 0 <= z < 2 ^ 16.
Definition is_u32 (z : Z) : Prop := 0 <= z < 2 ^ 32.

Record wf_allowedip (a : wgallowedip) : Prop := WfAllowedip {
  wf_ip : length (ip a) = 16%nat;
  wf_cidr : family a = AF_INET /\ 0 <= cidr a <= 32 \/ family a = AF_INET6 /\ 0 <= cidr a <= 128;
}.

Record wf_peer (p : wgpeer) : Prop := WfPeer {
  wf_peer_flags : is_u32 (peer_flags p);
  wf_peer_public_key : length (peer_public_key p) = WG_KEY_LEN;
  wf_preshared_key : length (preshared_key p) = WG_KEY_LEN;
  wf_endpoint : length (endpoint p) = sizeof_sockaddr_in6;
  wf_keepalive : is_u16 (persistent_keepalive_interval p);
  wf_allowedips : Forall wf_allowedip (allowedips p);
}.

(** A string field is NULL or a nonempty string below the size limit. *)
Definition wf_string (s : option (list byte)) : Prop :=
  match s with
  | Some t => t <> [] /\ Z.of_nat (length t) < MAX_AWG_STRING_LEN
  | None => True
  end.

Record wf_device (d : wgdevice) : Prop := WfDevice {
  wf_flags : is_u32 (flags d);
  wf_public_key : length (public_key d) = WG_KEY_LEN;
  wf_private_key : length (private_key d) = WG_KEY_LEN;
  wf_fwmark : is_u32 (fwmark d);
  wf_listen_port : is_u16 (listen_port d);
  wf_peers : Forall wf_peer (peers d);
  wf_jc : is_u16 (junk_packet_count d);
  wf_jmin : is_u16 (junk_packet_min_size d);
  wf_jmax : is_u16 (junk_packet_max_size d);
  wf_s1 : is_u16 (init_packet_junk_size d);
  wf_s2 : is_u16 (response_packet_junk_size d);
  wf_s3 : is_u16 (cookie_reply_packet_junk_size d);
  wf_s4 : is_u16 (transport_packet_junk_size d);
  wf_h1 : wf_string (init_packet_magic_header d);
  wf_h2 : wf_string (response_packet_magic_header d);
  wf_h3 : wf_string (underload_packet_magic_header d);
  wf_h4 : wf_string (transport_packet_magic_header d);
  wf_i1 : wf_string (i1 d);
  wf_i2 : wf_string (i2 d);
  wf_i3 : wf_string (i3 d);
  wf_i4 : wf_string (i4 d);
  wf_i5 : wf_string (i5 d);
}.

(** The last allowed IP of the last peer. *)
Definition last_allowedip_of (ps : list wgpeer) : option nat :=
  match last ps with
  | Some p => last_index (allowedips p)
  | None => None
  end.

Record ctx_ok (ctx : config_ctx) : Prop := CtxOk {
  ok_device : wf_device (device ctx);
  ok_last_peer : last_peer ctx = last_index (peers (device ctx));
  ok_last_allowedip : last_allowedip ctx = last_allowedip_of (peers (device ctx));
  ok_peer_section : is_peer_section ctx = true -> peers (device ctx) <> [];
}.

(** The same for the loop of [config_read_cmd]. *)
Record cmd_ok (st : cmd_state) : Prop := CmdOk {
  cok_device : wf_device (cmd_device st);
  cok_peer : cmd_peer st = last_index (peers (cmd_device st));
  cok_allowedip : cmd_allowedip st = last_allowedip_of (peers (cmd_device st));
}.

(** ** Values *)

Lemma is_u32_lor (a b : Z) : is_u32 a -> is_u32 b -> is_u32 (Z.lor a b).
Proof.
  unfold is_u32. intros Ha Hb. split; [apply Z.lor_nonneg; lia |].
  apply (lor_small_range a b 32); lia.
Qed.

Lemma memcpy_front_length (dst src : list byte) :
  (length src <= length dst)%nat -> length (memcpy_front dst src) = length dst.
Proof. intros. unfold memcpy_front. rewrite length_app, length_drop. lia. Qed.

Section Parsers.
Context `{P : Platform} `{!PlatformOk P} `{N : NetLib} `{!NetLibLaws N}.

Lemma is_inet_addr_cases (af : Z) (sa : list byte) : is_inet_addr af sa = true ->
  (length sa <= sizeof_sockaddr_in6)%nat.
Proof.
  unfold is_inet_addr. intros [[_ E%Nat.eqb_eq]%andb_true_iff | [_ E%Nat.eqb_eq]%andb_true_iff]%orb_true_iff;
    rewrite E; unfold sizeof_sockaddr_in, sizeof_sockaddr_in6; lia.
Qed.

Lemma parse_port_wf (port fl : Z) (v : list byte) ret port' fl' :
  parse_port port fl v = (ret, port', fl') -> is_u16 port -> is_u32 fl -> is_u16 port' /\ is_u32 fl'.
Proof.
  unfold parse_port. intros E Hp Hf.
  repeat match type of E with context [match ?x with _ => _ end] => destruct x end; simplify_eq; auto.
  split; [| apply is_u32_lor; [done | by cbv]].
  unfold sockaddr_port. pose proof (b2z_range (byte_at ai_addr 2)); pose proof (b2z_range (byte_at ai_addr 3)).
  unfold is_u16. lia.
Qed.

Lemma parse_fwmark_wf (m fl : Z) (v : list byte) ret m' fl' :
  parse_fwmark m fl v = (ret, m', fl') -> is_u32 m -> is_u32 fl -> is_u32 m' /\ is_u32 fl'.
Proof.
  unfold parse_fwmark. intros E Hp Hf.
  assert (is_u32 (Z.lor fl WGDEVICE_HAS_FWMARK)) by (apply is_u32_lor; [done | by cbv]).
  destruct (strcasecmp_eq _ _); [simplify_eq; split; [by cbv | done] |].
  destruct (negb (starts_with_digit v)); [by simplify_eq |].
  match type of E with context [strtoul ?b v] => set (base := b) in * end.
  assert (0 <= base) by (unfold base; destruct (_ && _); lia).
  destruct ulong_pow.
  pose proof (strtou_range ulong_bits base v) as Hr. unfold strtoul in E.
  destruct (strtou ulong_bits base v) as [r rest]. cbn [fst] in Hr.
  destruct (_ || _) eqn:B; [by simplify_eq |]. boolz. simplify_eq. split; [| done].
  unfold is_u32. unfold UINT32_MAX in *. lia.
Qed.

Lemma parse_keepalive_wf (i fl : Z) (v : list byte) ret i' fl' :
  parse_persistent_keepalive i fl v = (ret, i', fl') ->
  is_u16 i -> is_u32 fl -> is_u16 i' /\ is_u32 fl'.
Proof.
  unfold parse_persistent_keepalive. intros E Hp Hf.
  assert (is_u32 (Z.lor fl WGPEER_HAS_PERSISTENT_KEEPALIVE_INTERVAL)) by (apply is_u32_lor; [done | by cbv]).
  destruct (strcasecmp_eq _ _); [simplify_eq; split; [by cbv | done] |].
  destruct (negb (starts_with_digit v)); [by simplify_eq |].
  destruct (strtoul 10 v) as [r rest].
  destruct (_ || _); [by simplify_eq |]. simplify_eq. split; [| done]. apply uw_range. lia.
Qed.

Lemma parse_key_wf (k v : list byte) ret k' : parse_key k v = (ret, k') -> length k' = WG_KEY_LEN.
Proof.
  unfold parse_key. destruct (key_from_base64 k v) as [key ok] eqn:E.
  destruct ok; intros [= <- <-]; [| done].
  by apply key_from_base64_length in E.
Qed.

Lemma parse_uint16_wf (old : Z) (v : list byte) ret z :
  parse_uint16 old v = Returns (ret, z) -> is_u16 old -> is_u16 z.
Proof.
  unfold parse_uint16. intros E Ho. destruct (_ =? _)%nat; [by simplify_eq |].
  destruct (strtoul 10 v) as [r rest]. destruct (_ || _); [done |]. simplify_eq.
  apply uw_range. lia.
Qed.

Lemma parse_awg_string_wf (old : option (list byte)) (v : list byte) ret s :
  parse_awg_string old v = (ret, s) -> wf_string old -> wf_string s.
Proof.
  unfold parse_awg_string. intros E Ho. destruct (Nat.eqb_spec (length v) 0); [by simplify_eq |].
  destruct (Z.leb_spec MAX_AWG_STRING_LEN (Z.of_nat (length v))); simplify_eq; [done |].
  cbn. split; [by destruct v | done].
Qed.

Lemma parse_endpoint_wf (fuel : nat) (ep v : list byte) ret ep' :
  parse_endpoint fuel ep v = Returns (ret, ep') ->
  length ep = sizeof_sockaddr_in6 -> length ep' = sizeof_sockaddr_in6.
Proof.
  unfold parse_endpoint. intros E Hl.
  destruct parse_dns_retries; cbn [obind] in E; try done.
  destruct (_ =? _)%nat; [by simplify_eq |].
  destruct (split_endpoint v) as [[h s] |]; [| by simplify_eq].
  destruct (resolve_loop _ _ _ _ _ _ _) as [[ans ?] | |]; cbn [obind fst] in E; try done.
  destruct ans as [c | af sa]; [by simplify_eq |].
  destruct (is_inet_addr af sa) eqn:Ei; simplify_eq; [| done].
  apply is_inet_addr_cases in Ei. rewrite memcpy_front_length; lia.
Qed.

Lemma parse_ip_wf (t : list byte) (a : wgallowedip) :
  parse_ip zero_allowedip t = (true, a) ->
  length (ip a) = 16%nat /\ (family a = AF_INET \/ family a = AF_INET6).
Proof.
  unfold parse_ip. intros Ha.
  destruct (inet_pton _ t) as [addr |] eqn:E in Ha; [| done]. injection Ha as <-.
  cbn [modify ip family]. split; [| destruct (has_byte _ t); auto].
  apply (memcpy_front_length (repeat x00 16)).
  destruct (has_byte _ t); [apply pton_length6 in E | apply pton_length4 in E]; rewrite E; cbn; lia.
Qed.

Lemma parse_allowedip_wf (e : list byte) (a : wgallowedip) :
  parse_allowedip e = Some a -> wf_allowedip a.
Proof.
  unfold parse_allowedip. destruct (strsep _ e) as [t mask].
  destruct (parse_ip zero_allowedip t) as [ok b] eqn:E. destruct ok; [| done].
  apply parse_ip_wf in E as [Hi Hf]. cbn [negb]. intros Ha.
  destruct mask as [m |].
  - destruct (negb (starts_with_digit m)); [done |].
    destruct ulong_pow. pose proof (strtou_range ulong_bits 10 m) as Hr. unfold strtoul in Ha.
    destruct (strtou ulong_bits 10 m) as [r rest]. cbn [fst] in Hr.
    destruct (_ || _) eqn:B in Ha; [done |]. injection Ha as <-.
    constructor; cbn [modify ip family cidr]; [done |].
    apply orb_false_iff in B as [[_ B4]%orb_false_iff B6].
    destruct Hf as [Hf | Hf]; rewrite Hf in *; [left | right]; (split; [done |]);
      [rewrite andb_true_r in B4 | rewrite andb_true_r in B6]; boolz;
      unfold u8; rewrite uw_small; lia.
  - destruct (Z.eqb_spec (family b) AF_INET); [| destruct (Z.eqb_spec (family b) AF_INET6)];
      simplify_eq; constructor; cbn [modify ip family cidr]; try done; [left | right]; (split; [done | lia]).
Qed.

(** The token loop appends the cells of its tokens. *)
Lemma allowedips_loop_spec (entries : list (list byte)) (l : list wgallowedip) ok l' last' :
  allowedips_loop l (last_index l) entries = (ok, l', last') ->
  exists news, l' = l ++ news /\ last' = last_index l'
  /\ Forall wf_allowedip news
  /\ (ok = true -> Forall2 (fun e a => parse_allowedip e = Some a) entries news).
Proof.
  revert l. induction entries as [|e entries IH]; intros l E; cbn [allowedips_loop] in E.
  - simplify_eq. exists []. rewrite app_nil_r. by repeat split.
  - destruct (parse_allowedip e) as [a |] eqn:Ea.
    + rewrite link_after_last, (linked_at_last l a) in E.
      apply IH in E as (news & -> & -> & Hw & Hf). exists (a :: news).
      rewrite <- app_assoc. repeat split; [constructor; [by apply parse_allowedip_wf in Ea | done] |].
      intros Hok. constructor; auto.
    + simplify_eq. exists []. rewrite app_nil_r. by repeat split.
Qed.

(** [parse_allowedips], called with the pointer to the last cell, appends to the peer's
    list one cell per comma-separated token, in order, each with a prefix length its
    family allows; it changes nothing else of the peer but the flag that says the list
    replaces the old one, and on success the pointer designates the new last cell. *)
Theorem parse_allowedips_appends (p p' : wgpeer) (v : list byte) ok last' :
  parse_allowedips p (last_index (allowedips p)) v = (ok, p', last') ->
  exists news, allowedips p' = allowedips p ++ news
  /\ Forall wf_allowedip news
  /\ p' = (set_peer_flag WGPEER_REPLACE_ALLOWEDIPS p) <| allowedips := allowedips p' |>
  /\ (ok = true -> last' = last_index (allowedips p')
       /\ Forall2 (fun e a => parse_allowedip e = Some a)
            (if (length v =? 0)%nat then [] else split_on ","%byte v) news).
Proof.
  unfold parse_allowedips. intros E. destruct (length v =? 0)%nat.
  - simplify_eq. exists []. rewrite app_nil_r. destruct p; by repeat split.
  - change (allowedips (set_peer_flag WGPEER_REPLACE_ALLOWEDIPS p)) with (allowedips p) in E.
    destruct (allowedips_loop _ _ _) as [[ok0 l] last0] eqn:El. simplify_eq.
    destruct (allowedips_loop_spec _ _ _ _ _ El) as (news & -> & -> & Hw & Hf).
    exists news. split; [done |]. split; [done |]. split; [done |].
    intros ->. by split; [| apply Hf].
Qed.

Lemma parse_allowedips_wf (p p' : wgpeer) (v : list byte) ok last' :
  parse_allowedips p (last_index (allowedips p)) v = (ok, p', last') -> wf_peer p ->
  wf_peer p' /\ (ok = true -> last' = last_index (allowedips p')).
Proof.
  unfold parse_allowedips. intros E [Hf Hk Hs He Hi Ha].
  assert (is_u32 (Z.lor (peer_flags p) WGPEER_REPLACE_ALLOWEDIPS))
    by (apply is_u32_lor; [done | by cbv]).
  destruct (length v =? 0)%nat; [by simplify_eq |].
  destruct (allowedips_loop _ _ _) as [[ok0 l] last0] eqn:El. simplify_eq.
  apply allowedips_loop_spec in El as (news & -> & -> & Hw & _). split; [| by intros ->].
  constructor; try done. apply Forall_app. by split.
Qed.

Lemma parse_keyfile_wf (k : list byte) (file : option (list byte)) ret k' :
  parse_keyfile k file = (ret, k') -> length k = WG_KEY_LEN -> length k' = WG_KEY_LEN.
Proof.
  unfold parse_keyfile. intros E Hk. destruct file as [content |]; [| by simplify_eq].
  destruct (_ <? _)%nat; [destruct (_ =? _)%nat; by simplify_eq |].
  destruct (forallb _ _); [by apply parse_key_wf in E | by simplify_eq].
Qed.
End Parsers.

(** ** Setters *)

Lemma set_dev_flag_wf (f : Z) (d : wgdevice) : is_u32 f -> wf_device d -> wf_device (set_dev_flag f d).
Proof. intros Hf []. constructor; cbn; try done. by apply is_u32_lor. Qed.

Lemma set_peer_flag_wf (f : Z) (p : wgpeer) : is_u32 f -> wf_peer p -> wf_peer (set_peer_flag f p).
Proof. intros Hf []. constructor; cbn; try done. by apply is_u32_lor. Qed.

Lemma zero_peer_wf : wf_peer zero_peer.
Proof. by constructor. Qed.

Lemma zero_device_wf : wf_device zero_device.
Proof. by constructor. Qed.

#[export] Hint Resolve set_dev_flag_wf set_peer_flag_wf zero_peer_wf zero_device_wf is_u32_lor : awg.

(** Unfolds the invariant of a record whose update has to be shown well-formed. *)
Ltac wf_fields :=
  repeat match goal with H : wf_device _ |- _ => destruct H end;
  constructor; cbn; try assumption.

Ltac wf_peer_fields :=
  repeat match goal with H : wf_peer _ |- _ => destruct H end;
  constructor; cbn; try assumption; try (apply is_u32_lor; [assumption | by cbv]).

(** An update that stores a well-formed value keeps the device well-formed and leaves
    its peers alone. *)
Definition field_ok {T} (ok : T -> Prop) (set : T -> wgdevice -> wgdevice) : Prop :=
  forall v d, ok v -> wf_device d -> wf_device (set v d) /\ peers (set v d) = peers d.

Lemma alter_last {A} (l : list A) (f : A -> A) (d : A) i : last_index l = Some i ->
  exists pre x, l = pre ++ [x] /\ alter f i l = pre ++ [f x] /\ nth i l d = x.
Proof.
  intros E. destruct l as [|x pre _] using rev_ind; [done |].
  rewrite <- (linked_at_last pre x), linked_at_length in E. injection E as <-.
  exists pre, x. split; [done |]. rewrite alter_app_r_alt, Nat.sub_diag by done.
  split; [done |]. by rewrite app_nth2, Nat.sub_diag by lia.
Qed.

(** ** The lines of a file *)

Section Lines.
Context `{P : Platform} `{!PlatformOk P} `{N : NetLib} `{!NetLibLaws N} (fuel : nat).

(** A change of the device that keeps its peers keeps the pointers right. *)
Lemma ctx_ok_device (ctx : config_ctx) (d : wgdevice) :
  ctx_ok ctx -> wf_device d -> peers d = peers (device ctx) ->
  ctx_ok (ConfigCtx d (last_peer ctx) (last_allowedip ctx) (is_peer_section ctx)
            (is_device_section ctx)).
Proof. intros [Hd Hp Ha Hs] Hf Hpe. constructor; cbn; by rewrite ?Hpe. Qed.

Lemma dev_uint16_ok (ctx : config_ctx) get set (flag : Z) (v : list byte) ret ctx' :
  field_ok is_u16 set -> is_u16 (get (device ctx)) -> is_u32 flag ->
  dev_uint16 ctx get set flag v = Returns (ret, ctx') -> ctx_ok ctx -> ctx_ok ctx'.
Proof.
  unfold dev_uint16. intros Hset Hg Hf E Hok.
  destruct (parse_uint16 _ v) as [[r z] | |] eqn:Ep; cbn [obind] in E; try done. simplify_eq.
  apply parse_uint16_wf in Ep; [| done].
  destruct (Hset z (device ctx) Ep (ok_device _ Hok)).
  apply ctx_ok_device; [done | |]; destruct ret; auto with awg.
Qed.

Lemma dev_string_ok (ctx : config_ctx) get set (flag : Z) (v : list byte) ret ctx' :
  field_ok wf_string set -> wf_string (get (device ctx)) -> is_u32 flag ->
  dev_string ctx get set flag v = Returns (ret, ctx') -> ctx_ok ctx -> ctx_ok ctx'.
Proof.
  unfold dev_string. intros Hset Hg Hf E Hok.
  destruct (parse_awg_string _ v) as [r z] eqn:Ep. simplify_eq.
  apply parse_awg_string_wf in Ep; [| done].
  destruct (Hset z (device ctx) Ep (ok_device _ Hok)).
  apply ctx_ok_device; [done | |]; destruct ret; auto with awg.
Qed.

Lemma process_device_line_ok (ctx : config_ctx) (line : list byte) ret ctx' :
  process_device_line ctx line = Returns (ret, ctx') -> ctx_ok ctx -> ctx_ok ctx'.
Proof.
  intros E Hok. pose proof (ok_device _ Hok) as Hw. unfold process_device_line in E.
  destruct (get_value line (text "ListenPort=")) as [v |].
  { destruct (parse_port _ _ v) as [[r port] fl] eqn:Ep. simplify_eq.
    apply parse_port_wf in Ep as [? ?]; [| by destruct Hw ..].
    apply ctx_ok_device; [done | by wf_fields | done]. }
  destruct (get_value line (text "FwMark=")) as [v |].
  { destruct (parse_fwmark _ _ v) as [[r m] fl] eqn:Ep. simplify_eq.
    apply parse_fwmark_wf in Ep as [? ?]; [| by destruct Hw ..].
    apply ctx_ok_device; [done | by wf_fields | done]. }
  destruct (get_value line (text "PrivateKey=")) as [v |].
  { destruct (parse_key _ v) as [r k] eqn:Ep. simplify_eq. apply parse_key_wf in Ep.
    assert (wf_device ((device ctx) <| private_key := k |>)) by by wf_fields.
    apply ctx_ok_device; [done | |]; destruct ret; auto with awg.
    apply set_dev_flag_wf; [by cbv | done]. }
  repeat match type of E with
  | context [get_value line ?k] => destruct (get_value line k) as [v |]
  end; try (by simplify_eq);
    (eapply dev_uint16_ok in E || eapply dev_string_ok in E); try done;
    try (by destruct Hw); intros ???; (split; [by wf_fields | done]).
Qed.

(** Replacing the current peer, and the pointer into its list accordingly. *)
Lemma ctx_ok_peer (ctx : config_ctx) (f : wgpeer -> wgpeer) (last' : option nat) :
  ctx_ok ctx -> is_peer_section ctx = true ->
  (wf_peer (current_peer ctx) -> wf_peer (f (current_peer ctx))
     /\ last' = last_index (allowedips (f (current_peer ctx)))) ->
  ctx_ok ((update_peer ctx f) <| last_allowedip := last' |>).
Proof.
  intros [Hd Hp Ha Hs] Hsec Hf. specialize (Hs Hsec).
  assert (exists i, last_index (peers (device ctx)) = Some i) as [i Hi]
    by (destruct (peers (device ctx)); [done | by eexists]).
  destruct (alter_last _ f zero_peer i Hi) as (pre & x & Hpre & Halt & Hnth).
  unfold current_peer, update_peer in *. rewrite Hp, Hi in *. rewrite Hnth in Hf.
  pose proof (wf_peers _ Hd) as Hwp. rewrite Hpre in Hwp.
  apply Forall_app in Hwp as [Hwpre [Hwx _]%Forall_cons].
  destruct (Hf Hwx) as [Hwf ->].
  constructor; cbn; rewrite ?Halt.
  - wf_fields. rewrite ?Halt. apply Forall_app. split; [done |]. by apply Forall_singleton.
  - by rewrite Hp, <- Hi, Hpre, <- (linked_at_last pre x), <- (linked_at_last pre (f x)).
  - unfold last_allowedip_of. by rewrite last_snoc.
  - intros _. by destruct pre.
Qed.

Lemma ctx_ok_last (ctx : config_ctx) : ctx_ok ctx -> is_peer_section ctx = true ->
  last_allowedip ctx = last_index (allowedips (current_peer ctx)).
Proof.
  intros [Hd Hp Ha Hs] Hsec. specialize (Hs Hsec). unfold current_peer. rewrite Ha, Hp.
  destruct (peers (device ctx)) as [|x pre _] using rev_ind; [done |].
  rewrite <- (linked_at_last pre x), linked_at_length. unfold last_allowedip_of.
  by rewrite last_snoc, app_nth2, Nat.sub_diag by lia.
Qed.

(** An update that keeps the allowed IPs of the peer. *)
Lemma ctx_ok_peer_keep (ctx : config_ctx) (f : wgpeer -> wgpeer) :
  ctx_ok ctx -> is_peer_section ctx = true ->
  (wf_peer (current_peer ctx) -> wf_peer (f (current_peer ctx))
     /\ allowedips (f (current_peer ctx)) = allowedips (current_peer ctx)) ->
  ctx_ok (update_peer ctx f).
Proof.
  intros Hok Hsec Hf.
  pose proof (ctx_ok_peer ctx f (last_index (allowedips (current_peer ctx))) Hok Hsec) as H.
  rewrite <- (ctx_ok_last _ Hok Hsec) in H.
  assert (update_peer ctx f = (update_peer ctx f) <| last_allowedip := last_allowedip ctx |>) as ->.
  { unfold update_peer. by destruct (last_peer ctx), ctx. }
  apply H. intros Hw. destruct (Hf Hw) as [? E]. split; [done |].
  by rewrite E, (ctx_ok_last _ Hok Hsec).
Qed.

Lemma process_peer_line_ok (ctx : config_ctx) (line : list byte) ctx' :
  process_peer_line fuel ctx line = Returns (true, ctx') -> is_peer_section ctx = true ->
  ctx_ok ctx -> ctx_ok ctx'.
Proof.
  intros E Hsec Hok. unfold process_peer_line in E.
  destruct (get_value line (text "Endpoint=")) as [v |].
  { destruct (parse_endpoint _ _ v) as [[r ep] | |] eqn:Ep; cbn [obind] in E; try done.
    simplify_eq. apply ctx_ok_peer_keep; [done | done |]. intros Hw. split; [| done].
    apply parse_endpoint_wf in Ep; [| by destruct Hw]. by wf_peer_fields. }
  destruct (get_value line (text "PublicKey=")) as [v |].
  { destruct (parse_key _ v) as [r k] eqn:Ep. simplify_eq. apply parse_key_wf in Ep.
    apply ctx_ok_peer_keep; [done | done |]. intros Hw. split; [| done]. by wf_peer_fields. }
  destruct (get_value line (text "AllowedIPs=")) as [v |].
  { rewrite (ctx_ok_last _ Hok Hsec) in E.
    destruct (parse_allowedips _ _ v) as [[r p'] last'] eqn:Ep.
    injection E as -> <-. apply (ctx_ok_peer ctx (fun _ => p')); [done | done |].
    intros Hw. apply parse_allowedips_wf in Ep as [? Hl]; [| done]. auto. }
  destruct (get_value line (text "PersistentKeepalive=")) as [v |].
  { destruct (parse_persistent_keepalive _ _ v) as [[r iv] fl] eqn:Ep. simplify_eq.
    apply ctx_ok_peer_keep; [done | done |]. intros Hw. split; [| done].
    apply parse_keepalive_wf in Ep as [? ?]; [| by destruct Hw ..]. by wf_peer_fields. }
  destruct (get_value line (text "PresharedKey=")) as [v |].
  { destruct (parse_key _ v) as [r k] eqn:Ep. simplify_eq. apply parse_key_wf in Ep.
    apply ctx_ok_peer_keep; [done | done |]. intros Hw. split; [| done]. by wf_peer_fields. }
  destruct (get_value line (text "AdvancedSecurity=")) as [v |]; [| done].
  destruct (parse_bool _ v) as [[r b] | |] eqn:Ep; cbn [obind] in E; try done.
  simplify_eq. apply ctx_ok_peer_keep; [done | done |]. intros Hw. split; [| done]. by wf_peer_fields.
Qed.

Lemma process_line_ok (ctx : config_ctx) (line : list byte) ctx' :
  process_line fuel ctx line = Returns (true, ctx') -> ctx_ok ctx -> ctx_ok ctx'.
Proof.
  intros E Hok. unfold process_line in E.
  destruct (strcasecmp_eq _ _).
  { simplify_eq. destruct Hok. by constructor. }
  destruct (strcasecmp_eq _ _).
  { injection E as <-. destruct Hok as [Hd Hp Ha Hs].
    set (new := set_peer_flag WGPEER_REPLACE_ALLOWEDIPS zero_peer).
    assert (wf_peer new) by (by apply set_peer_flag_wf; [by cbv | apply zero_peer_wf]).
    constructor; cbn [device last_peer last_allowedip modify peers]; rewrite Hp, ?link_after_last.
    - wf_fields. apply Forall_app. split; [done |]. by apply Forall_singleton.
    - apply linked_at_last.
    - unfold last_allowedip_of. by rewrite last_snoc.
    - intros _. by destruct (peers (device ctx)). }
  destruct (is_device_section ctx); [by eapply process_device_line_ok |].
  destruct (is_peer_section ctx) eqn:Hsec; [by eapply process_peer_line_ok | done].
Qed.

Lemma config_read_line_ok (ctx : config_ctx) (input : list byte) ctx' :
  config_read_line fuel ctx input = Returns (Some ctx') -> ctx_ok ctx -> ctx_ok ctx'.
Proof.
  unfold config_read_line. intros E Hok. destruct (_ =? _)%nat; [by simplify_eq |].
  destruct (process_line fuel ctx _) as [[r ctx1] | |] eqn:Ep; cbn [obind] in E; try done.
  destruct r; simplify_eq. by eapply process_line_ok.
Qed.

Lemma config_read_lines_ok (lines : list (list byte)) (ctx : config_ctx) ctx' :
  config_read_lines fuel ctx lines = Returns (Some ctx') -> ctx_ok ctx -> ctx_ok ctx'.
Proof.
  revert ctx. induction lines as [|l ls IH]; intros ctx E Hok; cbn [config_read_lines] in E.
  { by simplify_eq. }
  destruct (config_read_line fuel ctx l) as [[ctx1 |] | |] eqn:El; cbn [obind] in E; try done.
  eapply IH; [done |]. by eapply config_read_line_ok.
Qed.

Lemma config_read_init_ok (append : bool) : ctx_ok (config_read_init append).
Proof.
  constructor; [| by destruct append ..]. unfold config_read_init. destruct append; [apply zero_device_wf |].
  by constructor.
Qed.

Lemma config_read_text_ctx (append : bool) (content : list byte) (d : wgdevice) :
  config_read_text fuel append content = Returns (Some d) ->
  exists ctx, ctx_ok ctx /\ config_read_finish ctx = Some d /\ device ctx = d.
Proof.
  unfold config_read_text. intros E.
  destruct (config_read_lines _ _ _) as [[ctx |] | |] eqn:El; cbn [obind] in E; try done.
  injection E as E. exists ctx. apply config_read_lines_ok in El; [| apply config_read_init_ok].
  split; [done |]. split; [done |]. unfold config_read_finish in E.
  destruct (forallb _ _); by simplify_eq.
Qed.

(** C21: A configuration text that is accepted, whatever it contains, yields a device whose
    fields all have the sizes and ranges the other components rely on (32-byte keys,
    16-bit ports and junk sizes, prefix lengths within their family, strings that are
    nonempty and below the limit), each of whose peers has a public key. *)
Theorem config_read_text_wf (append : bool) (content : list byte) (d : wgdevice) :
  config_read_text fuel append content = Returns (Some d) ->
  wf_device d /\ Forall (fun p => has_flag (peer_flags p) WGPEER_HAS_PUBLIC_KEY = true) (peers d).
Proof.
  intros (ctx & Hok & Ef & <-)%config_read_text_ctx. split; [by destruct Hok |].
  unfold config_read_finish in Ef. destruct (forallb _ _) eqn:E; [| done].
  by apply List.Forall_forall, forallb_forall.
Qed.

End Lines.

(** ** Termination of the readers *)

Section Ends.
Context `{P : Platform} `{N : NetLib}.

(** Name resolution has a limit the fuel exceeds. *)
Definition retries_bounded (fuel : nat) : Prop :=
  match parse_dns_retries with
  | Returns r => 0 <= r < Z.of_nat fuel
  | Exits _ => True
  | OutOfFuel => False
  end.

Lemma obind_fuel {A B} (m : outcome A) (k : A -> outcome B) :
  m <> OutOfFuel -> (forall a, m = Returns a -> k a <> OutOfFuel) -> obind m k <> OutOfFuel.
Proof. destruct m; cbn; auto. Qed.

Lemma parse_endpoint_ends (fuel : nat) (ep v : list byte) :
  retries_bounded fuel -> parse_endpoint fuel ep v <> OutOfFuel.
Proof.
  unfold retries_bounded, parse_endpoint. intros Hr.
  destruct parse_dns_retries as [r | |]; [| done ..]. cbn [obind].
  destruct (_ =? _)%nat; [done |]. destruct (split_endpoint v) as [[h s] |]; [| done].
  destruct (resolve_loop_bounded (Z.to_nat r) fuel 0 1000000 h s []) as (a & k & E & _); [lia |].
  rewrite Z2Nat.id in E by lia. rewrite E. cbn [obind fst].
  destruct a; [done |]. by destruct (is_inet_addr _ _).
Qed.

Lemma parse_uint16_ends (old : Z) (v : list byte) : parse_uint16 old v <> OutOfFuel.
Proof.
  unfold parse_uint16. destruct (_ =? _)%nat; [done |]. destruct (strtoul 10 v).
  by destruct (_ || _).
Qed.

Lemma parse_bool_ends (old : bool) (v : list byte) : parse_bool old v <> OutOfFuel.
Proof.
  unfold parse_bool. repeat (case_match; [done |]). destruct (strtoul 10 v). by case_match.
Qed.

Lemma process_line_ends (fuel : nat) (ctx : config_ctx) (line : list byte) :
  retries_bounded fuel -> process_line fuel ctx line <> OutOfFuel.
Proof.
  intros Hr. unfold process_line. do 2 (destruct (strcasecmp_eq _ _); [done |]).
  destruct (is_device_section ctx); [| destruct (is_peer_section ctx); [| done]].
  - unfold process_device_line, dev_uint16, dev_string.
    repeat (case_match; try done);
      (apply obind_fuel; [apply parse_uint16_ends | by intros [? ?] _]).
  - unfold process_peer_line. repeat (case_match; try done);
      (apply obind_fuel; [by apply parse_endpoint_ends || apply parse_bool_ends | by intros [? ?] _]).
Qed.

(** C39: Reading a configuration always ends: when the number of resolution retries is
    limited, as it is unless WG_ENDPOINT_RESOLUTION_RETRIES is infinity, the reader
    never runs out of a fuel above that limit, so it returns or exits. *)
Theorem config_read_text_terminates (fuel : nat) (append : bool) (content : list byte) :
  retries_bounded fuel -> config_read_text fuel append content <> OutOfFuel.
Proof.
  intros Hr. unfold config_read_text. apply obind_fuel; [| done].
  generalize (config_read_init append) (map c_str (getlines content)).
  intros ctx lines. revert ctx. induction lines as [|l ls IH]; intros ctx; [done |].
  cbn [config_read_lines]. apply obind_fuel; [| by intros [ctx' |] _].
  unfold config_read_line. destruct (_ =? _)%nat; [done |].
  apply obind_fuel; [by apply process_line_ends | by intros [? ?] _].
Qed.
End Ends.

(** ** The arguments of [awg set] *)

Section Arguments.
Context `{P : Platform} `{!PlatformOk P} `{N : NetLib} `{!NetLibLaws N} (fuel : nat).
Context (read_file : list byte -> option (list byte)).

Lemma cmd_set_device_ok (st : cmd_state) (ok : bool) (d : wgdevice) st' :
  cmd_set_device st ok d = Returns (Some st') -> cmd_ok st ->
  wf_device d -> peers d = peers (cmd_device st) -> cmd_ok st'.
Proof.
  unfold cmd_set_device. intros E [Hd Hp Ha] Hw Hpe. destruct ok; simplify_eq.
  constructor; cbn; by rewrite ?Hpe.
Qed.

Lemma cmd_uint16_ok (st : cmd_state) get set (flag : Z) (v : list byte) st' :
  field_ok is_u16 set -> is_u16 (get (cmd_device st)) -> is_u32 flag ->
  cmd_uint16 st get set flag v = Returns (Some st') -> cmd_ok st -> cmd_ok st'.
Proof.
  unfold cmd_uint16. intros Hset Hg Hf E Hok.
  destruct (parse_uint16 _ v) as [[r z] | |] eqn:Ep; cbn [obind] in E; try done.
  apply parse_uint16_wf in Ep; [| done].
  destruct (Hset z (cmd_device st) Ep (cok_device _ Hok)).
  eapply (cmd_set_device_ok st r); [exact E | done | by apply set_dev_flag_wf | done].
Qed.

Lemma cmd_string_ok (st : cmd_state) get set (flag : Z) (v : list byte) st' :
  field_ok wf_string set -> wf_string (get (cmd_device st)) -> is_u32 flag ->
  cmd_string st get set flag v = Returns (Some st') -> cmd_ok st -> cmd_ok st'.
Proof.
  unfold cmd_string. intros Hset Hg Hf E Hok.
  destruct (parse_awg_string _ v) as [r z] eqn:Ep.
  apply parse_awg_string_wf in Ep; [| done].
  destruct (Hset z (cmd_device st) Ep (cok_device _ Hok)).
  eapply (cmd_set_device_ok st r); [exact E | done | by apply set_dev_flag_wf | done].
Qed.

Lemma cmd_device_option_ok (st : cmd_state) (key v : list byte) st' :
  cmd_device_option read_file st key v = Some (Returns (Some st')) -> cmd_ok st -> cmd_ok st'.
Proof.
  intros E Hok. pose proof (cok_device _ Hok) as Hw. unfold cmd_device_option in E.
  destruct (strcmp_eq key (text "listen-port")).
  { injection E as E. destruct (parse_port _ _ v) as [[r port] fl] eqn:Ep.
    apply parse_port_wf in Ep as [? ?]; [| by destruct Hw ..].
    eapply cmd_set_device_ok; [exact E | done | by wf_fields | done]. }
  destruct (strcmp_eq key (text "fwmark")).
  { injection E as E. destruct (parse_fwmark _ _ v) as [[r m] fl] eqn:Ep.
    apply parse_fwmark_wf in Ep as [? ?]; [| by destruct Hw ..].
    eapply cmd_set_device_ok; [exact E | done | by wf_fields | done]. }
  destruct (strcmp_eq key (text "private-key")).
  { injection E as E. destruct (parse_keyfile _ _) as [r k] eqn:Ep.
    apply parse_keyfile_wf in Ep; [| by destruct Hw].
    eapply cmd_set_device_ok; [exact E | done | | done].
    apply set_dev_flag_wf; [by cbv | by wf_fields]. }
  repeat match type of E with
  | context [strcmp_eq key ?k] => destruct (strcmp_eq key k)
  end; try done; injection E as E;
    (eapply cmd_uint16_ok in E || eapply cmd_string_ok in E); try done;
    try (by destruct Hw); intros ???; (split; [by wf_fields | done]).
Qed.

(** Replacing the current peer, and the pointer into its list accordingly. *)
Lemma cmd_ok_peer (st : cmd_state) (i : nat) (f : wgpeer -> wgpeer) (last' : option nat) :
  cmd_ok st -> cmd_peer st = Some i ->
  let p := nth i (peers (cmd_device st)) zero_peer in
  (wf_peer p -> wf_peer (f p) /\ last' = last_index (allowedips (f p))) ->
  cmd_ok (CmdState ((cmd_device st) <| peers ::= alter f i |>) (cmd_peer st) last').
Proof.
  intros [Hd Hp Ha] Hi p Hf. rewrite Hp in *.
  destruct (alter_last _ f zero_peer i Hi) as (pre & x & Hpre & Halt & Hnth).
  subst p. rewrite Hnth in Hf. pose proof (wf_peers _ Hd) as Hwp. rewrite Hpre in Hwp.
  apply Forall_app in Hwp as [Hwpre [Hwx _]%Forall_cons].
  destruct (Hf Hwx) as [Hwf ->]. constructor; cbn; rewrite ?Halt.
  - wf_fields. rewrite ?Halt. apply Forall_app. split; [done |]. by apply Forall_singleton.
  - by rewrite Hpre, <- (linked_at_last pre x), <- (linked_at_last pre (f x)).
  - unfold last_allowedip_of. by rewrite last_snoc.
Qed.

Lemma cmd_ok_last (st : cmd_state) (i : nat) : cmd_ok st -> cmd_peer st = Some i ->
  cmd_allowedip st = last_index (allowedips (nth i (peers (cmd_device st)) zero_peer)).
Proof.
  intros [Hd Hp Ha] Hi. rewrite Hp in Hi. rewrite Ha.
  destruct (alter_last _ id zero_peer i Hi) as (pre & x & Hpre & _ & ->).
  unfold last_allowedip_of. by rewrite Hpre, last_snoc.
Qed.

Lemma cmd_set_peer_ok (st : cmd_state) (i : nat) (ok : bool) (f : wgpeer -> wgpeer) st' :
  cmd_set_peer st i ok f = Returns (Some st') -> cmd_ok st -> cmd_peer st = Some i ->
  let p := nth i (peers (cmd_device st)) zero_peer in
  (wf_peer p -> wf_peer (f p) /\ allowedips (f p) = allowedips p) -> cmd_ok st'.
Proof.
  cbv zeta. unfold cmd_set_peer, cmd_set_device. intros E Hok Hi Hf. destruct ok; simplify_eq.
  apply (cmd_ok_peer st i f); [done | done |]. intros Hw. destruct (Hf Hw) as [? ->].
  split; [done |]. by apply cmd_ok_last.
Qed.

Lemma cmd_peer_option_ok (st : cmd_state) (i : nat) (key v : list byte) st' :
  cmd_peer_option fuel read_file st i key v = Some (Returns (Some st')) ->
  cmd_peer st = Some i -> cmd_ok st -> cmd_ok st'.
Proof.
  intros E Hi Hok. unfold cmd_peer_option in E.
  destruct (strcmp_eq key (text "endpoint")).
  { injection E as E. destruct (parse_endpoint _ _ v) as [[r ep] | |] eqn:Ep; cbn [obind] in E; try done.
    eapply cmd_set_peer_ok; [exact E | done | done |]. intros Hw.
    apply parse_endpoint_wf in Ep; [| by destruct Hw]. split; [by wf_peer_fields | done]. }
  destruct (strcmp_eq key (text "allowed-ips")).
  { injection E as E. rewrite (cmd_ok_last st i Hok Hi) in E.
    destruct (parse_allowedips _ _ _) as [[r p'] last'] eqn:Ep.
    unfold cmd_set_peer, cmd_set_device in E.
    destruct r; [| done]. injection E as <-.
    apply (cmd_ok_peer st i (fun _ => p')); [done | done |].
    intros Hw. apply parse_allowedips_wf in Ep as [? Hl]; [| done]. auto. }
  destruct (strcmp_eq key (text "persistent-keepalive")).
  { injection E as E. destruct (parse_persistent_keepalive _ _ v) as [[r iv] fl] eqn:Ep.
    eapply cmd_set_peer_ok; [exact E | done | done |]. intros Hw.
    apply parse_keepalive_wf in Ep as [? ?]; [| by destruct Hw ..]. split; [by wf_peer_fields | done]. }
  destruct (strcmp_eq key (text "preshared-key")).
  { injection E as E. destruct (parse_keyfile _ _) as [r k] eqn:Ep.
    eapply cmd_set_peer_ok; [exact E | done | done |]. intros Hw.
    apply parse_keyfile_wf in Ep; [| by destruct Hw]. split; [by wf_peer_fields | done]. }
  destruct (strcmp_eq key (text "advanced-security")); [| done].
  injection E as E. destruct (parse_bool _ v) as [[r b] | |]; cbn [obind] in E; try done.
  eapply cmd_set_peer_ok; [exact E | done | done |]. intros Hw. split; [by wf_peer_fields | done].
Qed.

Lemma cmd_new_peer_ok (st : cmd_state) (v : list byte) st' :
  cmd_new_peer st v = Returns (Some st') -> cmd_ok st -> cmd_ok st'.
Proof.
  unfold cmd_new_peer. intros E [Hd Hp Ha]. destruct (parse_key zero_key v) as [r k] eqn:Ep.
  apply parse_key_wf in Ep. destruct r; [| done]. injection E as <-.
  set (new := set_peer_flag _ _).
  assert (wf_peer new) by by constructor.
  constructor; cbn [cmd_device cmd_peer cmd_allowedip modify peers]; rewrite Hp, ?link_after_last.
  - wf_fields. apply Forall_app. split; [done |]. by apply Forall_singleton.
  - apply linked_at_last.
  - unfold last_allowedip_of. by rewrite last_snoc.
Qed.

Lemma cmd_step_ok (st : cmd_state) (key : list byte) (rest : list (list byte)) st' b :
  cmd_step fuel read_file st key rest = Returns (Some (st', b)) -> cmd_ok st -> cmd_ok st'.
Proof.
  unfold cmd_step. intros E Hok.
  assert (forall r (b' : bool), (let! res := r in
            Returns (match res with Some st => Some (st, b') | None => None end))
            = Returns (Some (st', b)) -> r = Returns (Some st')) as Hv.
  { intros r b' Er. destruct r as [[st1 |] | |]; cbn [obind] in Er; by simplify_eq. }
  destruct (match rest with [] => _ | _ :: _ => _ end) as [r |] eqn:Ed.
  { apply Hv in E as ->. destruct rest as [|v rest]; [done |].
    destruct (cmd_peer st); [done |]. by apply cmd_device_option_ok in Ed. }
  clear Ed. assert (forall i, cmd_peer st = Some i ->
    cmd_set_peer st i true (set_peer_flag WGPEER_REMOVE_ME) = Returns (Some st') -> cmd_ok st') as Hrm.
  { intros i Hi Er. eapply cmd_set_peer_ok; [exact Er | done | done |]. intros Hw.
    split; [by wf_peer_fields | done]. }
  destruct rest as [|v rest].
  - destruct (cmd_peer st) as [i |] eqn:Hi; [| done].
    destruct (strcmp_eq key (text "remove")); [| done]. apply Hv in E. by eapply Hrm.
  - destruct (strcmp_eq key (text "peer")); [apply Hv in E; by apply cmd_new_peer_ok in E |].
    destruct (cmd_peer st) as [i |] eqn:Hi; [| done].
    destruct (strcmp_eq key (text "remove")); [apply Hv in E; by eapply Hrm |].
    destruct (cmd_peer_option _ _ _ _ _ _) as [r |] eqn:Eo; [| done].
    apply Hv in E as ->. by eapply cmd_peer_option_ok.
Qed.

Lemma cmd_loop_wf (argv : list (list byte)) (st : cmd_state) (d : wgdevice) :
  cmd_ok st -> cmd_loop fuel read_file st argv = Returns (Some d) -> wf_device d.
Proof.
  remember (length argv) as n eqn:Hn. assert (length argv <= n)%nat as Hle by lia. clear Hn.
  revert argv Hle st. induction n as [|n IH]; intros [|key rest] Hle st Hok E; cbn in Hle; try lia;
    cbn [cmd_loop] in E; [by simplify_eq; destruct Hok ..|].
  destruct (cmd_step _ _ _ _ _) as [[[st' b] |] | |] eqn:Es; cbn [obind] in E; try done.
  apply cmd_step_ok in Es; [| done].
  destruct b, rest as [|v rest]; cbn in Hle; (eapply IH in E; [done | cbn; lia | done]).
Qed.

Lemma cmd_start_ok : cmd_ok (CmdState zero_device None None).
Proof. by constructor; [apply zero_device_wf | |]. Qed.

(** A command line that [config_read_cmd] accepts yields a well-formed device, and its
    two cursors never leave the last peer and the last allowed IP on the way. *)
Theorem config_read_cmd_wf (argv : list (list byte)) (d : wgdevice) :
  config_read_cmd fuel read_file argv = Returns (Some d) -> wf_device d.
Proof. apply cmd_loop_wf, cmd_start_ok. Qed.

End Arguments.

(** ** Witnesses *)

Section Witnesses.
#[local] Existing Instance lp64_x86.
#[local] Existing Instance numeric_net.

Definition sample_peer : wgpeer :=
  zero_peer <| allowedips := [WgAllowedip AF_INET (repeat x00 16) 32] |>.

Definition sample_allowedips : list byte := text "10.0.0.0/8,192.168.1.1".

Lemma parse_allowedips_appends_witness :
  let '(ok, p', last') := parse_allowedips sample_peer (last_index (allowedips sample_peer))
                            sample_allowedips in
  exists news, allowedips p' = allowedips sample_peer ++ news
  /\ Forall wf_allowedip news
  /\ p' = (set_peer_flag WGPEER_REPLACE_ALLOWEDIPS sample_peer) <| allowedips := allowedips p' |>
  /\ (ok = true -> last' = last_index (allowedips p')
       /\ Forall2 (fun e a => parse_allowedip e = Some a)
            (if (length sample_allowedips =? 0)%nat then [] else split_on ","%byte sample_allowedips)
            news).
Proof.
  destruct (parse_allowedips sample_peer (last_index (allowedips sample_peer)) sample_allowedips)
    as [[ok p'] last'] eqn:E.
  apply (parse_allowedips_appends sample_peer p' sample_allowedips ok last'). exact E.
Defined.

Definition sample_config : list byte :=
  text "[Interface]" ++ [x0a] ++ text "ListenPort = 51820" ++ [x0a] ++ text "Jc = 4 # junk" ++ [x0a]
  ++ text "I1 = <b 0x01> <r 10>" ++ [x0a] ++ text "[peer]" ++ [x0a]
  ++ text "PublicKey = AAECAwQFBgcICQoLDA0ODxAREhMUFRYXGBkaGxwdHh8=" ++ [x0a]
  ++ text "AllowedIPs = 10.0.0.0/8, 192.168.1.1" ++ [x0a]
  ++ text "Endpoint = 192.168.1.7:9" ++ [x0a].

(** The device an outcome holds. *)
Definition device_of (r : outcome (option wgdevice)) : wgdevice :=
  match r with Returns (Some d) => d | _ => zero_device end.

Lemma config_read_text_wf_witness :
  let d := device_of (config_read_text 16 false sample_config) in
  wf_device d /\ Forall (fun p => has_flag (peer_flags p) WGPEER_HAS_PUBLIC_KEY = true) (peers d).
Proof.
  apply (config_read_text_wf 16 false sample_config (device_of (config_read_text 16 false sample_config))).
  vm_compute. reflexivity.
Defined.

Lemma config_read_text_terminates_witness : config_read_text 16 false sample_config <> OutOfFuel.
Proof. apply (config_read_text_terminates 16 false sample_config). vm_compute. split; [discriminate | reflexivity]. Defined.

Definition sample_argv : list (list byte) :=
  [text "listen-port"; text "51820"; text "h1"; text "5-9"; text "peer";
   text "AAECAwQFBgcICQoLDA0ODxAREhMUFRYXGBkaGxwdHh8="; text "allowed-ips"; text "10.0.0.0/8, 192.168.1.1";
   text "advanced-security"; text "on"].

Lemma config_read_cmd_wf_witness :
  wf_device (device_of (config_read_cmd 16 (fun _ => None) sample_argv)).
Proof.
  apply (config_read_cmd_wf 16 (fun _ => None) sample_argv
           (device_of (config_read_cmd 16 (fun _ => None) sample_argv))).
  vm_compute. reflexivity.
Defined.
End Witnesses.
