(* ===== verification/ConfRoundtrip.v ===== *)
(** * Printing a configuration and reading it back

    [config_read_text] applied to [showconf_text d] gives [conf_image d], the device
    that holds exactly what was printed; printing that device gives the same text. *)

From S2P Require Import Prelude Ctype CString Encoding Containers NetLib NetLibNumeric.
From S2P Require Import ConfigValues Config WellFormed ShowConf.
#[local] Open Scope Z_scope.
#[local] Open Scope awg_scope.

(** ** What is read back *)

Definition flag_if (c : bool) (f : Z) (x : Z) : Z := if c then Z.lor x f else x.

(** The device [config_read_text] builds from the text of [d]; [append] is true for
    [addconf]. *)
Definition image_flags (append : bool) (d : wgdevice) : Z :=
  let keep f := (has_flag (flags d) f, f) in
  fold_left (fun x '(c, f) => flag_if c f x)
    [(negb (listen_port d =? 0), WGDEVICE_HAS_LISTEN_PORT); (negb (fwmark d =? 0), WGDEVICE_HAS_FWMARK);
     keep WGDEVICE_HAS_PRIVATE_KEY; keep WGDEVICE_HAS_JC; keep WGDEVICE_HAS_JMIN; keep WGDEVICE_HAS_JMAX;
     keep WGDEVICE_HAS_S1; keep WGDEVICE_HAS_S2; keep WGDEVICE_HAS_S3; keep WGDEVICE_HAS_S4;
     keep WGDEVICE_HAS_H1; keep WGDEVICE_HAS_H2; keep WGDEVICE_HAS_H3; keep WGDEVICE_HAS_H4;
     keep WGDEVICE_HAS_I1; keep WGDEVICE_HAS_I2; keep WGDEVICE_HAS_I3; keep WGDEVICE_HAS_I4;
     keep WGDEVICE_HAS_I5]
    (flags (device (config_read_init append))).

Definition image_endpoint (ep : list byte) : list byte :=
  match endpoint_addr ep with
  | Some sa => memcpy_front (repeat x00 sizeof_sockaddr_in6) sa
  | None => repeat x00 sizeof_sockaddr_in6
  end.

Definition image_allowedip (a : wgallowedip) : wgallowedip :=
  WgAllowedip (family a) (if family a =? AF_INET then ip4 a ++ repeat x00 12 else ip6 a) (cidr a).

Definition image_peer (p : wgpeer) : wgpeer :=
  let has := has_flag (peer_flags p) in
  WgPeer
    (flag_if (negb (persistent_keepalive_interval p =? 0)) WGPEER_HAS_PERSISTENT_KEEPALIVE_INTERVAL
    (flag_if (has WGPEER_HAS_AWG) WGPEER_HAS_AWG
    (flag_if (has WGPEER_HAS_PRESHARED_KEY) WGPEER_HAS_PRESHARED_KEY
    (Z.lor WGPEER_REPLACE_ALLOWEDIPS WGPEER_HAS_PUBLIC_KEY))))
    (peer_public_key p)
    (if has WGPEER_HAS_PRESHARED_KEY then preshared_key p else zero_key)
    (image_endpoint (endpoint p)) (Timespec64 0 0) 0 0
    (persistent_keepalive_interval p)
    (if has WGPEER_HAS_AWG then awg p else false)
    (map image_allowedip (allowedips p)).

Definition conf_image (append : bool) (d : wgdevice) : wgdevice :=
  let keep {T} f (x y : T) := if has_flag (flags d) f then x else y in
  WgDevice [] 0 (image_flags append d) zero_key
    (keep WGDEVICE_HAS_PRIVATE_KEY (private_key d) zero_key) (fwmark d) (listen_port d)
    (map image_peer (peers d))
    (keep WGDEVICE_HAS_JC (junk_packet_count d) 0)
    (keep WGDEVICE_HAS_JMIN (junk_packet_min_size d) 0)
    (keep WGDEVICE_HAS_JMAX (junk_packet_max_size d) 0)
    (keep WGDEVICE_HAS_S1 (init_packet_junk_size d) 0)
    (keep WGDEVICE_HAS_S2 (response_packet_junk_size d) 0)
    (keep WGDEVICE_HAS_S3 (cookie_reply_packet_junk_size d) 0)
    (keep WGDEVICE_HAS_S4 (transport_packet_junk_size d) 0)
    (keep WGDEVICE_HAS_H1 (init_packet_magic_header d) None)
    (keep WGDEVICE_HAS_H2 (response_packet_magic_header d) None)
    (keep WGDEVICE_HAS_H3 (underload_packet_magic_header d) None)
    (keep WGDEVICE_HAS_H4 (transport_packet_magic_header d) None)
    (keep WGDEVICE_HAS_I1 (i1 d) None) (keep WGDEVICE_HAS_I2 (i2 d) None)
    (keep WGDEVICE_HAS_I3 (i3 d) None) (keep WGDEVICE_HAS_I4 (i4 d) None)
    (keep WGDEVICE_HAS_I5 (i5 d) None).

(** ** The devices a configuration file can express *)

(** A character of a value: no white space, comment or NUL. *)
Definition conf_char (c : byte) : bool :=
  negb (c_isspace c) && negb (Byte.eqb c COMMENT_CHAR) && negb (Byte.eqb c x00).

(** A character inside the value of I1 to I5, which may be a space. *)
Definition inner_char (c : byte) : bool :=
  negb (Byte.eqb c x0a) && negb (Byte.eqb c COMMENT_CHAR) && negb (Byte.eqb c x00).

Definition header_ok (s : option (list byte)) : Prop :=
  exists t, s = Some t /\ forallb conf_char t = true.

(** The value of I1 to I5 begins and ends with a character that is not white space. *)
Definition junk_ok (s : option (list byte)) : Prop :=
  exists t, s = Some t /\ forallb inner_char t = true /\
  c_isspace (byte_at t 0) = false /\ c_isspace (byte_at t (length t - 1)) = false.

Definition endpoint_ok (ep : list byte) : Prop :=
  match endpoint_addr ep with
  | Some sa => is_endpoint sa
  | None => True
  end.

Record showable (d : wgdevice) : Prop := Showable {
  sh_wf : wf_device d;
  sh_endpoints : Forall (fun p => endpoint_ok (endpoint p)) (peers d);
  sh_h1 : has_flag (flags d) WGDEVICE_HAS_H1 = true -> header_ok (init_packet_magic_header d);
  sh_h2 : has_flag (flags d) WGDEVICE_HAS_H2 = true -> header_ok (response_packet_magic_header d);
  sh_h3 : has_flag (flags d) WGDEVICE_HAS_H3 = true -> header_ok (underload_packet_magic_header d);
  sh_h4 : has_flag (flags d) WGDEVICE_HAS_H4 = true -> header_ok (transport_packet_magic_header d);
  sh_i1 : has_flag (flags d) WGDEVICE_HAS_I1 = true -> junk_ok (i1 d);
  sh_i2 : has_flag (flags d) WGDEVICE_HAS_I2 = true -> junk_ok (i2 d);
  sh_i3 : has_flag (flags d) WGDEVICE_HAS_I3 = true -> junk_ok (i3 d);
  sh_i4 : has_flag (flags d) WGDEVICE_HAS_I4 = true -> junk_ok (i4 d);
  sh_i5 : has_flag (flags d) WGDEVICE_HAS_I5 = true -> junk_ok (i5 d);
}.

(** ** Keys *)

(** The two texts differ, whatever follows them. *)
Fixpoint mismatch (a b : list byte) : bool :=
  match a, b with
  | x :: a', y :: b' => negb (Byte.eqb (to_lower x) (to_lower y)) || mismatch a' b'
  | _, _ => false
  end.

Lemma mismatch_strncasecmp (a b v : list byte) : mismatch a b = true ->
  strncasecmp_eq (a ++ v) b (length b) = false /\ strcasecmp_eq (a ++ v) b = false.
Proof.
  unfold strncasecmp_eq, strcasecmp_eq. revert b.
  induction a as [|x a IH]; intros [|y b]; cbn; try done.
  destruct (Byte.eqb (to_lower x) (to_lower y)); cbn; [apply IH | done].
Qed.

Lemma get_value_miss (a k v : list byte) : mismatch a k = true -> get_value (a ++ v) k = None.
Proof.
  intros M. unfold get_value. destruct (_ <=? _)%nat; [done |].
  by rewrite (proj1 (mismatch_strncasecmp a k v M)).
Qed.

Lemma get_value_hit (a k v : list byte) : a = k -> v <> [] -> get_value (a ++ v) k = Some v.
Proof.
  intros -> Hv. unfold get_value. rewrite length_app, drop_app_length.
  destruct (Nat.leb_spec (length k + length v) (length k)); [destruct v; cbn in *; [done | lia] |].
  unfold strncasecmp_eq. by rewrite take_app_length, firstn_all, beq_refl.
Qed.

(** Finds the branch of a chain of keys. *)
Ltac find_key := rewrite ?get_value_miss by reflexivity; rewrite get_value_hit by (reflexivity || assumption).

Section Roundtrip.
Context `{P : Platform} `{!PlatformOk P} `{N : NetLib} `{!NetLibLaws N} (fuel : nat).

(** ** Cleaning *)

Definition is_special (input : list byte) : bool :=
  existsb (fun key => strncasecmp_eq input key 2) awg_special_handshake_keys.

Lemma is_special_app (a b : list byte) : (2 <= length a)%nat -> is_special (a ++ b) = is_special a.
Proof.
  intros Ha. unfold is_special, strncasecmp_eq. by rewrite take_app_le.
Qed.

Lemma strip_spaces_eq (s : list byte) :
  strip_spaces s = List.filter (fun c => negb (c_isspace c)) s.
Proof. apply List.filter_ext. intros c. by rewrite is_space_char_eq. Qed.

Lemma strip_spaces_app (a b : list byte) : strip_spaces (a ++ b) = strip_spaces a ++ strip_spaces b.
Proof. apply List.filter_app. Qed.

Lemma strip_spaces_id (s : list byte) : forallb conf_char s = true -> strip_spaces s = s.
Proof.
  rewrite strip_spaces_eq. intros Hs. apply forallb_filter_id.
  revert Hs. apply forallb_weaken. by intros c [[? _]%andb_true_iff _]%andb_true_iff.
Qed.

Lemma clean_line_plain (l : list byte) :
  ~ In COMMENT_CHAR l -> is_special l = false -> clean_line l = strip_spaces l.
Proof.
  intros Hc Hs. unfold clean_line, before_comment. rewrite strsep_no by done.
  fold (is_special l). by rewrite Hs, firstn_all.
Qed.

Lemma value_end_spec (a b : list byte) (n : nat) :
  a <> [] -> c_isspace (byte_at a (length a - 1)) = false -> forallb c_isspace b = true ->
  (length a <= n <= length (a ++ b))%nat -> value_end (a ++ b) n = length a.
Proof.
  intros Ha Hl Hb. assert (0 < length a)%nat by (destruct a; cbn; [done | lia]).
  induction n as [|n IH]; intros [Hn Hn']; [lia |]. cbn [value_end]. rewrite is_space_char_eq.
  destruct (decide (length a = S n)) as [E | Hne].
  - rewrite E in Hl. cbn in Hl. rewrite Nat.sub_0_r in Hl. unfold byte_at in *.
    by rewrite app_nth1, Hl by lia.
  - unfold byte_at. rewrite app_nth2 by lia. rewrite length_app in Hn'.
    rewrite forallb_forall in Hb. rewrite Hb by (apply nth_In; lia).
    apply IH. rewrite length_app. lia.
Qed.

(** One character of the scan: before the equals sign, then before the value. *)
Lemma clean_value_key (c : byte) (s : list byte) (b : bool) :
  clean_value (c :: s) false b
  = if Byte.eqb c "="%byte then c :: clean_value s true b
    else if c_isspace c then clean_value s false b else c :: clean_value s false b.
Proof. cbn [clean_value negb]. rewrite is_space_char_eq. by destruct (c_isspace c). Qed.

Lemma clean_value_start (c : byte) (s : list byte) :
  clean_value (c :: s) true false
  = if c_isspace c then clean_value s true false else c :: clean_value s true true.
Proof. cbn [clean_value negb]. rewrite is_space_char_eq. by destruct (c_isspace c). Qed.

Lemma clean_value_inner (v : list byte) : clean_value v true true = v.
Proof. induction v as [|c v IH]; [done |]. cbn. by rewrite IH. Qed.

Lemma byte_at_app_last (a v : list byte) : v <> [] ->
  byte_at (a ++ v) (length (a ++ v) - 1) = byte_at v (length v - 1).
Proof.
  intros Hv. assert (0 < length v)%nat by (destruct v; cbn; [done | lia]).
  unfold byte_at. rewrite length_app, app_nth2 by lia. f_equal. lia.
Qed.

(** A line of I1 to I5 keeps the inner white space of its value. *)
Lemma clean_line_special (k : byte) (v : list byte) :
  In k (text "12345") -> forallb inner_char v = true -> v <> [] ->
  c_isspace (byte_at v 0) = false -> c_isspace (byte_at v (length v - 1)) = false ->
  clean_line ((["I"%byte; k] ++ text " = " ++ v) ++ newline) = ["I"%byte; k] ++ text "=" ++ v.
Proof.
  intros Hk Hv Hne Hv0 Hvl. set (l := ["I"%byte; k] ++ text " = " ++ v).
  assert (is_special ["I"%byte; k] = true /\ Byte.eqb k COMMENT_CHAR = false
          /\ Byte.eqb k "="%byte = false /\ c_isspace k = false) as (Hs & Hk1 & Hk2 & Hk3).
  { cbn in Hk. by repeat (destruct Hk as [<- | Hk]; [done |]). }
  assert (~ In COMMENT_CHAR (l ++ newline)) as Hc.
  { unfold l. apply forallb_not_in with (fun c => negb (Byte.eqb c COMMENT_CHAR)); [done |].
    rewrite !forallb_app. cbn -[COMMENT_CHAR]. rewrite Hk1, andb_true_r. cbn.
    revert Hv. apply forallb_weaken. by intros c [[_ ?]%andb_true_iff _]%andb_true_iff. }
  unfold clean_line, before_comment. rewrite strsep_no by done. cbn [fst].
  fold (is_special (l ++ newline)). unfold l at 1. rewrite <- app_assoc, is_special_app, Hs by (cbn; lia).
  unfold clean_special_handshake_line. rewrite value_end_spec; [| done | | done |].
  - rewrite take_app_length. destruct v as [|c v]; [done |]. unfold l.
    change (byte_at (c :: v) 0) with c in Hv0.
    change (clean_value ("I"%byte :: k :: " "%byte :: "="%byte :: " "%byte :: c :: v) false false
            = "I"%byte :: k :: "="%byte :: c :: v).
    rewrite clean_value_key. cbn -[clean_value]. rewrite clean_value_key, Hk2, Hk3.
    rewrite clean_value_key. cbn -[clean_value]. rewrite clean_value_key. cbn -[clean_value].
    rewrite clean_value_start. cbn -[clean_value]. by rewrite clean_value_start, Hv0, clean_value_inner.
  - unfold l. rewrite app_assoc. by rewrite byte_at_app_last.
  - rewrite length_app. lia.
Qed.

(** ** Lines *)

Definition read_text (ctx : config_ctx) (content : list byte) : outcome (option config_ctx) :=
  config_read_lines fuel ctx (map c_str (getlines content)).

Lemma read_line_step (ctx ctx' : config_ctx) (l rest : list byte) :
  ~ In x0a l -> ~ In x00 l -> config_read_line fuel ctx (l ++ newline) = Returns (Some ctx') ->
  read_text ctx (l ++ newline ++ rest) = read_text ctx' rest.
Proof.
  intros Hl H0 E. unfold read_text, newline in *. cbn [app]. rewrite getlines_cons by done.
  cbn [map config_read_lines]. rewrite c_str_no_nul, E; [done |].
  rewrite in_app_iff. by intros [? | [? | []]].
Qed.

(** An assignment that is understood moves the reader on. *)
Lemma read_assign (ctx ctx' : config_ctx) (key : string) (v v' rest : list byte) :
  (2 <= length (text key))%nat -> is_special (text key) = false ->
  forallb conf_char (text key) = true -> forallb inner_char v = true -> strip_spaces v = v' ->
  process_line fuel ctx (text key ++ text "=" ++ v') = Returns (true, ctx') ->
  read_text ctx (assign key v ++ rest) = read_text ctx' rest.
Proof.
  intros H2 Hs Hk Hv Hv' Hp. unfold assign.
  replace ((text key ++ text " = " ++ v ++ newline) ++ rest)
    with ((text key ++ text " = " ++ v) ++ newline ++ rest) by by rewrite <- !app_assoc.
  assert (forallb inner_char (text key ++ text " = " ++ v) = true) as Hall.
  { rewrite !forallb_app, Hv. cbn. rewrite andb_true_r. revert Hk. apply forallb_weaken.
    unfold conf_char, inner_char. intros c Hc. boolz. rewrite H0, H1.
    destruct (Byte.eqb c x0a) eqn:E; [| done]. apply byte_eqb_eq in E. by subst. }
  apply read_line_step; [by apply (forallb_not_in inner_char) .. |].
  unfold config_read_line. rewrite clean_line_plain.
  - rewrite !strip_spaces_app, (strip_spaces_id (text key)), Hv' by done.
    rewrite (strip_spaces_eq (text " = ")), (strip_spaces_eq newline). cbn [List.filter text newline].
    rewrite app_nil_r.
    change (List.filter _ _) with (text "="). rewrite Hp.
    destruct (length _ =? 0)%nat eqn:E; [| done].
    apply Nat.eqb_eq in E. rewrite length_app in E. lia.
  - rewrite in_app_iff. intros [Hin | [? | []]]; [| done].
    revert Hin. by apply (forallb_not_in inner_char).
  - by rewrite <- app_assoc, is_special_app.
Qed.

Lemma read_assign_special (ctx ctx' : config_ctx) (k : byte) (v rest : list byte) :
  In k (text "12345") -> forallb inner_char v = true -> v <> [] ->
  c_isspace (byte_at v 0) = false -> c_isspace (byte_at v (length v - 1)) = false ->
  process_line fuel ctx (["I"%byte; k] ++ text "=" ++ v) = Returns (true, ctx') ->
  read_text ctx ((["I"%byte; k] ++ text " = " ++ v ++ newline) ++ rest) = read_text ctx' rest.
Proof.
  intros Hk Hv Hne H0 Hl Hp.
  replace ((["I"%byte; k] ++ text " = " ++ v ++ newline) ++ rest)
    with ((["I"%byte; k] ++ text " = " ++ v) ++ newline ++ rest) by by rewrite <- !app_assoc.
  assert (forallb inner_char (["I"%byte; k] ++ text " = " ++ v) = true) as Hall.
  { rewrite !forallb_app, Hv. cbn in Hk. by repeat (destruct Hk as [<- | Hk]; [done |]). }
  apply read_line_step; [by apply (forallb_not_in inner_char) .. |].
  unfold config_read_line. rewrite clean_line_special by done. by rewrite Hp.
Qed.

Lemma read_if (ctx ctx' : config_ctx) (c : bool) (s rest : list byte) :
  (c = true -> read_text ctx (s ++ rest) = read_text ctx' rest) ->
  read_text ctx (print_if c s ++ rest) = read_text (if c then ctx' else ctx) rest.
Proof. destruct c; [auto | done]. Qed.

(** ** The [Interface] section *)

Definition dev_ctx (a : wgdevice) : config_ctx := ConfigCtx a None None false true.

Lemma conf_inner (v : list byte) : forallb conf_char v = true -> forallb inner_char v = true.
Proof.
  apply forallb_weaken. unfold conf_char, inner_char. intros c Hc. boolz. rewrite H0, H1.
  destruct (Byte.eqb c x0a) eqn:E; [| done]. apply byte_eqb_eq in E. by subst.
Qed.

Lemma digits_conf (v : list byte) : Forall (fun c => 48 <= b2z c <= 57) v -> forallb conf_char v = true.
Proof.
  intros Hv. apply forallb_forall. intros c Hc. rewrite List.Forall_forall in Hv. apply Hv in Hc.
  assert (forallb (fun c => negb ((48 <=? b2z c) && (b2z c <=? 57)) || conf_char c) all_bytes = true)
    as Hall by by vm_compute.
  pose proof (byte_exhaust _ Hall c) as H1. cbv beta in H1. clear Hall.
  by rewrite (proj2 (Z.leb_le 48 (b2z c))), (proj2 (Z.leb_le (b2z c) 57)) in H1 by lia.
Qed.

Lemma print_u_conf (n : Z) : 0 <= n -> forallb conf_char (print_u n) = true /\ print_u n <> [].
Proof. intros Hn. destruct (print_u_digits n Hn). split; [by apply digits_conf | done]. Qed.

(** A key as [assign] prints it. *)
Definition plain_key (key : string) : bool :=
  (2 <=? length (text key))%nat && negb (is_special (text key)) && forallb conf_char (text key).

Lemma read_plain (ctx ctx' : config_ctx) (key : string) (v rest : list byte) :
  plain_key key = true -> forallb conf_char v = true ->
  process_line fuel ctx (text key ++ text "=" ++ v) = Returns (true, ctx') ->
  read_text ctx (assign key v ++ rest) = read_text ctx' rest.
Proof.
  unfold plain_key. intros [[H2%Nat.leb_le Hs%negb_true_iff]%andb_true_iff Hk]%andb_true_iff Hv Hp.
  eapply read_assign; [done .. | by apply conf_inner | by apply strip_spaces_id | done].
Qed.

(** A field read back from its line, when the line is printed. *)
Definition keep_field {T} (c : bool) (get : wgdevice -> T) (set : T -> wgdevice -> wgdevice)
    (flag : Z) (v : T) (a : wgdevice) : wgdevice :=
  (set (if c then v else get a) a) <| flags ::= flag_if c flag |>.

Lemma keep_field_eq {T} (c : bool) (get : wgdevice -> T) set (flag : Z) (v : T) (a : wgdevice) :
  (forall a, set (get a) a = a) ->
  keep_field c get set flag v a = if c then set_dev_flag flag (set v a) else a.
Proof. intros E. unfold keep_field. destruct c; [done |]. rewrite E. by destruct a. Qed.

Lemma keep_field_if {T} (c : bool) (get : wgdevice -> T) set (flag : Z) (v : T) (a : wgdevice) :
  (forall a, set (get a) a = a) ->
  dev_ctx (keep_field c get set flag v a)
  = if c then dev_ctx (set_dev_flag flag (set v a)) else dev_ctx a.
Proof. intros E. rewrite keep_field_eq by done. by destruct c. Qed.

Lemma read_uint16 (key : string) get set (flag : Z) (c : bool) (a : wgdevice) (n : Z) (rest : list byte) :
  plain_key key = true -> (forall a, set (get a) a = a) -> is_u16 n ->
  (forall a v, v <> [] -> process_line fuel (dev_ctx a) (text key ++ text "=" ++ v)
                       = dev_uint16 (dev_ctx a) get set flag v) ->
  read_text (dev_ctx a) (print_if c (assign key (print_u n)) ++ rest)
  = read_text (dev_ctx (keep_field c get set flag n a)) rest.
Proof.
  unfold is_u16. intros Hk Hs Hn Hp. rewrite keep_field_if by done. apply read_if. intros _.
  destruct (print_u_conf n) as [Hc Hne]; [lia |].
  apply read_plain; [done | done |]. rewrite Hp by done.
  unfold dev_uint16, parse_uint16. destruct ulong_pow as [Hw _].
  rewrite print_u_nonempty, strtoul_print_u by lia. cbn [length Nat.eqb negb orb].
  unfold u32, u16. rewrite !uw_small by (rewrite ?uw_small; lia). unfold UINT16_MAX.
  by rewrite (proj2 (Z.ltb_ge 65535 n)) by lia.
Qed.

Lemma dev_string_some (get : wgdevice -> option (list byte)) set (flag : Z) (a : wgdevice) (v : list byte) :
  wf_string (Some v) ->
  dev_string (dev_ctx a) get set flag v = Returns (true, dev_ctx (set_dev_flag flag (set (Some v) a))).
Proof.
  intros [Hne Hl]. unfold dev_string, parse_awg_string.
  destruct (Nat.eqb_spec (length v) 0) as [E | _]; [by destruct v |].
  by rewrite (proj2 (Z.leb_gt MAX_AWG_STRING_LEN (Z.of_nat (length v)))) by done.
Qed.

Lemma read_header (key : string) get set (flag : Z) (c : bool) (a : wgdevice) (s : option (list byte))
    (rest : list byte) :
  plain_key key = true -> (forall a, set (get a) a = a) -> wf_string s -> (c = true -> header_ok s) ->
  (forall a v, v <> [] -> process_line fuel (dev_ctx a) (text key ++ text "=" ++ v)
                       = dev_string (dev_ctx a) get set flag v) ->
  read_text (dev_ctx a) (print_if c (assign key (print_s s)) ++ rest)
  = read_text (dev_ctx (keep_field c get set flag s a)) rest.
Proof.
  intros Hk Hs Hw Hok Hp. rewrite keep_field_if by done. apply read_if. intros Hc.
  destruct (Hok Hc) as (v & -> & Hv). apply read_plain; [done | done |].
  rewrite Hp by (by destruct Hw). by apply dev_string_some.
Qed.

Lemma read_junk (key : string) (k : byte) get set (flag : Z) (c : bool) (a : wgdevice) (s : option (list byte))
    (rest : list byte) :
  text key = ["I"%byte; k] -> In k (text "12345") -> (forall a, set (get a) a = a) -> wf_string s -> (c = true -> junk_ok s) ->
  (forall a v, v <> [] -> process_line fuel (dev_ctx a) (text key ++ text "=" ++ v)
                       = dev_string (dev_ctx a) get set flag v) ->
  read_text (dev_ctx a) (print_if c (assign key (print_s s)) ++ rest)
  = read_text (dev_ctx (keep_field c get set flag s a)) rest.
Proof.
  intros Hkey Hk Hs Hw Hok Hp. rewrite keep_field_if by done. apply read_if. intros Hc.
  unfold assign. rewrite Hkey in *. destruct (Hok Hc) as (v & -> & Hv & H0 & Hl). destruct Hw as [Hne Hlen].
  apply read_assign_special; [done .. |]. rewrite Hp by done. by apply dev_string_some.
Qed.

(** Reduces [process_line] in the device section to the parser of the key. *)
Ltac device_key :=
  intros; unfold process_line; rewrite !(app_assoc _ (text "="));
  rewrite !(fun a b v H => proj2 (mismatch_strncasecmp a b v H)) by reflexivity;
  cbn [dev_ctx is_device_section]; unfold process_device_line; find_key.

Lemma read_listen_port (a : wgdevice) (n : Z) (rest : list byte) : is_u16 n -> listen_port a = 0 ->
  read_text (dev_ctx a) (print_if (negb (n =? 0)) (assign "ListenPort" (print_u n)) ++ rest)
  = read_text (dev_ctx (a <| listen_port := n |>
      <| flags ::= flag_if (negb (n =? 0)) WGDEVICE_HAS_LISTEN_PORT |>)) rest.
Proof.
  unfold is_u16. intros Hn H0. destruct (Z.eqb_spec n 0) as [-> | Hne].
  { destruct a. cbn in H0. by subst. }
  destruct (print_u_conf n) as [Hc Hpne]; [lia |]. cbn [negb print_if].
  apply read_plain; [by vm_compute | done |]. device_key.
  unfold parse_port. rewrite print_u_nonempty by lia.
  destruct (gai_port n) as (af & sa & -> & Haf & Hport); [lia |].
  assert (is_inet_addr af sa = true) as ->.
  { unfold is_inet_addr. destruct Haf as [[-> ->] | [-> ->]]; done. }
  unfold sockaddr_port. by rewrite Hport.
Qed.

Lemma print_x_conf (n : Z) : 0 <= n -> forallb conf_char (text "0x" ++ print_x n) = true.
Proof.
  intros Hn. destruct (print_base_numeral 16 n ltac:(lia) Hn) as (_ & Hds & _).
  rewrite forallb_app. apply andb_true_iff. split; [done |]. apply forallb_forall. intros c Hc.
  rewrite List.Forall_forall in Hds. apply Hds in Hc as [x Hx].
  assert (forallb (fun c => match base_digit 16 c with Some _ => conf_char c | None => true end)
    all_bytes = true) as Hall by by vm_compute.
  pose proof (byte_exhaust _ Hall c) as H1. cbv beta in H1. by rewrite Hx in H1.
Qed.

Lemma read_fwmark (a : wgdevice) (n : Z) (rest : list byte) : is_u32 n -> fwmark a = 0 ->
  read_text (dev_ctx a) (print_if (negb (n =? 0)) (assign "FwMark" (text "0x" ++ print_x n)) ++ rest)
  = read_text (dev_ctx (a <| fwmark := n |>
      <| flags ::= flag_if (negb (n =? 0)) WGDEVICE_HAS_FWMARK |>)) rest.
Proof.
  unfold is_u32. intros Hn H0. destruct (Z.eqb_spec n 0) as [-> | Hne].
  { destruct a. cbn in H0. by subst. }
  pose proof (print_x_conf n ltac:(lia)) as Hc.
  assert (text "0x" ++ print_x n <> []) as Hpne by done.
  cbn [negb print_if]. apply read_plain; [by vm_compute | done |]. device_key.
  change (text "0x" ++ print_x n) with ("0"%byte :: "x"%byte :: print_x n).
  by rewrite parse_fwmark_hex.
Qed.

Lemma base64_conf (key : list byte) : length key = 32%nat ->
  forallb conf_char (key_to_base64 key) = true /\ key_to_base64 key <> [].
Proof.
  intros Hk. pose proof (key_to_base64_length key Hk) as Hl. split.
  - apply forallb_forall. intros c Hc.
    pose proof (key_to_base64_chars key) as Ha. rewrite List.Forall_forall in Ha. apply Ha in Hc.
    assert (forallb conf_char ("="%byte :: base64_alphabet) = true) as Hall by by vm_compute.
    rewrite forallb_forall in Hall. by apply Hall.
  - intros E. by rewrite E in Hl.
Qed.

Lemma read_private_key (c : bool) (a : wgdevice) (key rest : list byte) : length key = 32%nat ->
  read_text (dev_ctx a) (print_if c (assign "PrivateKey" (key_to_base64 key)) ++ rest)
  = read_text (dev_ctx (keep_field c private_key (fun v d => d <| private_key := v |>)
      WGDEVICE_HAS_PRIVATE_KEY key a)) rest.
Proof.
  intros Hk. rewrite keep_field_if by (by intros []). apply read_if. intros _.
  destruct (base64_conf key Hk) as [Hc Hne].
  apply read_plain; [by vm_compute | done |]. device_key.
  unfold parse_key. by rewrite key_base64_decodes.
Qed.

Lemma read_bare (ctx ctx' : config_ctx) (s rest : list byte) :
  (2 <= length s)%nat -> is_special s = false -> forallb conf_char s = true ->
  process_line fuel ctx s = Returns (true, ctx') ->
  read_text ctx (s ++ newline ++ rest) = read_text ctx' rest.
Proof.
  intros H2 Hs Hc Hp. pose proof (conf_inner _ Hc) as Hi.
  apply read_line_step; [by apply (forallb_not_in inner_char) .. |].
  unfold config_read_line. rewrite clean_line_plain.
  - rewrite strip_spaces_app, strip_spaces_id, (strip_spaces_eq newline) by done.
    change (List.filter _ newline) with (@nil byte). rewrite app_nil_r, Hp.
    destruct (length s) eqn:E; [lia | done].
  - rewrite in_app_iff. intros [Hin | [? | []]]; [| done]. revert Hin. by apply (forallb_not_in inner_char).
  - by rewrite is_special_app.
Qed.

Lemma read_blank (ctx : config_ctx) (rest : list byte) : read_text ctx (newline ++ rest) = read_text ctx rest.
Proof.
  apply (read_line_step ctx ctx []); [by intros [] .. |].
  unfold config_read_line. rewrite clean_line_plain; [| by intros [? | []] | done].
  by rewrite strip_spaces_eq.
Qed.

(** The side conditions of the field lemmas. *)
Ltac field_side :=
  lazymatch goal with
  | |- plain_key _ = true => reflexivity
  | |- forall a, _ a = a => by intros []
  | |- forall a v, _ <> _ -> _ => intros ???; by device_key
  | |- In _ _ => cbn; tauto
  | |- text _ = _ => reflexivity
  | |- _ => assumption
  end.

(** The device after the [Interface] section, before any peer. *)
Lemma read_interface (append : bool) (d : wgdevice) (rest : list byte) : showable d ->
  read_text (config_read_init append) (showconf_interface d ++ rest)
  = read_text (dev_ctx ((conf_image append d) <| peers := [] |>)) rest.
Proof.
  intros [[] _ ? ? ? ? ? ? ? ? ?]. unfold showconf_interface. rewrite <- !app_assoc.
  rewrite (read_bare _ (dev_ctx (device (config_read_init append)))) by (reflexivity || cbn; lia).
  rewrite read_listen_port by (done || by destruct append).
  rewrite read_fwmark by (done || by destruct append).
  rewrite read_private_key by done.
  rewrite (read_uint16 "Jc" junk_packet_count (fun v d => d <| junk_packet_count := v |>)
    WGDEVICE_HAS_JC) by field_side.
  rewrite (read_uint16 "Jmin" junk_packet_min_size (fun v d => d <| junk_packet_min_size := v |>)
    WGDEVICE_HAS_JMIN) by field_side.
  rewrite (read_uint16 "Jmax" junk_packet_max_size (fun v d => d <| junk_packet_max_size := v |>)
    WGDEVICE_HAS_JMAX) by field_side.
  rewrite (read_uint16 "S1" init_packet_junk_size (fun v d => d <| init_packet_junk_size := v |>)
    WGDEVICE_HAS_S1) by field_side.
  rewrite (read_uint16 "S2" response_packet_junk_size (fun v d => d <| response_packet_junk_size := v |>)
    WGDEVICE_HAS_S2) by field_side.
  rewrite (read_uint16 "S3" cookie_reply_packet_junk_size (fun v d => d <| cookie_reply_packet_junk_size := v |>)
    WGDEVICE_HAS_S3) by field_side.
  rewrite (read_uint16 "S4" transport_packet_junk_size (fun v d => d <| transport_packet_junk_size := v |>)
    WGDEVICE_HAS_S4) by field_side.
  rewrite (read_header "H1" init_packet_magic_header (fun v d => d <| init_packet_magic_header := v |>)
    WGDEVICE_HAS_H1) by field_side.
  rewrite (read_header "H2" response_packet_magic_header (fun v d => d <| response_packet_magic_header := v |>)
    WGDEVICE_HAS_H2) by field_side.
  rewrite (read_header "H3" underload_packet_magic_header (fun v d => d <| underload_packet_magic_header := v |>)
    WGDEVICE_HAS_H3) by field_side.
  rewrite (read_header "H4" transport_packet_magic_header (fun v d => d <| transport_packet_magic_header := v |>)
    WGDEVICE_HAS_H4) by field_side.
  rewrite (read_junk "I1" "1" i1 (fun v d => d <| i1 := v |>) WGDEVICE_HAS_I1) by field_side.
  rewrite (read_junk "I2" "2" i2 (fun v d => d <| i2 := v |>) WGDEVICE_HAS_I2) by field_side.
  rewrite (read_junk "I3" "3" i3 (fun v d => d <| i3 := v |>) WGDEVICE_HAS_I3) by field_side.
  rewrite (read_junk "I4" "4" i4 (fun v d => d <| i4 := v |>) WGDEVICE_HAS_I4) by field_side.
  rewrite (read_junk "I5" "5" i5 (fun v d => d <| i5 := v |>) WGDEVICE_HAS_I5) by field_side.
  rewrite read_blank. by destruct append.
Qed.

(** ** The [Peer] sections *)

(** Reading the fields of [p], the last peer of the device. *)
Definition peer_ctx (a : wgdevice) (pre : list wgpeer) (p : wgpeer) : config_ctx :=
  ConfigCtx (a <| peers := pre ++ [p] |>) (Some (length pre)) (last_index (allowedips p)) true false.

Lemma peer_ctx_current (a : wgdevice) (pre : list wgpeer) (p : wgpeer) : current_peer (peer_ctx a pre p) = p.
Proof. unfold current_peer, peer_ctx. cbn. by rewrite app_nth2, Nat.sub_diag by lia. Qed.

Lemma peer_ctx_update (a : wgdevice) (pre : list wgpeer) (p : wgpeer) (f : wgpeer -> wgpeer) :
  (update_peer (peer_ctx a pre p) f) <| last_allowedip := last_index (allowedips (f p)) |>
  = peer_ctx a pre (f p).
Proof.
  unfold update_peer, peer_ctx. cbn. by rewrite alter_app_r_alt, Nat.sub_diag.
Qed.

Lemma peer_ctx_update_keep (a : wgdevice) (pre : list wgpeer) (p : wgpeer) (f : wgpeer -> wgpeer) :
  allowedips (f p) = allowedips p -> update_peer (peer_ctx a pre p) f = peer_ctx a pre (f p).
Proof. intros E. rewrite <- peer_ctx_update, E. done. Qed.

(** Reduces [process_line] in a peer section to the parser of the key. *)
Ltac peer_key :=
  unfold process_line; rewrite !(app_assoc _ (text "="));
  rewrite !(fun a b v H => proj2 (mismatch_strncasecmp a b v H)) by reflexivity;
  cbn [peer_ctx is_device_section is_peer_section]; unfold process_peer_line; find_key;
  rewrite ?peer_ctx_current.

Lemma read_peer_key (a : wgdevice) (pre : list wgpeer) (p : wgpeer) (rest key : list byte) :
  length key = 32%nat ->
  read_text (peer_ctx a pre p) (assign "PublicKey" (key_to_base64 key) ++ rest)
  = read_text (peer_ctx a pre (set_peer_flag WGPEER_HAS_PUBLIC_KEY (p <| peer_public_key := key |>))) rest.
Proof.
  intros Hk. destruct (base64_conf key Hk) as [Hc Hne].
  apply read_plain; [done | done |]. peer_key. unfold parse_key.
  rewrite key_base64_decodes by done. by rewrite peer_ctx_update_keep.
Qed.

Lemma read_peer_preshared (a : wgdevice) (pre : list wgpeer) (p : wgpeer) (c : bool) (rest key : list byte) :
  length key = 32%nat ->
  read_text (peer_ctx a pre p) (print_if c (assign "PresharedKey" (key_to_base64 key)) ++ rest)
  = read_text (peer_ctx a pre (p <| preshared_key ::= fun old => if c then key else old |>
      <| peer_flags ::= flag_if c WGPEER_HAS_PRESHARED_KEY |>)) rest.
Proof.
  intros Hk. destruct c; [cbn [print_if] | by destruct p]. destruct (base64_conf key Hk) as [Hc Hne].
  apply read_plain; [done | done |]. peer_key. unfold parse_key.
  rewrite key_base64_decodes by done. by rewrite peer_ctx_update_keep.
Qed.

Lemma read_peer_awg (a : wgdevice) (pre : list wgpeer) (p : wgpeer) (c b : bool) (rest : list byte) :
  read_text (peer_ctx a pre p)
    (print_if c (assign "AdvancedSecurity" (if b then text "on" else text "off")) ++ rest)
  = read_text (peer_ctx a pre (p <| awg ::= fun old => if c then b else old |>
      <| peer_flags ::= flag_if c WGPEER_HAS_AWG |>)) rest.
Proof.
  destruct c; [cbn [print_if] | by destruct p].
  assert ((if b then text "on" else text "off") <> []) as Hne by by destruct b.
  apply read_plain; [done | by destruct b |]. peer_key.
  assert (forall old, parse_bool old (if b then text "on" else text "off") = Returns (true, b)) as ->
    by by destruct b.
  cbn [obind]. by rewrite peer_ctx_update_keep.
Qed.

Lemma read_peer_keepalive (a : wgdevice) (pre : list wgpeer) (p : wgpeer) (n : Z) (rest : list byte) :
  is_u16 n -> persistent_keepalive_interval p = 0 ->
  read_text (peer_ctx a pre p)
    (print_if (negb (n =? 0)) (assign "PersistentKeepalive" (print_u n)) ++ rest)
  = read_text (peer_ctx a pre (p <| persistent_keepalive_interval := n |>
      <| peer_flags ::= flag_if (negb (n =? 0)) WGPEER_HAS_PERSISTENT_KEEPALIVE_INTERVAL |>)) rest.
Proof.
  unfold is_u16. intros Hn H0. destruct (Z.eqb_spec n 0) as [-> | Hnz].
  { destruct p. cbn in H0. by subst. }
  destruct (print_u_conf n) as [Hc Hne]; [lia |]. cbn [negb print_if].
  apply read_plain; [done | done |]. peer_key. rewrite parse_keepalive_print by lia.
  rewrite peer_ctx_update_keep by done. done.
Qed.

(** *** Allowed IPs *)

Definition entry_text (a : wgallowedip) : list byte :=
  match allowedip_text a with
  | Some t => t ++ text "/" ++ print_d (cidr a)
  | None => []
  end.

Lemma plain_conf (c : byte) : plain_char c = true -> conf_char c = true.
Proof.
  intros Hp.
  assert (forallb (fun c => negb (plain_char c) || conf_char c) all_bytes = true) as Hall by by vm_compute.
  pose proof (byte_exhaust _ Hall c) as H1. cbv beta in H1. by rewrite Hp in H1.
Qed.

Lemma allowedip_text_ok (a : wgallowedip) : wf_allowedip a ->
  exists t, allowedip_text a = Some t /\ forallb plain_char t = true
  /\ parse_ip zero_allowedip t = (true, (image_allowedip a) <| cidr := 0 |>).
Proof.
  intros [Hl Hc]. unfold allowedip_text, parse_ip, image_allowedip.
  destruct Hc as [[-> _] | [-> _]].
  - assert (length (ip4 a) = 4%nat) as H4 by (unfold ip4; rewrite length_take; lia).
    destruct (pton_ntop4 (ip4 a) H4) as (t & Et & Ep & _ & Hp & Hcol).
    exists t. split; [done |]. split; [done |]. rewrite Hcol, Ep. cbn [modify].
    unfold memcpy_front. rewrite H4. done.
  - destruct (pton_ntop6 (ip6 a) Hl) as (t & Et & Ep & _ & Hp & Hcol).
    exists t. split; [done |]. split; [done |]. rewrite Hcol, Ep. cbn [modify].
    unfold memcpy_front, ip6. rewrite Hl. cbn. by rewrite app_nil_r.
Qed.

Lemma print_d_u (n : Z) : 0 <= n -> print_d n = print_u n.
Proof. intros. unfold print_d. by rewrite (proj2 (Z.ltb_ge n 0)) by lia. Qed.

Lemma parse_entry (a : wgallowedip) : wf_allowedip a ->
  parse_allowedip (entry_text a) = Some (image_allowedip a).
Proof.
  intros Hw. destruct (allowedip_text_ok a Hw) as (t & Et & Hp & Hip).
  assert (0 <= cidr a <= 128) as Hr by (destruct Hw as [_ [[_ ?] | [_ ?]]]; lia).
  unfold parse_allowedip, entry_text. rewrite Et.
  change (text "/" ++ print_d (cidr a)) with ("/"%byte :: print_d (cidr a)).
  rewrite strsep_app by (by apply (forallb_not_in plain_char)). rewrite Hip, print_d_u by lia.
  rewrite starts_with_digit_print_u by lia. destruct ulong_pow as [Hw2 _].
  rewrite strtoul_print_u by lia. cbn [negb length Nat.eqb orb].
  change (family ((image_allowedip a) <| cidr := 0 |>)) with (family a).
  assert ((32 <? cidr a) && (family a =? AF_INET) || (128 <? cidr a) && (family a =? AF_INET6) = false) as ->.
  { destruct Hw as [_ [[-> ?] | [-> ?]]]; cbn [Z.eqb]; rewrite ?andb_false_r, ?orb_false_r, ?andb_true_r;
      cbn; apply Z.ltb_ge; lia. }
  cbn [modify]. unfold u8. by rewrite uw_small by lia.
Qed.

Lemma parse_entries (l : list wgallowedip) : Forall wf_allowedip l ->
  Forall2 (fun e a => parse_allowedip e = Some a) (map entry_text l) (map image_allowedip l).
Proof. induction 1; constructor; auto using parse_entry. Qed.

Lemma entry_conf (a : wgallowedip) : wf_allowedip a ->
  forallb conf_char (entry_text a) = true /\ ~ In ","%byte (entry_text a).
Proof.
  intros Hw. destruct (allowedip_text_ok a Hw) as (t & Et & Hp & _).
  assert (0 <= cidr a) as Hr by (destruct Hw as [_ [[_ ?] | [_ ?]]]; lia).
  unfold entry_text. rewrite Et, print_d_u by done. split.
  - rewrite !forallb_app, (forallb_weaken _ _ _ plain_conf Hp). by apply print_u_conf.
  - rewrite !in_app_iff. intros [Hin | [Hin | Hin]].
    + revert Hin. by apply (forallb_not_in plain_char).
    + by destruct Hin as [? | []].
    + destruct (print_u_digits (cidr a) Hr) as [_ Hd]. rewrite List.Forall_forall in Hd.
      apply Hd in Hin. change (b2z ","%byte) with 44 in Hin. lia.
Qed.

Lemma showconf_allowedips_ok (l : list wgallowedip) : Forall wf_allowedip l -> l <> [] ->
  forallb inner_char (showconf_allowedips l) = true
  /\ split_on ","%byte (strip_spaces (showconf_allowedips l)) = map entry_text l.
Proof.
  induction 1 as [|a l Ha Hl IH]; [done |]. intros _.
  assert (showconf_allowedips (a :: l)
          = entry_text a ++ print_if (negb (length l =? 0)%nat) (text ", ") ++ showconf_allowedips l) as ->.
  { cbn [showconf_allowedips]. unfold entry_text.
    destruct (allowedip_text_ok a Ha) as (t & -> & _). by rewrite <- !app_assoc. }
  destruct (entry_conf a Ha) as [Hc Hn]. rewrite forallb_app, (conf_inner _ Hc). cbn [andb].
  rewrite strip_spaces_app, strip_spaces_id by done.
  destruct l as [|b l]; cbn [length Nat.eqb negb print_if].
  - cbn [app showconf_allowedips]. rewrite app_nil_r. split; [done |]. by rewrite split_on_no.
  - destruct IH as [IH1 IH2]; [done |]. rewrite forallb_app, IH1. split; [done |].
    rewrite strip_spaces_app. rewrite (strip_spaces_eq (text ", ")). change (List.filter _ (text ", ")) with [","%byte].
    cbn [app]. rewrite split_on_app, IH2 by done. done.
Qed.

Lemma allowedips_loop_all (entries : list (list byte)) (news l : list wgallowedip) :
  Forall2 (fun e a => parse_allowedip e = Some a) entries news ->
  allowedips_loop l (last_index l) entries = (true, l ++ news, last_index (l ++ news)).
Proof.
  intros HF. revert l. induction HF as [|e a entries news He _ IH]; intros l; cbn [allowedips_loop].
  - by rewrite app_nil_r.
  - by rewrite He, link_after_last, (linked_at_last l a), IH, <- app_assoc.
Qed.

Lemma read_peer_allowedips (a : wgdevice) (pre : list wgpeer) (p : wgpeer) (l : list wgallowedip)
    (rest : list byte) :
  Forall wf_allowedip l -> allowedips p = [] ->
  read_text (peer_ctx a pre p)
    (print_if (negb (length l =? 0)%nat) (assign "AllowedIPs" (showconf_allowedips l)) ++ rest)
  = read_text (peer_ctx a pre (p <| allowedips := map image_allowedip l |>
      <| peer_flags ::= flag_if (negb (length l =? 0)%nat) WGPEER_REPLACE_ALLOWEDIPS |>)) rest.
Proof.
  intros Hl H0. destruct l as [|x l].
  { destruct p. cbn in H0. by subst. }
  destruct (showconf_allowedips_ok (x :: l) Hl) as [Hi Hs]; [done |].
  remember (strip_spaces (showconf_allowedips (x :: l))) as v eqn:Ev.
  assert (v <> []) as Hne.
  { intros ->. cbn in Hs. injection Hs as Hs _.
    apply Forall_cons in Hl as [Hx _]. destruct (allowedip_text_ok x Hx) as (t & Et & _).
    unfold entry_text in Hs. rewrite Et in Hs. by destruct t. }
  cbn [length Nat.eqb negb print_if]. eapply read_assign; [cbn; lia | done .. |].
  peer_key. unfold parse_allowedips. destruct (Nat.eqb_spec (length v) 0); [by destruct v |].
  cbn [peer_ctx last_allowedip]. change (allowedips (set_peer_flag _ p)) with (allowedips p).
  rewrite Hs. rewrite (allowedips_loop_all _ (map image_allowedip (x :: l))).
  - rewrite H0. cbn [app]. apply (f_equal (fun c => Returns (true, c))).
    exact (peer_ctx_update a pre p (fun _ => _)).
  - by apply parse_entries.
Qed.

(** *** Endpoints *)

Context (retries : Z) (Hretries : parse_dns_retries = Returns retries) (Hfuel : (0 < fuel)%nat).

Lemma is_endpoint_inet (sa : list byte) : is_endpoint sa -> is_inet_addr (sa_family sa) sa = true.
Proof.
  intros [port addr Hp Ha | port addr Hp Ha]; unfold is_inet_addr, sockaddr_in, sockaddr_in6;
    rewrite !length_app, Hp, Ha; done.
Qed.

Lemma endpoint_addr_family (ep sa : list byte) : endpoint_addr ep = Some sa -> sa_family sa = sa_family ep.
Proof.
  unfold endpoint_addr, sa_family, sizeof_sockaddr_in, sizeof_sockaddr_in6.
  intros E. repeat case_match; simplify_eq; by rewrite take_take.
Qed.

Lemma parse_endpoint_text (host service old sa : list byte) (v : list byte) :
  v <> [] -> split_endpoint v = Some (host, service) -> is_endpoint sa ->
  (forall n, getaddrinfo n (Some host) service = GaiOk (sa_family sa) sa) ->
  parse_endpoint fuel old v = Returns (true, memcpy_front old sa).
Proof.
  intros Hne Es He Hg. unfold parse_endpoint. rewrite Hretries. cbn [obind].
  destruct (Nat.eqb_spec (length v) 0); [by destruct v |]. rewrite Es.
  destruct fuel as [|k]; [lia |]. cbn [resolve_loop]. rewrite Hg. cbn [obind fst].
  by rewrite is_endpoint_inet.
Qed.

Lemma split_endpoint_bracket (host service : list byte) :
  forallb plain_char host = true -> service <> [] ->
  split_endpoint (text "[" ++ host ++ text "]:" ++ service) = Some (host, service).
Proof.
  intros Hh Hs. unfold split_endpoint. change (Byte.eqb _ "["%byte) with true. cbv iota.
  change (text "[" ++ host ++ text "]:" ++ service) with (("["%byte :: host) ++ "]"%byte :: ":"%byte :: service).
  rewrite strsep_app.
  - cbn [drop byte_at nth]. by destruct service.
  - intros [? | Hin]; [done |]. revert Hin. by apply (forallb_not_in plain_char).
Qed.

Lemma split_endpoint_plain (host service : list byte) :
  forallb plain_char host = true -> host <> [] -> service <> [] -> has_byte ":"%byte service = false ->
  split_endpoint (host ++ text ":" ++ service) = Some (host, service).
Proof.
  intros Hh Hne Hs Hc. unfold split_endpoint. destruct host as [|c host]; [done |].
  assert (Byte.eqb c "["%byte = false) as Hb.
  { apply byte_eqb_neq. intros ->. by cbn in Hh. }
  change (byte_at ((c :: host) ++ text ":" ++ service) 0) with c. rewrite Hb.
  change (text ":" ++ service) with (":"%byte :: service).
  rewrite split_last_app; [by destruct service |]. intros Hin. apply has_byte_iff in Hin. congruence.
Qed.

Lemma read_peer_endpoint (a : wgdevice) (pre : list wgpeer) (p : wgpeer) (ep rest : list byte) :
  endpoint_ok ep -> endpoint p = repeat x00 sizeof_sockaddr_in6 ->
  read_text (peer_ctx a pre p) (showconf_endpoint ep ++ rest)
  = read_text (peer_ctx a pre (p <| endpoint := image_endpoint ep |>)) rest.
Proof.
  unfold endpoint_ok, showconf_endpoint, image_endpoint. intros Hok H0.
  destruct (endpoint_addr ep) as [sa |] eqn:Ea; [| destruct p; cbn in H0; by subst].
  pose proof (endpoint_addr_family _ _ Ea) as Hfam.
  destruct (gai_nameinfo sa Hok) as (host & service & -> & Hg & Hh & Hhp & Hs & Hsp & Hsc & Hhc).
  pose proof (forallb_weaken _ _ _ plain_conf Hhp) as Hhc'.
  pose proof (forallb_weaken _ _ _ plain_conf Hsp) as Hsc'.
  assert (forall v, forallb conf_char v = true -> v <> [] -> split_endpoint v = Some (host, service) ->
    read_text (peer_ctx a pre p) (assign "Endpoint" v ++ rest)
    = read_text (peer_ctx a pre (p <| endpoint := memcpy_front (repeat x00 sizeof_sockaddr_in6) sa |>)) rest)
    as Hread.
  { intros v Hv Hne Hsplit. apply read_plain; [done | done |]. peer_key.
    rewrite (parse_endpoint_text host service (endpoint p) sa v), H0 by done. cbn [obind].
    by rewrite peer_ctx_update_keep. }
  destruct (_ && _).
  - apply Hread; [| done | by apply split_endpoint_bracket].
    by rewrite !forallb_app, Hhc', Hsc'.
  - apply Hread; [by rewrite !forallb_app, Hhc', Hsc' | by destruct host | by apply split_endpoint_plain].
Qed.

(** *** Peers *)

Lemma read_peer (a : wgdevice) (pre : list wgpeer) (ctx : config_ctx) (p : wgpeer) (rest : list byte) :
  wf_peer p -> endpoint_ok (endpoint p) ->
  device ctx = a <| peers := pre |> -> last_peer ctx = last_index pre ->
  read_text ctx (showconf_peer p ++ rest) = read_text (peer_ctx a pre (image_peer p)) rest.
Proof.
  intros [] Hep Hd Hl. unfold showconf_peer. rewrite <- !app_assoc.
  rewrite (read_bare _ (peer_ctx a pre (set_peer_flag WGPEER_REPLACE_ALLOWEDIPS zero_peer)));
    [| cbn; lia | done | done |].
  - rewrite read_peer_key, read_peer_preshared, read_peer_awg, read_peer_allowedips,
      read_peer_endpoint, read_peer_keepalive by done.
    f_equal. f_equal. unfold image_peer. cbn.
    destruct (has_flag (peer_flags p) WGPEER_HAS_AWG), (has_flag (peer_flags p) WGPEER_HAS_PRESHARED_KEY),
      (length (allowedips p) =? 0)%nat, (persistent_keepalive_interval p =? 0); reflexivity.
  - unfold process_line. change (strcasecmp_eq _ _) with false at 1. cbv iota.
    change (strcasecmp_eq _ _) with true. cbv iota.
    unfold peer_ctx. rewrite Hd, Hl. cbn. by rewrite link_after_last, linked_at_length.
Qed.

Lemma read_peers (a : wgdevice) (l : list wgpeer) (pre : list wgpeer) (ctx : config_ctx) :
  Forall wf_peer l -> Forall (fun p => endpoint_ok (endpoint p)) l ->
  device ctx = a <| peers := pre |> -> last_peer ctx = last_index pre ->
  exists ctx', read_text ctx (showconf_peers l) = Returns (Some ctx')
  /\ device ctx' = a <| peers := pre ++ map image_peer l |>.
Proof.
  intros Hw. revert pre ctx. induction Hw as [|p l Hp Hw IH]; intros pre ctx Hep Hd Hl.
  { exists ctx. by rewrite app_nil_r. }
  apply Forall_cons in Hep as [Hep Heps]. cbn [showconf_peers].
  rewrite (read_peer a pre) by done.
  destruct (IH (pre ++ [image_peer p]) (peer_ctx a pre (image_peer p))) as (ctx' & E & Hd');
    [done | done | |].
  { cbn. by rewrite <- linked_at_last, linked_at_length. }
  exists ctx'. rewrite Hd', <- app_assoc. split; [| done].
  destruct (negb _); cbn [print_if]; [by rewrite read_blank | done].
Qed.

Lemma image_peer_has_key (p : wgpeer) : has_flag (peer_flags (image_peer p)) WGPEER_HAS_PUBLIC_KEY = true.
Proof.
  unfold image_peer, flag_if. cbn [peer_flags].
  by repeat case_match.
Qed.

Lemma showconf_reads (append : bool) (d : wgdevice) : showable d ->
  config_read_text fuel append (showconf_text d) = Returns (Some (conf_image append d)).
Proof.
  intros Hsh. pose proof (read_interface append d (showconf_peers (peers d)) Hsh) as Hi.
  destruct Hsh as [[] Hep _ _ _ _ _ _ _ _ _].
  destruct (read_peers (conf_image append d) (peers d) []
    (dev_ctx ((conf_image append d) <| peers := [] |>))) as (ctx & E & Hd); [done .. |].
  unfold config_read_text. fold (read_text (config_read_init append) (showconf_text d)).
  unfold showconf_text. rewrite Hi, E. cbn [obind]. unfold config_read_finish. rewrite Hd.
  assert (forallb (fun p => has_flag (peer_flags p) WGPEER_HAS_PUBLIC_KEY)
            (map image_peer (peers d)) = true) as Hk.
  { apply forallb_forall. intros p (q & <- & _)%in_map_iff. apply image_peer_has_key. }
  cbn [app peers modify]. by rewrite Hk.
Qed.

(** C1: Round trip of the configuration format: the text [awg showconf] prints for a device,
    read back as [setconf] or [addconf] reads it, is accepted and yields exactly the
    device that holds what was printed: every number, key, header and junk string,
    every peer in order with its keys, allowed IPs, endpoint and keepalive. *)
Theorem showconf_roundtrip (append : bool) (d : wgdevice) : showable d ->
  config_read_text fuel append (showconf_text d) = Returns (Some (conf_image append d)).
Proof. apply showconf_reads. Qed.
End Roundtrip.

(** ** The printed text is a fixed point *)

Lemma has_flag_if (c : bool) (f x g : Z) :
  has_flag (flag_if c f x) g = has_flag x g || (c && has_flag f g).
Proof. destruct c; cbn [flag_if andb]; [apply has_flag_lor | by rewrite orb_false_r]. Qed.

(** The flags of the image are the flags of the device, apart from those the reader
    always raises. *)
Lemma image_flags_keep (d : wgdevice) (f : Z) :
  In f [WGDEVICE_HAS_PRIVATE_KEY; WGDEVICE_HAS_JC; WGDEVICE_HAS_JMIN; WGDEVICE_HAS_JMAX;
        WGDEVICE_HAS_S1; WGDEVICE_HAS_S2; WGDEVICE_HAS_S3; WGDEVICE_HAS_S4; WGDEVICE_HAS_H1;
        WGDEVICE_HAS_H2; WGDEVICE_HAS_H3; WGDEVICE_HAS_H4; WGDEVICE_HAS_I1; WGDEVICE_HAS_I2;
        WGDEVICE_HAS_I3; WGDEVICE_HAS_I4; WGDEVICE_HAS_I5] ->
  has_flag (image_flags true d) f = has_flag (flags d) f.
Proof.
  intros Hf. unfold image_flags. cbn [fold_left]. rewrite !has_flag_if.
  cbn [In] in Hf.
  repeat (destruct Hf as [<- | Hf]; [
    repeat match goal with |- context [has_flag ?x ?y] => 
      lazymatch x with
      | flags _ => fail
      | _ => let r := eval vm_compute in (has_flag x y) in change (has_flag x y) with r
      end end; rewrite ?andb_false_r, ?andb_true_r, ?orb_false_r; reflexivity |]).
  done.
Qed.

Lemma print_if_keep {T} (c : bool) (k : string) (f : T -> list byte) (x y : T) :
  print_if c (assign k (f (if c then x else y))) = print_if c (assign k (f x)).
Proof. by destruct c. Qed.

Section FixedPoint.
Context `{N : NetLib}.

Lemma showconf_interface_image (d : wgdevice) :
  showconf_interface (conf_image true d) = showconf_interface d.
Proof.
  unfold showconf_interface. change (flags (conf_image true d)) with (image_flags true d).
  rewrite !image_flags_keep by (cbn; tauto). cbn [conf_image listen_port fwmark private_key
    junk_packet_count junk_packet_min_size junk_packet_max_size init_packet_junk_size
    response_packet_junk_size cookie_reply_packet_junk_size transport_packet_junk_size
    init_packet_magic_header response_packet_magic_header underload_packet_magic_header
    transport_packet_magic_header i1 i2 i3 i4 i5].
  rewrite (print_if_keep _ "PrivateKey" key_to_base64).
  rewrite !(print_if_keep _ _ print_u), !(print_if_keep _ _ print_s). reflexivity.
Qed.

Lemma showconf_allowedips_image (l : list wgallowedip) : Forall wf_allowedip l ->
  showconf_allowedips (map image_allowedip l) = showconf_allowedips l.
Proof.
  induction 1 as [|a l [Hl Hf] _ IH]; [done |]. cbn [map showconf_allowedips].
  rewrite IH, length_map. f_equal. f_equal. unfold allowedip_text, image_allowedip, ip4, ip6. cbn.
  destruct Hf as [[-> _] | [-> _]]; cbn [Z.eqb]; [| done].
  cbn. unfold ip4. by rewrite take_app_length' by (rewrite length_take; lia).
Qed.

Lemma endpoint_addr_image (ep : list byte) : endpoint_ok ep ->
  endpoint_addr (image_endpoint ep) = endpoint_addr ep /\
  (forall sa, endpoint_addr ep = Some sa -> sa_family (image_endpoint ep) = sa_family ep).
Proof.
  unfold endpoint_ok, image_endpoint. destruct (endpoint_addr ep) as [sa |] eqn:E; [| done].
  intros He. pose proof (endpoint_addr_family _ _ E) as Hf.
  assert (sa_family (memcpy_front (repeat x00 sizeof_sockaddr_in6) sa) = sa_family ep) as Hfm.
  { rewrite <- Hf. by destruct He. }
  split; [| done]. unfold endpoint_addr. rewrite Hfm, <- Hf.
  assert (sa_family sa = AF_INET /\ length sa = sizeof_sockaddr_in
          \/ sa_family sa = AF_INET6 /\ length sa = sizeof_sockaddr_in6) as Hl.
  { destruct He as [port addr Hp Ha | port addr Hp Ha]; [left | right]; (split; [done |]);
      unfold sockaddr_in, sockaddr_in6; by rewrite !length_app, Hp, Ha. }
  unfold memcpy_front. destruct Hl as [[-> Hl] | [-> Hl]]; cbn [Z.eqb]; f_equal; by apply take_app_length'.
Qed.

Lemma showconf_endpoint_image (ep : list byte) : endpoint_ok ep ->
  showconf_endpoint (image_endpoint ep) = showconf_endpoint ep.
Proof.
  intros He. destruct (endpoint_addr_image ep He) as [Ea Ef]. unfold showconf_endpoint.
  rewrite Ea. destruct (endpoint_addr ep) as [sa |]; [| done]. by rewrite (Ef sa).
Qed.

Lemma showconf_peer_image (p : wgpeer) : wf_peer p -> endpoint_ok (endpoint p) ->
  showconf_peer (image_peer p) = showconf_peer p.
Proof.
  intros Hw He. unfold showconf_peer.
  assert (forall f, In f [WGPEER_HAS_PRESHARED_KEY; WGPEER_HAS_AWG] ->
    has_flag (peer_flags (image_peer p)) f = has_flag (peer_flags p) f) as Hf.
  { intros f Hf. cbn [image_peer peer_flags]. rewrite !has_flag_if.
    cbn [In] in Hf. destruct Hf as [<- | [<- | []]];
      destruct (negb _), (has_flag (peer_flags p) WGPEER_HAS_AWG),
        (has_flag (peer_flags p) WGPEER_HAS_PRESHARED_KEY); reflexivity. }
  rewrite !Hf by (cbn; tauto). cbn [image_peer peer_public_key preshared_key endpoint awg allowedips
    persistent_keepalive_interval].
  rewrite (print_if_keep _ "PresharedKey" key_to_base64).
  rewrite (print_if_keep _ "AdvancedSecurity" (fun b : bool => if b then text "on" else text "off")).
  by rewrite length_map, showconf_allowedips_image, showconf_endpoint_image by (done || by destruct Hw).
Qed.

(** The device read back prints as the same text, so [showconf] and [addconf] agree on
    what a configuration says: nothing that was printed is lost or altered. *)
Theorem showconf_image (d : wgdevice) : showable d ->
  showconf_text (conf_image true d) = showconf_text d.
Proof.
  intros [[] Hep _ _ _ _ _ _ _ _ _]. unfold showconf_text. rewrite showconf_interface_image.
  f_equal. cbn [conf_image peers]. clear -wf_peers Hep.
  induction wf_peers as [|p l Hp _ IH]; [done |]. apply Forall_cons in Hep as [He Hes].
  cbn [map showconf_peers]. by rewrite showconf_peer_image, IH, length_map.
Qed.
End FixedPoint.

(** ** Witnesses *)

Section Witnesses.
#[local] Existing Instance lp64_x86.
#[local] Existing Instance numeric_net.

Definition shown_peer : wgpeer :=
  WgPeer (Z.lor WGPEER_HAS_PUBLIC_KEY (Z.lor WGPEER_HAS_PRESHARED_KEY WGPEER_HAS_AWG))
    (map z2b (seqZ 1 32)) (map z2b (seqZ 201 32))
    (sockaddr_in [x12; x34] [x0a; x00; x00; x01] ++ repeat x00 12) (Timespec64 0 0) 5 6 25 true
    [WgAllowedip AF_INET (x0a :: repeat x00 15) 8;
     WgAllowedip AF_INET6 (map z2b (seqZ 3 16)) 64].

Definition shown_device : wgdevice :=
  zero_device <| listen_port := 51820 |> <| fwmark := 255 |> <| private_key := map z2b (seqZ 90 32) |>
    <| junk_packet_count := 4 |> <| init_packet_magic_header := Some (text "5-10") |>
    <| i1 := Some (text "<b 0x01> <r 10>") |> <| peers := [shown_peer; shown_peer] |>
    <| flags := Z.lor WGDEVICE_HAS_PRIVATE_KEY (Z.lor WGDEVICE_HAS_JC
                  (Z.lor WGDEVICE_HAS_H1 WGDEVICE_HAS_I1)) |>.

Lemma shown_device_ok : showable shown_device.
Proof.
  assert (wf_peer shown_peer).
  { constructor; try done. apply Forall_cons. split; [| apply Forall_singleton];
      (constructor; [done |]); [left | right]; (split; [done | cbn; lia]). }
  assert (endpoint_ok (endpoint shown_peer)).
  { apply (EndpointIn [x12; x34] [x0a; x00; x00; x01]); done. }
  constructor; try (vm_compute; discriminate).
  - constructor; try done. by repeat (apply Forall_cons; split).
  - by repeat (apply Forall_cons; split).
  - intros _. by eexists.
  - intros _. by eexists.
Qed.

Lemma showconf_roundtrip_witness :
  config_read_text 1 false (showconf_text shown_device) = Returns (Some (conf_image false shown_device)).
Proof.
  apply (showconf_roundtrip 1 15).
  - reflexivity.
  - lia.
  - apply shown_device_ok.
Defined.

Lemma showconf_image_witness : showconf_text (conf_image true shown_device) = showconf_text shown_device.
Proof. apply (showconf_image shown_device). apply shown_device_ok. Defined.
End Witnesses.
