(* ===== verification/CSort.v ===== *)
(** * [qsort] and [memcmp], as an interface

    The programs sort through [qsort], whose algorithm is the library's: [CSort] is a
    sorting function for every comparison, [CSortLaws] its documented behaviour.  An
    insertion sort satisfies the laws. *)

From Stdlib Require Import Sorted Permutation.
From S2P Require Import Prelude.
#[local] Open Scope Z_scope.

(** The sign of [memcmp(a, b, n)] on two objects of [n] bytes, extended to a total order
    on objects of any size. *)
Fixpoint memcmp (a b : list byte) : Z :=
  match a, b with
  | x :: a', y :: b' => if Byte.eqb x y then memcmp a' b' else b2z x - b2z y
  | [], [] => 0
  | [], _ :: _ => -1
  | _ :: _, [] => 1
  end.

Class CSort := qsort : forall {A : Type}, (A -> A -> Z) -> list A -> list A.

(** A comparison function is consistent: a total preorder. *)
Record comparison {A} (cmp : A -> A -> Z) : Prop := Comparison {
  cmp_total : forall x y, cmp x y <= 0 \/ cmp y x <= 0;
  cmp_trans : forall x y z, cmp x y <= 0 -> cmp y z <= 0 -> cmp x z <= 0;
}.

Class CSortLaws (S : CSort) := {
  qsort_perm : forall {A} (cmp : A -> A -> Z) l, Permutation (qsort cmp l) l;
  qsort_sorted : forall {A} (cmp : A -> A -> Z) l, comparison cmp ->
    StronglySorted (fun x y => cmp x y <= 0) (qsort cmp l);
  (** The array is ordered by the answers of the comparison, which is called on elements of
      the array. *)
  qsort_ext : forall {A} (cmp cmp' : A -> A -> Z) l,
    (forall x y, In x l -> In y l -> cmp x y = cmp' x y) -> qsort cmp l = qsort cmp' l;
}.

Section InsertionSort.
Context {A : Type} (cmp : A -> A -> Z).

Fixpoint insert_sorted (x : A) (l : list A) : list A :=
  match l with
  | [] => [x]
  | y :: l' => if cmp x y <=? 0 then x :: l else y :: insert_sorted x l'
  end.

Definition insertion_sort (l : list A) : list A := fold_right insert_sorted [] l.

Lemma insert_sorted_perm (x : A) (l : list A) : Permutation (insert_sorted x l) (x :: l).
Proof.
  induction l as [|y l IH]; cbn; [done |]. destruct (_ <=? _); [done |].
  rewrite IH. apply perm_swap.
Qed.

Lemma insertion_sort_perm (l : list A) : Permutation (insertion_sort l) l.
Proof.
  induction l as [|x l IH]; cbn; [done |]. rewrite insert_sorted_perm. by apply perm_skip.
Qed.

Lemma insert_sorted_sorted (x : A) (m : list A) : comparison cmp ->
  StronglySorted (fun x y => cmp x y <= 0) m -> StronglySorted (fun x y => cmp x y <= 0) (insert_sorted x m).
Proof.
  intros [Ht Htr]. induction 1 as [|y m Hm IHm Hy]; cbn; [repeat constructor |].
  destruct (Z.leb_spec (cmp x y) 0) as [Hle | Hgt].
  - constructor; [by constructor |]. apply Forall_cons. split; [done |].
    eapply Forall_impl; [exact Hy |]. cbn. eauto.
  - constructor; [done |]. rewrite insert_sorted_perm. apply Forall_cons. split; [| done].
    destruct (Ht x y); [lia | done].
Qed.

Lemma insertion_sort_sorted (l : list A) : comparison cmp ->
  StronglySorted (fun x y => cmp x y <= 0) (insertion_sort l).
Proof. intros Hc. induction l; cbn; [constructor | by apply insert_sorted_sorted]. Qed.
End InsertionSort.

Lemma insertion_sort_ext {A} (cmp cmp' : A -> A -> Z) (l : list A) :
  (forall x y, In x l -> In y l -> cmp x y = cmp' x y) -> insertion_sort cmp l = insertion_sort cmp' l.
Proof.
  intros He. unfold insertion_sort. induction l as [|x l IH]; cbn [fold_right]; [done |].
  rewrite IH by (intros; apply He; by right). clear IH.
  assert (forall y, In y (insertion_sort cmp' l) -> In y l) as Hin.
  { intros y. apply Permutation_in, insertion_sort_perm. }
  unfold insertion_sort in Hin. revert Hin. generalize (fold_right (insert_sorted cmp') [] l) as m.
  induction m as [|y m IHm]; intros Hin; cbn [insert_sorted]; [done |].
  rewrite (He x y); [| by left | right; apply Hin; by left].
  by rewrite IHm by (intros; apply Hin; by right).
Qed.

Definition insertion_csort : CSort := fun A cmp l => insertion_sort cmp l.

#[export] Instance insertion_csort_laws : CSortLaws insertion_csort.
Proof.
  split; intros; [apply insertion_sort_perm | by apply insertion_sort_sorted | by apply insertion_sort_ext].
Qed.

(** ** The order of [memcmp] *)

Lemma memcmp_refl (a : list byte) : memcmp a a = 0.
Proof. induction a; cbn; [done |]. by rewrite byte_eqb_refl. Qed.

Lemma memcmp_eq (a b : list byte) : memcmp a b = 0 <-> a = b.
Proof.
  split; [| intros ->; apply memcmp_refl]. revert b.
  induction a as [|x a IH]; intros [|y b]; cbn; try done.
  destruct (Byte.eqb x y) eqn:E.
  - apply byte_eqb_eq in E as ->. intros Hm. f_equal. by apply IH.
  - apply byte_eqb_neq in E. intros Hm. destruct E. apply b2z_inj. lia.
Qed.

Lemma memcmp_swap (a b : list byte) : memcmp a b = - memcmp b a.
Proof.
  revert b. induction a as [|x a IH]; intros [|y b]; cbn; try done.
  destruct (Byte.eqb x y) eqn:E.
  - apply byte_eqb_eq in E as ->. by rewrite byte_eqb_refl.
  - assert (Byte.eqb y x = false) as -> by (apply byte_eqb_neq; apply byte_eqb_neq in E; done). lia.
Qed.

Lemma memcmp_trans (a b c : list byte) : memcmp a b <= 0 -> memcmp b c <= 0 -> memcmp a c <= 0.
Proof.
  revert b c. induction a as [|x a IH]; intros [|y b] [|z c]; cbn; try done.
  destruct (Byte.eqb x y) eqn:E1, (Byte.eqb y z) eqn:E2;
    rewrite ?byte_eqb_eq, ?byte_eqb_neq in *; subst; rewrite ?byte_eqb_refl.
  - by apply IH.
  - intros _ H. by rewrite (proj2 (byte_eqb_neq _ _) E2).
  - intros H _. by rewrite (proj2 (byte_eqb_neq _ _) E1).
  - intros H H'. assert (b2z x <> b2z y) by (intros ?%b2z_inj; done).
    assert (b2z y <> b2z z) by (intros ?%b2z_inj; done).
    assert (Byte.eqb x z = false) as ->; [| lia].
    apply byte_eqb_neq. intros ->. lia.
Qed.
