(* ===== verification/Terminal.v ===== *)
(** * Terminal output (src/terminal.c, src/terminal.h)

    [filter_ansi] prints a formatted string, without its escape sequences unless colours
    are on: it overwrites them with NULs in place, then prints what lies between. *)

From S2P Require Import Prelude Ctype CString NetLib.
#[local] Open Scope Z_scope.

Definition ESC : byte := x1b.

(** The sequence ESC \[ code m. *)
Definition term_sgr (code : string) : list byte := ESC :: text "[" ++ text code ++ text "m".
Definition TERMINAL_FG_RED : list byte := term_sgr "31".
Definition TERMINAL_FG_GREEN : list byte := term_sgr "32".
Definition TERMINAL_FG_YELLOW : list byte := term_sgr "33".
Definition TERMINAL_FG_CYAN : list byte := term_sgr "36".
Definition TERMINAL_BOLD : list byte := term_sgr "1".
Definition TERMINAL_RESET : list byte := term_sgr "0".

(** [color_mode]: the environment decides, or else whether the output is a terminal. *)
Definition color_mode `{NetLib} (isatty : bool) : bool :=
  match getenv (text "WG_COLOR_MODE") with
  | Some var =>
      if strcmp_eq var (text "always") then true
      else if strcmp_eq var (text "never") then false
      else isatty
  | None => isatty
  end.

Section Terminal.
Context `{Platform}.

Definition is_alpha_char (c : byte) : bool := char_is_alpha (char_val c).

(** Where the first pass is: before a sequence, on its bracket, or inside it. *)
Inductive blank_state := Outside | OnBracket | Inside.

(** The first pass of [filter_ansi]; a sequence is looked for only where at least three
    characters are left. *)
Fixpoint blank_ansi (st : blank_state) (str : list byte) : list byte :=
  match str with
  | [] => []
  | c :: rest =>
      match st with
      | Outside =>
          if (3 <=? length str)%nat && Byte.eqb c ESC && Byte.eqb (byte_at rest 0) "["%byte
          then x00 :: blank_ansi OnBracket rest
          else c :: blank_ansi Outside rest
      | OnBracket => x00 :: blank_ansi Inside rest
      | Inside => x00 :: blank_ansi (if is_alpha_char c then Outside else Inside) rest
      end
  end.

Fixpoint skip_nuls (str : list byte) : list byte :=
  match str with
  | c :: rest => if Byte.eqb c x00 then skip_nuls rest else str
  | [] => []
  end.

(** The second pass: [fputs] of each run between NULs, with the number of turns left. *)
Fixpoint put_runs (fuel : nat) (str : list byte) : list byte :=
  match fuel with
  | O => []
  | S fuel' =>
      match str with
      | [] => []
      | _ => c_str str ++ put_runs fuel' (skip_nuls (drop (length (c_str str)) str))
      end
  end.

(** What is printed of the formatted string. *)
Definition filter_ansi (color_mode : bool) (str : list byte) : list byte :=
  if color_mode then str
  else
    let str := if (2 <=? length str)%nat then blank_ansi Outside str else str in
    put_runs (S (length str)) str.

End Terminal.

(** ** What is left of a string *)

(** A string as text and escape sequences: ESC, bracket, parameters, letter. *)
Inductive segment :=
| Plain (t : list byte)
| Sequence (params : list byte) (letter : byte).

Definition render (s : segment) : list byte :=
  match s with
  | Plain t => t
  | Sequence params letter => ESC :: "["%byte :: params ++ [letter]
  end.

Definition plain_text (s : segment) : list byte :=
  match s with
  | Plain t => t
  | Sequence _ _ => []
  end.

Section Filter.
Context `{Platform}.

Definition segment_ok (s : segment) : Prop :=
  match s with
  | Plain t => ~ In ESC t /\ ~ In x00 t
  | Sequence params letter => forallb (fun c => negb (is_alpha_char c)) params = true
                              /\ is_alpha_char letter = true
  end.

Definition not_nul (c : byte) : bool := negb (Byte.eqb c x00).

Lemma blank_plain (t rest : list byte) : ~ In ESC t ->
  blank_ansi Outside (t ++ rest) = t ++ blank_ansi Outside rest.
Proof.
  induction t as [|c t IH]; intros Ht; [done |]. cbn [app blank_ansi In] in *.
  assert (Byte.eqb c ESC = false) as -> by (apply byte_eqb_neq; tauto).
  rewrite andb_false_r. cbn [andb]. f_equal. apply IH. tauto.
Qed.

Lemma blank_params (params : list byte) (letter : byte) (rest : list byte) :
  forallb (fun c => negb (is_alpha_char c)) params = true -> is_alpha_char letter = true ->
  blank_ansi Inside (params ++ letter :: rest)
  = repeat x00 (S (length params)) ++ blank_ansi Outside rest.
Proof.
  intros Hp Hl. induction params as [|c params IH]; cbn [app blank_ansi].
  - by rewrite Hl.
  - cbn [forallb] in Hp. apply andb_true_iff in Hp as [Hc%negb_true_iff Hp]. rewrite Hc. cbn. f_equal. by apply IH.
Qed.

Lemma filter_repeat_nul (n : nat) : List.filter not_nul (repeat x00 n) = [].
Proof. by induction n. Qed.

Lemma filter_not_nul (t : list byte) : ~ In x00 t -> List.filter not_nul t = t.
Proof.
  induction t as [|c t IH]; intros Ht; [done |]. cbn [List.filter In] in *.
  assert (not_nul c = true) as -> by (unfold not_nul; apply negb_true_iff, byte_eqb_neq; intros ->; tauto).
  f_equal. apply IH. tauto.
Qed.

Lemma blank_segments (segs : list segment) : Forall segment_ok segs ->
  List.filter not_nul (blank_ansi Outside (concat (map render segs))) = concat (map plain_text segs).
Proof.
  induction 1 as [|s segs Hs _ IH]; [done |]. cbn [map concat]. destruct s as [t | params letter].
  - destruct Hs as [He Hn]. cbn [render plain_text].
    by rewrite blank_plain, List.filter_app, IH, filter_not_nul.
  - destruct Hs as [Hp Hl]. cbn [render plain_text app].
    change (blank_ansi Outside (ESC :: ("["%byte :: (params ++ [letter]) ++ concat (map render segs))))
      with (if (3 <=? length (ESC :: "["%byte :: (params ++ [letter]) ++ concat (map render segs)))%nat && true && true
            then x00 :: x00 :: blank_ansi Inside ((params ++ [letter]) ++ concat (map render segs))
            else ESC :: blank_ansi Outside ("["%byte :: (params ++ [letter]) ++ concat (map render segs))).
    assert ((3 <=? length (ESC :: "["%byte :: (params ++ [letter]) ++ concat (map render segs)))%nat = true) as ->.
    { apply Nat.leb_le. cbn [length]. rewrite !length_app. cbn. lia. }
    cbn [andb]. rewrite <- app_assoc. cbn [app]. rewrite blank_params by done.
    cbn [List.filter]. change (not_nul x00) with false. cbv iota.
    by rewrite List.filter_app, filter_repeat_nul.
Qed.

Lemma put_runs_filter (fuel : nat) (str : list byte) : (length str < fuel)%nat ->
  put_runs fuel str = List.filter not_nul str.
Proof.
  revert str. induction fuel as [|fuel IH]; intros str Hf; [lia |]. cbn [put_runs].
  assert (forall s, (length (skip_nuls s) <= length s)%nat
                    /\ List.filter not_nul (skip_nuls s) = List.filter not_nul s) as Hskip.
  { induction s as [|c s IHs]; [done |]. cbn [skip_nuls].
    destruct (Byte.eqb c x00) eqn:E; [| done]. cbn [length List.filter]. unfold not_nul at 2. rewrite E.
    destruct IHs. split; [lia | done]. }
  assert (forall s, List.filter not_nul s = c_str s ++ List.filter not_nul (drop (length (c_str s)) s)) as Hrun.
  { induction s as [|c s IHs]; [done |]. cbn [c_str]. destruct (Byte.eqb c x00) eqn:E; [done |].
    cbn [length drop app List.filter]. unfold not_nul at 1. rewrite E. cbn [negb]. f_equal. exact IHs. }
  destruct str as [|c str]; [done |].
  rewrite (Hrun (c :: str)). f_equal. destruct (Hskip (drop (length (c_str (c :: str))) (c :: str))) as [Hl <-].
  apply IH. cbn [c_str] in *. destruct (Byte.eqb c x00) eqn:E.
  - cbn [length drop skip_nuls]. rewrite E. destruct (Hskip str) as [Hl' _]. cbn in Hf. lia.
  - rewrite length_drop in Hl. cbn [length] in *. lia.
Qed.

Lemma blank_ansi_length (st : blank_state) (str : list byte) : length (blank_ansi st str) = length str.
Proof.
  revert st. induction str as [|c str IH]; intros st; [done |]. cbn [blank_ansi].
  destruct st; [destruct (_ && _) | |]; cbn [length]; by rewrite IH.
Qed.

(** Without colours, [filter_ansi] prints a string minus its escape sequences: all the text
    between them, and nothing of them, wherever they occur. *)
Theorem filter_ansi_plain (segs : list segment) : Forall segment_ok segs ->
  filter_ansi false (concat (map render segs)) = concat (map plain_text segs).
Proof.
  intros Hs. unfold filter_ansi. rewrite <- (blank_segments segs Hs).
  destruct (Nat.leb_spec 2 (length (concat (map render segs)))) as [H2 | H2].
  - apply put_runs_filter. rewrite blank_ansi_length. lia.
  - rewrite put_runs_filter by lia. f_equal.
    destruct (concat (map render segs)) as [|a [|b l]]; [done | done | cbn in H2; lia].
Qed.
End Filter.

Lemma filter_ansi_plain_witness :
  @filter_ansi lp64_x86 false (concat (map render [Plain (text "a"); Sequence (text "31;1") "m"%byte; Plain (text "b")]))
  = text "ab".
Proof.
  apply (@filter_ansi_plain lp64_x86 [Plain (text "a"); Sequence (text "31;1") "m"%byte; Plain (text "b")]).
  repeat (apply Forall_cons; split; [vm_compute; intuition discriminate |]). apply Forall_nil. exact I.
Defined.
