(* ===== verification/Ipc.v ===== *)
(** * The device interface and the list of interface names (src/ipc.c)

    [string_list] is the growing buffer in which the names of the interfaces are
    collected, each with its NUL and the whole with one more; [name_loop] is the loop
    with which [awg show] walks over it.  [Ipc] is what the commands know of a device:
    they read it with [ipc_get_device] and change it with [ipc_set_device]. *)

From S2P Require Import Prelude CString Containers.
#[local] Open Scope nat_scope.

(** ** [struct string_list] *)

Record string_list := StringList {
  buffer : list byte;
  len : nat;
}.

(** The capacity is the size of the buffer. *)
Definition cap (l : string_list) : nat := length (buffer l).

Definition empty_list : string_list := StringList [] 0.

(** [memcpy] of [s] at offset [i] of a buffer. *)
Definition store (buf : list byte) (i : nat) (s : list byte) : list byte :=
  take i buf ++ s ++ drop (i + length s) buf.

Section StringList.
(** What the bytes hold that [realloc] adds, by offset. *)
Context (fresh : nat -> byte).

Definition realloc (buf : list byte) (new_cap : nat) : list byte :=
  take new_cap buf ++ map fresh (seq (length buf) (new_cap - length buf)).

(** [str] is a C string; its length counts the NUL. *)
Definition string_list_add (l : string_list) (str : list byte) : string_list :=
  let n := length str + 1 in
  if n =? 1 then l
  else
    let l :=
      if cap l - len l <=? n then
        let new_cap := cap l * 2 in
        let new_cap := if new_cap <? len l + n + 1 then len l + n + 1 else new_cap in
        StringList (realloc (buffer l) new_cap) (len l)
      else l in
    let buf := store (buffer l) (len l) (str ++ [x00]) in
    StringList (store buf (len l + n) [x00]) (len l + n).

(** [ipc_list_devices], given the names the back ends report: the buffer, or an empty
    string when nothing was ever added. *)
Definition ipc_list_devices (names : list (list byte)) : list byte :=
  let l := fold_left string_list_add names empty_list in
  if cap l =? 0 then [x00] else buffer l.

End StringList.

(** The loop [for (interface = interfaces; (len = strlen(interface)); interface += len + 1)]
    over a buffer, with the number of turns left. *)
Fixpoint name_loop (fuel : nat) (buf : list byte) : option (list (list byte)) :=
  match fuel with
  | O => None
  | S fuel' =>
      let name := c_str buf in
      if length name =? 0 then Some []
      else match name_loop fuel' (drop (length name + 1) buf) with
           | Some names => Some (name :: names)
           | None => None
           end
  end.

(** ** Strings that may be NULL *)

(** The status of a process that follows a NULL pointer. *)
Definition SEGV : Z := 128 + 11.

(** The strings of a device, each with its flag. *)
Definition device_strings (dev : wgdevice) : list (Z * option (list byte)) :=
  [(WGDEVICE_HAS_H1, init_packet_magic_header dev); (WGDEVICE_HAS_H2, response_packet_magic_header dev);
   (WGDEVICE_HAS_H3, underload_packet_magic_header dev); (WGDEVICE_HAS_H4, transport_packet_magic_header dev);
   (WGDEVICE_HAS_I1, i1 dev); (WGDEVICE_HAS_I2, i2 dev); (WGDEVICE_HAS_I3, i3 dev); (WGDEVICE_HAS_I4, i4 dev);
   (WGDEVICE_HAS_I5, i5 dev)].

(** Every string whose flag is set is there.  The configuration reader sets the flag of an
    empty value and leaves its string NULL, which the back ends then hand to [strlen] or
    [strtoul]. *)
Definition strings_present (dev : wgdevice) : bool :=
  forallb (fun '(flag, s) => implb (has_flag (flags dev) flag) (bool_decide (is_Some s))) (device_strings dev).

(** A write under its flag, which may follow a NULL pointer. *)
Definition when {A} (c : bool) (f : A -> option A) (m : A) : option A := if c then f m else Some m.

(** The flag of a string implies the string. *)
Lemma present_string (dev : wgdevice) (f : Z) (s : option (list byte)) : strings_present dev = true ->
  In (f, s) (device_strings dev) -> has_flag (flags dev) f = true -> is_Some s.
Proof.
  unfold strings_present. rewrite forallb_forall. intros Hp Hin Hf. specialize (Hp _ Hin). cbv beta match in Hp.
  rewrite Hf in Hp. by apply bool_decide_eq_true in Hp.
Qed.

Lemma present_default (dev : wgdevice) (f : Z) (s : option (list byte)) : strings_present dev = true ->
  In (f, s) (device_strings dev) ->
  (if has_flag (flags dev) f then Some (default [] s) else None) = if has_flag (flags dev) f then s else None.
Proof.
  intros Hp Hin. destruct (has_flag (flags dev) f) eqn:Hf; [| done].
  by destruct (present_string dev f s Hp Hin Hf) as [t ->].
Qed.

(** A string is written under its flag, and the call ends when it is NULL. *)
Lemma when_present {A R} (c : bool) (s : option (list byte)) (f : list byte -> A -> A) (m : A) (k : A -> option R) :
  when c (fun m => t ← s; Some (f t m)) m ≫= k
  = if implb c (bool_decide (is_Some s)) then k (if c then f (default [] s) m else m) else None.
Proof. destruct c, s; done. Qed.

(** ** The devices *)

Class Ipc := {
  (** The device [ipc_get_device] fills in when it returns 0. *)
  ipc_get_device : list byte -> option wgdevice;
  (** Whether [ipc_set_device] returns 0. *)
  ipc_set_device : wgdevice -> bool;
}.

(** ** The names are collected and walked over *)

Definition is_name (s : list byte) : Prop := ~ In x00 s.

(** The names, each with its NUL. *)
Definition packed (names : list (list byte)) : list byte := concat (map (fun s => s ++ [x00]) names).

(** The buffer holds the names and one more NUL; it is not allocated before the first. *)
Definition holds (l : string_list) (names : list (list byte)) : Prop :=
  len l = length (packed names)
  /\ match names with
     | [] => buffer l = []
     | _ => exists rest, buffer l = packed names ++ x00 :: rest
     end.

Lemma store_app (a b c s : list byte) : length b = length s ->
  store (a ++ b ++ c) (length a) s = a ++ s ++ c.
Proof.
  intros Hl. unfold store. rewrite take_app_length. f_equal. f_equal.
  rewrite drop_app_ge by lia. replace (length a + length s - length a) with (length b) by lia.
  apply drop_app_length.
Qed.

Lemma string_list_add_holds (fresh : nat -> byte) (l : string_list) (names : list (list byte)) (s : list byte) :
  holds l names -> s <> [] -> holds (string_list_add fresh l s) (names ++ [s]).
Proof.
  intros [Hlen Hbuffer] Hs. set (pre := packed names) in *.
  assert (exists rest, buffer l = pre ++ rest) as [rest Hbuf].
  { destruct names; [by exists [] | destruct Hbuffer as [rest ->]; by eexists]. }
  assert (packed (names ++ [s]) = pre ++ s ++ [x00]) as Hcat.
  { unfold packed. by rewrite map_app, concat_app; cbn; rewrite app_nil_r. }
  unfold string_list_add. destruct (Nat.eqb_spec (length s + 1) 1) as [E1 | _]; [destruct s; cbn in *; [done | lia] |].
  set (n := length s + 1) in *.
  (* the buffer has room for the string and the two NULs *)
  match goal with |- context [store (buffer ?x) _ _] => set (l1 := x) end.
  assert (exists b z c, buffer l1 = pre ++ b ++ z :: c /\ length b = n /\ len l1 = length pre)
    as (b & z & c & Hb & Hbl & Hl1).
  { assert (exists rest', buffer l1 = pre ++ rest' /\ n < length rest' /\ len l1 = length pre)
      as (r & Hr & Hn & Hl).
    { subst l1. unfold cap. destruct (Nat.leb_spec (length (buffer l) - len l) n) as [Hfull | Hroom].
      - cbv zeta. match goal with |- context [realloc _ _ ?c] => set (nc := c) end.
        assert (len l + n + 1 <= nc /\ length (buffer l) <= nc) as [Hnc Hold].
        { subst nc. rewrite Hbuf, length_app in *.
          destruct (Nat.ltb_spec ((length pre + length rest) * 2) (len l + n + 1)); lia. }
        exists (rest ++ map fresh (seq (length (buffer l)) (nc - length (buffer l)))).
        cbn [buffer len]. unfold realloc. rewrite take_ge by lia. rewrite Hbuf at 1.
        rewrite <- app_assoc, length_app, length_map, length_seq. split; [done |].
        rewrite Hbuf, length_app in *. split; [lia | done].
      - exists rest. split; [done |]. rewrite Hbuf, length_app in Hroom. split; [lia | done]. }
    rewrite <- (take_drop n r) in Hr. destruct (drop n r) as [|z c] eqn:E.
    - apply (f_equal length) in E. rewrite length_drop in E. cbn in E. lia.
    - exists (take n r), z, c. rewrite length_take. split; [done |]. split; [lia | done]. }
  assert (length (s ++ [x00]) = n) as Hsn by (rewrite length_app; done).
  split; cbn [len buffer].
  - rewrite Hcat, Hl1, !length_app. cbn. lia.
  - assert (exists rest', store (store (buffer l1) (len l1) (s ++ [x00])) (len l1 + n) [x00]
              = packed (names ++ [s]) ++ x00 :: rest') as Hend; [| by destruct names].
    exists c. rewrite Hcat, Hb, Hl1, store_app by lia.
    replace (pre ++ (s ++ [x00]) ++ z :: c) with ((pre ++ s ++ [x00]) ++ [z] ++ c) by by rewrite <- !app_assoc.
    replace (length pre + n) with (length (pre ++ s ++ [x00])) by (rewrite length_app; lia).
    by rewrite store_app.
Qed.

Lemma string_list_adds_hold (fresh : nat -> byte) (adds : list (list byte)) (l : string_list)
    (names : list (list byte)) : holds l names ->
  holds (fold_left (string_list_add fresh) adds l)
    (names ++ List.filter (fun s => negb (length s =? 0)) adds).
Proof.
  revert l names. induction adds as [|s adds IH]; intros l names H; cbn [fold_left List.filter].
  { by rewrite app_nil_r. }
  destruct (Nat.eqb_spec (length s) 0) as [E | E]; cbn [negb].
  - destruct s; [| done]. apply (IH l names H).
  - replace (names ++ s :: _) with ((names ++ [s]) ++ List.filter (fun s => negb (length s =? 0)) adds)
      by (by rewrite <- app_assoc).
    apply IH, string_list_add_holds; [done |]. by intros ->.
Qed.

Lemma c_str_app (s rest : list byte) : is_name s -> c_str (s ++ x00 :: rest) = s.
Proof.
  unfold is_name. induction s as [|c s IH]; cbn; intros H; [done |].
  destruct (Byte.eqb c x00) eqn:E; [apply byte_eqb_eq in E; tauto |]. f_equal. apply IH. tauto.
Qed.

Lemma name_loop_names (names : list (list byte)) (rest : list byte) (fuel : nat) :
  Forall (fun s => is_name s /\ s <> []) names -> length names < fuel ->
  name_loop fuel (packed names ++ x00 :: rest) = Some names.
Proof.
  intros Hn. revert fuel. induction Hn as [|s names [Hs Hne] _ IH]; intros fuel Hf;
    (destruct fuel as [|fuel]; [cbn in Hf; lia |]); unfold packed in *; cbn [name_loop map concat app].
  { done. }
  rewrite <- !app_assoc. cbn [app]. rewrite c_str_app by done.
  destruct (Nat.eqb_spec (length s) 0); [by destruct s |].
  rewrite drop_app_ge by lia.
  replace (length s + 1 - length s) with 1 by lia. cbn [drop]. rewrite drop_0.
  cbn in Hf. by rewrite (IH fuel) by lia.
Qed.

(** The buffer of the names, and at least one NUL after them. *)
Lemma ipc_list_devices_packed (fresh : nat -> byte) (names : list (list byte)) :
  exists rest, ipc_list_devices fresh names
               = packed (List.filter (fun s => negb (length s =? 0)) names) ++ x00 :: rest.
Proof.
  unfold ipc_list_devices.
  destruct (string_list_adds_hold fresh names empty_list []) as [Hlen Hbuf]; [done |].
  cbn [app] in *. set (l := fold_left _ _ _) in *. set (kept := List.filter _ names) in *.
  unfold cap. destruct kept as [|s kept].
  - rewrite Hbuf. by exists [].
  - destruct Hbuf as [rest Hbuf]. rewrite Hbuf, length_app. cbn [length]. rewrite Nat.add_succ_r. by exists rest.
Qed.

Lemma kept_names (names : list (list byte)) : Forall is_name names ->
  let kept := List.filter (fun s => negb (length s =? 0)) names in
  Forall (fun s => is_name s /\ s <> []) kept /\ length kept <= length names.
Proof.
  intros Hn kept. split; [| apply List.filter_length_le].
  apply List.Forall_forall. intros s [Hin Hne]%filter_In. rewrite List.Forall_forall in Hn.
  split; [by apply Hn |]. by intros ->.
Qed.

(** [ipc_list_devices] collects the interface names and the loops of the commands get them
    back: whatever the memory [realloc] returns held, walking over the buffer ends and
    yields exactly the nonempty names that were added, in order. *)
Theorem ipc_list_devices_walk (fresh : nat -> byte) (names : list (list byte)) (fuel : nat) :
  Forall is_name names -> length names < fuel ->
  name_loop fuel (ipc_list_devices fresh names)
  = Some (List.filter (fun s => negb (length s =? 0)) names).
Proof.
  intros Hn Hf. destruct (ipc_list_devices_packed fresh names) as [rest ->].
  destruct (kept_names names Hn). apply name_loop_names; [done | lia].
Qed.

Lemma ipc_list_devices_walk_witness :
  name_loop 4 (ipc_list_devices (fun _ => xff) [text "awg0"; []; text "wg-client"])
  = Some (List.filter (fun s => negb (length s =? 0)) [text "awg0"; []; text "wg-client"]).
Proof.
  apply (ipc_list_devices_walk (fun _ => xff) [text "awg0"; []; text "wg-client"] 4).
  - repeat (apply Forall_cons; split; [cbv; intuition discriminate |]). apply Forall_nil. exact I.
  - cbn. lia.
Defined.
