(* ===== verification/SetConf.v ===== *)
(** * [awg setconf], [addconf], [syncconf] and [set] (src/setconf.c, src/set.c)

    [setconf_main] reads a configuration file and hands the device to the interface;
    for [syncconf], [sync_conf] first turns "replace all peers" into "remove the peers
    that are not in the file", found by sorting the keys of both sides.  A command
    returns its exit status with the device it gave to [ipc_set_device], if any. *)

From Stdlib Require Import Sorted Permutation.
From S2P Require Import Prelude CString Containers CSort Ipc NetLib NetLibNumeric.
From S2P Require Import ConfigValues Config WellFormed.
#[local] Open Scope Z_scope.
#[local] Open Scope awg_scope.

Record pubkey_origin := PubkeyOrigin {
  pubkey : list byte;
  from_file : bool;
}.

Definition pubkey_cmp (a b : pubkey_origin) : Z :=
  let ret := memcmp (pubkey a) (pubkey b) in
  if negb (ret =? 0) then ret else Z.b2z (from_file a) - Z.b2z (from_file b).

(** The peer that asks for the removal of a key. *)
Definition removal (key : list byte) : wgpeer :=
  zero_peer <| peer_flags := WGPEER_REMOVE_ME |> <| peer_public_key := key |>.

(** The condition of the loop on entry [e], [rest] being the entries after it. *)
Definition is_stale (e : pubkey_origin) (rest : list pubkey_origin) : bool :=
  match rest with
  | [] => true
  | next :: _ => negb (from_file next) || negb (memcmp (pubkey e) (pubkey next) =? 0)
  end.

(** The loop over the sorted entries; each removal is linked in front of the peers. *)
Fixpoint sync_loop (pubkeys : list pubkey_origin) (first_peer : list wgpeer) : list wgpeer :=
  match pubkeys with
  | [] => first_peer
  | e :: rest =>
      sync_loop rest (if from_file e then first_peer
                      else if is_stale e rest then removal (pubkey e) :: first_peer
                      else first_peer)
  end.

Section SetConf.
Context `{CSort} `{Ipc}.

Definition sync_conf (file : wgdevice) : bool * wgdevice :=
  if (length (peers file) =? 0)%nat then (true, file)
  else
    match ipc_get_device (name file) with
    | None => (false, file)
    | Some runtime =>
        if (length (peers runtime) =? 0)%nat then (true, file)
        else
          let file := file <| flags ::= fun x => Z.land x (Z.lnot WGDEVICE_REPLACE_PEERS) |> in
          let pubkeys := map (fun p => PubkeyOrigin (peer_public_key p) true) (peers file)
                         ++ map (fun p => PubkeyOrigin (peer_public_key p) false) (peers runtime) in
          (true, file <| peers ::= sync_loop (qsort pubkey_cmp pubkeys) |>)
    end.

Context `{Platform} `{NetLib} (fuel : nat) (read_file : list byte -> option (list byte)).

Definition setconf_main (argv : list (list byte)) : outcome (Z * option wgdevice) :=
  match argv with
  | [cmd; interface; filename] =>
      match read_file filename with
      | None => Returns (1, None)
      | Some content =>
          let! res := config_read_text fuel (strcmp_eq cmd (text "addconf")) content in
          match res with
          | None => Returns (1, None)
          | Some device =>
              let device := set_name interface device in
              let '(ok, device) := if strcmp_eq cmd (text "syncconf") then sync_conf device
                                   else (true, device) in
              if negb ok then Returns (1, None)
              else Returns (if ipc_set_device device then 0 else 1, Some device)
          end
      end
  | _ => Returns (1, None)
  end.

Definition set_main (argv : list (list byte)) : outcome (Z * option wgdevice) :=
  match argv with
  | _ :: interface :: args =>
      if (length args =? 0)%nat then Returns (1, None)
      else
        let! res := config_read_cmd fuel read_file args in
        match res with
        | None => Returns (1, None)
        | Some device =>
            let device := set_name interface device in
            Returns (if ipc_set_device device then 0 else 1, Some device)
        end
  | _ => Returns (1, None)
  end.

End SetConf.

(** ** Sorting finds the stale keys *)

Lemma pubkey_cmp_cases (a b : pubkey_origin) :
  pubkey_cmp a b <= 0 <-> memcmp (pubkey a) (pubkey b) < 0
  \/ pubkey a = pubkey b /\ (from_file a = true -> from_file b = true).
Proof.
  unfold pubkey_cmp. rewrite <- memcmp_eq.
  destruct (Z.eqb_spec (memcmp (pubkey a) (pubkey b)) 0) as [E | E]; cbn [negb]; [| lia].
  rewrite E. destruct (from_file a), (from_file b); cbn; intuition (lia || discriminate).
Qed.

Lemma pubkey_cmp_ok : comparison pubkey_cmp.
Proof.
  split.
  - intros x y. rewrite !pubkey_cmp_cases, (memcmp_swap (pubkey y)).
    destruct (Z.lt_trichotomy (memcmp (pubkey x) (pubkey y)) 0) as [? | [E | ?]]; [auto | | lia].
    apply memcmp_eq in E. rewrite E. destruct (from_file x), (from_file y); auto.
  - intros x y z Hxy Hyz.
    assert (memcmp (pubkey x) (pubkey z) <= 0) as Hle.
    { apply memcmp_trans with (pubkey y); rewrite pubkey_cmp_cases in *;
        [destruct Hxy as [? | [-> _]] | destruct Hyz as [? | [-> _]]]; rewrite ?memcmp_refl; lia. }
    rewrite pubkey_cmp_cases in *.
    destruct (Z.eq_dec (memcmp (pubkey x) (pubkey z)) 0) as [E | E]; [| lia].
    apply memcmp_eq in E. right. split; [done |].
    rewrite E in Hxy. rewrite (memcmp_swap (pubkey z)) in Hxy.
    destruct Hxy as [Hxy | [Ey Hxy]], Hyz as [Hyz | [Ey' Hyz]]; try lia; [| | auto].
    + rewrite Ey', memcmp_refl in Hxy. lia.
    + rewrite Ey, memcmp_refl in Hyz. lia.
Qed.

(** The keys of the entries of one origin. *)
Definition keys_of (origin : bool) (l : list pubkey_origin) : list (list byte) :=
  map pubkey (List.filter (fun e => Bool.eqb (from_file e) origin) l).

Lemma in_keys_of (origin : bool) (l : list pubkey_origin) (k : list byte) :
  In k (keys_of origin l) <-> In (PubkeyOrigin k origin) l.
Proof.
  unfold keys_of. rewrite in_map_iff. split.
  - intros (e & <- & [He Ho%eqb_prop]%filter_In). subst. by destruct e.
  - intros Hin. exists (PubkeyOrigin k origin). split; [done |]. apply filter_In. split; [done |].
    apply eqb_reflx.
Qed.

(** The keys the loop removes, in the order of the array. *)
Fixpoint stale_keys (l : list pubkey_origin) : list (list byte) :=
  match l with
  | [] => []
  | e :: rest => (if negb (from_file e) && is_stale e rest then [pubkey e] else []) ++ stale_keys rest
  end.

Lemma sync_loop_stale (l : list pubkey_origin) (first_peer : list wgpeer) :
  sync_loop l first_peer = rev (map removal (stale_keys l)) ++ first_peer.
Proof.
  revert first_peer. induction l as [|e l IH]; intros fp; cbn [sync_loop stale_keys]; [done |].
  rewrite IH, map_app, rev_app_distr, <- app_assoc. f_equal.
  destruct (from_file e), (is_stale e l); done.
Qed.

(** A key of the runtime is followed by the same key of the file, if there is one. *)
Lemma is_stale_spec (k : list byte) (rest : list pubkey_origin) :
  StronglySorted (fun x y => pubkey_cmp x y <= 0) (PubkeyOrigin k false :: rest) ->
  ~ In k (keys_of false rest) ->
  is_stale (PubkeyOrigin k false) rest = true <-> ~ In k (keys_of true rest).
Proof.
  intros [Hs Hk]%StronglySorted_inv Hnd. rewrite in_keys_of in *. unfold is_stale.
  destruct rest as [|n rest]; [by split |]. cbn [pubkey].
  apply StronglySorted_inv in Hs as [_ Hn]. apply Forall_cons in Hk as [Hkn Hk].
  assert (n = PubkeyOrigin k true <-> In (PubkeyOrigin k true) (n :: rest)) as Hiff.
  { split; [by left |]. intros [| Hin]; [done |].
    rewrite List.Forall_forall in Hn. specialize (Hn _ Hin).
    rewrite pubkey_cmp_cases in Hkn, Hn. cbn [pubkey from_file] in *.
    assert (pubkey n = k) as Ek.
    { destruct Hkn as [Hkn | [? _]]; [| done]. destruct Hn as [Hn | [? _]]; [| done].
      rewrite memcmp_swap in Hn. lia. }
    destruct n as [k' f]. cbn in Ek. subst k'. f_equal. destruct f; [done |].
    exfalso. apply Hnd. by left. }
  rewrite <- Hiff. destruct n as [k' f]. cbn [pubkey from_file].
  destruct f; cbn [negb orb]; [| by split].
  destruct (Z.eqb_spec (memcmp k k') 0) as [E | E]; cbn [negb]; rewrite memcmp_eq in E; [| split; [|done]].
  - subst. by split.
  - intros _ [= ->]. done.
Qed.

Lemma stale_keys_spec (l : list pubkey_origin) :
  StronglySorted (fun x y => pubkey_cmp x y <= 0) l -> NoDup (keys_of false l) ->
  NoDup (stale_keys l)
  /\ forall k, In k (stale_keys l) <-> In k (keys_of false l) /\ ~ In k (keys_of true l).
Proof.
  induction l as [|[k0 f] l IH]; intros Hs Hnd.
  { split; [constructor |]. cbn. tauto. }
  pose proof Hs as [Hs' Hall]%StronglySorted_inv. destruct f.
  - destruct IH as [IHn IH]; [done | done |]. split; [done |]. intros k.
    change (keys_of true (PubkeyOrigin k0 true :: l)) with (k0 :: keys_of true l).
    change (keys_of false (PubkeyOrigin k0 true :: l)) with (keys_of false l).
    change (stale_keys (PubkeyOrigin k0 true :: l)) with (stale_keys l).
    rewrite IH. cbn [In]. split; [| tauto]. intros [Hf Ht]. split; [done |]. intros [<- |]; [| done].
    rewrite List.Forall_forall in Hall. apply in_keys_of, Hall, pubkey_cmp_cases in Hf.
    cbn in Hf. rewrite memcmp_refl in Hf. destruct Hf as [| [_ Hf]]; [lia |]. by specialize (Hf eq_refl).
  - change (keys_of false (PubkeyOrigin k0 false :: l)) with (k0 :: keys_of false l) in *.
    apply NoDup_cons in Hnd as [Hk0 Hnd]. rewrite list_elem_of_In in Hk0.
    destruct IH as [IHn IH]; [done | done |].
    pose proof (is_stale_spec k0 l Hs Hk0) as Hst.
    change (keys_of true (PubkeyOrigin k0 false :: l)) with (keys_of true l).
    cbn [stale_keys from_file negb andb pubkey].
    destruct (is_stale (PubkeyOrigin k0 false) l); cbn [app].
    + split; [constructor; [rewrite list_elem_of_In, IH; tauto | done] |].
      intros k. cbn [In]. rewrite IH. split; [| tauto].
      intros [<- | ?]; [| tauto]. split; [by left |]. by apply Hst.
    + split; [done |]. intros k. rewrite IH. cbn [In]. split; [tauto |].
      intros [[<- | ?] Ht]; [| tauto]. apply Hst in Ht. done.
Qed.

Definition peer_keys (d : wgdevice) : list (list byte) := map peer_public_key (peers d).

Section Sync.
Context `{S : CSort} `{!CSortLaws S} `{I : Ipc}.

Lemma keys_of_origins (origin : bool) (file runtime : list wgpeer) :
  keys_of origin (map (fun p => PubkeyOrigin (peer_public_key p) true) file
                  ++ map (fun p => PubkeyOrigin (peer_public_key p) false) runtime)
  = map peer_public_key (if origin then file else runtime).
Proof.
  unfold keys_of. rewrite List.filter_app, map_app.
  assert (forall (o : bool) l, map pubkey (List.filter (fun e => Bool.eqb (from_file e) origin)
    (map (fun p => PubkeyOrigin (peer_public_key p) o) l))
    = if Bool.eqb o origin then map peer_public_key l else []) as Hl.
  { intros o l. destruct (Bool.eqb o origin) eqn:E.
    - induction l as [|p l IH]; cbn; [done |]. rewrite E. cbn. by f_equal.
    - induction l as [|p l IH]; cbn; [done |]. by rewrite E. }
  rewrite !Hl. destruct origin; cbn; [by rewrite app_nil_r | done].
Qed.

Lemma keys_of_perm (origin : bool) (l l' : list pubkey_origin) :
  Permutation l l' -> Permutation (keys_of origin l) (keys_of origin l').
Proof.
  intros HP. apply Permutation_map. induction HP; cbn; repeat case_match; eauto using Permutation.
Qed.

Lemma sync_conf_stale (file runtime : wgdevice) :
  peers file <> [] -> ipc_get_device (name file) = Some runtime -> peers runtime <> [] ->
  NoDup (peer_keys runtime) ->
  exists gone, sync_conf file
    = (true, file <| flags ::= fun x => Z.land x (Z.lnot WGDEVICE_REPLACE_PEERS) |>
                  <| peers := map removal gone ++ peers file |>)
  /\ NoDup gone /\ forall k, In k gone <-> In k (peer_keys runtime) /\ ~ In k (peer_keys file).
Proof.
  intros Hf Hrt Hr Hnd. unfold sync_conf. rewrite Hrt.
  destruct (Nat.eqb_spec (length (peers file)) 0) as [E | _]; [by destruct (peers file) |].
  destruct (Nat.eqb_spec (length (peers runtime)) 0) as [E | _]; [by destruct (peers runtime) |].
  cbv zeta. match goal with |- context [qsort pubkey_cmp ?l] => set (arr := l) end.
  pose proof (qsort_perm pubkey_cmp arr) as Hp.
  assert (forall o, Permutation (keys_of o (qsort pubkey_cmp arr))
            (map peer_public_key (if o then peers file else peers runtime))) as Hk.
  { intros o. rewrite (keys_of_perm o _ _ Hp). unfold arr. by rewrite keys_of_origins. }
  assert (forall o k, In k (keys_of o (qsort pubkey_cmp arr))
            <-> In k (map peer_public_key (if o then peers file else peers runtime))) as Hin.
  { intros o k. split; apply Permutation_in; [| symmetry]; apply Hk. }
  destruct (stale_keys_spec (qsort pubkey_cmp arr)) as [Hn Hiff].
  - apply qsort_sorted, pubkey_cmp_ok.
  - by rewrite (Hk false).
  - exists (rev (stale_keys (qsort pubkey_cmp arr))). split; [| split].
    + rewrite map_rev. unfold arr. cbn [modify]. by rewrite sync_loop_stale.
    + by rewrite <- Permutation_rev.
    + intros k. by rewrite <- in_rev, Hiff, !Hin.
Qed.

(** [sync_conf] computes the difference between the interface and the file.  A file
    without peers, or an interface without peers, leaves the device as it is; an
    interface that cannot be read is an error; otherwise the device no longer replaces
    all peers, and is the file preceded by one removal for exactly those keys of the
    interface that the file does not have, each once, whatever sorting algorithm the C
    library uses. *)
Theorem sync_conf_removes (file : wgdevice) :
  (forall runtime, ipc_get_device (name file) = Some runtime -> NoDup (peer_keys runtime)) ->
  match peers file, ipc_get_device (name file) with
  | [], _ => sync_conf file = (true, file)
  | _, None => sync_conf file = (false, file)
  | _, Some runtime =>
      peers runtime = [] /\ sync_conf file = (true, file)
      \/ exists gone, sync_conf file
          = (true, file <| flags ::= fun x => Z.land x (Z.lnot WGDEVICE_REPLACE_PEERS) |>
                        <| peers := map removal gone ++ peers file |>)
        /\ NoDup gone /\ forall k, In k gone <-> In k (peer_keys runtime) /\ ~ In k (peer_keys file)
  end.
Proof.
  intros Hnd. destruct (peers file) as [|p ps] eqn:Ef; [unfold sync_conf; by rewrite Ef |].
  destruct (ipc_get_device (name file)) as [runtime |] eqn:Ert;
    [| unfold sync_conf; by rewrite Ef, Ert].
  destruct (decide (peers runtime = [])) as [Er | Er].
  - left. split; [done |]. unfold sync_conf. by rewrite Ef, Ert, Er.
  - right. rewrite <- Ef. apply sync_conf_stale; auto. by rewrite Ef.
Qed.

(** *** Convergence *)

(** The peers of an interface after a message, by their keys. *)
Context (kernel_apply : list (list byte) -> wgdevice -> list (list byte)).

(** What a message does to the presence of one key: "replace peers" clears the interface
    first, then the peers are processed in order, removed or created. *)
Definition peer_effect (k : list byte) (present : bool) (p : wgpeer) : bool :=
  if decide (peer_public_key p = k) then negb (has_flag (peer_flags p) WGPEER_REMOVE_ME) else present.

Definition present_after (k : list byte) (old : list (list byte)) (d : wgdevice) : bool :=
  fold_left (peer_effect k) (peers d)
    (if has_flag (flags d) WGDEVICE_REPLACE_PEERS then false else bool_decide (k ∈ old)).

Context (kernel_apply_keys : forall old d k,
  In k (kernel_apply old d) <-> present_after k old d = true).

Lemma effects_keep (k : list byte) (l : list wgpeer) (b : bool) :
  Forall (fun p => has_flag (peer_flags p) WGPEER_REMOVE_ME = false) l ->
  fold_left (peer_effect k) l b = true <-> b = true \/ In k (map peer_public_key l).
Proof.
  intros Hl. revert b. induction Hl as [|p l Hp _ IH]; intros b; cbn [fold_left map In]; [tauto |].
  rewrite IH. unfold peer_effect. rewrite Hp. destruct (decide _) as [<- | Hne]; [cbn; tauto |].
  split; [tauto |]. intros [? | [? | ?]]; auto; done.
Qed.

Lemma effects_remove (k : list byte) (gone : list (list byte)) (b : bool) :
  fold_left (peer_effect k) (map removal gone) b = b && negb (bool_decide (k ∈ gone)).
Proof.
  revert b. induction gone as [|g gone IH]; intros b; cbn [fold_left map].
  { by rewrite andb_true_r. }
  rewrite IH. unfold peer_effect. cbn [removal modify peer_public_key peer_flags].
  change (has_flag WGPEER_REMOVE_ME WGPEER_REMOVE_ME) with true. cbn [negb].
  destruct (decide (g = k)) as [-> | Hne].
  - rewrite (bool_decide_eq_true_2 (k ∈ k :: gone)) by (by left). by rewrite andb_false_r.
  - f_equal. f_equal. apply bool_decide_ext. rewrite elem_of_cons. split; [by right |].
    intros [? | ?]; [by subst | done].
Qed.

(** C5: [syncconf] converges: applied to an interface, the message [sync_conf] prepares leaves
    exactly the peers of the file, as a [setconf] of the same file would, although it
    does not touch the peers that were there already and are kept. *)
Theorem syncconf_converges (file runtime file' : wgdevice) (k : list byte) :
  has_flag (flags file) WGDEVICE_REPLACE_PEERS = true ->
  Forall (fun p => has_flag (peer_flags p) WGPEER_REMOVE_ME = false) (peers file) ->
  ipc_get_device (name file) = Some runtime -> NoDup (peer_keys runtime) ->
  sync_conf file = (true, file') ->
  In k (kernel_apply (peer_keys runtime) file') <-> In k (peer_keys file).
Proof.
  intros Hrep Hrm Hrt Hnd Hs. rewrite kernel_apply_keys. unfold present_after.
  destruct (decide (peers file = [])) as [Ef | Ef];
    [| destruct (decide (peers runtime = [])) as [Er | Er]].
  - unfold sync_conf in Hs. rewrite Ef in Hs. injection Hs as <-. unfold peer_keys. by rewrite Hrep, Ef.
  - unfold sync_conf in Hs. rewrite Hrt, Er in Hs.
    destruct (_ =? _)%nat in Hs; injection Hs as <-; rewrite Hrep, effects_keep by done; unfold peer_keys; intuition discriminate.
  - destruct (sync_conf_stale file runtime Ef Hrt Er Hnd) as (gone & E & _ & Hg).
    rewrite E in Hs. injection Hs as <-. cbn [flags peers modify].
    assert (has_flag (Z.land (flags file) (Z.lnot WGDEVICE_REPLACE_PEERS)) WGDEVICE_REPLACE_PEERS = false) as ->.
    { unfold has_flag. rewrite <- Z.land_assoc. change (Z.land (Z.lnot _) _) with 0. by rewrite Z.land_0_r. }
    rewrite fold_left_app, effects_remove, effects_keep by done.
    rewrite andb_true_iff, negb_true_iff, bool_decide_eq_true, bool_decide_eq_false.
    rewrite !list_elem_of_In, Hg. fold (peer_keys file). split; [| auto].
    intros [[Hk Hn] | ?]; [| done]. destruct (decide (k ∈ peer_keys file)) as [Hf | Hf]; rewrite list_elem_of_In in Hf; tauto.
Qed.
End Sync.

(** ** The commands *)

Section Commands.
Context `{S : CSort} `{!CSortLaws S} `{I : Ipc}.
Context `{P : Platform} `{!PlatformOk P} `{N : NetLib} `{!NetLibLaws N}.
Context (fuel : nat) (read_file : list byte -> option (list byte)).

(** What the interface reports under a name has distinct peers with whole keys. *)
Definition reports_wf (iface : list byte) : Prop :=
  forall d, ipc_get_device iface = Some d -> wf_device d /\ NoDup (peer_keys d).

Lemma sync_conf_name (d d' : wgdevice) (ok : bool) : sync_conf d = (ok, d') -> name d' = name d.
Proof. unfold sync_conf. intros E. repeat case_match; simplify_eq; done. Qed.

Lemma sync_conf_wf (d d' : wgdevice) (ok : bool) :
  reports_wf (name d) -> wf_device d -> sync_conf d = (ok, d') -> wf_device d'.
Proof.
  intros ipc_wf Hw E. destruct (decide (peers d = [])) as [Ed | Ed].
  { unfold sync_conf in E. rewrite Ed in E. by injection E as <- <-. }
  destruct (ipc_get_device (name d)) as [rt |] eqn:Ert.
  2:{ unfold sync_conf in E. rewrite Ert in E. destruct (_ =? _)%nat; by injection E as <- <-. }
  destruct (ipc_wf _ Ert) as [Hrt Hnd]. destruct (decide (peers rt = [])) as [Er | Er].
  { unfold sync_conf in E. rewrite Ert, Er in E. destruct (_ =? _)%nat; by injection E as <- <-. }
  destruct (sync_conf_stale d rt Ed Ert Er Hnd) as (gone & Es & _ & Hg).
  rewrite Es in E. injection E as <- <-.
  pose proof (wf_peers _ Hrt) as Hrp. destruct Hw. constructor; try done.
  - unfold is_u32 in *. cbn [flags modify]. split; [apply Z.land_nonneg; lia |].
    apply (land_small_range _ _ 32); [lia | lia |]. by cbv.
  - cbn. apply Forall_app. split; [| done]. apply Forall_map, List.Forall_forall.
    intros k [Hk _]%Hg. apply in_map_iff in Hk as (p & <- & Hp).
    rewrite List.Forall_forall in Hrp. destruct (Hrp p Hp). by constructor.
Qed.

(** Either nothing is handed over and the command fails, or the interface decides. *)
Lemma setconf_main_cases (argv : list (list byte)) (ret : Z) (sent : option wgdevice) :
  setconf_main fuel read_file argv = Returns (ret, sent) ->
  (ret = 1 /\ sent = None)
  \/ exists cmd iface path content d, argv = [cmd; iface; path] /\ read_file path = Some content
     /\ sent = Some d /\ ret = (if ipc_set_device d then 0 else 1) /\ name d = take 15 iface
     /\ ((strcmp_eq cmd (text "syncconf") = true -> reports_wf (take 15 iface)) -> wf_device d).
Proof.
  unfold setconf_main. intros E.
  destruct argv as [|cmd [|iface [|path [|? ?]]]]; try (simplify_eq; by left).
  destruct (read_file path) as [content |] eqn:Er; [| simplify_eq; by left].
  destruct (config_read_text _ _ _) as [[d |] | |] eqn:Ec; cbn [obind] in E; try done;
    [| simplify_eq; by left].
  apply config_read_text_ctx in Ec as (ctx & Hok & _ & <-).
  assert (wf_device (set_name iface (device ctx))) as Hw by (destruct Hok as [[] _ _ _]; by constructor).
  destruct (if strcmp_eq cmd (text "syncconf") then _ else _) as [ok d'] eqn:Es.
  assert (name d' = take 15 iface
          /\ ((strcmp_eq cmd (text "syncconf") = true -> reports_wf (take 15 iface)) -> wf_device d')) as [Hn Hw'].
  { destruct (strcmp_eq _ _); [split; [by rewrite (sync_conf_name _ _ _ Es) |] | by simplify_eq].
    intros Hr. eapply sync_conf_wf, Es; [exact (Hr eq_refl) | done]. }
  destruct ok; cbn [negb] in E; simplify_eq; [| by left].
  right. by exists cmd, iface, path, content, d'.
Qed.

(** The same for [set_main]. *)
Lemma set_main_cases (argv : list (list byte)) (ret : Z) (sent : option wgdevice) :
  set_main fuel read_file argv = Returns (ret, sent) ->
  (ret = 1 /\ sent = None)
  \/ exists cmd iface args d, argv = cmd :: iface :: args /\ sent = Some d
     /\ ret = (if ipc_set_device d then 0 else 1) /\ wf_device d /\ name d = take 15 iface.
Proof.
  unfold set_main. intros E. destruct argv as [|cmd [|iface args]]; try (simplify_eq; by left).
  destruct (_ =? _)%nat; [simplify_eq; by left |].
  destruct (config_read_cmd _ _ _) as [[d |] | |] eqn:Ec; cbn [obind] in E; try done; [| simplify_eq; by left].
  apply cmd_loop_wf in Ec; [| apply cmd_start_ok]. injection E as <- <-. right.
  exists cmd, iface, args, (set_name iface d). do 3 (split; [done |]). split; [destruct Ec; by constructor | done].
Qed.

(** What [setconf], [addconf] and [syncconf] do to the interface: the exit status is 0
    exactly when a device was handed over and accepted; a device that is handed over is
    well-formed and carries the name given on the command line, cut to the 15 bytes the
    kernel allows; when the file cannot be read or is refused, nothing is handed over. *)
Theorem setconf_main_safe (argv : list (list byte)) (ret : Z) (sent : option wgdevice) :
  (forall iface, reports_wf iface) -> setconf_main fuel read_file argv = Returns (ret, sent) ->
  (ret = 0 <-> exists d, sent = Some d /\ ipc_set_device d = true)
  /\ forall d, sent = Some d -> wf_device d /\
     exists cmd iface path content, argv = [cmd; iface; path] /\ read_file path = Some content
     /\ name d = take 15 iface.
Proof.
  intros Hwf [[-> ->] | (cmd & iface & path & content & d & -> & Hr & -> & -> & Hn & Hw)]%setconf_main_cases.
  - split; [split; [lia | by intros (? & ? & _)] | done].
  - specialize (Hw (fun _ => Hwf _)). split; [| intros ? [= <-]; split; [done |]; by exists cmd, iface, path, content].
    destruct (ipc_set_device d) eqn:Ei; split; try done; [by exists d |]. intros (? & [= <-] & ?). congruence.
Qed.
End Commands.

(** ** Witnesses *)

Section Witnesses.
#[local] Existing Instance insertion_csort.
#[local] Existing Instance lp64_x86.
#[local] Existing Instance numeric_net.

Definition key_n (n : Z) : list byte := repeat (z2b n) 32.
Definition peer_n (n : Z) : wgpeer := zero_peer <| peer_public_key := key_n n |>.

Definition runtime_device : wgdevice := zero_device <| peers := [peer_n 3; peer_n 1; peer_n 2] |>.
Definition file_device : wgdevice :=
  zero_device <| peers := [peer_n 2; peer_n 4] |> <| flags := WGDEVICE_REPLACE_PEERS |>.

#[local] Instance one_interface : Ipc := {|
  ipc_get_device _ := Some runtime_device;
  ipc_set_device _ := true;
|}.

Lemma runtime_ok (iface : list byte) (d : wgdevice) :
  ipc_get_device iface = Some d -> wf_device d /\ NoDup (peer_keys d).
Proof.
  intros [= <-]. split.
  - constructor; try done. repeat (apply Forall_cons; split; [by constructor |]). by apply Forall_nil.
  - by apply (bool_decide_unpack _).
Qed.

Lemma sync_conf_removes_witness :
  exists gone, sync_conf file_device
    = (true, file_device <| flags ::= fun x => Z.land x (Z.lnot WGDEVICE_REPLACE_PEERS) |>
                  <| peers := map removal gone ++ peers file_device |>)
  /\ NoDup gone /\ forall k, In k gone <-> In k (peer_keys runtime_device) /\ ~ In k (peer_keys file_device).
Proof.
  destruct (sync_conf_removes file_device) as [[E _] | Hgone].
  - intros d E. apply (runtime_ok (name file_device)). exact E.
  - discriminate E.
  - exact Hgone.
Defined.

(** An interface that processes a message as documented. *)
Definition apply_message (old : list (list byte)) (d : wgdevice) : list (list byte) :=
  List.filter (fun k => present_after k old d) (old ++ peer_keys d).

Lemma syncconf_converges_witness :
  In (key_n 4) (apply_message (peer_keys runtime_device) (snd (sync_conf file_device)))
  <-> In (key_n 4) (peer_keys file_device).
Proof.
  apply (syncconf_converges apply_message) with (runtime := runtime_device).
  - intros old d k. unfold apply_message. rewrite filter_In, in_app_iff. split; [by intros [_ ?] |].
    intros Hk. split; [| exact Hk]. unfold present_after in Hk.
    assert (forall l b, fold_left (peer_effect k) l b = true -> b = true \/ In k (map peer_public_key l)) as Hf.
    { induction l as [|p l IH]; cbn [fold_left map In]; [auto |]. intros b [Hb | Hb]%IH; [| auto].
      unfold peer_effect in Hb. destruct (decide (peer_public_key p = k)) as [-> | _]; auto. }
    apply Hf in Hk as [Hb | Hb]; [left | right; exact Hb].
    destruct (has_flag _ _); [discriminate Hb |]. apply bool_decide_eq_true in Hb. by apply list_elem_of_In.
  - vm_compute. reflexivity.
  - repeat (apply Forall_cons; split; [vm_compute; reflexivity |]). apply Forall_nil. exact I.
  - reflexivity.
  - apply (runtime_ok (name file_device)). reflexivity.
  - destruct (sync_conf file_device) as [ok d] eqn:E. vm_compute in E. injection E as <- <-. reflexivity.
Defined.

Lemma setconf_main_safe_witness :
  let r := setconf_main 16 (fun _ => Some sample_config) [text "syncconf"; text "awg0"; text "a.conf"] in
  match r with
  | Returns (ret, sent) =>
      (ret = 0 <-> exists d, sent = Some d /\ ipc_set_device d = true)
      /\ forall d, sent = Some d -> wf_device d /\
         exists cmd iface path content, [text "syncconf"; text "awg0"; text "a.conf"] = [cmd; iface; path]
         /\ Some sample_config = Some content /\ name d = take 15 iface
  | _ => False
  end.
Proof.
  destruct (setconf_main 16 (fun _ => Some sample_config) [text "syncconf"; text "awg0"; text "a.conf"])
    as [[ret sent] | |] eqn:E.
  - apply (setconf_main_safe 16 (fun _ => Some sample_config)
      [text "syncconf"; text "awg0"; text "a.conf"] ret sent runtime_ok). exact E.
  - vm_compute in E. discriminate E.
  - vm_compute in E. discriminate E.
Defined.
End Witnesses.
