(* ===== verification/Show.v ===== *)
(** * [awg show] (src/show.c)

    What [show_main] prints for people ([pretty_print]), for scripts ([ugly_print]) and
    as one table ([dump_print]), and the helpers that write keys, addresses, times and
    sizes.  A printing function returns what it writes to the standard output. *)

From S2P Require Import Prelude CString Encoding Containers CSort Terminal Ipc NetLib ShowConf.
#[local] Open Scope Z_scope.
#[local] Open Scope awg_scope.

Definition tab : list byte := [x09].

(** ** The order of the peers *)

(** The conversion of a 64-bit difference to [time_t], a [long]. *)
Definition time_t `{Platform} (z : Z) : Z :=
  let r := uw ulong_bits z in
  if 2 ^ (ulong_bits - 1) <=? r then r - 2 ^ ulong_bits else r.

(** [last_handshake_time] is not zero. *)
Definition has_handshake (p : wgpeer) : bool :=
  negb (tv_sec (last_handshake_time p) =? 0) || negb (tv_nsec (last_handshake_time p) =? 0).

Definition peer_cmp `{Platform} (a b : wgpeer) : Z :=
  if negb (has_handshake a) && has_handshake b then 1
  else if negb (has_handshake b) && has_handshake a then -1
  else
    let diff := time_t (tv_sec (last_handshake_time a) - tv_sec (last_handshake_time b)) in
    let diff := if diff =? 0
                then time_t (tv_nsec (last_handshake_time a) - tv_nsec (last_handshake_time b))
                else diff in
    if diff <? 0 then 1 else if 0 <? diff then -1 else 0.

(** A pointer to a peer is its index in the list; the array of pointers is sorted and the
    peers are linked in its order. *)
Definition peer_at (ps : list wgpeer) (i : nat) : wgpeer := nth i ps zero_peer.

Definition sort_peers `{Platform} `{CSort} (d : wgdevice) : wgdevice :=
  let ps := peers d in
  if (length ps =? 0)%nat then d
  else
    let array := qsort (fun i j => peer_cmp (peer_at ps i) (peer_at ps j)) (seq 0 (length ps)) in
    d <| peers := map (peer_at ps) array |>.

(** ** Times and sizes *)

(** [snprintf(buf + offset, len - offset, s)] on a buffer whose string is [buf]: what
    does not fit is cut, and the length of [s] is returned. *)
Definition snprintf_at (buf : list byte) (offset len : Z) (s : list byte) : list byte * Z :=
  let room := u64 (len - offset) in
  (if room =? 0 then buf
   else take (Z.to_nat offset) buf ++ take (Z.to_nat (room - 1)) s,
   Z.of_nat (length s)).

(** One unit of [pretty_time]. *)
Definition unit_text (offset n : Z) (unit : string) : list byte :=
  (if offset =? 0 then [] else text ", ") ++ print_u n ++ text " " ++ TERMINAL_FG_CYAN
  ++ text unit ++ (if n =? 1 then [] else text "s") ++ TERMINAL_RESET.

Definition put_unit (len : Z) (st : list byte * Z) (u : Z * string) : list byte * Z :=
  let '(buf, offset) := st in
  let '(n, unit) := u in
  if n =? 0 then st
  else
    let '(buf, ret) := snprintf_at buf offset len (unit_text offset n unit) in
    (buf, u64 (offset + ret)).

(** [left] in years, days, hours, minutes and seconds. *)
Definition time_units (left : Z) : list (Z * string) :=
  let years := left / (365 * 24 * 60 * 60) in
  let left := left mod (365 * 24 * 60 * 60) in
  let days := left / (24 * 60 * 60) in
  let left := left mod (24 * 60 * 60) in
  let hours := left / (60 * 60) in
  let left := left mod (60 * 60) in
  let minutes := left / 60 in
  let seconds := left mod 60 in
  [(years, "year"); (days, "day"); (hours, "hour"); (minutes, "minute"); (seconds, "second")]%string.

(** [pretty_time(buf, len, left)] on a buffer whose string is [buf]: the new string and
    the offset returned. *)
Definition pretty_time (buf : list byte) (len left : Z) : list byte * Z :=
  fold_left (put_unit len) (time_units left) (buf, 0).

Definition clock_text : list byte :=
  text "(" ++ TERMINAL_FG_RED ++ text "System clock wound backward; connection problems may ensue."
  ++ TERMINAL_RESET ++ text ")".

(** [ago], at time [now]; [buf] is what its static buffer held. *)
Definition ago (now : Z) (buf : list byte) (t : timespec64) : list byte :=
  if now =? tv_sec t then text "Now"
  else if now <? tv_sec t then clock_text
  else
    let '(buf, offset) := pretty_time buf 1024 (u64 (now - tv_sec t)) in
    take 1023 (take (Z.to_nat offset) buf ++ take (Z.to_nat (u64 (1024 - offset - 1))) (text " ago")).

(** [every]; [buf] is what its static buffer held after the word. *)
Definition every (buf : list byte) (seconds : Z) : list byte :=
  text "every " ++ fst (pretty_time buf (1024 - 6 - 1) seconds).

(** [num / den] rounded to the nearest integer, ties to even. *)
Definition round_half_even (num den : Z) : Z :=
  let q := num / den in
  let r := num mod den in
  if (2 * r <? den) || ((2 * r =? den) && Z.even q) then q else q + 1.

(** The value of [(double)b], with its 53 bits of precision. *)
Definition to_double (b : Z) : Z :=
  if b <? 2 ^ 53 then b
  else let e := Z.log2 b - 52 in round_half_even b (2 ^ e) * 2 ^ e.

(** ["%.2f"] of [num / 2^k], which a [double] holds exactly. *)
Definition print_2f (num den : Z) : list byte :=
  let h := round_half_even (100 * num) den in
  print_u (h / 100) ++ text "." ++ print_u (h / 10 mod 10) ++ print_u (h mod 10).

(** [bytes]. *)
Definition bytes_text (b : Z) : list byte :=
  let amount (value : list byte) (unit : string) :=
    value ++ text " " ++ TERMINAL_FG_CYAN ++ text unit ++ TERMINAL_RESET in
  if b <? 1024 then amount (print_u (u32 b)) "B"%string
  else if b <? 1024 * 1024 then amount (print_2f (to_double b) 1024) "KiB"%string
  else if b <? 1024 * 1024 * 1024 then amount (print_2f (to_double b) (1024 * 1024)) "MiB"%string
  else if b <? 1024 * 1024 * 1024 * 1024 then amount (print_2f (to_double b) (1024 * 1024 * 1024)) "GiB"%string
  else amount (print_2f (to_double b) (1024 * 1024 * 1024 * 1024)) "TiB"%string.

Section Show.
(** [gai_text sa] is [gai_strerror] of the error [getnameinfo] has on [sa]; [isatty] is
    whether the standard output is a terminal, [now] the time. *)
Context `{Platform} `{NetLib} `{CSort} (gai_text : list byte -> list byte) (isatty : bool) (now : Z).

(** ** Fields *)

Definition key (k : list byte) : list byte := key_to_base64 k.

Definition maybe_key (k : list byte) (have_it : bool) : list byte :=
  if negb have_it then text "(none)" else key k.

Definition masked_key (k : list byte) : list byte :=
  match getenv (text "WG_HIDE_KEYS") with
  | Some var => if strcmp_eq var (text "never") then key k else text "(hidden)"
  | None => text "(hidden)"
  end.

(** [ip]: an address [inet_ntop] fails on, or of no family, is empty. *)
Definition ip_text (a : wgallowedip) : list byte :=
  if family a =? AF_INET then default [] (inet_ntop AF_INET (ip4 a))
  else if family a =? AF_INET6 then default [] (inet_ntop AF_INET6 (ip6 a))
  else [].

Definition sizeof_endpoint_buf : nat := (4096 + 1) + (512 + 1) + 4.

(** [endpoint]. *)
Definition endpoint_text (addr : list byte) : list byte :=
  let addr_len := if sa_family addr =? AF_INET then sizeof_sockaddr_in
                  else if sa_family addr =? AF_INET6 then sizeof_sockaddr_in6
                  else O in
  take (sizeof_endpoint_buf - 1)
    match getnameinfo (take addr_len addr) with
    | None => gai_text (take addr_len addr)
    | Some (host, service) =>
        if (sa_family addr =? AF_INET6) && has_byte ":"%byte host
        then text "[" ++ host ++ text "]:" ++ service
        else host ++ text ":" ++ service
    end.

Definition has_endpoint (p : wgpeer) : bool :=
  (sa_family (endpoint p) =? AF_INET) || (sa_family (endpoint p) =? AF_INET6).

(** ** [pretty_print] *)

Definition terminal_printf (s : list byte) : list byte := filter_ansi (color_mode isatty) s.

(** An indented line with a bold label. *)
Definition item (label : string) (value : list byte) : list byte :=
  terminal_printf (text "  " ++ TERMINAL_BOLD ++ text label ++ TERMINAL_RESET ++ text ": "
                   ++ value ++ newline).
Arguments item label%_string_scope value.

Definition item_u (label : string) (n : Z) : list byte :=
  print_if (negb (n =? 0)) (item label (print_u n)).
Arguments item_u label%_string_scope n.

Definition item_s (label : string) (s : option (list byte)) : list byte :=
  match s with
  | Some t => item label t
  | None => []
  end.
Arguments item_s label%_string_scope s.

Definition pretty_interface (d : wgdevice) : list byte :=
  terminal_printf TERMINAL_RESET
  ++ terminal_printf (TERMINAL_FG_GREEN ++ TERMINAL_BOLD ++ text "interface" ++ TERMINAL_RESET ++ text ": "
                      ++ TERMINAL_FG_GREEN ++ name d ++ TERMINAL_RESET ++ newline)
  ++ print_if (has_flag (flags d) WGDEVICE_HAS_PUBLIC_KEY) (item "public key" (key (public_key d)))
  ++ print_if (has_flag (flags d) WGDEVICE_HAS_PRIVATE_KEY) (item "private key" (masked_key (private_key d)))
  ++ item_u "listening port" (listen_port d)
  ++ print_if (negb (fwmark d =? 0)) (item "fwmark" (text "0x" ++ print_x (fwmark d)))
  ++ item_u "jc" (junk_packet_count d)
  ++ item_u "jmin" (junk_packet_min_size d)
  ++ item_u "jmax" (junk_packet_max_size d)
  ++ item_u "s1" (init_packet_junk_size d)
  ++ item_u "s2" (response_packet_junk_size d)
  ++ item_u "s3" (cookie_reply_packet_junk_size d)
  ++ item_u "s4" (transport_packet_junk_size d)
  ++ item_s "h1" (init_packet_magic_header d)
  ++ item_s "h2" (response_packet_magic_header d)
  ++ item_s "h3" (underload_packet_magic_header d)
  ++ item_s "h4" (transport_packet_magic_header d)
  ++ item_s "i1" (i1 d)
  ++ item_s "i2" (i2 d)
  ++ item_s "i3" (i3 d)
  ++ item_s "i4" (i4 d)
  ++ item_s "i5" (i5 d).

Fixpoint pretty_allowedips (l : list wgallowedip) : list byte :=
  match l with
  | [] => []
  | a :: next =>
      terminal_printf (ip_text a ++ TERMINAL_FG_CYAN ++ text "/" ++ TERMINAL_RESET ++ print_u (cidr a)
                       ++ (if (length next =? 0)%nat then newline else text ", "))
      ++ pretty_allowedips next
  end.

(** The buffers of [ago] and [every] are overwritten in each call: the callers rule out a
    time of zero seconds, the one that leaves them as they were. *)
Definition pretty_peer (p : wgpeer) : list byte :=
  terminal_printf (TERMINAL_FG_YELLOW ++ TERMINAL_BOLD ++ text "peer" ++ TERMINAL_RESET ++ text ": "
                   ++ TERMINAL_FG_YELLOW ++ key (peer_public_key p) ++ TERMINAL_RESET ++ newline)
  ++ print_if (has_flag (peer_flags p) WGPEER_HAS_PRESHARED_KEY)
       (item "preshared key" (masked_key (preshared_key p)))
  ++ print_if (has_endpoint p) (item "endpoint" (endpoint_text (endpoint p)))
  ++ terminal_printf (text "  " ++ TERMINAL_BOLD ++ text "allowed ips" ++ TERMINAL_RESET ++ text ": ")
  ++ (if (length (allowedips p) =? 0)%nat then terminal_printf (text "(none)" ++ newline)
      else pretty_allowedips (allowedips p))
  ++ print_if (negb (tv_sec (last_handshake_time p) =? 0))
       (item "latest handshake" (ago now [] (last_handshake_time p)))
  ++ print_if (negb (rx_bytes p =? 0) || negb (tx_bytes p =? 0))
       (terminal_printf (text "  " ++ TERMINAL_BOLD ++ text "transfer" ++ TERMINAL_RESET ++ text ": ")
        ++ terminal_printf (bytes_text (rx_bytes p) ++ text " received, ")
        ++ terminal_printf (bytes_text (tx_bytes p) ++ text " sent" ++ newline))
  ++ print_if (negb (persistent_keepalive_interval p =? 0))
       (item "persistent keepalive" (every [] (persistent_keepalive_interval p))).

Fixpoint pretty_peers (l : list wgpeer) : list byte :=
  match l with
  | [] => []
  | p :: next => pretty_peer p ++ print_if (negb (length next =? 0)%nat) (terminal_printf newline)
                 ++ pretty_peers next
  end.

Definition pretty_print (d : wgdevice) : list byte :=
  pretty_interface d
  ++ (if (length (peers d) =? 0)%nat then []
      else terminal_printf newline ++ pretty_peers (peers (sort_peers d))).

(** ** [dump_print] *)

Definition fwmark_text (d : wgdevice) : list byte :=
  if negb (fwmark d =? 0) then text "0x" ++ print_x (fwmark d) else text "off".

Definition keepalive_text (p : wgpeer) : list byte :=
  if negb (persistent_keepalive_interval p =? 0) then print_u (persistent_keepalive_interval p)
  else text "off".

Definition peer_endpoint_text (p : wgpeer) : list byte :=
  if has_endpoint p then endpoint_text (endpoint p) else text "(none)".

(** The allowed IPs with [sep] between them and [fin] at the end. *)
Fixpoint print_allowedips (sep fin : list byte) (l : list wgallowedip) : list byte :=
  match l with
  | [] => []
  | a :: next => ip_text a ++ text "/" ++ print_u (cidr a)
                 ++ (if (length next =? 0)%nat then fin else sep) ++ print_allowedips sep fin next
  end.

Definition peer_allowedips (sep fin : list byte) (p : wgpeer) : list byte :=
  if (length (allowedips p) =? 0)%nat then text "(none)" ++ fin
  else print_allowedips sep fin (allowedips p).

Definition dump_device (d : wgdevice) (with_interface : bool) : list byte :=
  print_if with_interface (name d ++ tab)
  ++ maybe_key (private_key d) (has_flag (flags d) WGDEVICE_HAS_PRIVATE_KEY) ++ tab
  ++ maybe_key (public_key d) (has_flag (flags d) WGDEVICE_HAS_PUBLIC_KEY) ++ tab
  ++ print_u (listen_port d) ++ tab
  ++ print_u (junk_packet_count d) ++ tab
  ++ print_u (junk_packet_min_size d) ++ tab
  ++ print_u (junk_packet_max_size d) ++ tab
  ++ print_u (init_packet_junk_size d) ++ tab
  ++ print_u (response_packet_junk_size d) ++ tab
  ++ print_u (cookie_reply_packet_junk_size d) ++ tab
  ++ print_u (transport_packet_junk_size d) ++ tab
  ++ print_s (init_packet_magic_header d) ++ tab
  ++ print_s (response_packet_magic_header d) ++ tab
  ++ print_s (underload_packet_magic_header d) ++ tab
  ++ print_s (transport_packet_magic_header d) ++ tab
  ++ print_s (i1 d) ++ tab
  ++ print_s (i2 d) ++ tab
  ++ print_s (i3 d) ++ tab
  ++ print_s (i4 d) ++ tab
  ++ print_s (i5 d) ++ tab
  ++ fwmark_text d ++ newline.

Definition dump_peer (d : wgdevice) (with_interface : bool) (p : wgpeer) : list byte :=
  print_if with_interface (name d ++ tab)
  ++ key (peer_public_key p) ++ tab
  ++ maybe_key (preshared_key p) (has_flag (peer_flags p) WGPEER_HAS_PRESHARED_KEY) ++ tab
  ++ peer_endpoint_text p ++ tab
  ++ peer_allowedips (text ",") tab p
  ++ print_u (u64 (tv_sec (last_handshake_time p))) ++ tab
  ++ print_u (rx_bytes p) ++ tab ++ print_u (tx_bytes p) ++ tab
  ++ keepalive_text p ++ newline.

Definition dump_print (d : wgdevice) (with_interface : bool) : list byte :=
  dump_device d with_interface ++ concat (map (dump_peer d with_interface) (peers d)).

(** ** [ugly_print] *)

(** What it writes, and whether the parameter is known. *)
Definition ugly_print (d : wgdevice) (param : list byte) (with_interface : bool) : bool * list byte :=
  let param_is (s : string) := strcmp_eq param (text s) in
  let device value := (true, print_if with_interface (name d ++ tab) ++ value ++ newline) in
  let each (f : wgpeer -> list byte) :=
    (true, concat (map (fun p => print_if with_interface (name d ++ tab) ++ f p) (peers d))) in
  if param_is "public-key"%string then device (maybe_key (public_key d) (has_flag (flags d) WGDEVICE_HAS_PUBLIC_KEY))
  else if param_is "private-key"%string then device (maybe_key (private_key d) (has_flag (flags d) WGDEVICE_HAS_PRIVATE_KEY))
  else if param_is "listen-port"%string then device (print_u (listen_port d))
  else if param_is "fwmark"%string then device (fwmark_text d)
  else if param_is "jc"%string then device (print_u (junk_packet_count d))
  else if param_is "jmin"%string then device (print_u (junk_packet_min_size d))
  else if param_is "jmax"%string then device (print_u (junk_packet_max_size d))
  else if param_is "s1"%string then device (print_u (init_packet_junk_size d))
  else if param_is "s2"%string then device (print_u (response_packet_junk_size d))
  else if param_is "s3"%string then device (print_u (cookie_reply_packet_junk_size d))
  else if param_is "s4"%string then device (print_u (transport_packet_junk_size d))
  else if param_is "h1"%string then device (print_s (init_packet_magic_header d))
  else if param_is "h2"%string then device (print_s (response_packet_magic_header d))
  else if param_is "h3"%string then device (print_s (underload_packet_magic_header d))
  else if param_is "h4"%string then device (print_s (transport_packet_magic_header d))
  else if param_is "i1"%string then device (print_s (i1 d))
  else if param_is "i2"%string then device (print_s (i2 d))
  else if param_is "i3"%string then device (print_s (i3 d))
  else if param_is "i4"%string then device (print_s (i4 d))
  else if param_is "i5"%string then device (print_s (i5 d))
  else if param_is "endpoints"%string then
    each (fun p => key (peer_public_key p) ++ tab ++ peer_endpoint_text p ++ newline)
  else if param_is "allowed-ips"%string then
    each (fun p => key (peer_public_key p) ++ tab ++ peer_allowedips (text " ") newline p)
  else if param_is "latest-handshakes"%string then
    each (fun p => key (peer_public_key p) ++ tab ++ print_u (u64 (tv_sec (last_handshake_time p))) ++ newline)
  else if param_is "transfer"%string then
    each (fun p => key (peer_public_key p) ++ tab ++ print_u (rx_bytes p) ++ tab
                   ++ print_u (tx_bytes p) ++ newline)
  else if param_is "persistent-keepalive"%string then
    each (fun p => key (peer_public_key p) ++ tab ++ keepalive_text p ++ newline)
  else if param_is "preshared-keys"%string then
    each (fun p => key (peer_public_key p) ++ tab
                   ++ maybe_key (preshared_key p) (has_flag (peer_flags p) WGPEER_HAS_PRESHARED_KEY)
                   ++ newline)
  else if param_is "peers"%string then each (fun p => key (peer_public_key p) ++ newline)
  else if param_is "dump"%string then (true, dump_print d with_interface)
  else (false, []).

(** ** [show_main] *)

Context `{Ipc}.

(** The loop over all the interfaces; [interface] is the rest of the buffer of names,
    [param] the third argument. *)
Fixpoint show_all_loop (fuel : nat) (param : option (list byte)) (interface : list byte) (ret : Z) :
    outcome (Z * list byte) :=
  match fuel with
  | O => OutOfFuel
  | S fuel' =>
      let len := length (c_str interface) in
      if (len =? 0)%nat then Returns (ret, [])
      else
        let next := drop (len + 1) interface in
        match ipc_get_device (c_str interface) with
        | None => show_all_loop fuel' param next ret
        | Some device =>
            match param with
            | Some p =>
                let '(ok, out) := ugly_print device p true in
                if negb ok then Returns (1, out)
                else let! (rest : Z * list byte) := show_all_loop fuel' param next 0 in
                     Returns (fst rest, out ++ snd rest)
            | None =>
                let out := pretty_print device
                           ++ print_if (negb (length (c_str next) =? 0)%nat) newline in
                let! (rest : Z * list byte) := show_all_loop fuel' param next 0 in
                Returns (fst rest, out ++ snd rest)
            end
        end
  end.

Fixpoint show_names_loop (fuel : nat) (interface : list byte) : outcome (list byte) :=
  match fuel with
  | O => OutOfFuel
  | S fuel' =>
      let len := length (c_str interface) in
      if (len =? 0)%nat then Returns []
      else
        let next := drop (len + 1) interface in
        let! (rest : list byte) := show_names_loop fuel' next in
        Returns (c_str interface ++ (if (length (c_str next) =? 0)%nat then newline else text " ") ++ rest)
  end.

(** The exit status and the output; [interfaces] is what [ipc_list_devices] returns, [None]
    for NULL, and [fuel] bounds the number of names. *)
Definition show_main (fuel : nat) (interfaces : option (list byte)) (argv : list (list byte)) :
    outcome (Z * list byte) :=
  let all param :=
    match interfaces with
    | None => Returns (1, [])
    | Some buf => show_all_loop fuel param buf (if Byte.eqb (byte_at buf 0) x00 then 0 else 1)
    end in
  let one interface param :=
    match ipc_get_device interface with
    | None => Returns (1, [])
    | Some device =>
        match param with
        | Some p => let '(ok, out) := ugly_print device p false in Returns (if ok then 0 else 1, out)
        | None => Returns (0, pretty_print device)
        end
    end in
  match argv with
  | [_] => all None
  | [_; a] =>
      if strcmp_eq a (text "all") then all None
      else if strcmp_eq a (text "interfaces") then
        match interfaces with
        | None => Returns (1, [])
        | Some buf => let! out := show_names_loop fuel buf in Returns (0, out)
        end
      else if strcmp_eq a (text "-h") || strcmp_eq a (text "--help") || strcmp_eq a (text "help")
      then Returns (0, [])
      else one a None
  | [_; a; p] =>
      if strcmp_eq a (text "all") then all (Some p)
      else if strcmp_eq a (text "interfaces") then Returns (1, [])
      else one a (Some p)
  | _ => Returns (1, [])
  end.

End Show.
