(* ===== verification/ShowOk.v ===== *)
(** * What [awg show] prints

    The peers are listed by their last handshake; secret keys are hidden from people
    unless asked for; the table for scripts splits back into its fields; times are exact
    and never cut; and [awg show] treats every interface in turn. *)

From Stdlib Require Import Sorted Permutation.
From S2P Require Import Prelude CString Encoding Containers CSort Terminal Ipc NetLib NetLibNumeric.
From S2P Require Import WellFormed ShowConf ConfRoundtrip Show.
#[local] Open Scope Z_scope.
#[local] Open Scope awg_scope.

(** ** The order of the peers *)

(** The last handshake of [a] is not before that of [b]. *)
Definition not_older (a b : wgpeer) : Prop :=
  tv_sec (last_handshake_time b) < tv_sec (last_handshake_time a)
  \/ tv_sec (last_handshake_time a) = tv_sec (last_handshake_time b)
     /\ tv_nsec (last_handshake_time b) <= tv_nsec (last_handshake_time a).

(** The time of a handshake, as the kernel reports it in a [time_t]; zero for none. *)
Definition time_ok `{Platform} (p : wgpeer) : Prop :=
  0 <= tv_sec (last_handshake_time p) < 2 ^ (ulong_bits - 1)
  /\ 0 <= tv_nsec (last_handshake_time p) < 10 ^ 9.

Section Order.
Context `{P : Platform} `{!PlatformOk P} `{S : CSort} `{!CSortLaws S}.

Lemma time_t_small (z : Z) : - 2 ^ (ulong_bits - 1) <= z < 2 ^ (ulong_bits - 1) -> time_t z = z.
Proof.
  intros Hz. unfold time_t, uw.
  destruct ulong_bits_cases as [E | E]; rewrite E in *; cbn in *;
    (destruct (Z.leb_spec 0 z);
     [rewrite Z.mod_small by lia; by rewrite (proj2 (Z.leb_gt _ _)) by lia |]);
    rewrite <- (Z.mod_add z 1) by lia; rewrite Z.mod_small by lia;
    rewrite (proj2 (Z.leb_le _ _)) by lia; lia.
Qed.

Lemma peer_cmp_order (a b : wgpeer) : time_ok a -> time_ok b -> peer_cmp a b <= 0 <-> not_older a b.
Proof.
  intros [Ha Hna] [Hb Hnb]. unfold peer_cmp, not_older, has_handshake.
  assert (10 ^ 9 < 2 ^ (ulong_bits - 1)) by (destruct ulong_bits_cases as [-> | ->]; cbn; lia).
  rewrite !time_t_small by lia.
  repeat match goal with |- context [?x =? ?y] => destruct (Z.eqb_spec x y) end; cbn [negb andb orb];
    repeat match goal with |- context [?x <? ?y] => destruct (Z.ltb_spec x y) end; lia.
Qed.

(** A preorder on the indices below [n] extends to all of them. *)
Lemma peer_cmp_comparison (ps : list wgpeer) : Forall time_ok ps ->
  comparison (fun i j => peer_cmp (peer_at ps i) (peer_at ps j)).
Proof.
  intros Ht.
  assert (forall i, time_ok (peer_at ps i)) as Hi.
  { intros i. unfold peer_at. destruct (nth_in_or_default i ps zero_peer) as [Hin | ->].
    - rewrite List.Forall_forall in Ht. by apply Ht.
    - split; cbn; [destruct ulong_bits_cases as [-> | ->]; cbn; lia | lia]. }
  split; intros x y.
  - rewrite !peer_cmp_order by done. unfold not_older. lia.
  - intros z. rewrite !peer_cmp_order by done. unfold not_older. lia.
Qed.

Lemma map_peer_at (ps : list wgpeer) : map (peer_at ps) (seq 0 (length ps)) = ps.
Proof.
  apply nth_ext with (d := zero_peer) (d' := zero_peer); rewrite length_map, length_seq; [done |].
  intros i Hi. rewrite nth_indep with (d' := peer_at ps 0) by (by rewrite length_map, length_seq).
  rewrite map_nth, seq_nth by done. done.
Qed.

(** [sort_peers] lists the same peers, the most recent handshake first and the peers that
    have had none last, and changes nothing else of the device: [peer_cmp] is a consistent
    comparison although it goes through a narrowing difference. *)
Theorem sort_peers_sorted (d : wgdevice) : Forall time_ok (peers d) ->
  Permutation (peers (sort_peers d)) (peers d)
  /\ StronglySorted not_older (peers (sort_peers d))
  /\ sort_peers d = d <| peers := peers (sort_peers d) |>.
Proof.
  intros Ht. unfold sort_peers. destruct (Nat.eqb_spec (length (peers d)) 0) as [E | E].
  { destruct d as [? ? ? ? ? ? ? []]; [| done]. repeat split; [apply Permutation_refl | constructor]. }
  set (cmp := fun i j => peer_cmp (peer_at (peers d) i) (peer_at (peers d) j)). set (array := qsort cmp _). cbn [modify peers].
  assert (Permutation array (seq 0 (length (peers d)))) as Hp by apply qsort_perm.
  split; [| split; [| done]].
  - transitivity (map (peer_at (peers d)) (seq 0 (length (peers d)))); [by apply Permutation_map |].
    by rewrite map_peer_at.
  - assert (StronglySorted (fun i j => cmp i j <= 0) array) as Hs
      by apply qsort_sorted, peer_cmp_comparison, Ht.
    assert (forall i, In i array -> time_ok (peer_at (peers d) i)) as Hi.
    { intros i Hin. apply (Permutation_in _ Hp), in_seq in Hin. rewrite List.Forall_forall in Ht.
      apply Ht, nth_In. lia. }
    clear Hp. induction Hs as [|i l Hs IH Hle]; cbn [map]; [constructor |]. constructor.
    + apply IH. intros j Hj. apply Hi. by right.
    + apply List.Forall_forall. intros p [j [<- Hj]]%in_map_iff.
      apply peer_cmp_order; [apply Hi; by left | apply Hi; by right |].
      rewrite List.Forall_forall in Hle. by apply Hle.
Qed.
End Order.

(** ** Secret keys *)

Definition redact_peer (p : wgpeer) : wgpeer := p <| preshared_key := zero_key |>.

(** The device without its secrets. *)
Definition redact (d : wgdevice) : wgdevice :=
  d <| private_key := zero_key |> <| peers ::= map redact_peer |>.

Section Secrets.
Context `{P : Platform} `{N : NetLib} `{S : CSort} `{!CSortLaws S}.
Context (gai_text : list byte -> list byte) (isatty : bool) (now : Z).

Lemma masked_key_hidden (k k' : list byte) : getenv (text "WG_HIDE_KEYS") <> Some (text "never") ->
  masked_key k = masked_key k'.
Proof.
  intros Hh. unfold masked_key. destruct (getenv _) as [var |]; [| done].
  unfold strcmp_eq. rewrite beq_neq; [done |]. by intros ->.
Qed.

Lemma sort_peers_redact (d : wgdevice) : peers (sort_peers (redact d)) = map redact_peer (peers (sort_peers d)).
Proof.
  unfold sort_peers, redact. cbn [peers modify]. rewrite length_map.
  destruct (length (peers d) =? 0)%nat; [done |]. cbn [peers modify].
  assert (forall i, peer_at (map redact_peer (peers d)) i = redact_peer (peer_at (peers d) i)) as Hi.
  { intros i. unfold peer_at. change zero_peer with (redact_peer zero_peer) at 1. apply map_nth. }
  rewrite (qsort_ext _ (fun i j => peer_cmp (peer_at (peers d) i) (peer_at (peers d) j)));
    [| intros; by rewrite !Hi].
  rewrite map_map. apply map_ext. intros i. apply Hi.
Qed.

Lemma pretty_interface_redact (d : wgdevice) : getenv (text "WG_HIDE_KEYS") <> Some (text "never") ->
  pretty_interface isatty d = pretty_interface isatty (redact d).
Proof.
  intros Hh. unfold pretty_interface. cbn [redact modify name flags public_key private_key fwmark listen_port
    junk_packet_count junk_packet_min_size junk_packet_max_size init_packet_junk_size
    response_packet_junk_size cookie_reply_packet_junk_size transport_packet_junk_size
    init_packet_magic_header response_packet_magic_header underload_packet_magic_header
    transport_packet_magic_header i1 i2 i3 i4 i5].
  rewrite (masked_key_hidden (private_key d) zero_key Hh). reflexivity.
Qed.

Lemma pretty_peer_redact (p : wgpeer) : getenv (text "WG_HIDE_KEYS") <> Some (text "never") ->
  pretty_peer gai_text isatty now p = pretty_peer gai_text isatty now (redact_peer p).
Proof.
  intros Hh. unfold pretty_peer, has_endpoint. cbn [redact_peer modify peer_flags peer_public_key preshared_key
    endpoint last_handshake_time rx_bytes tx_bytes persistent_keepalive_interval awg allowedips].
  rewrite (masked_key_hidden (preshared_key p) zero_key Hh). reflexivity.
Qed.

(** C38: [awg show] keeps secrets: unless WG_HIDE_KEYS is "never", what [pretty_print] prints
    does not depend on the private key or on any preshared key; it is what it prints for
    the device with those keys zeroed. *)
Theorem pretty_print_hides (d : wgdevice) : getenv (text "WG_HIDE_KEYS") <> Some (text "never") ->
  pretty_print gai_text isatty now d = pretty_print gai_text isatty now (redact d).
Proof.
  intros Hh. unfold pretty_print. rewrite sort_peers_redact, pretty_interface_redact by done. f_equal.
  assert (length (peers (redact d)) = length (peers d)) as -> by apply length_map.
  destruct (_ =? _)%nat; [reflexivity |]. f_equal.
  induction (peers (sort_peers d)) as [|p l IH]; [reflexivity |]. cbn [pretty_peers map].
  rewrite length_map, <- IH, <- pretty_peer_redact by done. reflexivity.
Qed.
End Secrets.

(** ** Times *)

Definition join (sep : list byte) (l : list (list byte)) : list byte :=
  match l with
  | [] => []
  | x :: rest => x ++ concat (map (app sep) rest)
  end.

(** "3 hours", with its colours. *)
Definition amount (u : Z * string) : list byte :=
  let '(n, unit) := u in
  print_u n ++ text " " ++ TERMINAL_FG_CYAN ++ text unit ++ (if n =? 1 then [] else text "s") ++ TERMINAL_RESET.

Definition nonzero (u : Z * string) : bool := negb (fst u =? 0).

(** A number of at most 64 bits and a unit of at most six letters. *)
Definition unit_ok (u : Z * string) : Prop :=
  0 <= fst u < 2 ^ 64 /\ (length (text (snd u)) <= 6)%nat.

Lemma digits_of_length (fuel : nat) (base n : Z) (acc : list byte) :
  (length (digits_of fuel base n acc) <= fuel + length acc)%nat.
Proof.
  revert n acc. induction fuel as [|fuel IH]; intros n acc; cbn [digits_of]; [cbn; lia |].
  destruct (_ <? _); [cbn; lia |]. etransitivity; [apply IH |]. cbn. lia.
Qed.

Lemma print_u_length (n : Z) : 0 <= n < 2 ^ 64 -> (length (print_u n) <= 64)%nat.
Proof.
  intros Hn. unfold print_u, print_base. etransitivity; [apply digits_of_length |]. cbn [length].
  assert (Z.log2 n < 64); [| lia].
  destruct (Z.eq_dec n 0) as [-> |]; [cbn; lia |]. apply Z.log2_lt_pow2; lia.
Qed.

Lemma amount_length (u : Z * string) : unit_ok u -> (length (amount u) <= 81)%nat.
Proof.
  destruct u as [n unit]. intros [Hn Hu]. cbn [fst snd] in *. unfold amount. rewrite !length_app.
  pose proof (print_u_length n Hn).
  change (length (text " ")) with 1%nat. change (length TERMINAL_FG_CYAN) with 5%nat.
  change (length TERMINAL_RESET) with 4%nat.
  destruct (n =? 1); cbn [length]; [lia |]. change (length (text "s")) with 1%nat. lia.
Qed.

Lemma snprintf_at_fits (buf s : list byte) (offset len : Z) :
  0 <= offset -> Z.to_nat offset = length buf \/ offset = 0 ->
  offset + Z.of_nat (length s) < len < 2 ^ 64 ->
  snprintf_at buf offset len s = (take (Z.to_nat offset) buf ++ s, Z.of_nat (length s)).
Proof.
  intros H0 Ho Hl. unfold snprintf_at. rewrite (uw_small 64) by lia.
  destruct (Z.eqb_spec (len - offset) 0); [lia |]. rewrite (take_ge s) by lia. done.
Qed.

(** Once something is in the buffer, each unit is appended after a comma. *)
Lemma put_units_more (len : Z) (us : list (Z * string)) (buf : list byte) :
  Forall unit_ok us -> buf <> [] -> Z.of_nat (length buf + 83 * length us) < len < 2 ^ 64 ->
  let out := buf ++ concat (map (app (text ", ")) (map amount (List.filter nonzero us))) in
  fold_left (put_unit len) us (buf, Z.of_nat (length buf)) = (out, Z.of_nat (length out)).
Proof.
  intros Hu. revert buf. induction Hu as [|[n unit] us Hok Hu IH]; intros buf Hb Hl.
  { cbn. by rewrite app_nil_r. }
  pose proof (amount_length _ Hok) as Ha. unfold amount in Ha.
  cbn [fold_left put_unit List.filter] in *. cbn [length] in Hl.
  change (nonzero (n, unit)) with (negb (n =? 0)) in *.
  destruct (Z.eqb_spec n 0) as [-> | Hn]; cbn [negb].
  { apply (IH buf Hb). lia. }
  assert (unit_text (Z.of_nat (length buf)) n unit = text ", " ++ amount (n, unit)) as Eu.
  { unfold unit_text, amount. destruct (Z.eqb_spec (Z.of_nat (length buf)) 0); [| done].
    destruct buf; [done | cbn in *; lia]. }
  rewrite Eu, snprintf_at_fits; [| lia | lia |].
  2: { rewrite length_app. change (length (text ", ")) with 2%nat. unfold amount. lia. }
  rewrite Nat2Z.id, firstn_all, (uw_small 64).
  2: { rewrite length_app. change (length (text ", ")) with 2%nat. unfold amount. lia. }
  rewrite <- Nat2Z.inj_add, <- length_app.
  specialize (IH (buf ++ text ", " ++ amount (n, unit))). cbv zeta in IH. rewrite IH.
  - cbn [map concat]. rewrite <- !app_assoc. done.
  - by destruct buf.
  - rewrite !length_app. change (length (text ", ")) with 2%nat. unfold amount. lia.
Qed.

Lemma put_units (len : Z) (us : list (Z * string)) (buf : list byte) :
  Forall unit_ok us -> Z.of_nat (83 * length us) < len < 2 ^ 64 -> List.filter nonzero us <> [] ->
  let out := join (text ", ") (map amount (List.filter nonzero us)) in
  fold_left (put_unit len) us (buf, 0) = (out, Z.of_nat (length out)).
Proof.
  induction 1 as [|[n unit] us Hok Hu IH]; intros Hl Hne; [done |].
  pose proof (amount_length _ Hok) as Ha. unfold amount in Ha.
  cbn [fold_left put_unit List.filter] in *. cbn [length] in Hl.
  change (nonzero (n, unit)) with (negb (n =? 0)) in *.
  destruct (Z.eqb_spec n 0) as [-> | Hn]; cbn [negb] in *.
  { apply IH; [lia | done]. }
  assert (unit_text 0 n unit = amount (n, unit)) as Eu by done.
  rewrite Eu, snprintf_at_fits; [| lia | lia | unfold amount; lia].
  change (take (Z.to_nat 0) buf) with (@nil byte). cbn [app].
  rewrite Z.add_0_l, (uw_small 64) by (unfold amount; lia).
  apply put_units_more; [done | | unfold amount; lia].
  unfold amount. destruct (print_u n) eqn:E; [| done]. by destruct (print_u_digits n ltac:(destruct Hok; cbn in *; lia)).
Qed.

Lemma join_length (sep : list byte) (l : list (list byte)) (k : nat) :
  Forall (fun x => (length x <= k)%nat) l -> (length (join sep l) <= (k + length sep) * length l)%nat.
Proof.
  intros Hl. assert (length (concat (map (app sep) l)) <= (k + length sep) * length l)%nat as Hc.
  { induction Hl; cbn [map concat length]; [lia |]. rewrite !length_app. lia. }
  destruct Hl as [|x l Hx Hl]; [done |]. cbn [join map concat length] in *. rewrite !length_app in *. lia.
Qed.

Lemma filter_nonempty {A} (f : A -> bool) (l : list A) : existsb f l = true -> List.filter f l <> [].
Proof. induction l as [|x l IH]; cbn; [done |]. destruct (f x); [done | apply IH]. Qed.

(** [pretty_time] is exact and never cut: for any nonzero 64-bit number of seconds and a
    buffer of the size its callers have, it writes the years, days, hours, minutes and
    seconds that make up the time, those that are not zero, and returns the length of the
    text, which leaves room for what the callers add; what the buffer held is gone. *)
Theorem pretty_time_exact (buf : list byte) (len left : Z) : 0 < left < 2 ^ 64 -> 1017 <= len <= 1024 ->
  exists years days hours minutes seconds,
    left = (((years * 365 + days) * 24 + hours) * 60 + minutes) * 60 + seconds
    /\ 0 <= years /\ 0 <= days < 365 /\ 0 <= hours < 24 /\ 0 <= minutes < 60 /\ 0 <= seconds < 60
    /\ let out := join (text ", ") (map amount (List.filter nonzero
         [(years, "year"); (days, "day"); (hours, "hour"); (minutes, "minute"); (seconds, "second")]%string)) in
       pretty_time buf len left = (out, Z.of_nat (length out)) /\ Z.of_nat (length out) < len - 5.
Proof.
  intros Hl Hlen.
  exists (left / 31536000), (left mod 31536000 / 86400), (left mod 31536000 mod 86400 / 3600),
    (left mod 31536000 mod 86400 mod 3600 / 60), (left mod 31536000 mod 86400 mod 3600 mod 60).
  do 6 (split; [zlia |]). cbv zeta.
  set (us := [(_, "year"%string); _; _; _; _]).
  assert (Forall unit_ok us) as Hu.
  { repeat (apply Forall_cons; split); try (split; [cbn; zlia | cbn; lia]). apply Forall_nil. done. }
  assert (List.filter nonzero us <> []) as Hne.
  { apply filter_nonempty. subst us. unfold nonzero. cbn [existsb fst].
    repeat match goal with |- context [?x =? 0] => destruct (Z.eqb_spec x 0); [| done] end. exfalso. zlia. }
  split; [apply (put_units len us buf Hu); [cbn; lia | done] |].
  assert (length (join (text ", ") (map amount (List.filter nonzero us))) <= 83 * 5)%nat as Hj; [| lia].
  etransitivity; [apply join_length with (k := 81%nat) |].
  - apply Forall_map, List.Forall_forall. intros u [Hin _]%filter_In. apply amount_length.
    rewrite List.Forall_forall in Hu. by apply Hu.
  - rewrite length_map. change (length (text ", ")) with 2%nat.
    pose proof (List.filter_length_le nonzero us). change (length us) with 5%nat in *. lia.
Qed.

(** ** The table for scripts *)

(** A character of a field: no tab and no newline. *)
Definition field_char (c : byte) : bool := negb (Byte.eqb c x09) && negb (Byte.eqb c x0a).
Definition is_field (s : list byte) : Prop := forallb field_char s = true.

Definition row (fields : list (list byte)) : list byte := join tab fields ++ newline.

Section Dump.
Context `{N : NetLib} (gai_text : list byte -> list byte).

(** The columns of the line of the interface and of the line of a peer. *)
Definition device_fields (d : wgdevice) : list (list byte) :=
  [ maybe_key (private_key d) (has_flag (flags d) WGDEVICE_HAS_PRIVATE_KEY);
    maybe_key (public_key d) (has_flag (flags d) WGDEVICE_HAS_PUBLIC_KEY);
    print_u (listen_port d); print_u (junk_packet_count d); print_u (junk_packet_min_size d);
    print_u (junk_packet_max_size d); print_u (init_packet_junk_size d);
    print_u (response_packet_junk_size d); print_u (cookie_reply_packet_junk_size d);
    print_u (transport_packet_junk_size d);
    print_s (init_packet_magic_header d); print_s (response_packet_magic_header d);
    print_s (underload_packet_magic_header d); print_s (transport_packet_magic_header d);
    print_s (i1 d); print_s (i2 d); print_s (i3 d); print_s (i4 d); print_s (i5 d);
    fwmark_text d ].

Definition allowedips_field (p : wgpeer) : list byte :=
  if (length (allowedips p) =? 0)%nat then text "(none)"
  else join (text ",") (map (fun a => ip_text a ++ text "/" ++ print_u (cidr a)) (allowedips p)).

Definition peer_fields (p : wgpeer) : list (list byte) :=
  [ key (peer_public_key p);
    maybe_key (preshared_key p) (has_flag (peer_flags p) WGPEER_HAS_PRESHARED_KEY);
    peer_endpoint_text gai_text p; allowedips_field p;
    print_u (u64 (tv_sec (last_handshake_time p))); print_u (rx_bytes p); print_u (tx_bytes p);
    keepalive_text p ].

Definition dump_rows (d : wgdevice) (with_interface : bool) : list (list (list byte)) :=
  map (app (if with_interface then [name d] else [])) (device_fields d :: map peer_fields (peers d)).

(** What has to hold for the texts that come from outside to be fields. *)
Record dumpable (d : wgdevice) : Prop := Dumpable {
  du_wf : wf_device d;
  du_name : is_field (name d);
  du_endpoints : Forall (fun p => endpoint_ok (endpoint p)) (peers d);
  du_counters : Forall (fun p => 0 <= rx_bytes p /\ 0 <= tx_bytes p) (peers d);
  du_strings : Forall (fun s => is_field (print_s s))
    [init_packet_magic_header d; response_packet_magic_header d; underload_packet_magic_header d;
     transport_packet_magic_header d; i1 d; i2 d; i3 d; i4 d; i5 d];
}.

Lemma print_allowedips_join (sep fin : list byte) (l : list wgallowedip) : l <> [] ->
  print_allowedips sep fin l = join sep (map (fun a => ip_text a ++ text "/" ++ print_u (cidr a)) l) ++ fin.
Proof.
  induction l as [|a l IH]; [done |]. intros _. cbn [print_allowedips map join].
  destruct l as [|b l]; [cbn; by rewrite !app_nil_r, <- !app_assoc |].
  rewrite IH by done. cbn [length Nat.eqb map concat join]. by rewrite <- !app_assoc.
Qed.

Lemma peer_allowedips_field (p : wgpeer) : peer_allowedips (text ",") tab p = allowedips_field p ++ tab.
Proof.
  unfold peer_allowedips, allowedips_field. destruct (Nat.eqb_spec (length (allowedips p)) 0) as [E | E]; [done |].
  apply print_allowedips_join. intros H. by rewrite H in E.
Qed.

Lemma dump_print_rows (d : wgdevice) (w : bool) :
  dump_print gai_text d w = concat (map row (dump_rows d w)).
Proof.
  unfold dump_print, dump_rows. rewrite map_map. cbn [map concat]. f_equal.
  - unfold dump_device, row, device_fields. destruct w; cbn [print_if app map concat join]; by rewrite <- !app_assoc.
  - rewrite map_map. f_equal. apply map_ext. intros p. unfold dump_peer, row, peer_fields.
    rewrite peer_allowedips_field.
    destruct w; cbn [print_if app map concat join]; by rewrite <- !app_assoc.
Qed.

(** *** Fields *)

Lemma is_field_app (a b : list byte) : is_field a -> is_field b -> is_field (a ++ b).
Proof. unfold is_field. intros. rewrite forallb_app. by apply andb_true_iff. Qed.

Lemma is_field_weaken (f : byte -> bool) (s : list byte) :
  forallb (fun c => negb (f c) || field_char c) all_bytes = true -> forallb f s = true -> is_field s.
Proof.
  intros Hall. apply forallb_weaken. intros c Hc. pose proof (byte_exhaust _ Hall c) as H1. cbv beta in H1.
  by rewrite Hc in H1.
Qed.

Lemma print_base_field (base n : Z) : 2 <= base <= 36 -> 0 <= n -> is_field (print_base base n).
Proof.
  intros Hb Hn. destruct (print_base_numeral base n Hb Hn) as (_ & Hds & _).
  apply (is_field_weaken (fun c => match digit_val c with Some _ => true | None => false end)); [by vm_compute |].
  apply List.forallb_forall. intros c Hc. rewrite List.Forall_forall in Hds. destruct (Hds c Hc) as [d Hd].
  unfold base_digit in Hd. by destruct (digit_val c).
Qed.

Lemma key_field (k : list byte) : is_field (key k).
Proof.
  apply (is_field_weaken (fun c => existsb (Byte.eqb c) ("="%byte :: base64_alphabet))); [by vm_compute |].
  apply List.forallb_forall. intros c Hc. pose proof (key_to_base64_chars k) as Hk.
  rewrite List.Forall_forall in Hk. apply existsb_exists. exists c. split; [by apply Hk | apply byte_eqb_refl].
Qed.

Lemma maybe_key_field (k : list byte) (b : bool) : is_field (maybe_key k b).
Proof. destruct b; [apply key_field | done]. Qed.

Lemma plain_field (s : list byte) : forallb plain_char s = true -> is_field s.
Proof. apply is_field_weaken. by vm_compute. Qed.

Lemma join_field (sep : list byte) (l : list (list byte)) : is_field sep -> Forall is_field l -> is_field (join sep l).
Proof.
  intros Hs Hl. destruct Hl as [|x l Hx Hl]; [done |]. cbn [join]. apply is_field_app; [done |].
  induction Hl; cbn [map concat]; [done |]. by repeat apply is_field_app.
Qed.

Context `{!NetLibLaws N}.

Lemma ip_text_field (a : wgallowedip) : wf_allowedip a -> is_field (ip_text a).
Proof.
  intros [Hl Hc]. unfold ip_text. destruct Hc as [[-> _] | [-> _]]; cbn [Z.eqb].
  - destruct (pton_ntop4 (ip4 a)) as (t & Et & _ & _ & Hp & _); [unfold ip4; rewrite length_take; lia |].
    change (if AF_INET =? AF_INET then default [] (inet_ntop AF_INET (ip4 a)) else _)
      with (default [] (inet_ntop AF_INET (ip4 a))). rewrite Et. by apply plain_field.
  - destruct (pton_ntop6 (ip6 a) Hl) as (t & Et & _ & _ & Hp & _).
    change (is_field (default [] (inet_ntop AF_INET6 (ip6 a)))). rewrite Et. by apply plain_field.
Qed.

Lemma endpoint_field (p : wgpeer) : endpoint_ok (endpoint p) -> is_field (peer_endpoint_text gai_text p).
Proof.
  unfold endpoint_ok, endpoint_addr, peer_endpoint_text, has_endpoint, endpoint_text. intros Hok.
  assert (forall sa v6, is_endpoint sa -> is_field
    match getnameinfo sa with
    | None => gai_text sa
    | Some (host, service) =>
        if v6 && has_byte ":"%byte host then text "[" ++ host ++ text "]:" ++ service
        else host ++ text ":" ++ service
    end) as Hf.
  { intros sa v6 Hsa. destruct (gai_nameinfo sa Hsa) as (host & service & -> & _ & _ & Hh & _ & Hs & _).
    apply plain_field in Hh, Hs. destruct (v6 && _); repeat apply is_field_app; done. }
  assert (forall n s, is_field s -> is_field (take n s)) as Htake.
  { intros n s. unfold is_field. rewrite <- (take_drop n s) at 1. rewrite forallb_app. by intros [? _]%andb_true_iff. }
  destruct (sa_family (endpoint p) =? AF_INET); [apply Htake, Hf, Hok |].
  destruct (sa_family (endpoint p) =? AF_INET6); [apply Htake, (Hf _ true), Hok | done].
Qed.

Lemma allowedips_is_field (p : wgpeer) : wf_peer p -> is_field (allowedips_field p).
Proof.
  intros Hp. unfold allowedips_field. destruct (_ =? _)%nat; [done |]. apply join_field; [done |].
  apply Forall_map. eapply Forall_impl; [apply (wf_allowedips p Hp) |]. intros a Ha.
  apply is_field_app; [by apply ip_text_field |]. apply is_field_app; [done |].
  apply print_base_field; [lia |]. destruct Ha as [_ [[_ ?] | [_ ?]]]; lia.
Qed.

Lemma fwmark_field (d : wgdevice) : wf_device d -> is_field (fwmark_text d).
Proof.
  intros Hd. unfold fwmark_text. destruct (negb _); [| done]. apply is_field_app; [done |].
  apply print_base_field; [lia | apply Hd].
Qed.

Lemma keepalive_field (p : wgpeer) : wf_peer p -> is_field (keepalive_text p).
Proof. intros Hp. unfold keepalive_text. destruct (negb _); [apply print_base_field; [lia | apply Hp] | done]. Qed.

Create HintDb dump_field.
#[local] Hint Resolve maybe_key_field key_field endpoint_field allowedips_is_field fwmark_field keepalive_field : dump_field.

Lemma dump_rows_fields (d : wgdevice) (w : bool) : dumpable d -> Forall (Forall is_field) (dump_rows d w).
Proof.
  intros [Hwf Hname Hep Hcnt Hstr]. unfold dump_rows. apply Forall_map.
  assert (forall fs, Forall is_field fs -> Forall is_field ((if w then [name d] else []) ++ fs)) as Hpre.
  { intros fs Hfs. apply Forall_app. split; [| done]. destruct w; [by apply Forall_singleton | apply Forall_nil; done]. }
  apply Forall_cons. split.
  - apply Hpre. repeat (apply Forall_cons in Hstr as [? Hstr]). unfold device_fields.
    repeat (apply Forall_cons; split); try apply Forall_nil; auto with dump_field;
      (apply print_base_field; [lia | apply Hwf]).
  - apply Forall_map, List.Forall_forall. intros p Hin. apply Hpre.
    pose proof (wf_peers d Hwf) as Hps. rewrite !List.Forall_forall in *.
    destruct (Hcnt p Hin). specialize (Hps p Hin). specialize (Hep p Hin). unfold peer_fields.
    apply List.Forall_forall.
    repeat (apply Forall_cons; split); try apply Forall_nil; auto with dump_field; (apply print_base_field; [lia |]); try done.
    apply (uw_range 64). lia.
Qed.
End Dump.

Lemma split_row (fields : list (list byte)) : Forall is_field fields -> fields <> [] ->
  split_on x09 (join tab fields) = fields /\ ~ In x0a (join tab fields).
Proof.
  intros Hf Hne. split.
  - destruct Hf as [|f fs Hf Hfs]; [done |]. clear Hne. revert f Hf.
    induction Hfs as [|g fs Hg Hfs IH]; intros f Hf; cbn [join map concat] in *.
    + rewrite app_nil_r. apply split_on_no. by apply (forallb_not_in field_char).
    + rewrite <- app_assoc. cbn [tab app]. rewrite split_on_app by (by apply (forallb_not_in field_char)).
      f_equal. by apply IH.
  - apply (forallb_not_in (fun c => negb (Byte.eqb c x0a))); [done |].
    destruct Hf as [|f fs Hf Hfs]; [done |]. cbn [join].
    assert (forall s, is_field s -> forallb (fun c => negb (Byte.eqb c x0a)) s = true) as Hw.
    { intros s. apply forallb_weaken. intros c. unfold field_char. by intros [_ ?]%andb_true_iff. }
    rewrite forallb_app, (Hw f Hf). cbn [andb].
    induction Hfs as [|g fs Hg _ IH]; cbn [map concat]; [done |]. by rewrite !forallb_app, IH, (Hw g Hg).
Qed.

(** The table of [awg show ... dump] can be read back: split at its newlines and tabs, the
    text [dump_print] writes is one row of 20 columns for the interface and one of 8 for
    each peer (one more each with the name in front), field by field what was printed,
    when the strings of the device have no tab or newline. *)
Theorem dump_print_table `{N : NetLib} `{!NetLibLaws N} (gai_text : list byte -> list byte) (d : wgdevice)
    (with_interface : bool) : dumpable d ->
  map (split_on x09) (split_on x0a (dump_print gai_text d with_interface))
  = dump_rows gai_text d with_interface ++ [[[]]].
Proof.
  intros Hd. rewrite dump_print_rows.
  assert (Forall (fun r => Forall is_field r /\ r <> []) (dump_rows gai_text d with_interface)) as Hr.
  { apply List.Forall_forall. intros r Hin. split.
    - pose proof (dump_rows_fields gai_text d with_interface Hd) as Hf. rewrite List.Forall_forall in Hf. by apply Hf.
    - unfold dump_rows in Hin. apply in_map_iff in Hin as (fs & <- & Hin).
      destruct with_interface; [done |]. cbn [app]. destruct Hin as [<- | (p & <- & _)%in_map_iff]; done. }
  induction Hr as [|r rs [Hf Hne] _ IH]; [done |]. cbn [map concat app].
  destruct (split_row r Hf Hne) as [Hs Hn]. unfold row at 1. rewrite <- app_assoc. cbn [newline app].
  rewrite split_on_app by done. cbn [map]. by rewrite Hs, IH.
Qed.

(** ** All the interfaces *)

Section All.
Context `{P : Platform} `{N : NetLib} `{S : CSort} `{I : Ipc}.
Context (gai_text : list byte -> list byte) (isatty : bool) (now : Z).

Definition accessible (interface : list byte) : bool :=
  match ipc_get_device interface with
  | Some _ => true
  | None => false
  end.

(** The devices that can be read, with an empty line after all but the last interface. *)
Fixpoint shown (names : list (list byte)) : list byte :=
  match names with
  | [] => []
  | interface :: next =>
      match ipc_get_device interface with
      | Some device => pretty_print gai_text isatty now device
                       ++ print_if (negb (length next =? 0)%nat) newline
      | None => []
      end ++ shown next
  end.

Definition good_name (s : list byte) : Prop := is_name s /\ s <> [].

Lemma c_str_packed (names : list (list byte)) (rest : list byte) : Forall good_name names ->
  c_str (packed names ++ x00 :: rest) = hd [] names.
Proof.
  destruct 1 as [|s names [Hs _] _]; [done |]. unfold packed. cbn [map concat hd].
  rewrite <- !app_assoc. by apply c_str_app.
Qed.

Lemma drop_packed (s : list byte) (names : list (list byte)) (rest : list byte) :
  drop (length s + 1) (packed (s :: names) ++ x00 :: rest) = packed names ++ x00 :: rest.
Proof.
  unfold packed. cbn [map concat]. rewrite <- !app_assoc, drop_app_ge by lia.
  replace (length s + 1 - length s)%nat with 1%nat by lia. done.
Qed.

Lemma hd_length (names : list (list byte)) : Forall good_name names ->
  (length (hd [] names) =? 0)%nat = (length names =? 0)%nat.
Proof. destruct 1 as [|s names [_ Hs] _]; [done |]. by destruct s. Qed.

Lemma show_all_loop_names (names : list (list byte)) (rest : list byte) (fuel : nat) (ret : Z) :
  Forall good_name names -> (length names < fuel)%nat ->
  show_all_loop gai_text isatty now fuel None (packed names ++ x00 :: rest) ret
  = Returns (if existsb accessible names then 0 else ret, shown names).
Proof.
  intros Hn. revert fuel ret. induction Hn as [|s names Hs Hn IH]; intros fuel ret Hf;
    (destruct fuel as [|fuel]; [cbn in Hf; lia |]); cbn [show_all_loop]; [done |].
  rewrite c_str_packed by (by constructor). cbn [hd]. rewrite drop_packed.
  destruct (Nat.eqb_spec (length s) 0) as [E | _]; [destruct Hs as [_ Hs]; by destruct s |].
  rewrite c_str_packed, hd_length, !IH by (done || cbn in Hf; lia). cbn [existsb shown].
  unfold accessible at 2 3. destruct (ipc_get_device s); cbn [obind fst snd orb]; [| done].
  by destruct (existsb accessible names).
Qed.

(** [awg show] shows every interface: for whatever names the back ends report, the command
    ends, prints each readable device once, in order, with an empty line after each but the
    last interface, and fails exactly when there are interfaces and none can be read. *)
Theorem show_main_all (fresh : nat -> byte) (names : list (list byte)) (cmd : list byte) (fuel : nat) :
  Forall is_name names -> (length names < fuel)%nat ->
  let kept := List.filter (fun s => negb (length s =? 0)%nat) names in
  show_main gai_text isatty now fuel (Some (ipc_list_devices fresh names)) [cmd]
  = Returns (if (length kept =? 0)%nat || existsb accessible kept then 0 else 1, shown kept).
Proof.
  intros Hn Hf kept. destruct (ipc_list_devices_packed fresh names) as [rest Hbuf].
  destruct (kept_names names Hn) as [Hk Hlen]. fold kept in Hbuf, Hk, Hlen.
  unfold show_main. rewrite Hbuf, show_all_loop_names by (done || lia).
  f_equal. f_equal. destruct (existsb accessible kept) eqn:E; [by rewrite orb_true_r |].
  rewrite orb_false_r. destruct Hk as [|s l [Hs Hne] _]; [done |].
  destruct s as [|c s]; [done |]. cbn [packed map concat app byte_at nth length Nat.eqb].
  destruct (Byte.eqb c x00) eqn:Ec; [| done]. apply byte_eqb_eq in Ec. destruct Hs. left. exact Ec.
Qed.
End All.

Lemma wf_device_peers (d : wgdevice) (ps : list wgpeer) :
  wf_device d -> Forall wf_peer ps -> wf_device (d <| peers := ps |>).
Proof. intros []. by constructor. Qed.

Section Witnesses.
#[local] Existing Instance lp64_x86.
#[local] Existing Instance numeric_net.
#[local] Existing Instance insertion_csort.

Definition seen (sec nsec : Z) : wgpeer := shown_peer <| last_handshake_time := Timespec64 sec nsec |>.
Definition busy_device : wgdevice := shown_device <| peers := [seen 0 0; seen 17 5; seen 17 8] |>.
Definition one_device : Ipc :=
  {| ipc_get_device := fun n => if strcmp_eq n (text "awg0") then Some busy_device else None;
     ipc_set_device := fun _ => false |}.

Lemma sort_peers_sorted_witness :
  Permutation (peers (sort_peers busy_device)) (peers busy_device)
  /\ StronglySorted not_older (peers (sort_peers busy_device))
  /\ sort_peers busy_device = busy_device <| peers := peers (sort_peers busy_device) |>.
Proof.
  apply (sort_peers_sorted busy_device). repeat (apply Forall_cons; split; [split; cbn; lia |]). apply Forall_nil. exact I.
Defined.

Lemma pretty_print_hides_witness :
  pretty_print (fun _ => []) false 100 busy_device = pretty_print (fun _ => []) false 100 (redact busy_device).
Proof. apply (pretty_print_hides (fun _ => []) false 100 busy_device). vm_compute. discriminate. Defined.

Lemma pretty_time_exact_witness : exists years days hours minutes seconds,
  3661 = (((years * 365 + days) * 24 + hours) * 60 + minutes) * 60 + seconds
  /\ 0 <= years /\ 0 <= days < 365 /\ 0 <= hours < 24 /\ 0 <= minutes < 60 /\ 0 <= seconds < 60
  /\ let out := join (text ", ") (map amount (List.filter nonzero
       [(years, "year"); (days, "day"); (hours, "hour"); (minutes, "minute"); (seconds, "second")]%string)) in
     pretty_time (text "x") 1024 3661 = (out, Z.of_nat (length out)) /\ Z.of_nat (length out) < 1024 - 5.
Proof. apply (pretty_time_exact (text "x") 1024 3661); lia. Defined.

Lemma seen_ok (sec nsec : Z) : wf_peer (seen sec nsec) /\ endpoint_ok (endpoint (seen sec nsec)).
Proof.
  destruct shown_device_ok as [Hwf Hep _ _ _ _ _ _ _ _ _]. pose proof (wf_peers _ Hwf) as Hp.
  apply Forall_cons in Hp as [[Hp1 Hp2 Hp3 Hp4 Hp5 Hp6] _], Hep as [Hep _].
  split; [by constructor | exact Hep].
Qed.

Lemma busy_device_dumpable : dumpable busy_device.
Proof.
  constructor.
  - apply wf_device_peers; [apply shown_device_ok |].
    repeat (apply Forall_cons; split; [apply seen_ok |]). apply Forall_nil. exact I.
  - reflexivity.
  - repeat (apply Forall_cons; split; [apply seen_ok |]). apply Forall_nil. exact I.
  - repeat (apply Forall_cons; split; [cbn; lia |]). apply Forall_nil. exact I.
  - repeat (apply Forall_cons; split; [reflexivity |]). apply Forall_nil. exact I.
Qed.

Lemma dump_print_table_witness :
  map (split_on x09) (split_on x0a (dump_print (fun _ => []) busy_device true))
  = dump_rows (fun _ => []) busy_device true ++ [[[]]].
Proof. apply (dump_print_table (fun _ => []) busy_device true). apply busy_device_dumpable. Defined.

Lemma show_main_all_witness :
  @show_main lp64_x86 numeric_net insertion_csort (fun _ => []) false 100 one_device 3
    (Some (ipc_list_devices (fun _ => xff) [text "wg0"; text "awg0"])) [text "show"]
  = Returns (0, @shown lp64_x86 numeric_net insertion_csort one_device (fun _ => []) false 100 [text "wg0"; text "awg0"]).
Proof.
  apply (@show_main_all lp64_x86 numeric_net insertion_csort one_device (fun _ => []) false 100
    (fun _ => xff) [text "wg0"; text "awg0"] (text "show") 3).
  - repeat (apply Forall_cons; split; [cbv; intuition discriminate |]). apply Forall_nil. exact I.
  - cbn. lia.
Defined.
End Witnesses.
