(* ===== verification/Uapi.v ===== *)
(** * The userspace configuration protocol (src/ipc-uapi.h)

    [userspace_set_device] writes a device as lines [key=value] and reads the status
    that the daemon answers; [userspace_get_device] asks for a device and parses the
    lines of the answer.  The daemon at the other end of the socket is a function from
    the request to the answer. *)

From S2P Require Import Prelude Ctype CString Encoding Containers NetLib NetLibNumeric.
From S2P Require Import ConfigValues Config WellFormed ShowConf ConfRoundtrip.
#[local] Open Scope Z_scope.
#[local] Open Scope awg_scope.

Definition EINVAL : Z := 22.
Definition EPROTO : Z := 71.
Definition ENETUNREACH : Z := 101.
Definition INT_MIN : Z := -2147483648.

(** ["key=value\n"]. *)
Definition print_kv (key : string) (value : list byte) : list byte :=
  text key ++ text "=" ++ value ++ newline.
Arguments print_kv key%_string_scope value.

(** ** Lines *)

(** What both loops make of the string [getline] delivers: the blank line that ends an
    answer, a line they give up on, or a key and a value. *)
Inductive uapi_line :=
| Blank
| Malformed
| KeyValue (key value : list byte).

Definition split_line (line : list byte) : uapi_line :=
  let line := c_str line in
  let line_len := length line in
  if (line_len =? 1)%nat && Byte.eqb (byte_at line 0) x0a then Blank
  else
    match strsep "="%byte line with
    | (_, None) => Malformed
    | (key, Some value) =>
        if (line_len =? 0)%nat || negb (Byte.eqb (byte_at line (line_len - 1)) x0a) then Malformed
        else KeyValue key (take (length value - 1) value)
    end.

(** ** Writing *)

Section Writing.
Context `{NetLib} `{Platform}.

Definition uapi_device (d : wgdevice) : list byte :=
  let has := has_flag (flags d) in
  print_kv "set" (text "1")
  ++ print_if (has WGDEVICE_HAS_PRIVATE_KEY) (print_kv "private_key" (key_to_hex (private_key d)))
  ++ print_if (has WGDEVICE_HAS_LISTEN_PORT) (print_kv "listen_port" (print_u (listen_port d)))
  ++ print_if (has WGDEVICE_HAS_FWMARK) (print_kv "fwmark" (print_u (fwmark d)))
  ++ print_if (has WGDEVICE_REPLACE_PEERS) (print_kv "replace_peers" (text "true"))
  ++ print_if (has WGDEVICE_HAS_JC) (print_kv "jc" (print_u (junk_packet_count d)))
  ++ print_if (has WGDEVICE_HAS_JMIN) (print_kv "jmin" (print_u (junk_packet_min_size d)))
  ++ print_if (has WGDEVICE_HAS_JMAX) (print_kv "jmax" (print_u (junk_packet_max_size d)))
  ++ print_if (has WGDEVICE_HAS_S1) (print_kv "s1" (print_u (init_packet_junk_size d)))
  ++ print_if (has WGDEVICE_HAS_S2) (print_kv "s2" (print_u (response_packet_junk_size d)))
  ++ print_if (has WGDEVICE_HAS_S3) (print_kv "s3" (print_u (cookie_reply_packet_junk_size d)))
  ++ print_if (has WGDEVICE_HAS_S4) (print_kv "s4" (print_u (transport_packet_junk_size d)))
  ++ print_if (has WGDEVICE_HAS_H1) (print_kv "h1" (print_s (init_packet_magic_header d)))
  ++ print_if (has WGDEVICE_HAS_H2) (print_kv "h2" (print_s (response_packet_magic_header d)))
  ++ print_if (has WGDEVICE_HAS_H3) (print_kv "h3" (print_s (underload_packet_magic_header d)))
  ++ print_if (has WGDEVICE_HAS_H4) (print_kv "h4" (print_s (transport_packet_magic_header d)))
  ++ print_if (has WGDEVICE_HAS_I1) (print_kv "i1" (print_s (i1 d)))
  ++ print_if (has WGDEVICE_HAS_I2) (print_kv "i2" (print_s (i2 d)))
  ++ print_if (has WGDEVICE_HAS_I3) (print_kv "i3" (print_s (i3 d)))
  ++ print_if (has WGDEVICE_HAS_I4) (print_kv "i4" (print_s (i4 d)))
  ++ print_if (has WGDEVICE_HAS_I5) (print_kv "i5" (print_s (i5 d))).

Definition uapi_endpoint (ep : list byte) : list byte :=
  match endpoint_addr ep with
  | Some sa =>
      match getnameinfo sa with
      | Some (host, service) =>
          if (sa_family ep =? AF_INET6) && has_byte ":"%byte host
          then print_kv "endpoint" (text "[" ++ host ++ text "]:" ++ service)
          else print_kv "endpoint" (host ++ text ":" ++ service)
      | None => []
      end
  | None => []
  end.

Definition uapi_allowedip (a : wgallowedip) : list byte :=
  match allowedip_text a with
  | Some ip => print_kv "allowed_ip" (ip ++ text "/" ++ print_d (cidr a))
  | None => []
  end.

(** The lines of a peer after its public key, unless it has the AWG flag. *)
Definition uapi_peer (p : wgpeer) : list byte :=
  if has_flag (peer_flags p) WGPEER_REMOVE_ME then print_kv "remove" (text "true")
  else
    print_if (has_flag (peer_flags p) WGPEER_HAS_PRESHARED_KEY)
      (print_kv "preshared_key" (key_to_hex (preshared_key p)))
    ++ uapi_endpoint (endpoint p)
    ++ print_if (has_flag (peer_flags p) WGPEER_HAS_PERSISTENT_KEEPALIVE_INTERVAL)
         (print_kv "persistent_keepalive_interval" (print_u (persistent_keepalive_interval p)))
    ++ print_if (has_flag (peer_flags p) WGPEER_REPLACE_ALLOWEDIPS)
         (print_kv "replace_allowed_ips" (text "true"))
    ++ concat (map uapi_allowedip (allowedips p)).

(** The loop over the peers: what is written, and whether it ran to the end. *)
Fixpoint uapi_peers (l : list wgpeer) : list byte * bool :=
  match l with
  | [] => ([], true)
  | p :: next =>
      let head := print_kv "public_key" (key_to_hex (peer_public_key p)) in
      if has_flag (peer_flags p) WGPEER_HAS_AWG then (head, false)
      else let '(rest, ok) := uapi_peers next in (head ++ uapi_peer p ++ rest, ok)
  end.

(** The status loop over the lines of the answer; [errno] is what the variable holds
    when the loop ends without a blank line. *)
Fixpoint status_loop (errno set_errno : Z) (lines : list (list byte)) : Z :=
  let failed := if negb (errno =? 0) then - errno else - EPROTO in
  match lines with
  | [] => failed
  | l :: ls =>
      match split_line l with
      | Blank => set_errno
      | Malformed => failed
      | KeyValue key value =>
          if strcmp_eq key (text "errno") then
            if negb (Byte.eqb (byte_at value 0) "-"%byte) && negb (is_digit_char (byte_at value 0))
            then failed
            else
              let '(num, rest) := strtoll 10 value in
              if negb (length rest =? 0)%nat || (INT_MAX <? num) || (num <? INT_MIN) then failed
              else status_loop errno num ls
          else status_loop errno set_errno ls
      end
  end.

(** The return value and what was written to the socket; [daemon] is [None] when the
    socket cannot be opened. *)
Definition userspace_set_device (daemon : option (list byte -> list byte)) (errno : Z) (d : wgdevice) :
    Z * list byte :=
  match daemon with
  | None => (- errno, [])
  | Some answer =>
      let '(body, ok) := uapi_peers (peers d) in
      let written := uapi_device d ++ body in
      if negb ok then (- EINVAL, written)
      else
        let request := written ++ newline in
        (status_loop errno (- EPROTO) (getlines (answer request)), request)
  end.

End Writing.

(** ** Reading *)

(** What the loop of [userspace_get_device] keeps. *)
Record get_state := GetState {
  get_dev : wgdevice;
  get_peer : option nat;
  get_allowedip : option nat;
  get_ret : Z;
}.

#[export] Instance eta_get_state : Eta get_state :=
  fun r => GetState (get_dev r) (get_peer r) (get_allowedip r) (get_ret r).

(** A turn of the loop goes on, leaves it by [break], or jumps to [err] with a status. *)
Inductive get_result :=
| Goes (st : get_state)
| Breaks
| Jumps (ret : Z).

Section Reading.
Context `{NetLib} `{Platform} (curve25519_generate_public : list byte -> list byte).

(** The macro [NUM(max)]; [None] when it breaks out of the loop. *)
Definition num (max : Z) (value : list byte) : option Z :=
  if negb (is_digit_char (byte_at value 0)) then None
  else
    let '(n, rest) := strtoull 10 value in
    if negb (length rest =? 0)%nat || (max <? n) then None else Some n.

Definition get_num (st : get_state) (max : Z) (value : list byte) (set : Z -> wgdevice -> wgdevice)
    (flag : Z) : get_result :=
  match num max value with
  | Some n => Goes (st <| get_dev ::= fun d => set_dev_flag flag (set n d) |>)
  | None => Breaks
  end.

(** [strdup(value)] into a string field. *)
Definition get_string (st : get_state) (value : list byte)
    (set : option (list byte) -> wgdevice -> wgdevice) (flag : Z) : get_result :=
  Goes (st <| get_dev ::= fun d => set_dev_flag flag (set (Some value) d) |>).

(** The keys of the device, which are known before the first peer only; [None] for
    another key. *)
Definition get_device_line (st : get_state) (key value : list byte) : option get_result :=
  let key_is k := strcmp_eq key (text k) in
  if key_is "private_key"%string then Some (
    let '(k, ok) := key_from_hex (private_key (get_dev st)) value in
    if negb ok then Breaks
    else Goes (st <| get_dev ::= fun d =>
      set_dev_flag (Z.lor WGDEVICE_HAS_PRIVATE_KEY WGDEVICE_HAS_PUBLIC_KEY)
        (d <| private_key := k |> <| public_key := curve25519_generate_public k |>) |>))
  else if key_is "listen_port"%string then Some (get_num st 0xffff value
    (fun v d => d <| listen_port := v |>) WGDEVICE_HAS_LISTEN_PORT)
  else if key_is "fwmark"%string then Some (get_num st 0xffffffff value
    (fun v d => d <| fwmark := v |>) WGDEVICE_HAS_FWMARK)
  else if key_is "jc"%string then Some (get_num st 0xffff value
    (fun v d => d <| junk_packet_count := v |>) WGDEVICE_HAS_JC)
  else if key_is "jmin"%string then Some (get_num st 0xffff value
    (fun v d => d <| junk_packet_min_size := v |>) WGDEVICE_HAS_JMIN)
  else if key_is "jmax"%string then Some (get_num st 0xffff value
    (fun v d => d <| junk_packet_max_size := v |>) WGDEVICE_HAS_JMAX)
  else if key_is "s1"%string then Some (get_num st 0xffff value
    (fun v d => d <| init_packet_junk_size := v |>) WGDEVICE_HAS_S1)
  else if key_is "s2"%string then Some (get_num st 0xffff value
    (fun v d => d <| response_packet_junk_size := v |>) WGDEVICE_HAS_S2)
  else if key_is "s3"%string then Some (get_num st 0xffff value
    (fun v d => d <| cookie_reply_packet_junk_size := v |>) WGDEVICE_HAS_S3)
  else if key_is "s4"%string then Some (get_num st 0xffff value
    (fun v d => d <| transport_packet_junk_size := v |>) WGDEVICE_HAS_S4)
  else if key_is "h1"%string then Some (get_string st value
    (fun v d => d <| init_packet_magic_header := v |>) WGDEVICE_HAS_H1)
  else if key_is "h2"%string then Some (get_string st value
    (fun v d => d <| response_packet_magic_header := v |>) WGDEVICE_HAS_H2)
  else if key_is "h3"%string then Some (get_string st value
    (fun v d => d <| underload_packet_magic_header := v |>) WGDEVICE_HAS_H3)
  else if key_is "h4"%string then Some (get_string st value
    (fun v d => d <| transport_packet_magic_header := v |>) WGDEVICE_HAS_H4)
  else if key_is "i1"%string then Some (get_string st value (fun v d => d <| i1 := v |>) WGDEVICE_HAS_I1)
  else if key_is "i2"%string then Some (get_string st value (fun v d => d <| i2 := v |>) WGDEVICE_HAS_I2)
  else if key_is "i3"%string then Some (get_string st value (fun v d => d <| i3 := v |>) WGDEVICE_HAS_I3)
  else if key_is "i4"%string then Some (get_string st value (fun v d => d <| i4 := v |>) WGDEVICE_HAS_I4)
  else if key_is "i5"%string then Some (get_string st value (fun v d => d <| i5 := v |>) WGDEVICE_HAS_I5)
  else None.

Definition get_new_peer (st : get_state) (value : list byte) : get_result :=
  let '(k, ok) := key_from_hex zero_key value in
  if negb ok then Breaks
  else
    let new_peer := set_peer_flag WGPEER_HAS_PUBLIC_KEY (zero_peer <| peer_public_key := k |>) in
    Goes (GetState ((get_dev st) <| peers ::= fun l => link_after l (get_peer st) new_peer |>)
            (Some (linked_at (get_peer st))) None (get_ret st)).

(** [peer] replaced. *)
Definition set_get_peer (st : get_state) (i : nat) (f : wgpeer -> wgpeer) : get_state :=
  st <| get_dev ::= fun d => d <| peers ::= alter f i |> |>.

Definition get_peer_num (st : get_state) (i : nat) (max : Z) (value : list byte)
    (set : Z -> wgpeer -> wgpeer) : get_result :=
  match num max value with
  | Some n => Goes (set_get_peer st i (set n))
  | None => Breaks
  end.

Definition get_endpoint (st : get_state) (i : nat) (value : list byte) : get_result :=
  if (length value =? 0)%nat then Breaks
  else
    match split_endpoint value with
    | None => Breaks
    | Some (host, service) =>
        match getaddrinfo 0 (Some host) service with
        | GaiError _ => Jumps ENETUNREACH
        | GaiOk af sa =>
            if is_inet_addr af sa
            then Goes (set_get_peer st i (fun p => p <| endpoint ::= fun old => memcpy_front old sa |>))
            else Breaks
        end
    end.

(** The prefix length is stored into its [uint8_t] before its range is tested. *)
Definition get_allowed_ip (st : get_state) (i : nat) (value : list byte) : get_result :=
  match strsep "/"%byte value with
  | (_, None) => Breaks
  | (ip, Some mask) =>
      if negb (is_digit_char (byte_at mask 0)) then Breaks
      else
        let '(_, new) := parse_ip zero_allowedip ip in
        let '(n, rest) := strtoul 10 mask in
        let new := new <| cidr := u8 n |> in
        if negb (length rest =? 0)%nat || (family new =? AF_UNSPEC)
           || ((family new =? AF_INET6) && (128 <? cidr new))
           || ((family new =? AF_INET) && (32 <? cidr new)) then Breaks
        else
          Goes ((set_get_peer st i (fun p =>
                   p <| allowedips ::= fun l => link_after l (get_allowedip st) new |>))
                <| get_allowedip := Some (linked_at (get_allowedip st)) |>)
  end.

(** The keys of the current peer; [None] for another key. *)
Definition get_peer_line (st : get_state) (i : nat) (key value : list byte) : option get_result :=
  let key_is k := strcmp_eq key (text k) in
  if key_is "preshared_key"%string then Some (
    let old := preshared_key (nth i (peers (get_dev st)) zero_peer) in
    let '(k, ok) := key_from_hex old value in
    if negb ok then Breaks
    else Goes (set_get_peer st i (fun p =>
      let p := p <| preshared_key := k |> in
      if negb (key_is_zero k) then set_peer_flag WGPEER_HAS_PRESHARED_KEY p else p)))
  else if key_is "endpoint"%string then Some (get_endpoint st i value)
  else if key_is "persistent_keepalive_interval"%string then Some (get_peer_num st i 0xffff value
    (fun v p => set_peer_flag WGPEER_HAS_PERSISTENT_KEEPALIVE_INTERVAL
                  (p <| persistent_keepalive_interval := v |>)))
  else if key_is "allowed_ip"%string then Some (get_allowed_ip st i value)
  else if key_is "last_handshake_time_sec"%string then Some (get_peer_num st i 0x7fffffffffffffff value
    (fun v p => p <| last_handshake_time ::= fun t => Timespec64 v (tv_nsec t) |>))
  else if key_is "last_handshake_time_nsec"%string then Some (get_peer_num st i 0x7fffffffffffffff value
    (fun v p => p <| last_handshake_time ::= fun t => Timespec64 (tv_sec t) v |>))
  else if key_is "rx_bytes"%string then Some (get_peer_num st i 0xffffffffffffffff value
    (fun v p => p <| rx_bytes := v |>))
  else if key_is "tx_bytes"%string then Some (get_peer_num st i 0xffffffffffffffff value
    (fun v p => p <| tx_bytes := v |>))
  else None.

Definition get_line (st : get_state) (key value : list byte) : get_result :=
  let specific :=
    match get_peer st with
    | None => get_device_line st key value
    | Some i => if strcmp_eq key (text "public_key") then None else get_peer_line st i key value
    end in
  match specific with
  | Some r => r
  | None =>
      if strcmp_eq key (text "public_key") then get_new_peer st value
      else if strcmp_eq key (text "errno") then
        match num 0x7fffffff value with
        | Some n => Goes (st <| get_ret := - n |>)
        | None => Breaks
        end
      else Goes st
  end.

(** The loop, then the code after the label [err]: the status and the device. *)
Fixpoint get_loop (st : get_state) (lines : list (list byte)) : Z * option wgdevice :=
  let finish ret d := (ret, if ret =? 0 then Some d else None) in
  match lines with
  | [] => finish (- EPROTO) (get_dev st)
  | l :: ls =>
      match split_line l with
      | Blank => finish (get_ret st) (get_dev st)
      | Malformed => finish (- EPROTO) (get_dev st)
      | KeyValue key value =>
          match get_line st key value with
          | Goes st => get_loop st ls
          | Breaks => finish (- EPROTO) (get_dev st)
          | Jumps ret => finish ret (get_dev st)
          end
      end
  end.

Definition userspace_get_device (daemon : option (list byte -> list byte)) (errno : Z)
    (iface : list byte) : Z * option wgdevice :=
  match daemon with
  | None => (- errno, None)
  | Some answer =>
      get_loop (GetState (set_name iface zero_device) None None (- EPROTO))
        (getlines (answer (text "get=1" ++ newline ++ newline)))
  end.

End Reading.
