(* ===== verification/UapiRoundtrip.v ===== *)
(** * The userspace protocol: what is written is read back

    The serializer of [userspace_set_device] and the parser of [userspace_get_device]
    agree: a daemon that reports the configuration lines it was sent, followed by a
    zero status, is understood as the device that was sent. *)

From S2P Require Import Prelude Ctype CString Encoding Containers NetLib NetLibNumeric.
From S2P Require Import ConfigValues Config WellFormed ShowConf ConfRoundtrip Uapi.
#[local] Open Scope Z_scope.
#[local] Open Scope awg_scope.

(** ** What is read back *)

Section Image.
Context (generate_public : list byte -> list byte).

Definition uapi_image_flags (d : wgdevice) : Z :=
  let keep f g := (has_flag (flags d) f, g) in
  fold_left (fun x '(c, f) => flag_if c f x)
    [keep WGDEVICE_HAS_PRIVATE_KEY (Z.lor WGDEVICE_HAS_PRIVATE_KEY WGDEVICE_HAS_PUBLIC_KEY);
     keep WGDEVICE_HAS_LISTEN_PORT WGDEVICE_HAS_LISTEN_PORT; keep WGDEVICE_HAS_FWMARK WGDEVICE_HAS_FWMARK;
     keep WGDEVICE_HAS_JC WGDEVICE_HAS_JC; keep WGDEVICE_HAS_JMIN WGDEVICE_HAS_JMIN;
     keep WGDEVICE_HAS_JMAX WGDEVICE_HAS_JMAX; keep WGDEVICE_HAS_S1 WGDEVICE_HAS_S1;
     keep WGDEVICE_HAS_S2 WGDEVICE_HAS_S2; keep WGDEVICE_HAS_S3 WGDEVICE_HAS_S3;
     keep WGDEVICE_HAS_S4 WGDEVICE_HAS_S4; keep WGDEVICE_HAS_H1 WGDEVICE_HAS_H1;
     keep WGDEVICE_HAS_H2 WGDEVICE_HAS_H2; keep WGDEVICE_HAS_H3 WGDEVICE_HAS_H3;
     keep WGDEVICE_HAS_H4 WGDEVICE_HAS_H4; keep WGDEVICE_HAS_I1 WGDEVICE_HAS_I1;
     keep WGDEVICE_HAS_I2 WGDEVICE_HAS_I2; keep WGDEVICE_HAS_I3 WGDEVICE_HAS_I3;
     keep WGDEVICE_HAS_I4 WGDEVICE_HAS_I4; keep WGDEVICE_HAS_I5 WGDEVICE_HAS_I5] 0.

Definition uapi_image_peer (p : wgpeer) : wgpeer :=
  let has := has_flag (peer_flags p) in
  WgPeer
    (flag_if (has WGPEER_HAS_PERSISTENT_KEEPALIVE_INTERVAL) WGPEER_HAS_PERSISTENT_KEEPALIVE_INTERVAL
    (flag_if (has WGPEER_HAS_PRESHARED_KEY && negb (key_is_zero (preshared_key p)))
       WGPEER_HAS_PRESHARED_KEY WGPEER_HAS_PUBLIC_KEY))
    (peer_public_key p)
    (if has WGPEER_HAS_PRESHARED_KEY then preshared_key p else zero_key)
    (image_endpoint (endpoint p)) (Timespec64 0 0) 0 0
    (if has WGPEER_HAS_PERSISTENT_KEEPALIVE_INTERVAL then persistent_keepalive_interval p else 0)
    false (map image_allowedip (allowedips p)).

Definition uapi_image (iface : list byte) (d : wgdevice) : wgdevice :=
  let keep {T} f (x y : T) := if has_flag (flags d) f then x else y in
  WgDevice (take (IFNAMSIZ - 1) iface) 0 (uapi_image_flags d)
    (keep WGDEVICE_HAS_PRIVATE_KEY (generate_public (private_key d)) zero_key)
    (keep WGDEVICE_HAS_PRIVATE_KEY (private_key d) zero_key)
    (keep WGDEVICE_HAS_FWMARK (fwmark d) 0) (keep WGDEVICE_HAS_LISTEN_PORT (listen_port d) 0)
    (map uapi_image_peer (peers d))
    (keep WGDEVICE_HAS_JC (junk_packet_count d) 0)
    (keep WGDEVICE_HAS_JMIN (junk_packet_min_size d) 0)
    (keep WGDEVICE_HAS_JMAX (junk_packet_max_size d) 0)
    (keep WGDEVICE_HAS_S1 (init_packet_junk_size d) 0)
    (keep WGDEVICE_HAS_S2 (response_packet_junk_size d) 0)
    (keep WGDEVICE_HAS_S3 (cookie_reply_packet_junk_size d) 0)
    (keep WGDEVICE_HAS_S4 (transport_packet_junk_size d) 0)
    (keep WGDEVICE_HAS_H1 (init_packet_magic_header d) None)
    (keep WGDEVICE_HAS_H2 (response_packet_magic_header d) None)
    (keep WGDEVICE_HAS_H3 (underload_packet_magic_header d) None)
    (keep WGDEVICE_HAS_H4 (transport_packet_magic_header d) None)
    (keep WGDEVICE_HAS_I1 (i1 d) None) (keep WGDEVICE_HAS_I2 (i2 d) None)
    (keep WGDEVICE_HAS_I3 (i3 d) None) (keep WGDEVICE_HAS_I4 (i4 d) None)
    (keep WGDEVICE_HAS_I5 (i5 d) None).
End Image.

(** ** The devices the protocol can carry *)

(** A string without the characters that end a line. *)
Definition line_char (c : byte) : bool := negb (Byte.eqb c x0a) && negb (Byte.eqb c x00).

Definition line_ok (s : option (list byte)) : Prop :=
  exists t, s = Some t /\ forallb line_char t = true.

Record carried (d : wgdevice) : Prop := Carried {
  ca_wf : wf_device d;
  ca_endpoints : Forall (fun p => endpoint_ok (endpoint p)) (peers d);
  ca_flags : Forall (fun p => has_flag (peer_flags p) WGPEER_HAS_AWG = false
                            /\ has_flag (peer_flags p) WGPEER_REMOVE_ME = false) (peers d);
  ca_h1 : has_flag (flags d) WGDEVICE_HAS_H1 = true -> line_ok (init_packet_magic_header d);
  ca_h2 : has_flag (flags d) WGDEVICE_HAS_H2 = true -> line_ok (response_packet_magic_header d);
  ca_h3 : has_flag (flags d) WGDEVICE_HAS_H3 = true -> line_ok (underload_packet_magic_header d);
  ca_h4 : has_flag (flags d) WGDEVICE_HAS_H4 = true -> line_ok (transport_packet_magic_header d);
  ca_i1 : has_flag (flags d) WGDEVICE_HAS_I1 = true -> line_ok (i1 d);
  ca_i2 : has_flag (flags d) WGDEVICE_HAS_I2 = true -> line_ok (i2 d);
  ca_i3 : has_flag (flags d) WGDEVICE_HAS_I3 = true -> line_ok (i3 d);
  ca_i4 : has_flag (flags d) WGDEVICE_HAS_I4 = true -> line_ok (i4 d);
  ca_i5 : has_flag (flags d) WGDEVICE_HAS_I5 = true -> line_ok (i5 d);
}.

(** ** Lines *)

(** A character of a key. *)
Definition key_char (c : byte) : bool := line_char c && negb (Byte.eqb c "="%byte).

Lemma split_line_kv (k v : list byte) : forallb key_char k = true -> forallb line_char v = true ->
  split_line (k ++ text "=" ++ v ++ newline) = KeyValue k v.
Proof.
  intros Hk Hv. unfold split_line.
  assert (~ In x00 (k ++ text "=" ++ v ++ newline)) as Hn.
  { rewrite !in_app_iff. intros [Hin | [[? | []] | [Hin | [? | []]]]]; try done; revert Hin;
      [by apply (forallb_not_in key_char) | by apply (forallb_not_in line_char)]. }
  rewrite c_str_no_nul by done. rewrite !length_app.
  change (length (text "=")) with 1%nat. change (length newline) with 1%nat.
  destruct (Nat.eqb_spec (length k + (1 + (length v + 1))) 1); [lia |]. cbn [andb].
  change (text "=" ++ v ++ newline) with ("="%byte :: (v ++ newline)).
  rewrite strsep_app by (by apply (forallb_not_in key_char)).
  destruct (Nat.eqb_spec (length k + (1 + (length v + 1))) 0); [lia |]. cbn [orb].
  assert (byte_at (k ++ "="%byte :: v ++ newline) (length k + (1 + (length v + 1)) - 1) = x0a) as ->.
  { unfold byte_at. rewrite app_nth2 by lia.
    replace (length k + (1 + (length v + 1)) - 1 - length k)%nat with (S (length v)) by lia.
    cbn [nth]. by rewrite app_nth2, Nat.sub_diag by lia. }
  change (Byte.eqb x0a x0a) with true. cbn [negb]. rewrite length_app. cbn [length newline].
  by rewrite Nat.add_sub, take_app_length.
Qed.

Section Roundtrip.
Context `{P : Platform} `{!PlatformOk P} `{N : NetLib} `{!NetLibLaws N}.
Context (generate_public : list byte -> list byte).

Definition rd (st : get_state) (content : list byte) : Z * option wgdevice :=
  get_loop generate_public st (getlines content).

Lemma rd_kv (st st' : get_state) (key : string) (v rest : list byte) :
  forallb key_char (text key) = true -> forallb line_char v = true ->
  get_line generate_public st (text key) v = Goes st' ->
  rd st (print_kv key v ++ rest) = rd st' rest.
Proof.
  intros Hk Hv E. unfold rd, print_kv.
  replace ((text key ++ text "=" ++ v ++ newline) ++ rest)
    with ((text key ++ text "=" ++ v) ++ x0a :: rest) by (rewrite <- !app_assoc; done).
  rewrite getlines_cons.
  - cbn [get_loop]. rewrite <- !app_assoc. change [x0a] with newline. by rewrite split_line_kv, E.
  - rewrite !in_app_iff. intros [Hin | [[? | []] | Hin]]; try done; revert Hin;
      [by apply (forallb_not_in key_char) | by apply (forallb_not_in line_char)].
Qed.

Lemma rd_if (st st' : get_state) (c : bool) (s rest : list byte) :
  (c = true -> rd st (s ++ rest) = rd st' rest) ->
  rd st (print_if c s ++ rest) = rd (if c then st' else st) rest.
Proof. destruct c; [auto | done]. Qed.

(** ** The device *)

Definition dstate (a : wgdevice) : get_state := GetState a None None (- EPROTO).

Lemma print_u_line (n : Z) : 0 <= n -> forallb line_char (print_u n) = true.
Proof.
  intros Hn. destruct (print_u_conf n Hn) as [Hc _]. revert Hc. apply forallb_weaken.
  intros c Hc. assert (inner_char c = true) as Hi.
  { pose proof (conf_inner [c]) as Hi. cbn in Hi. rewrite !andb_true_r in Hi. by apply Hi. }
  unfold inner_char in Hi. unfold line_char. boolz. by rewrite H, H0.
Qed.

Lemma num_print (max n : Z) : 0 <= n <= max -> max < 2 ^ 64 -> num max (print_u n) = Some n.
Proof.
  intros Hn Hm. unfold num. change (is_digit_char (byte_at (print_u n) 0)) with (starts_with_digit (print_u n)).
  rewrite starts_with_digit_print_u by lia. unfold strtoull. rewrite strtou_print_u by lia.
  cbn [negb length Nat.eqb orb]. by rewrite (proj2 (Z.ltb_ge max n)) by lia.
Qed.

Lemma rd_num (key : string) get set (flag max : Z) (c : bool) (a : wgdevice) (n : Z) (rest : list byte) :
  forallb key_char (text key) = true -> (forall a, set (get a) a = a) -> 0 <= n <= max -> max < 2 ^ 64 ->
  (forall a v, get_line generate_public (dstate a) (text key) v = get_num (dstate a) max v set flag) ->
  rd (dstate a) (print_if c (print_kv key (print_u n)) ++ rest)
  = rd (dstate (keep_field c get set flag n a)) rest.
Proof.
  intros Hk Hs Hn Hm Hg. rewrite keep_field_eq by done. destruct c; cbn [print_if]; [| done].
  apply rd_kv; [done | apply print_u_line; lia |]. rewrite Hg. unfold get_num. by rewrite num_print.
Qed.

Lemma rd_string (key : string) get set (flag : Z) (c : bool) (a : wgdevice) (s : option (list byte))
    (rest : list byte) :
  forallb key_char (text key) = true -> (forall a, set (get a) a = a) -> (c = true -> line_ok s) ->
  (forall a v, get_line generate_public (dstate a) (text key) v = get_string (dstate a) v set flag) ->
  rd (dstate a) (print_if c (print_kv key (print_s s)) ++ rest)
  = rd (dstate (keep_field c get set flag s a)) rest.
Proof.
  intros Hk Hs Hok Hg. rewrite keep_field_eq by done. destruct c; cbn [print_if]; [| done].
  destruct (Hok eq_refl) as (t & -> & Ht). apply rd_kv; [done | done |]. apply Hg.
Qed.

(** A line whose key the reader does not know. *)
Lemma rd_ignored (key : string) (c : bool) (st : get_state) (v rest : list byte) :
  forallb key_char (text key) = true -> forallb line_char v = true ->
  get_line generate_public st (text key) v = Goes st ->
  rd st (print_if c (print_kv key v) ++ rest) = rd st rest.
Proof. intros. destruct c; cbn [print_if]; [by apply rd_kv | done]. Qed.

Lemma hex_line (key : list byte) : length key = 32%nat -> forallb line_char (key_to_hex key) = true.
Proof.
  intros Hk. destruct (key_to_hex_shape key Hk) as [_ Ha]. rewrite List.Forall_forall in Ha.
  assert (forallb line_char hex_alphabet = true) as Hall by by vm_compute.
  rewrite forallb_forall in *. auto.
Qed.

Lemma rd_private_key (c : bool) (a : wgdevice) (key rest : list byte) : length key = 32%nat ->
  rd (dstate a) (print_if c (print_kv "private_key" (key_to_hex key)) ++ rest)
  = rd (dstate (keep_field c (fun d => (private_key d, public_key d))
      (fun v d => d <| private_key := fst v |> <| public_key := snd v |>)
      (Z.lor WGDEVICE_HAS_PRIVATE_KEY WGDEVICE_HAS_PUBLIC_KEY) (key, generate_public key) a)) rest.
Proof.
  intros Hk. rewrite keep_field_eq by (by intros []). destruct c; cbn [print_if]; [| done].
  apply rd_kv; [done | by apply hex_line |].
  change (get_line _ _ _ _) with
    (let '(k, ok) := key_from_hex (private_key a) (key_to_hex key) in
     if negb ok then Breaks
     else Goes ((dstate a) <| get_dev ::= fun d =>
       set_dev_flag (Z.lor WGDEVICE_HAS_PRIVATE_KEY WGDEVICE_HAS_PUBLIC_KEY)
         (d <| private_key := k |> <| public_key := generate_public k |>) |>)).
  by rewrite key_hex_decodes.
Qed.

Ltac uapi_side :=
  lazymatch goal with
  | |- forallb _ _ = true => reflexivity
  | |- forall a, _ a = a => by intros []
  | |- forall a v, get_line _ _ _ _ = _ => reflexivity
  | |- get_line _ _ _ _ = _ => reflexivity
  | |- _ <= _ <= _ => unfold is_u16, is_u32 in *; lia
  | |- _ < _ => lia
  | |- _ => assumption
  end.

Lemma rd_device (iface : list byte) (d : wgdevice) (rest : list byte) : carried d ->
  rd (dstate (set_name iface zero_device)) (uapi_device d ++ rest)
  = rd (dstate ((uapi_image generate_public iface d) <| peers := [] |>)) rest.
Proof.
  intros [[] _ _ ? ? ? ? ? ? ? ? ?]. unfold uapi_device. rewrite <- !app_assoc.
  rewrite (rd_kv _ (dstate (set_name iface zero_device)) "set") by uapi_side.
  rewrite rd_private_key by done.
  rewrite (rd_num "listen_port" listen_port (fun v d => d <| listen_port := v |>)
    WGDEVICE_HAS_LISTEN_PORT 65535) by uapi_side.
  rewrite (rd_num "fwmark" fwmark (fun v d => d <| fwmark := v |>)
    WGDEVICE_HAS_FWMARK 4294967295) by uapi_side.
  rewrite rd_ignored by uapi_side.
  rewrite (rd_num "jc" junk_packet_count (fun v d => d <| junk_packet_count := v |>)
    WGDEVICE_HAS_JC 65535) by uapi_side.
  rewrite (rd_num "jmin" junk_packet_min_size (fun v d => d <| junk_packet_min_size := v |>)
    WGDEVICE_HAS_JMIN 65535) by uapi_side.
  rewrite (rd_num "jmax" junk_packet_max_size (fun v d => d <| junk_packet_max_size := v |>)
    WGDEVICE_HAS_JMAX 65535) by uapi_side.
  rewrite (rd_num "s1" init_packet_junk_size (fun v d => d <| init_packet_junk_size := v |>)
    WGDEVICE_HAS_S1 65535) by uapi_side.
  rewrite (rd_num "s2" response_packet_junk_size (fun v d => d <| response_packet_junk_size := v |>)
    WGDEVICE_HAS_S2 65535) by uapi_side.
  rewrite (rd_num "s3" cookie_reply_packet_junk_size (fun v d => d <| cookie_reply_packet_junk_size := v |>)
    WGDEVICE_HAS_S3 65535) by uapi_side.
  rewrite (rd_num "s4" transport_packet_junk_size (fun v d => d <| transport_packet_junk_size := v |>)
    WGDEVICE_HAS_S4 65535) by uapi_side.
  rewrite (rd_string "h1" init_packet_magic_header (fun v d => d <| init_packet_magic_header := v |>)
    WGDEVICE_HAS_H1) by uapi_side.
  rewrite (rd_string "h2" response_packet_magic_header (fun v d => d <| response_packet_magic_header := v |>)
    WGDEVICE_HAS_H2) by uapi_side.
  rewrite (rd_string "h3" underload_packet_magic_header (fun v d => d <| underload_packet_magic_header := v |>)
    WGDEVICE_HAS_H3) by uapi_side.
  rewrite (rd_string "h4" transport_packet_magic_header (fun v d => d <| transport_packet_magic_header := v |>)
    WGDEVICE_HAS_H4) by uapi_side.
  rewrite (rd_string "i1" i1 (fun v d => d <| i1 := v |>)
    WGDEVICE_HAS_I1) by uapi_side.
  rewrite (rd_string "i2" i2 (fun v d => d <| i2 := v |>)
    WGDEVICE_HAS_I2) by uapi_side.
  rewrite (rd_string "i3" i3 (fun v d => d <| i3 := v |>)
    WGDEVICE_HAS_I3) by uapi_side.
  rewrite (rd_string "i4" i4 (fun v d => d <| i4 := v |>)
    WGDEVICE_HAS_I4) by uapi_side.
  rewrite (rd_string "i5" i5 (fun v d => d <| i5 := v |>)
    WGDEVICE_HAS_I5) by uapi_side.
  unfold uapi_image, uapi_image_flags.
  destruct (has_flag (flags d) WGDEVICE_HAS_PRIVATE_KEY); reflexivity.
Qed.

(** ** The peers *)

Definition pstate (a : wgdevice) (pre : list wgpeer) (p : wgpeer) : get_state :=
  GetState (a <| peers := pre ++ [p] |>) (Some (length pre)) (last_index (allowedips p)) (- EPROTO).

Lemma pstate_nth (a : wgdevice) (pre : list wgpeer) (p : wgpeer) :
  nth (length pre) (peers (get_dev (pstate a pre p))) zero_peer = p.
Proof. cbn. by rewrite app_nth2, Nat.sub_diag by lia. Qed.

Lemma pstate_set (a : wgdevice) (pre : list wgpeer) (p : wgpeer) (f : wgpeer -> wgpeer) :
  (set_get_peer (pstate a pre p) (length pre) f) <| get_allowedip := last_index (allowedips (f p)) |>
  = pstate a pre (f p).
Proof. unfold set_get_peer, pstate. cbn. by rewrite alter_app_r_alt, Nat.sub_diag. Qed.

Lemma pstate_set_keep (a : wgdevice) (pre : list wgpeer) (p : wgpeer) (f : wgpeer -> wgpeer) :
  allowedips (f p) = allowedips p ->
  set_get_peer (pstate a pre p) (length pre) f = pstate a pre (f p).
Proof. intros E. rewrite <- pstate_set, E. done. Qed.

Lemma rd_preshared (a : wgdevice) (pre : list wgpeer) (p : wgpeer) (c : bool) (key rest : list byte) :
  length key = 32%nat ->
  rd (pstate a pre p) (print_if c (print_kv "preshared_key" (key_to_hex key)) ++ rest)
  = rd (pstate a pre (p <| preshared_key ::= fun old => if c then key else old |>
      <| peer_flags ::= flag_if (c && negb (key_is_zero key)) WGPEER_HAS_PRESHARED_KEY |>)) rest.
Proof.
  intros Hk. destruct c; cbn [print_if andb]; [| by destruct p].
  apply rd_kv; [done | by apply hex_line |].
  change (get_line _ _ _ _) with
    (let '(k, ok) := key_from_hex
       (preshared_key (nth (length pre) (peers (get_dev (pstate a pre p))) zero_peer)) (key_to_hex key) in
     if negb ok then Breaks
     else Goes (set_get_peer (pstate a pre p) (length pre) (fun p =>
       let p := p <| preshared_key := k |> in
       if negb (key_is_zero k) then set_peer_flag WGPEER_HAS_PRESHARED_KEY p else p))).
  rewrite key_hex_decodes by done. cbn [negb]. f_equal.
  destruct (key_is_zero key); cbn [negb]; by rewrite pstate_set_keep.
Qed.

Lemma rd_keepalive (a : wgdevice) (pre : list wgpeer) (p : wgpeer) (c : bool) (n : Z) (rest : list byte) :
  is_u16 n ->
  rd (pstate a pre p) (print_if c (print_kv "persistent_keepalive_interval" (print_u n)) ++ rest)
  = rd (pstate a pre (p <| persistent_keepalive_interval ::= fun old => if c then n else old |>
      <| peer_flags ::= flag_if c WGPEER_HAS_PERSISTENT_KEEPALIVE_INTERVAL |>)) rest.
Proof.
  unfold is_u16. intros Hn. destruct c; cbn [print_if]; [| by destruct p].
  apply rd_kv; [done | apply print_u_line; lia |].
  change (get_line _ _ _ _) with (get_peer_num (pstate a pre p) (length pre) 0xffff (print_u n)
    (fun v p => set_peer_flag WGPEER_HAS_PERSISTENT_KEEPALIVE_INTERVAL
                  (p <| persistent_keepalive_interval := v |>))).
  unfold get_peer_num. rewrite num_print by lia. by rewrite pstate_set_keep.
Qed.

Lemma conf_line (v : list byte) : forallb conf_char v = true -> forallb line_char v = true.
Proof.
  intros Hv%conf_inner. revert Hv. apply forallb_weaken. unfold inner_char, line_char.
  intros c Hc. boolz. by rewrite H, H0.
Qed.

Lemma rd_endpoint (a : wgdevice) (pre : list wgpeer) (p : wgpeer) (ep rest : list byte) :
  endpoint_ok ep -> endpoint p = repeat x00 sizeof_sockaddr_in6 ->
  rd (pstate a pre p) (uapi_endpoint ep ++ rest)
  = rd (pstate a pre (p <| endpoint := image_endpoint ep |>)) rest.
Proof.
  unfold endpoint_ok, uapi_endpoint, image_endpoint. intros Hok H0.
  destruct (endpoint_addr ep) as [sa |]; [| destruct p; cbn in H0; by subst].
  destruct (gai_nameinfo sa Hok) as (host & service & -> & Hg & Hh & Hhp & Hs & Hsp & Hsc & Hhc).
  pose proof (forallb_weaken _ _ _ plain_conf Hhp) as Hhc'.
  pose proof (forallb_weaken _ _ _ plain_conf Hsp) as Hsc'.
  assert (forall v, forallb conf_char v = true -> v <> [] -> split_endpoint v = Some (host, service) ->
    rd (pstate a pre p) (print_kv "endpoint" v ++ rest)
    = rd (pstate a pre (p <| endpoint := memcpy_front (repeat x00 sizeof_sockaddr_in6) sa |>)) rest) as Hread.
  { intros v Hv Hne Hsplit. apply rd_kv; [done | by apply conf_line |].
    change (get_line _ _ _ _) with (get_endpoint (pstate a pre p) (length pre) v).
    unfold get_endpoint. destruct (Nat.eqb_spec (length v) 0); [by destruct v |].
    rewrite Hsplit, Hg, is_endpoint_inet by done. f_equal. rewrite pstate_set_keep by done.
    cbn [modify]. by rewrite H0. }
  destruct (_ && _).
  - apply Hread; [| done | by apply split_endpoint_bracket]. by rewrite !forallb_app, Hhc', Hsc'.
  - apply Hread; [by rewrite !forallb_app, Hhc', Hsc' | by destruct host | by apply split_endpoint_plain].
Qed.

Lemma rd_allowedip (a : wgdevice) (pre : list wgpeer) (p : wgpeer) (x : wgallowedip) (rest : list byte) :
  wf_allowedip x ->
  rd (pstate a pre p) (uapi_allowedip x ++ rest)
  = rd (pstate a pre (p <| allowedips ::= fun l => l ++ [image_allowedip x] |>)) rest.
Proof.
  intros Hw. destruct (allowedip_text_ok x Hw) as (t & Et & Hp & Hip).
  assert (0 <= cidr x <= 128) as Hr by (destruct Hw as [_ [[_ ?] | [_ ?]]]; lia).
  unfold uapi_allowedip. rewrite Et.
  assert (t ++ text "/" ++ print_d (cidr x) = entry_text x) as Ee by (unfold entry_text; by rewrite Et).
  apply rd_kv; [done | rewrite Ee; apply conf_line, entry_conf, Hw |].
  change (get_line _ _ _ _) with (get_allowed_ip (pstate a pre p) (length pre)
    (t ++ text "/" ++ print_d (cidr x))).
  unfold get_allowed_ip. change (text "/" ++ print_d (cidr x)) with ("/"%byte :: print_d (cidr x)).
  rewrite strsep_app by (by apply (forallb_not_in plain_char)).
  rewrite print_d_u by lia. change (is_digit_char (byte_at (print_u (cidr x)) 0))
    with (starts_with_digit (print_u (cidr x))).
  rewrite starts_with_digit_print_u by lia. rewrite Hip. destruct ulong_pow as [Hw2 _].
  rewrite strtoul_print_u by lia. cbn [negb length Nat.eqb orb]. unfold u8. rewrite uw_small by lia.
  assert (((image_allowedip x) <| cidr := 0 |>) <| cidr := cidr x |> = image_allowedip x) as -> by done.
  change (family (image_allowedip x)) with (family x). change (cidr (image_allowedip x)) with (cidr x).
  assert ((family x =? AF_UNSPEC) || (family x =? AF_INET6) && (128 <? cidr x)
          || (family x =? AF_INET) && (32 <? cidr x) = false) as ->.
  { destruct Hw as [_ [[-> ?] | [-> ?]]]; cbn; rewrite ?orb_false_r; apply Z.ltb_ge; lia. }
  f_equal. cbn [pstate get_allowedip].
  rewrite <- (pstate_set a pre p (fun p => p <| allowedips ::= fun l => l ++ [image_allowedip x] |>)).
  cbn [modify allowedips]. rewrite linked_at_last with (new := image_allowedip x).
  unfold set_get_peer, pstate. cbn. rewrite !alter_app_r_alt, Nat.sub_diag by done. cbn.
  by rewrite link_after_last.
Qed.

Lemma rd_allowedips (a : wgdevice) (pre : list wgpeer) (l : list wgallowedip) (p : wgpeer) (rest : list byte) :
  Forall wf_allowedip l ->
  rd (pstate a pre p) (concat (map uapi_allowedip l) ++ rest)
  = rd (pstate a pre (p <| allowedips ::= fun l0 => l0 ++ map image_allowedip l |>)) rest.
Proof.
  intros Hl. revert p. induction Hl as [|x l Hx _ IH]; intros p; cbn [map concat].
  { destruct p. cbn. by rewrite app_nil_r. }
  rewrite <- app_assoc, rd_allowedip, IH by done. cbn. by rewrite <- app_assoc.
Qed.

Lemma rd_new_peer (a : wgdevice) (pre : list wgpeer) (st : get_state) (key rest : list byte) :
  length key = 32%nat ->
  get_dev st = a <| peers := pre |> -> get_peer st = last_index pre -> get_ret st = - EPROTO ->
  rd st (print_kv "public_key" (key_to_hex key) ++ rest)
  = rd (pstate a pre (set_peer_flag WGPEER_HAS_PUBLIC_KEY (zero_peer <| peer_public_key := key |>))) rest.
Proof.
  intros Hk Hd Hp Hr. apply rd_kv; [done | by apply hex_line |].
  assert (get_line generate_public st (text "public_key") (key_to_hex key)
          = get_new_peer st (key_to_hex key)) as ->.
  { unfold get_line. by destruct (get_peer st). }
  unfold get_new_peer. rewrite key_hex_decodes by done. cbn [negb].
  rewrite Hd, Hp, Hr. cbn [modify peers]. rewrite link_after_last, linked_at_length. done.
Qed.

Lemma rd_peers (a : wgdevice) (l : list wgpeer) (pre : list wgpeer) (st : get_state) (rest : list byte) :
  Forall wf_peer l -> Forall (fun p => endpoint_ok (endpoint p)) l ->
  Forall (fun p => has_flag (peer_flags p) WGPEER_HAS_AWG = false
                 /\ has_flag (peer_flags p) WGPEER_REMOVE_ME = false) l ->
  get_dev st = a <| peers := pre |> -> get_peer st = last_index pre -> get_ret st = - EPROTO ->
  exists st', rd st (fst (uapi_peers l) ++ rest) = rd st' rest
  /\ get_dev st' = a <| peers := pre ++ map uapi_image_peer l |>
  /\ snd (uapi_peers l) = true.
Proof.
  intros Hw. revert pre st. induction Hw as [|p l Hp Hw IH]; intros pre st Hep Hfl Hd Hpr Hr.
  { exists st. cbn. by rewrite app_nil_r. }
  apply Forall_cons in Hep as [Hep Heps]. apply Forall_cons in Hfl as [[Hawg Hrm] Hfl].
  cbn [uapi_peers]. rewrite Hawg. destruct (uapi_peers l) as [text_l ok] eqn:El. cbn [fst snd] in *.
  destruct (IH (pre ++ [uapi_image_peer p]) (pstate a pre (uapi_image_peer p))) as (st' & E & Hd' & ->);
    [done | done | done | | done |].
  { cbn. by rewrite <- linked_at_last, linked_at_length. }
  exists st'. split; [| split; [by rewrite Hd', <- app_assoc | done]].
  rewrite <- E. cbn [fst]. rewrite <- !app_assoc.
  destruct Hp. rewrite (rd_new_peer a pre) by done. unfold uapi_peer. rewrite Hrm, <- !app_assoc.
  rewrite rd_preshared, rd_endpoint, rd_keepalive by done.
  rewrite rd_ignored by done. rewrite rd_allowedips by done. f_equal.
Qed.

(** A zero status ends the answer. *)
Lemma rd_end (st : get_state) :
  rd st (print_kv "errno" (text "0") ++ newline) = (0, Some (get_dev st)).
Proof.
  rewrite (rd_kv st (st <| get_ret := 0 |>)); [| done | done |].
  - unfold rd. done.
  - assert (num 0x7fffffff (text "0") = Some 0) as En by exact (num_print 0x7fffffff 0 ltac:(lia) ltac:(lia)).
    assert (forall v, get_line generate_public st (text "errno") v
      = match num 0x7fffffff v with Some n => Goes (st <| get_ret := - n |>) | None => Breaks end) as ->.
    { intros v. unfold get_line. by destruct (get_peer st). }
    by rewrite En.
Qed.

(** C11: The userspace protocol carries a device faithfully: the lines [userspace_set_device]
    writes for it, answered back with a zero status, are parsed by
    [userspace_get_device] without error into the device that was sent, with the public
    key computed from its private key. *)
Theorem uapi_roundtrip (iface : list byte) (errno : Z) (d : wgdevice) : carried d ->
  let answer := uapi_device d ++ fst (uapi_peers (peers d))
                ++ print_kv "errno" (text "0") ++ newline in
  userspace_get_device generate_public (Some (fun _ => answer)) errno iface
  = (0, Some (uapi_image generate_public iface d)).
Proof.
  intros Hc. cbv zeta. unfold userspace_get_device.
  match goal with |- get_loop _ (GetState ?a _ _ _) (getlines ?t) = _ =>
    change (rd (dstate a) t = (0, Some (uapi_image generate_public iface d))) end.
  rewrite rd_device by done. destruct Hc as [[] Hep Hfl _ _ _ _ _ _ _ _ _].
  destruct (rd_peers (uapi_image generate_public iface d) (peers d) []
    (dstate ((uapi_image generate_public iface d) <| peers := [] |>))
    (print_kv "errno" (text "0") ++ newline)) as (st' & -> & Hd & _); [done .. |].
  rewrite rd_end, Hd. done.
Qed.
End Roundtrip.

(** ** Witness *)

Section Witness.
#[local] Existing Instance lp64_x86.
#[local] Existing Instance numeric_net.

Definition sent_peer : wgpeer :=
  shown_peer <| peer_flags := Z.lor WGPEER_HAS_PUBLIC_KEY WGPEER_HAS_PRESHARED_KEY |>.

Definition sent_device : wgdevice :=
  shown_device <| peers := [sent_peer; sent_peer] |>
    <| flags ::= fun x => Z.lor x (Z.lor WGDEVICE_HAS_LISTEN_PORT WGDEVICE_REPLACE_PEERS) |>.

Lemma sent_device_ok : carried sent_device.
Proof.
  assert (wf_peer sent_peer).
  { constructor; try done. apply Forall_cons. split; [| apply Forall_singleton];
      (constructor; [done |]); [left | right]; (split; [done | cbn; lia]). }
  assert (endpoint_ok (endpoint sent_peer)).
  { apply (EndpointIn [x12; x34] [x0a; x00; x00; x01]); done. }
  constructor; try (vm_compute; discriminate).
  - constructor; try done. by repeat (apply Forall_cons; split).
  - by repeat (apply Forall_cons; split).
  - by repeat (apply Forall_cons; split).
  - intros _. by eexists.
  - intros _. by eexists.
Qed.

Lemma uapi_roundtrip_witness :
  let answer := uapi_device sent_device ++ fst (uapi_peers (peers sent_device))
                ++ print_kv "errno" (text "0") ++ newline in
  userspace_get_device (fun k => rev k) (Some (fun _ => answer)) 0 (text "awg0")
  = (0, Some (uapi_image (fun k => rev k) (text "awg0") sent_device)).
Proof. apply (uapi_roundtrip (fun k => rev k) (text "awg0") 0 sent_device). apply sent_device_ok. Defined.
End Witness.
