(* ===== verification/Netlink.v ===== *)
(** * Netlink messages (src/netlink.h)

    The reduced libmnl of the tools.  A message under construction is the list of its
    bytes after the netlink header, to which attributes are appended; a message that was
    received is the bytes of the datagram from its header on, so that reading past the end of
    an attribute reads what follows it.  Integers are in the byte order of the machine, little
    endian.  A function that sets [errno] returns it with its result. *)

From S2P Require Import Prelude CString Containers Ipc.
#[local] Open Scope Z_scope.

(** ** Constants *)

Definition MNL_ALIGNTO : Z := 4.
Definition MNL_ALIGN (len : Z) : Z := Z.land (len + MNL_ALIGNTO - 1) (Z.lnot (MNL_ALIGNTO - 1)).
Definition MNL_NLMSG_HDRLEN : Z := MNL_ALIGN 16.
Definition MNL_ATTR_HDRLEN : Z := MNL_ALIGN 4.

Definition sizeof_genlmsghdr : Z := 4.
Definition sizeof_ifinfomsg : Z := 16.
Definition sizeof_nlmsgerr : Z := 20.

Definition MNL_CB_ERROR : Z := -1.
Definition MNL_CB_STOP : Z := 0.
Definition MNL_CB_OK : Z := 1.

Definition NLM_F_REQUEST : Z := 1.
Definition NLM_F_MULTI : Z := 2.
Definition NLM_F_ACK : Z := 4.
Definition NLM_F_DUMP_INTR : Z := 16.
Definition NLM_F_DUMP : Z := 768.
Definition NLMSG_NOOP : Z := 1.
Definition NLMSG_ERROR : Z := 2.
Definition NLMSG_DONE : Z := 3.
Definition NLMSG_OVERRUN : Z := 4.
Definition NLMSG_MIN_TYPE : Z := 16.
Definition NLA_F_NESTED : Z := 32768.
Definition NLA_TYPE_MASK : Z := 16383.

Definition ENOENT : Z := 2.
Definition ESRCH : Z := 3.
Definition EINTR : Z := 4.
Definition ERANGE : Z := 34.
Definition EINVAL : Z := 22.
Definition ENAMETOOLONG : Z := 36.
Definition ENOSYS : Z := 38.
Definition EPROTO : Z := 71.
Definition EBADMSG : Z := 74.
Definition EPROTONOSUPPORT : Z := 93.
Definition EOPNOTSUPP : Z := 95.

Inductive mnl_attr_data_type :=
| MNL_TYPE_UNSPEC | MNL_TYPE_U8 | MNL_TYPE_U16 | MNL_TYPE_U32 | MNL_TYPE_U64 | MNL_TYPE_STRING | MNL_TYPE_FLAG
| MNL_TYPE_MSECS | MNL_TYPE_NESTED | MNL_TYPE_NESTED_COMPAT | MNL_TYPE_NUL_STRING | MNL_TYPE_BINARY.

(** [mnl_ideal_socket_buffer_size], from the size of a page. *)
Definition mnl_ideal_socket_buffer_size (pagesize : Z) : Z := if 8192 <? pagesize then 8192 else pagesize.

(** The value of a 32-bit pattern as an [int]. *)
Definition s32 (z : Z) : Z := let r := u32 z in if 2 ^ 31 <=? r then r - 2 ^ 32 else r.

(** And of a 64-bit one. *)
Definition s64 (z : Z) : Z := let r := u64 z in if 2 ^ 63 <=? r then r - 2 ^ 64 else r.

(** ** Headers *)

Definition get_u16_at (buf : list byte) (i : nat) : Z := le_bytes (take 2 (drop i buf)).
Definition get_u32_at (buf : list byte) (i : nat) : Z := le_bytes (take 4 (drop i buf)).

(** The fields of [struct nlmsghdr]. *)
Definition nlmsg_len (nlh : list byte) : Z := get_u32_at nlh 0.
Definition nlmsg_type (nlh : list byte) : Z := get_u16_at nlh 4.
Definition nlmsg_flags (nlh : list byte) : Z := get_u16_at nlh 6.
Definition nlmsg_seq (nlh : list byte) : Z := get_u32_at nlh 8.
Definition nlmsg_pid (nlh : list byte) : Z := get_u32_at nlh 12.

Definition mnl_nlmsg_size (len : Z) : Z := len + MNL_NLMSG_HDRLEN.
Definition mnl_nlmsg_get_payload (nlh : list byte) : list byte := drop (Z.to_nat MNL_NLMSG_HDRLEN) nlh.
Definition mnl_nlmsg_get_payload_offset (nlh : list byte) (offset : Z) : list byte :=
  drop (Z.to_nat (MNL_NLMSG_HDRLEN + MNL_ALIGN offset)) nlh.

Definition mnl_nlmsg_ok (nlh : list byte) (len : Z) : bool :=
  (16 <=? len) && (16 <=? nlmsg_len nlh) && (s32 (nlmsg_len nlh) <=? len).

Definition mnl_nlmsg_next (nlh : list byte) (len : Z) : list byte * Z :=
  (drop (Z.to_nat (MNL_ALIGN (nlmsg_len nlh))) nlh, s32 (len - MNL_ALIGN (nlmsg_len nlh))).

Definition mnl_nlmsg_seq_ok (nlh : list byte) (seq : Z) : bool :=
  if negb (nlmsg_seq nlh =? 0) && negb (seq =? 0) then nlmsg_seq nlh =? seq else true.
Definition mnl_nlmsg_portid_ok (nlh : list byte) (portid : Z) : bool :=
  if negb (nlmsg_pid nlh =? 0) && negb (portid =? 0) then nlmsg_pid nlh =? portid else true.

(** ** Reading attributes *)

(** A pointer to an attribute: its header and all that follows it in the buffer. *)
Record nlattr := Nlattr {
  nla_len : Z;
  nla_type : Z;
  nla_data : list byte;
}.

Definition attr_at (buf : list byte) : nlattr := Nlattr (get_u16_at buf 0) (get_u16_at buf 2) (drop 4 buf).

Definition mnl_attr_get_type (attr : nlattr) : Z := Z.land (nla_type attr) NLA_TYPE_MASK.
Definition mnl_attr_get_payload_len (attr : nlattr) : Z := u16 (nla_len attr - MNL_ATTR_HDRLEN).
Definition mnl_attr_get_payload (attr : nlattr) : list byte := nla_data attr.

(** The bytes of the payload. *)
Definition payload (attr : nlattr) : list byte :=
  take (Z.to_nat (mnl_attr_get_payload_len attr)) (mnl_attr_get_payload attr).

Definition mnl_attr_ok (attr : nlattr) (len : Z) : bool :=
  (4 <=? len) && (4 <=? nla_len attr) && (nla_len attr <=? len).

(** [None] for 1, an [errno] for -1. *)
Definition mnl_attr_type_valid (attr : nlattr) (max : Z) : option Z :=
  if max <? mnl_attr_get_type attr then Some EOPNOTSUPP else None.

Definition mnl_attr_data_type_len (type : mnl_attr_data_type) : Z :=
  match type with
  | MNL_TYPE_U8 => 1
  | MNL_TYPE_U16 => 2
  | MNL_TYPE_U32 => 4
  | MNL_TYPE_U64 | MNL_TYPE_MSECS => 8
  | _ => 0
  end.

(** [mnl_attr_validate]: [None] when it returns 0, the [errno] it sets when it returns -1. *)
Definition mnl_attr_validate (attr : nlattr) (type : mnl_attr_data_type) : option Z :=
  let exp_len := mnl_attr_data_type_len type in
  let attr_len := mnl_attr_get_payload_len attr in
  let attr_data := mnl_attr_get_payload attr in
  let too_long := if negb (exp_len =? 0) && (exp_len <? attr_len) then Some ERANGE else None in
  if attr_len <? exp_len then Some ERANGE
  else
    match type with
    | MNL_TYPE_FLAG => if 0 <? attr_len then Some ERANGE else too_long
    | MNL_TYPE_NUL_STRING =>
        if attr_len =? 0 then Some ERANGE
        else if negb (Byte.eqb (byte_at attr_data (Z.to_nat (attr_len - 1))) x00) then Some EINVAL
        else too_long
    | MNL_TYPE_STRING => if attr_len =? 0 then Some ERANGE else too_long
    | MNL_TYPE_NESTED =>
        if attr_len =? 0 then too_long
        else if attr_len <? MNL_ATTR_HDRLEN then Some ERANGE
        else too_long
    | _ => too_long
    end.

Definition mnl_attr_get_u8 (attr : nlattr) : Z := le_bytes (take 1 (mnl_attr_get_payload attr)).
Definition mnl_attr_get_u16 (attr : nlattr) : Z := le_bytes (take 2 (mnl_attr_get_payload attr)).
Definition mnl_attr_get_u32 (attr : nlattr) : Z := le_bytes (take 4 (mnl_attr_get_payload attr)).
Definition mnl_attr_get_u64 (attr : nlattr) : Z := le_bytes (take 8 (mnl_attr_get_payload attr)).
Definition mnl_attr_get_str (attr : nlattr) : list byte := c_str (mnl_attr_get_payload attr).

(** The loop [mnl_attr_for_each]: [len] bytes are left from [buf] on; a callback returns its
    verdict and the data it works on.  Every turn but the last takes at least four bytes. *)
Fixpoint attr_loop {A : Type} (fuel : nat) (cb : nlattr -> A -> Z * A) (buf : list byte) (len ret : Z) (data : A) :
    Z * A :=
  match fuel with
  | O => (ret, data)
  | S fuel' =>
      let attr := attr_at buf in
      if mnl_attr_ok attr len then
        let '(ret, data) := cb attr data in
        if ret <=? MNL_CB_STOP then (ret, data)
        else attr_loop fuel' cb (drop (Z.to_nat (MNL_ALIGN (nla_len attr))) buf)
               (len - MNL_ALIGN (nla_len attr)) ret data
      else (ret, data)
  end.

Definition mnl_attr_parse {A : Type} (nlh : list byte) (offset : Z) (cb : nlattr -> A -> Z * A) (data : A) : Z * A :=
  let len := MNL_ALIGN (nlmsg_len nlh) - (MNL_NLMSG_HDRLEN + MNL_ALIGN offset) in
  attr_loop (S (Z.to_nat len)) cb (mnl_nlmsg_get_payload_offset nlh offset) len MNL_CB_OK data.

Definition mnl_attr_parse_nested {A : Type} (nested : nlattr) (cb : nlattr -> A -> Z * A) (data : A) : Z * A :=
  let len := mnl_attr_get_payload_len nested in
  attr_loop (S (Z.to_nat len)) cb (mnl_attr_get_payload nested) len MNL_CB_OK data.

(** ** Writing attributes *)

(** The message length is always a multiple of four, so its tail is its end. *)
Definition mnl_attr_put (m : list byte) (type : Z) (data : list byte) : list byte :=
  let len := Z.of_nat (length data) in
  let payload_len := u16 (MNL_ALIGN 4 + len) in
  let pad := MNL_ALIGN len - len in
  take (length m + Z.to_nat (MNL_ALIGN payload_len))
    (m ++ bytes_le 2 payload_len ++ bytes_le 2 type ++ data ++ repeat x00 (Z.to_nat pad)).

Definition mnl_attr_put_u16 (m : list byte) (type data : Z) : list byte := mnl_attr_put m type (bytes_le 2 data).
Definition mnl_attr_put_u32 (m : list byte) (type data : Z) : list byte := mnl_attr_put m type (bytes_le 4 data).
Definition mnl_attr_put_strz (m : list byte) (type : Z) (data : list byte) : list byte :=
  mnl_attr_put m type (data ++ [x00]).

(** The length of the message with its header. *)
Definition total_len (m : list byte) : Z := MNL_NLMSG_HDRLEN + Z.of_nat (length m).

Section Nests.
(** What the two bytes of a nest's length hold before [mnl_attr_nest_end], by offset. *)
Context (uninit : nat -> byte).

(** The offset of the nest and the message. *)
Definition mnl_attr_nest_start (m : list byte) (type : Z) : nat * list byte :=
  (length m, m ++ [uninit (length m); uninit (S (length m))] ++ bytes_le 2 (Z.lor NLA_F_NESTED type)).

Definition mnl_attr_nest_start_check (m : list byte) (buflen type : Z) : option (nat * list byte) :=
  if buflen <? total_len m + MNL_ATTR_HDRLEN then None else Some (mnl_attr_nest_start m type).
End Nests.

Definition mnl_attr_nest_end (m : list byte) (start : nat) : list byte :=
  store m start (bytes_le 2 (Z.of_nat (length m - start))).

Definition mnl_attr_nest_cancel (m : list byte) (start : nat) : list byte := take start m.

(** A checked write: the verdict and the message. *)
Definition put : Type := list byte -> bool * list byte.

Definition mnl_attr_put_check (buflen type : Z) (data : list byte) : put := fun m =>
  if buflen <? total_len m + MNL_ATTR_HDRLEN + MNL_ALIGN (Z.of_nat (length data)) then (false, m)
  else (true, mnl_attr_put m type data).

Definition mnl_attr_put_u8_check (buflen type data : Z) : put := mnl_attr_put_check buflen type (bytes_le 1 data).
Definition mnl_attr_put_u16_check (buflen type data : Z) : put := mnl_attr_put_check buflen type (bytes_le 2 data).
Definition mnl_attr_put_u32_check (buflen type data : Z) : put := mnl_attr_put_check buflen type (bytes_le 4 data).

(** One write after the other, up to the first that does not fit. *)
Definition put_then (a b : put) : put := fun m =>
  match a m with
  | (true, m') => b m'
  | r => r
  end.
Definition put_none : put := fun m => (true, m).
Definition put_when (c : bool) (a : put) : put := if c then a else put_none.

(** ** Messages *)

(** [struct nlmsghdr] in front of a body, as it is sent. *)
Definition nlmsg (type flags seq : Z) (m : list byte) : list byte :=
  bytes_le 4 (total_len m) ++ bytes_le 2 type ++ bytes_le 2 flags ++ bytes_le 4 seq ++ bytes_le 4 0 ++ m.

(** The body [__mnlg_msg_prepare] starts from: a [struct genlmsghdr]. *)
Definition genlmsghdr (cmd version : Z) : list byte := [z2b cmd; z2b version; x00; x00].

(** ** Callbacks *)

(** A callback gets a message, [errno] and its data. *)
Definition callback (A : Type) : Type := list byte -> Z * A -> Z * (Z * A).

Definition mnl_cb_noop {A} : callback A := fun _ st => (MNL_CB_OK, st).
Definition mnl_cb_stop {A} : callback A := fun _ st => (MNL_CB_STOP, st).

(** [mnl_cb_error]; [mnlg_cb_error] has the same body. *)
Definition mnl_cb_error {A} : callback A := fun nlh '(errno, data) =>
  let error := s32 (get_u32_at (mnl_nlmsg_get_payload nlh) 0) in
  if nlmsg_len nlh <? mnl_nlmsg_size sizeof_nlmsgerr then (MNL_CB_ERROR, (EBADMSG, data))
  else (if error =? 0 then MNL_CB_STOP else MNL_CB_ERROR, (if error <? 0 then - error else error, data)).

Definition mnlg_cb_stop {A} : callback A := fun nlh '(errno, data) =>
  if negb (Z.land (nlmsg_flags nlh) NLM_F_MULTI =? 0) && (nlmsg_len nlh =? mnl_nlmsg_size 4) then
    let error := s32 (get_u32_at (mnl_nlmsg_get_payload nlh) 0) in
    (if error =? 0 then MNL_CB_STOP else MNL_CB_ERROR, (if error <? 0 then - error else error, data))
  else (MNL_CB_STOP, (errno, data)).

(** The callback for a control message, [None] for a NULL entry: the default array, and that
    of generic netlink. *)
Definition default_cb_array {A} (type : Z) : option (callback A) :=
  if type =? NLMSG_NOOP then Some mnl_cb_noop
  else if type =? NLMSG_ERROR then Some mnl_cb_error
  else if type =? NLMSG_DONE then Some mnl_cb_stop
  else if type =? NLMSG_OVERRUN then Some mnl_cb_noop
  else None.

Definition mnlg_cb_array {A} (type : Z) : option (callback A) :=
  if type =? NLMSG_NOOP then Some mnl_cb_noop
  else if type =? NLMSG_ERROR then Some mnl_cb_error
  else if type =? NLMSG_DONE then Some mnlg_cb_stop
  else if type =? NLMSG_OVERRUN then Some mnl_cb_noop
  else None.

(** The callback for a message: the data callback, which may be NULL, the given control array
    below its length, the default one above. *)
Definition cb_for {A} (cb_data : option (callback A)) (cb_ctl_array : Z -> option (callback A)) (cb_ctl_array_len : Z)
    (type : Z) : option (callback A) :=
  if NLMSG_MIN_TYPE <=? type then cb_data
  else if type <? cb_ctl_array_len then cb_ctl_array type
  else default_cb_array type.

(** [__mnl_cb_run] on [len] bytes. *)
Fixpoint cb_run {A} (fuel : nat) (cb : Z -> option (callback A)) (seq portid : Z) (nlh : list byte) (len ret : Z)
    (st : Z * A) : Z * (Z * A) :=
  match fuel with
  | O => (ret, st)
  | S fuel' =>
      if mnl_nlmsg_ok nlh len then
        if negb (mnl_nlmsg_portid_ok nlh portid) then (-1, (ESRCH, snd st))
        else if negb (mnl_nlmsg_seq_ok nlh seq) then (-1, (EPROTO, snd st))
        else if negb (Z.land (nlmsg_flags nlh) NLM_F_DUMP_INTR =? 0) then (-1, (EINTR, snd st))
        else
          let next ret st := let '(nlh, len) := mnl_nlmsg_next nlh len in cb_run fuel' cb seq portid nlh len ret st in
          match cb (nlmsg_type nlh) with
          | Some f => let '(ret, st) := f nlh st in if ret <=? MNL_CB_STOP then (ret, st) else next ret st
          | None => next ret st
          end
      else (ret, st)
  end.

Definition mnl_cb_run2 {A} (buf : list byte) (seq portid : Z) (cb_data : option (callback A)) (st : Z * A) : Z * (Z * A) :=
  cb_run (S (length buf)) (cb_for cb_data mnlg_cb_array 5) seq portid buf (Z.of_nat (length buf)) MNL_CB_OK st.

Definition mnl_cb_run {A} (buf : list byte) (seq portid : Z) (cb_data : option (callback A)) (st : Z * A) : Z * (Z * A) :=
  cb_run (S (length buf)) (cb_for cb_data (fun _ => None) 0) seq portid buf (Z.of_nat (length buf)) MNL_CB_OK st.

(** ** Sockets *)

Definition NETLINK_ROUTE : Z := 0.
Definition NETLINK_GENERIC : Z := 16.

(** The kernel behind a netlink socket, a machine with a state: the clock, what [socket] and
    [bind] answer for a bus ([inl errno] or the port), [sendto] ([Some errno] when it fails)
    and [recvmsg] ([inl errno], or the bytes of a datagram that was not truncated; none for
    0). *)
Class NetlinkKernel := {
  kstate : Type;
  nl_time : kstate -> Z;
  nl_open : kstate -> Z -> kstate * (Z + Z);
  nl_sendto : kstate -> list byte -> kstate * option Z;
  nl_recvfrom : kstate -> kstate * (Z + list byte);
}.

Record mnlg_socket := MnlgSocket {
  id : Z;
  version : Z;
  seq : Z;
  portid : Z;
}.

Section Sockets.
Context `{NetlinkKernel} (fuel : nat).

(** The socket after [__mnlg_msg_prepare], with the sequence number of the message. *)
Definition mnlg_msg_prepare (k : kstate) (nlg : mnlg_socket) : mnlg_socket :=
  MnlgSocket (id nlg) (version nlg) (u32 (nl_time k)) (portid nlg).

(** [mnlg_socket_recv_run]: it ends when a callback or the kernel says so. *)
Fixpoint recv_run {A} (turns : nat) (k : kstate) (nlg : mnlg_socket) (data_cb : option (callback A)) (st : Z * A) :
    outcome (kstate * Z * (Z * A)) :=
  match turns with
  | O => OutOfFuel
  | S turns' =>
      match nl_recvfrom k with
      | (k, inl e) => Returns (k, -1, (e, snd st))
      | (k, inr buf) =>
          if (length buf =? 0)%nat then Returns (k, 0, st)
          else
            let '(err, st) := mnl_cb_run2 buf (seq nlg) (portid nlg) data_cb st in
            if 0 <? err then recv_run turns' k nlg data_cb st
            else Returns (k, err, st)
      end
  end.

Definition mnlg_socket_recv_run {A} : kstate -> mnlg_socket -> option (callback A) -> Z * A ->
    outcome (kstate * Z * (Z * A)) := recv_run fuel.

(** ** The family of the module *)

Definition CTRL_ATTR_FAMILY_ID : Z := 1.
Definition CTRL_ATTR_FAMILY_NAME : Z := 2.
Definition CTRL_ATTR_VERSION : Z := 3.
Definition CTRL_ATTR_MAX : Z := 10.
Definition CTRL_CMD_GETFAMILY : Z := 3.
Definition GENL_ID_CTRL : Z := 16.

(** [tb] as the pair of its entries that are read. *)
Definition get_family_id_attr_cb (attr : nlattr) (st : Z * (option nlattr * option nlattr)) :
    Z * (Z * (option nlattr * option nlattr)) :=
  let '(errno, (tb_id, tb_version)) := st in
  let type := mnl_attr_get_type attr in
  match mnl_attr_type_valid attr CTRL_ATTR_MAX with
  | Some e => (MNL_CB_ERROR, (e, (tb_id, tb_version)))
  | None =>
      match (if type =? CTRL_ATTR_FAMILY_ID then mnl_attr_validate attr MNL_TYPE_U16 else None) with
      | Some e => (MNL_CB_ERROR, (e, (tb_id, tb_version)))
      | None => (MNL_CB_OK, (errno, (if type =? CTRL_ATTR_FAMILY_ID then Some attr else tb_id,
                                     if type =? CTRL_ATTR_VERSION then Some attr else tb_version)))
      end
  end.

Definition get_family_id_cb : callback mnlg_socket := fun nlh '(errno, nlg) =>
  let '(_, (errno, tb)) := mnl_attr_parse nlh sizeof_genlmsghdr get_family_id_attr_cb (errno, (None, None)) in
  match tb with
  | (Some tb_id, Some tb_version) =>
      (MNL_CB_OK, (errno, MnlgSocket (mnl_attr_get_u16 tb_id) (u8 (mnl_attr_get_u32 tb_version)) (seq nlg) (portid nlg)))
  | _ => (MNL_CB_ERROR, (errno, nlg))
  end.

(** [mnlg_socket_open]: [inl errno] for NULL. *)
Definition mnlg_socket_open (k : kstate) (family_name : list byte) : outcome (kstate * (Z + mnlg_socket)) :=
  match nl_open k NETLINK_GENERIC with
  | (k, inl e) => Returns (k, inl e)
  | (k, inr port) =>
      let nlg := mnlg_msg_prepare k (MnlgSocket 0 0 0 port) in
      let m := mnl_attr_put_strz (genlmsghdr CTRL_CMD_GETFAMILY 1) CTRL_ATTR_FAMILY_NAME family_name in
      match nl_sendto k (nlmsg GENL_ID_CTRL (Z.lor NLM_F_REQUEST NLM_F_ACK) (seq nlg) m) with
      | (k, Some e) => Returns (k, inl e)
      | (k, None) =>
          obind (mnlg_socket_recv_run k nlg (Some get_family_id_cb) (0, nlg)) (fun '(k, err, (errno, nlg)) =>
            if err <? 0 then
              let errno := if errno =? ENOENT then EPROTONOSUPPORT else errno in
              Returns (k, inl (if negb (errno =? 0) then errno else ENOSYS))
            else Returns (k, inr nlg))
      end
  end.

End Sockets.
