(* ===== verification/NetlinkOk.v ===== *)
(** * Attributes written and read back (src/netlink.h)

    [tlv] is an attribute as bytes.  What the writers append is a [tlv], checked writes append
    it or leave the message alone, and the parsers of a sequence of [tlv]s do what their
    callback does to each, in order ([read_all]).  For messages from elsewhere, [attr_loop_inv] is the induction over
    whatever attributes they hold. *)

From S2P Require Import Prelude CString Containers Ipc Netlink.
#[local] Open Scope Z_scope.

(** ** Alignment *)

Lemma MNL_ALIGN_eq (n : Z) : MNL_ALIGN n = 4 * ((n + 3) / 4).
Proof.
  unfold MNL_ALIGN, MNL_ALIGNTO. replace (n + 4 - 1) with (n + 3) by lia. change (4 - 1) with (Z.ones 2).
  rewrite <- Z.ldiff_land, Z.ldiff_ones_r, Z.shiftl_mul_pow2, Z.shiftr_div_pow2 by lia.
  change (2 ^ 2) with 4. apply Z.mul_comm.
Qed.

Definition aligned (s : list byte) : Prop := Z.of_nat (length s) mod 4 = 0.

Lemma MNL_ALIGN_aligned (n : Z) : n mod 4 = 0 -> MNL_ALIGN n = n.
Proof. rewrite MNL_ALIGN_eq. zlia. Qed.

(** ** An attribute as bytes *)

(** The padding after a payload. *)
Definition pad (n : Z) : nat := Z.to_nat (MNL_ALIGN n - n).

Definition tlv (type : Z) (data : list byte) : list byte :=
  let len := Z.of_nat (length data) in
  bytes_le 2 (4 + len) ++ bytes_le 2 type ++ data ++ repeat x00 (pad len).

(** The length of a payload fits the header. *)
Definition short (data : list byte) : Prop := 4 + Z.of_nat (length data) < 2 ^ 16.

Lemma tlv_length (type : Z) (data : list byte) :
  Z.of_nat (length (tlv type data)) = 4 + MNL_ALIGN (Z.of_nat (length data)).
Proof. unfold tlv, pad. rewrite !length_app, !bytes_le_length, repeat_length, MNL_ALIGN_eq. zlia. Qed.

Lemma tlv_aligned (type : Z) (data : list byte) : aligned (tlv type data).
Proof. unfold aligned. rewrite tlv_length, MNL_ALIGN_eq. zlia. Qed.

Lemma aligned_app (a b : list byte) : aligned a -> aligned b -> aligned (a ++ b).
Proof. unfold aligned. rewrite length_app, Nat2Z.inj_add. zlia. Qed.

(** ** Writing *)

Lemma mnl_attr_put_tlv (m : list byte) (type : Z) (data : list byte) : short data ->
  mnl_attr_put m type data = m ++ tlv type data.
Proof.
  unfold short, mnl_attr_put. intros Hs. cbv zeta. change (MNL_ALIGN 4) with 4.
  unfold u16. rewrite (uw_small 16) by lia. apply take_ge.
  rewrite length_app. apply Nat.add_le_mono_l, Nat2Z.inj_le. fold (pad (Z.of_nat (length data))).
  fold (tlv type data). rewrite tlv_length, !MNL_ALIGN_eq. zlia.
Qed.

Lemma put_check_tlv (buflen type : Z) (data m : list byte) : short data ->
  mnl_attr_put_check buflen type data m
  = if buflen <? total_len (m ++ tlv type data) then (false, m) else (true, m ++ tlv type data).
Proof.
  intros Hs. unfold mnl_attr_put_check, total_len. rewrite length_app, Nat2Z.inj_add, tlv_length.
  change MNL_ATTR_HDRLEN with 4. rewrite <- Z.add_assoc, <- Z.add_assoc.
  by destruct (_ <? _); [| rewrite mnl_attr_put_tlv].
Qed.

(** A nest that is closed is an attribute whose payload is what was written in it. *)
Lemma nest_end_tlv (uninit : nat -> byte) (m body : list byte) (type : Z) : aligned body ->
  mnl_attr_nest_end (snd (mnl_attr_nest_start uninit m type) ++ body) (length m)
  = m ++ tlv (Z.lor NLA_F_NESTED type) body.
Proof.
  unfold aligned. intros Ha. cbn [mnl_attr_nest_start snd]. unfold mnl_attr_nest_end.
  rewrite <- !app_assoc. rewrite store_app by by rewrite bytes_le_length. unfold tlv, pad.
  rewrite MNL_ALIGN_aligned, Z.sub_diag, app_nil_r by done. do 2 f_equal.
  rewrite !length_app. cbn [length]. rewrite bytes_le_length. apply (f_equal (bytes_le 2)). lia.
Qed.

(** The same for a nest whose header was appended. *)
Definition nest_header (uninit : nat -> byte) (m : list byte) (type : Z) : list byte :=
  [uninit (length m); uninit (S (length m))] ++ bytes_le 2 (Z.lor NLA_F_NESTED type).

Lemma nest_start_eq (uninit : nat -> byte) (m : list byte) (type : Z) :
  mnl_attr_nest_start uninit m type = (length m, m ++ nest_header uninit m type).
Proof. done. Qed.

Lemma nest_header_length (uninit : nat -> byte) (m : list byte) (type : Z) :
  length (nest_header uninit m type) = 4%nat.
Proof. done. Qed.

Lemma nest_closed (uninit : nat -> byte) (m body : list byte) (type : Z) : aligned body ->
  mnl_attr_nest_end (m ++ nest_header uninit m type ++ body) (length m) = m ++ tlv (Z.lor NLA_F_NESTED type) body.
Proof. intros Ha. rewrite <- (nest_end_tlv uninit) by done. rewrite nest_start_eq. cbn [snd]. by rewrite <- app_assoc. Qed.

Lemma nest_cancelled (m rest : list byte) : mnl_attr_nest_cancel (m ++ rest) (length m) = m.
Proof. apply take_app_length. Qed.

Lemma nest_start_check_eq (uninit : nat -> byte) (m : list byte) (buflen type : Z) :
  mnl_attr_nest_start_check uninit m buflen type
  = if buflen <? total_len m + 4 then None else Some (length m, m ++ nest_header uninit m type).
Proof. done. Qed.

Lemma total_len_app (m s : list byte) : total_len (m ++ s) = total_len m + Z.of_nat (length s).
Proof. unfold total_len. rewrite length_app. lia. Qed.

(** A checked write appends its attributes when they fit, and fails when they do not: it
    never lets the message outgrow the buffer. *)
Definition appends (buflen : Z) (p : put) (s : list byte) : Prop :=
  aligned s /\ forall m, total_len m <= buflen ->
    if total_len (m ++ s) <=? buflen then p m = (true, m ++ s)
    else exists s', p m = (false, m ++ s') /\ total_len (m ++ s') <= buflen.

Lemma appends_check (buflen type : Z) (data : list byte) : short data ->
  appends buflen (mnl_attr_put_check buflen type data) (tlv type data).
Proof.
  intros Hs. split; [apply tlv_aligned |]. intros m Hm. rewrite put_check_tlv by done. rewrite Z.ltb_antisym.
  destruct (_ <=? buflen); cbn [negb]; [done |]. exists []. by rewrite app_nil_r.
Qed.

Lemma appends_none (buflen : Z) : appends buflen put_none [].
Proof.
  split; [done |]. intros m Hm. rewrite app_nil_r. apply Z.leb_le in Hm. by rewrite Hm.
Qed.

Lemma appends_then (buflen : Z) (p q : put) (s t : list byte) :
  appends buflen p s -> appends buflen q t -> appends buflen (put_then p q) (s ++ t).
Proof.
  intros [As Hp] [At Hq]. split; [by apply aligned_app |]. intros m Hm. specialize (Hp m Hm).
  unfold put_then. rewrite app_assoc. destruct (Z.leb_spec (total_len (m ++ s)) buflen) as [Hs | Hs].
  - specialize (Hq (m ++ s) Hs). rewrite Hp. destruct (_ <=? _); [done |].
    destruct Hq as (s' & -> & ?). exists (s ++ s'). by rewrite app_assoc.
  - destruct Hp as (s' & -> & ?). destruct (Z.leb_spec (total_len ((m ++ s) ++ t)) buflen) as [Hst | _]; [| by exists s'].
    rewrite total_len_app in Hst. lia.
Qed.

Lemma appends_when (buflen : Z) (c : bool) (p : put) (s : list byte) :
  appends buflen p s -> appends buflen (put_when c p) (if c then s else []).
Proof. intros H. destruct c; [done | apply appends_none]. Qed.

(** A write of an empty attribute whose verdict is dropped, before one that is looked at: the
    second fails whenever the first does. *)
Lemma appends_dropped (buflen type : Z) (q : put) (t : list byte) :
  appends buflen q t -> 4 <= Z.of_nat (length t) ->
  appends buflen (put_then (fun m => (true, snd (mnl_attr_put_check buflen type [] m))) q) (tlv type [] ++ t).
Proof.
  intros [At Hq] Hlen. pose proof (appends_check buflen type [] eq_refl) as [Ac Hc].
  split; [by apply aligned_app |]. intros m Hm. specialize (Hc m Hm). unfold put_then. rewrite app_assoc.
  destruct (Z.leb_spec (total_len (m ++ tlv type [])) buflen) as [Hs | Hs].
  - rewrite Hc. cbn [snd]. specialize (Hq (m ++ tlv type []) Hs). destruct (_ <=? _); [done |].
    destruct Hq as (s' & -> & ?). exists (tlv type [] ++ s'). by rewrite app_assoc.
  - assert (mnl_attr_put_check buflen type [] m = (false, m)) as ->.
    { rewrite put_check_tlv by done. apply Z.ltb_lt in Hs. by rewrite Hs. }
    cbn [snd]. specialize (Hq m Hm). assert (Z.of_nat (length (tlv type [])) = 4) as H4 by done.
    rewrite !total_len_app in *. rewrite H4 in *.
    destruct (Z.leb_spec (total_len m + Z.of_nat (length t)) buflen) as [Hst | _]; [lia |].
    destruct (Z.leb_spec (total_len m + 4 + Z.of_nat (length t)) buflen) as [Hst | _]; [lia | done].
Qed.

#[export] Hint Resolve appends_check appends_none appends_then appends_when : awg.

(** ** Reading attributes that were written *)

(** The attribute a pointer to a [tlv] designates. *)
Definition view (type : Z) (data rest : list byte) : nlattr :=
  Nlattr (4 + Z.of_nat (length data)) (u16 type) (data ++ repeat x00 (pad (Z.of_nat (length data))) ++ rest).

Lemma attr_at_tlv (type : Z) (data rest : list byte) : short data ->
  attr_at (tlv type data ++ rest) = view type data rest.
Proof.
  unfold short. intros Hs. unfold attr_at, view, get_u16_at, tlv. rewrite <- !app_assoc.
  set (tail := data ++ _). set (len := 4 + Z.of_nat (length data)) in *.
  assert (length (bytes_le 2 len) = 2%nat) as L1 by apply bytes_le_length.
  assert (length (bytes_le 2 type) = 2%nat) as L2 by apply bytes_le_length.
  rewrite drop_0. f_equal.
  - rewrite take_app_length' by done. rewrite le_bytes_bytes_le. apply Z.mod_small. subst len. lia.
  - rewrite drop_app_length' by done. rewrite take_app_length' by done. apply le_bytes_bytes_le.
Qed.

Definition tlvs (items : list (Z * list byte)) : list byte := concat (map (fun '(t, d) => tlv t d) items).

Lemma tlvs_aligned (items : list (Z * list byte)) : aligned (tlvs items).
Proof. induction items as [|[t d] items IH]; [done |]. apply aligned_app; [apply tlv_aligned | done]. Qed.

Lemma tlvs_app (a b : list (Z * list byte)) : tlvs (a ++ b) = tlvs a ++ tlvs b.
Proof. unfold tlvs. by rewrite map_app, concat_app. Qed.

(** A callback that goes on after an attribute, whatever follows it, and does [f] to the part
    of its data that [get] designates. *)
Definition reads {A X} (get : A -> X) (cb : nlattr -> A -> Z * A) (item : Z * list byte) (f : X -> X) : Prop :=
  short (snd item) /\ forall rest data, exists data',
    cb (view (fst item) (snd item) rest) data = (MNL_CB_OK, data') /\ get data' = f (get data).

Definition read_all {X} (l : list ((Z * list byte) * (X -> X))) (x : X) : X := fold_left (fun x r => snd r x) l x.

Lemma attr_loop_reads {A X} (get : A -> X) (cb : nlattr -> A -> Z * A) (l : list ((Z * list byte) * (X -> X)))
    (fuel : nat) (rest : list byte) (data : A) :
  Forall (fun r => reads get cb (fst r) (snd r)) l -> (length (tlvs (map fst l)) < fuel)%nat ->
  exists data', attr_loop fuel cb (tlvs (map fst l) ++ rest) (Z.of_nat (length (tlvs (map fst l)))) MNL_CB_OK data
                = (MNL_CB_OK, data') /\ get data' = read_all l (get data).
Proof.
  intros Hall. revert fuel data. induction Hall as [|[[t d] f] l [Hs Hcb] _ IH]; intros fuel data Hf.
  - exists data. split; [| done]. destruct fuel; [done |]. cbn [attr_loop tlvs map concat length]. by destruct (attr_at _).
  - destruct fuel as [|fuel]; [lia |]. cbn [fst snd map] in *.
    change (tlvs ((t, d) :: map fst l)) with (tlv t d ++ tlvs (map fst l)) in *. rewrite <- app_assoc.
    cbn [attr_loop]. rewrite attr_at_tlv by done.
    pose proof (tlv_length t d) as Hl. rewrite MNL_ALIGN_eq in Hl. rewrite length_app in *.
    replace (mnl_attr_ok _ _) with true.
    2: { unfold mnl_attr_ok, view. cbn [nla_len]. symmetry. rewrite !andb_true_iff, !Z.leb_le. rewrite Nat2Z.inj_add, Hl. zlia. }
    destruct (Hcb (tlvs (map fst l) ++ rest) data) as (data1 & -> & Hget). cbn [MNL_CB_OK MNL_CB_STOP Z.leb Z.compare]. cbn [view nla_len].
    replace (MNL_ALIGN (4 + Z.of_nat (length d))) with (Z.of_nat (length (tlv t d)))
      by (rewrite tlv_length, !MNL_ALIGN_eq; zlia).
    rewrite Nat2Z.id, drop_app_length. rewrite Nat2Z.inj_add, Z.add_simpl_l.
    destruct (IH fuel data1) as (data' & E & Hd); [zlia |]. exists data'. split; [exact E |]. rewrite Hd, Hget. done.
Qed.

Lemma parse_nested_reads {A X} (get : A -> X) (cb : nlattr -> A -> Z * A) (l : list ((Z * list byte) * (X -> X)))
    (type : Z) (rest : list byte) (data : A) :
  Forall (fun r => reads get cb (fst r) (snd r)) l -> short (tlvs (map fst l)) ->
  exists data', mnl_attr_parse_nested (view type (tlvs (map fst l)) rest) cb data = (MNL_CB_OK, data')
                /\ get data' = read_all l (get data).
Proof.
  unfold short. intros Hall Hs. unfold mnl_attr_parse_nested, mnl_attr_get_payload_len, view, mnl_attr_get_payload.
  cbn [nla_len nla_data]. change MNL_ATTR_HDRLEN with 4. rewrite Z.add_simpl_l. unfold u16. rewrite uw_small by lia.
  apply attr_loop_reads; [done | lia].
Qed.

(** The fields of a message that was built. *)
Lemma nlmsg_fields (type flags seq : Z) (m rest : list byte) : total_len m < 2 ^ 32 ->
  nlmsg_len (nlmsg type flags seq m ++ rest) = total_len m
  /\ nlmsg_type (nlmsg type flags seq m ++ rest) = u16 type
  /\ nlmsg_flags (nlmsg type flags seq m ++ rest) = u16 flags
  /\ nlmsg_seq (nlmsg type flags seq m ++ rest) = u32 seq
  /\ nlmsg_pid (nlmsg type flags seq m ++ rest) = 0
  /\ drop 16 (nlmsg type flags seq m ++ rest) = m ++ rest.
Proof.
  intros Hm. assert (0 <= total_len m) by (unfold total_len; change MNL_NLMSG_HDRLEN with 16; lia).
  unfold nlmsg_len, nlmsg_type, nlmsg_flags, nlmsg_seq, nlmsg_pid, get_u32_at, get_u16_at, nlmsg.
  set (n := total_len m) in *. rewrite <- !app_assoc.
  pose proof (le_bytes_bytes_le 4 n). pose proof (le_bytes_bytes_le 2 type). pose proof (le_bytes_bytes_le 2 flags).
  pose proof (le_bytes_bytes_le 4 seq).
  repeat split; try done. transitivity (le_bytes (bytes_le 4 n)); [done |]. rewrite le_bytes_bytes_le. by apply Z.mod_small.
Qed.

Lemma nlmsg_length (type flags seq : Z) (m : list byte) :
  Z.of_nat (length (nlmsg type flags seq m)) = total_len m.
Proof. unfold nlmsg, total_len. rewrite !length_app, !bytes_le_length. change MNL_NLMSG_HDRLEN with 16. lia. Qed.

(** [mnl_attr_parse] of a message that was built from a header of [offset] bytes and
    attributes. *)
Lemma attr_parse_reads {A X} (get : A -> X) (cb : nlattr -> A -> Z * A) (l : list ((Z * list byte) * (X -> X)))
    (type flags seq offset : Z) (header rest : list byte) (data : A) :
  Forall (fun r => reads get cb (fst r) (snd r)) l -> offset = Z.of_nat (length header) -> offset mod 4 = 0 ->
  total_len (header ++ tlvs (map fst l)) < 2 ^ 32 ->
  exists data', mnl_attr_parse (nlmsg type flags seq (header ++ tlvs (map fst l)) ++ rest) offset cb data = (MNL_CB_OK, data')
                /\ get data' = read_all l (get data).
Proof.
  intros Hall -> Ha Hm. unfold mnl_attr_parse, mnl_nlmsg_get_payload_offset. set (items := map fst l) in *.
  destruct (nlmsg_fields type flags seq _ rest Hm) as (-> & _ & _ & _ & _ & Hd).
  pose proof (tlvs_aligned items) as Hal. unfold aligned in Hal.
  unfold total_len. change MNL_NLMSG_HDRLEN with 16. rewrite length_app, Nat2Z.inj_add.
  rewrite (MNL_ALIGN_aligned (16 + _)) by zlia. rewrite MNL_ALIGN_aligned by done.
  replace (16 + _ - _) with (Z.of_nat (length (tlvs items))) by lia.
  rewrite Z2Nat.inj_add by lia. change (Z.to_nat 16) with 16%nat.
  rewrite <- drop_drop, Hd, <- app_assoc. rewrite !Nat2Z.id, drop_app_length. apply attr_loop_reads; [done | subst items; lia].
Qed.

(** ** The values of attributes that were written *)

Lemma view_type (type : Z) (data rest : list byte) :
  mnl_attr_get_type (view type data rest) = Z.land (u16 type) NLA_TYPE_MASK.
Proof. done. Qed.

Lemma view_len (type : Z) (data rest : list byte) : short data ->
  mnl_attr_get_payload_len (view type data rest) = Z.of_nat (length data).
Proof.
  unfold short. intros Hs. unfold mnl_attr_get_payload_len, view. cbn [nla_len]. change MNL_ATTR_HDRLEN with 4.
  rewrite Z.add_simpl_l. unfold u16. apply uw_small. lia.
Qed.

Lemma view_take (type : Z) (data rest : list byte) (n : nat) : length data = n ->
  take n (mnl_attr_get_payload (view type data rest)) = data.
Proof. intros <-. apply take_app_length. Qed.

(** Integers of the width the callback expects. *)
Lemma view_int (type : Z) (n : nat) (v : Z) (rest : list byte) :
  le_bytes (take n (mnl_attr_get_payload (view type (bytes_le n v) rest))) = v mod 256 ^ Z.of_nat n.
Proof. rewrite view_take by apply bytes_le_length. apply le_bytes_bytes_le. Qed.

Lemma validate_int (type : Z) (n : nat) (v : Z) (rest : list byte) (t : mnl_attr_data_type) :
  mnl_attr_data_type_len t = Z.of_nat n -> (0 < n <= 8)%nat ->
  mnl_attr_validate (view type (bytes_le n v) rest) t = None.
Proof.
  intros Ht Hn. unfold mnl_attr_validate.
  rewrite view_len by (unfold short; rewrite bytes_le_length; lia). rewrite bytes_le_length, Ht, Z.ltb_irrefl.
  rewrite andb_false_r. by destruct t; cbn in Ht; try lia.
Qed.

(** Strings. *)
Lemma validate_strz (type : Z) (s rest : list byte) : short (s ++ [x00]) ->
  mnl_attr_validate (view type (s ++ [x00]) rest) MNL_TYPE_NUL_STRING = None
  /\ mnl_attr_validate (view type (s ++ [x00]) rest) MNL_TYPE_STRING = None.
Proof.
  intros Hs. unfold mnl_attr_validate. rewrite view_len by done. rewrite length_app. cbn [length mnl_attr_data_type_len Z.eqb negb andb].
  destruct (Z.ltb_spec (Z.of_nat (length s + 1)) 0); [lia |].
  destruct (Z.eqb_spec (Z.of_nat (length s + 1)) 0); [lia |]. split; [| done].
  replace (Z.to_nat _) with (length s) by lia. unfold byte_at, view, mnl_attr_get_payload. cbn [nla_data].
  rewrite <- app_assoc, app_nth2, Nat.sub_diag by lia. done.
Qed.

Lemma view_str (type : Z) (s rest : list byte) : is_name s ->
  mnl_attr_get_str (view type (s ++ [x00]) rest) = s.
Proof.
  intros Hs. unfold mnl_attr_get_str, mnl_attr_get_payload, view. cbn [nla_data]. rewrite <- app_assoc. by apply c_str_app.
Qed.

(** ** Runs over messages that were written *)

(** [__mnl_cb_run] hands the first message of a datagram to its callback and goes on with the
    others. *)
Lemma cb_run_first {A} (fuel : nat) (cb : Z -> option (callback A)) (g : callback A) (type flags seq portid : Z)
    (body rest : list byte) (ret : Z) (st : Z * A) :
  0 <= type < 2 ^ 16 -> Z.land (u16 flags) NLM_F_DUMP_INTR = 0 -> 0 <= seq < 2 ^ 32 -> aligned body -> total_len body + Z.of_nat (length rest) < 2 ^ 31 ->
  cb type = Some g ->
  let buf := nlmsg type flags seq body ++ rest in
  cb_run (S fuel) cb seq portid buf (Z.of_nat (length buf)) ret st
  = let '(r, st') := g buf st in
    if r <=? MNL_CB_STOP then (r, st') else cb_run fuel cb seq portid rest (Z.of_nat (length rest)) r st'.
Proof.
  intros Ht Hfl Hseq Hal Hlen Hg buf.
  destruct (nlmsg_fields type flags seq body rest ltac:(lia)) as (Hl & Hty & Hf & Hs & Hp & _). fold buf in Hl, Hty, Hf, Hs, Hp.
  assert (16 <= total_len body) as H16 by (unfold total_len; change MNL_NLMSG_HDRLEN with 16; lia).
  assert (Z.of_nat (length buf) = total_len body + Z.of_nat (length rest)) as Hlength
    by (subst buf; by rewrite length_app, Nat2Z.inj_add, nlmsg_length).
  assert (forall z, 0 <= z < 2 ^ 31 -> s32 z = z) as Hs32.
  { intros z Hz. unfold s32, u32. rewrite uw_small by lia. destruct (Z.leb_spec (2 ^ 31) z); lia. }
  cbn [cb_run]. replace (mnl_nlmsg_ok buf _) with true.
  2: { unfold mnl_nlmsg_ok. rewrite Hl, Hlength, Hs32 by lia. symmetry. rewrite !andb_true_iff, !Z.leb_le. lia. }
  unfold mnl_nlmsg_portid_ok, mnl_nlmsg_seq_ok. rewrite Hp, Hs, Hf, Hfl, Hty.
  unfold u32, u16. rewrite !(uw_small _ type), !(uw_small _ seq) by lia. cbn [Z.eqb negb andb]. rewrite Z.eqb_refl.
  replace (if _ && _ then true else true) with true by by destruct (_ && _). cbn [negb].
  rewrite Hg.
  destruct (g buf st) as [r st'] eqn:Er. destruct (r <=? MNL_CB_STOP); [done |].
  unfold mnl_nlmsg_next. rewrite Hl, Hlength, (MNL_ALIGN_aligned (total_len body))
    by (unfold total_len, aligned in *; change MNL_NLMSG_HDRLEN with 16; zlia).
  rewrite Z.add_simpl_l. subst buf. rewrite drop_app_ge by (rewrite <- Nat2Z.id at 1; rewrite nlmsg_length; lia).
  rewrite <- (nlmsg_length type flags seq body), Nat2Z.id, Nat.sub_diag, drop_0. rewrite Hs32 by lia. done.
Qed.

(** ** Reading what others wrote *)

(** The header tells the truth about an attribute: its payload is there. *)
Definition attr_fits (attr : nlattr) : Prop :=
  4 <= nla_len attr < 2 ^ 16 /\ nla_len attr <= 4 + Z.of_nat (length (nla_data attr)).

Lemma attr_at_fits (buf : list byte) (len : Z) :
  mnl_attr_ok (attr_at buf) len = true -> len <= Z.of_nat (length buf) -> attr_fits (attr_at buf).
Proof.
  unfold mnl_attr_ok, attr_fits, attr_at. cbn [nla_len nla_data]. intros H Hl. boolz. rewrite length_drop.
  unfold get_u16_at in *. pose proof (le_bytes_range (take 2 (drop 0 buf))) as Hr.
  rewrite length_take in Hr. assert (256 ^ Z.of_nat (Nat.min 2 (length (drop 0 buf))) <= 256 ^ 2)
    by (apply Z.pow_le_mono_r; lia). lia.
Qed.

(** A relation between verdict and data that the callback keeps holds at the end. *)
Lemma attr_loop_inv {A} (R : Z -> A -> Prop) (cb : nlattr -> A -> Z * A) (fuel : nat) (buf : list byte) (len ret : Z)
    (data : A) :
  (forall attr ret data, attr_fits attr -> 0 < ret -> R ret data -> R (fst (cb attr data)) (snd (cb attr data))) ->
  len <= Z.of_nat (length buf) -> 0 < ret -> R ret data ->
  R (fst (attr_loop fuel cb buf len ret data)) (snd (attr_loop fuel cb buf len ret data)).
Proof.
  intros Hcb. revert buf len ret data. induction fuel as [|fuel IH]; intros buf len ret data Hl Hr HR; [done |].
  cbn [attr_loop]. destruct (mnl_attr_ok (attr_at buf) len) eqn:Eok; [| done].
  pose proof (attr_at_fits buf len Eok Hl) as Hfit. specialize (Hcb _ ret data Hfit Hr HR).
  destruct (cb (attr_at buf) data) as [r d]. cbn [fst snd] in Hcb.
  destruct (Z.leb_spec r MNL_CB_STOP); [done |]. apply IH; [| unfold MNL_CB_STOP in *; lia | done].
  rewrite length_drop. destruct Hfit. pose proof (MNL_ALIGN_eq (nla_len (attr_at buf))). zlia.
Qed.

Lemma parse_nested_inv {A} (R : Z -> A -> Prop) (cb : nlattr -> A -> Z * A) (attr : nlattr) (data : A) :
  (forall attr ret data, attr_fits attr -> 0 < ret -> R ret data -> R (fst (cb attr data)) (snd (cb attr data))) ->
  attr_fits attr -> R MNL_CB_OK data ->
  R (fst (mnl_attr_parse_nested attr cb data)) (snd (mnl_attr_parse_nested attr cb data)).
Proof.
  intros Hcb [Ha Hl] HR. unfold mnl_attr_parse_nested. apply attr_loop_inv; [done | | done | done].
  unfold mnl_attr_get_payload_len, mnl_attr_get_payload, u16. change MNL_ATTR_HDRLEN with 4. rewrite uw_small by lia. lia.
Qed.

(** A datagram is a sequence of messages, each of a length that is a multiple of four, and
    perhaps a few bytes that are no message. *)
Inductive datagram : list byte -> Prop :=
| datagram_end buf : (length buf < 16)%nat -> datagram buf
| datagram_msg nlh : 16 <= nlmsg_len nlh <= Z.of_nat (length nlh) -> nlmsg_len nlh mod 4 = 0 ->
    datagram (drop (Z.to_nat (nlmsg_len nlh)) nlh) -> datagram nlh.

Definition msg_fits (nlh : list byte) : Prop :=
  16 <= nlmsg_len nlh <= Z.of_nat (length nlh) /\ nlmsg_len nlh mod 4 = 0.

Lemma attr_parse_inv {A} (R : Z -> A -> Prop) (nlh : list byte) (offset : Z) (cb : nlattr -> A -> Z * A) (data : A) :
  (forall attr ret data, attr_fits attr -> 0 < ret -> R ret data -> R (fst (cb attr data)) (snd (cb attr data))) ->
  msg_fits nlh -> 0 <= offset -> R MNL_CB_OK data ->
  R (fst (mnl_attr_parse nlh offset cb data)) (snd (mnl_attr_parse nlh offset cb data)).
Proof.
  intros Hcb [Hl Ha] Ho HR. unfold mnl_attr_parse. apply attr_loop_inv; [done | | done | done].
  unfold mnl_nlmsg_get_payload_offset. rewrite length_drop, (MNL_ALIGN_aligned _ Ha).
  change MNL_NLMSG_HDRLEN with 16. pose proof (MNL_ALIGN_eq offset). zlia.
Qed.

(** What the kernel sends is well formed, and its errors are errors. *)
Class NetlinkKernelLaws (K : NetlinkKernel) := {
  open_errno : forall k bus k' e, nl_open k bus = (k', inl e) -> e <> 0;
  send_errno : forall k msg k' e, nl_sendto k msg = (k', Some e) -> e <> 0;
  recv_datagram : forall k k' buf, nl_recvfrom k = (k', inr buf) ->
    datagram buf /\ Z.of_nat (length buf) < 2 ^ 31;
}.

(** The control callbacks leave the data alone. *)
Lemma ctl_cb_data {A} (type : Z) (f : callback A) (nlh : list byte) (st : Z * A) :
  mnlg_cb_array type = Some f \/ default_cb_array type = Some f -> snd (snd (f nlh st)) = snd st.
Proof.
  unfold mnlg_cb_array, default_cb_array, mnl_cb_noop, mnl_cb_error, mnl_cb_stop, mnlg_cb_stop. destruct st as [e d].
  intros [H | H]; repeat case_match; simplify_eq; repeat case_match; simplify_eq/=; try done;
    repeat case_match; done.
Qed.

(** What the data callback keeps unless it fails holds at the end of a run that did not. *)
Lemma cb_run_inv {A} (P : A -> Prop) (f : callback A) (cb : Z -> option (callback A)) (fuel : nat) (seq portid : Z)
    (nlh : list byte) (ret : Z) (st : Z * A) :
  (cb = cb_for (Some f) mnlg_cb_array 5 \/ cb = cb_for (Some f) (fun _ => None) 0) ->
  (forall nlh st, msg_fits nlh -> P (snd st) -> 0 <= fst (f nlh st) -> P (snd (snd (f nlh st)))) ->
  datagram nlh -> Z.of_nat (length nlh) < 2 ^ 31 -> P (snd st) ->
  let res := cb_run fuel cb seq portid nlh (Z.of_nat (length nlh)) ret st in
  0 <= fst res -> P (snd (snd res)).
Proof.
  intros Hcb Hf Hd Hlen. revert nlh ret st Hd Hlen.
  induction fuel as [|fuel IH]; intros nlh ret st Hd Hlen HP; cbn [cb_run]; [done |].
  destruct (mnl_nlmsg_ok nlh _) eqn:Eok; [| done].
  assert (msg_fits nlh) as Hfit.
  { destruct Hd as [buf Hs | buf Hl Ha _]; [| done]. unfold mnl_nlmsg_ok in Eok. boolz. lia. }
  assert (datagram (drop (Z.to_nat (nlmsg_len nlh)) nlh)) as Hnext.
  { destruct Hd as [buf Hs | buf Hl Ha Hd]; [| done]. unfold mnl_nlmsg_ok in Eok. boolz. lia. }
  destruct (negb (mnl_nlmsg_portid_ok nlh portid)); [done |]. destruct (negb (mnl_nlmsg_seq_ok nlh seq)); [done |].
  destruct (negb (_ =? 0)); [done |]. destruct Hfit as [Hl Ha].
  assert (forall ret st, P (snd st) ->
    let res := (let '(nlh, len) := mnl_nlmsg_next nlh (Z.of_nat (length nlh)) in cb_run fuel cb seq portid nlh len ret st) in
    0 <= fst res -> P (snd (snd res))) as Hgo.
  { intros ret' st' HP'. unfold mnl_nlmsg_next. rewrite MNL_ALIGN_aligned by done.
    replace (s32 _) with (Z.of_nat (length (drop (Z.to_nat (nlmsg_len nlh)) nlh))).
    - apply IH; [done | rewrite length_drop; lia | done].
    - rewrite length_drop. unfold s32, u32. rewrite uw_small by lia.
      destruct (Z.leb_spec (2 ^ 31) (Z.of_nat (length nlh) - nlmsg_len nlh)); lia. }
  destruct (cb (nlmsg_type nlh)) as [g |] eqn:Eg; [| by apply Hgo].
  assert (0 <= fst (g nlh st) -> P (snd (snd (g nlh st)))) as Hg.
  { intros Hr. destruct Hcb as [-> | ->]; unfold cb_for in Eg; destruct (NLMSG_MIN_TYPE <=? _); simplify_eq;
      try (by apply Hf); destruct (_ <? _); try done;
      rewrite (ctl_cb_data (nlmsg_type nlh) g); auto. }
  destruct (g nlh st) as [r st'] eqn:Er. cbn [fst snd] in Hg. destruct (Z.leb_spec r MNL_CB_STOP) as [| Hr]; [exact Hg |].
  apply Hgo, Hg. unfold MNL_CB_STOP in Hr. lia.
Qed.

Lemma recv_run_inv `{K : NetlinkKernel} `{!NetlinkKernelLaws K} {A} (P : A -> Prop) (f : callback A) (turns : nat)
    (k : kstate) (nlg : mnlg_socket) (st : Z * A) k' err st' :
  (forall nlh st, msg_fits nlh -> P (snd st) -> 0 <= fst (f nlh st) -> P (snd (snd (f nlh st)))) ->
  P (snd st) -> recv_run turns k nlg (Some f) st = Returns (k', err, st') -> 0 <= err -> P (snd st').
Proof.
  intros Hf. revert k st. induction turns as [|turns IH]; intros k st HP E Herr; [done |]. cbn [recv_run] in E.
  destruct (nl_recvfrom k) as [k1 [e | buf]] eqn:Er; [injection E as <- <- <-; lia |].
  destruct (_ =? 0)%nat; [by injection E as <- <- <- |].
  destruct (recv_datagram _ _ _ Er) as [Hd Hl].
  pose proof (cb_run_inv P f _ (S (length buf)) (seq nlg) (portid nlg) buf MNL_CB_OK st (or_introl eq_refl) Hf Hd Hl HP) as Hrun.
  fold (mnl_cb_run2 buf (seq nlg) (portid nlg) (Some f) st) in Hrun. cbv zeta in Hrun.
  destruct (mnl_cb_run2 _ _ _ _ _) as [e st1]. cbn [fst snd] in Hrun.
  destruct (Z.ltb_spec 0 e); [| injection E as <- <- <-; auto]. eapply IH; [| exact E | done]. apply Hrun. lia.
Qed.

Lemma socket_open_errno `{K : NetlinkKernel} `{!NetlinkKernelLaws K} (fuel : nat) (k : kstate) (family : list byte) k' e :
  mnlg_socket_open fuel k family = Returns (k', inl e) -> e <> 0.
Proof.
  unfold mnlg_socket_open. destruct (nl_open k NETLINK_GENERIC) as [k1 [e1 | port]] eqn:Eo.
  { intros [= <- <-]. by eapply open_errno. }
  destruct (nl_sendto _ _) as [k2 [e2 |]] eqn:Es. { intros [= <- <-]. by eapply send_errno. }
  destruct (mnlg_socket_recv_run _ _ _ _ _) as [[[k3 err] [errno nlg]] | |]; cbn [obind]; try done.
  destruct (err <? 0); [| done]. intros [= <- <-].
  destruct (Z.eqb_spec errno ENOENT); destruct (negb _) eqn:En; boolz; done.
Qed.

(** ** The answer to a request ends *)

Definition answers (K : NetlinkKernel) (fuel : nat) : Prop :=
  forall k msg k', nl_sendto k msg = (k', None) ->
  forall A (cb : option (callback A)) nlg st, exists res, recv_run fuel k' nlg cb st = Returns res.

Lemma socket_open_ends `{K : NetlinkKernel} (fuel : nat) (k : kstate) (family : list byte) :
  answers K fuel -> exists res, mnlg_socket_open fuel k family = Returns res.
Proof.
  intros Ha. unfold mnlg_socket_open. destruct (nl_open k NETLINK_GENERIC) as [k1 [e1 | port]]; [eauto |].
  destruct (nl_sendto _ _) as [k2 [e2 |]] eqn:Es; [eauto |].
  destruct (Ha _ _ _ Es _ (Some get_family_id_cb) (mnlg_msg_prepare k1 (MnlgSocket 0 0 0 port))
              (0, mnlg_msg_prepare k1 (MnlgSocket 0 0 0 port))) as [[[k3 err] [errno nlg]] E].
  unfold mnlg_socket_recv_run. rewrite E. cbn [obind]. destruct (err <? 0); eauto.
Qed.

(** ** A kernel that follows a script

    The script gives the datagrams that answer the [n]-th message; what is not a datagram is
    not delivered.  [EAGAIN] is what [recvmsg] says when there is nothing left. *)

Definition EAGAIN : Z := 11.

Fixpoint is_datagram (fuel : nat) (buf : list byte) : bool :=
  match fuel with
  | O => (length buf <? 16)%nat
  | S fuel' =>
      (length buf <? 16)%nat
      || ((16 <=? nlmsg_len buf) && (nlmsg_len buf <=? Z.of_nat (length buf)) && (nlmsg_len buf mod 4 =? 0)
          && is_datagram fuel' (drop (Z.to_nat (nlmsg_len buf)) buf))
  end.

Lemma is_datagram_ok (fuel : nat) (buf : list byte) : is_datagram fuel buf = true -> datagram buf.
Proof.
  revert buf. induction fuel as [|fuel IH]; intros buf E; cbn [is_datagram] in E.
  { by apply datagram_end, Nat.ltb_lt. }
  apply orb_true_iff in E as [E | E]; [by apply datagram_end, Nat.ltb_lt |]. boolz. apply datagram_msg; auto.
Qed.

Definition scripted (script : nat -> list byte -> list (list byte)) : NetlinkKernel := {|
  kstate := nat * list (list byte);
  nl_time k := 1700000000 + Z.of_nat (fst k);
  nl_open k bus := (k, inr 4242);
  nl_sendto k msg := ((S (fst k), script (fst k) msg), None);
  nl_recvfrom k :=
    match snd k with
    | [] => (k, inl EAGAIN)
    | buf :: rest =>
        ((fst k, rest), if is_datagram (length buf) buf && (Z.of_nat (length buf) <? 2 ^ 31) then inr buf else inl EAGAIN)
    end;
|}.

#[export] Instance scripted_laws (script : nat -> list byte -> list (list byte)) : NetlinkKernelLaws (scripted script).
Proof.
  constructor; [done | done |]. cbn. intros [n [|b rest]] k' buf E; cbn in E; [done |].
  destruct (_ && _) eqn:Eb; [| done]. injection E as <- <-. boolz. split; [by eapply is_datagram_ok | done].
Qed.

Lemma scripted_answers (script : nat -> list byte -> list (list byte)) (fuel : nat) :
  (forall n msg, (length (script n msg) < fuel)%nat) -> answers (scripted script) fuel.
Proof.
  intros Hs k msg k' E A cb nlg st. injection E as <-.
  pose proof (Hs (fst k) msg) as Hl. revert Hl st. generalize (script (fst k) msg). generalize (S (fst k)). clear Hs.
  intros n queue. revert fuel. induction queue as [|buf queue IH]; intros [|fuel] Hl st; cbn in Hl; try lia; cbn [recv_run nl_recvfrom scripted fst snd].
  - eauto.
  - destruct (_ && _); [| eauto]. destruct (_ =? 0)%nat; [eauto |]. destruct (mnl_cb_run2 _ _ _ _ _) as [e st'].
    destruct (0 <? e); [| eauto]. apply IH. lia.
Qed.

(** The messages of the kernel: an acknowledgement or error for a message, and the family
    [29], version 2, to the one that asks for it. *)
Definition ack_msg (errno : Z) (msg : list byte) : list byte :=
  nlmsg NLMSG_ERROR 0 (nlmsg_seq msg) (bytes_le 4 (- errno) ++ take 16 msg).

Definition family_msg (msg : list byte) : list byte :=
  nlmsg GENL_ID_CTRL 0 (nlmsg_seq msg)
    (genlmsghdr 1 2 ++ tlvs [(CTRL_ATTR_FAMILY_ID, bytes_le 2 29); (CTRL_ATTR_VERSION, bytes_le 4 2)]).

Definition acking : nat -> list byte -> list (list byte) := fun _ msg =>
  if nlmsg_type msg =? GENL_ID_CTRL then [family_msg msg; ack_msg 0 msg] else [ack_msg 0 msg].
