(* ===== verification/NetlinkSocket.v ===== *)
(** * Netlink sockets over system calls (src/netlink.h)

    The socket functions of netlink.h over the system calls, and the kernel that the back end
    for Linux knows ([NetlinkKernel]) made from them: whatever the system calls answer, the back
    end only sees whole datagrams that come from netlink addresses. *)

From S2P Require Import Prelude Netlink.
#[local] Open Scope Z_scope.
#[local] Open Scope awg_scope.

Definition AF_NETLINK : Z := 16.
Definition ENOSPC : Z := 28.
Definition MNL_SOCKET_AUTOPID : Z := 0.
Definition MSG_TRUNC : Z := 32.

Record sockaddr_nl := SockaddrNl {
  nl_family : Z;
  nl_pid : Z;
  nl_groups : Z;
}.

Definition sizeof_sockaddr_nl : Z := 12.

(** What [recvmsg] gives: the bytes that were stored and the fields of the header it changes. *)
Record received := Received {
  rm_data : list byte;
  rm_namelen : Z;
  rm_flags : Z;
}.

(** The system calls: [inl] and [Some] are errors. *)
Class NetlinkSyscalls := {
  sys_state : Type;
  sys_time : sys_state -> Z;
  sys_socket : sys_state -> Z -> sys_state * (Z + Z);
  sys_bind : sys_state -> Z -> sockaddr_nl -> sys_state * option Z;
  sys_getsockname : sys_state -> Z -> Z + sockaddr_nl * Z;
  sys_sendto : sys_state -> Z -> list byte -> sys_state * option Z;
  sys_recvmsg : sys_state -> Z -> Z -> sys_state * (Z + received);
  sys_close : sys_state -> Z -> sys_state;
}.

Record mnl_socket := MnlSocket {
  fd : Z;
  addr : sockaddr_nl;
}.

Section Sockets.
Context `{NetlinkSyscalls}.

Definition mnl_socket_get_portid (nl : mnl_socket) : Z := nl_pid (addr nl).

Definition mnl_socket_open (s : sys_state) (bus : Z) : sys_state * (Z + mnl_socket) :=
  match sys_socket s bus with
  | (s, inl e) => (s, inl e)
  | (s, inr fd) => (s, inr (MnlSocket fd (SockaddrNl 0 0 0)))
  end.

(** The errno of the -1, or the socket with the address that the kernel gave it. *)
Definition mnl_socket_bind (s : sys_state) (nl : mnl_socket) (groups pid : Z) : sys_state * (Z + mnl_socket) :=
  match sys_bind s (fd nl) (SockaddrNl AF_NETLINK (u32 pid) groups) with
  | (s, Some e) => (s, inl e)
  | (s, None) =>
      match sys_getsockname s (fd nl) with
      | inl e => (s, inl e)
      | inr (a, addr_len) =>
          if negb (addr_len =? sizeof_sockaddr_nl) then (s, inl EINVAL)
          else if negb (nl_family a =? AF_NETLINK) then (s, inl EINVAL)
          else (s, inr (MnlSocket (fd nl) a))
      end
  end.

Definition mnl_socket_sendto (s : sys_state) (nl : mnl_socket) (buf : list byte) : sys_state * option Z := sys_sendto s (fd nl) buf.

Definition mnl_socket_recvfrom (s : sys_state) (nl : mnl_socket) (bufsiz : Z) : sys_state * (Z + list byte) :=
  match sys_recvmsg s (fd nl) bufsiz with
  | (s, inl e) => (s, inl e)
  | (s, inr r) =>
      if negb (Z.land (rm_flags r) MSG_TRUNC =? 0) then (s, inl ENOSPC)
      else if negb (rm_namelen r =? sizeof_sockaddr_nl) then (s, inl EINVAL)
      else (s, inr (rm_data r))
  end.

Definition mnl_socket_close (s : sys_state) (nl : mnl_socket) : sys_state := sys_close s (fd nl).

(** ** The kernel behind a socket *)

(** The system calls with the socket that is open. *)
Definition socket_open (k : sys_state * option mnl_socket) (bus : Z) : (sys_state * option mnl_socket) * (Z + Z) :=
  match mnl_socket_open (fst k) bus with
  | (s, inl e) => ((s, None), inl e)
  | (s, inr nl) =>
      match mnl_socket_bind s nl 0 MNL_SOCKET_AUTOPID with
      | (s, inl e) => ((mnl_socket_close s nl, None), inl e)
      | (s, inr nl) => ((s, Some nl), inr (mnl_socket_get_portid nl))
      end
  end.

Definition EBADF : Z := 9.

Definition socket_kernel (pagesize : Z) : NetlinkKernel := {|
  kstate := sys_state * option mnl_socket;
  nl_time k := sys_time (fst k);
  nl_open := socket_open;
  nl_sendto k buf :=
    match snd k with
    | Some nl => let '(s, e) := mnl_socket_sendto (fst k) nl buf in ((s, Some nl), e)
    | None => (k, Some EBADF)
    end;
  nl_recvfrom k :=
    match snd k with
    | Some nl => let '(s, r) := mnl_socket_recvfrom (fst k) nl (mnl_ideal_socket_buffer_size pagesize) in ((s, Some nl), r)
    | None => (k, inl EBADF)
    end;
|}.

(** A socket that opens is a netlink socket with the port that the kernel gave it. *)
Lemma socket_open_netlink (k k' : sys_state * option mnl_socket) (bus port : Z) : socket_open k bus = (k', inr port) ->
  exists nl, snd k' = Some nl /\ nl_family (addr nl) = AF_NETLINK /\ port = nl_pid (addr nl)
    /\ sys_getsockname (fst k') (fd nl) = inr (addr nl, sizeof_sockaddr_nl).
Proof.
  unfold socket_open, mnl_socket_open, mnl_socket_bind. destruct (sys_socket (fst k) bus) as [s1 [e|d]]; [done |]. cbn [fd].
  destruct (sys_bind s1 d _) as [s2 [e|]]; [done |]. destruct (sys_getsockname s2 d) as [e|[a len]] eqn:E; [done |].
  destruct (Z.eqb_spec len sizeof_sockaddr_nl) as [-> |]; cbn [negb]; [| done].
  destruct (Z.eqb_spec (nl_family a) AF_NETLINK) as [Hf |]; cbn [negb]; [| done]. intros [= <- <-]. by exists (MnlSocket d a).
Qed.

(** A socket that does not open is not left behind: it was never there, or it is closed. *)
Lemma socket_open_closes (k k' : sys_state * option mnl_socket) (bus e : Z) : socket_open k bus = (k', inl e) ->
  snd k' = None /\ (sys_socket (fst k) bus = (fst k', inl e) \/ exists d s s', sys_socket (fst k) bus = (s, inr d) /\ fst k' = sys_close s' d).
Proof.
  unfold socket_open, mnl_socket_open, mnl_socket_bind, mnl_socket_close. destruct (sys_socket (fst k) bus) as [s1 [e1|d]].
  - intros [= <- <-]. split; [done | by left].
  - cbn [fd]. intros Hr. destruct (sys_bind s1 d _) as [s2 b].
    assert (k' = (sys_close s2 d, None)) as ->; [| split; [done | right; by exists d, s1, s2]].
    destruct b; [by injection Hr as <- _ |]. destruct (sys_getsockname s2 d) as [e2|[a len]]; [by injection Hr as <- _ |].
    destruct (len =? sizeof_sockaddr_nl); cbn [negb] in Hr; [| by injection Hr as <- _].
    destruct (nl_family a =? AF_NETLINK); cbn [negb] in Hr; [done | by injection Hr as <- _].
Qed.

(** What the back end receives is a whole datagram, in at most as many bytes as its buffer has
    when the kernel respects that. *)
Lemma socket_recv_whole (pagesize : Z) (k k' : sys_state * option mnl_socket) (buf : list byte) :
  @nl_recvfrom (socket_kernel pagesize) k = (k', inr buf) ->
  exists nl s r, snd k = Some nl /\ sys_recvmsg (fst k) (fd nl) (mnl_ideal_socket_buffer_size pagesize) = (s, inr r)
    /\ buf = rm_data r /\ Z.testbit (rm_flags r) 5 = false /\ rm_namelen r = sizeof_sockaddr_nl.
Proof.
  cbn. destruct (snd k) as [nl|] eqn:Ek; [| done]. unfold mnl_socket_recvfrom.
  destruct (sys_recvmsg (fst k) (fd nl) _) as [s [e|r]] eqn:Er; [done |].
  destruct (Z.eqb_spec (Z.land (rm_flags r) MSG_TRUNC) 0) as [Hf |]; cbn [negb]; [| done].
  destruct (Z.eqb_spec (rm_namelen r) sizeof_sockaddr_nl) as [Hn |]; cbn [negb]; [| done]. intros [= <- <-]. exists nl, s, r.
  split; [done |]. split; [done |]. split; [done |]. split; [| done].
  apply (f_equal (fun z => Z.testbit z 5)) in Hf. rewrite Z.land_spec, Z.bits_0 in Hf. change (Z.testbit MSG_TRUNC 5) with true in Hf.
  by rewrite andb_true_r in Hf.
Qed.

End Sockets.
