(* ===== verification/IpcLinux.v ===== *)
(** * The kernel back end on Linux (src/ipc-linux.h)

    [kernel_set_device] writes a device into as many netlink messages as it takes, each no
    larger than the socket buffer; [kernel_get_device] reads a device from a dump and joins
    the peers the kernel has split.  Both talk to a [NetlinkKernel]. *)

From S2P Require Import Prelude CString Encoding Containers CSort Ipc Netlink.
#[local] Open Scope Z_scope.
#[local] Open Scope awg_scope.

(** ** linux/wireguard.h *)

Definition WG_GENL_NAME : list byte := text "amneziawg".
Definition WG_CMD_GET_DEVICE : Z := 0.
Definition WG_CMD_SET_DEVICE : Z := 1.
Definition WGDEVICE_F_REPLACE_PEERS : Z := 1.

Definition WGDEVICE_A_UNSPEC : Z := 0.
Definition WGDEVICE_A_IFINDEX : Z := 1.
Definition WGDEVICE_A_IFNAME : Z := 2.
Definition WGDEVICE_A_PRIVATE_KEY : Z := 3.
Definition WGDEVICE_A_PUBLIC_KEY : Z := 4.
Definition WGDEVICE_A_FLAGS : Z := 5.
Definition WGDEVICE_A_LISTEN_PORT : Z := 6.
Definition WGDEVICE_A_FWMARK : Z := 7.
Definition WGDEVICE_A_PEERS : Z := 8.
Definition WGDEVICE_A_JC : Z := 9.
Definition WGDEVICE_A_JMIN : Z := 10.
Definition WGDEVICE_A_JMAX : Z := 11.
Definition WGDEVICE_A_S1 : Z := 12.
Definition WGDEVICE_A_S2 : Z := 13.
Definition WGDEVICE_A_H1 : Z := 14.
Definition WGDEVICE_A_H2 : Z := 15.
Definition WGDEVICE_A_H3 : Z := 16.
Definition WGDEVICE_A_H4 : Z := 17.
Definition WGDEVICE_A_PEER : Z := 18.
Definition WGDEVICE_A_S3 : Z := 19.
Definition WGDEVICE_A_S4 : Z := 20.
Definition WGDEVICE_A_I1 : Z := 21.
Definition WGDEVICE_A_I2 : Z := 22.
Definition WGDEVICE_A_I3 : Z := 23.
Definition WGDEVICE_A_I4 : Z := 24.
Definition WGDEVICE_A_I5 : Z := 25.

Definition WGPEER_F_REMOVE_ME : Z := 1.
Definition WGPEER_F_REPLACE_ALLOWEDIPS : Z := 2.
Definition WGPEER_F_HAS_AWG : Z := 8.

Definition WGPEER_A_UNSPEC : Z := 0.
Definition WGPEER_A_PUBLIC_KEY : Z := 1.
Definition WGPEER_A_PRESHARED_KEY : Z := 2.
Definition WGPEER_A_FLAGS : Z := 3.
Definition WGPEER_A_ENDPOINT : Z := 4.
Definition WGPEER_A_PERSISTENT_KEEPALIVE_INTERVAL : Z := 5.
Definition WGPEER_A_LAST_HANDSHAKE_TIME : Z := 6.
Definition WGPEER_A_RX_BYTES : Z := 7.
Definition WGPEER_A_TX_BYTES : Z := 8.
Definition WGPEER_A_ALLOWEDIPS : Z := 9.
Definition WGPEER_A_PROTOCOL_VERSION : Z := 10.
Definition WGPEER_A_AWG : Z := 11.

Definition WGALLOWEDIP_A_UNSPEC : Z := 0.
Definition WGALLOWEDIP_A_FAMILY : Z := 1.
Definition WGALLOWEDIP_A_IPADDR : Z := 2.
Definition WGALLOWEDIP_A_CIDR_MASK : Z := 3.

(** ** [kernel_set_device] *)

Section Set_device.
Context `{Platform} (uninit : nat -> byte) (SOCKET_BUFFER_SIZE : Z).

(** None: [strlen] or [strtoul] of a NULL [header_field]. *)
Definition put_magic_header_attr (version : Z) (attr_name : Z) (header_field : option (list byte)) (m : list byte) :
    option (list byte) :=
  header_field ← header_field;
  Some (if 2 <=? version then mnl_attr_put_strz m attr_name header_field
        else mnl_attr_put_u32 m attr_name (u32 (fst (strtoul 10 header_field)))).

(** The attributes of the device, in the first message; none when a string is NULL whose flag
    is set. *)
Definition put_device (version : Z) (dev : wgdevice) (m : list byte) : option (list byte) :=
  let has := has_flag (flags dev) in
  let u16 type v m := Some (mnl_attr_put_u16 m type v) in
  let u32 type v m := Some (mnl_attr_put_u32 m type v) in
  let header := put_magic_header_attr version in
  let strz type v m := v ← v; Some (mnl_attr_put_strz m type v) in
  let flags := if has WGDEVICE_REPLACE_PEERS then WGDEVICE_F_REPLACE_PEERS else 0 in
  m ← when (has WGDEVICE_HAS_PRIVATE_KEY) (fun m => Some (mnl_attr_put m WGDEVICE_A_PRIVATE_KEY (private_key dev))) m;
  m ← when (has WGDEVICE_HAS_LISTEN_PORT) (u16 WGDEVICE_A_LISTEN_PORT (listen_port dev)) m;
  m ← when (has WGDEVICE_HAS_JC) (u16 WGDEVICE_A_JC (junk_packet_count dev)) m;
  m ← when (has WGDEVICE_HAS_JMIN) (u16 WGDEVICE_A_JMIN (junk_packet_min_size dev)) m;
  m ← when (has WGDEVICE_HAS_JMAX) (u16 WGDEVICE_A_JMAX (junk_packet_max_size dev)) m;
  m ← when (has WGDEVICE_HAS_S1) (u16 WGDEVICE_A_S1 (init_packet_junk_size dev)) m;
  m ← when (has WGDEVICE_HAS_S2) (u16 WGDEVICE_A_S2 (response_packet_junk_size dev)) m;
  m ← when (has WGDEVICE_HAS_S3) (u16 WGDEVICE_A_S3 (cookie_reply_packet_junk_size dev)) m;
  m ← when (has WGDEVICE_HAS_S4) (u16 WGDEVICE_A_S4 (transport_packet_junk_size dev)) m;
  m ← when (has WGDEVICE_HAS_H1) (header WGDEVICE_A_H1 (init_packet_magic_header dev)) m;
  m ← when (has WGDEVICE_HAS_H2) (header WGDEVICE_A_H2 (response_packet_magic_header dev)) m;
  m ← when (has WGDEVICE_HAS_H3) (header WGDEVICE_A_H3 (underload_packet_magic_header dev)) m;
  m ← when (has WGDEVICE_HAS_H4) (header WGDEVICE_A_H4 (transport_packet_magic_header dev)) m;
  m ← when (has WGDEVICE_HAS_I1) (strz WGDEVICE_A_I1 (i1 dev)) m;
  m ← when (has WGDEVICE_HAS_I2) (strz WGDEVICE_A_I2 (i2 dev)) m;
  m ← when (has WGDEVICE_HAS_I3) (strz WGDEVICE_A_I3 (i3 dev)) m;
  m ← when (has WGDEVICE_HAS_I4) (strz WGDEVICE_A_I4 (i4 dev)) m;
  m ← when (has WGDEVICE_HAS_I5) (strz WGDEVICE_A_I5 (i5 dev)) m;
  m ← when (has WGDEVICE_HAS_FWMARK) (u32 WGDEVICE_A_FWMARK (fwmark dev)) m;
  when (negb (flags =? 0)) (u32 WGDEVICE_A_FLAGS flags) m.

(** One allowed IP inside its nest. *)
Definition put_allowedip (a : wgallowedip) : put :=
  put_then (mnl_attr_put_u16_check SOCKET_BUFFER_SIZE WGALLOWEDIP_A_FAMILY (family a))
  (put_then (if family a =? AF_INET then mnl_attr_put_check SOCKET_BUFFER_SIZE WGALLOWEDIP_A_IPADDR (ip4 a)
             else if family a =? AF_INET6 then mnl_attr_put_check SOCKET_BUFFER_SIZE WGALLOWEDIP_A_IPADDR (ip6 a)
             else put_none)
   (mnl_attr_put_u8_check SOCKET_BUFFER_SIZE WGALLOWEDIP_A_CIDR_MASK (cidr a))).

(** The loop over the allowed IPs: those that are left when the message is full, none when
    all are written. *)
Fixpoint put_allowedips (allowedip : list wgallowedip) (m : list byte) : list wgallowedip * list byte :=
  match allowedip with
  | [] => ([], m)
  | a :: next_allowedip =>
      match mnl_attr_nest_start_check uninit m SOCKET_BUFFER_SIZE 0 with
      | None => (allowedip, m)
      | Some (allowedip_nest, m) =>
          match put_allowedip a m with
          | (true, m) => put_allowedips next_allowedip (mnl_attr_nest_end m allowedip_nest)
          | (false, m) => (allowedip, mnl_attr_nest_cancel m allowedip_nest)
          end
      end
  end.

(** The attributes of a peer before its allowed IPs; [first] when none of them was sent. *)
Definition put_peer (first : bool) (p : wgpeer) : put :=
  let has := has_flag (peer_flags p) in
  let flags := Z.lor (if has WGPEER_REMOVE_ME then WGPEER_F_REMOVE_ME else 0)
                 (Z.lor (if first && has WGPEER_REPLACE_ALLOWEDIPS then WGPEER_F_REPLACE_ALLOWEDIPS else 0)
                    (if has WGPEER_HAS_AWG then WGPEER_F_HAS_AWG else 0)) in
  put_then (mnl_attr_put_check SOCKET_BUFFER_SIZE WGPEER_A_PUBLIC_KEY (peer_public_key p))
  (put_then (put_when (first && has WGPEER_HAS_PRESHARED_KEY)
               (mnl_attr_put_check SOCKET_BUFFER_SIZE WGPEER_A_PRESHARED_KEY (preshared_key p)))
  (put_then (put_when first
               (if sa_family (endpoint p) =? AF_INET
                then mnl_attr_put_check SOCKET_BUFFER_SIZE WGPEER_A_ENDPOINT (take sizeof_sockaddr_in (endpoint p))
                else if sa_family (endpoint p) =? AF_INET6
                then mnl_attr_put_check SOCKET_BUFFER_SIZE WGPEER_A_ENDPOINT (take sizeof_sockaddr_in6 (endpoint p))
                else put_none))
  (put_then (put_when (first && has WGPEER_HAS_PERSISTENT_KEEPALIVE_INTERVAL)
               (mnl_attr_put_u16_check SOCKET_BUFFER_SIZE WGPEER_A_PERSISTENT_KEEPALIVE_INTERVAL
                  (persistent_keepalive_interval p)))
  (put_then (put_when (has WGPEER_HAS_AWG && awg p)
               (* the verdict of this write is not looked at *)
               (fun m => (true, snd (mnl_attr_put_check SOCKET_BUFFER_SIZE WGPEER_A_AWG [] m))))
   (put_when (negb (flags =? 0)) (mnl_attr_put_u32_check SOCKET_BUFFER_SIZE WGPEER_A_FLAGS flags)))))).

(** The loop over the peers: the peers that are left and the rest of the first one's allowed
    IPs; none of either when all are written. *)
Fixpoint put_peers (peer : list wgpeer) (allowedip : list wgallowedip) (m : list byte) :
    list wgpeer * list wgallowedip * list byte :=
  match peer with
  | [] => ([], allowedip, m)
  | p :: next_peer =>
      match mnl_attr_nest_start_check uninit m SOCKET_BUFFER_SIZE 0 with
      | None => (peer, allowedip, m)
      | Some (peer_nest, m) =>
          match put_peer (length allowedip =? 0)%nat p m with
          | (false, m) => (peer, allowedip, mnl_attr_nest_cancel m peer_nest)
          | (true, m) =>
              if (length (allowedips p) =? 0)%nat then put_peers next_peer allowedip (mnl_attr_nest_end m peer_nest)
              else
                let allowedip := if (length allowedip =? 0)%nat then allowedips p else allowedip in
                match mnl_attr_nest_start_check uninit m SOCKET_BUFFER_SIZE WGPEER_A_ALLOWEDIPS with
                | None => (peer, allowedip, mnl_attr_nest_end m peer_nest)
                | Some (allowedips_nest, m) =>
                    let '(allowedip, m) := put_allowedips allowedip m in
                    let m := mnl_attr_nest_end (mnl_attr_nest_end m allowedips_nest) peer_nest in
                    if (length allowedip =? 0)%nat then put_peers next_peer allowedip m else (peer, allowedip, m)
                end
          end
      end
  end.

(** One message; [peer] is empty for NULL, before the first. *)
Definition set_message (version : Z) (dev : wgdevice) (peer : list wgpeer) (allowedip : list wgallowedip) :
    option (list wgpeer * list wgallowedip * list byte) :=
  let m := mnl_attr_put_strz (genlmsghdr WG_CMD_SET_DEVICE version) WGDEVICE_A_IFNAME (name dev) in
  m ← when (length peer =? 0)%nat (put_device version dev) m;
  if (length (peers dev) =? 0)%nat then Some (peer, allowedip, m)
  else
    let '(peers_nest, m) := mnl_attr_nest_start uninit m WGDEVICE_A_PEERS in
    let '(peer, allowedip, m) := put_peers (if (length peer =? 0)%nat then peers dev else peer) allowedip m in
    Some (peer, allowedip, mnl_attr_nest_end m peers_nest).

Context `{NetlinkKernel} (fuel : nat).

(** The loop from [again] on: the result of [kernel_set_device] with the socket open. *)
Fixpoint set_loop (turns : nat) (k : kstate) (nlg : mnlg_socket) (dev : wgdevice) (peer : list wgpeer)
    (allowedip : list wgallowedip) : outcome (kstate * Z) :=
  match turns with
  | O => OutOfFuel
  | S turns' =>
      let nlg := mnlg_msg_prepare k nlg in
      match set_message (version nlg) dev peer allowedip with
      | None => Exits SEGV
      | Some (peer, allowedip, m) =>
          match nl_sendto k (nlmsg (id nlg) (Z.lor NLM_F_REQUEST NLM_F_ACK) (seq nlg) m) with
          | (k, Some e) => Returns (k, - e)
          | (k, None) =>
              let! '(k, err, (errno, _)) := mnlg_socket_recv_run (A := unit) fuel k nlg None (0, tt) in
              if err <? 0 then Returns (k, if negb (errno =? 0) then - errno else - EINVAL)
              else if (length peer =? 0)%nat then Returns (k, 0)
              else set_loop turns' k nlg dev peer allowedip
          end
      end
  end.

Definition kernel_set_device (turns : nat) (k : kstate) (dev : wgdevice) : outcome (kstate * Z) :=
  let! '(k, res) := mnlg_socket_open fuel k WG_GENL_NAME in
  match res with
  | inl e => Returns (k, - e)
  | inr nlg => set_loop turns k nlg dev [] []
  end.

End Set_device.

(** ** [kernel_get_device] *)

(** [if (!mnl_attr_validate(attr, type))]: the update, or the [errno] of the validation. *)
Definition if_valid {A} (attr : nlattr) (type : mnl_attr_data_type) (f : A -> A) (st : Z * A) : Z * A :=
  match mnl_attr_validate attr type with
  | None => (fst st, f (snd st))
  | Some e => (e, snd st)
  end.

(** [if (mnl_attr_get_payload_len(attr) == n)]. *)
Definition if_len {A} (attr : nlattr) (n : nat) (f : A -> A) (st : Z * A) : Z * A :=
  if mnl_attr_get_payload_len attr =? Z.of_nat n then (fst st, f (snd st)) else st.

Definition parse_allowedip (attr : nlattr) (st : Z * wgallowedip) : Z * (Z * wgallowedip) :=
  let type := mnl_attr_get_type attr in
  (MNL_CB_OK,
   if type =? WGALLOWEDIP_A_FAMILY then
     if_valid attr MNL_TYPE_U16 (fun a => a <| family := mnl_attr_get_u16 attr |>) st
   else if type =? WGALLOWEDIP_A_IPADDR then
     if mnl_attr_get_payload_len attr =? 4 then
       (fst st, (snd st) <| ip ::= fun dst => memcpy_front dst (take 4 (mnl_attr_get_payload attr)) |>)
     else if mnl_attr_get_payload_len attr =? 16 then
       (fst st, (snd st) <| ip := take 16 (mnl_attr_get_payload attr) |>)
     else st
   else if type =? WGALLOWEDIP_A_CIDR_MASK then
     if_valid attr MNL_TYPE_U8 (fun a => a <| cidr := mnl_attr_get_u8 attr |>) st
   else st).

(** The new cell is linked before it is filled, and stays when it is malformed. *)
Definition parse_allowedips (attr : nlattr) (st : Z * wgpeer) : Z * (Z * wgpeer) :=
  let '(errno, peer) := st in
  let '(ret, (errno, new_allowedip)) := mnl_attr_parse_nested attr parse_allowedip (errno, zero_allowedip) in
  let peer := peer <| allowedips ::= fun l => l ++ [new_allowedip] |> in
  if ret =? 0 then (ret, (errno, peer))
  else if negb (((family new_allowedip =? AF_INET) && (cidr new_allowedip <=? 32))
                || ((family new_allowedip =? AF_INET6) && (cidr new_allowedip <=? 128)))
  then (MNL_CB_ERROR, (errno, peer))
  else (MNL_CB_OK, (errno, peer)).

Definition parse_peer (attr : nlattr) (st : Z * wgpeer) : Z * (Z * wgpeer) :=
  let type := mnl_attr_get_type attr in
  let data := mnl_attr_get_payload attr in
  let ok st : Z * (Z * wgpeer) := (MNL_CB_OK, st) in
  if type =? WGPEER_A_PUBLIC_KEY then
    ok (if_len attr 32 (fun p => set_peer_flag WGPEER_HAS_PUBLIC_KEY (p <| peer_public_key := take 32 data |>)) st)
  else if type =? WGPEER_A_PRESHARED_KEY then
    ok (if_len attr 32 (fun p =>
          let p := p <| preshared_key := take 32 data |> in
          if key_is_zero (preshared_key p) then p else set_peer_flag WGPEER_HAS_PRESHARED_KEY p) st)
  else if type =? WGPEER_A_ENDPOINT then
    ok (if mnl_attr_get_payload_len attr <? 16 then st
        else if (sa_family data =? AF_INET) && (mnl_attr_get_payload_len attr =? Z.of_nat sizeof_sockaddr_in) then
          (fst st, (snd st) <| endpoint ::= fun dst => memcpy_front dst (take sizeof_sockaddr_in data) |>)
        else if (sa_family data =? AF_INET6) && (mnl_attr_get_payload_len attr =? Z.of_nat sizeof_sockaddr_in6) then
          (fst st, (snd st) <| endpoint ::= fun dst => memcpy_front dst (take sizeof_sockaddr_in6 data) |>)
        else st)
  else if type =? WGPEER_A_PERSISTENT_KEEPALIVE_INTERVAL then
    ok (if_valid attr MNL_TYPE_U16 (fun p => p <| persistent_keepalive_interval := mnl_attr_get_u16 attr |>) st)
  else if type =? WGPEER_A_LAST_HANDSHAKE_TIME then
    ok (if_len attr 16 (fun p =>
          p <| last_handshake_time := Timespec64 (s64 (le_bytes (take 8 data))) (s64 (le_bytes (take 8 (drop 8 data)))) |>) st)
  else if type =? WGPEER_A_RX_BYTES then
    ok (if_valid attr MNL_TYPE_U64 (fun p => p <| rx_bytes := mnl_attr_get_u64 attr |>) st)
  else if type =? WGPEER_A_TX_BYTES then
    ok (if_valid attr MNL_TYPE_U64 (fun p => p <| tx_bytes := mnl_attr_get_u64 attr |>) st)
  else if type =? WGPEER_A_FLAGS then
    ok (if_valid attr MNL_TYPE_U32 (fun p =>
          if has_flag (mnl_attr_get_u32 attr) WGPEER_F_HAS_AWG && negb (has_flag (peer_flags p) WGPEER_HAS_AWG)
          then (set_peer_flag WGPEER_HAS_AWG p) <| awg := false |> else p) st)
  else if type =? WGPEER_A_AWG then
    ok (if_valid attr MNL_TYPE_FLAG (fun p =>
          let p := p <| awg := true |> in
          if has_flag (peer_flags p) WGPEER_HAS_AWG then p else set_peer_flag WGPEER_HAS_AWG p) st)
  else if type =? WGPEER_A_ALLOWEDIPS then mnl_attr_parse_nested attr parse_allowedips st
  else ok st.

(** A negative verdict of the nested attributes does not end the function. *)
Definition parse_peers (attr : nlattr) (st : Z * wgdevice) : Z * (Z * wgdevice) :=
  let '(errno, device) := st in
  let '(ret, (errno, new_peer)) := mnl_attr_parse_nested attr parse_peer (errno, zero_peer) in
  let device := device <| peers ::= fun l => l ++ [new_peer] |> in
  if ret =? 0 then (ret, (errno, device))
  else if negb (has_flag (peer_flags new_peer) WGPEER_HAS_PUBLIC_KEY) then (MNL_CB_ERROR, (errno, device))
  else (MNL_CB_OK, (errno, device)).

(** [GET_MAGIC_HEADER]: a number of four bytes, or a string. *)
Definition GET_MAGIC_HEADER (attr : nlattr) (set : list byte -> wgdevice -> wgdevice) (attr_name : Z)
    (st : Z * wgdevice) : Z * wgdevice :=
  match mnl_attr_validate attr MNL_TYPE_U32 with
  | None => (fst st, set_dev_flag attr_name (set (print_u (mnl_attr_get_u32 attr)) (snd st)))
  | Some e =>
      if_valid attr MNL_TYPE_NUL_STRING (fun d => set_dev_flag attr_name (set (mnl_attr_get_str attr) d)) (e, snd st)
  end.

Definition parse_device (attr : nlattr) (st : Z * wgdevice) : Z * (Z * wgdevice) :=
  let type := mnl_attr_get_type attr in
  let data := mnl_attr_get_payload attr in
  let ok st : Z * (Z * wgdevice) := (MNL_CB_OK, st) in
  let u16 (set : Z -> wgdevice -> wgdevice) flag :=
    ok (if_valid attr MNL_TYPE_U16 (fun d => set_dev_flag flag (set (mnl_attr_get_u16 attr) d)) st) in
  let header set flag := ok (GET_MAGIC_HEADER attr set flag st) in
  let str (set : list byte -> wgdevice -> wgdevice) flag :=
    ok (if_valid attr MNL_TYPE_NUL_STRING (fun d => set_dev_flag flag (set (mnl_attr_get_str attr) d)) st) in
  if type =? WGDEVICE_A_IFINDEX then
    ok (if_valid attr MNL_TYPE_U32 (fun d => d <| ifindex := mnl_attr_get_u32 attr |>) st)
  else if type =? WGDEVICE_A_IFNAME then
    ok (if_valid attr MNL_TYPE_STRING (set_name (mnl_attr_get_str attr)) st)
  else if type =? WGDEVICE_A_PRIVATE_KEY then
    ok (if_len attr 32 (fun d => set_dev_flag WGDEVICE_HAS_PRIVATE_KEY (d <| private_key := take 32 data |>)) st)
  else if type =? WGDEVICE_A_PUBLIC_KEY then
    ok (if_len attr 32 (fun d => set_dev_flag WGDEVICE_HAS_PUBLIC_KEY (d <| public_key := take 32 data |>)) st)
  else if type =? WGDEVICE_A_LISTEN_PORT then
    ok (if_valid attr MNL_TYPE_U16 (fun d => d <| listen_port := mnl_attr_get_u16 attr |>) st)
  else if type =? WGDEVICE_A_FWMARK then
    ok (if_valid attr MNL_TYPE_U32 (fun d => d <| fwmark := mnl_attr_get_u32 attr |>) st)
  else if type =? WGDEVICE_A_PEERS then mnl_attr_parse_nested attr parse_peers st
  else if type =? WGDEVICE_A_JC then u16 (fun v d => d <| junk_packet_count := v |>) WGDEVICE_HAS_JC
  else if type =? WGDEVICE_A_JMIN then u16 (fun v d => d <| junk_packet_min_size := v |>) WGDEVICE_HAS_JMIN
  else if type =? WGDEVICE_A_JMAX then u16 (fun v d => d <| junk_packet_max_size := v |>) WGDEVICE_HAS_JMAX
  else if type =? WGDEVICE_A_S1 then u16 (fun v d => d <| init_packet_junk_size := v |>) WGDEVICE_HAS_S1
  else if type =? WGDEVICE_A_S2 then u16 (fun v d => d <| response_packet_junk_size := v |>) WGDEVICE_HAS_S2
  else if type =? WGDEVICE_A_S3 then u16 (fun v d => d <| cookie_reply_packet_junk_size := v |>) WGDEVICE_HAS_S3
  else if type =? WGDEVICE_A_S4 then u16 (fun v d => d <| transport_packet_junk_size := v |>) WGDEVICE_HAS_S4
  else if type =? WGDEVICE_A_H1 then header (fun v d => d <| init_packet_magic_header := Some v |>) WGDEVICE_HAS_H1
  else if type =? WGDEVICE_A_H2 then header (fun v d => d <| response_packet_magic_header := Some v |>) WGDEVICE_HAS_H2
  else if type =? WGDEVICE_A_H3 then header (fun v d => d <| underload_packet_magic_header := Some v |>) WGDEVICE_HAS_H3
  else if type =? WGDEVICE_A_H4 then header (fun v d => d <| transport_packet_magic_header := Some v |>) WGDEVICE_HAS_H4
  else if type =? WGDEVICE_A_I1 then str (fun v d => d <| i1 := Some v |>) WGDEVICE_HAS_I1
  else if type =? WGDEVICE_A_I2 then str (fun v d => d <| i2 := Some v |>) WGDEVICE_HAS_I2
  else if type =? WGDEVICE_A_I3 then str (fun v d => d <| i3 := Some v |>) WGDEVICE_HAS_I3
  else if type =? WGDEVICE_A_I4 then str (fun v d => d <| i4 := Some v |>) WGDEVICE_HAS_I4
  else if type =? WGDEVICE_A_I5 then str (fun v d => d <| i5 := Some v |>) WGDEVICE_HAS_I5
  else ok st.

Definition read_device_cb : callback wgdevice := fun nlh st => mnl_attr_parse nlh sizeof_genlmsghdr parse_device st.

(** ** [coalesce_peers] *)

(** The loop from a peer on, whose [last_allowedip] is NULL when [last_null]; [None] when that
    pointer is followed. *)
Fixpoint coalesce_from (peer : wgpeer) (last_null : bool) (next : list wgpeer) {struct next} : option (list wgpeer) :=
  match next with
  | [] => Some [peer]
  | next_peer :: next' =>
      let next_null := (length (allowedips next_peer) =? 0)%nat in
      if negb (memcmp (peer_public_key peer) (peer_public_key next_peer) =? 0) then
        option_map (cons peer) (coalesce_from next_peer next_null next')
      else if (length (allowedips peer) =? 0)%nat then
        coalesce_from (peer <| allowedips := allowedips next_peer |>) next_null next'
      else if last_null then None
      else coalesce_from (peer <| allowedips ::= fun l => l ++ allowedips next_peer |>) next_null next'
  end.

(** Right after parsing, [last_allowedip] is NULL for a peer without allowed IPs only. *)
Definition coalesce_peers (device : wgdevice) : option wgdevice :=
  match peers device with
  | [] => Some device
  | peer :: next =>
      option_map (fun l => device <| peers := l |>) (coalesce_from peer (length (allowedips peer) =? 0)%nat next)
  end.

Inductive try_result :=
| NoSocket (ret : Z)
| Failed (ret : Z)
| Got (device : wgdevice).

Section Get_device.
Context `{NetlinkKernel} (fuel : nat).

(** From [try_again] to [out].  When there is no socket the function returns at once. *)
Definition get_try (k : kstate) (iface : list byte) : outcome (kstate * try_result) :=
  let! '(k, res) := mnlg_socket_open fuel k WG_GENL_NAME in
  match res with
  | inl e => Returns (k, NoSocket (- e))
  | inr nlg =>
      let nlg := mnlg_msg_prepare k nlg in
      let m := mnl_attr_put_strz (genlmsghdr WG_CMD_GET_DEVICE (version nlg)) WGDEVICE_A_IFNAME iface in
      match nl_sendto k (nlmsg (id nlg) (Z.lor (Z.lor NLM_F_REQUEST NLM_F_ACK) NLM_F_DUMP) (seq nlg) m) with
      | (k, Some e) => Returns (k, Failed (- e))
      | (k, None) =>
          let! '(k, err, (errno, device)) := mnlg_socket_recv_run fuel k nlg (Some read_device_cb) (0, zero_device) in
          if err <? 0 then Returns (k, Failed (if negb (errno =? 0) then - errno else - EINVAL))
          else match coalesce_peers device with
               | Some device => Returns (k, Got device)
               | None => Exits SEGV
               end
      end
  end.

(** The loop back to [try_again] when the dump was interrupted: the negative error, or the
    device. *)
Fixpoint get_loop (tries : nat) (k : kstate) (iface : list byte) : outcome (kstate * (Z + wgdevice)) :=
  match tries with
  | O => OutOfFuel
  | S tries' =>
      let! '(k, res) := get_try k iface in
      match res with
      | NoSocket ret => Returns (k, inl ret)
      | Failed ret => if ret =? - EINTR then get_loop tries' k iface else Returns (k, inl ret)
      | Got device => Returns (k, inr device)
      end
  end.

Definition kernel_get_device (tries : nat) (k : kstate) (iface : list byte) : outcome (kstate * (Z + wgdevice)) :=
  if (IFNAMSIZ <=? length iface)%nat then Returns (k, inl (- ENAMETOOLONG)) else get_loop tries k iface.

End Get_device.

(** ** [kernel_get_wireguard_interfaces] *)

Definition IFLA_IFNAME : Z := 3.
Definition IFLA_LINKINFO : Z := 18.
Definition IFLA_INFO_KIND : Z := 1.
Definition RTM_GETLINK : Z := 18.

Record interface := Interface {
  interface_name : option (list byte);
  is_wireguard : bool;
}.

Definition parse_linkinfo (attr : nlattr) (data : interface) : Z * interface :=
  (MNL_CB_OK,
   if (mnl_attr_get_type attr =? IFLA_INFO_KIND) && strcmp_eq WG_GENL_NAME (mnl_attr_get_str attr)
   then Interface (interface_name data) true else data).

Definition parse_infomsg (attr : nlattr) (data : interface) : Z * interface :=
  if mnl_attr_get_type attr =? IFLA_LINKINFO then mnl_attr_parse_nested attr parse_linkinfo data
  else if mnl_attr_get_type attr =? IFLA_IFNAME then
    (MNL_CB_OK, Interface (Some (mnl_attr_get_str attr)) (is_wireguard data))
  else (MNL_CB_OK, data).

Section Interfaces.
Context (fresh : nat -> byte).

Definition read_devices_cb : callback string_list := fun nlh '(errno, list) =>
  let '(ret, interface) := mnl_attr_parse nlh sizeof_ifinfomsg parse_infomsg (Interface None false) in
  if negb (ret =? MNL_CB_OK) then (ret, (errno, list))
  else
    let list := match interface with
                | Interface (Some name) true => string_list_add fresh list name
                | _ => list
                end in
    (if negb (nlmsg_type nlh =? NLMSG_DONE) then MNL_CB_OK + 1 else MNL_CB_OK, (errno, list)).

Context `{NetlinkKernel}.

(** From [another] on; [errno] is what it was. *)
Fixpoint interfaces_loop (turns : nat) (k : kstate) (seq portid : Z) (list : string_list) :
    outcome (kstate * Z * string_list) :=
  match turns with
  | O => OutOfFuel
  | S turns' =>
      match nl_recvfrom k with
      | (k, inl e) => Returns (k, - e, list)
      | (k, inr buf) =>
          let '(len, (errno, list)) := mnl_cb_run buf seq portid (Some read_devices_cb) (0, list) in
          if (len <? 0) && negb (errno =? EINTR) then Returns (k, - errno, list)
          else if len =? MNL_CB_OK + 1 then interfaces_loop turns' k seq portid list
          else Returns (k, 0, list)
      end
  end.

Definition kernel_get_wireguard_interfaces (turns : nat) (k : kstate) (list : string_list) :
    outcome (kstate * Z * string_list) :=
  match nl_open k NETLINK_ROUTE with
  | (k, inl e) => Returns (k, - e, list)
  | (k, inr portid) =>
      let seq := u32 (nl_time k) in
      let ifm := repeat x00 (Z.to_nat sizeof_ifinfomsg) in
      match nl_sendto k (nlmsg RTM_GETLINK (Z.lor (Z.lor NLM_F_REQUEST NLM_F_ACK) NLM_F_DUMP) seq ifm) with
      | (k, Some e) => Returns (k, - e, list)
      | (k, None) => interfaces_loop turns k seq portid list
      end
  end.

End Interfaces.
