(* ===== verification/IpcLinuxSet.v ===== *)
(** * What [kernel_set_device] sends (src/ipc-linux.h)

    A message carries fragments of peers.  [cut] is the machine that splits a list of peers
    into fragments, one step per fragment; [set_message] makes some of its steps, and the
    messages of a call that succeeds make all of them, each within the socket buffer, when the
    device's own attributes fit it, which the code does not check. *)

From S2P Require Import Prelude CString Encoding Containers NetLib ConfigValues Config WellFormed Ipc Netlink NetlinkOk IpcLinux.
#[local] Open Scope Z_scope.
#[local] Open Scope awg_scope.

(** ** Attributes of the messages *)

Abbreviation item := (Z * list byte)%type.

Definition nest (type : Z) (items : list item) : item := (Z.lor NLA_F_NESTED type, tlvs items).

Definition item_if (c : bool) (type : Z) (data : list byte) : list item := if c then [(type, data)] else [].

Definition ip_items (a : wgallowedip) : list item :=
  [(WGALLOWEDIP_A_FAMILY, bytes_le 2 (family a));
   (WGALLOWEDIP_A_IPADDR, if family a =? AF_INET then ip4 a else ip6 a);
   (WGALLOWEDIP_A_CIDR_MASK, bytes_le 1 (cidr a))].

Definition ip_item (a : wgallowedip) : item := nest 0 (ip_items a).

(** The flags of a peer as the kernel knows them. *)
Definition kernel_flags (first : bool) (p : wgpeer) : Z :=
  let has := has_flag (peer_flags p) in
  Z.lor (if has WGPEER_REMOVE_ME then WGPEER_F_REMOVE_ME else 0)
    (Z.lor (if first && has WGPEER_REPLACE_ALLOWEDIPS then WGPEER_F_REPLACE_ALLOWEDIPS else 0)
       (if has WGPEER_HAS_AWG then WGPEER_F_HAS_AWG else 0)).

Definition endpoint_items (p : wgpeer) : list item :=
  if sa_family (endpoint p) =? AF_INET then [(WGPEER_A_ENDPOINT, take sizeof_sockaddr_in (endpoint p))]
  else if sa_family (endpoint p) =? AF_INET6 then [(WGPEER_A_ENDPOINT, take sizeof_sockaddr_in6 (endpoint p))]
  else [].

(** Public key; what is sent once; what is sent with every fragment. *)
Definition peer_items (first : bool) (p : wgpeer) : list item :=
  let has := has_flag (peer_flags p) in
  [(WGPEER_A_PUBLIC_KEY, peer_public_key p)]
  ++ item_if (first && has WGPEER_HAS_PRESHARED_KEY) WGPEER_A_PRESHARED_KEY (preshared_key p)
  ++ (if first then endpoint_items p else [])
  ++ item_if (first && has WGPEER_HAS_PERSISTENT_KEEPALIVE_INTERVAL) WGPEER_A_PERSISTENT_KEEPALIVE_INTERVAL
       (bytes_le 2 (persistent_keepalive_interval p))
  ++ item_if (has WGPEER_HAS_AWG && awg p) WGPEER_A_AWG []
  ++ item_if (negb (kernel_flags first p =? 0)) WGPEER_A_FLAGS (bytes_le 4 (kernel_flags first p)).

(** A fragment of a peer: whether it is the first, and the allowed IPs it carries, if it has
    the attribute. *)
Record frag := Frag {
  frag_first : bool;
  frag_peer : wgpeer;
  frag_ips : option (list wgallowedip);
}.

Definition ips_items (ips : option (list wgallowedip)) : list item :=
  match ips with
  | Some l => [nest WGPEER_A_ALLOWEDIPS (map ip_item l)]
  | None => []
  end.

Definition frag_item (f : frag) : item :=
  nest 0 (peer_items (frag_first f) (frag_peer f) ++ ips_items (frag_ips f)).

(** ** The machine that cuts *)

Definition null {A} (l : list A) : bool := (length l =? 0)%nat.

(** The allowed IPs of a peer that are still to be sent; [rest] is empty before the first
    fragment. *)
Definition pending (p : wgpeer) (rest : list wgallowedip) : list wgallowedip :=
  if null rest then allowedips p else rest.

Definition cut_state : Type := list wgpeer * list wgallowedip.

(** One fragment: a peer without allowed IPs, the rest of a peer, or a part of it.  Every
    fragment but the first carries an allowed IP. *)
Inductive cut : cut_state -> frag -> cut_state -> Prop :=
| cut_bare p ps : allowedips p = [] -> cut (p :: ps, []) (Frag true p None) (ps, [])
| cut_all p ps rest : allowedips p <> [] ->
    cut (p :: ps, rest) (Frag (null rest) p (Some (pending p rest))) (ps, [])
| cut_some p ps rest ips rest' : allowedips p <> [] -> rest' <> [] ->
    pending p rest = default [] ips ++ rest' -> (rest <> [] -> default [] ips <> []) ->
    cut (p :: ps, rest) (Frag (null rest) p ips) (p :: ps, rest').

Inductive cuts : cut_state -> list frag -> cut_state -> Prop :=
| cuts_nil st : cuts st [] st
| cuts_cons st f st' fs st'' : cut st f st' -> cuts st' fs st'' -> cuts st (f :: fs) st''.

Lemma cuts_app (st : cut_state) (fs : list frag) (st' : cut_state) (gs : list frag) (st'' : cut_state) :
  cuts st fs st' -> cuts st' gs st'' -> cuts st (fs ++ gs) st''.
Proof. induction 1; cbn; [done |]. intros. econstructor; eauto. Qed.


Lemma null_nil {A} (l : list A) : null l = true <-> l = [].
Proof. destruct l; done. Qed.

Lemma null_not_nil {A} (l : list A) : null l = false <-> l <> [].
Proof. destruct l; done. Qed.




(** ** Splitting as a whole *)

(** The fragments of each peer: a first one, and others that carry allowed IPs; together they
    carry the allowed IPs of the peer, in order. *)
Inductive splits : list wgpeer -> list frag -> Prop :=
| splits_nil : splits [] []
| splits_cons p ips more ps fs :
    Forall (fun l => l <> []) more -> default [] ips ++ concat more = allowedips p -> splits ps fs ->
    splits (p :: ps) (Frag true p ips :: map (fun l => Frag false p (Some l)) more ++ fs).

(** The fragments that follow, also when a peer has been begun. *)
Definition splits_from (st : cut_state) (fs : list frag) : Prop :=
  match snd st with
  | [] => splits (fst st) fs
  | rest =>
      exists p ps more fs', fst st = p :: ps /\ fs = map (fun l => Frag false p (Some l)) more ++ fs'
        /\ Forall (fun l => l <> []) more /\ concat more = rest /\ splits ps fs'
  end.

Lemma cut_splits (st : cut_state) (f : frag) (st' : cut_state) (fs : list frag) :
  cut st f st' -> splits_from st' fs -> splits_from st (f :: fs).
Proof.
  destruct 1 as [p ps Hp | p ps rest Hp | p ps rest ips rest' Hp Hr Hpend Hne]; unfold splits_from; cbn [fst snd]; intros IH.
  - apply (splits_cons p None [] ps fs); [by apply Forall_nil | done | done].
  - unfold pending. destruct rest as [|a rest]; cbn [null length Nat.eqb].
    + apply (splits_cons p (Some (allowedips p)) [] ps fs); [by apply Forall_nil | cbn; by rewrite app_nil_r | done].
    + exists p, ps, [a :: rest], fs. split; [done |]. split; [done |].
      split; [by apply Forall_singleton |]. split; [cbn; by rewrite app_nil_r | done].
  - destruct rest' as [|b rest']; [done |]. destruct IH as (p' & ps' & more & fs' & [= <- <-] & -> & Hmore & Hcat & Hs).
    unfold pending in Hpend. destruct rest as [|a rest]; cbn [null length Nat.eqb] in *.
    + apply splits_cons; [done | by rewrite Hcat | done].
    + destruct ips as [l |]; [| by destruct Hne]. exists p, ps, (l :: more), fs'. split; [done |]. split; [done |].
      split; [apply Forall_cons; auto |]. split; [cbn; by rewrite Hcat | done].
Qed.

Lemma cuts_splits (st : cut_state) (fs : list frag) : cuts st fs ([], []) -> splits_from st fs.
Proof.
  intros H. remember (([], []) : cut_state) as fin eqn:Efin.
  induction H as [st | st f st' fs st'' Hcut _ IH]; subst; [constructor |]. eauto using cut_splits.
Qed.

(** ** The writers *)

Lemma tlvs_cons (type : Z) (data : list byte) (items : list item) : tlvs ((type, data) :: items) = tlv type data ++ tlvs items.
Proof. done. Qed.

Lemma tlvs_one (it : item) : tlvs [it] = tlv (fst it) (snd it).
Proof. destruct it. apply app_nil_r. Qed.

Lemma tlvs_item_if (c : bool) (type : Z) (data : list byte) :
  tlvs (item_if c type data) = if c then tlv type data else [].
Proof. destruct c; [apply app_nil_r | done]. Qed.

Lemma short_small (s : list byte) : Z.of_nat (length s) <= 8192 -> short s.
Proof. unfold short. lia. Qed.

Section Messages.
(** [B] is the size of the socket buffer. *)
Context `{Platform} (uninit : nat -> byte) (B : Z).

Lemma put_allowedip_appends (a : wgallowedip) : wf_allowedip a -> appends B (put_allowedip B a) (tlvs (ip_items a)).
Proof.
  intros [Hip Hc]. unfold put_allowedip, ip_items. rewrite !tlvs_cons. cbn [tlvs map concat]. rewrite app_nil_r.
  repeat apply appends_then; try (apply appends_check; apply short_small; rewrite bytes_le_length; lia).
  destruct (Z.eqb_spec (family a) AF_INET) as [_ | Hn].
  - apply appends_check, short_small. unfold ip4. rewrite length_take. lia.
  - destruct Hc as [[? _] | [E _]]; [done |]. rewrite E. apply appends_check, short_small. unfold ip6. lia.
Qed.

Lemma ip_items_length (a : wgallowedip) : wf_allowedip a -> (length (tlvs (ip_items a)) <= 36)%nat.
Proof.
  intros [Hip _]. unfold ip_items. rewrite !tlvs_cons, !length_app. apply Nat2Z.inj_le.
  rewrite !Nat2Z.inj_add, !tlv_length, !bytes_le_length, !MNL_ALIGN_eq. cbn [tlvs map concat length].
  assert (Z.of_nat (length (if family a =? AF_INET then ip4 a else ip6 a)) <= 16)
    by (destruct (_ =? _); unfold ip4, ip6; rewrite ?length_take; lia). zlia.
Qed.

Lemma ip_item_length (a : wgallowedip) : wf_allowedip a -> (length (tlvs [ip_item a]) <= 40)%nat.
Proof.
  intros Ha%ip_items_length. rewrite tlvs_one. cbn [ip_item nest fst snd]. apply Nat2Z.inj_le. rewrite tlv_length.
  rewrite MNL_ALIGN_aligned by apply tlvs_aligned. lia.
Qed.

(** The allowed IPs that are written, those that are left, and why they are. *)
Lemma put_allowedips_spec (ips : list wgallowedip) (m : list byte) : Forall wf_allowedip ips -> total_len m <= B ->
  exists sent left, ips = sent ++ left
    /\ put_allowedips uninit B ips m = (left, m ++ tlvs (map ip_item sent))
    /\ total_len (m ++ tlvs (map ip_item sent)) <= B
    /\ (ips <> [] -> total_len m + 40 <= B -> sent <> []).
Proof.
  intros Hwf. revert m. induction Hwf as [|a ips Ha _ IH]; intros m Hm; cbn [put_allowedips].
  { exists [], []. cbn [map tlvs concat]. rewrite (app_nil_r m). by split_and!. }
  rewrite nest_start_check_eq.
  destruct (Z.ltb_spec B (total_len m + 4)) as [Hfull | Hroom].
  { exists [], (a :: ips). cbn [map tlvs concat]. rewrite (app_nil_r m). split_and!; [done | done | done | lia]. }
  set (m1 := m ++ nest_header uninit m 0).
  assert (total_len m1 = total_len m + 4) as Hm1 by (unfold m1; rewrite total_len_app, nest_header_length; lia).
  destruct (put_allowedip_appends a Ha) as [Hal Happ]. specialize (Happ m1 ltac:(lia)).
  pose proof (ip_items_length a Ha) as Hlen.
  destruct (Z.leb_spec (total_len (m1 ++ tlvs (ip_items a))) B) as [Hfit | Hbig].
  - rewrite Happ. unfold m1. rewrite <- app_assoc, nest_closed by apply tlvs_aligned.
    change (tlv (Z.lor NLA_F_NESTED 0) (tlvs (ip_items a))) with (tlv (fst (ip_item a)) (snd (ip_item a))).
    rewrite <- tlvs_one.
    assert (total_len (m ++ tlvs [ip_item a]) <= B) as Hm2.
    { rewrite tlvs_one. cbn [ip_item nest fst snd]. rewrite total_len_app, tlv_length, MNL_ALIGN_aligned by apply tlvs_aligned.
      rewrite total_len_app, Hm1 in Hfit. lia. }
    destruct (IH (m ++ tlvs [ip_item a]) Hm2) as (sent & left & -> & -> & Hb & _).
    exists (a :: sent), left. change (map ip_item (a :: sent)) with ([ip_item a] ++ map ip_item sent).
    rewrite tlvs_app, app_assoc. by split_and!.
  - destruct Happ as (s' & -> & _). unfold m1. rewrite <- app_assoc, nest_cancelled.
    exists [], (a :: ips). cbn [map tlvs concat]. rewrite (app_nil_r m). split_and!; try done.
    rewrite total_len_app, Hm1 in Hbig. lia.
Qed.

Lemma put_peer_appends (first : bool) (p : wgpeer) : wf_peer p -> appends B (put_peer B first p) (tlvs (peer_items first p)).
Proof.
  intros [Hf Hk Hs He Hi _]. unfold put_peer, peer_items. fold (kernel_flags first p).
  rewrite !tlvs_app, !tlvs_item_if, tlvs_cons. cbn [tlvs map concat]. rewrite app_nil_r.
  set (has := has_flag (peer_flags p)).
  apply appends_then; [apply appends_check, short_small; rewrite Hk; unfold WG_KEY_LEN; lia |].
  apply appends_then; [apply appends_when, appends_check, short_small; rewrite Hs; unfold WG_KEY_LEN; lia |].
  apply appends_then.
  { unfold endpoint_items. destruct first; cbn [put_when]; [| apply appends_none].
    assert (forall n, appends B (mnl_attr_put_check B WGPEER_A_ENDPOINT (take n (endpoint p)))
                        (tlvs [(WGPEER_A_ENDPOINT, take n (endpoint p))])) as Hep.
    { intros n. rewrite tlvs_one. apply appends_check, short_small. cbn [fst snd]. rewrite length_take, He. unfold sizeof_sockaddr_in6. lia. }
    destruct (_ =? _); [apply Hep |]. destruct (_ =? _); [apply Hep | apply appends_none]. }
  apply appends_then; [apply appends_when, appends_check, short_small; rewrite bytes_le_length; lia |].
  assert (appends B (mnl_attr_put_u32_check B WGPEER_A_FLAGS (kernel_flags first p))
            (tlv WGPEER_A_FLAGS (bytes_le 4 (kernel_flags first p)))) as Hflags
    by (apply appends_check, short_small; rewrite bytes_le_length; lia).
  destruct (has WGPEER_HAS_AWG && awg p) eqn:Eawg; cbn [put_when].
  - replace (negb (kernel_flags first p =? 0)) with true; [apply appends_dropped; [done |] |].
    + rewrite tlv_length, bytes_le_length. done.
    + symmetry. apply negb_true_iff, Z.eqb_neq. apply andb_true_iff in Eawg as [Ea _]. unfold kernel_flags.
      fold has. rewrite Ea. destruct (has WGPEER_REMOVE_ME), (first && has WGPEER_REPLACE_ALLOWEDIPS); done.
  - apply (appends_then B put_none _ []); [apply appends_none | by apply appends_when].
Qed.

Lemma item_length (c : bool) (type : Z) (data : list byte) (n : Z) : Z.of_nat (length data) <= 4 * n ->
  Z.of_nat (length (tlvs (item_if c type data))) <= if c then 4 + 4 * n else 0.
Proof. intros. rewrite tlvs_item_if. destruct c; [| done]. rewrite tlv_length, MNL_ALIGN_eq. zlia. Qed.

Lemma peer_items_length (first : bool) (p : wgpeer) : wf_peer p ->
  Z.of_nat (length (tlvs (peer_items first p))) <= if first then 124 else 48.
Proof.
  intros [Hf Hk Hs He Hi _]. unfold peer_items. rewrite !tlvs_app, !length_app, !Nat2Z.inj_add.
  set (has := has_flag (peer_flags p)).
  pose proof (item_length true WGPEER_A_PUBLIC_KEY (peer_public_key p) 8 ltac:(rewrite Hk; done)) as L1.
  pose proof (item_length (first && has WGPEER_HAS_PRESHARED_KEY) WGPEER_A_PRESHARED_KEY (preshared_key p) 8
                ltac:(rewrite Hs; done)) as L2.
  pose proof (item_length (first && has WGPEER_HAS_PERSISTENT_KEEPALIVE_INTERVAL) WGPEER_A_PERSISTENT_KEEPALIVE_INTERVAL
                (bytes_le 2 (persistent_keepalive_interval p)) 1 ltac:(rewrite bytes_le_length; lia)) as L3.
  pose proof (item_length (has WGPEER_HAS_AWG && awg p) WGPEER_A_AWG [] 0 ltac:(done)) as L4.
  pose proof (item_length (negb (kernel_flags first p =? 0)) WGPEER_A_FLAGS (bytes_le 4 (kernel_flags first p)) 1
                ltac:(rewrite bytes_le_length; lia)) as L5.
  assert (Z.of_nat (length (tlvs (if first then endpoint_items p else []))) <= if first then 32 else 0) as L6.
  { destruct first; [| done]. unfold endpoint_items.
    assert (forall n, Z.of_nat (length (tlvs [(WGPEER_A_ENDPOINT, take n (endpoint p))])) <= 32) as Hep.
    { intros n. apply (item_length true _ _ 7). rewrite length_take, He. unfold sizeof_sockaddr_in6. lia. }
    destruct (sa_family _ =? AF_INET); [apply Hep |]. destruct (sa_family _ =? AF_INET6); [apply Hep | done]. }
  change (item_if true WGPEER_A_PUBLIC_KEY (peer_public_key p)) with [(WGPEER_A_PUBLIC_KEY, peer_public_key p)] in L1.
  destruct first; cbn [andb] in *; cbv match in *; repeat match goal with H : context [if ?c then _ else _] |- _ => destruct c end; cbv match in *.
  all: try lia; change (length (tlvs [])) with 0%nat; lia.
Qed.

(** A state the machine can be in: only a peer that has allowed IPs is cut. *)
Definition cut_ok (st : cut_state) : Prop :=
  Forall wf_peer (fst st) /\ Forall wf_allowedip (snd st)
  /\ (snd st <> [] -> exists p ps, fst st = p :: ps /\ allowedips p <> []).

Lemma cut_keeps_ok (st : cut_state) (f : frag) (st' : cut_state) : cut st f st' -> cut_ok st -> cut_ok st'.
Proof.
  destruct 1 as [p ps Hp | p ps rest Hp | p ps rest ips rest' Hp Hr Hpend Hne]; intros (Hps & Hrest & Hin);
    unfold cut_ok; cbn [fst snd] in *.
  - apply Forall_cons in Hps as [_ Hps]. by split_and!.
  - apply Forall_cons in Hps as [_ Hps]. by split_and!.
  - split_and!; [done | | eauto]. unfold pending in Hpend. apply Forall_cons in Hps as [[_ _ _ _ _ Ha] _].
    destruct (null rest); [rewrite Hpend in Ha; by apply Forall_app in Ha as [_ ?] |].
    rewrite Hpend in Hrest. by apply Forall_app in Hrest as [_ ?].
Qed.

Lemma cuts_keep_ok (st : cut_state) (fs : list frag) (st' : cut_state) : cuts st fs st' -> cut_ok st -> cut_ok st'.
Proof. induction 1; eauto using cut_keeps_ok. Qed.

(** A peer that was written whole, or in part, closes its nest over the fragment. *)
Lemma frag_closed (m : list byte) (first : bool) (p : wgpeer) (ips : option (list wgallowedip)) (body : list byte) :
  body = tlvs (peer_items first p ++ ips_items ips) ->
  mnl_attr_nest_end (m ++ nest_header uninit m 0 ++ body) (length m) = m ++ tlvs [frag_item (Frag first p ips)].
Proof. intros ->. rewrite nest_closed by apply tlvs_aligned. by rewrite tlvs_one. Qed.

Lemma frag_length (f : frag) :
  Z.of_nat (length (tlvs [frag_item f])) = 4 + Z.of_nat (length (tlvs (peer_items (frag_first f) (frag_peer f) ++ ips_items (frag_ips f)))).
Proof. rewrite tlvs_one. cbn [frag_item nest fst snd]. by rewrite tlv_length, MNL_ALIGN_aligned by apply tlvs_aligned. Qed.

Lemma frag_none_size (m : list byte) (first : bool) (p : wgpeer) :
  total_len (m ++ tlvs [frag_item (Frag first p None)]) = total_len m + 4 + Z.of_nat (length (tlvs (peer_items first p))).
Proof. rewrite total_len_app, frag_length. cbn [frag_first frag_peer frag_ips ips_items]. rewrite app_nil_r. lia. Qed.

Lemma frag_some_size (m : list byte) (first : bool) (p : wgpeer) (ips : list wgallowedip) :
  total_len (m ++ tlvs [frag_item (Frag first p (Some ips))])
  = total_len m + 8 + Z.of_nat (length (tlvs (peer_items first p))) + Z.of_nat (length (tlvs (map ip_item ips))).
Proof.
  rewrite total_len_app, frag_length. cbn [frag_first frag_peer frag_ips ips_items].
  rewrite tlvs_app, tlvs_one, length_app. cbn [nest fst snd].
  rewrite Nat2Z.inj_add, tlv_length, MNL_ALIGN_aligned by apply tlvs_aligned. lia.
Qed.

(** What is still to be sent of a peer that has allowed IPs. *)
Lemma pending_ok (p : wgpeer) (rest : list wgallowedip) : wf_peer p -> Forall wf_allowedip rest -> allowedips p <> [] ->
  Forall wf_allowedip (pending p rest) /\ pending p rest <> [].
Proof.
  intros Hp Hrest Ha. unfold pending. destruct (null rest) eqn:En; [by destruct Hp |].
  split; [done | by apply null_not_nil].
Qed.

(** One turn of the loop over the peers. *)
Definition put_peers_turn (p : wgpeer) (ps : list wgpeer) (rest : list wgallowedip) (m : list byte) : Prop :=
  (put_peers uninit B (p :: ps) rest m = (p :: ps, rest, m) /\ B < total_len m + 128)
  \/ exists f st', cut (p :: ps, rest) f st' /\ total_len (m ++ tlvs [frag_item f]) <= B
     /\ if null (snd st') then fst st' = ps /\ put_peers uninit B (p :: ps) rest m = put_peers uninit B ps [] (m ++ tlvs [frag_item f])
        else put_peers uninit B (p :: ps) rest m = (fst st', snd st', m ++ tlvs [frag_item f]).

Lemma put_peers_turns (p : wgpeer) (ps : list wgpeer) (rest : list wgallowedip) (m : list byte) :
  cut_ok (p :: ps, rest) -> total_len m <= B -> (rest <> [] -> total_len m + 96 <= B) -> put_peers_turn p ps rest m.
Proof.
  intros (Hps & Hrest & Hin) Hm Hroom. apply Forall_cons in Hps as [Hp Hps]. cbn [fst snd] in *.
  unfold put_peers_turn. cbn [put_peers]. fold (null rest). fold (null (allowedips p)).
  pose proof (peer_items_length (null rest) p Hp) as Hlen. rewrite nest_start_check_eq.
  destruct (Z.ltb_spec B (total_len m + 4)) as [? | Hnest]; [left; split; [done | lia] |].
  set (m1 := m ++ nest_header uninit m 0).
  assert (total_len m1 = total_len m + 4) as Hm1 by (unfold m1; rewrite total_len_app, nest_header_length; lia).
  destruct (put_peer_appends (null rest) p Hp) as [_ Happ]. specialize (Happ m1 ltac:(lia)).
  destruct (Z.leb_spec (total_len (m1 ++ tlvs (peer_items (null rest) p))) B) as [Hfit | Hbig].
  2: { destruct Happ as (s' & -> & _). left. unfold m1. rewrite <- app_assoc, nest_cancelled. split; [done |].
       rewrite total_len_app, Hm1 in Hbig. destruct (null rest); lia. }
  rewrite Happ. right. set (body := tlvs (peer_items (null rest) p)) in *.
  destruct (null (allowedips p)) eqn:Ea.
  { (* no allowed IPs *)
    apply null_nil in Ea. assert (rest = []) as ->.
    { destruct rest; [done |]. destruct (Hin ltac:(done)) as (? & ? & [= <- <-] & ?). done. }
    exists (Frag true p None), (ps, []). split; [by constructor |]. cbn [fst snd null length Nat.eqb].
    unfold m1. rewrite <- app_assoc, (frag_closed m true p None) by (cbn [ips_items]; by rewrite app_nil_r).
    split; [| done]. rewrite frag_none_size. rewrite total_len_app, Hm1 in Hfit. change (null []) with true in *. fold body. lia. }
  apply null_not_nil in Ea. fold (pending p rest). set (todo := pending p rest) in *.
  destruct (pending_ok p rest Hp Hrest Ea) as [Htodo Hne]. fold todo in Htodo, Hne.
  rewrite nest_start_check_eq. rewrite total_len_app, Hm1 in Hfit. fold body in Hlen.
  destruct (Z.ltb_spec B (total_len (m1 ++ body) + 4)) as [Hfull | Hsome].
  { (* no room for the list *)
    exists (Frag (null rest) p None), (p :: ps, todo). cbn [fst snd]. rewrite (proj2 (null_not_nil todo) Hne).
    unfold m1. rewrite <- app_assoc, (frag_closed m (null rest) p None) by (cbn [ips_items]; by rewrite app_nil_r).
    split; [constructor; try done |].
    - intros Hr. specialize (Hroom Hr). apply null_not_nil in Hr. rewrite total_len_app, Hm1 in Hfull. rewrite Hr in Hlen. lia.
    - split; [| done]. rewrite frag_none_size. fold body. lia. }
  set (m2 := m1 ++ body) in *.
  assert (total_len m2 = total_len m1 + Z.of_nat (length body)) as Hm2 by apply total_len_app.
  destruct (put_allowedips_spec todo (m2 ++ nest_header uninit m2 WGPEER_A_ALLOWEDIPS) Htodo) as (sent & lft & Hcat & -> & Hb & Hprog).
  { rewrite total_len_app, nest_header_length. lia. }
  rewrite <- app_assoc, nest_closed by apply tlvs_aligned.
  match goal with |- context [mnl_attr_nest_end ?x (length m)] =>
    assert (mnl_attr_nest_end x (length m) = m ++ tlvs [frag_item (Frag (null rest) p (Some sent))]) as -> end.
  { unfold m2, m1. rewrite <- !app_assoc. apply frag_closed. cbn [ips_items]. by rewrite tlvs_app, tlvs_one. }
  assert (total_len (m ++ tlvs [frag_item (Frag (null rest) p (Some sent))]) <= B) as Hsize.
  { rewrite frag_some_size. fold body. rewrite !total_len_app, nest_header_length in Hb. lia. }
  exists (Frag (null rest) p (Some sent)). destruct lft as [|a lft].
  - rewrite app_nil_r in Hcat. rewrite <- Hcat in *. exists (ps, []). split; [by apply cut_all | done].
  - exists (p :: ps, a :: lft). split; [| split; [done | reflexivity]]. constructor; try done. intros Hr.
    specialize (Hroom Hr). apply null_not_nil in Hr. rewrite Hr in Hlen.
    apply Hprog; [done |]. rewrite total_len_app, nest_header_length. lia.
Qed.

(** The loop over the peers makes some steps of the machine and stays within the buffer; it
    makes one when there is room for a peer. *)
Lemma put_peers_spec (ps : list wgpeer) (rest : list wgallowedip) (m : list byte) :
  cut_ok (ps, rest) -> total_len m <= B -> (rest <> [] -> total_len m + 96 <= B) ->
  exists fs ps' rest', put_peers uninit B ps rest m = (ps', rest', m ++ tlvs (map frag_item fs))
    /\ total_len (m ++ tlvs (map frag_item fs)) <= B /\ cuts (ps, rest) fs (ps', rest')
    /\ (ps <> [] -> total_len m + 128 <= B -> fs <> []).
Proof.
  revert rest m. induction ps as [|p ps IH]; intros rest m Hok Hm Hroom.
  { exists [], [], rest. cbn [map tlvs concat put_peers]. rewrite app_nil_r. split_and!; try done. constructor. }
  destruct (put_peers_turns p ps rest m Hok Hm Hroom) as [[-> ?] | (f & [ps1 rest1] & Hcut & Hb & Heq)].
  { exists [], (p :: ps), rest. cbn [map tlvs concat]. rewrite app_nil_r. split_and!; try done; [constructor | lia]. }
  pose proof (cut_keeps_ok _ _ _ Hcut Hok) as Hok1. cbn [fst snd] in Heq.
  destruct (null rest1) eqn:En.
  - apply null_nil in En as ->. destruct Heq as [-> ->].
    destruct (IH [] (m ++ tlvs [frag_item f]) Hok1 Hb ltac:(done)) as (fs & ps' & rest' & -> & Hb' & Hcuts & _).
    exists (f :: fs), ps', rest'. change (map frag_item (f :: fs)) with ([frag_item f] ++ map frag_item fs).
    rewrite tlvs_app, app_assoc. split_and!; try done. by econstructor.
  - exists [f], ps1, rest1. split_and!; try done. econstructor; [done | constructor].
Qed.

(** ** The attributes of the device *)

Definition header_data (version : Z) (h : option (list byte)) : list byte :=
  if 2 <=? version then default [] h ++ [x00] else bytes_le 4 (u32 (fst (strtoul 10 (default [] h)))).

Definition device_items (version : Z) (dev : wgdevice) : list item :=
  let has := has_flag (flags dev) in
  let strz (s : option (list byte)) := default [] s ++ [x00] in
  item_if (has WGDEVICE_HAS_PRIVATE_KEY) WGDEVICE_A_PRIVATE_KEY (private_key dev)
  ++ item_if (has WGDEVICE_HAS_LISTEN_PORT) WGDEVICE_A_LISTEN_PORT (bytes_le 2 (listen_port dev))
  ++ item_if (has WGDEVICE_HAS_JC) WGDEVICE_A_JC (bytes_le 2 (junk_packet_count dev))
  ++ item_if (has WGDEVICE_HAS_JMIN) WGDEVICE_A_JMIN (bytes_le 2 (junk_packet_min_size dev))
  ++ item_if (has WGDEVICE_HAS_JMAX) WGDEVICE_A_JMAX (bytes_le 2 (junk_packet_max_size dev))
  ++ item_if (has WGDEVICE_HAS_S1) WGDEVICE_A_S1 (bytes_le 2 (init_packet_junk_size dev))
  ++ item_if (has WGDEVICE_HAS_S2) WGDEVICE_A_S2 (bytes_le 2 (response_packet_junk_size dev))
  ++ item_if (has WGDEVICE_HAS_S3) WGDEVICE_A_S3 (bytes_le 2 (cookie_reply_packet_junk_size dev))
  ++ item_if (has WGDEVICE_HAS_S4) WGDEVICE_A_S4 (bytes_le 2 (transport_packet_junk_size dev))
  ++ item_if (has WGDEVICE_HAS_H1) WGDEVICE_A_H1 (header_data version (init_packet_magic_header dev))
  ++ item_if (has WGDEVICE_HAS_H2) WGDEVICE_A_H2 (header_data version (response_packet_magic_header dev))
  ++ item_if (has WGDEVICE_HAS_H3) WGDEVICE_A_H3 (header_data version (underload_packet_magic_header dev))
  ++ item_if (has WGDEVICE_HAS_H4) WGDEVICE_A_H4 (header_data version (transport_packet_magic_header dev))
  ++ item_if (has WGDEVICE_HAS_I1) WGDEVICE_A_I1 (strz (i1 dev))
  ++ item_if (has WGDEVICE_HAS_I2) WGDEVICE_A_I2 (strz (i2 dev))
  ++ item_if (has WGDEVICE_HAS_I3) WGDEVICE_A_I3 (strz (i3 dev))
  ++ item_if (has WGDEVICE_HAS_I4) WGDEVICE_A_I4 (strz (i4 dev))
  ++ item_if (has WGDEVICE_HAS_I5) WGDEVICE_A_I5 (strz (i5 dev))
  ++ item_if (has WGDEVICE_HAS_FWMARK) WGDEVICE_A_FWMARK (bytes_le 4 (fwmark dev))
  ++ item_if (has WGDEVICE_REPLACE_PEERS) WGDEVICE_A_FLAGS (bytes_le 4 WGDEVICE_F_REPLACE_PEERS).

Lemma wf_string_short (s : option (list byte)) : wf_string s -> short (default [] s ++ [x00]).
Proof.
  intros Hs. apply short_small. rewrite length_app. destruct s as [t |]; cbn; [| lia].
  destruct Hs as [_ Hs]. unfold MAX_AWG_STRING_LEN in Hs. lia.
Qed.

Lemma header_data_short (version : Z) (h : option (list byte)) : wf_string h -> short (header_data version h).
Proof.
  intros Hs. unfold header_data. destruct (2 <=? version); [by apply wf_string_short |].
  apply short_small. rewrite bytes_le_length. lia.
Qed.

Lemma bind_some {R} (o : option R) : o ≫= Some = o.
Proof. by destruct o. Qed.

Lemma when_items {R} (c : bool) (type : Z) (data : list byte) (f : list byte -> option (list byte)) (m : list byte)
    (items : list item) (k : list byte -> option R) :
  (forall m, f m = Some (m ++ tlv type data)) ->
  when c f (m ++ tlvs items) ≫= k = k (m ++ tlvs (items ++ item_if c type data)).
Proof.
  intros Hf. rewrite tlvs_app, tlvs_item_if.
  destruct c; cbn [when mbind option_bind]; [by rewrite Hf, <- app_assoc | by rewrite app_nil_r].
Qed.

Lemma when_u16 {R} (c : bool) (type v : Z) (m : list byte) (items : list item) (k : list byte -> option R) :
  when c (fun m => Some (mnl_attr_put_u16 m type v)) (m ++ tlvs items) ≫= k
  = k (m ++ tlvs (items ++ item_if c type (bytes_le 2 v))).
Proof. apply when_items. intros. f_equal. apply mnl_attr_put_tlv, short_small. rewrite bytes_le_length. lia. Qed.

Lemma when_u32 {R} (c : bool) (type v : Z) (m : list byte) (items : list item) (k : list byte -> option R) :
  when c (fun m => Some (mnl_attr_put_u32 m type v)) (m ++ tlvs items) ≫= k
  = k (m ++ tlvs (items ++ item_if c type (bytes_le 4 v))).
Proof. apply when_items. intros. f_equal. apply mnl_attr_put_tlv, short_small. rewrite bytes_le_length. lia. Qed.

(** A string that is NULL ends the call when its flag is set. *)
Lemma when_string {R} (c : bool) (type : Z) (s : option (list byte)) (data : option (list byte) -> list byte)
    (f : list byte -> list byte -> list byte) (m : list byte) (items : list item) (k : list byte -> option R) :
  (forall t m, s = Some t -> f t m = m ++ tlv type (data s)) ->
  when c (fun m => t ← s; Some (f t m)) (m ++ tlvs items) ≫= k
  = if implb c (bool_decide (is_Some s)) then k (m ++ tlvs (items ++ item_if c type (data s))) else None.
Proof.
  intros Hf. destruct s as [t |]; cbn [implb].
  - rewrite (when_items c type (data (Some t))); [by destruct c | intros; cbn; by rewrite Hf].
  - destruct c; [done |]. cbn. by rewrite app_nil_r.
Qed.

Lemma when_header {R} (c : bool) (version type : Z) (h : option (list byte)) (m : list byte) (items : list item)
    (k : list byte -> option R) : wf_string h ->
  when c (put_magic_header_attr version type h) (m ++ tlvs items) ≫= k
  = if implb c (bool_decide (is_Some h)) then k (m ++ tlvs (items ++ item_if c type (header_data version h))) else None.
Proof.
  intros Hs. pose proof (header_data_short version h Hs) as Hd. apply (when_string c type h (header_data version)).
  intros t m' ->. unfold header_data in *. destruct (2 <=? version); by apply mnl_attr_put_tlv.
Qed.

Lemma when_strz {R} (c : bool) (type : Z) (s : option (list byte)) (m : list byte) (items : list item)
    (k : list byte -> option R) : wf_string s ->
  when c (fun m => t ← s; Some (mnl_attr_put_strz m type t)) (m ++ tlvs items) ≫= k
  = if implb c (bool_decide (is_Some s)) then k (m ++ tlvs (items ++ item_if c type (default [] s ++ [x00]))) else None.
Proof.
  intros Hs. apply (when_string c type s (fun s => default [] s ++ [x00]) (fun t m => mnl_attr_put_strz m type t)).
  intros t m' ->. by apply mnl_attr_put_tlv, (wf_string_short (Some t)).
Qed.

Lemma put_device_tlvs (version : Z) (dev : wgdevice) (m : list byte) : wf_device dev ->
  put_device version dev m = if strings_present dev then Some (m ++ tlvs (device_items version dev)) else None.
Proof.
  intros []. unfold put_device. cbv beta zeta. rewrite <- (app_nil_r m) at 1. change (@nil byte) with (tlvs []).
  rewrite (when_items _ _ (private_key dev)) by (intros; f_equal; apply mnl_attr_put_tlv, short_small; by rewrite wf_private_key).
  repeat first [rewrite when_u16 | rewrite when_u32 | rewrite when_header by done | rewrite when_strz by done].
  unfold strings_present, device_strings. cbn [forallb].
  repeat match goal with |- context [implb ?a ?b] => destruct (implb a b); cbn [andb]; [| done] end.
  rewrite <- (bind_some (when _ _ _)), when_u32. unfold device_items. rewrite <- !app_assoc. by destruct (has_flag _ WGDEVICE_REPLACE_PEERS).
Qed.

(** ** A message *)

(** The attributes before the peers. *)
Definition front_items (version : Z) (dev : wgdevice) (first : bool) : list item :=
  (WGDEVICE_A_IFNAME, name dev ++ [x00]) :: if first then device_items version dev else [].

Definition set_body (version : Z) (dev : wgdevice) (first : bool) (fs : list frag) : list byte :=
  genlmsghdr WG_CMD_SET_DEVICE version
  ++ tlvs (front_items version dev first
           ++ if null (peers dev) then [] else [nest WGDEVICE_A_PEERS (map frag_item fs)]).

(** The device fits the first message: its name, and its attributes with the header of the
    list of peers. *)
Record device_fits (version : Z) (dev : wgdevice) : Prop := DeviceFits {
  fits_wf : wf_device dev;
  fits_name : (length (name dev) < IFNAMSIZ)%nat;
  fits_buffer : 256 <= B;
  fits_first : total_len (set_body version dev true []) <= B;
}.

Lemma set_body_eq (version : Z) (dev : wgdevice) (first : bool) (fs : list frag) :
  set_body version dev first fs
  = (genlmsghdr WG_CMD_SET_DEVICE version ++ tlvs (front_items version dev first))
    ++ tlvs (if null (peers dev) then [] else [nest WGDEVICE_A_PEERS (map frag_item fs)]).
Proof. unfold set_body. by rewrite tlvs_app, app_assoc. Qed.

Lemma front_total (version : Z) (dev : wgdevice) (first : bool) : device_fits version dev ->
  total_len (genlmsghdr WG_CMD_SET_DEVICE version ++ tlvs (front_items version dev first))
  + (if null (peers dev) then 0 else 4) <= if first then B else 44.
Proof.
  intros [Hwf Hn HB Hf]. destruct first.
  - rewrite set_body_eq, total_len_app in Hf. destruct (null (peers dev)).
    + change (length (tlvs [])) with 0%nat in Hf. lia.
    + rewrite tlvs_one in Hf. cbn [nest fst snd map] in Hf. rewrite tlv_length in Hf.
      change (4 + MNL_ALIGN (Z.of_nat (length (tlvs [])))) with 4 in Hf. lia.
  - unfold front_items, total_len, IFNAMSIZ in *. rewrite tlvs_cons, !length_app, !Nat2Z.inj_add, tlv_length, MNL_ALIGN_eq, length_app.
    cbn [genlmsghdr length tlvs map concat]. change MNL_NLMSG_HDRLEN with 16. destruct (null (peers dev)); zlia.
Qed.

(** Where the loop stands: no peer means that nothing was sent. *)
Definition resume (dev : wgdevice) (peer : list wgpeer) (allowedip : list wgallowedip) : cut_state :=
  if null peer then (peers dev, []) else (peer, allowedip).

Lemma set_message_spec (version : Z) (dev : wgdevice) (peer : list wgpeer) (allowedip : list wgallowedip) :
  device_fits version dev -> cut_ok (resume dev peer allowedip) ->
  (peer = [] -> allowedip = []) -> (peers dev = [] -> peer = []) ->
  (set_message uninit B version dev peer allowedip = None /\ strings_present dev = false)
  \/ exists fs ps' rest', set_message uninit B version dev peer allowedip = Some (ps', rest', set_body version dev (null peer) fs)
    /\ total_len (set_body version dev (null peer) fs) <= B
    /\ cuts (resume dev peer allowedip) fs (ps', rest')
    /\ (peer <> [] -> fs <> []).
Proof.
  intros Hfit Hok Hnil Hnone. pose proof (front_total version dev (null peer) Hfit) as Hfront.
  destruct Hfit as [Hwf Hn HB Hf].
  assert (short (name dev ++ [x00])) as Hs by (apply short_small; rewrite length_app; unfold IFNAMSIZ in Hn; cbn; lia).
  unfold set_message, mnl_attr_put_strz. rewrite mnl_attr_put_tlv by done. fold (null peer) (null (peers dev)).
  assert (when (null peer) (put_device version dev) (genlmsghdr WG_CMD_SET_DEVICE version ++ tlv WGDEVICE_A_IFNAME (name dev ++ [x00]))
          = if negb (null peer) || strings_present dev
            then Some (genlmsghdr WG_CMD_SET_DEVICE version ++ tlvs (front_items version dev (null peer))) else None) as ->.
  { unfold front_items. rewrite tlvs_cons. destruct (null peer); cbn [when negb orb].
    - rewrite put_device_tlvs by done. by rewrite <- app_assoc.
    - cbn [tlvs map concat]. by rewrite app_nil_r. }
  destruct (negb (null peer) || strings_present dev) eqn:Epresent;
    [right; cbn [mbind option_bind] | left; by apply orb_false_iff in Epresent as [_ ->]].
  set (front := _ ++ tlvs _) in *.
  destruct (null (peers dev)) eqn:Ep.
  { apply null_nil in Ep. assert (peer = []) as -> by auto. assert (allowedip = []) as -> by auto.
    exists [], [], []. rewrite set_body_eq. fold front. rewrite Ep. change (null []) with true in *.
    change (tlvs (if true then [] else [nest WGDEVICE_A_PEERS (map frag_item [])])) with (@nil byte). rewrite app_nil_r.
    split_and!; [done | cbn [andb] in Hfront; lia | | done]. unfold resume. cbn [null length Nat.eqb]. rewrite Ep. constructor. }
  rewrite nest_start_eq.
  assert (total_len (front ++ nest_header uninit front WGDEVICE_A_PEERS) = total_len front + 4) as Hm
    by (rewrite total_len_app, nest_header_length; lia).
  assert (total_len front + 4 <= B) as Hroom by (destruct (null peer); lia).
  assert (peer <> [] -> total_len front + 4 <= 44) as Hcont by (intros E%null_not_nil; by rewrite E in Hfront).
  set (start := if null peer then peers dev else peer).
  assert ((start, allowedip) = resume dev peer allowedip) as Hstart.
  { unfold start, resume. destruct (null peer) eqn:E; [| done]. apply null_nil in E. by rewrite Hnil. }
  rewrite <- Hstart in *.
  destruct (put_peers_spec start allowedip (front ++ nest_header uninit front WGDEVICE_A_PEERS) Hok) as (fs & ps' & rest' & -> & Hb & Hc & Hp).
  { lia. }
  { intros Hr. assert (peer <> []) as Hpeer by naive_solver. specialize (Hcont Hpeer). lia. }
  exists fs, ps', rest'. rewrite set_body_eq. fold front. rewrite Ep.
  rewrite <- app_assoc, nest_closed by apply tlvs_aligned. rewrite tlvs_one. cbn [nest fst snd].
  split_and!; [done | | done |].
  - rewrite total_len_app, tlv_length, MNL_ALIGN_aligned by apply tlvs_aligned. rewrite total_len_app in Hb. lia.
  - intros Hpeer. specialize (Hcont Hpeer). apply Hp; [subst start; by destruct peer | lia].
Qed.

(** The first message of a device with a string that is NULL. *)
Lemma set_message_null (version : Z) (dev : wgdevice) (allowedip : list wgallowedip) : wf_device dev ->
  strings_present dev = false -> set_message uninit B version dev [] allowedip = None.
Proof. intros Hwf Hs. unfold set_message. cbn [length Nat.eqb when]. by rewrite put_device_tlvs, Hs. Qed.

End Messages.

(** ** The messages that are sent *)

(** A kernel that keeps the messages it was sent. *)
Definition logged (K : NetlinkKernel) : NetlinkKernel := {|
  kstate := @kstate K * list (list byte);
  nl_time k := nl_time (fst k);
  nl_open k bus := let '(k', res) := nl_open (fst k) bus in (k', snd k, res);
  nl_sendto k msg := let '(k', res) := nl_sendto (fst k) msg in (k', snd k ++ [msg], res);
  nl_recvfrom k := let '(k', res) := nl_recvfrom (fst k) in (k', snd k, res);
|}.

(** One message of a call, with the sequence number of its moment. *)
Definition is_set_message `{Platform} (id version : Z) (dev : wgdevice) (first : bool) (fs : list frag) (msg : list byte) : Prop :=
  exists seq, msg = nlmsg id (Z.lor NLM_F_REQUEST NLM_F_ACK) seq (set_body version dev first fs).

(** The messages of a call: only the first carries the attributes of the device. *)
Definition set_messages `{Platform} (id version : Z) (dev : wgdevice) (first : bool) (fss : list (list frag))
    (msgs : list (list byte)) : Prop :=
  match fss, msgs with
  | fs :: fss, msg :: msgs =>
      is_set_message id version dev first fs msg /\ Forall2 (is_set_message id version dev false) fss msgs
  | _, _ => False
  end.

Section Sent.
Context `{Platform} (uninit : nat -> byte) (B : Z) `{K : NetlinkKernel} `{!NetlinkKernelLaws K} (fuel : nat).

Lemma recv_run_log {A} (turns : nat) (k : @kstate (logged K)) (nlg : mnlg_socket) (cb : option (callback A)) (st : Z * A) k' err st' :
  @recv_run (logged K) A turns k nlg cb st = Returns (k', err, st') -> snd k' = snd k.
Proof.
  revert k st. induction turns as [|turns IH]; intros [k log] st E; [done |]. cbn [recv_run] in E.
  cbn [nl_recvfrom logged fst snd] in E. destruct (nl_recvfrom k) as [k1 [e | buf]]; [by injection E as <- _ _ |].
  destruct (_ =? 0)%nat; [by injection E as <- _ _ |]. destruct (mnl_cb_run2 _ _ _ _ _) as [e st1].
  destruct (0 <? e); [by apply IH in E | by injection E as <- _ _].
Qed.

Lemma socket_open_log (k : @kstate (logged K)) (family : list byte) k' res :
  @mnlg_socket_open (logged K) fuel k family = Returns (k', res) ->
  snd k' = snd k /\ (exists e, res = inl e) \/ exists msg, snd k' = snd k ++ [msg].
Proof.
  destruct k as [k log]. unfold mnlg_socket_open. cbn [nl_open nl_sendto logged fst snd].
  destruct (nl_open k NETLINK_GENERIC) as [k1 [e | port]]; [intros [= <- <-]; left; eauto |]. cbn [fst snd].
  destruct (nl_sendto _ _) as [k2 [e |]]; intros E; right.
  { injection E as <- <-. eauto. }
  destruct (mnlg_socket_recv_run _ _ _ _ _) as [[[k3 err] [errno nlg]] | |] eqn:Er; cbn [obind] in E; try done.
  apply recv_run_log in Er. cbn [snd] in Er.
  destruct (err <? 0); injection E as <- <-; rewrite Er; eauto.
Qed.

(** What a run of the loop has sent, and how far it came. *)
Definition sent_from (nlg : mnlg_socket) (dev : wgdevice) (peer : list wgpeer) (allowedip : list wgallowedip) (ret : Z)
    (msgs : list (list byte)) : Prop :=
  exists fss ps' rest', set_messages (id nlg) (version nlg) dev (null peer) fss msgs
    /\ Forall (fun msg => Z.of_nat (length msg) <= B) msgs
    /\ cuts (resume dev peer allowedip) (concat fss) (ps', rest')
    /\ (ret = 0 -> ps' = [] /\ rest' = []).

Lemma sent_last (nlg : mnlg_socket) (dev : wgdevice) peer allowedip ret fs ps' rest' msg :
  is_set_message (id nlg) (version nlg) dev (null peer) fs msg -> Z.of_nat (length msg) <= B ->
  cuts (resume dev peer allowedip) fs (ps', rest') -> (ret = 0 -> ps' = [] /\ rest' = []) ->
  sent_from nlg dev peer allowedip ret [msg].
Proof.
  intros Hm Hb Hc Hr. exists [fs], ps', rest'. cbn [concat set_messages]. rewrite app_nil_r.
  split; [by split; [| constructor] |]. split; [by apply Forall_singleton | done].
Qed.

(** The rest of a peer list: nothing is left of it when no peer is. *)
Lemma cuts_end (st : cut_state) (fs : list frag) (st' : cut_state) : cuts st fs st' -> cut_ok st -> fst st' = [] -> snd st' = [].
Proof.
  intros Hc Hok Hend. destruct (cuts_keep_ok _ _ _ Hc Hok) as (_ & _ & Hin). destruct (snd st'); [done |].
  destruct (Hin ltac:(done)) as (? & ? & E & _). by rewrite Hend in E.
Qed.

Lemma set_loop_sends (turns : nat) (k : @kstate (logged K)) (nlg : mnlg_socket) (dev : wgdevice) (peer : list wgpeer)
    (allowedip : list wgallowedip) k' ret :
  device_fits B (version nlg) dev -> cut_ok (resume dev peer allowedip) ->
  (peer = [] -> allowedip = []) -> (peers dev = [] -> peer = []) ->
  @set_loop _ uninit B (logged K) fuel turns k nlg dev peer allowedip = Returns (k', ret) ->
  exists msgs, snd k' = snd k ++ msgs /\ sent_from nlg dev peer allowedip ret msgs.
Proof.
  intros Hfit. revert k nlg Hfit peer allowedip.
  induction turns as [|turns IH]; intros [k log] nlg Hfit peer allowedip Hok Hnil Hnone E; [done |]. cbn [set_loop] in E.
  set (nlg1 := mnlg_msg_prepare _ _) in E.
  change (version nlg1) with (version nlg) in E.
  destruct (set_message_spec uninit B (version nlg) dev peer allowedip Hfit Hok Hnil Hnone)
    as [[Hmsg _] | (fs & ps1 & rest1 & Hmsg & Hb & Hc & _)]; [by rewrite Hmsg in E |]. rewrite Hmsg in E. cbn [nl_sendto logged fst snd] in E.
  set (msg := nlmsg _ _ _ _) in E.
  assert (is_set_message (id nlg) (version nlg) dev (null peer) fs msg) as His by by eexists.
  assert (Z.of_nat (length msg) <= B) as Hlen by (unfold msg; by rewrite nlmsg_length).
  destruct (nl_sendto k msg) as [k1 [e |]] eqn:Es.
  { injection E as <- <-. exists [msg]. split; [done |]. eapply sent_last; try done. apply send_errno in Es. lia. }
  destruct (mnlg_socket_recv_run _ _ _ _ _) as [[[k2 err] [errno []]] | |] eqn:Er; cbn [obind] in E; try done.
  apply recv_run_log in Er. cbn [snd] in Er.
  destruct (err <? 0).
  { injection E as <- <-. exists [msg]. split; [done |]. eapply sent_last; try done.
    destruct (Z.eqb_spec errno 0); unfold EINVAL; cbn [negb]; lia. }
  fold (null ps1) in E. destruct (null ps1) eqn:En.
  { injection E as <- <-. exists [msg]. split; [done |]. eapply sent_last; try done. intros _. apply null_nil in En.
    split; [done |]. by apply (cuts_end _ _ _ Hc Hok). }
  apply null_not_nil in En. assert (resume dev ps1 rest1 = (ps1, rest1)) as Hres by (unfold resume; by destruct ps1).
  apply (IH k2 nlg1) in E as (msgs & -> & fss & ps' & rest' & Hms & Hbs & Hcs & Hret); [| done | rewrite Hres; by eapply cuts_keep_ok | done |].
  - exists (msg :: msgs). rewrite Er, <- app_assoc. split; [done |]. exists (fs :: fss), ps', rest'. rewrite Hres in Hcs.
    split_and!; [| by apply Forall_cons | by eapply cuts_app | done]. split; [done |].
    rewrite (proj2 (null_not_nil ps1) En) in Hms. destruct fss, msgs; try done. destruct Hms. by constructor.
  - intros Hp. destruct peer as [|p peer]; [| by specialize (Hnone Hp)]. exfalso. apply En. unfold resume in Hc. cbn in Hc. rewrite Hp in Hc.
    by inversion Hc as [|? ? ? ? ? Hcut]; [| inversion Hcut].
Qed.

#[export] Instance logged_laws : NetlinkKernelLaws (logged K).
Proof.
  constructor; cbn; intros [k log]; cbn.
  - intros bus k' e. destruct (nl_open k bus) as [k1 [e1 |]] eqn:E; intros [= <- <-]. by eapply open_errno.
  - intros msg k' e. destruct (nl_sendto k msg) as [k1 [e1 |]] eqn:E; intros [= <- <-]. by eapply send_errno.
  - intros k' buf. destruct (nl_recvfrom k) as [k1 [e1 | b]] eqn:E; intros [= <- <-]. by eapply recv_datagram.
Qed.

Lemma cut_ok_begin (version : Z) (dev : wgdevice) : device_fits B version dev -> cut_ok (peers dev, []).
Proof. intros [Hwf _ _ _]. split_and!; [by apply wf_peers | by apply Forall_nil | done]. Qed.


(** ** How the call ends *)

(** The kernel refuses a message, when it is sent or in its answer, and [ret] says why. *)
Definition refused (msg : list byte) (ret : Z) : Prop :=
  exists k1 k2,
    (exists e, nl_sendto k1 msg = (k2, Some e) /\ ret = - e)
    \/ (nl_sendto k1 msg = (k2, None)
        /\ exists nlg k3 err errno, recv_run fuel k2 nlg (None : option (callback unit)) (0, tt) = Returns (k3, err, (errno, tt))
             /\ err < 0 /\ ret = if negb (errno =? 0) then - errno else - EINVAL).

Lemma recv_run_logged {A} (turns : nat) (k : @kstate (logged K)) (nlg : mnlg_socket) (cb : option (callback A)) (st : Z * A) k' err st' :
  @recv_run (logged K) A turns k nlg cb st = Returns (k', err, st') ->
  @recv_run K A turns (fst k) nlg cb st = Returns (fst k', err, st').
Proof.
  revert k st. induction turns as [|turns IH]; intros [k log] st E; [done |]. cbn [recv_run] in *.
  cbn [nl_recvfrom logged fst snd] in E |- *. destruct (nl_recvfrom k) as [k1 [e | buf]]; [by injection E as <- <- <- |].
  destruct (_ =? 0)%nat; [by injection E as <- <- <- |]. destruct (mnl_cb_run2 _ _ _ _ _) as [e st1].
  destruct (0 <? e); [by apply IH in E | by injection E as <- <- <-].
Qed.

Lemma set_loop_refused (turns : nat) (k : @kstate (logged K)) (nlg : mnlg_socket) (dev : wgdevice) (peer : list wgpeer)
    (allowedip : list wgallowedip) k' ret :
  @set_loop _ uninit B (logged K) fuel turns k nlg dev peer allowedip = Returns (k', ret) -> ret <> 0 ->
  exists msgs msg, snd k' = snd k ++ msgs ++ [msg] /\ refused msg ret.
Proof.
  revert k nlg peer allowedip. induction turns as [|turns IH]; intros [k log] nlg peer allowedip E Hret; [done |].
  cbn [set_loop] in E. destruct (set_message _ _ _ _ _ _) as [[[ps1 rest1] m] |]; [| done]. cbn [nl_sendto logged fst snd] in E |- *.
  set (msg := nlmsg _ _ _ _) in E. destruct (nl_sendto k msg) as [k1 [e |]] eqn:Es.
  { injection E as <- <-. exists [], msg. split; [done |]. exists k, k1. left. eauto. }
  destruct (mnlg_socket_recv_run _ _ _ _ _) as [[[k2 err] [errno []]] | |] eqn:Er; cbn [obind] in E; try done.
  pose proof (recv_run_log _ _ _ _ _ _ _ _ Er) as Hlog. apply recv_run_logged in Er. cbn [fst snd] in *.
  destruct (Z.ltb_spec err 0).
  { injection E as <- <-. exists [], msg. split; [done |]. exists k, k1. right. split; [done |]. eauto 10. }
  destruct (_ =? _)%nat; [by injection E as <- <- |].
  apply IH in E as (msgs & msg' & -> & ?); [| done]. exists (msg :: msgs), msg'. by rewrite Hlog, <- app_assoc.
Qed.

End Sent.

(** ** The properties *)

Section Properties.
Context `{Platform} (uninit : nat -> byte) (B : Z) `{K : NetlinkKernel} `{!NetlinkKernelLaws K} (fuel : nat).

Lemma set_device_sent (turns : nat) (k : @kstate K) (dev : wgdevice) k' :
  (forall version, device_fits B version dev) ->
  @kernel_set_device _ uninit B (logged K) fuel turns (k, []) dev = Returns (k', 0) ->
  strings_present dev = true
  /\ exists k1 nlg family fss msgs, @mnlg_socket_open (logged K) fuel (k, []) WG_GENL_NAME = Returns (k1, inr nlg)
    /\ snd k' = family :: msgs /\ set_messages (id nlg) (version nlg) dev true fss msgs
    /\ splits (peers dev) (concat fss) /\ Forall (fun msg => Z.of_nat (length msg) <= B) msgs.
Proof.
  intros Hfit E. unfold kernel_set_device in E.
  destruct (mnlg_socket_open _ _ _) as [[k1 [e | nlg]] | |] eqn:Eo; cbn [obind] in E; try done.
  { injection E as <- He. pose proof (socket_open_errno (K := logged K) _ _ _ _ _ Eo). lia. }
  pose proof Eo as Hlog. apply socket_open_log in Hlog as [[_ [? ?]] | [family Hlog]]; [done |]. cbn [snd app] in Hlog.
  split.
  { destruct turns; [done |]. destruct (strings_present dev) eqn:Es; [done |]. cbn [set_loop] in E.
    by rewrite set_message_null in E by (done || by destruct (Hfit 0)). }
  apply set_loop_sends in E as (msgs & Hk & fss & ps' & rest' & Hms & Hb & Hc & Hret);
    [| done | done | by apply (cut_ok_begin B 0) | done | done].
  destruct (Hret eq_refl) as [-> ->]. exists k1, nlg, family, fss, msgs.
  rewrite Hk, Hlog. split_and!; [done | done | done | by apply cuts_splits in Hc | done].
Qed.

(** C10: [kernel_set_device] hands the whole device over, in pieces.  The premise
    [device_fits] is that the device is well formed, its name fits the interface and its own
    attributes, which are written without a check, fit the buffer ([put_device_overflows] is a
    device for which they do not).  Then, when the call succeeds, the messages it has sent
    after the one that asks for the family are those of fragments into which the peers split (a
    first fragment of each peer with its keys, endpoint, interval and flags, then fragments
    that carry more allowed IPs, together all of them in order), only the first message
    carries the attributes of the device and the flag that replaces its peers, and no message
    is larger than the socket buffer. *)
Theorem kernel_set_device_splits (turns : nat) (k : @kstate K) (dev : wgdevice) k' :
  (forall version, device_fits B version dev) ->
  @kernel_set_device _ uninit B (logged K) fuel turns (k, []) dev = Returns (k', 0) ->
  exists family id version fss msgs, snd k' = family :: msgs
    /\ set_messages id version dev true fss msgs /\ splits (peers dev) (concat fss)
    /\ Forall (fun msg => Z.of_nat (length msg) <= B) msgs.
Proof.
  intros Hfit E. destruct (set_device_sent _ _ _ _ Hfit E) as (_ & _ & nlg & family & fss & msgs & _ & Hs).
  by exists family, (id nlg), (version nlg), fss, msgs.
Qed.

(** C23: [kernel_set_device] stops at the first refusal: for a device whose own attributes fit
    the buffer ([device_fits]), when the call returns an error, either the family was not found and nothing of the device was sent, or the messages sent are a
    beginning of the split, the kernel refused the last of them, when it was sent or in its
    answer, and the error is the one it gave, or EINVAL when it gave none. *)
Theorem kernel_set_device_error (turns : nat) (k : @kstate K) (dev : wgdevice) k' ret :
  (forall version, device_fits B version dev) ->
  @kernel_set_device _ uninit B (logged K) fuel turns (k, []) dev = Returns (k', ret) -> ret <> 0 ->
  (length (snd k') <= 1)%nat
  \/ exists family id version fss msgs msg st, snd k' = family :: msgs ++ [msg]
       /\ set_messages id version dev true fss (msgs ++ [msg]) /\ cuts (peers dev, []) (concat fss) st
       /\ refused fuel msg ret.
Proof.
  intros Hfit E Hret. unfold kernel_set_device in E.
  destruct (mnlg_socket_open _ _ _) as [[k1 [e | nlg]] | |] eqn:Eo; cbn [obind] in E; try done.
  { injection E as <- <-. left. apply socket_open_log in Eo as [[-> _] | [family ->]]; cbn; lia. }
  apply socket_open_log in Eo as [[_ [? ?]] | [family Hlog]]; [done |]. cbn [snd app] in Hlog. right.
  pose proof E as E2. apply set_loop_refused in E2 as (msgs & msg & Hk & Href); [| done].
  apply set_loop_sends in E as (msgs' & Hk' & fss & ps' & rest' & Hms & _ & Hc & _);
    [| done | done | by apply (cut_ok_begin B 0) | done | done].
  rewrite Hk in Hk'. apply app_inv_head in Hk' as <-. exists family, (id nlg), (version nlg), fss, msgs, msg, (ps', rest').
  by rewrite Hk, Hlog.
Qed.


End Properties.

(** ** A run with a small buffer *)

Definition sample_ip (n : Z) : wgallowedip := WgAllowedip AF_INET (bytes_le 4 (10 + n * 2 ^ 24) ++ repeat x00 12) 32.

(** Two peers, the first with an endpoint, a preshared key and five allowed IPs. *)
Definition sample_set_device : wgdevice :=
  let p1 := WgPeer 63 (repeat x01 32) (repeat x02 32) (bytes_le 2 AF_INET ++ repeat x07 14 ++ repeat x00 12)
              (Timespec64 0 0) 0 0 25 true (map sample_ip [1; 2; 3; 4; 5]) in
  let p2 := WgPeer 4 (repeat x03 32) zero_key (repeat x00 28) (Timespec64 0 0) 0 0 0 false [] in
  zero_device <| name := text "awg0" |> <| flags := 1 + 2 + 8 + 32 + 1024 |> <| private_key := repeat x09 32 |>
    <| listen_port := 51820 |> <| junk_packet_count := 4 |> <| init_packet_magic_header := Some (text "12345") |>
    <| peers := [p1; p2] |>.

Lemma sample_set_device_fits (version : Z) : device_fits (H := lp64_x86) 256 version sample_set_device.
Proof.
  constructor; [| vm_compute; lia | lia |].
  - constructor; try done. repeat constructor; try done; cbn; left; done.
  - unfold set_body, front_items, device_items, header_data. destruct (2 <=? version); vm_compute; discriminate.
Qed.

#[local] Abbreviation sample_set_run :=
  (@kernel_set_device lp64_x86 (fun _ => xff) 256 (logged (scripted acking)) 5 20 ((0%nat, []), []) sample_set_device).

(** The state of the kernel and the messages after a run. *)
Definition state_of {S} (o : outcome ((nat * list (list byte)) * S * Z)) `{Inhabited S} : (nat * list (list byte)) * S :=
  match o with
  | Returns (k, _) => k
  | _ => ((0%nat, []), inhabitant)
  end.

Lemma kernel_set_device_splits_witness :
  exists k', sample_set_run = Returns (k', 0) /\ length (snd k') = 3%nat /\
  exists family id version fss msgs, snd k' = family :: msgs
    /\ set_messages (H := lp64_x86) id version sample_set_device true fss msgs
    /\ splits (peers sample_set_device) (concat fss) /\ Forall (fun msg => Z.of_nat (length msg) <= 256) msgs.
Proof.
  assert (sample_set_run = Returns (state_of sample_set_run, 0)) as E by (vm_compute; reflexivity).
  assert (length (snd (state_of sample_set_run)) = 3%nat) as Hl by (vm_compute; reflexivity).
  revert E Hl. generalize (state_of sample_set_run). intros k' E Hl. exists k'. split; [exact E |]. split; [exact Hl |].
  apply (kernel_set_device_splits (K := scripted acking) (fun _ => xff) 256 5 20 (0%nat, []) sample_set_device k' sample_set_device_fits E).
Defined.

(** A kernel that refuses the second part of the device with EPERM. *)
Definition refusing : nat -> list byte -> list (list byte) := fun n msg =>
  if (n =? 2)%nat then [ack_msg 1 msg] else acking n msg.

#[local] Abbreviation sample_refused_run :=
  (@kernel_set_device lp64_x86 (fun _ => xff) 256 (logged (scripted refusing)) 5 20 ((0%nat, []), []) sample_set_device).

Lemma kernel_set_device_error_witness :
  exists k', sample_refused_run = Returns (k', -1) /\
  ((length (snd k') <= 1)%nat
   \/ exists family id version fss msgs msg st, snd k' = family :: msgs ++ [msg]
       /\ set_messages (H := lp64_x86) id version sample_set_device true fss (msgs ++ [msg])
       /\ cuts (peers sample_set_device, []) (concat fss) st /\ refused (K := scripted refusing) 5 msg (-1)).
Proof.
  assert (sample_refused_run = Returns (state_of sample_refused_run, -1)) as E by (vm_compute; reflexivity).
  revert E. generalize (state_of sample_refused_run). intros k' E. exists k'. split; [exact E |].
  apply (kernel_set_device_error (K := scripted refusing) (fun _ => xff) 256 5 20 (0%nat, []) sample_set_device k' (-1)
           sample_set_device_fits E). lia.
Defined.


(** ** The attributes of the device are written without a check *)

(** A device of the size the configuration reader accepts, whose first message is larger than
    the largest socket buffer. *)
Definition oversized_device : wgdevice :=
  zero_device <| name := text "awg0" |> <| flags := 65536 + 131072 |>
    <| i1 := Some (repeat x61 5000) |> <| i2 := Some (repeat x61 5000) |>.

Lemma put_device_overflows :
  wf_device oversized_device
  /\ exists m, set_message (H := lp64_x86) (fun _ => x00) 8192 2 oversized_device [] [] = Some ([], [], m)
       /\ mnl_ideal_socket_buffer_size 8192 < total_len m.
Proof.
  split; [by constructor; try (split; [discriminate | vm_compute; reflexivity]) |].
  eexists. split; vm_compute; reflexivity.
Qed.
