(* ===== verification/IpcLinuxGet.v ===== *)
(** * Devices read from the kernel (src/ipc-linux.h)

    What [kernel_set_device] writes is read back by the callbacks of [kernel_get_device] and
    joined by [coalesce_peers], whatever the pieces: the device that is read is the image of
    the device that was set, which is the device itself when the messages carry its magic headers.  For dumps from elsewhere, the device that is read is well formed
    whatever the attributes, and the loop over interrupted dumps ends. *)

From S2P Require Import Prelude CString Encoding Containers NetLib ConfigValues Config WellFormed CSort Ipc Netlink NetlinkOk IpcLinux IpcLinuxSet.
#[local] Open Scope Z_scope.
#[local] Open Scope awg_scope.

(** ** Lists of attributes with what they do *)

Definition read_if {X} (c : bool) (it : item) (f : X -> X) : list (item * (X -> X)) := if c then [(it, f)] else [].

Lemma read_all_app {X} (l l' : list (item * (X -> X))) (x : X) : read_all (l ++ l') x = read_all l' (read_all l x).
Proof. apply fold_left_app. Qed.

Lemma read_all_if {X} (c : bool) (it : item) (f : X -> X) (x : X) : read_all (read_if c it f) x = if c then f x else x.
Proof. by destruct c. Qed.

Lemma read_all_one {X} (it : item) (f : X -> X) (x : X) : read_all [(it, f)] x = f x.
Proof. done. Qed.

Lemma map_fst_read_if {X} (c : bool) (type : Z) (data : list byte) (f : X -> X) :
  map fst (read_if c (type, data) f) = item_if c type data.
Proof. by destruct c. Qed.

Lemma Forall_read_if {X} (P : item * (X -> X) -> Prop) (c : bool) (it : item) (f : X -> X) :
  (c = true -> P (it, f)) -> Forall P (read_if c it f).
Proof. intros H. destruct c; [| by apply Forall_nil]. apply Forall_singleton. auto. Qed.

(** The attributes of a message are no longer than the message. *)
Lemma item_short (items : list item) (it : item) : In it items -> Z.of_nat (length (tlvs items)) < 2 ^ 16 -> short (snd it).
Proof.
  unfold short. induction items as [|[t d] items IH]; [done |]. cbn [In]. rewrite tlvs_cons, length_app, Nat2Z.inj_add, tlv_length.
  rewrite MNL_ALIGN_eq. intros [<- | Hin] Hl; cbn [snd]; [zlia |]. apply IH; [done | zlia].
Qed.

(** ** Attributes with an integer, a key or a string *)

Lemma if_valid_int {A} (type : Z) (n : nat) (v : Z) (rest : list byte) (t : mnl_attr_data_type) (f : A -> A) (st : Z * A) :
  mnl_attr_data_type_len t = Z.of_nat n -> (0 < n <= 8)%nat ->
  if_valid (view type (bytes_le n v) rest) t f st = (fst st, f (snd st)).
Proof. intros. unfold if_valid. by rewrite (validate_int type n v rest t). Qed.

Lemma if_valid_strz {A} (type : Z) (s rest : list byte) (f : A -> A) (st : Z * A) : short (s ++ [x00]) ->
  if_valid (view type (s ++ [x00]) rest) MNL_TYPE_NUL_STRING f st = (fst st, f (snd st))
  /\ if_valid (view type (s ++ [x00]) rest) MNL_TYPE_STRING f st = (fst st, f (snd st)).
Proof. intros Hs. unfold if_valid. by destruct (validate_strz type s rest Hs) as [-> ->]. Qed.

Lemma if_len_view {A} (type : Z) (data rest : list byte) (n : nat) (f : A -> A) (st : Z * A) :
  length data = n -> (n <= 64)%nat -> if_len (view type data rest) n f st = (fst st, f (snd st)).
Proof. intros <- Hn. unfold if_len. rewrite view_len by (unfold short; lia). by rewrite Z.eqb_refl. Qed.

(** ** Allowed IPs *)

Definition ip_image (a : wgallowedip) : wgallowedip :=
  WgAllowedip (family a) (if family a =? AF_INET then ip4 a ++ repeat x00 12 else ip6 a) (cidr a).

Definition ip_reads (a : wgallowedip) : list (item * (wgallowedip -> wgallowedip)) :=
  [((WGALLOWEDIP_A_FAMILY, bytes_le 2 (family a)), fun x => x <| family := family a |>);
   ((WGALLOWEDIP_A_IPADDR, if family a =? AF_INET then ip4 a else ip6 a),
    fun x => if family a =? AF_INET then x <| ip ::= fun dst => memcpy_front dst (ip4 a) |> else x <| ip := ip6 a |>);
   ((WGALLOWEDIP_A_CIDR_MASK, bytes_le 1 (cidr a)), fun x => x <| cidr := cidr a |>)].

Lemma wf_family (a : wgallowedip) : wf_allowedip a -> 0 <= family a < 256 /\ 0 <= cidr a < 256.
Proof. intros [_ [[-> ?] | [-> ?]]]; unfold AF_INET, AF_INET6; lia. Qed.

(** Chooses the branch of a callback by the type of the attribute. *)
Ltac dispatch :=
  cbv beta zeta; rewrite ?view_type;
  repeat match goal with
  | |- context [if ?a =? ?b then _ else _] =>
      lazymatch a with Z.land (u16 _) NLA_TYPE_MASK => idtac end;
      let v := eval vm_compute in (a =? b) in
      lazymatch v with true => idtac | false => idtac end;
      change (a =? b) with v; cbv match
  end.

Lemma reads_parse {A X} (get : A -> X) (cb : nlattr -> A -> Z * A) (type : Z) (data : list byte) (f : X -> X) :
  short data ->
  (forall rest st, exists st', cb (view type data rest) st = (MNL_CB_OK, st') /\ get st' = f (get st)) ->
  reads get cb (type, data) f.
Proof. done. Qed.

Lemma bytes_le_short (n : nat) (v : Z) : (n <= 8)%nat -> short (bytes_le n v).
Proof. intros. apply short_small. rewrite bytes_le_length. lia. Qed.

Lemma ip_reads_ok (a : wgallowedip) : wf_allowedip a ->
  Forall (fun r => reads snd parse_allowedip (fst r) (snd r)) (ip_reads a).
Proof.
  intros Ha. pose proof (wf_family a Ha) as [Hf Hc]. destruct Ha as [Hip _].
  repeat (apply Forall_cons; split); [| | | by apply Forall_nil]; cbn [fst snd]; apply reads_parse;
    try (apply bytes_le_short; lia); try (intros rest st; unfold parse_allowedip; dispatch).
  - rewrite if_valid_int by (done || lia). eexists. split; [done |]. cbn [snd]. unfold mnl_attr_get_u16.
    rewrite view_int. by rewrite Z.mod_small by (cbn; lia).
  - apply short_small. destruct (_ =? _); unfold ip4, ip6; rewrite ?length_take; lia.
  - destruct (family a =? AF_INET).
    + assert (length (ip4 a) = 4%nat) as Hl by (unfold ip4; rewrite length_take; lia).
      rewrite view_len, Hl by (unfold short; lia). change (Z.of_nat 4 =? 4) with true. cbv match. eexists. split; [done |]. cbn [snd]. by rewrite view_take.
    + assert (length (ip6 a) = 16%nat) as Hl by done. rewrite view_len, Hl by (unfold short; lia).
      change (Z.of_nat 16 =? 4) with false. change (Z.of_nat 16 =? 16) with true. cbv match. eexists. split; [done |]. cbn [snd]. by rewrite view_take.
  - rewrite if_valid_int by (done || lia). eexists. split; [done |]. cbn [snd]. unfold mnl_attr_get_u8.
    rewrite view_int. by rewrite Z.mod_small by (cbn; lia).
Qed.

Lemma ip_reads_image (a : wgallowedip) : wf_allowedip a -> read_all (ip_reads a) zero_allowedip = ip_image a.
Proof.
  intros [Hip _]. unfold read_all, ip_image. cbn [ip_reads fold_left snd]. unfold zero_allowedip. cbn [modify family ip cidr].
  destruct (family a =? AF_INET); [| done]. cbn [modify family ip cidr]. f_equal. unfold memcpy_front.
  f_equal. unfold ip4. by rewrite length_take, Hip.
Qed.

(** An allowed IP in its nest is appended to those of the peer. *)
Lemma reads_allowedips (a : wgallowedip) : wf_allowedip a ->
  reads snd parse_allowedips (ip_item a) (fun p => p <| allowedips ::= fun l => l ++ [ip_image a] |>).
Proof.
  intros Ha. pose proof (ip_items_length a Ha) as Hl. apply reads_parse; [apply short_small; lia |].
  intros rest [e p]. unfold parse_allowedips.
  destruct (parse_nested_reads snd parse_allowedip (ip_reads a) (Z.lor NLA_F_NESTED 0) rest (e, zero_allowedip))
    as ([e' a'] & E & Hget); [by apply ip_reads_ok | apply short_small; cbn [ip_reads map fst]; fold (ip_items a); lia |].
  change (map fst (ip_reads a)) with (ip_items a) in E. rewrite E. cbn [fst snd] in Hget. rewrite Hget, ip_reads_image by done.
  cbn [MNL_CB_OK Z.eqb]. exists (e', p <| allowedips ::= fun l => l ++ [ip_image a] |>). split; [| done].
  replace (negb _) with false; [done |]. symmetry. apply negb_false_iff. cbn [ip_image family cidr].
  destruct Ha as [_ [[-> ?] | [-> ?]]]; [apply orb_true_iff; left | apply orb_true_iff; right];
    apply andb_true_iff; (split; [done | apply Z.leb_le; lia]).
Qed.

(** ** Peers *)

Definition endpoint_reads (p : wgpeer) : list (item * (wgpeer -> wgpeer)) :=
  map (fun it => (it, fun x => x <| endpoint ::= fun dst => memcpy_front dst (snd it) |>)) (endpoint_items p).

Definition ips_reads (ips : option (list wgallowedip)) : list (item * (wgpeer -> wgpeer)) :=
  match ips with
  | Some l => [(nest WGPEER_A_ALLOWEDIPS (map ip_item l), fun x => x <| allowedips ::= fun l0 => l0 ++ map ip_image l |>)]
  | None => []
  end.

Definition peer_reads (first : bool) (p : wgpeer) : list (item * (wgpeer -> wgpeer)) :=
  let has := has_flag (peer_flags p) in
  let kf := kernel_flags first p in
  [((WGPEER_A_PUBLIC_KEY, peer_public_key p),
    fun x => set_peer_flag WGPEER_HAS_PUBLIC_KEY (x <| peer_public_key := peer_public_key p |>))]
  ++ read_if (first && has WGPEER_HAS_PRESHARED_KEY) (WGPEER_A_PRESHARED_KEY, preshared_key p) (fun x =>
       let x := x <| preshared_key := preshared_key p |> in
       if key_is_zero (preshared_key p) then x else set_peer_flag WGPEER_HAS_PRESHARED_KEY x)
  ++ (if first then endpoint_reads p else [])
  ++ read_if (first && has WGPEER_HAS_PERSISTENT_KEEPALIVE_INTERVAL)
       (WGPEER_A_PERSISTENT_KEEPALIVE_INTERVAL, bytes_le 2 (persistent_keepalive_interval p))
       (fun x => x <| persistent_keepalive_interval := persistent_keepalive_interval p |>)
  ++ read_if (has WGPEER_HAS_AWG && awg p) (WGPEER_A_AWG, []) (fun x =>
       let x := x <| awg := true |> in
       if has_flag (peer_flags x) WGPEER_HAS_AWG then x else set_peer_flag WGPEER_HAS_AWG x)
  ++ read_if (negb (kf =? 0)) (WGPEER_A_FLAGS, bytes_le 4 kf) (fun x =>
       if has_flag kf WGPEER_F_HAS_AWG && negb (has_flag (peer_flags x) WGPEER_HAS_AWG)
       then (set_peer_flag WGPEER_HAS_AWG x) <| awg := false |> else x).

(** What is read of a fragment. *)
Definition endpoint_image (p : wgpeer) : list byte :=
  if sa_family (endpoint p) =? AF_INET then take sizeof_sockaddr_in (endpoint p) ++ repeat x00 12
  else if sa_family (endpoint p) =? AF_INET6 then endpoint p
  else repeat x00 28.

Definition frag_image (f : frag) : wgpeer :=
  let p := frag_peer f in
  let has := has_flag (peer_flags p) in
  let psk := frag_first f && has WGPEER_HAS_PRESHARED_KEY in
  WgPeer (Z.lor (Z.lor WGPEER_HAS_PUBLIC_KEY
                   (if psk && negb (key_is_zero (preshared_key p)) then WGPEER_HAS_PRESHARED_KEY else 0))
            (if has WGPEER_HAS_AWG then WGPEER_HAS_AWG else 0))
    (peer_public_key p)
    (if psk then preshared_key p else zero_key)
    (if frag_first f then endpoint_image p else repeat x00 28)
    (Timespec64 0 0) 0 0
    (if frag_first f && has WGPEER_HAS_PERSISTENT_KEEPALIVE_INTERVAL then persistent_keepalive_interval p else 0)
    (has WGPEER_HAS_AWG && awg p)
    (map ip_image (default [] (frag_ips f))).

Lemma kernel_flags_small (first : bool) (p : wgpeer) : 0 <= kernel_flags first p < 16.
Proof.
  unfold kernel_flags. destruct (has_flag _ WGPEER_REMOVE_ME), (first && _), (has_flag _ WGPEER_HAS_AWG); cbv; intuition discriminate.
Qed.

Lemma map_fst_peer_reads (first : bool) (p : wgpeer) : map fst (peer_reads first p) = peer_items first p.
Proof.
  unfold peer_reads, peer_items. rewrite !map_app, !map_fst_read_if. cbn [map fst]. do 2 f_equal. f_equal.
  destruct first; [| done]. unfold endpoint_reads. rewrite map_map. apply map_id.
Qed.

Lemma map_fst_ips_reads (ips : option (list wgallowedip)) : map fst (ips_reads ips) = ips_items ips.
Proof. by destruct ips. Qed.

(** The list of allowed IPs of a fragment. *)
Lemma read_all_allowedips (l : list wgallowedip) (p : wgpeer) :
  read_all (map (fun a => (ip_item a, fun p => p <| allowedips ::= fun l0 => l0 ++ [ip_image a] |>)) l) p
  = p <| allowedips ::= fun l0 => l0 ++ map ip_image l |>.
Proof.
  revert p. induction l as [|a l IH]; intros p; cbn [map read_all fold_left snd].
  { destruct p. cbn. by rewrite app_nil_r. }
  unfold read_all in IH. rewrite IH. destruct p. cbn. by rewrite <- app_assoc.
Qed.

Lemma reads_ips (ips : option (list wgallowedip)) :
  Forall wf_allowedip (default [] ips) -> Forall (fun it => short (snd it)) (ips_items ips) ->
  Forall (fun r => reads snd parse_peer (fst r) (snd r)) (ips_reads ips).
Proof.
  intros Hwf Hs. destruct ips as [l |]; [| by apply Forall_nil]. apply Forall_singleton. cbn [fst snd].
  cbn [ips_items] in Hs. apply Forall_cons_1 in Hs as [Hs _]. cbn [snd nest] in Hs, Hwf. apply reads_parse; [exact Hs |]. intros rest st.
  unfold parse_peer. dispatch.
  set (rs := map (fun a => (ip_item a, fun p => p <| allowedips ::= fun l0 => l0 ++ [ip_image a] |>)) l).
  destruct (parse_nested_reads snd parse_allowedips rs (Z.lor NLA_F_NESTED WGPEER_A_ALLOWEDIPS) rest st) as (st' & E & Hget).
  - unfold rs. apply List.Forall_map. eapply Forall_impl; [exact Hwf |]. intros a Ha. by apply reads_allowedips.
  - unfold rs. rewrite map_map. exact Hs.
  - unfold rs in E. rewrite map_map in E. exists st'. split; [exact E |]. rewrite Hget. apply read_all_allowedips.
Qed.

Lemma reads_peer (first : bool) (p : wgpeer) : wf_peer p ->
  Forall (fun r => reads snd parse_peer (fst r) (snd r)) (peer_reads first p).
Proof.
  intros [Hf Hk Hs He Hi _]. unfold WG_KEY_LEN, sizeof_sockaddr_in6 in *. pose proof (kernel_flags_small first p) as Hkf.
  assert (forall k : list byte, length k = 32%nat -> short k) as Hkey by (intros k Hl; unfold short; lia).
  unfold peer_reads. repeat (apply Forall_app; split).
  - apply Forall_singleton, reads_parse; [auto |]. intros rest st. unfold parse_peer. dispatch.
    rewrite (if_len_view _ _ _ 32) by (done || lia). eexists. split; [done |]. cbn [snd]. by rewrite view_take.
  - apply Forall_read_if. intros _. apply reads_parse; [auto |]. intros rest st. unfold parse_peer. dispatch.
    rewrite (if_len_view _ _ _ 32) by (done || lia). eexists. split; [done |]. cbn [snd]. rewrite view_take by done. done.
  - destruct first; [| by apply Forall_nil]. unfold endpoint_reads, endpoint_items. cbn [map].
    assert (forall n, (2 <= n <= 28)%nat -> sa_family (take n (endpoint p)) = sa_family (endpoint p)
              /\ length (take n (endpoint p)) = n) as Hep.
    { intros n Hn. unfold sa_family. split; [| rewrite length_take; lia]. rewrite take_take. by rewrite Nat.min_l by lia. }
    assert (forall (s rest : list byte) type, (2 <= length s)%nat -> sa_family (mnl_attr_get_payload (view type s rest)) = sa_family s) as Hfamily.
    { intros s rest type Hl. unfold sa_family, mnl_attr_get_payload, view. cbn [nla_data]. by rewrite take_app_le. }
    destruct (sa_family (endpoint p) =? AF_INET) eqn:E4; [| destruct (sa_family (endpoint p) =? AF_INET6) eqn:E6];
      [| | by apply Forall_nil]; apply Forall_singleton; cbn [map fst snd].
    + destruct (Hep 16%nat ltac:(lia)) as [Hfam Hl]. unfold sizeof_sockaddr_in in *. apply reads_parse; [unfold short; lia |].
      intros rest st. unfold parse_peer. dispatch. rewrite view_len, Hl by (unfold short; lia).
      rewrite Hfamily, Hfam, E4 by lia. cbn [Z.of_nat Pos.of_succ_nat Z.ltb Z.compare Pos.compare Pos.compare_cont Pos.succ].
      rewrite (view_take _ _ _ 16) by done. eexists. split; [done | done].
    + destruct (Hep 28%nat ltac:(lia)) as [Hfam Hl]. unfold sizeof_sockaddr_in, sizeof_sockaddr_in6 in *.
      apply reads_parse; [unfold short; lia |].
      intros rest st. unfold parse_peer. dispatch. rewrite view_len, Hl by (unfold short; lia).
      rewrite Hfamily, Hfam, E4, E6 by lia. cbn [Z.of_nat Pos.of_succ_nat Z.ltb Z.compare Pos.compare Pos.compare_cont Pos.succ].
      rewrite (view_take _ _ _ 28) by done. eexists. split; [done | done].
  - apply Forall_read_if. intros _. apply reads_parse; [apply bytes_le_short; lia |]. intros rest st. unfold parse_peer. dispatch.
    rewrite if_valid_int by (done || lia). eexists. split; [done |]. cbn [snd]. unfold mnl_attr_get_u16.
    rewrite view_int. by rewrite Z.mod_small by done.
  - apply Forall_read_if. intros _. apply reads_parse; [done |]. intros rest st. unfold parse_peer. dispatch.
    eexists. split; [done |]. done.
  - apply Forall_read_if. intros _. apply reads_parse; [apply bytes_le_short; lia |]. intros rest st. unfold parse_peer. dispatch.
    rewrite if_valid_int by (done || lia). eexists. split; [done |]. cbn [snd]. unfold mnl_attr_get_u32.
    rewrite view_int. by rewrite Z.mod_small by (cbn; lia).
Qed.

Lemma read_frag (f : frag) : wf_peer (frag_peer f) ->
  read_all (peer_reads (frag_first f) (frag_peer f) ++ ips_reads (frag_ips f)) zero_peer = frag_image f.
Proof.
  destruct f as [first p ips]. cbn [frag_first frag_peer frag_ips]. intros [Hf Hk Hs He Hi _].
  assert (forall x, read_all (ips_reads ips) x = x <| allowedips ::= fun l0 => l0 ++ map ip_image (default [] ips) |>) as Hips.
  { intros x. destruct ips; [done |]. destruct x. cbn. by rewrite app_nil_r. }
  assert (forall x, length (endpoint x) = 28%nat -> drop 16 (endpoint x) = repeat x00 12 ->
    read_all (endpoint_reads p) x = x <| endpoint := if (sa_family (endpoint p) =? AF_INET) || (sa_family (endpoint p) =? AF_INET6)
                                                     then endpoint_image p else endpoint x |>) as Hep.
  { intros x Hx Hz. unfold endpoint_reads, endpoint_items, endpoint_image. unfold sizeof_sockaddr_in, sizeof_sockaddr_in6 in *.
    destruct (_ =? AF_INET); [| destruct (_ =? AF_INET6)]; cbn [map read_all fold_left snd orb]; destruct x; cbn in Hx, Hz |- *; [| | done];
      f_equal; unfold memcpy_front; rewrite length_take, He;
      [change (Nat.min 16 28) with 16%nat; by rewrite Hz |].
    rewrite drop_ge, app_nil_r by (cbn; lia). apply take_ge. lia. }
  unfold peer_reads. rewrite !read_all_app, !read_all_if, Hips, read_all_one.
  unfold frag_image, kernel_flags. cbn [frag_first frag_peer frag_ips].
  set (x0 := set_peer_flag _ _). set (x1 := if first && _ then _ else x0).
  assert (endpoint x1 = repeat x00 28) as Hx1 by (unfold x1; destruct (first && _); [destruct (key_is_zero _) |]; done).
  match goal with |- context [read_all ?l x1] =>
    assert (read_all l x1 = x1 <| endpoint := if first then endpoint_image p else repeat x00 28 |>) as -> end.
  { destruct first.
    - rewrite Hep by by rewrite Hx1. rewrite Hx1. unfold endpoint_image.
      destruct (_ =? AF_INET); [done |]. by destruct (_ =? AF_INET6).
    - rewrite <- Hx1. by destruct x1. }
  unfold x1, x0. clear Hep Hips Hx1 x0 x1.
  destruct (has_flag (peer_flags p) WGPEER_HAS_AWG), (awg p), (has_flag (peer_flags p) WGPEER_REMOVE_ME),
    (first && has_flag (peer_flags p) WGPEER_REPLACE_ALLOWEDIPS), (first && has_flag (peer_flags p) WGPEER_HAS_PRESHARED_KEY),
    (key_is_zero (preshared_key p)), (first && has_flag (peer_flags p) WGPEER_HAS_PERSISTENT_KEEPALIVE_INTERVAL); reflexivity.
Qed.

(** The allowed IPs a fragment carries are allowed IPs. *)
Definition wf_frag (f : frag) : Prop := wf_peer (frag_peer f) /\ Forall wf_allowedip (default [] (frag_ips f)).

(** A fragment in its nest is appended to the peers of the device. *)
Lemma reads_peers (f : frag) : wf_frag f -> short (snd (frag_item f)) ->
  reads snd parse_peers (frag_item f) (fun d => d <| peers ::= fun l => l ++ [frag_image f] |>).
Proof.
  intros [Hp Hips] Hs. apply reads_parse; [exact Hs |]. intros rest [e d]. unfold parse_peers.
  cbn [frag_item nest snd] in Hs. set (rs := peer_reads (frag_first f) (frag_peer f) ++ ips_reads (frag_ips f)).
  assert (tlvs (map fst rs) = tlvs (peer_items (frag_first f) (frag_peer f) ++ ips_items (frag_ips f))) as Hrs.
  { unfold rs. rewrite map_app. by rewrite map_fst_peer_reads, map_fst_ips_reads. }
  destruct (parse_nested_reads snd parse_peer rs (Z.lor NLA_F_NESTED 0) rest (e, zero_peer)) as ([e' p'] & E & Hget).
  - apply Forall_app. split; [by apply reads_peer |]. apply reads_ips; [done |].
    apply List.Forall_forall. intros it Hin. apply (item_short (peer_items (frag_first f) (frag_peer f) ++ ips_items (frag_ips f)));
      [apply in_app_iff; by right |].
    unfold short in Hs. lia.
  - by rewrite Hrs.
  - rewrite Hrs in E. rewrite E. cbn [fst snd] in Hget. rewrite Hget. unfold rs. rewrite read_frag by done.
    cbn [MNL_CB_OK Z.eqb]. exists (e', d <| peers ::= fun l => l ++ [frag_image f] |>). split; [| done].
    replace (has_flag (peer_flags (frag_image f)) WGPEER_HAS_PUBLIC_KEY) with true; [done |].
    unfold frag_image. cbn [peer_flags]. by rewrite !has_flag_lor.
Qed.

(** ** The device *)

(** What is read of a magic header: a string of three characters looks like a number. *)
Definition header_image `{Platform} (version : Z) (h : option (list byte)) : list byte :=
  let s := default [] h in
  if 2 <=? version then if (length s =? 3)%nat then print_u (le_bytes (s ++ [x00])) else s
  else print_u (u32 (fst (strtoul 10 s))).

Section Device.
Context `{P : Platform}.

(** The attributes of the device that set a flag with their field. *)
Definition read_number (c : bool) (f type v : Z) (set : Z -> wgdevice -> wgdevice) : list (item * (wgdevice -> wgdevice)) :=
  read_if c (type, bytes_le 2 v) (fun d => set_dev_flag f (set v d)).

Definition read_header (version : Z) (c : bool) (f type : Z) (h : option (list byte)) (set : list byte -> wgdevice -> wgdevice) :
    list (item * (wgdevice -> wgdevice)) :=
  read_if c (type, header_data version h) (fun d => set_dev_flag f (set (header_image version h) d)).

Definition read_str (c : bool) (f type : Z) (s : option (list byte)) (set : list byte -> wgdevice -> wgdevice) :
    list (item * (wgdevice -> wgdevice)) :=
  read_if c (type, default [] s ++ [x00]) (fun d => set_dev_flag f (set (default [] s) d)).

Definition device_reads (version : Z) (dev : wgdevice) : list (item * (wgdevice -> wgdevice)) :=
  let has := has_flag (flags dev) in
  read_if (has WGDEVICE_HAS_PRIVATE_KEY) (WGDEVICE_A_PRIVATE_KEY, private_key dev)
    (fun d => set_dev_flag WGDEVICE_HAS_PRIVATE_KEY (d <| private_key := private_key dev |>))
  ++ read_if (has WGDEVICE_HAS_LISTEN_PORT) (WGDEVICE_A_LISTEN_PORT, bytes_le 2 (listen_port dev))
       (fun d => d <| listen_port := listen_port dev |>)
  ++ read_number (has WGDEVICE_HAS_JC) WGDEVICE_HAS_JC WGDEVICE_A_JC (junk_packet_count dev) (fun v d => d <| junk_packet_count := v |>)
  ++ read_number (has WGDEVICE_HAS_JMIN) WGDEVICE_HAS_JMIN WGDEVICE_A_JMIN (junk_packet_min_size dev) (fun v d => d <| junk_packet_min_size := v |>)
  ++ read_number (has WGDEVICE_HAS_JMAX) WGDEVICE_HAS_JMAX WGDEVICE_A_JMAX (junk_packet_max_size dev) (fun v d => d <| junk_packet_max_size := v |>)
  ++ read_number (has WGDEVICE_HAS_S1) WGDEVICE_HAS_S1 WGDEVICE_A_S1 (init_packet_junk_size dev) (fun v d => d <| init_packet_junk_size := v |>)
  ++ read_number (has WGDEVICE_HAS_S2) WGDEVICE_HAS_S2 WGDEVICE_A_S2 (response_packet_junk_size dev) (fun v d => d <| response_packet_junk_size := v |>)
  ++ read_number (has WGDEVICE_HAS_S3) WGDEVICE_HAS_S3 WGDEVICE_A_S3 (cookie_reply_packet_junk_size dev) (fun v d => d <| cookie_reply_packet_junk_size := v |>)
  ++ read_number (has WGDEVICE_HAS_S4) WGDEVICE_HAS_S4 WGDEVICE_A_S4 (transport_packet_junk_size dev) (fun v d => d <| transport_packet_junk_size := v |>)
  ++ read_header version (has WGDEVICE_HAS_H1) WGDEVICE_HAS_H1 WGDEVICE_A_H1 (init_packet_magic_header dev) (fun v d => d <| init_packet_magic_header := Some v |>)
  ++ read_header version (has WGDEVICE_HAS_H2) WGDEVICE_HAS_H2 WGDEVICE_A_H2 (response_packet_magic_header dev) (fun v d => d <| response_packet_magic_header := Some v |>)
  ++ read_header version (has WGDEVICE_HAS_H3) WGDEVICE_HAS_H3 WGDEVICE_A_H3 (underload_packet_magic_header dev) (fun v d => d <| underload_packet_magic_header := Some v |>)
  ++ read_header version (has WGDEVICE_HAS_H4) WGDEVICE_HAS_H4 WGDEVICE_A_H4 (transport_packet_magic_header dev) (fun v d => d <| transport_packet_magic_header := Some v |>)
  ++ read_str (has WGDEVICE_HAS_I1) WGDEVICE_HAS_I1 WGDEVICE_A_I1 (i1 dev) (fun v d => d <| i1 := Some v |>)
  ++ read_str (has WGDEVICE_HAS_I2) WGDEVICE_HAS_I2 WGDEVICE_A_I2 (i2 dev) (fun v d => d <| i2 := Some v |>)
  ++ read_str (has WGDEVICE_HAS_I3) WGDEVICE_HAS_I3 WGDEVICE_A_I3 (i3 dev) (fun v d => d <| i3 := Some v |>)
  ++ read_str (has WGDEVICE_HAS_I4) WGDEVICE_HAS_I4 WGDEVICE_A_I4 (i4 dev) (fun v d => d <| i4 := Some v |>)
  ++ read_str (has WGDEVICE_HAS_I5) WGDEVICE_HAS_I5 WGDEVICE_A_I5 (i5 dev) (fun v d => d <| i5 := Some v |>)
  ++ read_if (has WGDEVICE_HAS_FWMARK) (WGDEVICE_A_FWMARK, bytes_le 4 (fwmark dev)) (fun d => d <| fwmark := fwmark dev |>)
  ++ read_if (has WGDEVICE_REPLACE_PEERS) (WGDEVICE_A_FLAGS, bytes_le 4 WGDEVICE_F_REPLACE_PEERS) (fun d => d).

Lemma map_fst_device_reads (version : Z) (dev : wgdevice) : map fst (device_reads version dev) = device_items version dev.
Proof.
  unfold device_reads, device_items, read_number, read_header, read_str. cbv zeta. by rewrite !map_app, !map_fst_read_if.
Qed.

(** The strings of the device are C strings. *)
Definition strings_ok (dev : wgdevice) : Prop :=
  Forall (fun s => is_name (default [] s) /\ wf_string s)
    [init_packet_magic_header dev; response_packet_magic_header dev; underload_packet_magic_header dev;
     transport_packet_magic_header dev; i1 dev; i2 dev; i3 dev; i4 dev; i5 dev].

Lemma reads_number (c : bool) (type f v : Z) (set : Z -> wgdevice -> wgdevice) : is_u16 v ->
  (forall attr st, mnl_attr_get_type attr = Z.land (u16 type) NLA_TYPE_MASK ->
     parse_device attr st = (MNL_CB_OK, if_valid attr MNL_TYPE_U16 (fun d => set_dev_flag f (set (mnl_attr_get_u16 attr) d)) st)) ->
  Forall (fun r => reads snd parse_device (fst r) (snd r)) (read_number c f type v set).
Proof.
  intros Hv Hcb. apply Forall_read_if. intros _. cbn [fst snd]. apply reads_parse; [apply bytes_le_short; lia |]. intros rest st. rewrite Hcb by done.
  rewrite if_valid_int by (done || lia). eexists. split; [done |]. cbn [snd]. unfold mnl_attr_get_u16.
  rewrite view_int. by rewrite Z.mod_small by done.
Qed.

Lemma reads_string (c : bool) (type f : Z) (s : option (list byte)) (set : list byte -> wgdevice -> wgdevice) :
  is_name (default [] s) -> wf_string s ->
  (forall attr st, mnl_attr_get_type attr = Z.land (u16 type) NLA_TYPE_MASK ->
     parse_device attr st = (MNL_CB_OK, if_valid attr MNL_TYPE_NUL_STRING (fun d => set_dev_flag f (set (mnl_attr_get_str attr) d)) st)) ->
  Forall (fun r => reads snd parse_device (fst r) (snd r)) (read_str c f type s set).
Proof.
  intros Hn Hw Hcb. apply Forall_read_if. intros _. cbn [fst snd]. pose proof (wf_string_short s Hw) as Hs. apply reads_parse; [done |]. intros rest st. rewrite Hcb by done.
  rewrite (proj1 (if_valid_strz _ _ _ _ _ Hs)). eexists. split; [done |]. cbn [snd]. by rewrite view_str.
Qed.

Lemma validate_u32 (type : Z) (data rest : list byte) : short data ->
  mnl_attr_validate (view type data rest) MNL_TYPE_U32 = if (length data =? 4)%nat then None else Some ERANGE.
Proof.
  intros Hs. unfold mnl_attr_validate. rewrite view_len by done. cbn [mnl_attr_data_type_len Z.eqb negb andb].
  destruct (Nat.eqb_spec (length data) 4) as [-> | Hn]; [done |].
  destruct (Z.ltb_spec (Z.of_nat (length data)) 4); [done |]. destruct (Z.ltb_spec 4 (Z.of_nat (length data))); [done | lia].
Qed.

Lemma reads_header (c : bool) (version type f : Z) (h : option (list byte)) (set : list byte -> wgdevice -> wgdevice) :
  is_name (default [] h) -> wf_string h ->
  (forall attr st, mnl_attr_get_type attr = Z.land (u16 type) NLA_TYPE_MASK ->
     parse_device attr st = (MNL_CB_OK, GET_MAGIC_HEADER attr set f st)) ->
  Forall (fun r => reads snd parse_device (fst r) (snd r)) (read_header version c f type h set).
Proof.
  intros Hn Hw Hcb. apply Forall_read_if. intros _. cbn [fst snd]. pose proof (header_data_short version h Hw) as Hs. apply reads_parse; [done |].
  intros rest st. rewrite Hcb by done. unfold GET_MAGIC_HEADER. rewrite validate_u32 by done.
  unfold header_image. unfold header_data in *. destruct (2 <=? version).
  - rewrite length_app. cbn [length]. destruct (Nat.eqb_spec (length (default [] h)) 3) as [E | E].
    + rewrite E. cbn [Nat.add Nat.eqb]. eexists. split; [done |]. cbn [snd]. unfold mnl_attr_get_u32.
      rewrite view_take by (rewrite length_app, E; done). done.
    + replace (length (default [] h) + 1 =? 4)%nat with false by (symmetry; apply Nat.eqb_neq; lia).
      rewrite (proj1 (if_valid_strz _ _ _ _ _ Hs)). eexists. split; [done |]. cbn [snd]. by rewrite view_str.
  - rewrite bytes_le_length. cbn [Nat.eqb]. eexists. split; [done |]. cbn [snd]. unfold mnl_attr_get_u32. rewrite view_int.
    do 3 f_equal. apply Z.mod_small. apply uw_range. lia.
Qed.

Lemma device_reads_ok (version : Z) (dev : wgdevice) : wf_device dev -> strings_ok dev ->
  Forall (fun r => reads snd parse_device (fst r) (snd r)) (device_reads version dev).
Proof.
  intros [] Hs. unfold strings_ok in Hs. rewrite !Forall_cons in Hs.
  destruct Hs as ([] & [] & [] & [] & [] & [] & [] & [] & [] & _).
  unfold device_reads. cbv zeta.
  repeat (apply Forall_app; split);
    first [ apply reads_number; [done |]; intros attr st Ht; unfold parse_device; rewrite Ht; dispatch; reflexivity
          | apply reads_header; [done | done |]; intros attr st Ht; unfold parse_device; rewrite Ht; dispatch; reflexivity
          | apply reads_string; [done | done |]; intros attr st Ht; unfold parse_device; rewrite Ht; dispatch; reflexivity
          | apply Forall_read_if; intros _; cbn [fst snd]; apply reads_parse;
            [first [apply bytes_le_short; lia | idtac] | intros rest st; unfold parse_device; dispatch] ].
  - apply short_small. by rewrite wf_private_key.
  - rewrite (if_len_view _ _ _ 32) by (done || lia). eexists. split; [done |]. cbn [snd]. by rewrite view_take.
  - rewrite if_valid_int by (done || lia). eexists. split; [done |]. cbn [snd]. unfold mnl_attr_get_u16.
    rewrite view_int. by rewrite Z.mod_small by done.
  - rewrite if_valid_int by (done || lia). eexists. split; [done |]. cbn [snd]. unfold mnl_attr_get_u32.
    rewrite view_int. by rewrite Z.mod_small by done.
  - by eexists.
Qed.

(** The flags of a device that are read back with its attributes. *)
Definition image_flags : list Z :=
  [WGDEVICE_HAS_PRIVATE_KEY; WGDEVICE_HAS_JC; WGDEVICE_HAS_JMIN; WGDEVICE_HAS_JMAX; WGDEVICE_HAS_S1; WGDEVICE_HAS_S2;
   WGDEVICE_HAS_S3; WGDEVICE_HAS_S4; WGDEVICE_HAS_H1; WGDEVICE_HAS_H2; WGDEVICE_HAS_H3; WGDEVICE_HAS_H4; WGDEVICE_HAS_I1;
   WGDEVICE_HAS_I2; WGDEVICE_HAS_I3; WGDEVICE_HAS_I4; WGDEVICE_HAS_I5].
Definition IMAGE_FLAGS : Z := fold_left Z.lor image_flags 0.

(** The device as its attributes are read. *)
Definition front_image (version : Z) (dev : wgdevice) : wgdevice :=
  let has := has_flag (flags dev) in
  let number f (v : Z) := if has f then v else 0 in
  let header f h := if has f then Some (header_image version h) else None in
  let str f (s : option (list byte)) := if has f then Some (default [] s) else None in
  WgDevice (name dev) 0 (Z.land (flags dev) IMAGE_FLAGS) zero_key
    (if has WGDEVICE_HAS_PRIVATE_KEY then private_key dev else zero_key)
    (number WGDEVICE_HAS_FWMARK (fwmark dev)) (number WGDEVICE_HAS_LISTEN_PORT (listen_port dev)) []
    (number WGDEVICE_HAS_JC (junk_packet_count dev))
    (number WGDEVICE_HAS_JMIN (junk_packet_min_size dev))
    (number WGDEVICE_HAS_JMAX (junk_packet_max_size dev))
    (number WGDEVICE_HAS_S1 (init_packet_junk_size dev))
    (number WGDEVICE_HAS_S2 (response_packet_junk_size dev))
    (number WGDEVICE_HAS_S3 (cookie_reply_packet_junk_size dev))
    (number WGDEVICE_HAS_S4 (transport_packet_junk_size dev))
    (header WGDEVICE_HAS_H1 (init_packet_magic_header dev))
    (header WGDEVICE_HAS_H2 (response_packet_magic_header dev))
    (header WGDEVICE_HAS_H3 (underload_packet_magic_header dev))
    (header WGDEVICE_HAS_H4 (transport_packet_magic_header dev))
    (str WGDEVICE_HAS_I1 (i1 dev)) (str WGDEVICE_HAS_I2 (i2 dev)) (str WGDEVICE_HAS_I3 (i3 dev))
    (str WGDEVICE_HAS_I4 (i4 dev)) (str WGDEVICE_HAS_I5 (i5 dev)).

Definition peer_image (p : wgpeer) : wgpeer := frag_image (Frag true p (Some (allowedips p))).

Definition read_image (version : Z) (dev : wgdevice) : wgdevice :=
  (front_image version dev) <| peers := map peer_image (peers dev) |>.

(** The device that was set: the fields whose flags it has, everything else zero. *)
Definition device_image (dev : wgdevice) : wgdevice :=
  let has := has_flag (flags dev) in
  let number f (v : Z) := if has f then v else 0 in
  let str f (s : option (list byte)) := if has f then s else None in
  WgDevice (name dev) 0 (Z.land (flags dev) IMAGE_FLAGS) zero_key
    (if has WGDEVICE_HAS_PRIVATE_KEY then private_key dev else zero_key)
    (number WGDEVICE_HAS_FWMARK (fwmark dev)) (number WGDEVICE_HAS_LISTEN_PORT (listen_port dev)) (map peer_image (peers dev))
    (number WGDEVICE_HAS_JC (junk_packet_count dev))
    (number WGDEVICE_HAS_JMIN (junk_packet_min_size dev))
    (number WGDEVICE_HAS_JMAX (junk_packet_max_size dev))
    (number WGDEVICE_HAS_S1 (init_packet_junk_size dev))
    (number WGDEVICE_HAS_S2 (response_packet_junk_size dev))
    (number WGDEVICE_HAS_S3 (cookie_reply_packet_junk_size dev))
    (number WGDEVICE_HAS_S4 (transport_packet_junk_size dev))
    (str WGDEVICE_HAS_H1 (init_packet_magic_header dev))
    (str WGDEVICE_HAS_H2 (response_packet_magic_header dev))
    (str WGDEVICE_HAS_H3 (underload_packet_magic_header dev))
    (str WGDEVICE_HAS_H4 (transport_packet_magic_header dev))
    (str WGDEVICE_HAS_I1 (i1 dev)) (str WGDEVICE_HAS_I2 (i2 dev)) (str WGDEVICE_HAS_I3 (i3 dev))
    (str WGDEVICE_HAS_I4 (i4 dev)) (str WGDEVICE_HAS_I5 (i5 dev)).

(** A header that a kernel of this version gives back: not of three characters, which read
    back as a number; for a kernel of version 1, a decimal number of 32 bits. *)
Definition header_carried (version : Z) (h : option (list byte)) : Prop :=
  forall s, h = Some s -> if 2 <=? version then length s <> 3%nat else exists n, 0 <= n < 2 ^ 32 /\ s = print_u n.

Definition headers_carried (version : Z) (dev : wgdevice) : Prop :=
  Forall (fun '(f, h) => has_flag (flags dev) f = true -> header_carried version h)
    [(WGDEVICE_HAS_H1, init_packet_magic_header dev); (WGDEVICE_HAS_H2, response_packet_magic_header dev);
     (WGDEVICE_HAS_H3, underload_packet_magic_header dev); (WGDEVICE_HAS_H4, transport_packet_magic_header dev)].

Lemma header_image_carried `{!PlatformOk P} (version : Z) (h : option (list byte)) :
  is_Some h -> header_carried version h -> Some (header_image version h) = h.
Proof.
  intros [s ->] Hc. specialize (Hc s eq_refl). unfold header_image. cbn [default from_option]. change (Datatypes.id s) with s. f_equal.
  destruct (2 <=? version).
  - destruct (Nat.eqb_spec (length s) 3); [by destruct Hc | done].
  - destruct Hc as (n & Hn & ->). rewrite strtoul_print_u; [cbn [fst]; unfold u32; by rewrite uw_small |].
    destruct ulong_bits_cases as [-> | ->]; lia.
Qed.

Lemma read_image_carried `{!PlatformOk P} (version : Z) (dev : wgdevice) :
  strings_present dev = true -> headers_carried version dev -> read_image version dev = device_image dev.
Proof.
  intros Hp Hh. unfold read_image, front_image, device_image. cbv zeta. cbn [modify].
  unfold strings_present, device_strings in Hp. cbn [forallb] in Hp. unfold headers_carried in Hh.
  repeat match goal with
  | H : _ && _ = true |- _ => apply andb_true_iff in H as [? ?]
  | H : Forall _ (_ :: _) |- _ => apply Forall_cons in H as [? ?]
  | H : implb _ _ = true |- _ => rewrite implb_true_iff, bool_decide_eq_true in H
  end.
  device_fields. f_equal; match goal with |- (if ?c then _ else _) = _ => destruct c eqn:? | _ => idtac end; try done.
  all: first [apply header_image_carried; by auto
             | match goal with H : _ -> is_Some ?x |- _ = ?x => by destruct (H eq_refl) as [? ->] end].
Qed.

Lemma flags_image (fl : Z) :
  fold_left (fun acc f => Z.lor acc (if has_flag fl f then f else 0)) image_flags 0 = Z.land fl IMAGE_FLAGS.
Proof. apply flags_kept. unfold image_flags. each_flag. Qed.

Definition front_reads (version : Z) (dev : wgdevice) (first : bool) : list (item * (wgdevice -> wgdevice)) :=
  ((WGDEVICE_A_IFNAME, name dev ++ [x00]), set_name (name dev)) :: if first then device_reads version dev else [].

Lemma map_fst_front_reads (version : Z) (dev : wgdevice) (first : bool) :
  map fst (front_reads version dev first) = front_items version dev first.
Proof. unfold front_reads, front_items. destruct first; [| done]. cbn [map fst]. by rewrite map_fst_device_reads. Qed.

(** One attribute after the other. *)
Ltac read_step :=
  rewrite read_all_app; let rest := fresh "rest" in
  match goal with |- read_all ?r _ = _ => set (rest := r) end;
  unfold read_number, read_header, read_str; rewrite read_all_if; cbv beta;
  first [rewrite cond_field by reflexivity | rewrite cond_bare by reflexivity];
  try unfold set_dev_flag; device_fields; subst rest.

Lemma read_front (version : Z) (dev : wgdevice) : (length (name dev) < IFNAMSIZ)%nat ->
  read_all (front_reads version dev true) zero_device = front_image version dev.
Proof.
  intros Hn. unfold front_reads. change (?a :: ?l) with ([a] ++ l). rewrite read_all_app, read_all_one.
  assert (set_name (name dev) zero_device = zero_device <| name := name dev |>) as ->.
  { unfold set_name. rewrite take_ge; [done | unfold IFNAMSIZ in *; lia]. }
  unfold zero_device. device_fields. unfold device_reads. cbv zeta. do 19 read_step.
  rewrite read_all_if. unfold front_image. cbv zeta. rewrite <- flags_image. unfold image_flags. cbn [fold_left].
  match goal with |- (if ?c then _ else ?x) = _ => transitivity x; [destruct c |] end; reflexivity.
Qed.

(** ** Messages *)

Lemma reads_ifname (s : list byte) : is_name s -> (length s < IFNAMSIZ)%nat ->
  reads snd parse_device (WGDEVICE_A_IFNAME, s ++ [x00]) (set_name s).
Proof.
  intros Hn Hl. assert (short (s ++ [x00])) as Hs by (apply short_small; rewrite length_app; unfold IFNAMSIZ in Hl; cbn; lia).
  apply reads_parse; [done |]. intros rest st. unfold parse_device. dispatch.
  rewrite (proj2 (if_valid_strz _ _ _ _ _ Hs)). eexists. split; [done |]. cbn [snd]. by rewrite view_str.
Qed.

Lemma read_all_peers (fs : list frag) (d : wgdevice) :
  read_all (map (fun f => (frag_item f, fun d => d <| peers ::= fun l => l ++ [frag_image f] |>)) fs) d
  = d <| peers ::= fun l => l ++ map frag_image fs |>.
Proof.
  revert d. induction fs as [|f fs IH]; intros d; cbn [map read_all fold_left snd].
  { destruct d. cbn. by rewrite app_nil_r. }
  unfold read_all in IH. rewrite IH. destruct d. cbn. by rewrite <- app_assoc.
Qed.

(** The list of peers of a message. *)
Lemma reads_peers_nest (fs : list frag) : Forall wf_frag fs -> short (tlvs (map frag_item fs)) ->
  reads snd parse_device (nest WGDEVICE_A_PEERS (map frag_item fs)) (fun d => d <| peers ::= fun l => l ++ map frag_image fs |>).
Proof.
  intros Hwf Hs. apply reads_parse; [done |]. intros rest st. unfold parse_device. dispatch.
  set (rs := map (fun f => (frag_item f, fun d => d <| peers ::= fun l => l ++ [frag_image f] |>)) fs).
  assert (map fst rs = map frag_item fs) as Hrs by (unfold rs; by rewrite map_map).
  destruct (parse_nested_reads snd parse_peers rs (Z.lor NLA_F_NESTED WGDEVICE_A_PEERS) rest st) as (st' & E & Hget).
  - unfold rs. apply List.Forall_map, List.Forall_forall. intros f Hin. rewrite List.Forall_forall in Hwf.
    apply reads_peers; [by apply Hwf |]. apply (item_short (map frag_item fs)); [by apply in_map |]. unfold short in Hs. lia.
  - by rewrite Hrs.
  - rewrite Hrs in E. exists st'. split; [exact E |]. rewrite Hget. apply read_all_peers.
Qed.

(** A device that can be sent and read: its strings and its name are C strings. *)
Record device_sane (dev : wgdevice) : Prop := DeviceSane {
  sane_wf : wf_device dev;
  sane_strings : strings_ok dev;
  sane_name : is_name (name dev);
  sane_name_length : (length (name dev) < IFNAMSIZ)%nat;
  sane_keys : NoDup (map peer_public_key (peers dev));
}.

(** What a message does to the device. *)
Definition read_body (version : Z) (dev : wgdevice) (first : bool) (fs : list frag) (d : wgdevice) : wgdevice :=
  (read_all (front_reads version dev first) d) <| peers ::= fun l => l ++ map frag_image fs |>.

Lemma read_message (type flags seq version : Z) (dev : wgdevice) (first : bool) (fs : list frag) (st : Z * wgdevice) :
  device_sane dev -> Forall wf_frag fs -> (peers dev = [] -> fs = []) ->
  total_len (set_body version dev first fs) < 2 ^ 16 ->
  exists st', read_device_cb (nlmsg type flags seq (set_body version dev first fs)) st = (MNL_CB_OK, st')
    /\ snd st' = read_body version dev first fs (snd st).
Proof.
  intros [Hwf Hstr Hname Hnl _] Hfs Hnone Hlen. unfold read_device_cb.
  set (rs := front_reads version dev first
             ++ if null (peers dev) then [] else [(nest WGDEVICE_A_PEERS (map frag_item fs),
                                                   fun d => d <| peers ::= fun l => l ++ map frag_image fs |>)]).
  assert (set_body version dev first fs = genlmsghdr WG_CMD_SET_DEVICE version ++ tlvs (map fst rs)) as Hbody.
  { unfold set_body, rs. rewrite map_app, map_fst_front_reads. by destruct (null (peers dev)). }
  rewrite Hbody in *. rewrite <- (app_nil_r (nlmsg _ _ _ _)).
  assert (Z.of_nat (length (tlvs (map fst rs))) < 2 ^ 16) as Hshort.
  { unfold total_len in Hlen. rewrite length_app in Hlen. change MNL_NLMSG_HDRLEN with 16 in Hlen. lia. }
  destruct (attr_parse_reads snd parse_device rs type flags seq sizeof_genlmsghdr (genlmsghdr WG_CMD_SET_DEVICE version) [] st)
    as (st' & E & Hget); [| done | done | lia |].
  - unfold rs. apply Forall_app. split.
    + apply Forall_cons. split; [by apply reads_ifname |]. destruct first; [by apply device_reads_ok | by apply Forall_nil].
    + destruct (null (peers dev)) eqn:Ep; [by apply Forall_nil |]. apply Forall_singleton. cbn [fst snd].
      apply reads_peers_nest; [done |]. apply (item_short (map fst rs) (nest WGDEVICE_A_PEERS (map frag_item fs))); [| done].
      unfold rs. rewrite map_app, ?Ep. apply in_app_iff. right. by left.
  - exists st'. split; [exact E |]. rewrite Hget. unfold rs, read_body. rewrite read_all_app.
    destruct (null (peers dev)) eqn:Ep; [| done]. apply null_nil, Hnone in Ep as ->.
    destruct (read_all (front_reads version dev first) (snd st)). cbn. by rewrite app_nil_r.
Qed.

End Device.

(** ** The fragments of a split are joined again *)

Lemma splits_wf (ps : list wgpeer) (fs : list frag) : splits ps fs -> Forall wf_peer ps -> Forall wf_frag fs.
Proof.
  induction 1 as [|p ips more ps fs Hmore Hcat _ IH]; intros Hps; [by apply Forall_nil |].
  apply Forall_cons in Hps as [Hp Hps]. pose proof (wf_allowedips p Hp) as Ha. rewrite <- Hcat in Ha.
  apply Forall_app in Ha as [Hips Hrest]. apply Forall_cons. split; [done |]. apply Forall_app. split; [| auto].
  apply List.Forall_map, List.Forall_forall. intros l Hin. split; [done |]. cbn [frag_ips default].
  apply List.Forall_forall. intros a Hina. rewrite List.Forall_forall in Hrest. apply Hrest, in_concat. eauto.
Qed.

Lemma set_allowedips_nil (p : wgpeer) : p <| allowedips ::= fun l => l ++ [] |> = p.
Proof. destruct p. cbn. by rewrite app_nil_r. Qed.

(** The other fragments of a peer add their allowed IPs to the first. *)
Lemma coalesce_more (p x : wgpeer) (more : list (list wgallowedip)) (tail : list wgpeer) :
  peer_public_key x = peer_public_key p -> Forall (fun l => l <> []) more ->
  let joined := x <| allowedips ::= fun l => l ++ map ip_image (concat more) |> in
  coalesce_from x (null (allowedips x)) (map (fun l => frag_image (Frag false p (Some l))) more ++ tail)
  = coalesce_from joined (null (allowedips joined)) tail.
Proof.
  intros Hkey Hmore. revert x Hkey. induction Hmore as [|l more Hl _ IH]; intros x Hkey; cbv zeta; cbn [map app concat].
  { by rewrite set_allowedips_nil. }
  cbn [coalesce_from]. change (peer_public_key (frag_image (Frag false p (Some l)))) with (peer_public_key p).
  rewrite Hkey, memcmp_refl. cbn [Z.eqb negb].
  change (allowedips (frag_image (Frag false p (Some l)))) with (map ip_image l).
  assert ((length (map ip_image l) =? 0)%nat = false) as Hn by (rewrite length_map; by destruct l).
  rewrite Hn. set (y := x <| allowedips ::= fun l0 => l0 ++ map ip_image l |>).
  assert (null (allowedips y) = false) as Hy.
  { unfold null, y. destruct x. cbn. rewrite length_app. apply Nat.eqb_neq. apply Nat.eqb_neq in Hn. lia. }
  assert (x <| allowedips ::= fun l0 => l0 ++ map ip_image (l ++ concat more) |>
          = y <| allowedips ::= fun l0 => l0 ++ map ip_image (concat more) |>) as Hjoin.
  { unfold y. destruct x. cbn. by rewrite map_app, app_assoc. }
  rewrite Hjoin. specialize (IH y ltac:(by destruct x)). cbv zeta in IH. rewrite <- IH, Hy. fold (null (allowedips x)).
  destruct (null (allowedips x)) eqn:Ex; [| done]. apply null_nil in Ex.
  f_equal. unfold y. destruct x. cbn in Ex |- *. by rewrite Ex.
Qed.

Lemma joined_image (p : wgpeer) (ips : option (list wgallowedip)) (more : list (list wgallowedip)) :
  default [] ips ++ concat more = allowedips p ->
  (frag_image (Frag true p ips)) <| allowedips ::= fun l => l ++ map ip_image (concat more) |> = peer_image p.
Proof.
  intros Hcat. unfold peer_image, frag_image. cbn [modify frag_first frag_peer frag_ips allowedips default].
  cbn. by rewrite <- Hcat, map_app.
Qed.

Lemma coalesce_splits (ps : list wgpeer) (fs : list frag) (x : wgpeer) :
  splits ps fs -> NoDup (peer_public_key x :: map peer_public_key ps) ->
  coalesce_from x (null (allowedips x)) (map frag_image fs) = Some (x :: map peer_image ps).
Proof.
  intros Hs. revert x. induction Hs as [|p ips more ps fs Hmore Hcat _ IH]; intros x Hnd; [done |].
  cbn [map]. rewrite map_app, map_map. cbn [coalesce_from].
  change (peer_public_key (frag_image (Frag true p ips))) with (peer_public_key p).
  replace (memcmp (peer_public_key x) (peer_public_key p) =? 0) with false.
  2: { symmetry. apply Z.eqb_neq. rewrite memcmp_eq. apply NoDup_cons in Hnd as [Hnin _]. intros E. apply Hnin. rewrite E. left. }
  cbn [negb]. fold (null (allowedips (frag_image (Frag true p ips)))).
  rewrite (coalesce_more p (frag_image (Frag true p ips)) more) by done. cbv zeta. rewrite joined_image by done.
  rewrite IH; [done |]. by apply NoDup_cons in Hnd as [_ Hnd].
Qed.

Lemma coalesce_peers_splits (d : wgdevice) (ps : list wgpeer) (fs : list frag) :
  splits ps fs -> NoDup (map peer_public_key ps) ->
  coalesce_peers (d <| peers := map frag_image fs |>) = Some (d <| peers := map peer_image ps |>).
Proof.
  intros Hs Hnd. destruct Hs as [|p ips more ps fs Hmore Hcat Hs]; [by destruct d |].
  unfold coalesce_peers. cbn [modify peers map]. rewrite map_app, map_map.
  change (length ?l =? 0)%nat with (null l).
  rewrite (coalesce_more p (frag_image (Frag true p ips)) more) by done. cbv zeta. rewrite joined_image by done.
  rewrite (coalesce_splits ps fs) by done. by destruct d.
Qed.

(** ** A dump *)

(** The next datagrams a socket delivers. *)
Inductive delivers `{K : NetlinkKernel} : kstate -> list (list byte) -> kstate -> Prop :=
| delivers_nil k : delivers k [] k
| delivers_cons k k1 buf bufs k' : nl_recvfrom k = (k1, inr buf) -> delivers k1 bufs k' -> delivers k (buf :: bufs) k'.

Definition dump_msg (type seq : Z) (body : list byte) : list byte := nlmsg type NLM_F_MULTI seq body.
Definition done_msg (seq : Z) : list byte := nlmsg NLMSG_DONE NLM_F_MULTI seq (bytes_le 4 0).

(** A datagram of one message that answers the last request. *)
Lemma cb_run2_msg {A} (type flags seq portid : Z) (body : list byte) (f g : callback A) (st : Z * A) :
  0 <= type < 2 ^ 16 -> Z.land (u16 flags) NLM_F_DUMP_INTR = 0 -> 0 <= seq < 2 ^ 32 ->
  aligned body -> total_len body < 2 ^ 31 -> cb_for (Some f) mnlg_cb_array 5 type = Some g ->
  mnl_cb_run2 (nlmsg type flags seq body) seq portid (Some f) st
  = g (nlmsg type flags seq body) st.
Proof.
  intros Ht Hfl Hseq Hal Hlen Hg. unfold mnl_cb_run2. rewrite <- (app_nil_r (nlmsg type flags seq body)).
  rewrite (cb_run_first _ _ g); try done; [| cbn; lia]. rewrite app_nil_r. destruct (g _ st) as [r st'].
  destruct (r <=? MNL_CB_STOP); [done |]. by destruct (length _).
Qed.

Section Dump.
Context `{P : Platform} `{K : NetlinkKernel}.

Lemma recv_done (turns : nat) (k k' : kstate) (nlg : mnlg_socket) (f : callback wgdevice) (st : Z * wgdevice) :
  0 <= seq nlg < 2 ^ 32 -> nl_recvfrom k = (k', inr (done_msg (seq nlg))) ->
  recv_run (S turns) k nlg (Some f) st = Returns (k', 0, (0, snd st)).
Proof.
  intros Hseq E. cbn [recv_run]. rewrite E. unfold done_msg.
  rewrite (cb_run2_msg NLMSG_DONE NLM_F_MULTI _ _ _ f mnlg_cb_stop) by done. destruct st as [e d].
  destruct (nlmsg_fields NLMSG_DONE NLM_F_MULTI (seq nlg) (bytes_le 4 0) [] ltac:(done)) as (Hl & _ & Hf & _ & _ & Hd).
  unfold mnlg_cb_stop. rewrite app_nil_r in *. rewrite Hl, Hf. unfold mnl_nlmsg_get_payload.
  change (Z.to_nat MNL_NLMSG_HDRLEN) with 16%nat. rewrite Hd. done.
Qed.

Lemma recv_one (turns : nat) (k k1 : kstate) (nlg : mnlg_socket) (f : callback wgdevice) (type : Z) (body : list byte)
    (st st' : Z * wgdevice) :
  0 <= seq nlg < 2 ^ 32 -> NLMSG_MIN_TYPE <= type < 2 ^ 16 -> aligned body -> total_len body < 2 ^ 31 ->
  nl_recvfrom k = (k1, inr (dump_msg type (seq nlg) body)) ->
  f (dump_msg type (seq nlg) body) st = (MNL_CB_OK, st') ->
  recv_run (S turns) k nlg (Some f) st = recv_run turns k1 nlg (Some f) st'.
Proof.
  intros Hseq Ht Hal Hlen E Ef. cbn [recv_run]. rewrite E.
  destruct (Nat.eqb_spec (length (dump_msg type (seq nlg) body)) 0) as [E0 | _].
  { apply (f_equal Z.of_nat) in E0. unfold dump_msg in E0. rewrite nlmsg_length in E0. unfold total_len in E0.
    change MNL_NLMSG_HDRLEN with 16 in E0. lia. }
  unfold dump_msg in *. unfold NLMSG_MIN_TYPE in *. rewrite (cb_run2_msg type NLM_F_MULTI _ _ _ f f); try done; [by rewrite Ef | lia |].
  unfold cb_for, NLMSG_MIN_TYPE. by rewrite (proj2 (Z.leb_le 16 type)) by lia.
Qed.

Lemma set_body_aligned (version : Z) (dev : wgdevice) (first : bool) (fs : list frag) : aligned (set_body version dev first fs).
Proof. apply aligned_app; [done | apply tlvs_aligned]. Qed.

(** The messages after the first only add fragments. *)
Lemma read_body_again (version : Z) (dev : wgdevice) (fs : list frag) (d : wgdevice) :
  (length (name dev) < IFNAMSIZ)%nat -> name d = name dev ->
  read_body version dev false fs d = d <| peers ::= fun l => l ++ map frag_image fs |>.
Proof.
  intros Hn Hd. unfold read_body, front_reads. rewrite read_all_one.
  assert (set_name (name dev) d = d) as ->; [| done].
  unfold set_name. rewrite take_ge by (unfold IFNAMSIZ in *; lia). rewrite <- Hd. by destruct d.
Qed.

Lemma recv_fragments (turns : nat) (k k' : kstate) (nlg : mnlg_socket) (type version : Z) (dev : wgdevice)
    (fss : list (list frag)) (st : Z * wgdevice) :
  0 <= seq nlg < 2 ^ 32 -> NLMSG_MIN_TYPE <= type < 2 ^ 16 -> device_sane dev -> peers dev <> [] \/ concat fss = [] ->
  Forall wf_frag (concat fss) -> Forall (fun fs => total_len (set_body version dev false fs) < 2 ^ 16) fss ->
  delivers k (map (fun fs => dump_msg type (seq nlg) (set_body version dev false fs)) fss ++ [done_msg (seq nlg)]) k' ->
  name (snd st) = name dev -> (length fss < turns)%nat ->
  recv_run turns k nlg (Some read_device_cb) st
  = Returns (k', 0, (0, (snd st) <| peers ::= fun l => l ++ map frag_image (concat fss) |>)).
Proof.
  intros Hseq Ht Hsane. revert turns k st. induction fss as [|fs fss IH]; intros turns k st Hnone Hwf Hlen Hdel Hname Hturns;
    cbn [map app concat] in *; (destruct turns as [|turns]; [cbn in Hturns; lia |]).
  { inversion Hdel as [|? k1 ? ? ? Hrecv Hrest]; subst. inversion Hrest; subst. rewrite (recv_done _ _ k') by done.
    destruct st as [e []]. cbn. by rewrite app_nil_r. }
  apply Forall_app in Hwf as [Hfs Hwf]. apply Forall_cons in Hlen as [Hl Hlen].
  inversion Hdel as [|? k1 ? ? ? Hrecv Hrest]; subst.
  destruct (read_message type NLM_F_MULTI (seq nlg) version dev false fs st Hsane Hfs) as (st1 & Ecb & Hst1); [| done |].
  { intros Hp. destruct Hnone as [? | Hnil]; [done |]. by apply app_eq_nil in Hnil as [? _]. }
  rewrite (recv_one _ k k1 nlg _ type (set_body version dev false fs) st st1); try done; [| apply set_body_aligned | lia].
  rewrite read_body_again in Hst1 by (done || by destruct Hsane).
  rewrite (IH turns k1 st1); try done.
  - rewrite Hst1. destruct (snd st). cbn. by rewrite <- app_assoc, map_app.
  - destruct Hnone as [? | Hnil]; [by left | right]. by apply app_eq_nil in Hnil as [_ ?].
  - rewrite Hst1. destruct (snd st). exact Hname.
  - cbn in Hturns. lia.
Qed.

(** The whole dump: the first message sets the device up. *)
Lemma recv_dump (turns : nat) (k k' : kstate) (nlg : mnlg_socket) (type version : Z) (dev : wgdevice)
    (fs : list frag) (fss : list (list frag)) :
  0 <= seq nlg < 2 ^ 32 -> NLMSG_MIN_TYPE <= type < 2 ^ 16 -> device_sane dev -> splits (peers dev) (fs ++ concat fss) ->
  total_len (set_body version dev true fs) < 2 ^ 16 ->
  Forall (fun fs => total_len (set_body version dev false fs) < 2 ^ 16) fss ->
  delivers k (dump_msg type (seq nlg) (set_body version dev true fs)
              :: map (fun fs => dump_msg type (seq nlg) (set_body version dev false fs)) fss ++ [done_msg (seq nlg)]) k' ->
  (S (length fss) < turns)%nat ->
  exists raw, recv_run turns k nlg (Some read_device_cb) (0, zero_device) = Returns (k', 0, (0, raw))
              /\ coalesce_peers raw = Some (read_image version dev).
Proof.
  intros Hseq Ht Hsane Hsplit Hl Hlen Hdel Hturns. destruct turns as [|turns]; [lia |].
  pose proof (splits_wf _ _ Hsplit (wf_peers _ (sane_wf _ Hsane))) as Hwf. apply Forall_app in Hwf as [Hfs Hfss].
  assert (peers dev = [] -> fs = [] /\ concat fss = []) as Hnone.
  { intros Hp. rewrite Hp in Hsplit. inversion Hsplit as [E |]. by apply app_eq_nil. }
  inversion Hdel as [|? k1 ? ? ? Hrecv Hrest]; subst.
  destruct (read_message type NLM_F_MULTI (seq nlg) version dev true fs (0, zero_device) Hsane Hfs) as (st1 & Ecb & Hst1);
    [by intros Hp; apply Hnone in Hp as [? _] | done |].
  rewrite (recv_one _ k k1 nlg _ type (set_body version dev true fs) _ st1); try done; [| apply set_body_aligned | lia].
  unfold read_body in Hst1. cbn [snd] in Hst1. rewrite read_front in Hst1 by by destruct Hsane.
  rewrite (recv_fragments turns k1 k' nlg type version dev fss st1); try done.
  - eexists. split; [done |]. rewrite Hst1. unfold read_image. rewrite <- (coalesce_peers_splits _ _ _ Hsplit) by by destruct Hsane.
    f_equal. cbn. by rewrite map_app.
  - destruct (peers dev); [right | by left]. by destruct Hnone.
  - by rewrite Hst1.
  - lia.
Qed.

End Dump.

(** ** From one kernel to the other *)

(** The request of [kernel_get_device]. *)
Definition get_request (nlg : mnlg_socket) (iface : list byte) : list byte :=
  nlmsg (id nlg) (Z.lor (Z.lor NLM_F_REQUEST NLM_F_ACK) NLM_F_DUMP) (seq nlg)
    (mnl_attr_put_strz (genlmsghdr WG_CMD_GET_DEVICE (version nlg)) WGDEVICE_A_IFNAME iface).

Section Roundtrip.
Context `{P : Platform} `{!PlatformOk P} (uninit : nat -> byte) (B : Z) `{K : NetlinkKernel} `{!NetlinkKernelLaws K} (fuel : nat).
Context `{G : NetlinkKernel} (gfuel : nat).

(** C6: A device survives the way to the kernel and back: when the messages with which
    [kernel_set_device] has set a device come back in a dump, however they were cut,
    [kernel_get_device] returns the device that was set: every attribute whose flag it had,
    zero elsewhere, and for each peer its keys, endpoint, interval and all its allowed IPs in
    order, joined from the fragments.  Excepted are devices with a magic header that the
    messages do not carry ([headers_carried]): one of three characters, which comes back as a
    number ([three_character_header]), and for a kernel of version 1, which is sent numbers,
    one that is not a decimal number of 32 bits.  The device's own attributes fit the buffer,
    the peers have different keys. *)
Theorem kernel_device_roundtrip (turns tries : nat) (k : @kstate K) (dev : wgdevice) k' (iface : list byte)
    (k1 : @kstate (logged K)) (knlg : mnlg_socket) (g g1 g2 g3 : @kstate G) (nlg : mnlg_socket) (type : Z) :
  let nlg1 := mnlg_msg_prepare g1 nlg in
  (forall version, device_fits B version dev) -> B < 2 ^ 16 -> device_sane dev ->
  @mnlg_socket_open (logged K) fuel (k, []) WG_GENL_NAME = Returns (k1, inr knlg) -> headers_carried (version knlg) dev ->
  @kernel_set_device _ uninit B (logged K) fuel turns (k, []) dev = Returns (k', 0) ->
  @mnlg_socket_open G gfuel g WG_GENL_NAME = Returns (g1, inr nlg) ->
  @nl_sendto G g1 (get_request nlg1 iface) = (g2, None) ->
  @delivers G g2 (map (fun msg => dump_msg type (seq nlg1) (drop 16 msg)) (tail (snd k')) ++ [done_msg (seq nlg1)]) g3 ->
  NLMSG_MIN_TYPE <= type < 2 ^ 16 -> (length iface < IFNAMSIZ)%nat -> (length (snd k') < gfuel)%nat -> (0 < tries)%nat ->
  @kernel_get_device G gfuel tries g iface = Returns (g3, inr (device_image dev)).
Proof.
  intros nlg1 Hfit HB Hsane Hk1 Hcarried Hset Hopen Hsend Hdel Ht Hi Hf Htries.
  destruct (set_device_sent uninit B fuel turns k dev k' Hfit Hset) as (Hpresent & k1' & knlg' & family & fss & msgs & Hk1' & Hk & Hms & Hs & Hb).
  rewrite Hk1 in Hk1'. injection Hk1' as <- <-. rewrite <- (read_image_carried (version knlg)) by done.
  generalize (version knlg) (id knlg) Hms. clear Hms Hcarried. intros version id Hms. rewrite Hk in *. cbn [tail] in Hdel. destruct fss as [|fs fss]; [done |]. destruct msgs as [|msg msgs]; [done |].
  destruct Hms as [[s ->] Hms]. apply Forall_cons in Hb as [Hb0 Hb]. rewrite nlmsg_length in Hb0.
  assert (Forall (fun fs => total_len (set_body version dev false fs) < 2 ^ 16) fss
          /\ map (fun msg => dump_msg type (seq nlg1) (drop 16 msg)) msgs
             = map (fun fs => dump_msg type (seq nlg1) (set_body version dev false fs)) fss
          /\ length msgs = length fss) as (Hlen & Hmap & Hl).
  { clear Hdel Hf Hs Hk. induction Hms as [|fs1 msg1 fss1 msgs1 [s1 ->] _ IH]; [by split_and!; [apply Forall_nil | |] |].
    apply Forall_cons in Hb as [Hb1 Hb]. rewrite nlmsg_length in Hb1. destruct (IH Hb) as (? & Hm & ?).
    split_and!; [apply Forall_cons; split; [lia | done] | | cbn; lia]. cbn [map]. by rewrite Hm. }
  assert (total_len (set_body version dev true fs) < 2 ^ 32) as H32 by lia.
  destruct (nlmsg_fields id (Z.lor NLM_F_REQUEST NLM_F_ACK) s (set_body version dev true fs) [] H32) as (_ & _ & _ & _ & _ & Hd).
  rewrite !app_nil_r in Hd. cbn [map app] in Hdel. rewrite Hd, Hmap in Hdel.
  unfold kernel_get_device. destruct (Nat.leb_spec IFNAMSIZ (length iface)); [lia |].
  destruct tries as [|tries]; [lia |]. cbn [get_loop]. unfold get_try. rewrite Hopen. cbn [obind]. cbv zeta.
  fold nlg1. fold (get_request nlg1 iface). rewrite Hsend.
  destruct (recv_dump gfuel g2 g3 nlg1 type version dev fs fss) as (raw & E & Hraw); try done.
  - apply uw_range. lia.
  - lia.
  - cbn in Hf. lia.
  - unfold mnlg_socket_recv_run. rewrite E. cbn [obind]. cbn [Z.ltb Z.compare]. by rewrite Hraw.
Qed.

End Roundtrip.

(** The messages of the run above come back from a kernel that dumps them. *)
Lemma scripted_delivers (script : nat -> list byte -> list (list byte)) (n : nat) (bufs : list (list byte)) :
  forallb (fun buf => is_datagram (length buf) buf && (Z.of_nat (length buf) <? 2 ^ 31)) bufs = true ->
  @delivers (scripted script) (n, bufs) bufs (n, []).
Proof.
  induction bufs as [|buf bufs IH]; intros H; [constructor |]. cbn [forallb] in H. apply andb_true_iff in H as [Hb H].
  apply (delivers_cons (K := scripted script) (n, buf :: bufs) (n, bufs)); [| by apply IH]. cbn. by rewrite Hb.
Qed.

#[local] Abbreviation sample_set_run :=
  (@kernel_set_device lp64_x86 (fun _ => xff) 256 (logged (scripted acking)) 5 20 ((0%nat, []), []) sample_set_device).

Definition dumping (msgs : list (list byte)) : nat -> list byte -> list (list byte) := fun n msg =>
  if (n =? 0)%nat then acking n msg
  else map (fun m => dump_msg 29 (nlmsg_seq msg) (drop 16 m)) msgs ++ [done_msg (nlmsg_seq msg)].

Lemma sample_set_device_sane : device_sane sample_set_device.
Proof.
  constructor.
  - exact (fits_wf _ _ _ (sample_set_device_fits 0)).
  - repeat (apply Forall_cons; split; [split; [cbv; intuition discriminate | cbn; first [done | split; [discriminate | lia]]] |]).
    by apply Forall_nil.
  - cbv. intuition discriminate.
  - vm_compute. lia.
  - apply NoDup_cons_2; [cbv; intros H; inversion H as [|? ? ? H']; inversion H' | apply NoDup_singleton].
Qed.

(** The device is read back with its five allowed IPs and its other peer. *)
Lemma kernel_device_roundtrip_witness :
  @kernel_get_device (scripted (dumping (tail (snd (state_of sample_set_run))))) 5 1 (0%nat, []) (text "awg0")
  = Returns ((2%nat, []), inr (device_image sample_set_device)).
Proof.
  assert (sample_set_run = Returns (state_of sample_set_run, 0)) as E by (vm_compute; reflexivity).
  assert (length (snd (state_of sample_set_run)) = 3%nat) as Hl by (vm_compute; reflexivity).
  assert (forallb (fun buf => is_datagram (length buf) buf && (Z.of_nat (length buf) <? 2 ^ 31))
            (map (fun msg => dump_msg 29 1700000001 (drop 16 msg)) (tail (snd (state_of sample_set_run))) ++ [done_msg 1700000001]) = true)
    as Hd by (vm_compute; reflexivity).
  assert (exists k1 nlg, @mnlg_socket_open (logged (scripted acking)) 5 ((0%nat, []), []) WG_GENL_NAME = Returns (k1, inr nlg)
            /\ version nlg = 2) as (k1 & knlg & Ho & Hv) by (eexists; eexists; split; [vm_compute; reflexivity | reflexivity]).
  revert E Hl Hd. generalize (state_of sample_set_run). intros k' E Hl Hd.
  apply (kernel_device_roundtrip (P := lp64_x86) (K := scripted acking) (G := scripted (dumping (tail (snd k')))) (fun _ => xff) 256 5 5 20 1
           (0%nat, []) sample_set_device k' (text "awg0") k1 knlg (0%nat, []) (1%nat, [])
           (2%nat, map (fun msg => dump_msg 29 1700000001 (drop 16 msg)) (tail (snd k')) ++ [done_msg 1700000001]) (2%nat, [])
           (MnlgSocket 29 2 1700000000 4242) 29).
  - exact sample_set_device_fits.
  - lia.
  - exact sample_set_device_sane.
  - exact Ho.
  - rewrite Hv. repeat (apply Forall_cons; split; [intros _ s; cbn; congruence || (intros [= <-]; discriminate) |]). by apply Forall_nil.
  - exact E.
  - vm_compute. reflexivity.
  - reflexivity.
  - apply scripted_delivers. exact Hd.
  - unfold NLMSG_MIN_TYPE. lia.
  - vm_compute. lia.
  - assert (3 < 5)%nat as H5 by lia. rewrite <- Hl in H5 at 1. exact H5.
  - lia.
Defined.
