(* ===== verification/IpcLinuxDump.v ===== *)
(** * Devices read from any dump (src/ipc-linux.h)

    Whatever the kernel answers, a device that [kernel_get_device] returns is a
    [struct wgdevice] with its fields in their ranges and its keys of their sizes, each of its
    peers has a public key, and no two neighbours have the same.  Dumps that are interrupted
    are read again. *)

From S2P Require Import Prelude CString Encoding Containers NetLib ConfigValues Config WellFormed CSort Ipc Netlink NetlinkOk IpcLinux IpcLinuxSet IpcLinuxGet.
#[local] Open Scope Z_scope.
#[local] Open Scope awg_scope.

(** ** The invariant of the records *)

Definition is_u64 (z : Z) : Prop := 0 <= z < 2 ^ 64.

Record sized_allowedip (a : wgallowedip) : Prop := SizedAllowedip {
  sized_family : is_u16 (family a);
  sized_ip : length (ip a) = 16%nat;
  sized_cidr : 0 <= cidr a < 256;
}.

Record sized_peer (p : wgpeer) : Prop := SizedPeer {
  sized_peer_flags : is_u32 (peer_flags p);
  sized_peer_key : length (peer_public_key p) = WG_KEY_LEN;
  sized_psk : length (preshared_key p) = WG_KEY_LEN;
  sized_endpoint : length (endpoint p) = sizeof_sockaddr_in6;
  sized_rx : is_u64 (rx_bytes p);
  sized_tx : is_u64 (tx_bytes p);
  sized_keepalive : is_u16 (persistent_keepalive_interval p);
  sized_ips : Forall sized_allowedip (allowedips p);
}.

(** A string that was read has no NUL in it. *)
Definition c_string (s : option (list byte)) : Prop := is_name (default [] s).

Record sized_device (d : wgdevice) : Prop := SizedDevice {
  sized_name : (length (name d) < IFNAMSIZ)%nat;
  sized_ifindex : is_u32 (ifindex d);
  sized_flags : is_u32 (flags d);
  sized_public_key : length (public_key d) = WG_KEY_LEN;
  sized_private_key : length (private_key d) = WG_KEY_LEN;
  sized_fwmark : is_u32 (fwmark d);
  sized_listen_port : is_u16 (listen_port d);
  sized_peers : Forall (fun p => sized_peer p /\ has_flag (peer_flags p) WGPEER_HAS_PUBLIC_KEY = true) (peers d);
  sized_numbers : Forall is_u16 [junk_packet_count d; junk_packet_min_size d; junk_packet_max_size d; init_packet_junk_size d;
                                 response_packet_junk_size d; cookie_reply_packet_junk_size d; transport_packet_junk_size d];
  sized_strings : Forall c_string [init_packet_magic_header d; response_packet_magic_header d; underload_packet_magic_header d;
                                   transport_packet_magic_header d; i1 d; i2 d; i3 d; i4 d; i5 d];
}.

(** ** Values of an attribute *)

Lemma le_bytes_take_range (n : nat) (s : list byte) : 0 <= le_bytes (take n s) < 256 ^ Z.of_nat n.
Proof.
  pose proof (le_bytes_range (take n s)) as H. rewrite length_take in H.
  assert (256 ^ Z.of_nat (Nat.min n (length s)) <= 256 ^ Z.of_nat n) by (apply Z.pow_le_mono_r; lia). lia.
Qed.

Lemma get_u8_range (attr : nlattr) : 0 <= mnl_attr_get_u8 attr < 256.
Proof. apply (le_bytes_take_range 1). Qed.
Lemma get_u16_range (attr : nlattr) : is_u16 (mnl_attr_get_u16 attr).
Proof. apply (le_bytes_take_range 2). Qed.
Lemma get_u32_range (attr : nlattr) : is_u32 (mnl_attr_get_u32 attr).
Proof. apply (le_bytes_take_range 4). Qed.
Lemma get_u64_range (attr : nlattr) : is_u64 (mnl_attr_get_u64 attr).
Proof. apply (le_bytes_take_range 8). Qed.

Lemma c_str_is_name (s : list byte) : is_name (c_str s).
Proof.
  unfold is_name. induction s as [|c s IH]; cbn; [tauto |]. destruct (Byte.eqb c x00) eqn:E; [by intros [] |].
  intros [-> | H]; [by rewrite byte_eqb_refl in E | done].
Qed.

Lemma get_str_is_name (attr : nlattr) : is_name (mnl_attr_get_str attr).
Proof. apply c_str_is_name. Qed.

(** The payload is as long as the header says. *)
Lemma payload_length (attr : nlattr) (n : nat) : attr_fits attr -> mnl_attr_get_payload_len attr = Z.of_nat n ->
  length (take n (mnl_attr_get_payload attr)) = n.
Proof.
  intros [Hl Hd] E. rewrite length_take. unfold mnl_attr_get_payload_len, u16, mnl_attr_get_payload in *.
  change MNL_ATTR_HDRLEN with 4 in E. rewrite uw_small in E by lia. lia.
Qed.

(** Keeping an invariant through the two guards of the callbacks. *)
Lemma if_valid_keeps {A} (Q : A -> Prop) (attr : nlattr) (type : mnl_attr_data_type) (f : A -> A) (st : Z * A) :
  Q (snd st) -> (Q (snd st) -> Q (f (snd st))) -> Q (snd (if_valid attr type f st)).
Proof. intros H Hf. unfold if_valid. destruct (mnl_attr_validate attr type); cbn; auto. Qed.

Lemma if_len_keeps {A} (Q : A -> Prop) (attr : nlattr) (n : nat) (f : A -> A) (st : Z * A) : attr_fits attr ->
  Q (snd st) -> (length (take n (mnl_attr_get_payload attr)) = n -> Q (snd st) -> Q (f (snd st))) -> Q (snd (if_len attr n f st)).
Proof.
  intros Hfit H Hf. unfold if_len. destruct (Z.eqb_spec (mnl_attr_get_payload_len attr) (Z.of_nat n)); [| done].
  cbn. apply Hf; [by apply payload_length | done].
Qed.

#[export] Hint Resolve get_u8_range get_u16_range get_u32_range get_u64_range get_str_is_name : awg.

#[local] Arguments memcpy_front : simpl never.
#[local] Arguments sizeof_sockaddr_in : simpl never.
#[local] Arguments sizeof_sockaddr_in6 : simpl never.

(** Unfolds the invariant of a record one of whose fields was written. *)
Ltac sized :=
  repeat match goal with
  | H : sized_allowedip _ |- _ => destruct H
  | H : sized_peer _ |- _ => destruct H
  | H : sized_device _ |- _ => destruct H
  end; constructor; cbn in *; auto with awg;
  repeat match goal with H : Forall _ (_ :: _) |- _ => apply Forall_cons_1 in H as [? H] end;
  repeat apply Forall_cons_2; auto with awg.

(** ** The callbacks *)

Lemma parse_allowedip_sized (attr : nlattr) (st : Z * wgallowedip) : attr_fits attr ->
  sized_allowedip (snd st) -> sized_allowedip (snd (snd (parse_allowedip attr st))).
Proof.
  intros Hfit H. unfold parse_allowedip. cbv zeta. cbn [snd].
  repeat match goal with |- context [if ?c then _ else _] => destruct c eqn:? end; try done;
    try (apply if_valid_keeps; [done |]; intros _; sized).
  - boolz. sized. rewrite memcpy_front_length; [done |]. rewrite (payload_length attr 4) by done. lia.
  - boolz. sized. by apply (payload_length attr 16).
Qed.

Lemma parse_allowedips_sized (attr : nlattr) (st : Z * wgpeer) : attr_fits attr ->
  sized_peer (snd st) -> sized_peer (snd (snd (parse_allowedips attr st))).
Proof.
  intros Hfit H. destruct st as [e p]. unfold parse_allowedips.
  pose proof (parse_nested_inv (fun _ st => sized_allowedip (snd st)) parse_allowedip attr (e, zero_allowedip)) as Hn.
  destruct (mnl_attr_parse_nested _ _ _) as [ret [e' a]]. cbn [snd] in *.
  assert (sized_allowedip a) as Ha.
  { apply Hn; [| done | by constructor]. intros attr' ret' st' Hf' _ Hs. by apply parse_allowedip_sized. }
  assert (sized_peer (p <| allowedips ::= fun l => l ++ [a] |>)).
  { sized. apply Forall_app. split; [done |]. by apply Forall_singleton. }
  repeat case_match; done.
Qed.

Lemma is_u32_flag (p : wgpeer) (f : Z) : sized_peer p -> is_u32 f -> sized_peer (set_peer_flag f p).
Proof. intros H Hf. destruct H. constructor; cbn; try done. by apply is_u32_lor. Qed.

Lemma parse_peer_sized (attr : nlattr) (st : Z * wgpeer) : attr_fits attr ->
  sized_peer (snd st) -> sized_peer (snd (snd (parse_peer attr st))).
Proof.
  intros Hfit H. unfold parse_peer. cbv zeta.
  repeat match goal with |- context [if mnl_attr_get_type attr =? ?c then _ else _] => destruct (mnl_attr_get_type attr =? c) end;
    cbn [snd]; try done;
    try (apply if_valid_keeps; [done |]; intros _; repeat case_match; try (apply is_u32_flag; [| by cbv]); try done; sized; fail);
    try (apply if_len_keeps; [done | done |]; intros Hl _; repeat case_match; try (apply is_u32_flag; [| by cbv]); try done; sized; fail).
  - repeat case_match; try done; boolz; cbn [snd]; sized; (rewrite memcpy_front_length; [done |]).
    + rewrite (payload_length attr sizeof_sockaddr_in) by done. unfold sizeof_sockaddr_in, sizeof_sockaddr_in6 in *. lia.
    + rewrite (payload_length attr sizeof_sockaddr_in6) by done. unfold sizeof_sockaddr_in6 in *. lia.
  - apply if_valid_keeps; [done |]. intros _. case_match; [| done].
    assert (sized_peer (set_peer_flag WGPEER_HAS_AWG (snd st))) as Hs by (by apply is_u32_flag; [| by cbv]). sized.
  - apply (parse_nested_inv (fun _ st => sized_peer (snd st)) parse_allowedips attr st); [| done | done].
    intros. by apply parse_allowedips_sized.
Qed.

(** A peer without a public key is an error, so the verdict matters. *)
Lemma parse_peers_sized (attr : nlattr) (st : Z * wgdevice) : attr_fits attr ->
  sized_device (snd st) -> 0 <= fst (parse_peers attr st) -> sized_device (snd (snd (parse_peers attr st))).
Proof.
  intros Hfit H. destruct st as [e d]. unfold parse_peers.
  pose proof (parse_nested_inv (fun ret st => ret <> 0 /\ sized_peer (snd st)) parse_peer attr (e, zero_peer)) as Hn.
  destruct (mnl_attr_parse_nested _ _ _) as [ret [e' p]]. cbn [fst snd] in *.
  assert (ret <> 0 /\ sized_peer p) as [Hret Hp].
  { apply Hn; [| done | by split; [| by constructor]]. intros attr' ret' st' Hf' _ [_ Hs].
    split; [| by apply parse_peer_sized]. unfold parse_peer. cbv zeta.
    repeat match goal with |- context [if mnl_attr_get_type attr' =? ?c then _ else _] => destruct (mnl_attr_get_type attr' =? c) end; try done.
    apply (parse_nested_inv (fun ret _ => ret <> 0) parse_allowedips attr' st'); [| done | done].
    intros attr2 ret2 [e2 p2] Hf2 _ Hr2. unfold parse_allowedips.
    pose proof (parse_nested_inv (fun ret _ => ret <> 0) parse_allowedip attr2 (e2, zero_allowedip)) as Hn2.
    destruct (mnl_attr_parse_nested _ _ _) as [ret3 [e3 a3]]. cbn [fst] in Hn2. repeat case_match; cbn [fst]; try done.
    apply Hn2; done. }
  destruct (Z.eqb_spec ret 0); [done |]. destruct (negb _) eqn:Eflag; [done |]. intros _. cbn [snd].
  apply negb_false_iff in Eflag. sized. apply Forall_app. split; [done |]. by apply Forall_singleton.
Qed.

(** Storing a value in its range keeps the device; so does setting a flag. *)
Lemma sized_dev_flag (d : wgdevice) (f : Z) : sized_device d -> is_u32 f -> sized_device (set_dev_flag f d).
Proof. intros H Hf. destruct H. constructor; cbn; try done. by apply is_u32_lor. Qed.

Lemma print_u_is_name (n : Z) : 0 <= n -> is_name (print_u n).
Proof.
  intros Hn Hin. destruct (print_u_digits n Hn) as [_ Hd]. rewrite List.Forall_forall in Hd. apply Hd in Hin.
  assert (b2z x00 = 0) as E by reflexivity. rewrite E in Hin. lia.
Qed.

(** An update of a number or of a string of the device. *)
Definition keeps {T} (ok : T -> Prop) (set : T -> wgdevice -> wgdevice) : Prop :=
  forall v d, ok v -> sized_device d -> sized_device (set v d).

Lemma get_header_sized (attr : nlattr) (set : list byte -> wgdevice -> wgdevice) (f : Z) (st : Z * wgdevice) :
  keeps is_name set -> is_u32 f -> sized_device (snd st) -> sized_device (snd (GET_MAGIC_HEADER attr set f st)).
Proof.
  intros Hset Hf H. unfold GET_MAGIC_HEADER. destruct (mnl_attr_validate attr MNL_TYPE_U32).
  - apply if_valid_keeps; [done |]. intros _. apply sized_dev_flag; [| done]. apply Hset; [apply get_str_is_name | done].
  - cbn [snd]. apply sized_dev_flag; [| done]. apply Hset; [| done]. apply print_u_is_name.
    pose proof (get_u32_range attr) as [? _]. done.
Qed.

Lemma parse_device_sized (attr : nlattr) (st : Z * wgdevice) : attr_fits attr ->
  sized_device (snd st) -> 0 <= fst (parse_device attr st) -> sized_device (snd (snd (parse_device attr st))).
Proof.
  intros Hfit H. unfold parse_device. cbv zeta.
  repeat match goal with |- context [if mnl_attr_get_type attr =? ?c then _ else _] => destruct (mnl_attr_get_type attr =? c) end;
    cbn [fst snd]; intros Hret; try done;
    try (apply if_valid_keeps; [done |]; intros _; try (apply sized_dev_flag; [| by cbv]); sized; fail);
    try (apply if_len_keeps; [done | done |]; intros Hl _; try (apply sized_dev_flag; [| by cbv]); sized; fail);
    try (apply get_header_sized; [| by cbv | done]; intros v d Hv Hd; sized; fail).
  - apply if_valid_keeps; [done |]. intros _. unfold set_name. sized. rewrite length_take. unfold IFNAMSIZ in *. lia.
  - revert Hret. apply (parse_nested_inv (fun ret st => 0 <= ret -> sized_device (snd st)) parse_peers attr st); [| done | done].
    intros attr' ret' st' Hf' Hr' Hs. apply parse_peers_sized; [done |]. apply Hs. lia.
  - apply if_valid_keeps; [done |]. intros _. apply sized_dev_flag; [| by cbv]. sized. apply get_str_is_name.
  - apply if_valid_keeps; [done |]. intros _. apply sized_dev_flag; [| by cbv]. sized. apply get_str_is_name.
  - apply if_valid_keeps; [done |]. intros _. apply sized_dev_flag; [| by cbv]. sized. apply get_str_is_name.
  - apply if_valid_keeps; [done |]. intros _. apply sized_dev_flag; [| by cbv]. sized. apply get_str_is_name.
  - apply if_valid_keeps; [done |]. intros _. apply sized_dev_flag; [| by cbv]. sized. apply get_str_is_name.
Qed.

Lemma read_device_cb_sized (nlh : list byte) (st : Z * wgdevice) : msg_fits nlh -> sized_device (snd st) ->
  0 <= fst (read_device_cb nlh st) -> sized_device (snd (snd (read_device_cb nlh st))).
Proof.
  intros Hfit H. unfold read_device_cb.
  apply (attr_parse_inv (fun ret st => 0 <= ret -> sized_device (snd st)) nlh sizeof_genlmsghdr parse_device st);
    [| done | done | done].
  intros attr ret st' Hf Hr Hs. apply parse_device_sized; [done |]. apply Hs. lia.
Qed.

(** ** Neighbours with the same key are joined *)

Fixpoint apart (ps : list wgpeer) : Prop :=
  match ps with
  | p :: (q :: _) as ps' => peer_public_key p <> peer_public_key q /\ apart ps'
  | _ => True
  end.

Definition sized_keyed (p : wgpeer) : Prop := sized_peer p /\ has_flag (peer_flags p) WGPEER_HAS_PUBLIC_KEY = true.

Lemma coalesce_from_ok (next : list wgpeer) (peer : wgpeer) (last_null : bool) (l : list wgpeer) :
  coalesce_from peer last_null next = Some l -> sized_keyed peer -> Forall sized_keyed next ->
  exists p l', l = p :: l' /\ peer_public_key p = peer_public_key peer /\ Forall sized_keyed l /\ apart l.
Proof.
  revert peer last_null l. induction next as [|q next IH]; intros peer last_null l E Hp Hnext; cbn [coalesce_from] in E.
  { injection E as <-. exists peer, []. split_and!; try done. by apply Forall_singleton. }
  apply Forall_cons in Hnext as [[Hq Hqf] Hnext].
  assert (forall ips, Forall sized_allowedip ips -> sized_keyed (peer <| allowedips := ips |>)) as Hips.
  { intros ips Hi. destruct Hp as [Hs Hf]. split; [| done]. destruct Hs. by constructor. }
  destruct (negb _) eqn:Ekey.
  - destruct (coalesce_from q _ next) as [l1 |] eqn:E1; [| done]. injection E as <-.
    apply IH in E1 as (p1 & l1' & -> & Hk & Hs & Ha); [| done | done]. exists peer, (p1 :: l1').
    split_and!; [done | done | by apply Forall_cons |]. split; [| done]. rewrite Hk. boolz. by rewrite <- memcmp_eq.
  - destruct (_ =? 0)%nat; [| destruct last_null; [done |]]; apply IH in E; try done; try (by destruct E as (p1 & l1 & ? & ? & ?); exists p1, l1).
    + apply Hips. by destruct Hq.
    + apply (Hips (allowedips peer ++ allowedips q)). destruct Hp as [Hp _], Hp, Hq. by apply Forall_app.
Qed.

Lemma coalesce_peers_ok (d d' : wgdevice) : coalesce_peers d = Some d' -> sized_device d ->
  sized_device d' /\ apart (peers d').
Proof.
  unfold coalesce_peers. intros E H. destruct (peers d) as [|p next] eqn:Ep.
  { injection E as <-. rewrite Ep. done. }
  destruct (coalesce_from _ _ _) as [l |] eqn:El; [| done]. injection E as <-. pose proof (sized_peers _ H) as Hps. rewrite Ep in Hps.
  apply Forall_cons in Hps as [Hp Hnext]. apply coalesce_from_ok in El as (p1 & l1 & -> & _ & Hs & Ha); [| done | done].
  split; [| done]. sized.
Qed.

(** ** [kernel_get_device] *)

Lemma zero_device_sized : sized_device zero_device.
Proof.
  constructor; try done; [cbn; unfold IFNAMSIZ; lia | by repeat apply Forall_cons_2 |].
  repeat apply Forall_cons_2; try (by intros []). by apply Forall_nil.
Qed.

Section Get.
Context `{K : NetlinkKernel} `{!NetlinkKernelLaws K} (fuel : nat).

Lemma get_try_ok (k : kstate) (iface : list byte) k' d : get_try fuel k iface = Returns (k', Got d) ->
  sized_device d /\ apart (peers d).
Proof.
  unfold get_try. intros E. destruct (mnlg_socket_open fuel k WG_GENL_NAME) as [[k1 [e | nlg]] | |]; cbn [obind] in E; try done.
  destruct (nl_sendto _ _) as [k2 [e |]]; [done |].
  destruct (mnlg_socket_recv_run _ _ _ _ _) as [[[k3 err] [errno raw]] | |] eqn:Er; cbn [obind] in E; try done.
  destruct (Z.ltb_spec err 0); [done |].
  apply (recv_run_inv sized_device read_device_cb) in Er; [| exact read_device_cb_sized | exact zero_device_sized | done].
  destruct (coalesce_peers raw) as [d' |] eqn:Ec; [| done]. injection E as <- <-. by eapply coalesce_peers_ok.
Qed.

Lemma get_loop_ok (tries : nat) (k : kstate) (iface : list byte) k' d : get_loop fuel tries k iface = Returns (k', inr d) ->
  sized_device d /\ apart (peers d).
Proof.
  revert k. induction tries as [|tries IH]; intros k E; [done |]. cbn [get_loop] in E.
  destruct (get_try fuel k iface) as [[k1 [r | r | d']] | |] eqn:Et; cbn [obind] in E; try done.
  - destruct (r =? - EINTR); [by apply IH in E | done].
  - injection E as <- <-. by apply get_try_ok in Et.
Qed.

(** C22: What [kernel_get_device] returns is a device, whatever the kernel sends in its
    datagrams: keys of 32 bytes, addresses of 16 and 28, every integer within its field,
    strings without a NUL, a name that fits its array, a public key in every peer, and no two
    neighbours with the same key, since fragments are joined. *)
Theorem kernel_get_device_sized (tries : nat) (k : kstate) (iface : list byte) k' d :
  kernel_get_device fuel tries k iface = Returns (k', inr d) -> sized_device d /\ apart (peers d).
Proof.
  unfold kernel_get_device. destruct (_ <=? _)%nat; [done |]. apply get_loop_ok.
Qed.

(** One dump after the other is interrupted, [n] in all. *)
Inductive interrupted (iface : list byte) : nat -> kstate -> kstate -> Prop :=
| interrupted_0 k : interrupted iface 0 k k
| interrupted_S n k k1 k' : get_try fuel k iface = Returns (k1, Failed (- EINTR)) ->
    interrupted iface n k1 k' -> interrupted iface (S n) k k'.

(** C27: [kernel_get_device] gives up on no interrupted dump: it reads again until one was
    not interrupted, and returns what that one gives, the device or the error; a name that
    does not fit is refused at once. *)
Theorem kernel_get_device_retries (n tries : nat) (k k1 k' : kstate) (iface : list byte) (res : try_result) :
  interrupted iface n k k1 -> get_try fuel k1 iface = Returns (k', res) -> res <> Failed (- EINTR) -> (n < tries)%nat ->
  kernel_get_device fuel tries k iface
  = if (IFNAMSIZ <=? length iface)%nat then Returns (k, inl (- ENAMETOOLONG))
    else Returns (k', match res with NoSocket r | Failed r => inl r | Got d => inr d end).
Proof.
  intros Hint Hres Hne Htries. unfold kernel_get_device. destruct (_ <=? _)%nat; [done |].
  revert tries Htries. induction Hint as [k | n k k2 k3 Et _ IH]; intros tries Htries; (destruct tries as [|tries]; [lia |]); cbn [get_loop].
  - rewrite Hres. cbn [obind]. destruct res as [r | r | d]; [done | | done].
    destruct (Z.eqb_spec r (- EINTR)) as [-> |]; done.
  - rewrite Et. cbn [obind]. rewrite Z.eqb_refl. apply IH; [done | lia].
Qed.

End Get.

(** ** A dump that is interrupted twice *)

(** A peer whose first allowed IP has no family, in two fragments; the port has a wrong size. *)
Definition odd_dump : list byte :=
  let key := (WGPEER_A_PUBLIC_KEY, repeat x05 32) in
  genlmsghdr WG_CMD_GET_DEVICE 2
  ++ tlvs [(WGDEVICE_A_IFNAME, text "awg1" ++ [x00]); (WGDEVICE_A_LISTEN_PORT, [x01; x02; x03]);
           (WGDEVICE_A_H1, text "77-99" ++ [x00]);
           nest WGDEVICE_A_PEERS
             [nest 0 [key; nest WGPEER_A_ALLOWEDIPS [nest 0 [(WGALLOWEDIP_A_CIDR_MASK, [xff])]]];
              nest 0 [key; nest WGPEER_A_ALLOWEDIPS [ip_item (sample_ip 7)]]]].

Definition interrupting : nat -> list byte -> list (list byte) := fun n msg =>
  if nlmsg_type msg =? GENL_ID_CTRL then acking n msg
  else if (n <? 4)%nat then [nlmsg 29 (Z.lor NLM_F_MULTI NLM_F_DUMP_INTR) (nlmsg_seq msg) odd_dump]
  else [dump_msg 29 (nlmsg_seq msg) odd_dump; done_msg (nlmsg_seq msg)].

Definition odd_device : wgdevice :=
  match coalesce_peers (snd (snd (read_device_cb (dump_msg 29 0 odd_dump) (0, zero_device)))) with
  | Some d => d
  | None => zero_device
  end.

Lemma kernel_get_device_sized_witness :
  length (peers odd_device) = 1%nat /\ listen_port odd_device = 0 /\ sized_device odd_device /\ apart (peers odd_device).
Proof.
  split; [vm_compute; reflexivity |]. split; [vm_compute; reflexivity |].
  apply (kernel_get_device_sized (K := scripted interrupting) 4 3 (0%nat, []) (text "awg1") (6%nat, []) odd_device).
  vm_compute. reflexivity.
Defined.

Lemma kernel_get_device_retries_witness :
  @kernel_get_device (scripted interrupting) 4 3 (0%nat, []) (text "awg1") = Returns ((6%nat, []), inr odd_device).
Proof.
  apply (kernel_get_device_retries (K := scripted interrupting) 4 2 3 (0%nat, []) (4%nat, []) (6%nat, []) (text "awg1") (Got odd_device)).
  - apply (interrupted_S (K := scripted interrupting) 4 (text "awg1") 1 (0%nat, []) (2%nat, [])); [vm_compute; reflexivity |].
    apply (interrupted_S (K := scripted interrupting) 4 (text "awg1") 0 (2%nat, []) (4%nat, [])); [vm_compute; reflexivity |].
    constructor.
  - vm_compute. reflexivity.
  - discriminate.
  - lia.
Defined.

(** ** Two surprises *)

(** A magic header of three characters comes back as a number. *)
Lemma three_character_header :
  header_image (H := lp64_x86) 2 (Some (text "5-9")) = text "3747125".
Proof. vm_compute. reflexivity. Qed.

(** A fragment without allowed IPs between two that have some makes [coalesce_peers] follow a
    NULL pointer. *)
Lemma coalesce_peers_null (d : wgdevice) (p : wgpeer) (a b : wgallowedip) :
  coalesce_peers (d <| peers := [p <| allowedips := [a] |>; p <| allowedips := [] |>; p <| allowedips := [b] |>] |>) = None.
Proof. unfold coalesce_peers. cbn. by rewrite !memcmp_refl. Qed.

(** A peer with a malformed allowed IP is kept, with what was read of the allowed IP. *)
Lemma malformed_allowedip_kept :
  let attr := attr_at (tlv (Z.lor NLA_F_NESTED 0)
                (tlvs [(WGPEER_A_PUBLIC_KEY, repeat x05 32);
                       nest WGPEER_A_ALLOWEDIPS [nest 0 [(WGALLOWEDIP_A_FAMILY, bytes_le 2 AF_INET); (WGALLOWEDIP_A_CIDR_MASK, [x63])]]])) in
  let '(ret, (_, d)) := parse_peers attr (0, zero_device) in
  ret = MNL_CB_OK /\ map (fun p => map cidr (allowedips p)) (peers d) = [[99]].
Proof. vm_compute. split; reflexivity. Qed.
