(* ===== verification/IpcUnix.v ===== *)
(** * The back ends of Linux together (src/ipc-uapi-unix.h, src/ipc.c)

    The sockets of userspace daemons, one for each interface in a directory, and the choice
    between a daemon and the kernel.  The file system and the sockets are an interface,
    [UnixSockets]; a connection to a daemon is the function from what is written to what is
    read that [Uapi] uses. *)

From S2P Require Import Prelude CString Containers NetLib Ipc Uapi Netlink IpcLinux.
#[local] Open Scope Z_scope.

Definition ECONNREFUSED : Z := 111.
Definition EBADF : Z := 9.

(** [stat] ([st_mode] or [inl errno]), [socket] ([Some errno] when it fails), [connect]
    ([inl errno] or the connection), [unlink], and the names [opendir] and [readdir] find
    ([inl errno] when the directory cannot be opened). *)
Class UnixSockets := {
  ustate : Type;
  us_stat : ustate -> list byte -> Z + Z;
  us_socket : ustate -> option Z;
  us_connect : ustate -> list byte -> ustate * (Z + (list byte -> list byte));
  us_unlink : ustate -> list byte -> ustate * option Z;
  us_readdir : ustate -> list byte -> Z + list (list byte);
}.

(** [S_ISSOCK]. *)
Definition S_ISSOCK (mode : Z) : bool := Z.land mode 0xf000 =? 0xc000.

Definition SOCK_SUFFIX : list byte := text ".sock".

Section Unix.
(** A constant of the build. *)
Context (RUNSTATEDIR : list byte).

Definition SOCK_PATH : list byte := RUNSTATEDIR ++ text "/amneziawg/".

(** [sun_path], which holds 108 bytes: [snprintf] cuts a longer name. *)
Definition sun_path (iface : list byte) : list byte := take 107 (SOCK_PATH ++ iface ++ SOCK_SUFFIX).

Context `{UnixSockets}.

(** The connection, or [errno]. *)
Definition userspace_interface_file (u : ustate) (iface : list byte) :
    ustate * (Z + (list byte -> list byte)) :=
  if has_byte x2f iface then (u, inl EINVAL)
  else
    let path := sun_path iface in
    match us_stat u path with
    | inl errno => (u, inl errno)
    | inr mode =>
        if negb (S_ISSOCK mode) then (u, inl EBADF)
        else
          match us_socket u with
          | Some errno => (u, inl errno)
          | None =>
              match us_connect u path with
              | (u, inl errno) =>
                  if errno =? ECONNREFUSED then
                    let '(u, failed) := us_unlink u path in
                    (u, inl (match failed with Some errno => errno | None => errno end))
                  else (u, inl errno)
              | (u, inr f) => (u, inr f)
              end
          end
    end.

Definition userspace_has_wireguard_interface (u : ustate) (iface : list byte) : ustate * bool :=
  if has_byte x2f iface then (u, false)
  else
    let path := sun_path iface in
    match us_stat u path with
    | inl _ => (u, false)
    | inr mode =>
        if negb (S_ISSOCK mode) then (u, false)
        else
          match us_socket u with
          | Some _ => (u, false)
          | None =>
              match us_connect u path with
              | (u, inl errno) =>
                  if errno =? ECONNREFUSED then (fst (us_unlink u path), false) else (u, true)
              | (u, inr _) => (u, true)
              end
          end
    end.

Section List.
Context (fresh : nat -> byte).

(** The loop over the entries of the directory. *)
Fixpoint scan_entries (u : ustate) (entries : list (list byte)) (list : string_list) : ustate * string_list :=
  match entries with
  | [] => (u, list)
  | d_name :: entries =>
      let len := length d_name in
      if (len <=? length SOCK_SUFFIX)%nat then scan_entries u entries list
      else
        let at_end := (len - length SOCK_SUFFIX)%nat in
        if negb (beq (drop at_end d_name) SOCK_SUFFIX) then scan_entries u entries list
        else
          let name := take at_end d_name in
          let '(u, has) := userspace_has_wireguard_interface u name in
          if negb has then scan_entries u entries list
          else scan_entries u entries (string_list_add fresh list name)
  end.

Definition userspace_get_wireguard_interfaces (u : ustate) (list : string_list) : ustate * Z * string_list :=
  match us_readdir u SOCK_PATH with
  | inl errno => (u, if errno =? ENOENT then 0 else - errno, list)
  | inr entries => let '(u, list) := scan_entries u entries list in (u, 0, list)
  end.

Context `{NetlinkKernel}.

(** [NULL] with [errno], or the buffer. *)
Definition ipc_list_devices (turns : nat) (u : ustate) (k : kstate) :
    outcome (ustate * kstate * (Z + list byte)) :=
  obind (kernel_get_wireguard_interfaces fresh turns k empty_list) (fun '(k, ret, list) =>
    if ret <? 0 then Returns (u, k, inl (- ret))
    else
      let '(u, ret, list) := userspace_get_wireguard_interfaces u list in
      if ret <? 0 then Returns (u, k, inl (- ret))
      else Returns (u, k, inr (if (cap list =? 0)%nat then [x00] else buffer list))).

End List.

(** ** The choice of a back end *)

Context `{NetLib} `{Platform} (curve25519_generate_public : list byte -> list byte) (uninit : nat -> byte) (SOCKET_BUFFER_SIZE : Z) `{NetlinkKernel} (fuel : nat).
(** What [errno] holds when a line of the daemon's answer is refused. *)
Context (errno : Z).

Definition ipc_get_device (tries : nat) (u : ustate) (k : kstate) (iface : list byte) :
    outcome (ustate * kstate * (Z + wgdevice)) :=
  let '(u, has) := userspace_has_wireguard_interface u iface in
  if has then
    let '(u, f) := userspace_interface_file u iface in
    let '(ret, dev) := match f with
                       | inl errno => userspace_get_device curve25519_generate_public None errno iface
                       | inr answer => userspace_get_device curve25519_generate_public (Some answer) errno iface
                       end in
    Returns (u, k, match dev with Some dev => inr dev | None => inl ret end)
  else obind (kernel_get_device fuel tries k iface) (fun '(k, res) => Returns (u, k, res)).

(** The return value and what a daemon was sent. *)
Definition ipc_set_device (turns : nat) (u : ustate) (k : kstate) (dev : wgdevice) :
    outcome (ustate * kstate * Z * list byte) :=
  let '(u, has) := userspace_has_wireguard_interface u (name dev) in
  if has then
    let '(u, f) := userspace_interface_file u (name dev) in
    let '(ret, sent) := match f with
                        | inl errno => userspace_set_device None errno dev
                        | inr answer => userspace_set_device (Some answer) errno dev
                        end in
    Returns (u, k, ret, sent)
  else obind (kernel_set_device uninit SOCKET_BUFFER_SIZE fuel turns k dev) (fun '(k, ret) => Returns (u, k, ret, [])).

End Unix.
