(* ===== verification/IpcUnixOk.v ===== *)
(** * The list of interfaces on Linux (src/ipc-linux.h, src/ipc-uapi-unix.h, src/ipc.c)

    [ipc_list_devices] collects the tunnels of a link dump and the daemons that listen on a
    socket; the loops of the commands then find exactly these names.  A link is a sequence of
    attributes, [link_attr], of which the kernel sends many more than are looked at. *)

From S2P Require Import Prelude CString Containers NetLib Ipc Uapi Netlink NetlinkOk IpcLinux IpcLinuxSet IpcLinuxGet IpcUnix.
#[local] Open Scope Z_scope.

(** ** Links *)

Inductive info_attr := InfoKind (kind : list byte) | InfoOther (type : Z) (data : list byte).
Inductive link_attr := LinkName (ifname : list byte) | LinkInfo (info : list info_attr) | LinkOther (type : Z) (data : list byte).

Definition info_item (a : info_attr) : Z * list byte :=
  match a with
  | InfoKind kind => (IFLA_INFO_KIND, kind ++ [x00])
  | InfoOther type data => (type, data)
  end.

Definition link_item (a : link_attr) : Z * list byte :=
  match a with
  | LinkName ifname => (IFLA_IFNAME, ifname ++ [x00])
  | LinkInfo info => (IFLA_LINKINFO, tlvs (map info_item info))
  | LinkOther type data => (type, data)
  end.

Definition attr_type (type : Z) : Z := Z.land (u16 type) NLA_TYPE_MASK.

(** Strings are strings, lengths fit, and what is called other is. *)
Definition wf_info (a : info_attr) : Prop :=
  short (snd (info_item a)) /\
  match a with
  | InfoKind kind => is_name kind
  | InfoOther type _ => attr_type type <> IFLA_INFO_KIND
  end.

Definition wf_link_attr (a : link_attr) : Prop :=
  short (snd (link_item a)) /\
  match a with
  | LinkName ifname => is_name ifname
  | LinkInfo info => Forall wf_info info
  | LinkOther type _ => attr_type type <> IFLA_LINKINFO /\ attr_type type <> IFLA_IFNAME
  end.

(** A link: the bytes of its [struct ifinfomsg] and its attributes. *)
Definition link : Type := list byte * list link_attr.

Definition link_body (l : link) : list byte := fst l ++ tlvs (map link_item (snd l)).

Definition wf_link (l : link) : Prop :=
  Z.of_nat (length (fst l)) = sizeof_ifinfomsg /\ Forall wf_link_attr (snd l) /\ total_len (link_body l) < 2 ^ 16.

(** What the attributes say: the last name, and whether some kind is that of a tunnel. *)
Definition info_is_tunnel (a : info_attr) : bool :=
  match a with InfoKind kind => strcmp_eq WG_GENL_NAME kind | InfoOther _ _ => false end.

Definition see_link_attr (i : interface) (a : link_attr) : interface :=
  match a with
  | LinkName ifname => Interface (Some ifname) (is_wireguard i)
  | LinkInfo info => Interface (interface_name i) (is_wireguard i || existsb info_is_tunnel info)
  | LinkOther _ _ => i
  end.

Definition link_interface (l : link) : interface := fold_left see_link_attr (snd l) (Interface None false).

(** The names of the tunnels among the links. *)
Definition tunnel_name (l : link) : list (list byte) :=
  match link_interface l with Interface (Some ifname) true => [ifname] | _ => [] end.
Definition tunnel_names (links : list link) : list (list byte) := concat (map tunnel_name links).

(** *** Reading a link *)

(** What a callback makes of an attribute. *)
Definition info_read (a : info_attr) : (Z * list byte) * (interface -> interface) :=
  (info_item a, fun i => Interface (interface_name i) (is_wireguard i || info_is_tunnel a)).
Definition link_read (a : link_attr) : (Z * list byte) * (interface -> interface) :=
  (link_item a, fun i => see_link_attr i a).

Lemma info_reads (a : info_attr) : wf_info a ->
  reads (fun i => i) parse_linkinfo (fst (info_read a)) (snd (info_read a)).
Proof.
  intros [Hs Ha]. split; [done |]. intros rest i. eexists. split; [reflexivity |]. cbn [fst snd info_read]. rewrite view_type.
  destruct a as [kind | type data]; cbn [info_item info_is_tunnel fst snd] in *.
  - rewrite view_str by done. change (Z.land (u16 IFLA_INFO_KIND) NLA_TYPE_MASK =? IFLA_INFO_KIND) with true.
    destruct i as [n w]. cbn [andb interface_name is_wireguard]. destruct (strcmp_eq _ _); [by rewrite orb_true_r | by rewrite orb_false_r].
  - fold (attr_type type). rewrite (proj2 (Z.eqb_neq _ _) Ha). destruct i as [n w]. cbn. by rewrite orb_false_r.
Qed.

Lemma read_all_info (info : list info_attr) (i : interface) :
  read_all (map info_read info) i
  = Interface (interface_name i) (is_wireguard i || existsb info_is_tunnel info).
Proof.
  unfold read_all. revert i. induction info as [|a info IH]; intros [n w]; cbn [map fold_left existsb snd info_read].
  - by rewrite orb_false_r.
  - rewrite IH. cbn [interface_name is_wireguard]. by rewrite orb_assoc.
Qed.

Lemma link_reads (a : link_attr) : wf_link_attr a ->
  reads (fun i => i) parse_infomsg (fst (link_read a)) (snd (link_read a)).
Proof.
  intros [Hs Ha]. split; [done |]. intros rest i. unfold parse_infomsg. cbn [fst snd link_read]. rewrite view_type.
  destruct a as [ifname | info | type data]; cbn [link_item see_link_attr fst snd] in *.
  - eexists. split; [| reflexivity]. by rewrite view_str.
  - change (Z.land (u16 IFLA_LINKINFO) NLA_TYPE_MASK =? IFLA_LINKINFO) with true. cbv match.
    rewrite <- read_all_info.
    assert (map info_item info = map fst (map info_read info)) as E by by rewrite map_map.
    rewrite E in *. apply (parse_nested_reads (fun i => i)); [| done].
    apply Forall_map. eapply Forall_impl; [exact Ha |]. apply info_reads.
  - destruct Ha as [H1 H2]. fold (attr_type type). rewrite (proj2 (Z.eqb_neq _ _) H1), (proj2 (Z.eqb_neq _ _) H2).
    by eexists.
Qed.

Definition RTM_NEWLINK : Z := 16.
Definition link_msg (seq : Z) (l : link) : list byte := nlmsg RTM_NEWLINK NLM_F_MULTI seq (link_body l).

Lemma read_link (fresh : nat -> byte) (seq : Z) (l : link) (rest : list byte) (errno : Z) (sl : string_list) : wf_link l ->
  read_devices_cb fresh (link_msg seq l ++ rest) (errno, sl)
  = (MNL_CB_OK + 1, (errno, fold_left (string_list_add fresh) (tunnel_name l) sl)).
Proof.
  intros (Hh & Hattrs & Hlen). unfold read_devices_cb, link_msg, link_body in *.
  set (rs := map link_read (snd l)).
  assert (map link_item (snd l) = map fst rs) as E by (unfold rs; by rewrite map_map). rewrite E in *.
  destruct (attr_parse_reads (fun i => i) parse_infomsg rs RTM_NEWLINK NLM_F_MULTI seq sizeof_ifinfomsg (fst l) rest
              (Interface None false)) as (i & -> & Hi); [| done | done | lia |].
  { subst rs. apply Forall_map. eapply Forall_impl; [exact Hattrs |]. apply link_reads. }
  destruct (nlmsg_fields RTM_NEWLINK NLM_F_MULTI seq (fst l ++ tlvs (map fst rs)) rest ltac:(lia)) as (_ & -> & _).
  assert (i = link_interface l) as ->.
  { rewrite Hi. unfold read_all, link_interface, rs. generalize (Interface None false). clear.
    induction (snd l) as [|a attrs IH]; intros i; [done |]. cbn [map fold_left]. apply IH. }
  unfold tunnel_name. destruct (link_interface l) as [[ifname |] []]; done.
Qed.

(** *** A dump of links *)

Section Links.
Context (fresh : nat -> byte).

Abbreviation adds := (fold_left (string_list_add fresh)).

Lemma tunnel_names_cons (l : link) (links : list link) (sl : string_list) :
  adds (tunnel_names (l :: links)) sl = adds (tunnel_names links) (adds (tunnel_name l) sl).
Proof. unfold tunnel_names. cbn [map concat]. apply fold_left_app. Qed.

Lemma link_body_aligned (l : link) : wf_link l -> aligned (link_body l).
Proof. intros (Hh & _ & _). apply aligned_app; [unfold aligned; by rewrite Hh | apply tlvs_aligned]. Qed.

(** A datagram of links. *)
Definition links_datagram (seq : Z) (links : list link) : list byte := concat (map (link_msg seq) links).

Lemma cb_run_links (links : list link) (fuel : nat) (seq portid ret errno : Z) (sl : string_list) :
  0 <= seq < 2 ^ 32 -> Forall wf_link links -> Z.of_nat (length (links_datagram seq links)) < 2 ^ 31 -> (length links < fuel)%nat ->
  cb_run fuel (cb_for (Some (read_devices_cb fresh)) (fun _ => None) 0) seq portid (links_datagram seq links)
    (Z.of_nat (length (links_datagram seq links))) ret (errno, sl)
  = (if (length links =? 0)%nat then ret else MNL_CB_OK + 1, (errno, adds (tunnel_names links) sl)).
Proof.
  intros Hseq Hwf. revert fuel ret sl. induction Hwf as [|l links Hl _ IH]; intros fuel ret sl Hlen Hf;
    (destruct fuel as [|fuel]; [cbn in Hf; lia |]); [done |].
  unfold links_datagram in *. cbn [map concat] in *. fold (links_datagram seq links) in *.
  rewrite length_app, Nat2Z.inj_add in Hlen. unfold link_msg at 1 in Hlen. rewrite nlmsg_length in Hlen. unfold link_msg at 1 2.
  rewrite (cb_run_first _ _ (read_devices_cb fresh)); try done; [| by apply link_body_aligned].
  fold (link_msg seq l). rewrite read_link by done. change (MNL_CB_OK + 1 <=? MNL_CB_STOP) with false. cbv match.
  rewrite IH by (cbn in Hf; unfold total_len in Hlen; change MNL_NLMSG_HDRLEN with 16 in Hlen; lia).
  rewrite tunnel_names_cons. by destruct links.
Qed.

Context `{K : NetlinkKernel}.

(** Datagrams of links, then the end of the dump. *)
Lemma interfaces_loop_links (dump : list (list link)) (turns : nat) (k k' : kstate) (seq portid : Z) (sl : string_list) :
  0 <= seq < 2 ^ 32 ->
  Forall (fun links => links <> [] /\ Forall wf_link links /\ Z.of_nat (length (links_datagram seq links)) < 2 ^ 31) dump ->
  delivers k (map (links_datagram seq) dump ++ [done_msg seq]) k' -> (length dump < turns)%nat ->
  interfaces_loop fresh turns k seq portid sl = Returns (k', 0, adds (tunnel_names (concat dump)) sl).
Proof.
  intros Hseq Hwf. revert turns k sl. induction Hwf as [|links dump (Hne & Hl & Hlen) _ IH]; intros turns k sl Hdel Ht;
    (destruct turns as [|turns]; [cbn in Ht; lia |]); cbn [map app concat] in *;
    inversion Hdel as [|? k1 ? ? ? Hrecv Hrest]; subst; cbn [interfaces_loop]; rewrite Hrecv; unfold mnl_cb_run.
  - inversion Hrest; subst. unfold done_msg. rewrite <- (app_nil_r (nlmsg NLMSG_DONE NLM_F_MULTI seq (bytes_le 4 0))).
    rewrite (cb_run_first _ _ mnl_cb_stop); done.
  - rewrite cb_run_links; try done.
    + destruct links; [done |]. cbn [length Nat.eqb]. change ((MNL_CB_OK + 1 <? 0) && negb (0 =? EINTR)) with false.
      rewrite Z.eqb_refl. rewrite IH; [| done | cbn in Ht; lia].
      unfold tunnel_names. by rewrite map_app, concat_app, fold_left_app.
    + clear. unfold links_datagram. induction links as [|l links IH]; cbn [map concat length]; [lia |]. rewrite length_app.
      assert (1 <= length (link_msg seq l))%nat; [| lia]. pose proof (nlmsg_length RTM_NEWLINK NLM_F_MULTI seq (link_body l)) as H.
      unfold link_msg. unfold total_len in H. change MNL_NLMSG_HDRLEN with 16 in H. lia.
Qed.

End Links.

(** ** Sockets *)

(** Looking at one socket does not change what is seen of the others, and every descriptor is
    closed again. *)
Class UnixSocketsLaws (U : UnixSockets) := {
  connect_stat : forall u p q, p <> q -> us_stat (fst (us_connect u p)) q = us_stat u q;
  connect_other : forall u p q, p <> q -> snd (us_connect (fst (us_connect u p)) q) = snd (us_connect u q);
  connect_socket : forall u p, us_socket (fst (us_connect u p)) = us_socket u;
  unlink_stat : forall u p q, p <> q -> us_stat (fst (us_unlink u p)) q = us_stat u q;
  unlink_other : forall u p q, p <> q -> snd (us_connect (fst (us_unlink u p)) q) = snd (us_connect u q);
  unlink_socket : forall u p, us_socket (fst (us_unlink u p)) = us_socket u;
}.

Section Sockets.
Context (RUNSTATEDIR : list byte) `{U : UnixSockets} `{!UnixSocketsLaws U}.

Abbreviation has := (userspace_has_wireguard_interface RUNSTATEDIR).

(** What can be seen of a path. *)
Definition same_at (u u' : ustate) (path : list byte) : Prop :=
  us_stat u' path = us_stat u path /\ snd (us_connect u' path) = snd (us_connect u path) /\ us_socket u' = us_socket u.

Lemma same_has (u u' : ustate) (iface : list byte) : same_at u u' (sun_path RUNSTATEDIR iface) ->
  snd (has u' iface) = snd (has u iface).
Proof.
  intros (Hs & Hc & Ho). unfold userspace_has_wireguard_interface. rewrite Hs, Ho.
  destruct (has_byte _ _); [done |]. destruct (us_stat u _) as [? | mode]; [done |]. destruct (negb _); [done |].
  destruct (us_socket u); [done |]. destruct (us_connect u' _) as [u1 r1], (us_connect u _) as [u2 r2]. cbn [snd] in Hc. subst r1.
  destruct r2 as [e | f]; [| done]. by destruct (e =? ECONNREFUSED).
Qed.

Lemma has_elsewhere (u : ustate) (iface path : list byte) : sun_path RUNSTATEDIR iface <> path ->
  same_at u (fst (has u iface)) path.
Proof.
  intros Hp. unfold userspace_has_wireguard_interface. set (mine := sun_path RUNSTATEDIR iface) in *.
  assert (same_at u u path) as Hsame by done.
  destruct (has_byte _ _); [done |]. destruct (us_stat u mine); [done |]. destruct (negb _); [done |].
  destruct (us_socket u) eqn:Es; [done |].
  pose proof (connect_stat u mine path Hp) as C1. pose proof (connect_other u mine path Hp) as C2.
  pose proof (connect_socket u mine) as C3. destruct (us_connect u mine) as [u1 [e | f]]; cbn [fst snd] in *; [| done].
  destruct (e =? ECONNREFUSED); cbn [fst]; [| done].
  split; [by rewrite unlink_stat | split; [by rewrite unlink_other | by rewrite unlink_socket]].
Qed.

(** *** The directory *)

(** The interface an entry of the directory is the socket of. *)
Definition entry_name (d_name : list byte) : list (list byte) :=
  let n := (length d_name - length SOCK_SUFFIX)%nat in
  if (length d_name <=? length SOCK_SUFFIX)%nat then []
  else if beq (drop n d_name) SOCK_SUFFIX then [take n d_name] else [].

(** The daemons that answer, or refuse for another reason than that they are gone. *)
Definition daemon_names (u : ustate) (entries : list (list byte)) : list (list byte) :=
  List.filter (fun iface => snd (has u iface)) (concat (map entry_name entries)).

(** The name of a socket fits [sun_path]. *)
Definition fits_path (d_name : list byte) : Prop := (length (SOCK_PATH RUNSTATEDIR) + length d_name < 108)%nat.

Lemma entry_name_eq (d_name iface : list byte) : In iface (entry_name d_name) ->
  d_name = iface ++ SOCK_SUFFIX /\ iface <> [].
Proof.
  unfold entry_name. destruct (Nat.leb_spec (length d_name) (length SOCK_SUFFIX)) as [|Hl]; [done |].
  assert (0 < length d_name - length SOCK_SUFFIX <= length d_name)%nat as Hn by lia.
  set (n := (_ - _)%nat) in *. clearbody n. destruct (beq _ _) eqn:E; [| done]. intros [<- | []]. apply beq_eq in E.
  rewrite <- E. split; [by rewrite take_drop |]. intros E0%(f_equal length). rewrite length_take in E0. cbn in E0. lia.
Qed.

Lemma sun_path_inj (a b : list byte) : fits_path (a ++ SOCK_SUFFIX) -> fits_path (b ++ SOCK_SUFFIX) ->
  sun_path RUNSTATEDIR a = sun_path RUNSTATEDIR b -> a = b.
Proof.
  unfold fits_path, sun_path. rewrite !length_app. intros Ha Hb. rewrite !take_ge by (rewrite !length_app; lia).
  intros E. apply app_inv_head in E. by apply app_inv_tail in E.
Qed.

Context (fresh : nat -> byte).

Lemma scan_entries_cons (u : ustate) (d : list byte) (entries : list (list byte)) (sl : string_list) :
  scan_entries RUNSTATEDIR fresh u (d :: entries) sl
  = match entry_name d with
    | iface :: _ =>
        let '(u, b) := has u iface in
        scan_entries RUNSTATEDIR fresh u entries (if b then string_list_add fresh sl iface else sl)
    | [] => scan_entries RUNSTATEDIR fresh u entries sl
    end.
Proof.
  cbn [scan_entries]. unfold entry_name. destruct (_ <=? _)%nat; [done |]. destruct (beq _ _); cbn [negb]; [| done].
  destruct (has u _) as [u1 []]; done.
Qed.

Lemma scan_entries_names (entries : list (list byte)) (u u0 : ustate) (sl : string_list) :
  NoDup entries -> Forall fits_path entries ->
  (forall iface, In iface (concat (map entry_name entries)) -> same_at u0 u (sun_path RUNSTATEDIR iface)) ->
  exists u', scan_entries RUNSTATEDIR fresh u entries sl
             = (u', fold_left (string_list_add fresh) (daemon_names u0 entries) sl).
Proof.
  intros Hnd Hfit. revert u sl. induction entries as [|d entries IH]; intros u sl Hsame; [by exists u |].
  apply NoDup_cons in Hnd as [Hd Hnd]. apply Forall_cons in Hfit as [Hfd Hfit]. cbn [map concat] in Hsame.
  unfold daemon_names. cbn [map concat]. rewrite List.filter_app, fold_left_app. fold (daemon_names u0 entries).
  assert (forall iface, In iface (concat (map entry_name entries)) -> same_at u0 u (sun_path RUNSTATEDIR iface)) as Hrest.
  { intros iface Hi. apply Hsame, in_or_app. by right. }
  pose proof (entry_name_eq d) as Hd'. rewrite scan_entries_cons.
  assert (length (entry_name d) <= 1)%nat as Hone by (unfold entry_name; repeat case_match; cbn; lia).
  destruct (entry_name d) as [|iface [|? ?]]; [by apply IH | | cbn in Hone; lia].
  destruct (Hd' iface ltac:(by left)) as [Ed Hne].
  pose proof (same_has u0 u iface (Hsame iface ltac:(by left))) as Hh. cbn [List.filter]. rewrite <- Hh.
  pose proof (has_elsewhere u iface) as Helse. destruct (has u iface) as [u1 b]. cbn [fst snd] in *.
  assert (forall other, In other (concat (map entry_name entries)) -> same_at u0 u1 (sun_path RUNSTATEDIR other)) as Hnext.
  { intros other Hin. destruct (Hrest other Hin) as (E1 & E2 & E3). destruct (Helse (sun_path RUNSTATEDIR other)) as (F1 & F2 & F3).
    - apply in_concat in Hin as (l & Hl & Hin). apply in_map_iff in Hl as (d' & <- & Hd1). apply entry_name_eq in Hin as [Ed' _].
      rewrite Forall_forall in Hfit. specialize (Hfit d' ltac:(by apply list_elem_of_In)). rewrite Ed' in Hfit. rewrite Ed in Hfd.
      intros E%sun_path_inj; [| done | done]. apply Hd. rewrite Ed, E, <- Ed'. by apply list_elem_of_In.
    - split; [congruence | split; congruence]. }
  destruct b; cbn [fold_left]; by apply IH.
Qed.

End Sockets.

(** ** The whole list *)

Section Names.
Context (RUNSTATEDIR : list byte) `{U : UnixSockets} `{!UnixSocketsLaws U} (fresh : nat -> byte) `{K : NetlinkKernel}.

Lemma tunnel_names_ok (links : list link) : Forall wf_link links -> Forall is_name (tunnel_names links).
Proof.
  intros Hwf. unfold tunnel_names. apply List.Forall_concat, Forall_map. eapply Forall_impl; [exact Hwf |]. clear Hwf.
  intros [h attrs] (_ & Ha & _). unfold tunnel_name, link_interface. cbn [snd] in *.
  assert (forall i, (forall n, interface_name i = Some n -> is_name n) ->
    forall n, interface_name (fold_left see_link_attr attrs i) = Some n -> is_name n) as Hi.
  { clear h. induction Ha as [|a attrs [_ Ha] _ IH]; intros i Hi; [exact Hi |]. cbn [fold_left]. apply IH.
    destruct a; cbn [see_link_attr interface_name]; [| done | done]. by intros n [= <-]. }
  specialize (Hi (Interface None false) ltac:(done)).
  destruct (fold_left _ attrs _) as [[n |] []]; try by apply Forall_nil. apply Forall_cons. split; [by apply Hi | by apply Forall_nil].
Qed.

Lemma daemon_names_ok (u : ustate) (entries : list (list byte)) : Forall is_name entries ->
  Forall is_name (daemon_names RUNSTATEDIR u entries).
Proof.
  intros Hn. apply List.Forall_forall. intros iface [Hin _]%filter_In.
  apply in_concat in Hin as (l & Hl & Hin). apply in_map_iff in Hl as (d & <- & Hd). apply entry_name_eq in Hin as [-> _].
  rewrite List.Forall_forall in Hn. intros H0. apply (Hn _ Hd), in_or_app. by left.
Qed.

(** C35: [ipc_list_devices] finds every tunnel, in the kernel and outside: when the kernel answers
    the request with a dump of links, in any number of datagrams and with any other attributes,
    and the directory of sockets can be read, the buffer that is returned holds the names of
    the links of the right kind, then those of the sockets behind which a daemon is or may be,
    each judged by the state the call began with although stale sockets are removed on the
    way; the loop of the commands walks over exactly these names. *)
Theorem ipc_list_devices_finds (turns : nat) (u : ustate) (k k1 k2 k3 : kstate) (portid : Z) (dump : list (list link))
    (entries : list (list byte)) :
  let seq := u32 (nl_time k1) in
  nl_open k NETLINK_ROUTE = (k1, inr portid) ->
  nl_sendto k1 (nlmsg RTM_GETLINK (Z.lor (Z.lor NLM_F_REQUEST NLM_F_ACK) NLM_F_DUMP) seq (repeat x00 16)) = (k2, None) ->
  Forall (fun links => links <> [] /\ Forall wf_link links /\ Z.of_nat (length (links_datagram seq links)) < 2 ^ 31) dump ->
  delivers k2 (map (links_datagram seq) dump ++ [done_msg seq]) k3 -> (length dump < turns)%nat ->
  us_readdir u (SOCK_PATH RUNSTATEDIR) = inr entries -> NoDup entries -> Forall is_name entries ->
  Forall (fits_path RUNSTATEDIR) entries ->
  let names := tunnel_names (concat dump) ++ daemon_names RUNSTATEDIR u entries in
  exists u' buf, ipc_list_devices RUNSTATEDIR fresh turns u k = Returns (u', k3, inr buf)
    /\ forall fuel, (length names < fuel)%nat ->
       name_loop fuel buf = Some (List.filter (fun s => negb (length s =? 0)%nat) names).
Proof.
  intros seq Hopen Hsend Hwf Hdel Ht Hdir Hnd Hn Hfit names.
  assert (0 <= seq < 2 ^ 32) as Hseq by (apply uw_range; lia).
  destruct (scan_entries_names RUNSTATEDIR fresh entries u u
              (fold_left (string_list_add fresh) (tunnel_names (concat dump)) empty_list) Hnd Hfit ltac:(done)) as [u' Hscan].
  exists u', (Ipc.ipc_list_devices fresh names). split.
  - unfold ipc_list_devices, kernel_get_wireguard_interfaces. rewrite Hopen. cbv zeta. fold seq.
    change (Z.to_nat sizeof_ifinfomsg) with 16%nat. rewrite Hsend.
    rewrite (interfaces_loop_links fresh dump turns k2 k3 seq portid empty_list) by done. cbn [obind Z.ltb Z.compare].
    unfold userspace_get_wireguard_interfaces. rewrite Hdir, Hscan. cbn [Z.ltb Z.compare].
    unfold Ipc.ipc_list_devices, names. by rewrite fold_left_app.
  - intros fuel Hf. destruct (ipc_list_devices_packed fresh names) as [rest ->].
    assert (Forall is_name names) as Hall.
    { apply Forall_app. split; [| by apply daemon_names_ok]. apply tunnel_names_ok, List.Forall_concat.
      eapply Forall_impl; [exact Hwf |]. by intros links (_ & ? & _). }
    destruct (kept_names names Hall). apply name_loop_names; [done | lia].
Qed.

End Names.

(** *** A directory of sockets *)

(** The entries of the directory are sockets; [live] says behind which a daemon listens. *)
Definition socket_dir (dir : list byte) (live : list byte -> bool) : UnixSockets := {|
  ustate := list (list byte);
  us_stat u p := if existsb (fun e => beq (dir ++ e) p) u then inr 0xc1ed else inl ENOENT;
  us_socket u := None;
  us_connect u p := (u, if live p then inr (fun _ => []) else inl ECONNREFUSED);
  us_unlink u p := (List.filter (fun e => negb (beq (dir ++ e) p)) u, None);
  us_readdir u d := if beq d dir then inr u else inl ENOENT;
|}.

#[export] Instance socket_dir_laws (dir : list byte) (live : list byte -> bool) : UnixSocketsLaws (socket_dir dir live).
Proof.
  split; try done. cbn. intros u p q Hpq.
  assert (existsb (fun e => beq (dir ++ e) q) (List.filter (fun e => negb (beq (dir ++ e) p)) u)
          = existsb (fun e => beq (dir ++ e) q) u) as ->; [| done].
  induction u as [|e u IH]; [done |]. cbn [List.filter existsb]. destruct (beq (dir ++ e) p) eqn:E; cbn [negb].
  - apply beq_eq in E. rewrite E, IH. by rewrite (beq_neq p q Hpq).
  - cbn [existsb]. by rewrite IH.
Qed.

Definition sample_links : list link :=
  [(repeat x00 16, [LinkName (text "lo"); LinkOther 13 [x01; x02; x03]]);
   (repeat x00 16, [LinkName (text "awg0"); LinkInfo [InfoOther 2 []; InfoKind (text "amneziawg")]])].

Definition link_script : nat -> list byte -> list (list byte) := fun _ msg =>
  [links_datagram (nlmsg_seq msg) sample_links; done_msg (nlmsg_seq msg)].

Ltac wf_attrs :=
  repeat (apply Forall_cons; split; [split; [vm_compute; reflexivity |] |]); try by apply Forall_nil.

Lemma ipc_list_devices_finds_witness :
  let dir := text "/run/amneziawg/" in
  let U := socket_dir dir (fun p => beq p (text "/run/amneziawg/utun.sock")) in
  let entries := [text "utun.sock"; text "gone.sock"; text "notes.txt"] in
  let names := tunnel_names sample_links ++ @daemon_names (text "/run") U entries entries in
  names = [text "awg0"; text "utun"]
  /\ exists u' buf, @ipc_list_devices (text "/run") U (fun _ => xff) (scripted link_script) 2 entries (0%nat, [])
       = Returns (u', (1%nat, []), inr buf)
     /\ forall fuel, (length names < fuel)%nat ->
        name_loop fuel buf = Some (List.filter (fun s => negb (length s =? 0)%nat) names).
Proof.
  cbv zeta. split; [vm_compute; reflexivity |].
  assert (forallb (fun buf => is_datagram (length buf) buf && (Z.of_nat (length buf) <? 2 ^ 31))
            (map (links_datagram 1700000000) [sample_links] ++ [done_msg 1700000000]) = true) as Hd by (vm_compute; reflexivity).
  apply (ipc_list_devices_finds (U := socket_dir (text "/run/amneziawg/") (fun p => beq p (text "/run/amneziawg/utun.sock")))
           (K := scripted link_script) (text "/run") (fun _ => xff) 2 [text "utun.sock"; text "gone.sock"; text "notes.txt"]
           (0%nat, []) (0%nat, []) (1%nat, map (links_datagram 1700000000) [sample_links] ++ [done_msg 1700000000])
           (1%nat, []) 4242 [sample_links] [text "utun.sock"; text "gone.sock"; text "notes.txt"]).
  - reflexivity.
  - vm_compute. reflexivity.
  - apply Forall_cons. split; [| by apply Forall_nil]. split; [done |]. split; [| vm_compute; reflexivity].
    repeat (apply Forall_cons; split; [split; [done | split; [| vm_compute; reflexivity]] |]); [| | by apply Forall_nil].
    + wf_attrs; vm_compute; intuition discriminate.
    + wf_attrs; vm_compute; intuition discriminate.
  - apply scripted_delivers. exact Hd.
  - cbn. lia.
  - vm_compute. reflexivity.
  - repeat (apply NoDup_cons_2; [cbv; intros H; repeat (inversion H as [|? ? ? H']; clear H; rename H' into H) |]). apply NoDup_nil_2.
  - repeat (apply Forall_cons; split; [cbv; intuition discriminate |]). by apply Forall_nil.
  - repeat (apply Forall_cons; split; [vm_compute; lia |]). by apply Forall_nil.
Defined.
