(* ===== verification/Highlighter.v ===== *)
(** * The configuration highlighter (contrib/highlighter)

    [highlight_config] scans a configuration and produces the spans to be coloured;
    [highlight_main] prints the text with the colours of its spans.  A [string_span_t]
    points into the configuration: it is the offset of its first character with its
    length, so that a validator may look at the character after its span as the code
    does.  Memory allocation succeeds; the array of spans is kept latest first. *)

From S2P Require Import Prelude Ctype CString Encoding.
#[local] Open Scope Z_scope.

Record string_span := Span {
  off : nat;
  slen : nat;
}.

Section Highlighter.
Context `{Platform} (config : list byte).

(** [s.s\[k\]]. *)
Definition span_at (s : string_span) (k : nat) : byte := byte_at config (off s + k).

Definition char_is (c : byte) (x : byte) : bool := Byte.eqb c x.

(** ** Characters and words *)

Definition is_decimal (c : byte) : bool := (48 <=? char_val c) && (char_val c <=? 57).

Definition is_hexadecimal (c : byte) : bool :=
  is_decimal c || ((97 <=? Z.lor (char_val c) 32) && (Z.lor (char_val c) 32 <=? 102)).

Definition is_alphabet (c : byte) : bool :=
  (97 <=? Z.lor (char_val c) 32) && (Z.lor (char_val c) 32 <=? 122).

(** The characters of a span. *)
Definition span_text (s : string_span) : list byte := map (span_at s) (seq 0 (slen s)).

Definition is_same (s : string_span) (c : list byte) : bool :=
  if negb (length c =? slen s)%nat then false else beq (span_text s) c.

(** [if ((unsigned)a - 'a' < 26) a &= 95]. *)
Definition upper (a : byte) : byte :=
  if u32 (char_val a - 97) <? 26 then z2b (Z.land (char_val a) 95) else a.

Definition is_caseless_same (s : string_span) (c : list byte) : bool :=
  if negb (length c =? slen s)%nat then false
  else beq (map upper c) (map upper (span_text s)).

(** ** Values *)

(** The last character of a key carries four bits, so its two low bits are zero. *)
Definition key_last_char (c : byte) : bool := has_byte c (text "AEIMQUYcgkosw480").

Definition is_valid_key (s : string_span) : bool :=
  if negb (slen s =? 44)%nat || negb (char_is (span_at s 43) "="%byte) then false
  else if negb (forallb (fun i => is_decimal (span_at s i) || is_alphabet (span_at s i)
                          || char_is (span_at s i) "/"%byte || char_is (span_at s i) "+"%byte) (seq 0 42))
  then false
  else key_last_char (span_at s 42).

(** The loop of [is_valid_hostname] at character [i], [n] characters being left; the
    third test of the source comes after the dots have been skipped. *)
Fixpoint hostname_loop (s : string_span) (n i : nat) (num_digit num_entity : Z) : option (Z * Z) :=
  match n with
  | O => Some (num_digit, num_entity)
  | S n' =>
      let c := span_at s i in
      if is_decimal c then hostname_loop s n' (S i) (num_digit + 1) num_entity
      else if char_is c "."%byte then hostname_loop s n' (S i) num_digit (num_entity - 1)
      else if negb (is_alphabet c) && negb (char_is c "-"%byte) then None
      else if negb (i =? 0)%nat && char_is c "."%byte && char_is (span_at s (i - 1)) "."%byte then None
      else hostname_loop s n' (S i) num_digit num_entity
  end.

Definition is_valid_hostname (s : string_span) : bool :=
  if (63 <? slen s)%nat || (slen s =? 0)%nat then false
  else if char_is (span_at s 0) "-"%byte || char_is (span_at s (slen s - 1)) "-"%byte then false
  else if char_is (span_at s 0) "."%byte || char_is (span_at s (slen s - 1)) "."%byte then false
  else
    match hostname_loop s (slen s) 0 0 (Z.of_nat (slen s)) with
    | Some (num_digit, num_entity) => negb (num_digit =? num_entity)
    | None => false
    end.

(** [for (j = 0; j < max && pos + j < s.len && ok(s.s\[pos + j\]); ++j)]: the final [j]. *)
Fixpoint run_length (ok : byte -> bool) (s : string_span) (pos : nat) (max j : nat) : nat :=
  match max with
  | O => j
  | S max' => if (pos + j <? slen s)%nat && ok (span_at s (pos + j)) then run_length ok s pos max' (S j)
              else j
  end.

(** The value of the [j] digits at [pos]. *)
Definition octet (s : string_span) (pos j : nat) : Z :=
  fold_left (fun val k => 10 * val + b2z (span_at s (pos + k)) - 48) (seq 0 j) 0.

(** The turns [i] to 3 of the loop of [is_valid_ipv4], [n] being their number. *)
Fixpoint ipv4_loop (s : string_span) (n i pos : nat) : bool :=
  match n with
  | O => false
  | S n' =>
      if negb (pos <? slen s)%nat then false
      else
        let j := run_length is_decimal s pos 3 0 in
        let val := octet s pos j in
        if (j =? 0)%nat || ((1 <? j)%nat && char_is (span_at s pos) "0"%byte) || (255 <? val) then false
        else if (pos + j =? slen s)%nat && (i =? 3)%nat then true
        else if negb (char_is (span_at s (pos + j)) "."%byte) then false
        else ipv4_loop s n' (S i) (pos + j + 1)
  end.

Definition is_valid_ipv4 (s : string_span) : bool := ipv4_loop s 4 0 0.

(** The loop of [is_valid_ipv6]; every turn moves [pos] forward, so [slen s] turns are
    enough. *)
Fixpoint ipv6_loop (s : string_span) (n i pos : nat) (seen_colon : bool) : bool :=
  match n with
  | O => true
  | S n' =>
      if negb (pos <? slen s)%nat then true
      else if char_is (span_at s pos) ":"%byte && negb seen_colon then
        if (pos + 1 =? slen s)%nat then true
        else if (i =? 7)%nat then false
        else ipv6_loop s n' (S i) (pos + 1) true
      else
        let j := run_length is_hexadecimal s pos 4 0 in
        if (j =? 0)%nat then false
        else if (pos + j =? slen s)%nat && (seen_colon || (i =? 7)%nat) then true
        else if (i =? 7)%nat then false
        else if negb (char_is (span_at s (pos + j)) ":"%byte) then
          if negb (char_is (span_at s (pos + j)) "."%byte) || ((i <? 6)%nat && negb seen_colon) then false
          else is_valid_ipv4 (Span (off s + pos) (slen s - pos))
        else ipv6_loop s n' (S i) (pos + j + 1) seen_colon
  end.

Definition is_valid_ipv6 (s : string_span) : bool :=
  if (slen s <? 2)%nat then false
  else
    let first_colon := char_is (span_at s 0) ":"%byte in
    if first_colon && negb (char_is (span_at s 1) ":"%byte) then false
    else if char_is (span_at s (slen s - 1)) ":"%byte
            && negb (char_is (span_at s (slen s - 2)) ":"%byte) then false
    else ipv6_loop s (slen s) 0 (if first_colon then 1 else 0) false.

Definition hex_value_of (c : byte) : option Z :=
  if u32 (char_val c - 48) <? 10 then Some (char_val c - 48)
  else if u32 (Z.lor (u32 (char_val c)) 32 - 97) <? 6 then Some (Z.lor (char_val c) 32 - 97 + 10)
  else None.

Fixpoint uint_loop (base : Z) (digit : byte -> option Z) (val : Z) (t : list byte) : option Z :=
  match t with
  | [] => Some val
  | c :: t' => match digit c with
               | Some v => uint_loop base digit (u64 (base * val + v)) t'
               | None => None
               end
  end.

Definition is_valid_uint (s : string_span) (support_hex : bool) (min max : Z) : bool :=
  if (10 <? slen s)%nat || (slen s =? 0)%nat then false
  else
    let val :=
      if support_hex && (2 <? slen s)%nat && char_is (span_at s 0) "0"%byte
         && char_is (span_at s 1) "x"%byte
      then uint_loop 16 hex_value_of 0 (drop 2 (span_text s))
      else uint_loop 10 (fun c => if is_decimal c then Some (char_val c - 48) else None) 0 (span_text s) in
    match val with
    | Some val => (val <=? max) && (min <=? val)
    | None => false
    end.

Definition is_valid_port (s : string_span) : bool := is_valid_uint s false 0 65535.
Definition is_valid_mtu (s : string_span) : bool := is_valid_uint s false 576 65535.

Definition is_valid_persistentkeepalive (s : string_span) : bool :=
  if is_same s (text "off") then true else is_valid_uint s false 0 65535.

Definition is_valid_fwmark (s : string_span) : bool :=
  if is_same s (text "off") then true else is_valid_uint s true 0 4294967295.

Definition is_valid_table (s : string_span) : bool :=
  if is_same s (text "auto") then true
  else if is_same s (text "off") then true
  else if (slen s <? 512)%nat then true
  else is_valid_uint s false 0 4294967295.

Definition is_valid_saveconfig (s : string_span) : bool :=
  is_same s (text "true") || is_same s (text "false").

Definition is_valid_prepostupdown (s : string_span) : bool := negb (slen s =? 0)%nat.

Definition is_valid_scope (s : string_span) : bool :=
  if (64 <? slen s)%nat || (slen s =? 0)%nat then false
  else forallb (fun c => is_alphabet c || is_decimal c || char_is c "_"%byte || char_is c "="%byte
                 || char_is c "+"%byte || char_is c "."%byte || char_is c "-"%byte) (span_text s).

(** The scan of a bracketed host from character [i], [n] characters being left. *)
Fixpoint bracket_loop (s : string_span) (n i : nat) (seen_scope : bool) (hostspan : string_span) : bool :=
  match n with
  | O => false
  | S n' =>
      let c := span_at s i in
      if char_is c "%"%byte then
        if seen_scope then false
        else if negb (is_valid_ipv6 hostspan) then false
        else bracket_loop s n' (S i) true (Span (off s + i + 1) 0)
      else if char_is c "]"%byte then
        if negb (if seen_scope then is_valid_scope hostspan else is_valid_ipv6 hostspan) then false
        else if (i =? slen s - 1)%nat || negb (char_is (span_at s (i + 1)) ":"%byte) then false
        else is_valid_port (Span (off s + i + 2) (slen s - i - 2))
      else bracket_loop s n' (S i) seen_scope (Span (off hostspan) (slen hostspan + 1))
  end.

(** The offset in a span of the first or of the last occurrence of a character. *)
Definition find_char (x : byte) (s : string_span) : option nat :=
  List.find (fun i => char_is (span_at s i) x) (seq 0 (slen s)).
Definition find_last_char (x : byte) (s : string_span) : option nat :=
  List.find (fun i => char_is (span_at s i) x) (rev (seq 0 (slen s))).

Definition is_valid_endpoint (s : string_span) : bool :=
  if (slen s =? 0)%nat then false
  else if char_is (span_at s 0) "["%byte then
    bracket_loop s (slen s - 1) 1 false (Span (off s + 1) 0)
  else
    match find_char ":"%byte s with
    | Some i =>
        let host := Span (off s) i in
        is_valid_port (Span (off s + i + 1) (slen s - i - 1))
        && (is_valid_ipv4 host || is_valid_hostname host)
    | None => false
    end.

Definition is_valid_network (s : string_span) : bool :=
  match find_char "/"%byte s with
  | Some i =>
      let ip := Span (off s) i in
      let cidr := Span (off s + i + 1) (slen s - i - 1) in
      if (3 <? slen cidr)%nat || (slen cidr =? 0)%nat then false
      else
        match uint_loop 10 (fun c => if is_decimal c then Some (char_val c - 48) else None) 0
                (span_text cidr) with
        | None => false
        | Some cidrval =>
            if is_valid_ipv4 ip then u16 cidrval <=? 32
            else if is_valid_ipv6 ip then u16 cidrval <=? 128
            else false
        end
  | None => is_valid_ipv4 s || is_valid_ipv6 s
  end.

(** ** Fields and sections *)

Inductive field :=
| InterfaceSection | PrivateKey | ListenPort | Address | DNS | MTU
| FwMark | Table | PreUp | PostUp | PreDown | PostDown | SaveConfig
| PeerSection | PublicKey | PresharedKey | AllowedIPs | Endpoint | PersistentKeepalive
| Invalid.

(** The value of the enumerator. *)
Definition field_num (t : field) : nat :=
  match t with
  | InterfaceSection => 0 | PrivateKey => 1 | ListenPort => 2 | Address => 3 | DNS => 4 | MTU => 5
  | FwMark => 6 | Table => 7 | PreUp => 8 | PostUp => 9 | PreDown => 10 | PostDown => 11
  | SaveConfig => 12 | PeerSection => 13 | PublicKey => 14 | PresharedKey => 15 | AllowedIPs => 16
  | Endpoint => 17 | PersistentKeepalive => 18 | Invalid => 19
  end.

#[global] Instance field_eq_dec : EqDecision field.
Proof. solve_decision. Defined.

Definition section_for_field (t : field) : field :=
  if (field_num InterfaceSection <? field_num t)%nat && (field_num t <? field_num PeerSection)%nat
  then InterfaceSection
  else if (field_num PeerSection <? field_num t)%nat && (field_num t <? field_num Invalid)%nat
  then PeerSection
  else Invalid.

Definition get_field (s : string_span) : field :=
  let check t name k := if is_caseless_same s (text name) then t else k in
  check PrivateKey "PrivateKey"%string (
  check ListenPort "ListenPort"%string (
  check Address "Address"%string (
  check DNS "DNS"%string (
  check MTU "MTU"%string (
  check PublicKey "PublicKey"%string (
  check PresharedKey "PresharedKey"%string (
  check AllowedIPs "AllowedIPs"%string (
  check Endpoint "Endpoint"%string (
  check PersistentKeepalive "PersistentKeepalive"%string (
  check FwMark "FwMark"%string (
  check Table "Table"%string (
  check PreUp "PreUp"%string (
  check PostUp "PostUp"%string (
  check PreDown "PreDown"%string (
  check PostDown "PostDown"%string (
  check SaveConfig "SaveConfig"%string Invalid)))))))))))))))).

Definition get_sectiontype (s : string_span) : field :=
  if is_caseless_same s (text "[Peer]") then PeerSection
  else if is_caseless_same s (text "[Interface]") then InterfaceSection
  else Invalid.

(** ** Spans *)

Inductive highlight_type :=
| HighlightSection | HighlightField | HighlightPrivateKey | HighlightPublicKey
| HighlightPresharedKey | HighlightIP | HighlightCidr | HighlightHost | HighlightPort
| HighlightMTU | HighlightKeepalive | HighlightComment | HighlightDelimiter
| HighlightTable | HighlightFwMark | HighlightSaveConfig | HighlightCmd | HighlightError.

#[global] Instance highlight_type_eq_dec : EqDecision highlight_type.
Proof. solve_decision. Defined.

Record highlight_span := HighlightSpan {
  type : highlight_type;
  start : nat;
  span_len : nat;
}.

(** The array of spans, the latest first. *)
Definition append_highlight_span (ret : list highlight_span) (s : string_span) (t : highlight_type) :
    list highlight_span :=
  if (slen s =? 0)%nat then ret else HighlightSpan t (off s) (slen s) :: ret.

Definition highlight_multivalue_value (ret : list highlight_span) (s : string_span) (section : field) :
    list highlight_span :=
  match section with
  | DNS =>
      if is_valid_ipv4 s || is_valid_ipv6 s then append_highlight_span ret s HighlightIP
      else if is_valid_hostname s then append_highlight_span ret s HighlightHost
      else append_highlight_span ret s HighlightError
  | Address | AllowedIPs =>
      if negb (is_valid_network s) then append_highlight_span ret s HighlightError
      else
        match find_char "/"%byte s with
        | None => append_highlight_span ret s HighlightIP
        | Some slash =>
            let ret := append_highlight_span ret (Span (off s) slash) HighlightIP in
            let ret := append_highlight_span ret (Span (off s + slash) 1) HighlightDelimiter in
            append_highlight_span ret (Span (off s + slash + 1) (slen s - slash - 1)) HighlightCidr
        end
  | _ => append_highlight_span ret s HighlightError
  end.

Definition is_blank (c : byte) : bool := char_is c " "%byte || char_is c x09.

(** The loop of [highlight_multivalue] from character [i], [n] being left. *)
Fixpoint multivalue_loop (section : field) (s : string_span) (n i : nat) (ret : list highlight_span)
    (current_span : string_span) (len_at_last_space : nat) : list highlight_span * string_span :=
  match n with
  | O => (ret, Span (off current_span) len_at_last_space)
  | S n' =>
      let c := span_at s i in
      if char_is c ","%byte then
        let ret := highlight_multivalue_value ret (Span (off current_span) len_at_last_space) section in
        let ret := append_highlight_span ret (Span (off s + i) 1) HighlightDelimiter in
        multivalue_loop section s n' (S i) ret (Span (off s + i + 1) 0) 0
      else if is_blank c then
        if (off s + i =? off current_span)%nat && (slen current_span =? 0)%nat
        then multivalue_loop section s n' (S i) ret (Span (off current_span + 1) (slen current_span))
               len_at_last_space
        else multivalue_loop section s n' (S i) ret (Span (off current_span) (slen current_span + 1))
               len_at_last_space
      else multivalue_loop section s n' (S i) ret (Span (off current_span) (slen current_span + 1))
             (slen current_span + 1)
  end.

Definition highlight_multivalue (ret : list highlight_span) (s : string_span) (section : field) :
    list highlight_span :=
  let '(ret, current_span) := multivalue_loop section s (slen s) 0 ret (Span (off s) 0) 0 in
  if negb (slen current_span =? 0)%nat then highlight_multivalue_value ret current_span section
  else
    match ret with
    | last :: ret' =>
        if decide (type last = HighlightDelimiter)
        then HighlightSpan HighlightError (start last) (span_len last) :: ret' else ret
    | [] => []
    end.

Definition highlight_value (ret : list highlight_span) (s : string_span) (section : field) :
    list highlight_span :=
  let check (ok : bool) t := append_highlight_span ret s (if ok then t else HighlightError) in
  match section with
  | PrivateKey => check (is_valid_key s) HighlightPrivateKey
  | PublicKey => check (is_valid_key s) HighlightPublicKey
  | PresharedKey => check (is_valid_key s) HighlightPresharedKey
  | MTU => check (is_valid_mtu s) HighlightMTU
  | SaveConfig => check (is_valid_saveconfig s) HighlightSaveConfig
  | FwMark => check (is_valid_fwmark s) HighlightFwMark
  | Table => check (is_valid_table s) HighlightTable
  | PreUp | PostUp | PreDown | PostDown => check (is_valid_prepostupdown s) HighlightCmd
  | ListenPort => check (is_valid_port s) HighlightPort
  | PersistentKeepalive => check (is_valid_persistentkeepalive s) HighlightKeepalive
  | Endpoint =>
      if negb (is_valid_endpoint s) then append_highlight_span ret s HighlightError
      else
        (* a valid endpoint has a colon: [endpoint_has_colon] *)
        match find_last_char ":"%byte s with
        | Some colon =>
            let ret := append_highlight_span ret (Span (off s) colon) HighlightHost in
            let ret := append_highlight_span ret (Span (off s + colon) 1) HighlightDelimiter in
            append_highlight_span ret (Span (off s + colon + 1) (slen s - colon - 1)) HighlightPort
        | None => ret
        end
  | Address | DNS | AllowedIPs => highlight_multivalue ret s section
  | _ => append_highlight_span ret s HighlightError
  end.

(** ** The scanner *)

Inductive scan_on := OnNone | OnKey | OnValue | OnComment | OnSection.

#[global] Instance scan_on_eq_dec : EqDecision scan_on.
Proof. solve_decision. Defined.

Record scan_state := ScanState {
  ret : list highlight_span;
  current_span : string_span;
  current_section : field;
  current_field : field;
  on : scan_on;
  len_at_last_space : nat;
  equals_location : nat;
}.

(** What is appended at the end of a line, a comment or the text. *)
Definition end_token (st : scan_state) : list highlight_span * field :=
  let cut := Span (off (current_span st)) (len_at_last_space st) in
  match on st with
  | OnKey => (append_highlight_span (ret st) cut HighlightError, current_section st)
  | OnValue =>
      if negb (slen (current_span st) =? 0)%nat then
        let ret := append_highlight_span (ret st) (Span (equals_location st) 1) HighlightDelimiter in
        (highlight_value ret cut (current_field st), current_section st)
      else (append_highlight_span (ret st) (Span (equals_location st) 1) HighlightError, current_section st)
  | OnSection =>
      let section := get_sectiontype cut in
      (append_highlight_span (ret st) cut
         (if decide (section = Invalid) then HighlightError else HighlightSection), section)
  | OnComment => (append_highlight_span (ret st) (current_span st) HighlightComment, current_section st)
  | OnNone => (ret st, current_section st)
  end.

(** One turn of the loop on character [c] at position [i]. *)
Definition scan_step (st : scan_state) (i : nat) (c : byte) : scan_state :=
  let longer := Span (off (current_span st)) (slen (current_span st) + 1) in
  if char_is c x0a || (negb (bool_decide (on st = OnComment)) && char_is c "#"%byte) then
    let '(ret, section) := end_token st in
    if char_is c "#"%byte
    then ScanState ret (Span i 1) section Invalid OnComment 0 (equals_location st)
    else ScanState ret (Span (i + 1) 0) section Invalid OnNone 0 (equals_location st)
  else if decide (on st = OnComment) then
    ScanState (ret st) longer (current_section st) (current_field st) (on st)
      (len_at_last_space st) (equals_location st)
  else if is_blank c then
    let span := if (i =? off (current_span st))%nat && (slen (current_span st) =? 0)%nat
                then Span (off (current_span st) + 1) (slen (current_span st)) else longer in
    ScanState (ret st) span (current_section st) (current_field st) (on st)
      (len_at_last_space st) (equals_location st)
  else if char_is c "="%byte && bool_decide (on st = OnKey) then
    let cut := Span (off (current_span st)) (len_at_last_space st) in
    let f := get_field cut in
    let section := section_for_field f in
    let bad := bool_decide (section = Invalid) || bool_decide (f = Invalid)
               || negb (bool_decide (section = current_section st)) in
    ScanState (append_highlight_span (ret st) cut (if bad then HighlightError else HighlightField))
      (Span (i + 1) 0) (current_section st) f OnValue (len_at_last_space st) i
  else
    let on' := if decide (on st = OnNone) then if char_is c "["%byte then OnSection else OnKey else on st in
    ScanState (ret st) longer (current_section st) (current_field st) on'
      (slen (current_span st) + 1) (equals_location st).

Fixpoint scan_loop (st : scan_state) (i : nat) (rest : list byte) : list highlight_span :=
  match rest with
  | [] => fst (end_token st)
  | c :: rest' => scan_loop (scan_step st i c) (S i) rest'
  end.

(** The spans up to the one of type [HighlightEnd], in the order of the text. *)
Definition highlight_config : list highlight_span :=
  rev (scan_loop (ScanState [] (Span 0 0) Invalid Invalid OnNone 0 0) 0 config).

End Highlighter.

(** ** Printing with colours (highlight.c) *)

Inductive output :=
| Escape (s : list byte)
| Write (s : list byte).

(** The sequence ESC [ code m. *)
Definition sgr (code : string) : list byte := [x1b] ++ text "[" ++ text code ++ text "m".

Definition colormap (t : highlight_type) : list byte :=
  match t with
  | HighlightSection => sgr "30" ++ sgr "1"
  | HighlightField => sgr "34" ++ sgr "1"
  | HighlightPrivateKey | HighlightPublicKey | HighlightPresharedKey => sgr "33" ++ sgr "1"
  | HighlightIP => sgr "32"
  | HighlightCidr => sgr "33"
  | HighlightHost => sgr "32" ++ sgr "1"
  | HighlightPort => sgr "35"
  | HighlightMTU | HighlightKeepalive => sgr "34"
  | HighlightComment | HighlightDelimiter => sgr "36"
  | HighlightTable | HighlightFwMark | HighlightSaveConfig => sgr "34"
  | HighlightCmd => sgr "37"
  | HighlightError => sgr "31" ++ sgr "4"
  end.

(** [fwrite(input + from, 1, n, stdout)]. *)
Definition fwrite (input : list byte) (from n : nat) : output := Write (take n (drop from input)).

Fixpoint print_spans (input : list byte) (last : nat) (spans : list highlight_span) : list output :=
  match spans with
  | [] => [fwrite input last (length input - last)]
  | s :: spans' =>
      [fwrite input last (start s - last); Escape (colormap (type s));
       fwrite input (start s) (span_len s); Escape (sgr "0")]
      ++ print_spans input (start s + span_len s) spans'
  end.

(** The program: [input] is what [fread] read; the configuration ends at its first NUL. *)
Definition highlight_main `{Platform} (input : list byte) : list output :=
  Escape (sgr "0") :: print_spans input 0 (highlight_config (c_str input)).
