(* ===== verification/HighlighterOk.v ===== *)
(** * The spans of the highlighter cover the text in order

    Every span lies inside the text, none is empty, and each begins after the previous
    one ends, so that printing with colours writes every character of the input exactly
    once; the key check of the highlighter is the one of the configuration reader. *)

From S2P Require Import Prelude Ctype CString Encoding Highlighter.
#[local] Open Scope nat_scope.

(** The spans of an array (latest first) are in order and end before [bound]. *)
Fixpoint spans_below (bound : nat) (ret : list highlight_span) : Prop :=
  match ret with
  | [] => True
  | s :: ret' => 0 < span_len s /\ start s + span_len s <= bound /\ spans_below (start s) ret'
  end.

(** The same in the order of the text, from [last] on. *)
Fixpoint spans_ordered (last bound : nat) (spans : list highlight_span) : Prop :=
  match spans with
  | [] => last <= bound
  | s :: spans' => last <= start s /\ 0 < span_len s /\ spans_ordered (start s + span_len s) bound spans'
  end.

Lemma spans_below_mono (b b' : nat) (ret : list highlight_span) :
  b <= b' -> spans_below b ret -> spans_below b' ret.
Proof. destruct ret; cbn; [done |]. intros ? (? & ? & ?). repeat split; [done | lia | done]. Qed.

Lemma append_below (b : nat) (ret : list highlight_span) (s : string_span) (t : highlight_type) :
  spans_below (off s) ret -> off s + slen s <= b -> spans_below b (append_highlight_span ret s t).
Proof.
  intros Hr Hb. unfold append_highlight_span. destruct (Nat.eqb_spec (slen s) 0).
  - eapply spans_below_mono; [| done]. lia.
  - cbn. repeat split; [lia | lia | done].
Qed.

Lemma spans_ordered_snoc (last bound : nat) (spans : list highlight_span) (s : highlight_span) :
  spans_ordered last (start s) spans -> 0 < span_len s -> start s + span_len s <= bound ->
  spans_ordered last bound (spans ++ [s]).
Proof.
  revert last. induction spans as [|x spans IH]; intros last; cbn; [auto |].
  intros (? & ? & ?) ? ?. auto.
Qed.

Lemma spans_ordered_rev (bound : nat) (ret : list highlight_span) :
  spans_below bound ret -> spans_ordered 0 bound (rev ret).
Proof.
  revert bound. induction ret as [|s ret IH]; intros bound; cbn [rev spans_below spans_ordered]; [lia |].
  intros (? & ? & ?). by apply spans_ordered_snoc; [apply IH | |].
Qed.

Section Spans.
Context `{Platform} (config : list byte).

Lemma find_char_in (x : byte) (s : string_span) (l : list nat) (i : nat) :
  List.find (fun i => char_is (span_at config s i) x) l = Some i -> In i l.
Proof. intros E. by apply find_some in E as [? _]. Qed.

Lemma find_char_lt (x : byte) (s : string_span) (i : nat) :
  find_char config x s = Some i -> i < slen s.
Proof. intros E%find_char_in. apply in_seq in E. lia. Qed.

Lemma find_last_char_lt (x : byte) (s : string_span) (i : nat) :
  find_last_char config x s = Some i -> i < slen s.
Proof. intros E%find_char_in. apply in_rev, in_seq in E. lia. Qed.

(** Three spans one after the other. *)
Lemma append_three (ret : list highlight_span) (o n k : nat) (t1 t2 t3 : highlight_type) :
  spans_below o ret -> k < n ->
  spans_below (o + n)
    (append_highlight_span (append_highlight_span (append_highlight_span ret (Span o k) t1)
       (Span (o + k) 1) t2) (Span (o + k + 1) (n - k - 1)) t3).
Proof. intros Hr Hk. do 3 (apply append_below; cbn [off slen]; [| lia]). done. Qed.

Lemma multivalue_value_below (ret : list highlight_span) (s : string_span) (f : field) :
  spans_below (off s) ret ->
  spans_below (off s + slen s) (highlight_multivalue_value config ret s f).
Proof.
  intros Hr. assert (forall t, spans_below (off s + slen s) (append_highlight_span ret s t)) as Ha.
  { intros t. by apply append_below. }
  unfold highlight_multivalue_value. destruct f; try apply Ha; repeat case_match; try apply Ha.
  all: apply append_three; [done | by eapply find_char_lt].
Qed.

Lemma multivalue_loop_below (f : field) (s : string_span) (n i : nat) (ret : list highlight_span)
    (cur : string_span) (lals : nat) :
  n + i = slen s -> off cur + slen cur = off s + i -> lals <= slen cur -> spans_below (off cur) ret ->
  let '(ret', cur') := multivalue_loop config f s n i ret cur lals in
  spans_below (off cur') ret' /\ off cur' + slen cur' <= off s + slen s.
Proof.
  revert i ret cur lals. induction n as [|n IH]; intros i ret cur lals Hn Hc Hl Hr; cbn [multivalue_loop].
  { cbn. split; [done | lia]. }
  destruct (char_is _ ","%byte).
  { apply IH; cbn [off slen]; [lia | lia | lia |].
    apply append_below; cbn [off slen]; [| lia].
    eapply spans_below_mono; [| apply multivalue_value_below; done]. cbn. lia. }
  destruct (is_blank _).
  - destruct (Nat.eqb_spec (off s + i) (off cur)) as [E | E]; cbn [andb];
      [destruct (Nat.eqb_spec (slen cur) 0) as [E0 | E0] |];
      apply IH; cbn [off slen]; try lia; try done. eapply spans_below_mono; [| done]. lia.
  - apply IH; cbn [off slen]; try lia. done.
Qed.

Lemma multivalue_below (ret : list highlight_span) (s : string_span) (f : field) :
  spans_below (off s) ret -> spans_below (off s + slen s) (highlight_multivalue config ret s f).
Proof.
  intros Hr. unfold highlight_multivalue.
  pose proof (multivalue_loop_below f s (slen s) 0 ret (Span (off s) 0) 0) as Hl. cbn [off slen] in Hl.
  destruct (multivalue_loop _ _ _ _ _ _ _ _) as [ret' cur]. destruct Hl as [Hb Hc]; [lia .. | done |].
  destruct (negb _).
  - eapply spans_below_mono; [| by apply multivalue_value_below]. done.
  - assert (spans_below (off s + slen s) ret') as Hr' by (eapply spans_below_mono; [| done]; lia).
    destruct ret' as [|l ret']; [done |]. by destruct (decide _).
Qed.

Lemma highlight_value_below (ret : list highlight_span) (s : string_span) (f : field) :
  spans_below (off s) ret -> spans_below (off s + slen s) (highlight_value config ret s f).
Proof.
  intros Hr. assert (forall t, spans_below (off s + slen s) (append_highlight_span ret s t)) as Ha.
  { intros t. by apply append_below. }
  unfold highlight_value. destruct f; try apply Ha; try by apply multivalue_below.
  repeat case_match; [apply Ha | | eapply spans_below_mono; [| done]; lia].
  apply append_three; [done | by eapply find_last_char_lt].
Qed.

(** The invariant of the scanner before character [i]. *)
Record scan_ok (st : scan_state) (i : nat) : Prop := ScanOk {
  so_span : off (current_span st) + slen (current_span st) = i;
  so_ret : match on st with
           | OnValue => spans_below (equals_location st) (ret st)
                        /\ equals_location st < off (current_span st)
                        /\ (slen (current_span st) = 0 \/ len_at_last_space st <= slen (current_span st))
           | _ => spans_below (off (current_span st)) (ret st)
                  /\ len_at_last_space st <= slen (current_span st)
           end;
}.

Lemma end_token_below (st : scan_state) (i : nat) : scan_ok st i ->
  spans_below i (fst (end_token config st)).
Proof.
  intros [Hs Hr]. unfold end_token. destruct (on st); cbn [fst].
  - destruct Hr as [Hr _]. eapply spans_below_mono; [| done]. lia.
  - destruct Hr as [Hr Hl]. apply append_below; cbn; [done | lia].
  - destruct Hr as (Hr & He & Hl). destruct (Nat.eqb_spec (slen (current_span st)) 0); cbn [negb fst].
    + apply append_below; cbn; [done | lia].
    + destruct Hl as [Hl | Hl]; [lia |].
      eapply spans_below_mono; [| apply highlight_value_below; cbn [off]; apply append_below; cbn; [done | lia]].
      cbn. lia.
  - destruct Hr as [Hr _]. apply append_below; [done | lia].
  - destruct Hr as [Hr Hl]. apply append_below; cbn; [done | lia].
Qed.

Lemma scan_step_ok (st : scan_state) (i : nat) (c : byte) : scan_ok st i ->
  scan_ok (scan_step config st i c) (S i).
Proof.
  intros Hok. pose proof (end_token_below st i Hok) as Hend. destruct Hok as [Hs Hr].
  unfold scan_step. destruct (_ || _).
  { destruct (end_token config st) as [r section]. cbn [fst] in Hend.
    destruct (char_is c "#"%byte); constructor; cbn; [lia | | lia |].
    - split; [done | lia].
    - split; [| lia]. eapply spans_below_mono; [| done]. lia. }
  destruct (decide (on st = OnComment)) as [Ec | Ec].
  { constructor; cbn; [lia |]. rewrite Ec in *. destruct Hr. split; [done | lia]. }
  destruct (is_blank c).
  { destruct (Nat.eqb_spec i (off (current_span st))) as [E | E]; cbn [andb];
      [destruct (Nat.eqb_spec (slen (current_span st)) 0) as [E0 | E0] |];
      (constructor; cbn [off slen current_span on ret len_at_last_space equals_location]; [lia |]);
      destruct (on st); (destruct Hr as (Hr & He & Hl) || destruct Hr as [Hr Hl]);
      repeat split; try lia; (eapply spans_below_mono; [| exact Hr]; lia). }
  destruct (_ && bool_decide (on st = OnKey)) eqn:Ek.
  { apply andb_true_iff in Ek as [_ Ek%bool_decide_eq_true]. rewrite Ek in Hr. destruct Hr as [Hr Hl].
    constructor; cbn; [lia |]. repeat split; [| lia | by left].
    apply append_below; cbn; [done | lia]. }
  constructor; cbn; [lia |].
  destruct (on st); try done; cbn; try destruct (char_is c "["%byte); cbn;
    (destruct Hr as (Hr & He & Hl) || destruct Hr as [Hr Hl]); repeat split; try done; lia.
Qed.

Lemma scan_loop_below (rest : list byte) (st : scan_state) (i : nat) : scan_ok st i ->
  spans_below (i + length rest) (scan_loop config st i rest).
Proof.
  revert st i. induction rest as [|c rest IH]; intros st i Hok; cbn [scan_loop length].
  - rewrite Nat.add_0_r. by apply end_token_below.
  - rewrite Nat.add_succ_r. apply (IH _ (S i)). by apply scan_step_ok.
Qed.

Lemma highlight_config_ordered : spans_ordered 0 (length config) (highlight_config config).
Proof.
  apply spans_ordered_rev, (scan_loop_below config _ 0). by constructor.
Qed.
End Spans.

(** The spans [highlight_config] returns are nonempty, lie inside the text, and each
    begins where the previous one has ended or later. *)
Theorem highlight_spans_ordered `{Platform} (config : list byte) :
  spans_ordered 0 (length config) (highlight_config config).
Proof. apply highlight_config_ordered. Qed.

(** The text among the outputs. *)
Definition written (l : list output) : list byte :=
  concat (map (fun o => match o with Write s => s | Escape _ => [] end) l).

Lemma c_str_length (s : list byte) : length (c_str s) <= length s.
Proof. induction s as [|c s IH]; cbn; [done |]. destruct (Byte.eqb c x00); cbn; lia. Qed.

Lemma take_drop_split (l : list byte) (a b c : nat) : a <= b -> b <= c ->
  take (b - a) (drop a l) ++ take (c - b) (drop b l) = take (c - a) (drop a l).
Proof.
  intros. replace (drop b l) with (drop (b - a) (drop a l)) by (rewrite drop_drop; f_equal; lia).
  generalize (drop a l). intros m. replace (c - a) with ((b - a) + (c - b)) by lia.
  by rewrite take_take_drop.
Qed.

Lemma print_spans_written (input : list byte) (spans : list highlight_span) (last bound : nat) :
  spans_ordered last bound spans -> bound <= length input ->
  written (print_spans input last spans) = drop last input.
Proof.
  revert last. induction spans as [|s spans IH]; intros last; cbn [spans_ordered print_spans].
  - intros Hl Hb. unfold written. cbn. rewrite app_nil_r. apply take_ge. rewrite length_drop. lia.
  - intros (Hs & Hn & Ho) Hb. unfold written in *. cbn [map concat app fwrite].
    rewrite (IH _ Ho Hb).
    assert (start s + span_len s <= length input) as Hle.
    { clear -Ho Hb. revert Ho. generalize (start s + span_len s). induction spans as [|x l IH]; intros p.
      - cbn. lia.
      - intros (? & ? & ?). apply IH in H1. lia. }
    change ([] ++ ?x) with x. cbn [app].
    rewrite app_assoc. replace (span_len s) with (start s + span_len s - start s) at 1 by lia.
    rewrite take_drop_split by lia.
    replace (drop (start s + span_len s) input)
      with (drop (start s + span_len s - last) (drop last input)) by (rewrite drop_drop; f_equal; lia).
    apply take_drop.
Qed.

(** Highlighting loses nothing: whatever the input, the characters [highlight_main] writes
    between its colour sequences are exactly the input, in order. *)
Theorem highlight_main_faithful `{Platform} (input : list byte) :
  written (highlight_main input) = input.
Proof.
  unfold highlight_main.
  change (written (print_spans input 0 (highlight_config (c_str input))) = drop 0 input).
  eapply print_spans_written; [apply highlight_config_ordered | apply c_str_length].
Qed.

(** ** Endpoints *)

Section Endpoint.
Context `{Platform} (config : list byte).

Lemma find_last_char_some (x : byte) (s : string_span) (i : nat) : i < slen s ->
  char_is (span_at config s i) x = true -> exists j, find_last_char config x s = Some j.
Proof.
  intros Hi Hx. unfold find_last_char. destruct (List.find _ _) as [j |] eqn:E; [by exists j |].
  apply find_none with (x := i) in E; [congruence |]. apply in_rev. rewrite rev_involutive. apply in_seq. lia.
Qed.

Lemma bracket_loop_colon (s : string_span) (n i : nat) (seen : bool) (h : string_span) :
  n + i = slen s -> bracket_loop config s n i seen h = true ->
  exists j, j < slen s /\ char_is (span_at config s j) ":"%byte = true.
Proof.
  revert i seen h. induction n as [|n IH]; intros i seen h Hn; cbn [bracket_loop]; [done |].
  destruct (char_is _ "%"%byte).
  { destruct seen; [done |]. destruct (negb _); [done |]. intros E. eapply IH; [| exact E]. lia. }
  destruct (char_is (span_at config s i) "]"%byte); [| intros E; eapply IH; [| exact E]; lia].
  destruct (negb _); [done |]. destruct (Nat.eqb_spec i (slen s - 1)); [done |]. cbn [orb].
  destruct (char_is (span_at config s (i + 1)) ":"%byte) eqn:Ec; [| done]. intros _.
  exists (i + 1). split; [lia | done].
Qed.

(** The search for the last colon of an endpoint succeeds whenever the endpoint is valid,
    so the index never wraps around below zero. *)
Theorem endpoint_has_colon (s : string_span) : is_valid_endpoint config s = true ->
  exists colon, find_last_char config ":"%byte s = Some colon /\ colon < slen s.
Proof.
  intros Hv. assert (exists j, j < slen s /\ char_is (span_at config s j) ":"%byte = true) as (j & Hj & Hc).
  { unfold is_valid_endpoint in Hv. destruct (Nat.eqb_spec (slen s) 0); [done |].
    destruct (char_is _ "["%byte); [eapply bracket_loop_colon; [| exact Hv]; lia |].
    destruct (find_char config ":"%byte s) as [i |] eqn:E; [| done].
    exists i. split; [by eapply find_char_lt |]. by apply find_some in E as [_ ?]. }
  destruct (find_last_char_some ":"%byte s j Hj Hc) as [k E]. exists k. split; [done |].
  by eapply find_last_char_lt.
Qed.
End Endpoint.

(** ** Keys *)

Section Keys.
Context `{Platform} (config : list byte).

(** The characters the highlighter accepts are the base64 digits. *)
Lemma key_char_digit (c : byte) :
  (is_decimal c || is_alphabet c || char_is c "/"%byte || char_is c "+"%byte = true
   <-> (0 <= base64_digit c)%Z)
  /\ (key_last_char c = true <-> (0 <= base64_digit c /\ base64_digit c mod 4 = 0)%Z).
Proof.
  assert (forall b P, @char_signed H = b -> @base64_digit H c
    = @base64_digit {| char_signed := b; ulong_bits := P |} c
    /\ @is_decimal H c = @is_decimal {| char_signed := b; ulong_bits := P |} c
    /\ @is_alphabet H c = @is_alphabet {| char_signed := b; ulong_bits := P |} c) as Hp.
  { intros b P <-. done. }
  destruct (Hp _ 0%Z eq_refl) as (-> & -> & ->). clear Hp.
  assert (forall b, let P := {| char_signed := b; ulong_bits := 0 |} in
    forallb (fun c =>
      Bool.eqb (is_decimal c || is_alphabet c || char_is c "/"%byte || char_is c "+"%byte)
        (0 <=? base64_digit c)%Z
      && Bool.eqb (key_last_char c) ((0 <=? base64_digit c) && (base64_digit c mod 4 =? 0))%Z)
    all_bytes = true) as Hall by by intros []; vm_compute.
  pose proof (byte_exhaust _ (Hall (@char_signed H)) c) as Hc. cbv beta zeta in Hc. clear Hall.
  apply andb_true_iff in Hc as [H1%eqb_prop H2%eqb_prop]. rewrite H1, H2.
  rewrite andb_true_iff, !Z.leb_le, Z.eqb_eq. done.
Qed.

(** The highlighter and the configuration reader agree on keys: a span is coloured as a
    key exactly when [key_from_base64] accepts its text. *)
Theorem is_valid_key_agrees (s : string_span) (old : list byte) :
  is_valid_key config s = snd (key_from_base64 old (span_text config s)).
Proof.
  assert (length (span_text config s) = slen s) as Hlen by (unfold span_text; by rewrite length_map, length_seq).
  assert (forall i, i < slen s -> byte_at (span_text config s) i = span_at config s i) as Hat.
  { intros i Hi. unfold byte_at, span_text. rewrite nth_indep with (d' := span_at config s 0)
      by (by rewrite length_map, length_seq). rewrite map_nth, seq_nth by done. done. }
  unfold is_valid_key. destruct (Nat.eqb_spec (slen s) 44) as [E | E]; cbn [negb orb].
  2:{ unfold key_from_base64. rewrite Hlen. destruct (Nat.eqb_spec (slen s) (WG_KEY_LEN_BASE64 - 1)); done. }
  destruct (char_is (span_at config s 43) "="%byte) eqn:E43; cbn [negb].
  2:{ unfold key_from_base64. rewrite Hlen, E.
      change (Byte.eqb (byte_at (span_text config s) (WG_KEY_LEN_BASE64 - 2)) "="%byte)
        with (char_is (byte_at (span_text config s) 43) "="%byte). by rewrite Hat, E43 by lia. }
  apply byte_eqb_eq in E43.
  pose proof (key_from_base64_digits old (span_text config s)) as Hd.
  rewrite Hlen, !Hat in Hd by lia. specialize (Hd E E43).
  destruct (key_char_digit (span_at config s 42)) as [Hdig Hlast].
  assert (take 43 (span_text config s) = map (span_at config s) (seq 0 42) ++ [span_at config s 42]) as Ht.
  { unfold span_text. by rewrite E. }
  rewrite Ht, Forall_app, Forall_singleton, Forall_map in Hd.
  apply eq_true_iff_eq. rewrite Hd. clear Hd Ht.
  destruct (forallb _ _) eqn:Ef; cbn [negb].
  - rewrite Hlast. assert (Forall (fun i => (0 <= base64_digit (span_at config s i))%Z) (seq 0 42)) as HF.
    { apply List.Forall_forall. intros i Hi. rewrite forallb_forall in Ef. by apply (proj1 (key_char_digit _)), Ef. }
    unfold compose. tauto.
  - split; [done |]. intros [[HF _] _]. rewrite <- Ef. apply forallb_forall. intros i Hi.
    rewrite List.Forall_forall in HF. by apply (proj1 (key_char_digit _)), HF.
Qed.
End Keys.

(** The test for two dots in a row comes after the dots have been skipped, so a host name
    with an empty label is taken for valid. *)
Lemma hostname_empty_label :
  @is_valid_hostname lp64_x86 (text "a..b") (Span 0 4) = true.
Proof. vm_compute. reflexivity. Qed.

Lemma endpoint_has_colon_witness :
  exists colon, @find_last_char (text "[::1]:80") ":"%byte (Span 0 8) = Some colon /\ colon < slen (Span 0 8).
Proof. apply (@endpoint_has_colon lp64_x86 (text "[::1]:80") (Span 0 8)). vm_compute. reflexivity. Defined.
