(* ===== verification/Curve25519.v ===== *)
(** * X25519 (src/curve25519.c, src/curve25519.h, src/curve25519-hacl64.h)

    The 64-bit implementation, statement by statement.  An array of five words, [u64 *]
    or [u128 *], is a [limbs] record, in radix 2^51; every operation on words wraps around
    at their width.  A function that writes through a pointer returns what it writes.  The
    arrays a function scribbles on and whose contents are not read again ([tmp], the points
    [addanddouble_fmonty] starts from) are not returned. *)

From S2P Require Import Prelude Encoding.
#[local] Open Scope Z_scope.

Record limbs := Limbs { w0 : Z; w1 : Z; w2 : Z; w3 : Z; w4 : Z }.

Definition zero_limbs : limbs := Limbs 0 0 0 0 0.

(** 0x7ffffffffffffLLU. *)
Definition mask51 : Z := 2 ^ 51 - 1.

(** ** Unaligned access and clamping *)

Definition get_unaligned_le64 (a : list byte) : Z := le_bytes (take 8 a).
Definition put_unaligned_le64 (s : Z) : list byte := bytes_le 8 s.

Definition curve25519_clamp_secret (secret : list byte) : list byte :=
  match secret with
  | s0 :: rest =>
      let secret := z2b (Z.land (b2z s0) 248) :: rest in
      <[31%nat := z2b (Z.lor (Z.land (b2z (byte_at secret 31)) 127) 64)]> secret
  | [] => []
  end.

(** ** Masks *)

Definition u64_eq_mask (a b : Z) : Z :=
  let x := Z.lxor a b in
  let minus_x := u64 (u64 (Z.lnot x) + 1) in
  let x_or_minus_x := Z.lor x minus_x in
  let xnx := Z.shiftr x_or_minus_x 63 in
  u64 (xnx - 1).

Definition u64_gte_mask (a b : Z) : Z :=
  let x := a in
  let y := b in
  let x_xor_y := Z.lxor x y in
  let x_sub_y := u64 (x - y) in
  let x_sub_y_xor_y := Z.lxor x_sub_y y in
  let q := Z.lor x_xor_y x_sub_y_xor_y in
  let x_xor_q := Z.lxor x q in
  let x_xor_q_ := Z.shiftr x_xor_q 63 in
  u64 (x_xor_q_ - 1).

(** ** Carries *)

Definition modulo_carry_top (b : limbs) : limbs :=
  let '(Limbs b0 b1 b2 b3 b4) := b in
  let b4_ := Z.land b4 mask51 in
  let b0_ := u64 (b0 + u64 (19 * Z.shiftr b4 51)) in
  Limbs b0_ b1 b2 b3 b4_.

Definition fproduct_copy_from_wide_ (input : limbs) : limbs :=
  let '(Limbs t0 t1 t2 t3 t4) := input in
  Limbs (u64 t0) (u64 t1) (u64 t2) (u64 t3) (u64 t4).

(** [output\[i\] += (u128)input\[i\] * s]. *)
Definition fproduct_sum_scalar_multiplication_ (output input : limbs) (s : Z) : limbs :=
  let '(Limbs o0 o1 o2 o3 o4) := output in
  let '(Limbs i0 i1 i2 i3 i4) := input in
  Limbs (u128 (o0 + u128 (i0 * s))) (u128 (o1 + u128 (i1 * s))) (u128 (o2 + u128 (i2 * s)))
    (u128 (o3 + u128 (i3 * s))) (u128 (o4 + u128 (i4 * s))).

Definition fproduct_carry_wide_ (tmp : limbs) : limbs :=
  let '(Limbs t0 t1 t2 t3 t4) := tmp in
  let r0 := Z.land (u64 t0) mask51 in
  let t1 := u128 (t1 + Z.shiftr t0 51) in
  let r1 := Z.land (u64 t1) mask51 in
  let t2 := u128 (t2 + Z.shiftr t1 51) in
  let r2 := Z.land (u64 t2) mask51 in
  let t3 := u128 (t3 + Z.shiftr t2 51) in
  let r3 := Z.land (u64 t3) mask51 in
  let t4 := u128 (t4 + Z.shiftr t3 51) in
  Limbs r0 r1 r2 r3 t4.

(** The end of [fmul_fmul], [fsquare_fsquare_] and [fscalar] on the wide words: the top
    carry, times 19, goes to the lowest word. *)
Definition wide_carry_top (t : limbs) : limbs :=
  let '(Limbs b0 t1 t2 t3 b4) := t in
  let b4_ := Z.land b4 mask51 in
  let b0_ := u128 (b0 + u128 (19 * u64 (Z.shiftr b4 51))) in
  Limbs b0_ t1 t2 t3 b4_.

(** The end of [fmul_fmul] and [fsquare_fsquare_] on the output. *)
Definition carry_0_to_1 (output : limbs) : limbs :=
  let '(Limbs i0 i1 o2 o3 o4) := output in
  Limbs (Z.land i0 mask51) (u64 (i1 + Z.shiftr i0 51)) o2 o3 o4.

(** ** Multiplication *)

Definition fmul_shift_reduce (output : limbs) : limbs :=
  let '(Limbs o0 o1 o2 o3 tmp) := output in
  Limbs (u64 (19 * tmp)) o0 o1 o2 o3.

Definition fmul_mul_shift_reduce_ (output input input21 : limbs) : limbs :=
  let '(Limbs s0 s1 s2 s3 s4) := input21 in
  let output := fproduct_sum_scalar_multiplication_ output input s0 in
  let input := fmul_shift_reduce input in
  let output := fproduct_sum_scalar_multiplication_ output input s1 in
  let input := fmul_shift_reduce input in
  let output := fproduct_sum_scalar_multiplication_ output input s2 in
  let input := fmul_shift_reduce input in
  let output := fproduct_sum_scalar_multiplication_ output input s3 in
  let input := fmul_shift_reduce input in
  fproduct_sum_scalar_multiplication_ output input s4.

Definition fmul_fmul (input input21 : limbs) : limbs :=
  let t := fmul_mul_shift_reduce_ zero_limbs input input21 in
  let t := fproduct_carry_wide_ t in
  let t := wide_carry_top t in
  carry_0_to_1 (fproduct_copy_from_wide_ t).

Definition fmul (a b : limbs) : limbs := fmul_fmul a b.

(** ** Squaring *)

Definition fsquare_fsquare__ (output : limbs) : limbs :=
  let '(Limbs r0 r1 r2 r3 r4) := output in
  let d0 := u64 (r0 * 2) in
  let d1 := u64 (r1 * 2) in
  let d2 := u64 (u64 (r2 * 2) * 19) in
  let d419 := u64 (r4 * 19) in
  let d4 := u64 (d419 * 2) in
  let add3 a b c := u128 (u128 (u128 a + u128 b) + u128 c) in
  Limbs (add3 (r0 * r0) (d4 * r1) (d2 * r3))
    (add3 (d0 * r1) (d4 * r2) (u64 (r3 * 19) * r3))
    (add3 (d0 * r2) (r1 * r1) (d4 * r3))
    (add3 (d0 * r3) (d1 * r2) (r4 * d419))
    (add3 (d0 * r4) (d1 * r3) (r2 * r2)).

Definition fsquare_fsquare_ (output : limbs) : limbs :=
  let tmp := fsquare_fsquare__ output in
  let tmp := fproduct_carry_wide_ tmp in
  let tmp := wide_carry_top tmp in
  carry_0_to_1 (fproduct_copy_from_wide_ tmp).

(** [count1] squarings, at least one. *)
Definition fsquare_fsquare_times_ (output : limbs) (count1 : nat) : limbs :=
  Nat.iter (count1 - 1) fsquare_fsquare_ (fsquare_fsquare_ output).

Definition fsquare_fsquare_times (input : limbs) (count1 : nat) : limbs := fsquare_fsquare_times_ input count1.
Definition fsquare_fsquare_times_inplace (output : limbs) (count1 : nat) : limbs :=
  fsquare_fsquare_times_ output count1.

Definition crecip_crecip (z : limbs) : limbs :=
  let a0 := fsquare_fsquare_times z 1 in
  let t00 := fsquare_fsquare_times a0 2 in
  let b0 := fmul_fmul t00 z in
  let a0 := fmul_fmul b0 a0 in
  let t00 := fsquare_fsquare_times a0 1 in
  let b0 := fmul_fmul t00 b0 in
  let t01 := fsquare_fsquare_times b0 5 in
  let b1 := fmul_fmul t01 b0 in
  let t01 := fsquare_fsquare_times b1 10 in
  let c0 := fmul_fmul t01 b1 in
  let t01 := fsquare_fsquare_times c0 20 in
  let t01 := fmul_fmul t01 c0 in
  let t01 := fsquare_fsquare_times_inplace t01 10 in
  let b1 := fmul_fmul t01 b1 in
  let t01 := fsquare_fsquare_times b1 50 in
  let c := fmul_fmul t01 b1 in
  let t0 := fsquare_fsquare_times c 100 in
  let t0 := fmul_fmul t0 c in
  let t0 := fsquare_fsquare_times_inplace t0 50 in
  let t0 := fmul_fmul t0 b1 in
  let t0 := fsquare_fsquare_times_inplace t0 5 in
  fmul_fmul t0 a0.

Definition crecip (input : limbs) : limbs := crecip_crecip input.

(** ** Sum, difference, small multiples *)

Definition fsum (a b : limbs) : limbs :=
  Limbs (u64 (w0 a + w0 b)) (u64 (w1 a + w1 b)) (u64 (w2 a + w2 b)) (u64 (w3 a + w3 b)) (u64 (w4 a + w4 b)).

(** [a := b + 8p - a]. *)
Definition fdifference (a b : limbs) : limbs :=
  let tmp := Limbs (u64 (w0 b + 0x3fffffffffff68)) (u64 (w1 b + 0x3ffffffffffff8))
               (u64 (w2 b + 0x3ffffffffffff8)) (u64 (w3 b + 0x3ffffffffffff8))
               (u64 (w4 b + 0x3ffffffffffff8)) in
  Limbs (u64 (w0 tmp - w0 a)) (u64 (w1 tmp - w1 a)) (u64 (w2 tmp - w2 a)) (u64 (w3 tmp - w3 a))
    (u64 (w4 tmp - w4 a)).

Definition fscalar (b : limbs) (s : Z) : limbs :=
  let tmp := Limbs (u128 (w0 b * s)) (u128 (w1 b * s)) (u128 (w2 b * s)) (u128 (w3 b * s)) (u128 (w4 b * s)) in
  let tmp := fproduct_carry_wide_ tmp in
  let tmp := wide_carry_top tmp in
  fproduct_copy_from_wide_ tmp.

(** ** The ladder *)

(** The ten words of a point, its coordinates x and z. *)
Definition point : Type := limbs * limbs.

(** One word of the two points. *)
Definition point_swap_conditional_step (ai bi swap1 : Z) : Z * Z :=
  let x := Z.land swap1 (Z.lxor ai bi) in
  (Z.lxor ai x, Z.lxor bi x).

Definition point_swap_conditional5 (a b : limbs) (swap1 : Z) : limbs * limbs :=
  let s x y := point_swap_conditional_step x y swap1 in
  let '(a4, b4) := s (w4 a) (w4 b) in
  let '(a3, b3) := s (w3 a) (w3 b) in
  let '(a2, b2) := s (w2 a) (w2 b) in
  let '(a1, b1) := s (w1 a) (w1 b) in
  let '(a0, b0) := s (w0 a) (w0 b) in
  (Limbs a0 a1 a2 a3 a4, Limbs b0 b1 b2 b3 b4).

Definition point_swap_conditional (a b : point) (iswap : Z) : point * point :=
  let swap1 := u64 (0 - iswap) in
  let '(ax, bx) := point_swap_conditional5 (fst a) (fst b) swap1 in
  let '(az, bz) := point_swap_conditional5 (snd a) (snd b) swap1 in
  ((ax, az), (bx, bz)).

(** The new [pp] and [ppq]. *)
Definition addanddouble_fmonty (p pq : point) (qmqp : limbs) : point * point :=
  let qx := qmqp in
  let '(x, z) := p in
  let '(xprime, zprime) := pq in
  let origx := x in
  let x := fsum x z in
  let z := fdifference z origx in
  let origxprime := xprime in
  let xprime := fsum xprime zprime in
  let zprime := fdifference zprime origxprime in
  let xxprime := fmul xprime z in
  let zzprime := fmul x zprime in
  let origxprime := xxprime in
  let xxprime := fsum xxprime zzprime in
  let zzprime := fdifference zzprime origxprime in
  let x3 := fsquare_fsquare_times xxprime 1 in
  let zzzprime := fsquare_fsquare_times zzprime 1 in
  let z3 := fmul zzzprime qx in
  let xx := fsquare_fsquare_times x 1 in
  let zz := fsquare_fsquare_times z 1 in
  let x2 := fmul xx zz in
  let zz := fdifference zz xx in
  let scalar := 121665 in
  let zzz := fscalar zz scalar in
  let zzz := fsum zzz xx in
  let z2 := fmul zzz zz in
  ((x2, z2), (x3, z3)).

Definition ladder_smallloop_cmult_small_loop_step (nq nqpq : point) (q : limbs) (byt : Z) : point * point :=
  let bit0 := Z.shiftr byt 7 in
  let '(nq, nqpq) := point_swap_conditional nq nqpq bit0 in
  let '(nq2, nqpq2) := addanddouble_fmonty nq nqpq q in
  let bit := Z.shiftr byt 7 in
  point_swap_conditional nq2 nqpq2 bit.

Definition ladder_smallloop_cmult_small_loop_double_step (nq nqpq : point) (q : limbs) (byt : Z) : point * point :=
  let '(nq2, nqpq2) := ladder_smallloop_cmult_small_loop_step nq nqpq q byt in
  let byt1 := u8 (Z.shiftl byt 1) in
  ladder_smallloop_cmult_small_loop_step nq2 nqpq2 q byt1.

(** The points [nq] and [nqpq] are passed from turn to turn as one pair. *)
Fixpoint ladder_smallloop_cmult_small_loop (nqs : point * point) (q : limbs) (byt : Z) (i : nat) {struct i} :
    point * point :=
  match i with
  | O => nqs
  | S i =>
      ladder_smallloop_cmult_small_loop
        (ladder_smallloop_cmult_small_loop_double_step (fst nqs) (snd nqs) q byt) q (u8 (Z.shiftl byt 2)) i
  end.

Fixpoint ladder_bigloop_cmult_big_loop (n1 : list byte) (nqs : point * point) (q : limbs) (i : nat) {struct i} :
    point * point :=
  match i with
  | O => nqs
  | S i =>
      let byte := b2z (byte_at n1 i) in
      ladder_bigloop_cmult_big_loop n1 (ladder_smallloop_cmult_small_loop nqs q byte 4) q i
  end.

(** [q] is the point of the base; the formulas use its x coordinate. *)
Definition ladder_cmult (n1 : list byte) (q : point) : point :=
  let nqpq := q in
  let nq := (Limbs 1 0 0 0 0, zero_limbs) in
  fst (ladder_bigloop_cmult_big_loop n1 (nq, nqpq) (fst q) 32).

(** ** Reading and writing field elements *)

Definition format_fexpand (input : list byte) : limbs :=
  let i0 := get_unaligned_le64 input in
  let i1 := get_unaligned_le64 (drop 6 input) in
  let i2 := get_unaligned_le64 (drop 12 input) in
  let i3 := get_unaligned_le64 (drop 19 input) in
  let i4 := get_unaligned_le64 (drop 24 input) in
  Limbs (Z.land i0 mask51) (Z.land (Z.shiftr i1 3) mask51) (Z.land (Z.shiftr i2 6) mask51)
    (Z.land (Z.shiftr i3 1) mask51) (Z.land (Z.shiftr i4 12) mask51).

Definition format_fcontract_first_carry_pass (input : limbs) : limbs :=
  let '(Limbs t0 t1 t2 t3 t4) := input in
  let t1_ := u64 (t1 + Z.shiftr t0 51) in
  let t0_ := Z.land t0 mask51 in
  let t2_ := u64 (t2 + Z.shiftr t1_ 51) in
  let t1__ := Z.land t1_ mask51 in
  let t3_ := u64 (t3 + Z.shiftr t2_ 51) in
  let t2__ := Z.land t2_ mask51 in
  let t4_ := u64 (t4 + Z.shiftr t3_ 51) in
  let t3__ := Z.land t3_ mask51 in
  Limbs t0_ t1__ t2__ t3__ t4_.

Definition format_fcontract_first_carry_full (input : limbs) : limbs :=
  modulo_carry_top (format_fcontract_first_carry_pass input).

(** The body is that of the first pass. *)
Definition format_fcontract_second_carry_pass (input : limbs) : limbs :=
  let '(Limbs t0 t1 t2 t3 t4) := input in
  let t1_ := u64 (t1 + Z.shiftr t0 51) in
  let t0_ := Z.land t0 mask51 in
  let t2_ := u64 (t2 + Z.shiftr t1_ 51) in
  let t1__ := Z.land t1_ mask51 in
  let t3_ := u64 (t3 + Z.shiftr t2_ 51) in
  let t2__ := Z.land t2_ mask51 in
  let t4_ := u64 (t4 + Z.shiftr t3_ 51) in
  let t3__ := Z.land t3_ mask51 in
  Limbs t0_ t1__ t2__ t3__ t4_.

Definition format_fcontract_second_carry_full (input : limbs) : limbs :=
  let input := format_fcontract_second_carry_pass input in
  let '(Limbs i0 i1 i2 i3 i4) := modulo_carry_top input in
  let i0_ := Z.land i0 mask51 in
  let i1_ := u64 (i1 + Z.shiftr i0 51) in
  Limbs i0_ i1_ i2 i3 i4.

Definition format_fcontract_trim (input : limbs) : limbs :=
  let '(Limbs a0 a1 a2 a3 a4) := input in
  let mask0 := u64_gte_mask a0 0x7ffffffffffed in
  let mask1 := u64_eq_mask a1 mask51 in
  let mask2 := u64_eq_mask a2 mask51 in
  let mask3 := u64_eq_mask a3 mask51 in
  let mask4 := u64_eq_mask a4 mask51 in
  let mask := Z.land (Z.land (Z.land (Z.land mask0 mask1) mask2) mask3) mask4 in
  Limbs (u64 (a0 - Z.land 0x7ffffffffffed mask)) (u64 (a1 - Z.land mask51 mask))
    (u64 (a2 - Z.land mask51 mask)) (u64 (a3 - Z.land mask51 mask)) (u64 (a4 - Z.land mask51 mask)).

Definition format_fcontract_store (input : limbs) : list byte :=
  let '(Limbs t0 t1 t2 t3 t4) := input in
  let o0 := Z.lor (u64 (Z.shiftl t1 51)) t0 in
  let o1 := Z.lor (u64 (Z.shiftl t2 38)) (Z.shiftr t1 13) in
  let o2 := Z.lor (u64 (Z.shiftl t3 25)) (Z.shiftr t2 26) in
  let o3 := Z.lor (u64 (Z.shiftl t4 12)) (Z.shiftr t3 39) in
  put_unaligned_le64 o0 ++ put_unaligned_le64 o1 ++ put_unaligned_le64 o2 ++ put_unaligned_le64 o3.

Definition format_fcontract (input : limbs) : list byte :=
  let input := format_fcontract_first_carry_full input in
  let input := format_fcontract_second_carry_full input in
  let input := format_fcontract_trim input in
  format_fcontract_store input.

Definition format_scalar_of_point (point : limbs * limbs) : list byte :=
  let '(x, z) := point in
  let zmone := crecip z in
  let sc := fmul x zmone in
  format_fcontract sc.

(** ** [curve25519] *)

Definition curve25519_generic (secret basepoint : list byte) : list byte :=
  let q := (format_fexpand basepoint, Limbs 1 0 0 0 0) in
  let e := curve25519_clamp_secret secret in
  let nq := ladder_cmult e q in
  format_scalar_of_point nq.

Definition curve25519 (secret basepoint : list byte) : list byte := curve25519_generic secret basepoint.

Definition curve25519_basepoint : list byte := z2b 9 :: repeat x00 31.

Definition curve25519_generate_public (secret : list byte) : list byte :=
  curve25519 secret curve25519_basepoint.
