(* ===== verification/Rfc7748.v ===== *)
(** * X25519 as RFC 7748 states it

    The field of the integers modulo 2^255 - 19, the Montgomery ladder over it, and the
    decoding of the scalar: what both implementations are compared with. *)

From Stdlib Require Import Setoid Morphisms Zpow_facts.
From S2P Require Import Prelude Encoding Curve25519.
#[local] Open Scope Z_scope.
#[local] Opaque Z.pow.

Definition p25519 : Z := 2 ^ 255 - 19.

(** ** Congruence *)

Definition eqp (a b : Z) : Prop := (p25519 | a - b).
Infix "≡p" := eqp (at level 70).

(** A multiple of [p25519] does not count. *)
Lemma eqp_multiple (a b k : Z) : a = b + k * p25519 -> a ≡p b.
Proof. intros ->. exists k. lia. Qed.

Lemma eqp_iff (a b : Z) : a ≡p b <-> a mod p25519 = b mod p25519.
Proof.
  split.
  - intros [k Hk]. replace a with (b + k * p25519) by lia. by apply Z.mod_add.
  - intros H. apply (eqp_multiple a b (a / p25519 - b / p25519)).
    pose proof (Z.div_mod a p25519 ltac:(done)). pose proof (Z.div_mod b p25519 ltac:(done)). lia.
Qed.

#[export] Instance eqp_equiv : Equivalence eqp.
Proof.
  split.
  - intros a. by apply eqp_iff.
  - intros a b. by rewrite !eqp_iff.
  - intros a b c. rewrite !eqp_iff. congruence.
Qed.

#[export] Instance eqp_add : Proper (eqp ==> eqp ==> eqp) Z.add.
Proof. intros a a' [j Hj] b b' [k Hk]. exists (j + k). lia. Qed.

#[export] Instance eqp_sub : Proper (eqp ==> eqp ==> eqp) Z.sub.
Proof. intros a a' [j Hj] b b' [k Hk]. exists (j - k). lia. Qed.

#[export] Instance eqp_mul : Proper (eqp ==> eqp ==> eqp) Z.mul.
Proof. intros a a' [j Hj] b b' [k Hk]. exists (a * k + j * b'). lia. Qed.

Lemma eqp_mod (a : Z) : a mod p25519 ≡p a.
Proof. apply eqp_iff. by apply Z.mod_mod. Qed.

Lemma eqp_pow (a b k : Z) : 0 <= k -> a ≡p b -> a ^ k ≡p b ^ k.
Proof.
  intros Hk Hab. pattern k. apply natlike_ind; [done | | done]. intros x Hx IH.
  rewrite !Z.pow_succ_r by done. by rewrite IH, Hab.
Qed.

(** ** The ladder *)

Definition fadd (a b : Z) : Z := (a + b) mod p25519.
Definition fsub (a b : Z) : Z := (a - b) mod p25519.
Definition fprod (a b : Z) : Z := (a * b) mod p25519.
Definition fsq (a : Z) : Z := fprod a a.
Definition finv (a : Z) : Z := Zpow_mod a (p25519 - 2) p25519.

(** The coordinates (x : z) of the two points of the ladder. *)
Definition ladder_state : Type := (Z * Z) * (Z * Z).
Definition cswap {A} (swap : bool) (st : A * A) : A * A := if swap then (snd st, fst st) else st.

(** Doubling the first point and adding the second, their difference having coordinate [x1]. *)
Definition ladder_step (x1 : Z) (st : ladder_state) : ladder_state :=
  let '((x2, z2), (x3, z3)) := st in
  let A := fadd x2 z2 in
  let AA := fsq A in
  let B := fsub x2 z2 in
  let BB := fsq B in
  let E := fsub AA BB in
  let C := fadd x3 z3 in
  let D := fsub x3 z3 in
  let DA := fprod D A in
  let CB := fprod C B in
  ((fprod AA BB, fprod E (fadd AA (fprod 121665 E))), (fsq (fadd DA CB), fprod x1 (fsq (fsub DA CB)))).

Definition ladder_bit (x1 : Z) (st : ladder_state) (bit : bool) : ladder_state :=
  cswap bit (ladder_step x1 (cswap bit st)).

(** The bits of [k] from number [n - 1] down to 0. *)
Definition bits_down (k : Z) (n : nat) : list bool := map (fun i => Z.testbit k (Z.of_nat i)) (rev (seq 0 n)).

Lemma bits_down_S (k : Z) (n : nat) : bits_down k (S n) = Z.testbit k (Z.of_nat n) :: bits_down k n.
Proof. unfold bits_down. by rewrite seq_S, rev_app_distr. Qed.

(** The ladder over the [bits] low bits of [k]. *)
Definition ladder (bits : nat) (k u : Z) : Z :=
  let '((x2, z2), _) := fold_left (ladder_bit u) (bits_down k bits) ((1, 0), (u, 1)) in
  fprod x2 (finv z2).

(** The function of the RFC, on a scalar and a coordinate already decoded. *)
Definition x25519 (k u : Z) : Z := ladder 255 k u.

(** The scalar with its three low bits and its top bit cleared and the next one set. *)
Definition clamp (k : Z) : Z := 2 ^ 254 + 8 * (k mod 2 ^ 254 / 8).

Lemma fadd_eqp (a b : Z) : fadd a b ≡p a + b.
Proof. apply eqp_mod. Qed.
Lemma fsub_eqp (a b : Z) : fsub a b ≡p a - b.
Proof. apply eqp_mod. Qed.
Lemma fprod_eqp (a b : Z) : fprod a b ≡p a * b.
Proof. apply eqp_mod. Qed.

#[export] Instance fadd_proper : Proper (eqp ==> eqp ==> eqp) fadd.
Proof. intros a a' Ha b b' Hb. by rewrite !fadd_eqp, Ha, Hb. Qed.
#[export] Instance fsub_proper : Proper (eqp ==> eqp ==> eqp) fsub.
Proof. intros a a' Ha b b' Hb. by rewrite !fsub_eqp, Ha, Hb. Qed.
#[export] Instance fprod_proper : Proper (eqp ==> eqp ==> eqp) fprod.
Proof. intros a a' Ha b b' Hb. by rewrite !fprod_eqp, Ha, Hb. Qed.

Lemma fadd_comm (a b : Z) : fadd a b = fadd b a.
Proof. unfold fadd. by rewrite Z.add_comm. Qed.
Lemma fprod_comm (a b : Z) : fprod a b = fprod b a.
Proof. unfold fprod. by rewrite Z.mul_comm. Qed.
Lemma fsq_swap (a b : Z) : fsq (fsub a b) = fsq (fsub b a).
Proof. apply eqp_iff. rewrite !fsub_eqp. apply (eqp_multiple _ _ 0). ring. Qed.

Lemma finv_eqp (a : Z) : finv a ≡p a ^ (p25519 - 2).
Proof. unfold finv. rewrite Zpow_mod_correct by done. apply eqp_mod. Qed.

(** ** Bytes and numbers *)

Lemma lxor_small_range (a b n : Z) : 0 <= n -> 0 <= a < 2 ^ n -> 0 <= b < 2 ^ n -> 0 <= Z.lxor a b < 2 ^ n.
Proof.
  intros Hn Ha Hb. assert (forall z, 0 <= z < 2 ^ n <-> Z.shiftr z n = 0) as Hz.
  { intros z. rewrite Z.shiftr_div_pow2 by done. rewrite Z.div_small_iff by lia. lia. }
  rewrite Hz in *. by rewrite Z.shiftr_lxor, Ha, Hb.
Qed.

Lemma le_bytes_drop (k : nat) (s : list byte) : le_bytes (drop k s) = le_bytes s / 256 ^ Z.of_nat k.
Proof.
  revert s. induction k as [|k IH]; intros s.
  - cbn [drop]. change (256 ^ Z.of_nat 0) with 1. by rewrite Z.div_1_r.
  - destruct s as [|b s]; cbn [drop le_bytes]; [by rewrite Z.div_0_l by lia |].
    rewrite IH, Nat2Z.inj_succ, Z.pow_succ_r, <- Z.div_div by lia. f_equal.
    pose proof (b2z_range b). zlia.
Qed.

Lemma le_bytes_app (a b : list byte) : le_bytes (a ++ b) = le_bytes a + 256 ^ Z.of_nat (length a) * le_bytes b.
Proof.
  induction a as [|x a IH]; cbn [app le_bytes length].
  - change (256 ^ Z.of_nat 0) with 1. lia.
  - rewrite IH, Nat2Z.inj_succ, Z.pow_succ_r by lia. ring.
Qed.

Lemma le_bytes_take (k : nat) (s : list byte) : le_bytes (take k s) = le_bytes s mod 256 ^ Z.of_nat k.
Proof.
  pose proof (le_bytes_range (take k s)) as Hr.
  assert (le_bytes s = le_bytes (take k s) + 256 ^ Z.of_nat (length (take k s)) * le_bytes (drop k s)) as E.
  { rewrite <- (take_drop k s) at 1. apply le_bytes_app. }
  destruct (Nat.le_gt_cases k (length s)) as [Hl | Hl].
  - rewrite length_take_le in * by lia. rewrite E. rewrite Z.mul_comm, Z.mod_add by lia. by rewrite Z.mod_small.
  - rewrite take_ge in * by lia. rewrite Z.mod_small; [done |]. split; [lia |].
    eapply Z.lt_le_trans; [apply Hr |]. apply Z.pow_le_mono_r; lia.
Qed.

Lemma bytes_le_app (m n : nat) (z : Z) : bytes_le (m + n) z = bytes_le m z ++ bytes_le n (z / 256 ^ Z.of_nat m).
Proof.
  revert z. induction m as [|m IH]; intros z; cbn [Nat.add bytes_le app].
  - change (256 ^ Z.of_nat 0) with 1. by rewrite Z.div_1_r.
  - rewrite IH, Nat2Z.inj_succ, Z.pow_succ_r, Z.div_div by lia. done.
Qed.

Lemma bytes_le_mod (n : nat) (z : Z) : bytes_le n (z mod 256 ^ Z.of_nat n) = bytes_le n z.
Proof.
  rewrite <- le_bytes_bytes_le. pose proof (bytes_le_le_bytes (bytes_le n z)) as H.
  by rewrite bytes_le_length in H.
Qed.

Lemma testbit_le_bytes (s : list byte) (i j : nat) : (j < 8)%nat ->
  Z.testbit (le_bytes s) (Z.of_nat (8 * i + j)) = Z.testbit (b2z (byte_at s i)) (Z.of_nat j).
Proof.
  intros Hj. assert (b2z (byte_at s i) = le_bytes s / 2 ^ (8 * Z.of_nat i) mod 2 ^ 8) as ->.
  { rewrite (Z.pow_mul_r 2 8) by lia. change (2 ^ 8) with 256. rewrite <- le_bytes_drop.
    unfold byte_at. rewrite <- (Nat.add_0_r i) at 1. rewrite <- nth_skipn.
    destruct (drop i s) as [|b rest]; [done |]. cbn [nth le_bytes]. pose proof (b2z_range b). zlia. }
  rewrite Z.mod_pow2_bits_low, Z.div_pow2_bits by lia. f_equal. lia.
Qed.

(** ** Clamping *)

Lemma clamp_bytes (b0 b31 : byte) :
  b2z (z2b (Z.land (b2z b0) 248)) = 8 * (b2z b0 / 8)
  /\ b2z (z2b (Z.lor (Z.land (b2z b31) 127) 64)) = 64 + b2z b31 mod 64.
Proof.
  assert (forallb (fun b => (b2z (z2b (Z.land (b2z b) 248)) =? 8 * (b2z b / 8))
    && (b2z (z2b (Z.lor (Z.land (b2z b) 127) 64)) =? 64 + b2z b mod 64)) all_bytes = true) as Hall by by vm_compute.
  pose proof (byte_exhaust _ Hall b0) as H0. pose proof (byte_exhaust _ Hall b31) as H1. cbv beta in *. clear Hall. by boolz.
Qed.

Lemma clamp_ok (s : list byte) : length s = 32%nat -> le_bytes (curve25519_clamp_secret s) = clamp (le_bytes s).
Proof.
  intros Hl. destruct s as [|b0 s]; [done |]. cbn [length] in Hl. injection Hl as Hl.
  destruct (exists_last (l := s)) as (mid & b31 & ->); [by destruct s |].
  rewrite length_app in Hl. cbn [length] in Hl.
  unfold curve25519_clamp_secret. cbv zeta.
  match goal with |- context [<[31%nat := ?x]> (?y :: ?l)] =>
    change (<[31%nat := x]> (y :: l)) with (y :: <[30%nat := x]> l) end.
  assert (byte_at (z2b (Z.land (b2z b0) 248) :: mid ++ [b31]) 31 = b31) as ->.
  { unfold byte_at. cbn [nth]. rewrite app_nth2 by lia. replace (30 - length mid)%nat with O by lia. done. }
  rewrite insert_app_r_alt by lia. replace (30 - length mid)%nat with O by lia.
  match goal with |- context [<[0%nat := ?x]> [b31]] => change (<[0%nat := x]> [b31]) with [x] end. cbn [le_bytes].
  rewrite !le_bytes_app. cbn [le_bytes]. replace (length mid) with 30%nat by lia. change (256 ^ Z.of_nat 30) with (2 ^ 240).
  pose proof (le_bytes_range mid) as Hr. replace (length mid) with 30%nat in Hr by lia.
  change (256 ^ Z.of_nat 30) with (2 ^ 240) in Hr.
  destruct (clamp_bytes b0 b31) as [-> ->]. pose proof (b2z_range b0). pose proof (b2z_range b31).
  unfold clamp. zlia.
Qed.
