(* ===== verification/Curve25519Field.v ===== *)
(** * Field arithmetic modulo 2^255 - 19

    A [limbs] record stands for the integer [eval], modulo [p25519].  Every operation of
    the implementation computes the field operation it is named after, and the words it is
    given and gives back stay below bounds that rule out every wrap-around: [tight] for the
    results of products, [wide] for those of differences. *)

From Stdlib Require Import Setoid Morphisms.
From S2P Require Import Prelude Curve25519 Rfc7748.
#[local] Open Scope Z_scope.
#[local] Opaque Z.pow.

(** ** Values and bounds *)

Definition eval (x : limbs) : Z :=
  w0 x + 2 ^ 51 * w1 x + 2 ^ 102 * w2 x + 2 ^ 153 * w3 x + 2 ^ 204 * w4 x.

Definition bounded (b : Z) (x : limbs) : Prop :=
  (0 <= w0 x < b) /\ (0 <= w1 x < b) /\ (0 <= w2 x < b) /\ (0 <= w3 x < b) /\ (0 <= w4 x < b).

(** Words of products, and of differences of such words. *)
Definition tight : Z := 2 ^ 51 + 2 ^ 13.
Definition wide : Z := 2 ^ 54 + tight.

Lemma bounded_weaken (b c : Z) (x : limbs) : bounded b x -> b <= c -> bounded c x.
Proof. unfold bounded. lia. Qed.

Lemma land_mask51 (a : Z) : Z.land a mask51 = a mod 2 ^ 51.
Proof. by apply land_mask. Qed.

Lemma shiftr51 (a : Z) : Z.shiftr a 51 = a / 2 ^ 51.
Proof. by apply Z.shiftr_div_pow2. Qed.

Lemma u64_small (z : Z) : 0 <= z < 2 ^ 64 -> u64 z = z.
Proof. apply uw_small. Qed.

Lemma u128_small (z : Z) : 0 <= z < 2 ^ 128 -> u128 z = z.
Proof. apply uw_small. Qed.

(** The mask of a wide word goes through its lower half. *)
Lemma u64_mod51 (a : Z) : u64 a mod 2 ^ 51 = a mod 2 ^ 51.
Proof.
  apply Z.mod_mod_divide. exists (2 ^ 13). lia.
Qed.

(** ** Carries *)

(** [fproduct_carry_wide_]: the value is kept, the four low words are reduced, and the top
    word grows by less than [b/2^50]. *)
Lemma carry_wide_ok (t : limbs) (b : Z) : bounded b t -> b <= 2 ^ 120 ->
  let r := fproduct_carry_wide_ t in
  eval r = eval t /\ (0 <= w0 r < 2 ^ 51) /\ (0 <= w1 r < 2 ^ 51) /\ (0 <= w2 r < 2 ^ 51)
  /\ (0 <= w3 r < 2 ^ 51) /\ (w4 t <= w4 r <= w4 t + b / 2 ^ 50).
Proof.
  destruct t as [t0 t1 t2 t3 t4]. unfold bounded. cbn [w0 w1 w2 w3 w4]. intros Hb H120.
  unfold fproduct_carry_wide_. rewrite !land_mask51, !u64_mod51, !shiftr51.
  rewrite (u128_small (t1 + _)) by zlia. set (t1' := t1 + t0 / 2 ^ 51) in *.
  assert (0 <= t1' < 2 * b) by (subst t1'; zlia).
  rewrite (u128_small (t2 + _)) by zlia. set (t2' := t2 + t1' / 2 ^ 51) in *.
  assert (0 <= t2' < 2 * b) by (subst t2'; zlia).
  rewrite (u128_small (t3 + _)) by zlia. set (t3' := t3 + t2' / 2 ^ 51) in *.
  assert (0 <= t3' < 2 * b) by (subst t3'; zlia).
  rewrite (u128_small (t4 + _)) by zlia. cbv zeta. unfold eval. cbn [w0 w1 w2 w3 w4].
  split; [subst t1' t2' t3'; zlia |].
  repeat split; zlia.
Qed.

(** The end of a product: reducing the top word modulo [p25519] and the lowest one into the
    next gives tight words, if 19 times the top carry fits a word. *)
Lemma wide_carry_top_ok (t : limbs) :
  (0 <= w0 t < 2 ^ 51) -> (0 <= w1 t < 2 ^ 51) -> (0 <= w2 t < 2 ^ 51) -> (0 <= w3 t < 2 ^ 51) ->
  (0 <= w4 t) -> 19 * (w4 t / 2 ^ 51) < 2 ^ 64 - 2 ^ 51 ->
  let r := fproduct_copy_from_wide_ (wide_carry_top t) in
  eval r ≡p eval t /\ (0 <= w0 r < 2 ^ 51 + 19 * (w4 t / 2 ^ 51)) /\ w1 r = w1 t /\ w2 r = w2 t /\ w3 r = w3 t
  /\ (0 <= w4 r < 2 ^ 51).
Proof.
  destruct t as [t0 t1 t2 t3 t4]. cbn [w0 w1 w2 w3 w4]. intros H0 H1 H2 H3 H4 Hc.
  unfold wide_carry_top, fproduct_copy_from_wide_. rewrite land_mask51, shiftr51.
  assert (0 <= t4 / 2 ^ 51) by zlia.
  rewrite (u64_small (t4 / 2 ^ 51)), (u128_small (19 * _)), (u128_small (t0 + _)) by lia.
  assert (0 <= t4 mod 2 ^ 51 < 2 ^ 51) by (apply Z.mod_pos_bound; lia).
  rewrite (u64_small (t0 + _)), !u64_small by lia. cbv zeta. unfold eval. cbn [w0 w1 w2 w3 w4].
  split; [| repeat split; lia].
  apply (eqp_multiple _ _ (- (t4 / 2 ^ 51))). unfold p25519.
  pose proof (Z.div_mod t4 (2 ^ 51) ltac:(lia)). lia.
Qed.

Lemma carry_0_to_1_ok (x : limbs) : bounded (2 ^ 64) x -> w1 x < 2 ^ 51 -> w2 x < 2 ^ 51 -> w3 x < 2 ^ 51 ->
  w4 x < 2 ^ 51 -> let r := carry_0_to_1 x in eval r = eval x /\ bounded tight r.
Proof.
  destruct x as [x0 x1 x2 x3 x4]. unfold bounded, tight. cbn [w0 w1 w2 w3 w4]. intros Hb H1 H2 H3 H4.
  unfold carry_0_to_1. rewrite land_mask51, shiftr51, u64_small by zlia. unfold eval. cbn [w0 w1 w2 w3 w4].
  repeat split; zlia.
Qed.

(** A product before its carries, with words that fit. *)
Lemma product_end (t : limbs) : bounded (2 ^ 116) t -> w4 t <= 5 * (wide - 1) ^ 2 ->
  let r := carry_0_to_1 (fproduct_copy_from_wide_ (wide_carry_top (fproduct_carry_wide_ t))) in
  eval r ≡p eval t /\ bounded tight r.
Proof.
  intros Hb H4. destruct (carry_wide_ok t (2 ^ 116) Hb ltac:(lia)) as (E1 & B0 & B1 & B2 & B3 & B4).
  set (c := fproduct_carry_wide_ t) in *.
  assert (19 * (w4 c / 2 ^ 51) < 2 ^ 64 - 2 ^ 51) as H19.
  { unfold wide, tight in H4. zlia. }
  destruct Hb as (_ & _ & _ & _ & Hb4).
  destruct (wide_carry_top_ok c B0 B1 B2 B3 ltac:(lia) H19) as (E2 & C0 & C1 & C2 & C3 & C4).
  set (d := fproduct_copy_from_wide_ _) in *.
  destruct (carry_0_to_1_ok d) as [E3 T]; [unfold bounded; lia.. |].
  cbv zeta. by rewrite E3, E2, E1.
Qed.

(** ** Products *)

(** Removes, from the inside out, the wrap-arounds that do nothing. *)
Ltac unwrap :=
  repeat match goal with
  | |- context [u64 ?z] =>
      lazymatch z with context [u64 _] => fail | context [u128 _] => fail | _ => rewrite (u64_small z) by lia end
  | |- context [u128 ?z] =>
      lazymatch z with context [u64 _] => fail | context [u128 _] => fail | _ => rewrite (u128_small z) by lia end
  end.

Lemma mul_bound (a b m : Z) : 0 <= a < m -> 0 <= b < m -> 0 <= a * b <= (m - 1) ^ 2.
Proof. intros Ha Hb. split; [lia |]. rewrite Z.pow_2_r. apply Z.mul_le_mono_nonneg; lia. Qed.

Lemma mul_bound_lt (a b m n : Z) : 0 <= a < m -> 0 <= b < n -> 0 <= a * b < m * n.
Proof. intros Ha Hb. split; [lia |]. apply Z.mul_lt_mono_nonneg; lia. Qed.

(** One row of the product, with the words of the factor below [19 * wide]. *)
Definition row_bound : Z := 19 * wide * wide.

Lemma sum_scalar_ok (o i : limbs) (s b : Z) : bounded b o -> bounded (19 * wide) i -> 0 <= s < wide ->
  b + row_bound <= 2 ^ 128 ->
  fproduct_sum_scalar_multiplication_ o i s
  = Limbs (w0 o + w0 i * s) (w1 o + w1 i * s) (w2 o + w2 i * s) (w3 o + w3 i * s) (w4 o + w4 i * s)
  /\ bounded (b + row_bound) (fproduct_sum_scalar_multiplication_ o i s).
Proof.
  destruct o as [o0 o1 o2 o3 o4], i as [i0 i1 i2 i3 i4]. unfold bounded. cbn [w0 w1 w2 w3 w4].
  intros (O0 & O1 & O2 & O3 & O4) (I0 & I1 & I2 & I3 & I4) Hs Hb.
  pose proof (mul_bound_lt _ _ _ _ I0 Hs). pose proof (mul_bound_lt _ _ _ _ I1 Hs).
  pose proof (mul_bound_lt _ _ _ _ I2 Hs). pose proof (mul_bound_lt _ _ _ _ I3 Hs).
  pose proof (mul_bound_lt _ _ _ _ I4 Hs). fold row_bound in *.
  assert (fproduct_sum_scalar_multiplication_ (Limbs o0 o1 o2 o3 o4) (Limbs i0 i1 i2 i3 i4) s
    = Limbs (o0 + i0 * s) (o1 + i1 * s) (o2 + i2 * s) (o3 + i3 * s) (o4 + i4 * s)) as ->.
  { unfold fproduct_sum_scalar_multiplication_. by unwrap. }
  cbn [w0 w1 w2 w3 w4]. repeat split; lia.
Qed.

(** The factor is turned by one word; the word that comes round is below [wide]. *)
Lemma shift_reduce_ok (i : limbs) : bounded (19 * wide) i -> w4 i < wide ->
  fmul_shift_reduce i = Limbs (19 * w4 i) (w0 i) (w1 i) (w2 i) (w3 i)
  /\ bounded (19 * wide) (fmul_shift_reduce i).
Proof.
  destruct i as [i0 i1 i2 i3 i4]. unfold bounded, wide, tight. cbn [w0 w1 w2 w3 w4]. intros Hi H4.
  unfold fmul_shift_reduce. rewrite u64_small by lia. cbn [w0 w1 w2 w3 w4]. split; [done | lia].
Qed.

Lemma fmul_product_value (a0 a1 a2 a3 a4 b0 b1 b2 b3 b4 : Z) :
  bounded wide (Limbs a0 a1 a2 a3 a4) -> bounded wide (Limbs b0 b1 b2 b3 b4) ->
  let t := fmul_mul_shift_reduce_ zero_limbs (Limbs a0 a1 a2 a3 a4) (Limbs b0 b1 b2 b3 b4) in
  t = Limbs (a0 * b0 + 19 * (a4 * b1 + a3 * b2 + a2 * b3 + a1 * b4))
        (a1 * b0 + a0 * b1 + 19 * (a4 * b2 + a3 * b3 + a2 * b4))
        (a2 * b0 + a1 * b1 + a0 * b2 + 19 * (a4 * b3 + a3 * b4))
        (a3 * b0 + a2 * b1 + a1 * b2 + a0 * b3 + 19 * (a4 * b4))
        (a4 * b0 + a3 * b1 + a2 * b2 + a1 * b3 + a0 * b4)
  /\ bounded (2 ^ 116) t.
Proof.
  intros Ha Hb.
  assert (bounded (19 * wide) (Limbs a0 a1 a2 a3 a4)) as I0
    by (eapply bounded_weaken; [exact Ha | unfold wide, tight; lia]).
  assert (bounded 1 zero_limbs) as O0 by (unfold bounded, zero_limbs; cbn; lia).
  assert (row_bound = 19 * wide * wide) as Hrow by done. unfold wide at 1 2, tight in Hrow.
  unfold bounded in Ha, Hb. cbn [w0 w1 w2 w3 w4] in Ha, Hb.
  destruct Ha as (A0 & A1 & A2 & A3 & A4), Hb as (B0 & B1 & B2 & B3 & B4).
  destruct (shift_reduce_ok _ I0) as [S1 I1]; [cbn; lia |]. rewrite S1 in I1. cbn [w0 w1 w2 w3 w4] in *.
  destruct (shift_reduce_ok _ I1) as [S2 I2]; [cbn; lia |]. rewrite S2 in I2. cbn [w0 w1 w2 w3 w4] in *.
  destruct (shift_reduce_ok _ I2) as [S3 I3]; [cbn; lia |]. rewrite S3 in I3. cbn [w0 w1 w2 w3 w4] in *.
  destruct (shift_reduce_ok _ I3) as [S4 I4]; [cbn; lia |]. rewrite S4 in I4. cbn [w0 w1 w2 w3 w4] in *.
  destruct (sum_scalar_ok _ _ b0 _ O0 I0) as [R0 O1]; [lia | lia |].
  rewrite R0 in O1. cbn [w0 w1 w2 w3 w4 zero_limbs] in *.
  destruct (sum_scalar_ok _ _ b1 _ O1 I1) as [R1 O2]; [lia | lia |]. rewrite R1 in O2. cbn [w0 w1 w2 w3 w4] in *.
  destruct (sum_scalar_ok _ _ b2 _ O2 I2) as [R2 O3]; [lia | lia |]. rewrite R2 in O3. cbn [w0 w1 w2 w3 w4] in *.
  destruct (sum_scalar_ok _ _ b3 _ O3 I3) as [R3 O4]; [lia | lia |]. rewrite R3 in O4. cbn [w0 w1 w2 w3 w4] in *.
  destruct (sum_scalar_ok _ _ b4 _ O4 I4) as [R4 O5]; [lia | lia |].
  assert (fmul_mul_shift_reduce_ zero_limbs (Limbs a0 a1 a2 a3 a4) (Limbs b0 b1 b2 b3 b4)
    = fproduct_sum_scalar_multiplication_
        (Limbs (0 + a0 * b0 + 19 * a4 * b1 + 19 * a3 * b2 + 19 * a2 * b3)
           (0 + a1 * b0 + a0 * b1 + 19 * a4 * b2 + 19 * a3 * b3) (0 + a2 * b0 + a1 * b1 + a0 * b2 + 19 * a4 * b3)
           (0 + a3 * b0 + a2 * b1 + a1 * b2 + a0 * b3) (0 + a4 * b0 + a3 * b1 + a2 * b2 + a1 * b3))
        (Limbs (19 * a1) (19 * a2) (19 * a3) (19 * a4) a0) b4) as Et.
  { unfold fmul_mul_shift_reduce_. by rewrite R0, S1, R1, S2, R2, S3, R3, S4. }
  cbv zeta. rewrite Et. split; [| eapply bounded_weaken; [exact O5 | lia]].
  rewrite R4. cbn [w0 w1 w2 w3 w4]. f_equal; ring.
Qed.

Lemma fmul_product_ok (a b : limbs) : bounded wide a -> bounded wide b ->
  let t := fmul_mul_shift_reduce_ zero_limbs a b in
  eval t ≡p eval a * eval b /\ bounded (2 ^ 116) t /\ w4 t <= 5 * (wide - 1) ^ 2.
Proof.
  destruct a as [a0 a1 a2 a3 a4], b as [b0 b1 b2 b3 b4]. intros Ha Hb.
  destruct (fmul_product_value _ _ _ _ _ _ _ _ _ _ Ha Hb) as [Et Ht]. cbv zeta.
  split; [| split; [exact Ht |]]; rewrite Et; clear Et Ht.
  - apply (eqp_multiple _ _ (- (a1 * b4 + a2 * b3 + a3 * b2 + a4 * b1 + 2 ^ 51 * (a2 * b4 + a3 * b3 + a4 * b2)
      + 2 ^ 102 * (a3 * b4 + a4 * b3) + 2 ^ 153 * (a4 * b4)))).
    unfold eval, p25519. cbn [w0 w1 w2 w3 w4]. ring.
  - unfold bounded in Ha, Hb. cbn [w0 w1 w2 w3 w4] in *.
    destruct Ha as (A0 & A1 & A2 & A3 & A4), Hb as (B0 & B1 & B2 & B3 & B4).
    pose proof (mul_bound _ _ _ A4 B0). pose proof (mul_bound _ _ _ A3 B1). pose proof (mul_bound _ _ _ A2 B2).
    pose proof (mul_bound _ _ _ A1 B3). pose proof (mul_bound _ _ _ A0 B4). lia.
Qed.

(** [fmul] multiplies, on words as large as differences give. *)
Lemma fmul_ok (a b : limbs) : bounded wide a -> bounded wide b ->
  eval (fmul a b) ≡p eval a * eval b /\ bounded tight (fmul a b).
Proof.
  intros Ha Hb. destruct (fmul_product_ok a b Ha Hb) as (E & B & H4).
  destruct (product_end _ B H4) as [E' T]. unfold fmul, fmul_fmul. cbv zeta in *. split; [by rewrite E', E | done].
Qed.

(** ** Squares *)

Lemma add3_small (a b c : Z) : 0 <= a < 2 ^ 126 -> 0 <= b < 2 ^ 126 -> 0 <= c < 2 ^ 126 ->
  u128 (u128 (u128 a + u128 b) + u128 c) = a + b + c.
Proof. intros. by unwrap. Qed.

Lemma sum3_bound (a b c : Z) : 0 <= a < 2 ^ 114 -> 0 <= b < 2 ^ 114 -> 0 <= c < 2 ^ 114 -> 0 <= a + b + c < 2 ^ 116.
Proof. lia. Qed.

Lemma term_bound (k x y : Z) : 0 <= k <= 38 -> 0 <= x < wide -> 0 <= y < wide -> 0 <= k * x * y < 2 ^ 114.
Proof.
  intros Hk Hx Hy. assert (0 <= k * x < 39 * wide) as Hkx by (unfold wide, tight in *; nia).
  pose proof (mul_bound_lt _ _ _ _ Hkx Hy). unfold wide, tight in *. lia.
Qed.

Lemma fsquare_product_value (r0 r1 r2 r3 r4 : Z) : bounded wide (Limbs r0 r1 r2 r3 r4) ->
  fsquare_fsquare__ (Limbs r0 r1 r2 r3 r4)
  = Limbs (1 * r0 * r0 + 38 * r4 * r1 + 38 * r2 * r3) (2 * r0 * r1 + 38 * r4 * r2 + 19 * r3 * r3)
      (2 * r0 * r2 + 1 * r1 * r1 + 38 * r4 * r3) (2 * r0 * r3 + 2 * r1 * r2 + 19 * r4 * r4)
      (2 * r0 * r4 + 2 * r1 * r3 + 1 * r2 * r2)
  /\ bounded (2 ^ 116) (fsquare_fsquare__ (Limbs r0 r1 r2 r3 r4)).
Proof.
  intros Hr. unfold bounded in Hr. cbn [w0 w1 w2 w3 w4] in Hr. destruct Hr as (R0 & R1 & R2 & R3 & R4).
  match goal with |- ?f = ?r /\ _ => assert (f = r) as -> end.
  - unfold fsquare_fsquare__.
    replace (u64 (r0 * 2)) with (2 * r0) by (rewrite u64_small; unfold wide, tight in *; lia).
    replace (u64 (r1 * 2)) with (2 * r1) by (rewrite u64_small; unfold wide, tight in *; lia).
    replace (u64 (r2 * 2)) with (2 * r2) by (rewrite u64_small; unfold wide, tight in *; lia).
    replace (u64 (2 * r2 * 19)) with (38 * r2) by (rewrite u64_small; unfold wide, tight in *; lia).
    replace (u64 (r3 * 19)) with (19 * r3) by (rewrite u64_small; unfold wide, tight in *; lia).
    replace (u64 (r4 * 19)) with (19 * r4) by (rewrite u64_small; unfold wide, tight in *; lia).
    replace (u64 (19 * r4 * 2)) with (38 * r4) by (rewrite u64_small; unfold wide, tight in *; lia).
    replace (r0 * r0) with (1 * r0 * r0) by ring. replace (r1 * r1) with (1 * r1 * r1) by ring.
    replace (r2 * r2) with (1 * r2 * r2) by ring. replace (r4 * (19 * r4)) with (19 * r4 * r4) by ring.
    assert (forall z, 0 <= z < 2 ^ 114 -> 0 <= z < 2 ^ 126) as Hz by lia.
    rewrite !add3_small by (apply Hz, term_bound; (lia || assumption)). reflexivity.
  - split; [reflexivity |]. repeat split; cbn [w0 w1 w2 w3 w4];
      apply sum3_bound; apply term_bound; (lia || assumption).
Qed.

Lemma fsquare_product_ok (a : limbs) : bounded wide a ->
  eval (fsquare_fsquare__ a) ≡p eval a * eval a /\ bounded (2 ^ 116) (fsquare_fsquare__ a)
  /\ w4 (fsquare_fsquare__ a) <= 5 * (wide - 1) ^ 2.
Proof.
  destruct a as [r0 r1 r2 r3 r4]. intros Ha. destruct (fsquare_product_value _ _ _ _ _ Ha) as [Et Hb].
  split; [| split; [exact Hb |]]; rewrite Et; clear Et Hb.
  - apply (eqp_multiple _ _ (- (2 * (r1 * r4 + r2 * r3) + 2 ^ 51 * (2 * r2 * r4 + r3 * r3)
      + 2 ^ 102 * (2 * r3 * r4) + 2 ^ 153 * (r4 * r4)))).
    unfold eval, p25519. cbn [w0 w1 w2 w3 w4]. ring.
  - unfold bounded in Ha. cbn [w0 w1 w2 w3 w4] in *. destruct Ha as (R0 & R1 & R2 & R3 & R4).
    pose proof (mul_bound _ _ _ R0 R4). pose proof (mul_bound _ _ _ R1 R3). pose proof (mul_bound _ _ _ R2 R2). lia.
Qed.

Lemma fsquare_ok (a : limbs) : bounded wide a ->
  eval (fsquare_fsquare_ a) ≡p eval a * eval a /\ bounded tight (fsquare_fsquare_ a).
Proof.
  intros Ha. destruct (fsquare_product_ok a Ha) as (E & B & H4).
  destruct (product_end _ B H4) as [E' T]. unfold fsquare_fsquare_. cbv zeta in *. split; [by rewrite E', E | done].
Qed.

Lemma tight_wide (x : limbs) : bounded tight x -> bounded wide x.
Proof. intros H. apply (bounded_weaken tight); [done | unfold wide, tight; lia]. Qed.

(** Repeated squaring is a power of two. *)
Lemma fsquare_times_ok (a : limbs) (n : nat) : bounded wide a -> (0 < n)%nat ->
  eval (fsquare_fsquare_times a n) ≡p eval a ^ 2 ^ Z.of_nat n /\ bounded tight (fsquare_fsquare_times a n).
Proof.
  intros Ha Hn. unfold fsquare_fsquare_times, fsquare_fsquare_times_.
  destruct n as [|n]; [lia |]. replace (S n - 1)%nat with n by lia. clear Hn.
  induction n as [|n [IHe IHb]].
  - destruct (fsquare_ok a Ha) as [E T]. cbn [Nat.iter nat_rect]. split; [| done].
    rewrite E. by rewrite <- Z.pow_2_r.
  - change (Nat.iter (S n) fsquare_fsquare_ (fsquare_fsquare_ a))
      with (fsquare_fsquare_ (Nat.iter n fsquare_fsquare_ (fsquare_fsquare_ a))).
    destruct (fsquare_ok _ (tight_wide _ IHb)) as [E T]. split; [| done]. rewrite E, IHe.
    rewrite <- Z.pow_add_r by lia. replace (2 ^ Z.of_nat (S n) + 2 ^ Z.of_nat (S n)) with (2 ^ Z.of_nat (S (S n))); [done |].
    rewrite (Nat2Z.inj_succ (S n)), Z.pow_succ_r by lia. lia.
Qed.

(** ** Sums, differences and small multiples *)

Lemma fsum_ok (a b : limbs) (m n : Z) : bounded m a -> bounded n b -> m + n <= 2 ^ 64 ->
  eval (fsum a b) = eval a + eval b /\ bounded (m + n) (fsum a b).
Proof.
  destruct a as [a0 a1 a2 a3 a4], b as [b0 b1 b2 b3 b4]. unfold bounded, fsum. cbn [w0 w1 w2 w3 w4].
  intros Ha Hb Hm. rewrite !u64_small by lia. unfold eval. cbn [w0 w1 w2 w3 w4]. repeat split; lia.
Qed.

(** [fdifference a b] is [b - a]; adding 8p first keeps every word positive. *)
Lemma fdifference_ok (a b : limbs) : bounded tight a -> bounded tight b ->
  eval (fdifference a b) ≡p eval b - eval a /\ bounded wide (fdifference a b).
Proof.
  destruct a as [a0 a1 a2 a3 a4], b as [b0 b1 b2 b3 b4]. unfold bounded, fdifference, wide, tight. cbn [w0 w1 w2 w3 w4].
  intros Ha Hb. unwrap. cbn [w0 w1 w2 w3 w4]. split; [| repeat split; lia].
  apply (eqp_multiple _ _ 8). unfold eval, p25519. cbn [w0 w1 w2 w3 w4]. lia.
Qed.

Lemma fscalar_ok (b : limbs) (s : Z) : bounded wide b -> 0 <= s < 2 ^ 20 ->
  eval (fscalar b s) ≡p s * eval b /\ bounded (2 ^ 52) (fscalar b s).
Proof.
  intros Hb Hs. unfold fscalar.
  set (t := Limbs (u128 (w0 b * s)) _ _ _ _).
  assert (t = Limbs (w0 b * s) (w1 b * s) (w2 b * s) (w3 b * s) (w4 b * s) /\ bounded (2 ^ 75) t) as [Et Ht].
  { subst t. destruct b as [b0 b1 b2 b3 b4]. unfold bounded, wide, tight in *. cbn [w0 w1 w2 w3 w4] in *.
    destruct Hb as (B0 & B1 & B2 & B3 & B4).
    pose proof (mul_bound_lt _ _ _ _ B0 Hs). pose proof (mul_bound_lt _ _ _ _ B1 Hs).
    pose proof (mul_bound_lt _ _ _ _ B2 Hs). pose proof (mul_bound_lt _ _ _ _ B3 Hs).
    pose proof (mul_bound_lt _ _ _ _ B4 Hs). rewrite !u128_small by lia. split; [done | lia]. }
  destruct (carry_wide_ok t (2 ^ 75) Ht ltac:(lia)) as (E1 & C0 & C1 & C2 & C3 & C4).
  set (c := fproduct_carry_wide_ t) in *. destruct Ht as (_ & _ & _ & _ & Ht4).
  destruct (wide_carry_top_ok c C0 C1 C2 C3) as (E2 & D0 & D1 & D2 & D3 & D4); [lia | zlia |].
  set (d := fproduct_copy_from_wide_ _) in *. split.
  - rewrite E2, E1, Et. unfold eval. cbn [w0 w1 w2 w3 w4]. apply (eqp_multiple _ _ 0). ring.
  - unfold bounded. repeat split; zlia.
Qed.

(** ** Inversion *)

(** [x] is a tight power of [z]. *)
Definition is_power (z : limbs) (k : Z) (x : limbs) : Prop :=
  0 <= k /\ eval x ≡p eval z ^ k /\ bounded tight x.

Lemma is_power_square (z x : limbs) (k : Z) (n : nat) : is_power z k x -> (0 < n)%nat ->
  is_power z (k * 2 ^ Z.of_nat n) (fsquare_fsquare_times x n).
Proof.
  intros (Hk & E & T) Hn. destruct (fsquare_times_ok x n (tight_wide x T) Hn) as [E' T'].
  split; [lia |]. split; [| done]. rewrite E', Z.pow_mul_r by lia. apply eqp_pow; [lia | done].
Qed.

Lemma is_power_mul (z x y : limbs) (j k : Z) : is_power z j x -> is_power z k y ->
  is_power z (j + k) (fmul_fmul x y).
Proof.
  intros (Hj & Ex & Tx) (Hk & Ey & Ty). destruct (fmul_ok x y) as [E T]; [by apply tight_wide.. |].
  split; [lia |]. split; [| done]. change (fmul_fmul x y) with (fmul x y). rewrite E, Ex, Ey, Z.pow_add_r by done. done.
Qed.

(** [crecip] raises to the power [p25519 - 2]: 254 squarings and 11 products. *)
Lemma crecip_ok (z : limbs) : bounded tight z -> is_power z (p25519 - 2) (crecip z).
Proof.
  intros Hz.
  assert (is_power z 1 z) as H1 by (split; [lia |]; split; [by rewrite Z.pow_1_r | done]).
  assert (forall k k' x, is_power z k x -> k = k' -> is_power z k' x) as Hk by (by intros ? ? ? ? <-).
  unfold crecip, crecip_crecip. cbv zeta.
  eapply Hk.
  - repeat match goal with
    | |- is_power _ _ (fmul_fmul _ _) => eapply is_power_mul
    | |- is_power _ _ (fsquare_fsquare_times _ _) => eapply is_power_square; [| lia]
    | |- is_power _ _ (fsquare_fsquare_times_inplace ?x ?n) =>
        change (fsquare_fsquare_times_inplace x n) with (fsquare_fsquare_times x n)
    | |- is_power _ _ z => exact H1
    end.
  - vm_compute. reflexivity.
Qed.
