(* ===== verification/Curve25519Ok.v ===== *)
(** * The 64-bit X25519 is the Montgomery ladder

    [curve25519] decodes the coordinate, clamps the scalar, runs the ladder over its bits, two
    to a turn, inverts and encodes: the bytes are those of [ladder] over 256 bits. *)

From S2P Require Import Prelude Encoding Curve25519 Rfc7748 Curve25519Field.
#[local] Open Scope Z_scope.
#[local] Opaque Z.pow.

(** ** Masks *)

Definition ones64 : Z := 2 ^ 64 - 1.

Lemma shiftr63 (x : Z) : 0 <= x < 2 ^ 64 -> Z.shiftr x 63 = if x <? 2 ^ 63 then 0 else 1.
Proof. intros Hx. rewrite Z.shiftr_div_pow2 by lia. destruct (Z.ltb_spec x (2 ^ 63)); zlia. Qed.

Lemma u64_eq_mask_ok (a b : Z) : 0 <= a < 2 ^ 64 -> 0 <= b < 2 ^ 64 ->
  u64_eq_mask a b = if a =? b then ones64 else 0.
Proof.
  intros Ha Hb. unfold u64_eq_mask. pose proof (lxor_small_range a b 64 ltac:(lia) Ha Hb) as Hx.
  destruct (Z.eqb_spec a b) as [-> | Hne]; [by rewrite Z.lxor_nilpotent |].
  assert (Z.lxor a b <> 0) as Hx0 by (intros H%Z.lxor_eq; done). set (x := Z.lxor a b) in *.
  replace (u64 (u64 (Z.lnot x) + 1)) with (2 ^ 64 - x) by (unfold u64, uw, Z.lnot; zlia).
  rewrite Z.shiftr_lor, !shiftr63 by lia.
  destruct (Z.ltb_spec x (2 ^ 63)), (Z.ltb_spec (2 ^ 64 - x) (2 ^ 63)); try done. lia.
Qed.

Lemma u64_gte_mask_ok (a b : Z) : 0 <= a < 2 ^ 64 -> 0 <= b < 2 ^ 64 ->
  u64_gte_mask a b = if b <=? a then ones64 else 0.
Proof.
  intros Ha Hb. unfold u64_gte_mask. assert (0 <= u64 (a - b) < 2 ^ 64) as Hd by (apply uw_range; lia).
  assert (u64 (a - b) = if b <=? a then a - b else a - b + 2 ^ 64) as Ed
    by (unfold u64, uw; destruct (Z.leb_spec b a); zlia).
  rewrite !Z.shiftr_lxor, Z.shiftr_lor, !Z.shiftr_lxor, !shiftr63 by done. rewrite Ed.
  destruct (Z.leb_spec b a), (Z.ltb_spec a (2 ^ 63)), (Z.ltb_spec b (2 ^ 63));
    match goal with |- context [?x <? ?y] => destruct (Z.ltb_spec x y) end; try done; lia.
Qed.

(** ** Decoding *)

Lemma get64_value (s : list byte) (k : nat) :
  get_unaligned_le64 (drop k s) = le_bytes s / 256 ^ Z.of_nat k mod 2 ^ 64.
Proof. unfold get_unaligned_le64. by rewrite le_bytes_take, le_bytes_drop. Qed.

(** [format_fexpand] reads the 255 low bits. *)
Lemma fexpand_ok (s : list byte) : length s = 32%nat ->
  eval (format_fexpand s) = le_bytes s mod 2 ^ 255 /\ bounded (2 ^ 51) (format_fexpand s).
Proof.
  intros Hl. pose proof (le_bytes_range s) as Hr. rewrite Hl in Hr. change (256 ^ Z.of_nat 32) with (2 ^ 256) in Hr.
  unfold format_fexpand. change (get_unaligned_le64 s) with (get_unaligned_le64 (drop 0 s)).
  rewrite !get64_value, !land_mask51, !Z.shiftr_div_pow2 by lia. set (n := le_bytes s) in *. clearbody n.
  change (256 ^ Z.of_nat 0) with 1. change (256 ^ Z.of_nat 6) with (2 ^ 48). change (256 ^ Z.of_nat 12) with (2 ^ 96).
  change (256 ^ Z.of_nat 19) with (2 ^ 152). change (256 ^ Z.of_nat 24) with (2 ^ 192).
  unfold eval, bounded. cbn [w0 w1 w2 w3 w4]. split; [| repeat split; apply Z.mod_pos_bound; lia].
  assert (n / 1 mod 2 ^ 64 mod 2 ^ 51 = n mod 2 ^ 51) as -> by zlia.
  assert (n / 2 ^ 48 mod 2 ^ 64 / 2 ^ 3 mod 2 ^ 51 = n / 2 ^ 51 mod 2 ^ 51) as -> by zlia.
  assert (n / 2 ^ 96 mod 2 ^ 64 / 2 ^ 6 mod 2 ^ 51 = n / 2 ^ 102 mod 2 ^ 51) as -> by zlia.
  assert (n / 2 ^ 152 mod 2 ^ 64 / 2 ^ 1 mod 2 ^ 51 = n / 2 ^ 153 mod 2 ^ 51) as -> by zlia.
  assert (n / 2 ^ 192 mod 2 ^ 64 / 2 ^ 12 mod 2 ^ 51 = n / 2 ^ 204 mod 2 ^ 51) as -> by zlia.
  zlia.
Qed.

(** ** Encoding *)

(** A pass moves carries up and keeps the value; so does [modulo_carry_top] up to p. *)
Lemma carry_pass_ok (t : limbs) : bounded (2 ^ 60) t ->
  let r := format_fcontract_first_carry_pass t in
  eval r = eval t /\ (0 <= w0 r < 2 ^ 51) /\ (0 <= w1 r < 2 ^ 51) /\ (0 <= w2 r < 2 ^ 51) /\ (0 <= w3 r < 2 ^ 51)
  /\ w4 r = w4 t + (w3 t + (w2 t + (w1 t + w0 t / 2 ^ 51) / 2 ^ 51) / 2 ^ 51) / 2 ^ 51
  /\ w0 r = w0 t mod 2 ^ 51.
Proof.
  destruct t as [t0 t1 t2 t3 t4]. unfold bounded. cbn [w0 w1 w2 w3 w4]. intros Hb.
  unfold format_fcontract_first_carry_pass. rewrite !land_mask51, !shiftr51.
  rewrite (u64_small (t1 + _)) by zlia. set (t1' := t1 + t0 / 2 ^ 51). assert (0 <= t1' < 2 ^ 61) by (subst t1'; zlia).
  rewrite (u64_small (t2 + _)) by zlia. set (t2' := t2 + t1' / 2 ^ 51). assert (0 <= t2' < 2 ^ 61) by (subst t2'; zlia).
  rewrite (u64_small (t3 + _)) by zlia. set (t3' := t3 + t2' / 2 ^ 51). assert (0 <= t3' < 2 ^ 61) by (subst t3'; zlia).
  rewrite (u64_small (t4 + _)) by zlia. cbv zeta. unfold eval. cbn [w0 w1 w2 w3 w4].
  split; [subst t1' t2' t3'; zlia |]. repeat (split; [apply Z.mod_pos_bound; lia |]). done.
Qed.

Lemma modulo_carry_top_ok (b : limbs) : bounded (2 ^ 60) b ->
  let r := modulo_carry_top b in
  eval r ≡p eval b /\ w0 r = w0 b + 19 * (w4 b / 2 ^ 51) /\ w1 r = w1 b /\ w2 r = w2 b /\ w3 r = w3 b
  /\ w4 r = w4 b mod 2 ^ 51.
Proof.
  destruct b as [b0 b1 b2 b3 b4]. unfold bounded. cbn [w0 w1 w2 w3 w4]. intros Hb.
  unfold modulo_carry_top. rewrite land_mask51, shiftr51, (u64_small (19 * _)), u64_small by zlia.
  unfold eval. cbn [w0 w1 w2 w3 w4]. split; [| done].
  apply (eqp_multiple _ _ (- (b4 / 2 ^ 51))). unfold p25519. pose proof (Z.div_mod b4 (2 ^ 51) ltac:(lia)). lia.
Qed.

Lemma first_carry_full_ok (t : limbs) : bounded tight t ->
  let r := format_fcontract_first_carry_full t in
  eval r ≡p eval t /\ (0 <= w0 r < 2 ^ 51 + 19) /\ (0 <= w1 r < 2 ^ 51) /\ (0 <= w2 r < 2 ^ 51)
  /\ (0 <= w3 r < 2 ^ 51) /\ (0 <= w4 r < 2 ^ 51).
Proof.
  intros Hb. destruct (carry_pass_ok t) as (E1 & C0 & C1 & C2 & C3 & C4 & _).
  { eapply bounded_weaken; [exact Hb | unfold tight; lia]. }
  unfold bounded, tight in Hb. unfold format_fcontract_first_carry_full.
  set (c := format_fcontract_first_carry_pass t) in *.
  assert (0 <= w4 c < 2 ^ 52) as Hc4 by (rewrite C4; zlia).
  destruct (modulo_carry_top_ok c) as (E2 & D0 & D1 & D2 & D3 & D4); [unfold bounded; lia |].
  cbv zeta. split; [by rewrite E2, E1 |]. rewrite D0, D1, D2, D3, D4. repeat split; zlia.
Qed.

(** After the second pass every word is reduced: when the top carry comes round to the
    lowest word, the carries that produced it have left that word below 19. *)
Lemma second_carry_full_ok (t : limbs) :
  (0 <= w0 t < 2 ^ 51 + 19) -> (0 <= w1 t < 2 ^ 51) -> (0 <= w2 t < 2 ^ 51) -> (0 <= w3 t < 2 ^ 51) ->
  (0 <= w4 t < 2 ^ 51) ->
  let r := format_fcontract_second_carry_full t in eval r ≡p eval t /\ bounded (2 ^ 51) r.
Proof.
  intros T0 T1 T2 T3 T4.
  destruct (carry_pass_ok t) as (E1 & C0 & C1 & C2 & C3 & C4 & C5); [unfold bounded; lia |].
  unfold format_fcontract_second_carry_full.
  change (format_fcontract_second_carry_pass t) with (format_fcontract_first_carry_pass t).
  set (c := format_fcontract_first_carry_pass t) in *.
  assert (0 <= w4 c <= 2 ^ 51 /\ (w4 c = 2 ^ 51 -> w0 c < 19)) as [Hc4 Hc0] by (rewrite C4, C5; zlia).
  destruct (modulo_carry_top_ok c) as (E2 & D0 & D1 & D2 & D3 & D4); [unfold bounded; lia |].
  destruct (modulo_carry_top c) as [i0 i1 i2 i3 i4]. cbn [w0 w1 w2 w3 w4] in *.
  assert (0 <= i0 < 2 ^ 51) by (rewrite D0; zlia).
  rewrite land_mask51, shiftr51, Z.mod_small, Z.div_small, Z.add_0_r, u64_small by lia. cbv zeta.
  split; [by rewrite E2, E1 |]. unfold bounded. cbn [w0 w1 w2 w3 w4]. rewrite D1, D2, D3, D4. repeat split; zlia.
Qed.

Lemma land_ones_small (a : Z) : 0 <= a < 2 ^ 64 -> Z.land a ones64 = a.
Proof. intros Ha. unfold ones64. rewrite land_mask by lia. by apply Z.mod_small. Qed.

Lemma land_masks (p q : bool) :
  Z.land (if p then ones64 else 0) (if q then ones64 else 0) = if p && q then ones64 else 0.
Proof. by destruct p, q; rewrite ?Z.land_diag, ?Z.land_0_l, ?Z.land_0_r. Qed.

(** The conditional subtraction of p. *)
Lemma trim_ok (a : limbs) : bounded (2 ^ 51) a ->
  let r := format_fcontract_trim a in eval r = eval a mod p25519 /\ bounded (2 ^ 51) r.
Proof.
  destruct a as [a0 a1 a2 a3 a4]. unfold bounded. cbn [w0 w1 w2 w3 w4]. intros Hb.
  unfold format_fcontract_trim.
  rewrite u64_gte_mask_ok, !u64_eq_mask_ok, !land_masks by (unfold mask51; lia).
  unfold mask51. cbv zeta.
  match goal with |- context [if ?c then ones64 else 0] => destruct c eqn:E end.
  - rewrite !land_ones_small by lia. boolz. rewrite !u64_small by lia. unfold eval, p25519. cbn [w0 w1 w2 w3 w4].
    split; [| lia]. apply Z.mod_unique with (q := 1); lia.
  - rewrite !Z.land_0_r, !Z.sub_0_r, !u64_small by lia. unfold eval, p25519. cbn [w0 w1 w2 w3 w4].
    split; [| lia]. rewrite Z.mod_small; [done |]. split; [lia |].
    apply Z.nle_gt. intros Hge. apply not_true_iff_false in E. apply E.
    rewrite !andb_true_iff, !Z.eqb_eq, Z.leb_le. lia.
Qed.

(** [t << k | b] in a word, the low bits of [t] staying. *)
Lemma shift_or (t b k : Z) : 0 <= k <= 64 -> 0 <= b < 2 ^ k ->
  Z.lor (u64 (Z.shiftl t k)) b = (t mod 2 ^ (64 - k)) * 2 ^ k + b.
Proof.
  intros Hk Hb. unfold u64, uw. rewrite Z.shiftl_mul_pow2 by lia.
  replace (2 ^ 64) with (2 ^ (64 - k) * 2 ^ k) by (rewrite <- Z.pow_add_r by lia; f_equal; lia).
  rewrite Zmult_mod_distr_r. apply lor_disjoint; lia.
Qed.

Lemma store_ok (t : limbs) : bounded (2 ^ 51) t -> format_fcontract_store t = bytes_le 32 (eval t).
Proof.
  destruct t as [t0 t1 t2 t3 t4]. unfold bounded. cbn [w0 w1 w2 w3 w4]. intros Hb.
  unfold format_fcontract_store, put_unaligned_le64.
  rewrite !Z.shiftr_div_pow2 by lia. rewrite !shift_or by zlia.
  change 32%nat with (8 + (8 + (8 + 8)))%nat. rewrite !bytes_le_app. change (256 ^ Z.of_nat 8) with (2 ^ 64).
  unfold eval. cbn [w0 w1 w2 w3 w4]. set (n := t0 + _ + _ + _ + _).
  rewrite <- (bytes_le_mod 8 n), <- (bytes_le_mod 8 (n / 2 ^ 64)), <- (bytes_le_mod 8 (n / 2 ^ 64 / 2 ^ 64)),
    <- (bytes_le_mod 8 (n / 2 ^ 64 / 2 ^ 64 / 2 ^ 64)). change (256 ^ Z.of_nat 8) with (2 ^ 64).
  f_equal; [f_equal; subst n; zlia |]. f_equal; [f_equal; subst n; zlia |].
  f_equal; f_equal; subst n; zlia.
Qed.

(** [format_fcontract] writes the canonical representative. *)
Lemma fcontract_ok (x : limbs) : bounded tight x -> format_fcontract x = bytes_le 32 (eval x mod p25519).
Proof.
  intros Hx. unfold format_fcontract.
  destruct (first_carry_full_ok x Hx) as (E1 & B0 & B1 & B2 & B3 & B4).
  destruct (second_carry_full_ok _ B0 B1 B2 B3 B4) as (E2 & B).
  destruct (trim_ok _ B) as [E3 B']. rewrite (store_ok _ B'), E3. f_equal. apply eqp_iff. by rewrite E2, E1.
Qed.

(** ** The implementation follows it *)

Definition repr (x : limbs) (v : Z) : Prop := bounded tight x /\ eval x ≡p v.

Definition repr_point (p : point) (v : Z * Z) : Prop := repr (fst p) (fst v) /\ repr (snd p) (snd v).

Definition repr_state (st : point * point) (v : ladder_state) : Prop :=
  repr_point (fst st) (fst v) /\ repr_point (snd st) (snd v).

(** *** Products of sums and differences *)

Definition loose (x : limbs) (v : Z) : Prop := bounded wide x /\ eval x ≡p v.

Lemma repr_loose (x : limbs) (v : Z) : repr x v -> loose x v.
Proof. intros [B E]. split; [by apply tight_wide | done]. Qed.

Lemma loose_sum (x y : limbs) (v w m n : Z) : bounded m x -> eval x ≡p v -> bounded n y -> eval y ≡p w ->
  m + n <= wide -> loose (fsum x y) (fadd v w).
Proof.
  intros Bx Ex By Ey Hm. destruct (fsum_ok x y m n Bx By) as [E B]; [unfold wide, tight in *; lia |].
  split; [by eapply bounded_weaken |]. by rewrite E, Ex, Ey, fadd_eqp.
Qed.

Lemma loose_add (x y : limbs) (v w : Z) : repr x v -> repr y w -> loose (fsum x y) (fadd v w).
Proof. intros [Bx Ex] [By Ey]. by apply (loose_sum x y v w tight tight). Qed.

Lemma loose_sub (x y : limbs) (v w : Z) : repr x v -> repr y w -> loose (fdifference y x) (fsub v w).
Proof.
  intros [Bx Ex] [By Ey]. destruct (fdifference_ok y x By Bx) as [E B]. split; [done |].
  by rewrite E, Ex, Ey, fsub_eqp.
Qed.

Lemma repr_mul (x y : limbs) (v w : Z) : loose x v -> loose y w -> repr (fmul x y) (fprod v w).
Proof.
  intros [Bx Ex] [By Ey]. destruct (fmul_ok x y Bx By) as [E B]. split; [done |]. by rewrite E, Ex, Ey, fprod_eqp.
Qed.

Lemma repr_square (x : limbs) (v : Z) : loose x v -> repr (fsquare_fsquare_times x 1) (fsq v).
Proof.
  intros [Bx Ex]. destruct (fsquare_times_ok x 1 Bx) as [E B]; [lia |]. split; [done |].
  rewrite E. change (2 ^ Z.of_nat 1) with 2. rewrite Z.pow_2_r. unfold fsq. by rewrite Ex, fprod_eqp.
Qed.

Lemma addanddouble_ok (p pq : point) (qx : limbs) (st : ladder_state) (u : Z) :
  repr_point p (fst st) -> repr_point pq (snd st) -> repr qx u ->
  repr_state (addanddouble_fmonty p pq qx) (ladder_step u st).
Proof.
  destruct p as [x z], pq as [x' z'], st as [[x2 z2] [x3 z3]]. intros [Hx Hz] [Hx' Hz'] Hq. cbn [fst snd] in *.
  unfold addanddouble_fmonty, ladder_step.
  pose proof (loose_add _ _ _ _ Hx Hz) as HA. pose proof (loose_sub _ _ _ _ Hx Hz) as HB.
  pose proof (loose_add _ _ _ _ Hx' Hz') as HC. pose proof (loose_sub _ _ _ _ Hx' Hz') as HD.
  pose proof (repr_square _ _ HA) as HAA. pose proof (repr_square _ _ HB) as HBB.
  pose proof (repr_mul _ _ _ _ HC HB) as HCB. pose proof (repr_mul _ _ _ _ HA HD) as HAD.
  pose proof (loose_sub _ _ _ _ HAA HBB) as HE.
  pose proof (repr_square _ _ (loose_add _ _ _ _ HCB HAD)) as H5.
  pose proof (repr_mul _ _ _ _ (repr_loose _ _ (repr_square _ _ (loose_sub _ _ _ _ HCB HAD))) (repr_loose _ _ Hq)) as H5z.
  destruct HE as [BE EE] eqn:HEeq. clear HEeq.
  destruct (fscalar_ok _ 121665 BE) as [E6 B6]; [lia |].
  assert (loose (fsum (fscalar (fdifference (fsquare_fsquare_times (fdifference z x) 1)
      (fsquare_fsquare_times (fsum x z) 1)) 121665) (fsquare_fsquare_times (fsum x z) 1))
    (fadd (fprod 121665 (fsub (fsq (fadd x2 z2)) (fsq (fsub x2 z2)))) (fsq (fadd x2 z2)))) as H6.
  { destruct HAA as [BAA EAA]. eapply loose_sum; [exact B6 | | exact BAA | exact EAA | unfold wide, tight; lia].
    by rewrite E6, EE, fprod_eqp. }
  rewrite (fprod_comm (fadd x2 z2)) in H5, H5z.
  split; split; cbn [fst snd].
  - by apply repr_mul; apply repr_loose.
  - rewrite fprod_comm, fadd_comm. apply (repr_mul _ _ _ _ H6 (conj BE EE)).
  - rewrite fadd_comm. exact H5.
  - rewrite fprod_comm, fsq_swap. exact H5z.
Qed.

(** *** The conditional swap *)

Lemma swap_word (a b : Z) (bit : bool) : 0 <= a < 2 ^ 64 -> 0 <= b < 2 ^ 64 ->
  point_swap_conditional_step a b (u64 (0 - Z.b2z bit)) = if bit then (b, a) else (a, b).
Proof.
  intros Ha Hb. unfold point_swap_conditional_step. destruct bit; cbn [Z.b2z].
  - change (u64 (0 - 1)) with ones64. rewrite (Z.land_comm ones64), land_ones_small by (apply lxor_small_range; lia).
    f_equal; [by rewrite <- Z.lxor_assoc, Z.lxor_nilpotent, Z.lxor_0_l |].
    by rewrite Z.lxor_comm, Z.lxor_assoc, Z.lxor_nilpotent, Z.lxor_0_r.
  - change (u64 (0 - 0)) with 0. by rewrite Z.land_0_l, !Z.lxor_0_r.
Qed.

Lemma swap_limbs (a b : limbs) (bit : bool) : bounded tight a -> bounded tight b ->
  point_swap_conditional5 a b (u64 (0 - Z.b2z bit)) = if bit then (b, a) else (a, b).
Proof.
  destruct a as [a0 a1 a2 a3 a4], b as [b0 b1 b2 b3 b4]. unfold bounded, tight, point_swap_conditional5. cbn [w0 w1 w2 w3 w4]. intros Ha Hb.
  rewrite !swap_word by lia. by destruct bit.
Qed.

Lemma swap_points (st : point * point) (v : ladder_state) (bit : bool) : repr_state st v ->
  point_swap_conditional (fst st) (snd st) (Z.b2z bit) = cswap bit st.
Proof.
  destruct st as [[ax az] [bx bz]]. intros [[[Hax _] [Haz _]] [[Hbx _] [Hbz _]]]. cbn [fst snd] in *.
  unfold point_swap_conditional. cbn [fst snd]. rewrite !swap_limbs by done. by destruct bit.
Qed.

Lemma repr_cswap (st : point * point) (v : ladder_state) (bit : bool) : repr_state st v ->
  repr_state (cswap bit st) (cswap bit v).
Proof. destruct bit; [| done]. intros [H1 H2]. by split. Qed.

(** *** The loops *)

Lemma small_step_ok (st : point * point) (v : ladder_state) (q : limbs) (u byt : Z) (bit : bool) :
  repr_state st v -> repr q u -> Z.shiftr byt 7 = Z.b2z bit ->
  repr_state (ladder_smallloop_cmult_small_loop_step (fst st) (snd st) q byt) (ladder_bit u v bit).
Proof.
  intros Hst Hq Hb. unfold ladder_smallloop_cmult_small_loop_step, ladder_bit.
  rewrite Hb, (swap_points st v bit Hst). pose proof (repr_cswap st v bit Hst) as [H1 H2].
  destruct (cswap bit st) as [nq nqpq]. cbn [fst snd] in *.
  pose proof (addanddouble_ok nq nqpq q (cswap bit v) u H1 H2 Hq) as Ha.
  destruct (addanddouble_fmonty nq nqpq q) as [nq2 nqpq2] eqn:E.
  change (point_swap_conditional nq2 nqpq2 (Z.b2z bit))
    with (point_swap_conditional (fst (nq2, nqpq2)) (snd (nq2, nqpq2)) (Z.b2z bit)).
  rewrite (swap_points _ _ bit Ha). by apply repr_cswap.
Qed.

Lemma double_step_ok (st : point * point) (v : ladder_state) (q : limbs) (u byt : Z) (hi lo : bool) :
  repr_state st v -> repr q u -> Z.shiftr byt 7 = Z.b2z hi -> Z.shiftr (u8 (Z.shiftl byt 1)) 7 = Z.b2z lo ->
  repr_state (ladder_smallloop_cmult_small_loop_double_step (fst st) (snd st) q byt)
    (fold_left (ladder_bit u) [hi; lo] v).
Proof.
  intros Hst Hq Hh Hl. unfold ladder_smallloop_cmult_small_loop_double_step. cbn [fold_left].
  pose proof (small_step_ok st v q u byt hi Hst Hq Hh) as H1.
  destruct (ladder_smallloop_cmult_small_loop_step (fst st) (snd st) q byt) as [nq2 nqpq2].
  by apply (small_step_ok (nq2, nqpq2)).
Qed.

(** The eight bits of a byte, as the shifts of the loop find them. *)
Definition byte_bits (z : Z) : list bool := map (Z.testbit z) [7; 6; 5; 4; 3; 2; 1; 0].

Fixpoint loop_bits (byt : Z) (i : nat) : list Z :=
  match i with
  | O => []
  | S i => Z.shiftr byt 7 :: Z.shiftr (u8 (Z.shiftl byt 1)) 7 :: loop_bits (u8 (Z.shiftl byt 2)) i
  end.

Lemma loop_bits_byte (b : byte) : loop_bits (b2z b) 4 = map Z.b2z (byte_bits (b2z b)).
Proof.
  assert (forallb (fun b => bool_decide (loop_bits (b2z b) 4 = map Z.b2z (byte_bits (b2z b)))) all_bytes = true)
    as Hall by by vm_compute.
  pose proof (byte_exhaust _ Hall b) as H. cbv beta in H. by apply bool_decide_eq_true in H.
Qed.

Lemma small_loop_ok (i : nat) (st : point * point) (v : ladder_state) (q : limbs) (u byt : Z) (bits : list bool) :
  repr_state st v -> repr q u -> loop_bits byt i = map Z.b2z bits ->
  repr_state (ladder_smallloop_cmult_small_loop st q byt i) (fold_left (ladder_bit u) bits v).
Proof.
  revert st v byt bits. induction i as [|i IH]; intros st v byt bits Hst Hq Hb; cbn [loop_bits] in Hb.
  - destruct bits; [exact Hst | done].
  - destruct bits as [|hi [|lo bits]]; try done. cbn [map] in Hb. injection Hb as Hh Hl Hb.
    cbn [ladder_smallloop_cmult_small_loop]. change (hi :: lo :: bits) with ([hi; lo] ++ bits).
    rewrite fold_left_app. apply IH; [by apply double_step_ok | done | done].
Qed.

Lemma bits_down_byte (s : list byte) (i : nat) :
  bits_down (le_bytes s) (8 * S i) = byte_bits (b2z (byte_at s i)) ++ bits_down (le_bytes s) (8 * i).
Proof.
  unfold bits_down. replace (8 * S i)%nat with (8 * i + 8)%nat by lia.
  rewrite seq_app, rev_app_distr, map_app. f_equal. cbn [Nat.add].
  assert (rev (seq (8 * i) 8) = map (fun j => (8 * i + j)%nat) [7; 6; 5; 4; 3; 2; 1; 0]%nat) as ->.
  { cbn [seq rev app map]. repeat (f_equal; try lia). }
  unfold byte_bits. change [7; 6; 5; 4; 3; 2; 1; 0] with (map Z.of_nat [7; 6; 5; 4; 3; 2; 1; 0]%nat).
  rewrite !map_map. apply map_ext_in. intros j Hj. apply testbit_le_bytes. cbn in Hj. lia.
Qed.

Lemma big_loop_ok (i : nat) (n1 : list byte) (st : point * point) (v : ladder_state) (q : limbs) (u : Z) :
  repr_state st v -> repr q u ->
  repr_state (ladder_bigloop_cmult_big_loop n1 st q i) (fold_left (ladder_bit u) (bits_down (le_bytes n1) (8 * i)) v).
Proof.
  revert st v. induction i as [|i IH]; intros st v Hst Hq; [exact Hst |].
  rewrite bits_down_byte, fold_left_app. cbn [ladder_bigloop_cmult_big_loop]. apply IH; [| done].
  apply small_loop_ok; [done | done | apply loop_bits_byte].
Qed.

(** *** The whole function *)

Lemma ladder_cmult_ok (n1 : list byte) (q : point) (u : Z) : repr (fst q) u -> snd q = Limbs 1 0 0 0 0 ->
  repr_point (ladder_cmult n1 q) (fst (fold_left (ladder_bit u) (bits_down (le_bytes n1) 256) ((1, 0), (u, 1)))).
Proof.
  intros Hq Hz. unfold ladder_cmult. change 256%nat with (8 * 32)%nat.
  refine (proj1 (big_loop_ok 32 n1 _ _ _ _ _ Hq)).
  assert (repr (Limbs 1 0 0 0 0) 1 /\ repr zero_limbs 0) as [H1 H0].
  { unfold repr, bounded, tight, zero_limbs, eval. cbn [w0 w1 w2 w3 w4]. repeat split; lia || done. }
  repeat split; cbn [fst snd]; rewrite ?Hz; (apply H1 || apply H0 || apply Hq).
Qed.

(** The bytes [curve25519] writes are those of the ladder over the 256 bits of the clamped
    secret, from the 255 low bits of the base point. *)
Lemma curve25519_ladder (secret basepoint : list byte) :
  length secret = 32%nat -> length basepoint = 32%nat ->
  curve25519 secret basepoint
  = bytes_le 32 (ladder 256 (clamp (le_bytes secret)) (le_bytes basepoint mod 2 ^ 255)).
Proof.
  intros Hs Hb. unfold curve25519, curve25519_generic.
  set (u := le_bytes basepoint mod 2 ^ 255). set (k := clamp (le_bytes secret)).
  destruct (fexpand_ok basepoint Hb) as [Eq Bq].
  assert (repr (format_fexpand basepoint) u) as Hq.
  { split; [eapply bounded_weaken; [exact Bq | unfold tight; lia] |]. by rewrite Eq. }
  pose proof (ladder_cmult_ok (curve25519_clamp_secret secret) (format_fexpand basepoint, Limbs 1 0 0 0 0) u Hq eq_refl) as Hl.
  rewrite clamp_ok in Hl by done. fold k in Hl. unfold ladder.
  destruct (fold_left _ _ _) as [[x2 z2] rest]. destruct (ladder_cmult _ _) as [x z]. destruct Hl as [Hx [Bz Ez]].
  cbn [fst snd] in *. unfold format_scalar_of_point.
  destruct (crecip_ok z Bz) as (_ & Er & Br).
  assert (repr (crecip z) (finv z2)) as Hr.
  { split; [done |]. rewrite Er, finv_eqp. apply eqp_pow; [unfold p25519; lia | done]. }
  destruct (repr_mul _ _ _ _ (repr_loose _ _ Hx) (repr_loose _ _ Hr)) as [Bo Eo].
  rewrite (fcontract_ok _ Bo). f_equal. apply eqp_iff in Eo. rewrite Eo. unfold fprod. by rewrite Z.mod_mod.
Qed.
