(* ===== verification/Fiat32.v ===== *)
(** * X25519 on 32-bit machines (src/curve25519-fiat32.h)

    The implementation [curve25519.c] includes where the compiler has no 128-bit integers,
    statement by statement.  An array of ten [u32] is an [fe] record; every operation on
    words wraps around at their width: [a *64 b] is a product of two [u64], [a +32 b] a sum
    of two [u32], and so on.  A function that writes through a pointer returns what it
    writes.  The variables keep the names of the source, [x12] being
    [x_12] here ([x12] is a byte). *)

From S2P Require Import Prelude Encoding Curve25519.
#[local] Open Scope Z_scope.

(** ** Words *)

Definition add64 (a b : Z) : Z := u64 (a + b).
Definition mul64 (a b : Z) : Z := u64 (a * b).
Definition shl64 (a n : Z) : Z := u64 (Z.shiftl a n).
Definition add32 (a b : Z) : Z := u32 (a + b).
Definition sub32 (a b : Z) : Z := u32 (a - b).
Definition mul32 (a b : Z) : Z := u32 (a * b).
Definition shl32 (a n : Z) : Z := u32 (Z.shiftl a n).

Declare Scope word_scope.
Delimit Scope word_scope with word.
Infix "*64" := mul64 (at level 40, left associativity) : word_scope.
Infix "*32" := mul32 (at level 40, left associativity) : word_scope.
Infix "+64" := add64 (at level 50, left associativity) : word_scope.
Infix "+32" := add32 (at level 50, left associativity) : word_scope.
Infix "-32" := sub32 (at level 50, left associativity) : word_scope.
Infix "<<64" := shl64 (at level 54, left associativity) : word_scope.
Infix "<<32" := shl32 (at level 54, left associativity) : word_scope.
Infix ">>" := Z.shiftr (at level 54, left associativity) : word_scope.
Infix ".&" := Z.land (at level 56, left associativity) : word_scope.
Infix ".|" := Z.lor (at level 57, left associativity) : word_scope.
#[local] Open Scope word_scope.

(** [u32 v\[10\]], in the radices 2^26 and 2^25 in turn.  The source has the types [fe] and
    [fe_loose] of the same layout; they differ in the bounds of their words. *)
Record fe := Fe {
  v0 : Z; v1 : Z; v2 : Z; v3 : Z; v4 : Z; v5 : Z; v6 : Z; v7 : Z; v8 : Z; v9 : Z
}.
Definition fe_loose : Type := fe.

Definition get_unaligned_le32 (a : list byte) : Z := le_bytes (take 4 a).

(** ** Reading *)

Definition fe_frombytes_impl (s : list byte) : fe :=
  let a0 := get_unaligned_le32 s in
  let a1 := get_unaligned_le32 (drop 4 s) in
  let a2 := get_unaligned_le32 (drop 8 s) in
  let a3 := get_unaligned_le32 (drop 12 s) in
  let a4 := get_unaligned_le32 (drop 16 s) in
  let a5 := get_unaligned_le32 (drop 20 s) in
  let a6 := get_unaligned_le32 (drop 24 s) in
  let a7 := get_unaligned_le32 (drop 28 s) in
  Fe (a0 .& (2 ^ 26 - 1))
    ((a0 >> 26) .| ((a1 .& (2 ^ 19 - 1)) <<32 6))
    ((a1 >> 19) .| ((a2 .& (2 ^ 13 - 1)) <<32 13))
    ((a2 >> 13) .| ((a3 .& (2 ^ 6 - 1)) <<32 19))
    (a3 >> 6)
    (a4 .& (2 ^ 25 - 1))
    ((a4 >> 25) .| ((a5 .& (2 ^ 19 - 1)) <<32 7))
    ((a5 >> 19) .| ((a6 .& (2 ^ 12 - 1)) <<32 13))
    ((a6 >> 12) .| ((a7 .& (2 ^ 6 - 1)) <<32 20))
    ((a7 >> 6) .& (2 ^ 25 - 1)).

Definition fe_frombytes (s : list byte) : fe := fe_frombytes_impl s.

(** ** Full reduction *)

(** The result is the pair of [*low] and the carry returned. *)
Definition addcarryx_u25 (c a b : Z) : Z * Z :=
  let x := (a +32 b) +32 c in
  (x .& (2 ^ 25 - 1), (x >> 25) .& 1).

Definition addcarryx_u26 (c a b : Z) : Z * Z :=
  let x := (a +32 b) +32 c in
  (x .& (2 ^ 26 - 1), (x >> 26) .& 1).

Definition subborrow_u25 (c a b : Z) : Z * Z :=
  let x := (a -32 b) -32 c in
  (x .& (2 ^ 25 - 1), x >> 31).

Definition subborrow_u26 (c a b : Z) : Z * Z :=
  let x := (a -32 b) -32 c in
  (x .& (2 ^ 26 - 1), x >> 31).

Definition cmovznz32 (t z nz : Z) : Z :=
  let t := u32 (- (if t =? 0 then 0 else 1)) in
  (t .& nz) .| (u32 (Z.lnot t) .& z).

Definition fe_freeze (in1 : fe) : fe :=
  let '(Fe x_2 x_4 x_6 x_8 x_10 x_12 x_14 x_16 x_18 x_17) := in1 in
  let '(x_20, x_21) := subborrow_u26 0 x_2 0x3ffffed in
  let '(x_23, x_24) := subborrow_u25 x_21 x_4 0x1ffffff in
  let '(x_26, x_27) := subborrow_u26 x_24 x_6 0x3ffffff in
  let '(x_29, x_30) := subborrow_u25 x_27 x_8 0x1ffffff in
  let '(x_32, x_33) := subborrow_u26 x_30 x_10 0x3ffffff in
  let '(x_35, x_36) := subborrow_u25 x_33 x_12 0x1ffffff in
  let '(x_38, x_39) := subborrow_u26 x_36 x_14 0x3ffffff in
  let '(x_41, x_42) := subborrow_u25 x_39 x_16 0x1ffffff in
  let '(x_44, x_45) := subborrow_u26 x_42 x_18 0x3ffffff in
  let '(x_47, x_48) := subborrow_u25 x_45 x_17 0x1ffffff in
  let x_49 := cmovznz32 x_48 0 0xffffffff in
  let x_50 := x_49 .& 0x3ffffed in
  let '(x_52, x_53) := addcarryx_u26 0 x_20 x_50 in
  let x_54 := x_49 .& 0x1ffffff in
  let '(x_56, x_57) := addcarryx_u25 x_53 x_23 x_54 in
  let x_58 := x_49 .& 0x3ffffff in
  let '(x_60, x_61) := addcarryx_u26 x_57 x_26 x_58 in
  let x_62 := x_49 .& 0x1ffffff in
  let '(x_64, x_65) := addcarryx_u25 x_61 x_29 x_62 in
  let x_66 := x_49 .& 0x3ffffff in
  let '(x_68, x_69) := addcarryx_u26 x_65 x_32 x_66 in
  let x_70 := x_49 .& 0x1ffffff in
  let '(x_72, x_73) := addcarryx_u25 x_69 x_35 x_70 in
  let x_74 := x_49 .& 0x3ffffff in
  let '(x_76, x_77) := addcarryx_u26 x_73 x_38 x_74 in
  let x_78 := x_49 .& 0x1ffffff in
  let '(x_80, x_81) := addcarryx_u25 x_77 x_41 x_78 in
  let x_82 := x_49 .& 0x3ffffff in
  let '(x_84, x_85) := addcarryx_u26 x_81 x_44 x_82 in
  let x_86 := x_49 .& 0x1ffffff in
  let '(x_88, _) := addcarryx_u25 x_85 x_47 x_86 in
  Fe x_52 x_56 x_60 x_64 x_68 x_72 x_76 x_80 x_84 x_88.

(** ** Writing *)

Definition fe_tobytes_frozen (h : fe) : list byte :=
  let '(Fe h0 h1 h2 h3 h4 h5 h6 h7 h8 h9) := h in
  map z2b [
    h0 >> 0; h0 >> 8; h0 >> 16; (h0 >> 24) .| (h1 <<32 2);
    h1 >> 6; h1 >> 14; (h1 >> 22) .| (h2 <<32 3); h2 >> 5;
    h2 >> 13; (h2 >> 21) .| (h3 <<32 5); h3 >> 3; h3 >> 11;
    (h3 >> 19) .| (h4 <<32 6); h4 >> 2; h4 >> 10; h4 >> 18;
    h5 >> 0; h5 >> 8; h5 >> 16; (h5 >> 24) .| (h6 <<32 1);
    h6 >> 7; h6 >> 15; (h6 >> 23) .| (h7 <<32 3); h7 >> 5;
    h7 >> 13; (h7 >> 21) .| (h8 <<32 4); h8 >> 4; h8 >> 12;
    (h8 >> 20) .| (h9 <<32 6); h9 >> 2; h9 >> 10; h9 >> 18
  ].

Definition fe_tobytes (f : fe) : list byte := fe_tobytes_frozen (fe_freeze f).

(** ** Copies and constants *)

Definition fe_copy (f : fe) : fe := f.
Definition fe_copy_lt (f : fe) : fe_loose := f.
Definition fe_0 : fe := Fe 0 0 0 0 0 0 0 0 0 0.
Definition fe_1 : fe := Fe 1 0 0 0 0 0 0 0 0 0.

(** ** Sums and differences *)

Definition fe_add_impl (in1 in2 : fe) : fe :=
  let '(Fe x_5 x_7 x_9 x_11 x_13 x_15 x_17 x_19 x_21 x_20) := in1 in
  let '(Fe x_23 x_25 x_27 x_29 x_31 x_33 x_35 x_37 x_39 x_38) := in2 in
  Fe (x_5 +32 x_23) (x_7 +32 x_25) (x_9 +32 x_27) (x_11 +32 x_29) (x_13 +32 x_31)
    (x_15 +32 x_33) (x_17 +32 x_35) (x_19 +32 x_37) (x_21 +32 x_39) (x_20 +32 x_38).

Definition fe_add (f g : fe) : fe_loose := fe_add_impl f g.

Definition fe_sub_impl (in1 in2 : fe) : fe :=
  let '(Fe x_5 x_7 x_9 x_11 x_13 x_15 x_17 x_19 x_21 x_20) := in1 in
  let '(Fe x_23 x_25 x_27 x_29 x_31 x_33 x_35 x_37 x_39 x_38) := in2 in
  Fe ((0x7ffffda +32 x_5) -32 x_23) ((0x3fffffe +32 x_7) -32 x_25) ((0x7fffffe +32 x_9) -32 x_27)
    ((0x3fffffe +32 x_11) -32 x_29) ((0x7fffffe +32 x_13) -32 x_31) ((0x3fffffe +32 x_15) -32 x_33)
    ((0x7fffffe +32 x_17) -32 x_35) ((0x3fffffe +32 x_19) -32 x_37)
    ((0x7fffffe +32 x_21) -32 x_39) ((0x3fffffe +32 x_20) -32 x_38).

Definition fe_sub (f g : fe) : fe_loose := fe_sub_impl f g.

(** ** Products *)

(** The columns of the product, those from 2^255 up coming round times 19: [x_85], [x_82] up
    to [x_61], and [x_49]. *)
Definition fe_mul_columns (in1 in2 : fe) : fe :=
  let '(Fe x_5 x_7 x_9 x_11 x_13 x_15 x_17 x_19 x_21 x_20) := in1 in
  let '(Fe x_23 x_25 x_27 x_29 x_31 x_33 x_35 x_37 x_39 x_38) := in2 in
  let x_40 := x_23 *64 x_5 in
  let x_41 := (x_23 *64 x_7) +64 (x_25 *64 x_5) in
  let x_42 := (((2 *32 x_25) *64 x_7) +64 (x_23 *64 x_9)) +64 (x_27 *64 x_5) in
  let x_43 := (((x_25 *64 x_9) +64 (x_27 *64 x_7)) +64 (x_23 *64 x_11)) +64 (x_29 *64 x_5) in
  let x_44 := (((x_27 *64 x_9) +64 (2 *64 ((x_25 *64 x_11) +64 (x_29 *64 x_7)))) +64 (x_23 *64 x_13)) +64 (x_31 *64 x_5) in
  let x_45 := (((((x_27 *64 x_11) +64 (x_29 *64 x_9)) +64 (x_25 *64 x_13)) +64 (x_31 *64 x_7)) +64 (x_23 *64 x_15))
    +64 (x_33 *64 x_5) in
  let x_46 := ((((2 *64 (((x_29 *64 x_11) +64 (x_25 *64 x_15)) +64 (x_33 *64 x_7))) +64 (x_27 *64 x_13)) +64 (x_31 *64 x_9))
    +64 (x_23 *64 x_17)) +64 (x_35 *64 x_5) in
  let x_47 := (((((((x_29 *64 x_13) +64 (x_31 *64 x_11)) +64 (x_27 *64 x_15)) +64 (x_33 *64 x_9)) +64 (x_25 *64 x_17))
    +64 (x_35 *64 x_7)) +64 (x_23 *64 x_19)) +64 (x_37 *64 x_5) in
  let x_48 := (((((x_31 *64 x_13) +64 (2 *64 ((((x_29 *64 x_15) +64 (x_33 *64 x_11)) +64 (x_25 *64 x_19))
    +64 (x_37 *64 x_7)))) +64 (x_27 *64 x_17)) +64 (x_35 *64 x_9)) +64 (x_23 *64 x_21)) +64 (x_39 *64 x_5) in
  let x_49 := (((((((((x_31 *64 x_15) +64 (x_33 *64 x_13)) +64 (x_29 *64 x_17)) +64 (x_35 *64 x_11)) +64 (x_27 *64 x_19))
    +64 (x_37 *64 x_9)) +64 (x_25 *64 x_21)) +64 (x_39 *64 x_7)) +64 (x_23 *64 x_20)) +64 (x_38 *64 x_5) in
  let x_50 := ((((2 *64 (((((x_33 *64 x_15) +64 (x_29 *64 x_19)) +64 (x_37 *64 x_11)) +64 (x_25 *64 x_20))
    +64 (x_38 *64 x_7))) +64 (x_31 *64 x_17)) +64 (x_35 *64 x_13)) +64 (x_27 *64 x_21)) +64 (x_39 *64 x_9) in
  let x_51 := (((((((x_33 *64 x_17) +64 (x_35 *64 x_15)) +64 (x_31 *64 x_19)) +64 (x_37 *64 x_13)) +64 (x_29 *64 x_21))
    +64 (x_39 *64 x_11)) +64 (x_27 *64 x_20)) +64 (x_38 *64 x_9) in
  let x_52 := (((x_35 *64 x_17) +64 (2 *64 ((((x_33 *64 x_19) +64 (x_37 *64 x_15)) +64 (x_29 *64 x_20))
    +64 (x_38 *64 x_11)))) +64 (x_31 *64 x_21)) +64 (x_39 *64 x_13) in
  let x_53 := (((((x_35 *64 x_19) +64 (x_37 *64 x_17)) +64 (x_33 *64 x_21)) +64 (x_39 *64 x_15)) +64 (x_31 *64 x_20))
    +64 (x_38 *64 x_13) in
  let x_54 := ((2 *64 (((x_37 *64 x_19) +64 (x_33 *64 x_20)) +64 (x_38 *64 x_15))) +64 (x_35 *64 x_21)) +64 (x_39 *64 x_17) in
  let x_55 := (((x_37 *64 x_21) +64 (x_39 *64 x_19)) +64 (x_35 *64 x_20)) +64 (x_38 *64 x_17) in
  let x_56 := (x_39 *64 x_21) +64 (2 *64 ((x_37 *64 x_20) +64 (x_38 *64 x_19))) in
  let x_57 := (x_39 *64 x_20) +64 (x_38 *64 x_21) in
  let x_58 := (2 *32 x_38) *64 x_20 in
  let x_59 := x_48 +64 (x_58 <<64 4) in
  let x_60 := x_59 +64 (x_58 <<64 1) in
  let x_61 := x_60 +64 x_58 in
  let x_62 := x_47 +64 (x_57 <<64 4) in
  let x_63 := x_62 +64 (x_57 <<64 1) in
  let x_64 := x_63 +64 x_57 in
  let x_65 := x_46 +64 (x_56 <<64 4) in
  let x_66 := x_65 +64 (x_56 <<64 1) in
  let x_67 := x_66 +64 x_56 in
  let x_68 := x_45 +64 (x_55 <<64 4) in
  let x_69 := x_68 +64 (x_55 <<64 1) in
  let x_70 := x_69 +64 x_55 in
  let x_71 := x_44 +64 (x_54 <<64 4) in
  let x_72 := x_71 +64 (x_54 <<64 1) in
  let x_73 := x_72 +64 x_54 in
  let x_74 := x_43 +64 (x_53 <<64 4) in
  let x_75 := x_74 +64 (x_53 <<64 1) in
  let x_76 := x_75 +64 x_53 in
  let x_77 := x_42 +64 (x_52 <<64 4) in
  let x_78 := x_77 +64 (x_52 <<64 1) in
  let x_79 := x_78 +64 x_52 in
  let x_80 := x_41 +64 (x_51 <<64 4) in
  let x_81 := x_80 +64 (x_51 <<64 1) in
  let x_82 := x_81 +64 x_51 in
  let x_83 := x_40 +64 (x_50 <<64 4) in
  let x_84 := x_83 +64 (x_50 <<64 1) in
  let x_85 := x_84 +64 x_50 in
  Fe x_85 x_82 x_79 x_76 x_73 x_70 x_67 x_64 x_61 x_49.

(** The carries that end [fe_mul_impl], [fe_sqr_impl] and [fe_mul_121666_impl], on the ten
    columns; the names are those of [fe_mul_impl]. *)
Definition fe_carry (columns : fe) : fe :=
  let '(Fe x_85 x_82 x_79 x_76 x_73 x_70 x_67 x_64 x_61 x_49) := columns in
  let x_86 := x_85 >> 26 in
  let x_87 := u32 x_85 .& 0x3ffffff in
  let x_88 := x_86 +64 x_82 in
  let x_89 := x_88 >> 25 in
  let x_90 := u32 x_88 .& 0x1ffffff in
  let x_91 := x_89 +64 x_79 in
  let x_92 := x_91 >> 26 in
  let x_93 := u32 x_91 .& 0x3ffffff in
  let x_94 := x_92 +64 x_76 in
  let x_95 := x_94 >> 25 in
  let x_96 := u32 x_94 .& 0x1ffffff in
  let x_97 := x_95 +64 x_73 in
  let x_98 := x_97 >> 26 in
  let x_99 := u32 x_97 .& 0x3ffffff in
  let x_100 := x_98 +64 x_70 in
  let x_101 := x_100 >> 25 in
  let x_102 := u32 x_100 .& 0x1ffffff in
  let x_103 := x_101 +64 x_67 in
  let x_104 := x_103 >> 26 in
  let x_105 := u32 x_103 .& 0x3ffffff in
  let x_106 := x_104 +64 x_64 in
  let x_107 := x_106 >> 25 in
  let x_108 := u32 x_106 .& 0x1ffffff in
  let x_109 := x_107 +64 x_61 in
  let x_110 := x_109 >> 26 in
  let x_111 := u32 x_109 .& 0x3ffffff in
  let x_112 := x_110 +64 x_49 in
  let x_113 := x_112 >> 25 in
  let x_114 := u32 x_112 .& 0x1ffffff in
  let x_115 := x_87 +64 (19 *64 x_113) in
  let x_116 := u32 (x_115 >> 26) in
  let x_117 := u32 x_115 .& 0x3ffffff in
  let x_118 := x_116 +32 x_90 in
  let x_119 := x_118 >> 25 in
  let x_120 := x_118 .& 0x1ffffff in
  Fe x_117 x_120 (x_119 +32 x_93) x_96 x_99 x_102 x_105 x_108 x_111 x_114.

Definition fe_mul_impl (in1 in2 : fe) : fe := fe_carry (fe_mul_columns in1 in2).

Definition fe_mul_ttt (f g : fe) : fe := fe_mul_impl f g.
Definition fe_mul_tlt (f : fe_loose) (g : fe) : fe := fe_mul_impl f g.
Definition fe_mul_tll (f g : fe_loose) : fe := fe_mul_impl f g.

(** ** Squares *)

Definition fe_sqr_columns (in1 : fe) : fe :=
  let '(Fe x_2 x_4 x_6 x_8 x_10 x_12 x_14 x_16 x_18 x_17) := in1 in
  let x_19 := x_2 *64 x_2 in
  let x_20 := (2 *32 x_2) *64 x_4 in
  let x_21 := 2 *64 ((x_4 *64 x_4) +64 (x_2 *64 x_6)) in
  let x_22 := 2 *64 ((x_4 *64 x_6) +64 (x_2 *64 x_8)) in
  let x_23 := ((x_6 *64 x_6) +64 ((4 *32 x_4) *64 x_8)) +64 ((2 *32 x_2) *64 x_10) in
  let x_24 := 2 *64 (((x_6 *64 x_8) +64 (x_4 *64 x_10)) +64 (x_2 *64 x_12)) in
  let x_25 := 2 *64 ((((x_8 *64 x_8) +64 (x_6 *64 x_10)) +64 (x_2 *64 x_14)) +64 ((2 *32 x_4) *64 x_12)) in
  let x_26 := 2 *64 ((((x_8 *64 x_10) +64 (x_6 *64 x_12)) +64 (x_4 *64 x_14)) +64 (x_2 *64 x_16)) in
  let x_27 := (x_10 *64 x_10) +64 (2 *64 (((x_6 *64 x_14) +64 (x_2 *64 x_18)) +64 (2 *64 ((x_4 *64 x_16)
    +64 (x_8 *64 x_12))))) in
  let x_28 := 2 *64 (((((x_10 *64 x_12) +64 (x_8 *64 x_14)) +64 (x_6 *64 x_16)) +64 (x_4 *64 x_18)) +64 (x_2 *64 x_17)) in
  let x_29 := 2 *64 ((((x_12 *64 x_12) +64 (x_10 *64 x_14)) +64 (x_6 *64 x_18)) +64 (2 *64 ((x_8 *64 x_16)
    +64 (x_4 *64 x_17)))) in
  let x_30 := 2 *64 ((((x_12 *64 x_14) +64 (x_10 *64 x_16)) +64 (x_8 *64 x_18)) +64 (x_6 *64 x_17)) in
  let x_31 := (x_14 *64 x_14) +64 (2 *64 ((x_10 *64 x_18) +64 (2 *64 ((x_12 *64 x_16) +64 (x_8 *64 x_17))))) in
  let x_32 := 2 *64 (((x_14 *64 x_16) +64 (x_12 *64 x_18)) +64 (x_10 *64 x_17)) in
  let x_33 := 2 *64 (((x_16 *64 x_16) +64 (x_14 *64 x_18)) +64 ((2 *32 x_12) *64 x_17)) in
  let x_34 := 2 *64 ((x_16 *64 x_18) +64 (x_14 *64 x_17)) in
  let x_35 := (x_18 *64 x_18) +64 ((4 *32 x_16) *64 x_17) in
  let x_36 := (2 *32 x_18) *64 x_17 in
  let x_37 := (2 *32 x_17) *64 x_17 in
  let x_38 := x_27 +64 (x_37 <<64 4) in
  let x_39 := x_38 +64 (x_37 <<64 1) in
  let x_40 := x_39 +64 x_37 in
  let x_41 := x_26 +64 (x_36 <<64 4) in
  let x_42 := x_41 +64 (x_36 <<64 1) in
  let x_43 := x_42 +64 x_36 in
  let x_44 := x_25 +64 (x_35 <<64 4) in
  let x_45 := x_44 +64 (x_35 <<64 1) in
  let x_46 := x_45 +64 x_35 in
  let x_47 := x_24 +64 (x_34 <<64 4) in
  let x_48 := x_47 +64 (x_34 <<64 1) in
  let x_49 := x_48 +64 x_34 in
  let x_50 := x_23 +64 (x_33 <<64 4) in
  let x_51 := x_50 +64 (x_33 <<64 1) in
  let x_52 := x_51 +64 x_33 in
  let x_53 := x_22 +64 (x_32 <<64 4) in
  let x_54 := x_53 +64 (x_32 <<64 1) in
  let x_55 := x_54 +64 x_32 in
  let x_56 := x_21 +64 (x_31 <<64 4) in
  let x_57 := x_56 +64 (x_31 <<64 1) in
  let x_58 := x_57 +64 x_31 in
  let x_59 := x_20 +64 (x_30 <<64 4) in
  let x_60 := x_59 +64 (x_30 <<64 1) in
  let x_61 := x_60 +64 x_30 in
  let x_62 := x_19 +64 (x_29 <<64 4) in
  let x_63 := x_62 +64 (x_29 <<64 1) in
  let x_64 := x_63 +64 x_29 in
  Fe x_64 x_61 x_58 x_55 x_52 x_49 x_46 x_43 x_40 x_28.

Definition fe_sqr_impl (in1 : fe) : fe := fe_carry (fe_sqr_columns in1).

Definition fe_sq_tl (f : fe_loose) : fe := fe_sqr_impl f.
Definition fe_sq_tt (f : fe) : fe := fe_sqr_impl f.

(** ** Inversion *)

(** One squaring and a loop of [n - 1] more. *)
Definition fe_sq_times (n : nat) (f : fe) : fe := Nat.iter (n - 1) fe_sq_tt (fe_sq_tt f).

Definition fe_loose_invert (z : fe_loose) : fe :=
  let t0 := fe_sq_tl z in
  let t1 := fe_sq_times 2 t0 in
  let t1 := fe_mul_tlt z t1 in
  let t0 := fe_mul_ttt t0 t1 in
  let t2 := fe_sq_tt t0 in
  let t1 := fe_mul_ttt t1 t2 in
  let t2 := fe_sq_times 5 t1 in
  let t1 := fe_mul_ttt t2 t1 in
  let t2 := fe_sq_times 10 t1 in
  let t2 := fe_mul_ttt t2 t1 in
  let t3 := fe_sq_times 20 t2 in
  let t2 := fe_mul_ttt t3 t2 in
  let t2 := fe_sq_times 10 t2 in
  let t1 := fe_mul_ttt t2 t1 in
  let t2 := fe_sq_times 50 t1 in
  let t2 := fe_mul_ttt t2 t1 in
  let t3 := fe_sq_times 100 t2 in
  let t2 := fe_mul_ttt t3 t2 in
  let t2 := fe_sq_times 50 t2 in
  let t1 := fe_mul_ttt t2 t1 in
  let t1 := fe_sq_times 5 t1 in
  fe_mul_ttt t1 t0.

Definition fe_invert (z : fe) : fe :=
  let l := fe_copy_lt z in
  fe_loose_invert l.

(** ** The conditional swap *)

(** The body of the loop, on one word. *)
Definition fe_cswap_word (f g b : Z) : Z * Z :=
  let x := Z.lxor f g in
  let x := x .& b in
  (Z.lxor f x, Z.lxor g x).

Definition fe_cswap (f g : fe) (b : Z) : fe * fe :=
  let b := 0 -32 b in
  let '(Fe f0 f1 f2 f3 f4 f5 f6 f7 f8 f9) := f in
  let '(Fe g0 g1 g2 g3 g4 g5 g6 g7 g8 g9) := g in
  let '(f0, g0) := fe_cswap_word f0 g0 b in
  let '(f1, g1) := fe_cswap_word f1 g1 b in
  let '(f2, g2) := fe_cswap_word f2 g2 b in
  let '(f3, g3) := fe_cswap_word f3 g3 b in
  let '(f4, g4) := fe_cswap_word f4 g4 b in
  let '(f5, g5) := fe_cswap_word f5 g5 b in
  let '(f6, g6) := fe_cswap_word f6 g6 b in
  let '(f7, g7) := fe_cswap_word f7 g7 b in
  let '(f8, g8) := fe_cswap_word f8 g8 b in
  let '(f9, g9) := fe_cswap_word f9 g9 b in
  (Fe f0 f1 f2 f3 f4 f5 f6 f7 f8 f9, Fe g0 g1 g2 g3 g4 g5 g6 g7 g8 g9).

(** ** The multiple 121666 *)

(** The text of [fe_mul_impl] with the words of [in2] fixed. *)
Definition fe_mul_121666_impl (in1 : fe) : fe :=
  fe_carry (fe_mul_columns in1 (Fe 121666 0 0 0 0 0 0 0 0 0)).

Definition fe_mul121666 (f : fe_loose) : fe := fe_mul_121666_impl f.

(** ** The ladder *)

(** The variables of the loop: the two points and [swap]. *)
Record ladder32 := Ladder32 { lx2 : fe; lz2 : fe; lx3 : fe; lz3 : fe; lswap : Z }.

(** One pass of the loop, on the bit [b] of the scalar. *)
Definition ladder32_step (x1 : fe) (st : ladder32) (b : Z) : ladder32 :=
  let '(Ladder32 x2 z2 x3 z3 swap) := st in
  let swap := Z.lxor swap b in
  let '(x2, x3) := fe_cswap x2 x3 swap in
  let '(z2, z3) := fe_cswap z2 z3 swap in
  let swap := b in
  let tmp0l := fe_sub x3 z3 in
  let tmp1l := fe_sub x2 z2 in
  let x2l := fe_add x2 z2 in
  let z2l := fe_add x3 z3 in
  let z3 := fe_mul_tll tmp0l x2l in
  let z2 := fe_mul_tll z2l tmp1l in
  let tmp0 := fe_sq_tl tmp1l in
  let tmp1 := fe_sq_tl x2l in
  let x3l := fe_add z3 z2 in
  let z2l := fe_sub z3 z2 in
  let x2 := fe_mul_ttt tmp1 tmp0 in
  let tmp1l := fe_sub tmp1 tmp0 in
  let z2 := fe_sq_tl z2l in
  let z3 := fe_mul121666 tmp1l in
  let x3 := fe_sq_tl x3l in
  let tmp0l := fe_add tmp0 z3 in
  let z3 := fe_mul_ttt x1 z2 in
  let z2 := fe_mul_tll tmp1l tmp0l in
  Ladder32 x2 z2 x3 z3 swap.

(** The loop, [n] being [pos + 1]. *)
Fixpoint ladder32_loop (e : list byte) (x1 : fe) (st : ladder32) (n : nat) : ladder32 :=
  match n with
  | O => st
  | S pos =>
      let b := 1 .& (b2z (byte_at e (pos / 8)) >> Z.land (Z.of_nat pos) 7) in
      ladder32_loop e x1 (ladder32_step x1 st b) pos
  end.

Definition curve25519_generic (scalar point : list byte) : list byte :=
  let e := curve25519_clamp_secret scalar in
  let x1 := fe_frombytes point in
  let x2 := fe_1 in
  let z2 := fe_0 in
  let x3 := fe_copy x1 in
  let z3 := fe_1 in
  let '(Ladder32 x2 z2 x3 z3 swap) := ladder32_loop e x1 (Ladder32 x2 z2 x3 z3 0) 255 in
  let '(x2, x3) := fe_cswap x2 x3 swap in
  let '(z2, z3) := fe_cswap z2 z3 swap in
  let z2 := fe_invert z2 in
  let x2 := fe_mul_ttt x2 z2 in
  fe_tobytes x2.

(** [curve25519] and [curve25519_generate_public] of [curve25519.c], built with this file. *)
Definition curve25519_32 (secret basepoint : list byte) : list byte := curve25519_generic secret basepoint.

Definition curve25519_generate_public_32 (secret : list byte) : list byte :=
  curve25519_32 secret curve25519_basepoint.
