(* ===== verification/Fiat32Field.v ===== *)
(** * Field arithmetic on ten words

    The operations of the 32-bit implementation compute the field operations they are named
    after, modulo 2^255 - 19.  The bounds are those its comments give: [tight32] for the type
    [fe] and [loose32] for [fe_loose]. *)

From Stdlib Require Import Setoid Morphisms.
From S2P Require Import Prelude Curve25519 Rfc7748 Curve25519Field Fiat32.
#[local] Open Scope Z_scope.
#[local] Opaque Z.pow.

(** ** Values and bounds *)

Definition eval32 (x : fe) : Z :=
  v0 x + 2 ^ 26 * v1 x + 2 ^ 51 * v2 x + 2 ^ 77 * v3 x + 2 ^ 102 * v4 x + 2 ^ 128 * v5 x
  + 2 ^ 153 * v6 x + 2 ^ 179 * v7 x + 2 ^ 204 * v8 x + 2 ^ 230 * v9 x.

(** The words of 26 bits stay below [e], those of 25 bits below [o]. *)
Definition bounded32 (e o : Z) (x : fe) : Prop :=
  (0 <= v0 x < e) /\ (0 <= v1 x < o) /\ (0 <= v2 x < e) /\ (0 <= v3 x < o) /\ (0 <= v4 x < e)
  /\ (0 <= v5 x < o) /\ (0 <= v6 x < e) /\ (0 <= v7 x < o) /\ (0 <= v8 x < e) /\ (0 <= v9 x < o).

(** 1.125 and 3.375 times the radices. *)
Definition tight32 : fe -> Prop := bounded32 (9 * 2 ^ 23) (9 * 2 ^ 22).
Definition loose32 : fe -> Prop := bounded32 (27 * 2 ^ 23) (27 * 2 ^ 22).

Lemma tight_loose32 (x : fe) : tight32 x -> loose32 x.
Proof. unfold tight32, loose32, bounded32. lia. Qed.

Ltac proj32 := cbn [v0 v1 v2 v3 v4 v5 v6 v7 v8 v9] in *.

(** ** Words that do not wrap *)

Lemma u32_small (z : Z) : 0 <= z < 2 ^ 32 -> u32 z = z.
Proof. apply uw_small. Qed.

(** [x] is the word an expression of value [e] leaves. *)
Definition wraps (x e : Z) : Prop := x = u64 e.

Lemma wraps_leaf (a b : Z) : wraps (a *64 b)%word (a * b).
Proof. done. Qed.
Lemma wraps_add (x y a b : Z) : wraps x a -> wraps y b -> wraps (x +64 y)%word (a + b).
Proof. intros -> ->. unfold wraps, add64, u64, uw. by rewrite <- Zplus_mod. Qed.
Lemma wraps_double (x a : Z) : wraps x a -> wraps (2 *64 x)%word (2 * a).
Proof. intros ->. unfold wraps, mul64, u64, uw. by rewrite Zmult_mod_idemp_r. Qed.
Lemma wraps_shift (x a n : Z) : 0 <= n -> wraps x a -> wraps (x <<64 n)%word (a * 2 ^ n).
Proof. intros Hn ->. unfold wraps, shl64, u64, uw. by rewrite Z.shiftl_mul_pow2, Zmult_mod_idemp_l. Qed.

(** The value of an expression whose intermediate results may wrap. *)
Ltac unwrap64 :=
  lazymatch goal with
  | |- wraps (add64 _ _) _ => eapply wraps_add; unwrap64
  | |- wraps (shl64 _ _) _ => eapply wraps_shift; [done | unwrap64]
  | |- wraps (mul64 2 (mul64 _ _)) _ => eapply wraps_double; unwrap64
  | |- wraps (mul64 2 (add64 _ _)) _ => eapply wraps_double; unwrap64
  | |- wraps (mul64 _ _) _ => apply wraps_leaf
  end.
Lemma wraps_eq (x a b : Z) : wraps x a -> a = b -> x = u64 b.
Proof. by intros -> ->. Qed.

Ltac column := eapply wraps_eq; [unwrap64 | ring].

Definition words64 (x : fe) : fe :=
  Fe (u64 (v0 x)) (u64 (v1 x)) (u64 (v2 x)) (u64 (v3 x)) (u64 (v4 x)) (u64 (v5 x)) (u64 (v6 x)) (u64 (v7 x))
    (u64 (v8 x)) (u64 (v9 x)).

Lemma words64_small (x : fe) (e : Z) : bounded32 e e x -> e <= 2 ^ 64 -> words64 x = x.
Proof. destruct x. unfold bounded32, words64. proj32. intros H He. rewrite !u64_small by lia. done. Qed.

(** ** The columns of a product *)

(** The product of two numbers in mixed radix: the product of two words of 25 bits counts
    twice, and what passes 2^255 comes round times 19. *)
Definition product32 (a b : fe) : fe :=
  let '(Fe a0 a1 a2 a3 a4 a5 a6 a7 a8 a9) := a in
  let '(Fe b0 b1 b2 b3 b4 b5 b6 b7 b8 b9) := b in
  Fe (a0 * b0 + 19 * (2 * (a1 * b9 + a3 * b7 + a5 * b5 + a7 * b3 + a9 * b1) + a2 * b8 + a4 * b6 + a6 * b4 + a8 * b2))
    (a0 * b1 + a1 * b0 + 19 * (a2 * b9 + a3 * b8 + a4 * b7 + a5 * b6 + a6 * b5 + a7 * b4 + a8 * b3 + a9 * b2))
    (a0 * b2 + 2 * (a1 * b1) + a2 * b0 + 19 * (2 * (a3 * b9 + a5 * b7 + a7 * b5 + a9 * b3) + a4 * b8 + a6 * b6 + a8 * b4))
    (a0 * b3 + a1 * b2 + a2 * b1 + a3 * b0 + 19 * (a4 * b9 + a5 * b8 + a6 * b7 + a7 * b6 + a8 * b5 + a9 * b4))
    (a0 * b4 + 2 * (a1 * b3 + a3 * b1) + a2 * b2 + a4 * b0 + 19 * (2 * (a5 * b9 + a7 * b7 + a9 * b5) + a6 * b8 + a8 * b6))
    (a0 * b5 + a1 * b4 + a2 * b3 + a3 * b2 + a4 * b1 + a5 * b0 + 19 * (a6 * b9 + a7 * b8 + a8 * b7 + a9 * b6))
    (a0 * b6 + 2 * (a1 * b5 + a3 * b3 + a5 * b1) + a2 * b4 + a4 * b2 + a6 * b0 + 19 * (2 * (a7 * b9 + a9 * b7) + a8 * b8))
    (a0 * b7 + a1 * b6 + a2 * b5 + a3 * b4 + a4 * b3 + a5 * b2 + a6 * b1 + a7 * b0 + 19 * (a8 * b9 + a9 * b8))
    (a0 * b8 + 2 * (a1 * b7 + a3 * b5 + a5 * b3 + a7 * b1) + a2 * b6 + a4 * b4 + a6 * b2 + a8 * b0 + 19 * (2 * (a9 * b9)))
    (a0 * b9 + a1 * b8 + a2 * b7 + a3 * b6 + a4 * b5 + a5 * b4 + a6 * b3 + a7 * b2 + a8 * b1 + a9 * b0).

Lemma product32_eval (a b : fe) : eval32 (product32 a b) ≡p eval32 a * eval32 b.
Proof.
  destruct a as [a0 a1 a2 a3 a4 a5 a6 a7 a8 a9], b as [b0 b1 b2 b3 b4 b5 b6 b7 b8 b9].
  apply (eqp_multiple _ _ (- (2 * (a1 * b9 + a3 * b7 + a5 * b5 + a7 * b3 + a9 * b1) + a2 * b8 + a4 * b6 + a6 * b4 + a8 * b2
    + 2 ^ 26 * (a2 * b9 + a3 * b8 + a4 * b7 + a5 * b6 + a6 * b5 + a7 * b4 + a8 * b3 + a9 * b2)
    + 2 ^ 51 * (2 * (a3 * b9 + a5 * b7 + a7 * b5 + a9 * b3) + a4 * b8 + a6 * b6 + a8 * b4)
    + 2 ^ 77 * (a4 * b9 + a5 * b8 + a6 * b7 + a7 * b6 + a8 * b5 + a9 * b4)
    + 2 ^ 102 * (2 * (a5 * b9 + a7 * b7 + a9 * b5) + a6 * b8 + a8 * b6)
    + 2 ^ 128 * (a6 * b9 + a7 * b8 + a8 * b7 + a9 * b6) + 2 ^ 153 * (2 * (a7 * b9 + a9 * b7) + a8 * b8)
    + 2 ^ 179 * (a8 * b9 + a9 * b8) + 2 ^ 204 * (2 * (a9 * b9))))).
  unfold eval32, product32, p25519. proj32. ring.
Qed.

(** The columns of loose factors stay below 2^63. *)
Ltac bound_products :=
  repeat match goal with
  | Ha : 0 <= ?a < _, Hb : 0 <= ?b < _ |- context [?a * ?b] =>
      lazymatch goal with
      | _ : 0 <= a * b < _ |- _ => fail
      | _ => pose proof (mul_bound_lt _ _ _ _ Ha Hb)
      end
  end.

Lemma product32_bounded (a b : fe) : loose32 a -> loose32 b -> bounded32 (2 ^ 63) (2 ^ 63) (product32 a b).
Proof.
  destruct a as [a0 a1 a2 a3 a4 a5 a6 a7 a8 a9], b as [b0 b1 b2 b3 b4 b5 b6 b7 b8 b9].
  unfold loose32, bounded32, product32. proj32.
  intros (A0 & A1 & A2 & A3 & A4 & A5 & A6 & A7 & A8 & A9) (B0 & B1 & B2 & B3 & B4 & B5 & B6 & B7 & B8 & B9).
  split_and!; bound_products; lia.
Qed.

Lemma mul_columns_ok (a b : fe) : loose32 a -> loose32 b -> fe_mul_columns a b = product32 a b.
Proof.
  intros Ha Hb. rewrite <- (words64_small _ _ (product32_bounded a b Ha Hb)) by lia.
  destruct a as [a0 a1 a2 a3 a4 a5 a6 a7 a8 a9], b as [b0 b1 b2 b3 b4 b5 b6 b7 b8 b9].
  unfold loose32, bounded32 in Hb. proj32. unfold fe_mul_columns, mul32, words64, product32. proj32.
  rewrite (u32_small (2 * b1)), (u32_small (2 * b9)) by lia.
  f_equal; column.
Qed.

Lemma sqr_columns_ok (a : fe) : loose32 a -> fe_sqr_columns a = product32 a a.
Proof.
  intros Ha. rewrite <- (words64_small _ _ (product32_bounded a a Ha Ha)) by lia.
  destruct a as [a0 a1 a2 a3 a4 a5 a6 a7 a8 a9].
  unfold loose32, bounded32 in Ha. proj32. unfold fe_sqr_columns, mul32, words64, product32. proj32.
  rewrite (u32_small (2 * a0)), (u32_small (2 * a1)), (u32_small (2 * a5)), (u32_small (2 * a8)), (u32_small (2 * a9)),
    (u32_small (4 * a1)), (u32_small (4 * a7)) by lia.
  f_equal; column.
Qed.

(** ** Carries *)

Lemma mask26 (a : Z) : Z.land a 0x3ffffff = a mod 2 ^ 26.
Proof. by apply (land_mask a 26). Qed.
Lemma mask25 (a : Z) : Z.land a 0x1ffffff = a mod 2 ^ 25.
Proof. by apply (land_mask a 25). Qed.
Lemma u32_mod26 (a : Z) : u32 a mod 2 ^ 26 = a mod 2 ^ 26.
Proof. apply Z.mod_mod_divide. by exists (2 ^ 6). Qed.
Lemma u32_mod25 (a : Z) : u32 a mod 2 ^ 25 = a mod 2 ^ 25.
Proof. apply Z.mod_mod_divide. by exists (2 ^ 7). Qed.

(** Names the quotient and the remainder of a column [x], which fits its word. *)
Ltac carry_from x k c r :=
  let E := fresh "E" in let R := fresh "R" in
  pose proof (Z.div_mod x (2 ^ k) ltac:(done)) as E; pose proof (Z.mod_pos_bound x (2 ^ k) ltac:(done)) as R;
  set (c := x / 2 ^ k) in *; set (r := x mod 2 ^ k) in *; clearbody c r;
  assert (0 <= c < 2 ^ 39) by lia.

Lemma carry32_ok (t : fe) : bounded32 (2 ^ 63) (2 ^ 63) t ->
  eval32 (fe_carry t) ≡p eval32 t /\ tight32 (fe_carry t).
Proof.
  destruct t as [t0 t1 t2 t3 t4 t5 t6 t7 t8 t9]. unfold bounded32. proj32. intros Hb.
  unfold fe_carry. rewrite !mask26, !mask25, !Z.shiftr_div_pow2, !u32_mod26, !u32_mod25 by done. cbv [add64 mul64 add32].
  carry_from t0 26 c0 r0.
  rewrite (u64_small (c0 + t1)) by lia. carry_from (c0 + t1) 25 c1 r1.
  rewrite (u64_small (c1 + t2)) by lia. carry_from (c1 + t2) 26 c2 r2.
  rewrite (u64_small (c2 + t3)) by lia. carry_from (c2 + t3) 25 c3 r3.
  rewrite (u64_small (c3 + t4)) by lia. carry_from (c3 + t4) 26 c4 r4.
  rewrite (u64_small (c4 + t5)) by lia. carry_from (c4 + t5) 25 c5 r5.
  rewrite (u64_small (c5 + t6)) by lia. carry_from (c5 + t6) 26 c6 r6.
  rewrite (u64_small (c6 + t7)) by lia. carry_from (c6 + t7) 25 c7 r7.
  rewrite (u64_small (c7 + t8)) by lia. carry_from (c7 + t8) 26 c8 r8.
  rewrite (u64_small (c8 + t9)) by lia. carry_from (c8 + t9) 25 c9 r9.
  rewrite (u64_small (19 * c9)), (u64_small (r0 + _)) by lia. carry_from (r0 + 19 * c9) 26 d0 s0.
  rewrite (u32_small d0), (u32_small (d0 + r1)) by lia. carry_from (d0 + r1) 25 d1 s1.
  rewrite (u32_small (d1 + r2)) by lia. split.
  - apply (eqp_multiple _ _ (- c9)). unfold eval32, p25519. proj32. lia.
  - unfold tight32, bounded32. proj32. lia.
Qed.

(** ** The operations of the field *)

Lemma fe_mul_ok (a b : fe) : loose32 a -> loose32 b ->
  eval32 (fe_mul_impl a b) ≡p eval32 a * eval32 b /\ tight32 (fe_mul_impl a b).
Proof.
  intros Ha Hb. unfold fe_mul_impl. rewrite mul_columns_ok by done.
  destruct (carry32_ok _ (product32_bounded a b Ha Hb)) as [E T]. split; [| done]. by rewrite E, product32_eval.
Qed.

Lemma fe_sqr_ok (a : fe) : loose32 a ->
  eval32 (fe_sqr_impl a) ≡p eval32 a * eval32 a /\ tight32 (fe_sqr_impl a).
Proof.
  intros Ha. unfold fe_sqr_impl. rewrite sqr_columns_ok by done.
  destruct (carry32_ok _ (product32_bounded a a Ha Ha)) as [E T]. split; [| done]. by rewrite E, product32_eval.
Qed.

Lemma fe_mul121666_ok (a : fe) : loose32 a ->
  eval32 (fe_mul121666 a) ≡p 121666 * eval32 a /\ tight32 (fe_mul121666 a).
Proof.
  intros Ha. destruct (fe_mul_ok a (Fe 121666 0 0 0 0 0 0 0 0 0) Ha) as [E T].
  - unfold loose32, bounded32. proj32. lia.
  - split; [| exact T]. change (fe_mul121666 a) with (fe_mul_impl a (Fe 121666 0 0 0 0 0 0 0 0 0)).
    rewrite E. apply (eqp_multiple _ _ 0). unfold eval32. proj32. ring.
Qed.

Lemma fe_add_ok (a b : fe) : tight32 a -> tight32 b ->
  eval32 (fe_add a b) = eval32 a + eval32 b /\ loose32 (fe_add a b).
Proof.
  destruct a, b. unfold tight32, loose32, bounded32, fe_add, fe_add_impl, add32. proj32. intros Ha Hb.
  rewrite !u32_small by lia. unfold eval32. proj32. split; lia.
Qed.

(** Adding 2p first keeps every word positive. *)
Lemma fe_sub_ok (a b : fe) : tight32 a -> tight32 b ->
  eval32 (fe_sub a b) ≡p eval32 a - eval32 b /\ loose32 (fe_sub a b).
Proof.
  destruct a as [a0 a1 a2 a3 a4 a5 a6 a7 a8 a9], b as [b0 b1 b2 b3 b4 b5 b6 b7 b8 b9].
  unfold tight32, loose32, bounded32, fe_sub, fe_sub_impl, add32, sub32. proj32. intros Ha Hb.
  rewrite (u32_small (_ + a0)), (u32_small (_ + a1)), (u32_small (_ + a2)), (u32_small (_ + a3)), (u32_small (_ + a4)),
    (u32_small (_ + a5)), (u32_small (_ + a6)), (u32_small (_ + a7)), (u32_small (_ + a8)), (u32_small (_ + a9)) by lia.
  rewrite !u32_small by lia. proj32. split; [| lia].
  apply (eqp_multiple _ _ 2). unfold eval32, p25519. proj32. lia.
Qed.

(** ** Inversion *)

(** [x] is a tight power of [z]. *)
Definition is_power32 (z : fe) (k : Z) (x : fe) : Prop :=
  0 <= k /\ eval32 x ≡p eval32 z ^ k /\ tight32 x.

Lemma is_power32_mul (z x y : fe) (j k : Z) : is_power32 z j x -> is_power32 z k y ->
  is_power32 z (j + k) (fe_mul_impl x y).
Proof.
  intros (Hj & Ex & Tx) (Hk & Ey & Ty). destruct (fe_mul_ok x y) as [E T]; [by apply tight_loose32.. |].
  split; [lia |]. split; [| done]. by rewrite E, Ex, Ey, Z.pow_add_r.
Qed.

Lemma is_power32_sqr (z x : fe) (k : Z) : is_power32 z k x -> is_power32 z (k * 2) (fe_sqr_impl x).
Proof.
  intros (Hk & E & T). destruct (fe_sqr_ok x (tight_loose32 x T)) as [E' T'].
  split; [lia |]. split; [| done]. rewrite E', E, <- Z.pow_add_r by done. by replace (k + k) with (k * 2) by lia.
Qed.

Lemma is_power32_times (z x : fe) (k : Z) (n : nat) : is_power32 z k x -> (0 < n)%nat ->
  is_power32 z (k * 2 ^ Z.of_nat n) (fe_sq_times n x).
Proof.
  intros Hx Hn. unfold fe_sq_times. destruct n as [|n]; [lia |]. replace (S n - 1)%nat with n by lia. clear Hn.
  induction n as [|n IH].
  - by apply is_power32_sqr.
  - change (Nat.iter (S n) fe_sq_tt (fe_sq_tt x)) with (fe_sqr_impl (Nat.iter n fe_sq_tt (fe_sq_tt x))).
    rewrite (Nat2Z.inj_succ (S n)), Z.pow_succ_r, (Z.mul_comm 2), Z.mul_assoc by lia. by apply is_power32_sqr.
Qed.

(** [fe_invert] raises to the power [p25519 - 2]. *)
Lemma fe_invert_ok (z : fe) : tight32 z -> is_power32 z (p25519 - 2) (fe_invert z).
Proof.
  intros Hz.
  assert (is_power32 z 1 z) as H1 by (split; [lia |]; split; [by rewrite Z.pow_1_r | done]).
  assert (forall k k' x, is_power32 z k x -> k = k' -> is_power32 z k' x) as Hk by (by intros ? ? ? ? <-).
  unfold fe_invert, fe_copy_lt, fe_loose_invert, fe_mul_ttt, fe_mul_tlt, fe_sq_tl. cbv zeta.
  eapply Hk.
  - repeat match goal with
    | |- is_power32 _ _ (fe_mul_impl _ _) => eapply is_power32_mul
    | |- is_power32 _ _ (fe_sq_times _ _) => eapply is_power32_times; [| lia]
    | |- is_power32 _ _ (fe_sqr_impl _) => eapply is_power32_sqr
    | |- is_power32 _ _ (fe_sq_tt _) => eapply is_power32_sqr
    | |- is_power32 _ _ z => exact H1
    end.
  - vm_compute. reflexivity.
Qed.

(** ** Full reduction *)

(** The words of a subtraction of [2^k - 1] or a little less: its low bits and the borrow. *)
Definition borrows (k d : Z) (p : Z * Z) : Prop :=
  exists l o, p = (l, o) /\ d = l - 2 ^ k * o /\ (0 <= l < 2 ^ k) /\ (0 <= o <= 1).
(** The words of an addition: its low bits and the carry. *)
Definition carries (k d : Z) (p : Z * Z) : Prop :=
  exists l o, p = (l, o) /\ d = l + 2 ^ k * o /\ (0 <= l < 2 ^ k) /\ (0 <= o <= 1).

Lemma sub32_borrow (a b c k : Z) : 0 <= k <= 30 -> 0 <= a < 2 ^ 31 -> 0 <= b < 2 ^ 31 -> 0 <= c <= 1 ->
  - 2 ^ k <= a - b - c < 2 ^ k ->
  borrows k (a - b - c) (Z.land (sub32 (sub32 a b) c) (2 ^ k - 1), Z.shiftr (sub32 (sub32 a b) c) 31).
Proof.
  intros Hk Ha Hb Hc Hd. unfold sub32, u32, uw. rewrite Zminus_mod_idemp_l, land_mask, Z.shiftr_div_pow2 by lia.
  set (d := a - b - c) in *. assert (2 ^ k <= 2 ^ 30) by (apply Z.pow_le_mono_r; lia).
  eexists _, _. split; [reflexivity |].
  assert (d mod 2 ^ 32 mod 2 ^ k = d mod 2 ^ k) as ->.
  { apply Z.mod_mod_divide. exists (2 ^ (32 - k)). rewrite <- Z.pow_add_r by lia. f_equal. lia. }
  destruct (Z.lt_ge_cases d 0) as [Hn | Hn].
  - assert (d mod 2 ^ 32 / 2 ^ 31 = 1) as -> by zlia.
    assert (d mod 2 ^ k = d + 2 ^ k) as -> by (symmetry; apply (Z.mod_unique _ _ (-1)); lia). lia.
  - rewrite (Z.mod_small d (2 ^ k)) by lia. assert (d mod 2 ^ 32 / 2 ^ 31 = 0) as -> by zlia. lia.
Qed.

Lemma land_1 (a : Z) : Z.land a 1 = a mod 2.
Proof. by apply (land_mask a 1). Qed.

Lemma add32_carry (a b c k : Z) : 0 <= k <= 30 -> 0 <= a < 2 ^ k -> 0 <= b < 2 ^ k -> 0 <= c <= 1 ->
  carries k (a + b + c) (Z.land (add32 (add32 a b) c) (2 ^ k - 1), Z.land (Z.shiftr (add32 (add32 a b) c) k) 1).
Proof.
  intros Hk Ha Hb Hc. assert (2 ^ k <= 2 ^ 30) by (apply Z.pow_le_mono_r; lia).
  unfold add32. rewrite (u32_small (a + b)), u32_small by lia. eexists _, _. split; [reflexivity |].
  rewrite land_mask, land_1, Z.shiftr_div_pow2 by lia.
  set (d := a + b + c) in *. pose proof (Z.div_mod d (2 ^ k) ltac:(lia)). pose proof (Z.mod_pos_bound d (2 ^ k) ltac:(lia)).
  assert (0 <= d / 2 ^ k <= 1) by nia. rewrite (Z.mod_small (d / 2 ^ k)) by lia. lia.
Qed.

Lemma subborrow_u26_ok (c a b : Z) : 0 <= a < 9 * 2 ^ 23 -> 0x3ffffed <= b < 2 ^ 26 -> 0 <= c <= 1 ->
  borrows 26 (a - b - c) (subborrow_u26 c a b).
Proof. intros. apply sub32_borrow; lia. Qed.
Lemma subborrow_u25_ok (c a : Z) : 0 <= a < 9 * 2 ^ 22 -> 0 <= c <= 1 ->
  borrows 25 (a - 0x1ffffff - c) (subborrow_u25 c a 0x1ffffff).
Proof. intros. apply sub32_borrow; lia. Qed.
Lemma addcarryx_u26_ok (c a b : Z) : 0 <= a < 2 ^ 26 -> 0 <= b < 2 ^ 26 -> 0 <= c <= 1 ->
  carries 26 (a + b + c) (addcarryx_u26 c a b).
Proof. intros. by apply add32_carry. Qed.
Lemma addcarryx_u25_ok (c a b : Z) : 0 <= a < 2 ^ 25 -> 0 <= b < 2 ^ 25 -> 0 <= c <= 1 ->
  carries 25 (a + b + c) (addcarryx_u25 c a b).
Proof. intros. by apply add32_carry. Qed.

(** [cmovznz32] picks by the borrow; its masks select p or nothing. *)
Lemma freeze_masks (o : Z) : 0 <= o <= 1 -> let m := cmovznz32 o 0 0xffffffff in
  Z.land m 0x3ffffed = o * 0x3ffffed /\ Z.land m 0x1ffffff = o * 0x1ffffff /\ Z.land m 0x3ffffff = o * 0x3ffffff.
Proof. intros Ho. assert (o = 0 \/ o = 1) as [-> | ->] by lia; by vm_compute. Qed.

(** Runs the next subtraction or addition of [fe_freeze], by its lemma [H]. *)
Ltac freeze_step H l o L O :=
  let E := fresh "E" in let E' := fresh "E" in
  edestruct H as (l & o & E' & E & L & O); [eassumption || lia .. |]; rewrite E'; clear E'; cbv iota beta.

(** [fe_freeze] gives the canonical representative. *)
Lemma fe_freeze_ok (x : fe) : tight32 x ->
  eval32 (fe_freeze x) = eval32 x mod p25519 /\ bounded32 (2 ^ 26) (2 ^ 25) (fe_freeze x).
Proof.
  destruct x as [x0 x1 x2 x3 x4 x5 x6 x7 x8 x9]. unfold tight32, bounded32. proj32.
  intros (X0 & X1 & X2 & X3 & X4 & X5 & X6 & X7 & X8 & X9). assert (0 <= 0 <= 1) as O by lia. unfold fe_freeze.
  freeze_step (subborrow_u26_ok 0 x0 0x3ffffed) l0 o0 L0 O0.
  freeze_step (subborrow_u25_ok o0 x1) l1 o1 L1 O1. freeze_step (subborrow_u26_ok o1 x2 0x3ffffff) l2 o2 L2 O2.
  freeze_step (subborrow_u25_ok o2 x3) l3 o3 L3 O3. freeze_step (subborrow_u26_ok o3 x4 0x3ffffff) l4 o4 L4 O4.
  freeze_step (subborrow_u25_ok o4 x5) l5 o5 L5 O5. freeze_step (subborrow_u26_ok o5 x6 0x3ffffff) l6 o6 L6 O6.
  freeze_step (subborrow_u25_ok o6 x7) l7 o7 L7 O7. freeze_step (subborrow_u26_ok o7 x8 0x3ffffff) l8 o8 L8 O8.
  freeze_step (subborrow_u25_ok o8 x9) l9 o9 L9 O9.
  destruct (freeze_masks o9 O9) as (-> & -> & ->).
  assert (0 <= o9 * 0x3ffffed < 2 ^ 26) as M0 by (clear - O9; lia).
  assert (0 <= o9 * 0x1ffffff < 2 ^ 25) as M1 by (clear - O9; lia).
  assert (0 <= o9 * 0x3ffffff < 2 ^ 26) as M2 by (clear - O9; lia).
  freeze_step (addcarryx_u26_ok 0 l0 _ L0 M0) y0 k0 Y0 K0.
  freeze_step (addcarryx_u25_ok k0 l1 _ L1 M1) y1 k1 Y1 K1. freeze_step (addcarryx_u26_ok k1 l2 _ L2 M2) y2 k2 Y2 K2.
  freeze_step (addcarryx_u25_ok k2 l3 _ L3 M1) y3 k3 Y3 K3. freeze_step (addcarryx_u26_ok k3 l4 _ L4 M2) y4 k4 Y4 K4.
  freeze_step (addcarryx_u25_ok k4 l5 _ L5 M1) y5 k5 Y5 K5. freeze_step (addcarryx_u26_ok k5 l6 _ L6 M2) y6 k6 Y6 K6.
  freeze_step (addcarryx_u25_ok k6 l7 _ L7 M1) y7 k7 Y7 K7. freeze_step (addcarryx_u26_ok k7 l8 _ L8 M2) y8 k8 Y8 K8.
  freeze_step (addcarryx_u25_ok k8 l9 _ L9 M1) y9 k9 Y9 K9.
  unfold eval32. proj32. split; [| repeat (split; [assumption |]); assumption].
  clear M0 M1 M2. apply (Z.mod_unique _ _ (1 - o9)); unfold p25519; lia.
Qed.
