(* ===== verification/Fiat32Ok.v ===== *)
(** * The 32-bit X25519 is the Montgomery ladder

    [curve25519_32] reads the coordinate into ten words, runs the ladder bit by bit with its
    swaps delayed by one step, inverts, reduces fully and writes 32 bytes: those of the
    function of RFC 7748. *)

From S2P Require Import Prelude Encoding Curve25519 Rfc7748 Curve25519Field Fiat32 Fiat32Field.
#[local] Open Scope Z_scope.
#[local] Opaque Z.pow.

(** ** Reading *)

Lemma get32_value (s : list byte) (k : nat) :
  get_unaligned_le32 (drop k s) = le_bytes s / 256 ^ Z.of_nat k mod 2 ^ 32.
Proof. unfold get_unaligned_le32. by rewrite le_bytes_take, le_bytes_drop. Qed.

(** [lo | hi << k], the low bits being free. *)
Lemma or_shift32 (lo hi k : Z) : 0 <= k -> 0 <= lo < 2 ^ k -> 0 <= hi * 2 ^ k < 2 ^ 32 ->
  Z.lor lo (shl32 hi k) = lo + hi * 2 ^ k.
Proof.
  intros Hk Hlo Hhi. unfold shl32. rewrite Z.shiftl_mul_pow2, u32_small, Z.lor_comm, lor_disjoint by done. lia.
Qed.

(** [fe_frombytes] reads the 255 low bits. *)
Lemma fe_frombytes_ok (s : list byte) : length s = 32%nat ->
  eval32 (fe_frombytes s) = le_bytes s mod 2 ^ 255 /\ tight32 (fe_frombytes s).
Proof.
  intros Hl. pose proof (le_bytes_range s) as Hr. rewrite Hl in Hr. change (256 ^ Z.of_nat 32) with (2 ^ 256) in Hr.
  unfold fe_frombytes, fe_frombytes_impl. change (get_unaligned_le32 s) with (get_unaligned_le32 (drop 0 s)).
  rewrite !get32_value, !land_mask, !Z.shiftr_div_pow2 by lia. set (n := le_bytes s) in *. clearbody n.
  change (256 ^ Z.of_nat 0) with 1. change (256 ^ Z.of_nat 4) with (2 ^ 32). change (256 ^ Z.of_nat 8) with (2 ^ 64).
  change (256 ^ Z.of_nat 12) with (2 ^ 96). change (256 ^ Z.of_nat 16) with (2 ^ 128).
  change (256 ^ Z.of_nat 20) with (2 ^ 160). change (256 ^ Z.of_nat 24) with (2 ^ 192).
  change (256 ^ Z.of_nat 28) with (2 ^ 224). rewrite Z.div_1_r.
  rewrite !or_shift32 by zlia.
  assert (n mod 2 ^ 32 mod 2 ^ 26 = n mod 2 ^ 26) as -> by zlia.
  assert (n mod 2 ^ 32 / 2 ^ 26 + n / 2 ^ 32 mod 2 ^ 32 mod 2 ^ 19 * 2 ^ 6 = n / 2 ^ 26 mod 2 ^ 25) as -> by zlia.
  assert (n / 2 ^ 32 mod 2 ^ 32 / 2 ^ 19 + n / 2 ^ 64 mod 2 ^ 32 mod 2 ^ 13 * 2 ^ 13 = n / 2 ^ 51 mod 2 ^ 26) as -> by zlia.
  assert (n / 2 ^ 64 mod 2 ^ 32 / 2 ^ 13 + n / 2 ^ 96 mod 2 ^ 32 mod 2 ^ 6 * 2 ^ 19 = n / 2 ^ 77 mod 2 ^ 25) as -> by zlia.
  assert (n / 2 ^ 96 mod 2 ^ 32 / 2 ^ 6 = n / 2 ^ 102 mod 2 ^ 26) as -> by zlia.
  assert (n / 2 ^ 128 mod 2 ^ 32 mod 2 ^ 25 = n / 2 ^ 128 mod 2 ^ 25) as -> by zlia.
  assert (n / 2 ^ 128 mod 2 ^ 32 / 2 ^ 25 + n / 2 ^ 160 mod 2 ^ 32 mod 2 ^ 19 * 2 ^ 7 = n / 2 ^ 153 mod 2 ^ 26) as -> by zlia.
  assert (n / 2 ^ 160 mod 2 ^ 32 / 2 ^ 19 + n / 2 ^ 192 mod 2 ^ 32 mod 2 ^ 12 * 2 ^ 13 = n / 2 ^ 179 mod 2 ^ 25) as -> by zlia.
  assert (n / 2 ^ 192 mod 2 ^ 32 / 2 ^ 12 + n / 2 ^ 224 mod 2 ^ 32 mod 2 ^ 6 * 2 ^ 20 = n / 2 ^ 204 mod 2 ^ 26) as -> by zlia.
  assert (n / 2 ^ 224 mod 2 ^ 32 / 2 ^ 6 mod 2 ^ 25 = n / 2 ^ 230 mod 2 ^ 25) as -> by zlia.
  unfold eval32, tight32, bounded32. proj32. split; [zlia | zlia].
Qed.

(** ** Writing *)

(** Compares two lists of bytes one by one. *)
Ltac bytewise n := cbn [bytes_le map]; rewrite !Z.div_div by lia;
  repeat (apply (f_equal2 cons); [apply z2b_eq; subst n; zlia |]); reflexivity.

Lemma tobytes_low (h0 h1 h2 h3 h4 : Z) :
  0 <= h0 < 2 ^ 26 -> 0 <= h1 < 2 ^ 25 -> 0 <= h2 < 2 ^ 26 -> 0 <= h3 < 2 ^ 25 -> 0 <= h4 < 2 ^ 26 ->
  map z2b [h0 / 2 ^ 0; h0 / 2 ^ 8; h0 / 2 ^ 16; h0 / 2 ^ 24 + h1 * 2 ^ 2; h1 / 2 ^ 6; h1 / 2 ^ 14;
    h1 / 2 ^ 22 + h2 * 2 ^ 3; h2 / 2 ^ 5; h2 / 2 ^ 13; h2 / 2 ^ 21 + h3 * 2 ^ 5; h3 / 2 ^ 3; h3 / 2 ^ 11;
    h3 / 2 ^ 19 + h4 * 2 ^ 6; h4 / 2 ^ 2; h4 / 2 ^ 10; h4 / 2 ^ 18]
  = bytes_le 16 (h0 + 2 ^ 26 * h1 + 2 ^ 51 * h2 + 2 ^ 77 * h3 + 2 ^ 102 * h4).
Proof. intros H0 H1 H2 H3 H4. set (n := h0 + _ + _ + _ + _). bytewise n. Qed.

Lemma tobytes_high (h5 h6 h7 h8 h9 : Z) :
  0 <= h5 < 2 ^ 25 -> 0 <= h6 < 2 ^ 26 -> 0 <= h7 < 2 ^ 25 -> 0 <= h8 < 2 ^ 26 -> 0 <= h9 < 2 ^ 25 ->
  map z2b [h5 / 2 ^ 0; h5 / 2 ^ 8; h5 / 2 ^ 16; h5 / 2 ^ 24 + h6 * 2 ^ 1; h6 / 2 ^ 7; h6 / 2 ^ 15;
    h6 / 2 ^ 23 + h7 * 2 ^ 3; h7 / 2 ^ 5; h7 / 2 ^ 13; h7 / 2 ^ 21 + h8 * 2 ^ 4; h8 / 2 ^ 4; h8 / 2 ^ 12;
    h8 / 2 ^ 20 + h9 * 2 ^ 6; h9 / 2 ^ 2; h9 / 2 ^ 10; h9 / 2 ^ 18]
  = bytes_le 16 (h5 + 2 ^ 25 * h6 + 2 ^ 51 * h7 + 2 ^ 76 * h8 + 2 ^ 102 * h9).
Proof. intros H5 H6 H7 H8 H9. set (n := h5 + _ + _ + _ + _). bytewise n. Qed.

(** The low half of the bytes holds the first five words, the high half the others. *)
Lemma tobytes_frozen_ok (h : fe) : bounded32 (2 ^ 26) (2 ^ 25) h -> fe_tobytes_frozen h = bytes_le 32 (eval32 h).
Proof.
  destruct h as [h0 h1 h2 h3 h4 h5 h6 h7 h8 h9]. unfold bounded32, eval32. proj32. intros Hb.
  unfold fe_tobytes_frozen. rewrite !Z.shiftr_div_pow2 by done. rewrite !or_shift32 by zlia.
  rewrite (bytes_le_app 16 16). change (256 ^ Z.of_nat 16) with (2 ^ 128).
  set (lo := h0 + 2 ^ 26 * h1 + 2 ^ 51 * h2 + 2 ^ 77 * h3 + 2 ^ 102 * h4).
  set (hi := h5 + 2 ^ 25 * h6 + 2 ^ 51 * h7 + 2 ^ 76 * h8 + 2 ^ 102 * h9).
  assert (0 <= lo < 2 ^ 128) by (subst lo; lia).
  match goal with |- _ = bytes_le 16 ?n ++ _ => assert (n = lo + 2 ^ 128 * hi) as -> by (subst lo hi; lia) end.
  rewrite <- (bytes_le_mod 16). change (256 ^ Z.of_nat 16) with (2 ^ 128).
  assert ((lo + 2 ^ 128 * hi) mod 2 ^ 128 = lo) as -> by zlia. assert ((lo + 2 ^ 128 * hi) / 2 ^ 128 = hi) as -> by zlia.
  subst lo hi. rewrite <- tobytes_low, <- tobytes_high by lia. reflexivity.
Qed.

Lemma fe_tobytes_ok (x : fe) : tight32 x -> fe_tobytes x = bytes_le 32 (eval32 x mod p25519).
Proof. intros Hx. destruct (fe_freeze_ok x Hx) as [E B]. unfold fe_tobytes. by rewrite tobytes_frozen_ok, E. Qed.

(** ** The ladder *)

Definition repr32 (x : fe) (v : Z) : Prop := tight32 x /\ eval32 x ≡p v.
Definition sloppy32 (x : fe) (v : Z) : Prop := loose32 x /\ eval32 x ≡p v.

Lemma repr_sloppy32 (x : fe) (v : Z) : repr32 x v -> sloppy32 x v.
Proof. intros [B E]. split; [by apply tight_loose32 | done]. Qed.

Lemma repr32_add (x y : fe) (v w : Z) : repr32 x v -> repr32 y w -> sloppy32 (fe_add x y) (fadd v w).
Proof.
  intros [Bx Ex] [By Ey]. destruct (fe_add_ok x y Bx By) as [E B]. split; [done |]. by rewrite E, Ex, Ey, fadd_eqp.
Qed.

Lemma repr32_sub (x y : fe) (v w : Z) : repr32 x v -> repr32 y w -> sloppy32 (fe_sub x y) (fsub v w).
Proof.
  intros [Bx Ex] [By Ey]. destruct (fe_sub_ok x y Bx By) as [E B]. split; [done |]. by rewrite E, Ex, Ey, fsub_eqp.
Qed.

Lemma repr32_mul (x y : fe) (v w : Z) : sloppy32 x v -> sloppy32 y w -> repr32 (fe_mul_impl x y) (fprod v w).
Proof.
  intros [Bx Ex] [By Ey]. destruct (fe_mul_ok x y Bx By) as [E B]. split; [done |]. by rewrite E, Ex, Ey, fprod_eqp.
Qed.

Lemma repr32_sqr (x : fe) (v : Z) : sloppy32 x v -> repr32 (fe_sqr_impl x) (fsq v).
Proof.
  intros [Bx Ex]. destruct (fe_sqr_ok x Bx) as [E B]. split; [done |]. unfold fsq. by rewrite E, Ex, fprod_eqp.
Qed.

Lemma repr32_121666 (x : fe) (v : Z) : sloppy32 x v -> repr32 (fe_mul121666 x) (fprod 121666 v).
Proof.
  intros [Bx Ex]. destruct (fe_mul121666_ok x Bx) as [E B]. split; [done |]. by rewrite E, Ex, fprod_eqp.
Qed.

Lemma repr32_eqp (x : fe) (v w : Z) : repr32 x v -> v ≡p w -> repr32 x w.
Proof. intros [B E] H. split; [done |]. by rewrite E, H. Qed.

(** *** The conditional swap *)

Lemma cswap_word (f g : Z) (b : bool) : 0 <= f < 2 ^ 32 -> 0 <= g < 2 ^ 32 ->
  fe_cswap_word f g (sub32 0 (Z.b2z b)) = if b then (g, f) else (f, g).
Proof.
  intros Hf Hg. unfold fe_cswap_word. destruct b; cbn [Z.b2z].
  - change (sub32 0 1) with (2 ^ 32 - 1). rewrite land_mask by done.
    rewrite Z.mod_small by (apply lxor_small_range; lia).
    f_equal; [by rewrite <- Z.lxor_assoc, Z.lxor_nilpotent, Z.lxor_0_l |].
    by rewrite Z.lxor_comm, Z.lxor_assoc, Z.lxor_nilpotent, Z.lxor_0_r.
  - change (sub32 0 0) with 0. by rewrite Z.land_0_r, !Z.lxor_0_r.
Qed.

Lemma fe_cswap_ok (f g : fe) (b : bool) : tight32 f -> tight32 g ->
  fe_cswap f g (Z.b2z b) = if b then (g, f) else (f, g).
Proof.
  destruct f as [f0 f1 f2 f3 f4 f5 f6 f7 f8 f9], g as [g0 g1 g2 g3 g4 g5 g6 g7 g8 g9].
  unfold tight32, bounded32, fe_cswap. proj32. intros Hf Hg. rewrite !cswap_word by lia. by destruct b.
Qed.

(** *** One step *)

(** The words of two points and the coordinates they stand for. *)
Definition repr32_pair (st : (fe * fe) * (fe * fe)) (v : ladder_state) : Prop :=
  repr32 (fst (fst st)) (fst (fst v)) /\ repr32 (snd (fst st)) (snd (fst v))
  /\ repr32 (fst (snd st)) (fst (snd v)) /\ repr32 (snd (snd st)) (snd (snd v)).

(** The swap of the last step is still to be undone. *)
Definition repr32_ladder (st : ladder32) (v : ladder_state) : Prop :=
  exists b : bool, lswap st = Z.b2z b
  /\ repr32_pair ((lx2 st, lz2 st), (lx3 st, lz3 st)) (cswap b v).

Lemma repr32_cswap (x2 z2 x3 z3 : fe) (v : ladder_state) (b : bool) : repr32_pair ((x2, z2), (x3, z3)) v ->
  exists x2' z2' x3' z3', fe_cswap x2 x3 (Z.b2z b) = (x2', x3') /\ fe_cswap z2 z3 (Z.b2z b) = (z2', z3')
  /\ repr32_pair ((x2', z2'), (x3', z3')) (cswap b v).
Proof.
  intros (H1 & H2 & H3 & H4). cbn [fst snd] in *. rewrite !fe_cswap_ok by (apply H1 || apply H2 || apply H3 || apply H4).
  destruct b; [exists x3, z3, x2, z2 | exists x2, z2, x3, z3]; repeat split; apply H1 || apply H2 || apply H3 || apply H4.
Qed.

Lemma cswap_xorb {A} (b c : bool) (st : A * A) : cswap (xorb b c) (cswap b st) = cswap c st.
Proof. by destruct st, b, c. Qed.
Lemma cswap_twice {A} (b : bool) (st : A * A) : cswap b (cswap b st) = st.
Proof. by destruct st, b. Qed.

(** [BB + 121666 E] is [AA + 121665 E], [E] being [AA - BB]. *)
Lemma double_constant (AA BB : Z) :
  fadd BB (fprod 121666 (fsub AA BB)) ≡p fadd AA (fprod 121665 (fsub AA BB)).
Proof. rewrite !fadd_eqp, !fprod_eqp, !fsub_eqp. apply (eqp_multiple _ _ 0). ring. Qed.

Lemma ladder32_step_ok (x1 : fe) (u : Z) (st : ladder32) (v : ladder_state) (b : bool) :
  repr32 x1 u -> repr32_ladder st v -> repr32_ladder (ladder32_step x1 st (Z.b2z b)) (ladder_bit u v b).
Proof.
  destruct st as [x2 z2 x3 z3 sw]. intros Hu (c & Hc & Hst). cbn [lx2 lz2 lx3 lz3 lswap] in *. subst sw.
  unfold ladder32_step. assert (Z.lxor (Z.b2z c) (Z.b2z b) = Z.b2z (xorb c b)) as -> by (by destruct c, b).
  destruct (repr32_cswap _ _ _ _ _ (xorb c b) Hst) as (x2' & z2' & x3' & z3' & -> & -> & Hs). rewrite cswap_xorb in Hs.
  unfold ladder_bit. exists b. split; [done |]. rewrite cswap_twice. clear Hst. cbn [lx2 lz2 lx3 lz3].
  destruct (cswap b v) as [[X2 Z2] [X3 Z3]]. destruct Hs as (H1 & H2 & H3 & H4). cbn [fst snd] in *.
  unfold fe_mul_tll, fe_mul_ttt, fe_sq_tl, ladder_step.
  pose proof (repr32_sub _ _ _ _ H3 H4) as HD. pose proof (repr32_sub _ _ _ _ H1 H2) as HB.
  pose proof (repr32_add _ _ _ _ H1 H2) as HA. pose proof (repr32_add _ _ _ _ H3 H4) as HC.
  pose proof (repr32_mul _ _ _ _ HD HA) as HDA. pose proof (repr32_mul _ _ _ _ HC HB) as HCB.
  pose proof (repr32_sqr _ _ HB) as HBB. pose proof (repr32_sqr _ _ HA) as HAA.
  pose proof (repr32_sub _ _ _ _ HAA HBB) as HE. pose proof (repr32_121666 _ _ HE) as HE'.
  pose proof (repr32_add _ _ _ _ HBB HE') as HF.
  assert (sloppy32 (fe_add (fe_sqr_impl (fe_sub x2' z2')) (fe_mul121666 (fe_sub (fe_sqr_impl (fe_add x2' z2')) (fe_sqr_impl (fe_sub x2' z2')))))
    (fadd (fsq (fadd X2 Z2)) (fprod 121665 (fsub (fsq (fadd X2 Z2)) (fsq (fsub X2 Z2)))))) as HF'.
  { destruct HF as [BF EF]. split; [done |]. by rewrite EF, double_constant. }
  split; [| split; [| split]]; cbn [fst snd].
  - by apply repr32_mul; apply repr_sloppy32.
  - by apply repr32_mul.
  - by apply repr32_sqr, repr32_add.
  - apply repr32_mul; apply repr_sloppy32; [done |]. by apply repr32_sqr, repr32_sub.
Qed.

(** *** The loop *)

Lemma ladder32_bit (e : list byte) (pos : nat) :
  Z.land 1 (Z.shiftr (b2z (byte_at e (pos / 8))) (Z.land (Z.of_nat pos) 7))
  = Z.b2z (Z.testbit (le_bytes e) (Z.of_nat pos)).
Proof.
  assert (Z.land (Z.of_nat pos) 7 = Z.of_nat (pos mod 8)) as ->.
  { rewrite (land_mask (Z.of_nat pos) 3 ltac:(done) : Z.land (Z.of_nat pos) 7 = _). by rewrite Nat2Z.inj_mod. }
  rewrite (Nat.div_mod_eq pos 8) at 3. rewrite testbit_le_bytes by (by apply Nat.mod_upper_bound).
  rewrite Z.land_comm, land_1, <- Z.bit0_mod, Z.shiftr_spec by lia. done.
Qed.

Lemma ladder32_loop_ok (e : list byte) (x1 : fe) (u : Z) (n : nat) (st : ladder32) (v : ladder_state) :
  repr32 x1 u -> repr32_ladder st v ->
  repr32_ladder (ladder32_loop e x1 st n) (fold_left (ladder_bit u) (bits_down (le_bytes e) n) v).
Proof.
  intros Hu. revert st v. induction n as [|pos IH]; intros st v Hst; [exact Hst |].
  rewrite bits_down_S. cbn [fold_left ladder32_loop]. apply IH.
  rewrite ladder32_bit. by apply ladder32_step_ok.
Qed.

(** ** The whole function *)

Lemma curve25519_32_ladder (secret basepoint : list byte) :
  length secret = 32%nat -> length basepoint = 32%nat ->
  curve25519_32 secret basepoint
  = bytes_le 32 (x25519 (clamp (le_bytes secret)) (le_bytes basepoint mod 2 ^ 255)).
Proof.
  intros Hs Hb. unfold curve25519_32, curve25519_generic, fe_copy.
  set (u := le_bytes basepoint mod 2 ^ 255). set (k := clamp (le_bytes secret)).
  destruct (fe_frombytes_ok basepoint Hb) as [Eq Bq].
  assert (repr32 (fe_frombytes basepoint) u) as Hq by (split; [done | by rewrite Eq]).
  assert (repr32 fe_1 1 /\ repr32 fe_0 0) as [H1 H0].
  { unfold repr32, tight32, bounded32, fe_0, fe_1, eval32. proj32. split; split; lia || done. }
  pose proof (ladder32_loop_ok (curve25519_clamp_secret secret) _ u 255
    (Ladder32 fe_1 fe_0 (fe_frombytes basepoint) fe_1 0) ((1, 0), (u, 1)) Hq) as Hl.
  rewrite clamp_ok in Hl by done. fold k in Hl. unfold x25519, ladder.
  destruct (fold_left _ _ _) as [[X2 Z2] rest]. destruct (ladder32_loop _ _ _ _) as [x2 z2 x3 z3 sw].
  destruct Hl as (b & Hb' & Hl); [by exists false |]. cbn [lx2 lz2 lx3 lz3 lswap] in *. subst sw.
  destruct (repr32_cswap _ _ _ _ _ b Hl) as (x2' & z2' & x3' & z3' & -> & -> & Hs'). rewrite cswap_twice in Hs'.
  destruct Hs' as (Hx & [Bz Ez] & _ & _). cbn [fst snd] in *.
  destruct (fe_invert_ok z2' Bz) as (_ & Er & Br).
  assert (repr32 (fe_invert z2') (finv Z2)) as Hr.
  { split; [done |]. rewrite Er, finv_eqp. apply eqp_pow; [unfold p25519; lia | done]. }
  destruct (repr32_mul _ _ _ _ (repr_sloppy32 _ _ Hx) (repr_sloppy32 _ _ Hr)) as [Bo Eo].
  unfold fe_mul_ttt. rewrite (fe_tobytes_ok _ Bo). f_equal. apply eqp_iff in Eo. rewrite Eo. unfold fprod.
  by rewrite Z.mod_mod.
Qed.
