(* ===== verification/Prime25519.v ===== *)
(** * 2^255 - 19 is prime

    By the criterion of Pocklington, down a chain of ever smaller primes.  So the integers
    modulo 2^255 - 19 are a field, and the power [p25519 - 2] both implementations of X25519
    compute is an inverse. *)

From Stdlib Require Import Znumtheory Zdivisibility Zmod Zpow_facts.
From S2P Require Import Prelude Rfc7748.
#[local] Open Scope Z_scope.
#[local] Opaque Z.pow.

(** ** Divisors *)

Lemma prime_divisor (n : Z) : 1 < n -> exists r, Z.prime r /\ (r | n).
Proof.
  intros Hn. assert (0 <= n) as H0 by lia. revert Hn. pattern n. revert n H0. apply Z_lt_induction.
  intros n IH Hn. destruct (prime_dec n) as [Hp | Hp]; [exists n; split; [by apply prime_alt | done] |].
  destruct (not_prime_divide n Hn Hp) as (d & Hd & Hdn).
  destruct (IH d ltac:(lia) ltac:(lia)) as (r & Hr & Hrd). exists r. split; [done | by apply (Z.divide_trans _ d)].
Qed.

(** A divisor other than 1 and [n] gives a prime one that is at most the square root. *)
Lemma small_prime_divisor (n d : Z) : 1 < d < n -> (d | n) -> exists r, Z.prime r /\ (r | n) /\ r * r <= n.
Proof.
  intros Hd [e He]. assert (1 < e) by nia.
  assert (exists m, 1 < m /\ (m | n) /\ m * m <= n) as (m & Hm & Hmn & Hsq).
  { destruct (Z.le_gt_cases d e); [exists d | exists e]; (split; [lia |]); split; try nia;
      [by exists e | exists d; lia]. }
  destruct (prime_divisor m Hm) as (r & Hr & Hrm). pose proof (Z.prime_ge_2 r Hr).
  exists r. split; [done |]. split; [by apply (Z.divide_trans _ m) |].
  apply Z.divide_pos_le in Hrm; nia.
Qed.

Definition product (qs : list Z) : Z := fold_right Z.mul 1 qs.

Lemma prime_divides_product (q : Z) (qs : list Z) : Z.prime q -> Forall Z.prime qs -> (q | product qs) -> q ∈ qs.
Proof.
  intros Hq. induction 1 as [|q' qs Hq' _ IH]; cbn [product fold_right]; intros Hd.
  - apply Z.divide_1_r_nonneg in Hd; [| pose proof (Z.prime_ge_2 q Hq); lia]. subst. by destruct (Z.not_prime_1).
  - apply Z.divide_prime_mul in Hd as [Hd | Hd]; [| | done].
    + apply (Z.divide_prime_prime _ _ Hq Hq') in Hd as ->. by left.
    + right. by apply IH.
Qed.

Lemma product_divides (qs : list Z) (m : Z) : NoDup qs -> Forall Z.prime qs -> Forall (fun q => (q | m)) qs ->
  (product qs | m).
Proof.
  induction qs as [|q qs IH]; intros Hn Hp Hd; [apply Z.divide_1_l |].
  apply NoDup_cons in Hn as [Hq Hn]. inversion_clear Hp as [|? ? Hqp Hp']. inversion_clear Hd as [|? ? Hqm Hd'].
  destruct (IH Hn Hp' Hd') as [k Hk]. assert (Z.gcd q (product qs) = 1) as Hg.
  { apply (Z.coprime_prime_l q _ Hqp). intros Hin. by apply Hq, prime_divides_product. }
  rewrite Hk, Z.mul_comm in Hqm. apply Z.gauss in Hqm as [j Hj]; [| done].
  exists j. cbn [product fold_right]. fold (product qs). lia.
Qed.

(** ** The criterion *)

Lemma mod_divisor (a n r : Z) : 1 < r -> (r | n) -> a mod n = 1 -> a mod r = 1.
Proof.
  intros Hr Hn H. rewrite <- (Z.mod_mod_divide a n r Hn), H. apply Z.mod_small. lia.
Qed.

Lemma power_one (a k r : Z) : 1 < r -> 0 <= k -> a mod r = 1 -> a ^ k mod r = 1.
Proof. intros Hr Hk H. rewrite <- Z.mod_pow_l, H, Z.pow_1_l by done. apply Z.mod_small. lia. Qed.

(** Where the power [q] of [b] is 1 and [b] is not, [q] divides the order of the group. *)
Lemma order_divides (r b q : Z) : Z.prime r -> Z.prime q -> b ^ q mod r = 1 -> b mod r <> 1 -> (q | r - 1).
Proof.
  intros Hr Hq Hb Hne. pose proof (Z.prime_ge_2 r Hr). pose proof (Z.prime_ge_2 q Hq).
  assert (b mod r <> 0) as Hnz.
  { intros Hz. rewrite <- Z.mod_pow_l, Hz, Z.pow_0_l in Hb by lia. rewrite Z.mod_0_l in Hb by lia. done. }
  pose proof (Z.fermat_nz r b Hr Hnz) as Hf.
  destruct (Z.BoolSpec_divide q (r - 1)) as [Hd | Hd]; [done |]. exfalso. apply Hne.
  destruct (Z.Bezout_coprime _ _ (Z.coprime_prime_l q (r - 1) Hq Hd)) as (x & y & Hxy).
  set (m := x mod (r - 1) + (r - 1)). pose proof (Z.mod_pos_bound x (r - 1) ltac:(lia)).
  pose proof (Z.div_mod x (r - 1) ltac:(lia)) as Hx. set (n := q - x / (r - 1) * q - y).
  assert (m * q = n * (r - 1) + 1) as Hmn.
  { enough (m * q - n * (r - 1) = x * q + y * (r - 1)) by lia. subst m n. clear Hxy.
    generalize dependent (x mod (r - 1)). generalize (x / (r - 1)). intros w t Ht ->. ring. }
  assert (0 <= n) by (assert (1 <= m * q) by (subst m; nia); nia). assert (0 <= n * (r - 1)) by nia.
  assert (b ^ (m * q) mod r = 1) as E1.
  { rewrite (Z.mul_comm m q), Z.pow_mul_r by (subst m; lia). apply power_one; [lia | subst m; lia | done]. }
  rewrite Hmn, Z.pow_add_r, Z.pow_1_r, (Z.mul_comm n), Z.pow_mul_r in E1 by lia.
  rewrite <- Zmult_mod_idemp_l, (power_one _ n r) in E1 by (lia || done). by rewrite Z.mul_1_l in E1.
Qed.

(** The test: [a] has the power [n - 1] equal to 1, and no smaller power by a factor [q] is 1
    modulo a divisor of [n]; the primes [qs] account for the square root of [n]. *)
Definition pocklington_test (n a : Z) (qs : list Z) : bool :=
  (1 <? n) && (n <? product qs * product qs) && bool_decide (NoDup qs) && (Zpow_mod a (n - 1) n =? 1)
  && forallb (fun q => ((n - 1) mod q =? 0) && (Z.gcd (Zpow_mod a ((n - 1) / q) n - 1) n =? 1)) qs.

Lemma test_divides (n a q r : Z) : 1 < n -> Z.prime q -> Z.prime r -> (r | n) -> Zpow_mod a (n - 1) n = 1 ->
  (n - 1) mod q = 0 -> Z.gcd (Zpow_mod a ((n - 1) / q) n - 1) n = 1 -> (q | r - 1).
Proof.
  intros Hn Hq Hr Hrn Ha Hqn Hg. rewrite !Zpow_mod_correct in * by lia.
  pose proof (Z.prime_ge_2 r Hr). pose proof (Z.prime_ge_2 q Hq). set (m := (n - 1) / q) in *.
  assert (n - 1 = m * q) as Hm by (pose proof (Z.div_mod (n - 1) q ltac:(lia)); lia). assert (0 <= m) by nia.
  apply (order_divides r (a ^ m) q Hr Hq).
  - rewrite <- Z.pow_mul_r, <- Hm by lia. apply (mod_divisor _ n); [lia | done | done].
  - intros Hone. assert ((r | 1)) as Hr1.
    { rewrite <- Hg. apply Z.gcd_greatest; [| done]. apply Z.mod_divide; [lia |].
      rewrite Zminus_mod, Z.mod_mod_divide, Hone, (Z.mod_small 1) by (done || lia). by apply Z.mod_0_l; lia. }
    apply Z.divide_1_r_nonneg in Hr1; lia.
Qed.

Lemma pocklington (n a : Z) (qs : list Z) : Forall Z.prime qs -> pocklington_test n a qs = true -> Z.prime n.
Proof.
  intros Hqs Ht. unfold pocklington_test in Ht. rewrite !andb_true_iff in Ht.
  destruct Ht as [[[[Hn Hsq] Hnd] Ha] Hall]. apply Z.ltb_lt in Hn, Hsq. apply bool_decide_eq_true in Hnd.
  apply Z.eqb_eq in Ha. split; [done |]. intros d Hd Hdn.
  destruct (small_prime_divisor n d Hd Hdn) as (r & Hr & Hrn & Hrr). pose proof (Z.prime_ge_2 r Hr).
  assert (product qs | r - 1) as Hp.
  { apply product_divides; [done | done |]. apply Forall_forall. intros q Hq. rewrite Forall_forall in Hqs.
    rewrite forallb_forall in Hall. specialize (Hall q ltac:(by apply list_elem_of_In)). boolz.
    apply (test_divides n a); (done || by apply Hqs). }
  assert (0 <= product qs) by (clear - Hqs; induction Hqs as [|q qs Hq _ IH]; cbn [product fold_right]; [done |];
    pose proof (Z.prime_ge_2 q Hq); fold (product qs); lia).
  apply Z.divide_pos_le in Hp; [nia | lia].
Qed.

(** Small primes by trial division. *)
Lemma trial_division (n : Z) : (1 <? n) && forallb (fun d => negb (n mod d =? 0)) (seqZ 2 (n - 2)) = true -> Z.prime n.
Proof.
  rewrite andb_true_iff, forallb_forall. intros [Hn Hall]. apply Z.ltb_lt in Hn. split; [done |].
  intros d Hd Hdn. specialize (Hall d). rewrite <- list_elem_of_In, elem_of_seqZ in Hall.
  specialize (Hall ltac:(lia)). apply Z.mod_divide in Hdn; [| lia]. by rewrite Hdn in Hall.
Qed.

(** ** The chain *)

(** Small primes are tried; the others come from smaller ones. *)
Create HintDb primes.

Ltac small_prime := apply trial_division; by vm_compute.
Ltac prime_by qs := apply (pocklington _ 2 qs);
  [repeat first [apply Forall_nil_2 | apply Forall_cons_2; [solve [eauto with primes nocore | small_prime] |]] | by vm_compute].

Lemma prime_8574133 : Z.prime 8574133.
Proof. prime_by [991; 103]. Qed.
#[export] Hint Resolve prime_8574133 : primes.

Lemma prime_1919519569386763 : Z.prime 1919519569386763.
Proof. prime_by [8574133; 127]. Qed.
#[export] Hint Resolve prime_1919519569386763 : primes.

Lemma prime_569003 : Z.prime 569003.
Proof. prime_by [419; 97]. Qed.
#[export] Hint Resolve prime_569003 : primes.

Lemma prime_2773320623 : Z.prime 2773320623.
Proof. prime_by [569003]. Qed.
#[export] Hint Resolve prime_2773320623 : primes.

Lemma prime_72106336199 : Z.prime 72106336199.
Proof. prime_by [2773320623]. Qed.
#[export] Hint Resolve prime_72106336199 : primes.

Lemma prime_116_bits : Z.prime 75445702479781427272750846543864801.
Proof. prime_by [1919519569386763; 72106336199]. Qed.
#[export] Hint Resolve prime_116_bits : primes.

Lemma prime_430751 : Z.prime 430751.
Proof. prime_by [1723]. Qed.
#[export] Hint Resolve prime_430751 : primes.

Lemma prime_4153 : Z.prime 4153.
Proof. prime_by [173]. Qed.
#[export] Hint Resolve prime_4153 : primes.

Lemma prime_55_bits : Z.prime 31757755568855353.
Proof. prime_by [430751; 4153]. Qed.
#[export] Hint Resolve prime_55_bits : primes.

Lemma prime_236_bits : Z.prime 74058212732561358302231226437062788676166966415465897661863160754340907.
Proof. prime_by [75445702479781427272750846543864801; 31757755568855353]. Qed.
#[export] Hint Resolve prime_236_bits : primes.

Lemma p25519_prime : Z.prime p25519.
Proof. prime_by [74058212732561358302231226437062788676166966415465897661863160754340907]. Qed.
