(* ===== verification/X25519.v ===== *)
(** * Both implementations compute X25519

    The ladder of the 64-bit implementation starts one bit higher than that of RFC 7748 and
    of the 32-bit implementation.  That bit is 0, and its step leaves the same points in other
    projective coordinates; since 2^255 - 19 is prime the division at the end gives the same
    quotient. *)

From Stdlib Require Import Setoid Morphisms Znumtheory Zdivisibility Zmod.
From S2P Require Import Prelude Encoding Curve25519 Rfc7748 Curve25519Ok Fiat32 Fiat32Ok Prime25519.
#[local] Open Scope Z_scope.
#[local] Opaque Z.pow.

(** ** The field *)

Lemma eqp_0 (a : Z) : a ≡p 0 <-> (p25519 | a).
Proof. unfold eqp. by rewrite Z.sub_0_r. Qed.

(** The multiples of p are the only numbers without an inverse. *)
Lemma fermat25519 (a : Z) : ~ a ≡p 0 -> a ^ (p25519 - 1) ≡p 1.
Proof.
  intros Ha. apply eqp_iff. rewrite Z.fermat_nz; [by vm_compute | apply p25519_prime |].
  intros H. apply Ha, eqp_0, Z.mod_divide; done.
Qed.

Lemma nonzero_mul (a b : Z) : ~ a ≡p 0 -> ~ b ≡p 0 -> ~ a * b ≡p 0.
Proof.
  rewrite !eqp_0. intros Ha Hb H. by apply Z.divide_prime_mul in H as [H | H]; [| | apply p25519_prime].
Qed.

Lemma small_nonzero (a : Z) : 0 < a < p25519 -> ~ a ≡p 0.
Proof. intros Ha H%eqp_0. apply Z.divide_pos_le in H; lia. Qed.

(** A common factor of both coordinates does not count. *)
Lemma quotient_scaled (l x z x' z' : Z) : ~ l ≡p 0 -> x' ≡p l * x -> z' ≡p l * z ->
  fprod x' (finv z') = fprod x (finv z).
Proof.
  intros Hl Hx Hz. apply eqp_iff. rewrite !finv_eqp, Hx.
  rewrite (eqp_pow z' (l * z) (p25519 - 2)) by (done || unfold p25519; lia).
  rewrite Z.pow_mul_l. transitivity (l ^ (p25519 - 1) * (x * z ^ (p25519 - 2))).
  - replace (p25519 - 1) with (1 + (p25519 - 2)) by lia. rewrite Z.pow_add_r, Z.pow_1_r by (unfold p25519; lia).
    apply (eqp_multiple _ _ 0). ring.
  - rewrite fermat25519 by done. by rewrite Z.mul_1_l.
Qed.

(** ** Projective coordinates *)

Definition scaled (l : Z) (p q : Z * Z) : Prop := fst q ≡p l * fst p /\ snd q ≡p l * snd p.

(** The same two points. *)
Definition same_points (v w : ladder_state) : Prop :=
  exists l m, ~ l ≡p 0 /\ ~ m ≡p 0 /\ scaled l (fst v) (fst w) /\ scaled m (snd v) (snd w).

(** The coordinates a step computes, as polynomials. *)
Lemma ladder_step_values (u x2 z2 x3 z3 : Z) :
  let st := ladder_step u ((x2, z2), (x3, z3)) in
  fst (fst st) ≡p (x2 + z2) * (x2 + z2) * ((x2 - z2) * (x2 - z2))
  /\ snd (fst st) ≡p 4 * x2 * z2 * ((x2 + z2) * (x2 + z2) + 121665 * (4 * x2 * z2))
  /\ fst (snd st) ≡p 4 * (x2 * x3 - z2 * z3) * (x2 * x3 - z2 * z3)
  /\ snd (snd st) ≡p u * (4 * (x2 * z3 - z2 * x3) * (x2 * z3 - z2 * x3)).
Proof.
  unfold ladder_step, fsq. cbn [fst snd].
  split; [| split; [| split]]; repeat first [rewrite fprod_eqp | rewrite fadd_eqp | rewrite fsub_eqp];
    apply (eqp_multiple _ _ 0); ring.
Qed.

Lemma ladder_step_same (u : Z) (v w : ladder_state) : same_points v w -> same_points (ladder_step u v) (ladder_step u w).
Proof.
  destruct v as [[x2 z2] [x3 z3]], w as [[x2' z2'] [x3' z3']]. intros (l & m & Hl & Hm & [Hx2 Hz2] & [Hx3 Hz3]).
  cbn [fst snd] in *. exists (l * l * (l * l)), (l * m * (l * m)).
  split; [auto using nonzero_mul |]. split; [auto using nonzero_mul |].
  destruct (ladder_step_values u x2 z2 x3 z3) as (V1 & V2 & V3 & V4).
  destruct (ladder_step_values u x2' z2' x3' z3') as (W1 & W2 & W3 & W4). cbv zeta in *.
  split; split; [rewrite W1, V1 | rewrite W2, V2 | rewrite W3, V3 | rewrite W4, V4];
    rewrite ?Hx2, ?Hz2, ?Hx3, ?Hz3; apply (eqp_multiple _ _ 0); ring.
Qed.

Lemma cswap_same (b : bool) (v w : ladder_state) : same_points v w -> same_points (cswap b v) (cswap b w).
Proof. destruct b; [| done]. intros (l & m & Hl & Hm & Hv & Hw). by exists m, l. Qed.

Lemma fold_same (u : Z) (bits : list bool) (v w : ladder_state) : same_points v w ->
  same_points (fold_left (ladder_bit u) bits v) (fold_left (ladder_bit u) bits w).
Proof.
  revert v w. induction bits as [|b bits IH]; intros v w Hs; [done |].
  cbn [fold_left]. apply IH. unfold ladder_bit. by apply cswap_same, ladder_step_same, cswap_same.
Qed.

(** *** The coordinate 0 *)

(** Every point of the ladder has a coordinate 0 when [u] is 0. *)
Definition on_axis (p : Z * Z) : Prop := fst p * snd p ≡p 0.

Lemma ladder_step_axis (u : Z) (v : ladder_state) : u ≡p 0 -> on_axis (fst v) ->
  snd (fst (ladder_step u v)) ≡p 0 /\ snd (snd (ladder_step u v)) ≡p 0.
Proof.
  destruct v as [[x2 z2] [x3 z3]]. unfold on_axis. cbn [fst snd]. intros Hu Hv.
  destruct (ladder_step_values u x2 z2 x3 z3) as (_ & -> & _ & ->). split.
  - replace (4 * x2 * z2) with (4 * (x2 * z2)) by ring. by rewrite Hv.
  - by rewrite Hu.
Qed.

Lemma ladder_bit_axis (u : Z) (v : ladder_state) (b : bool) : u ≡p 0 -> on_axis (fst v) -> on_axis (snd v) ->
  snd (fst (ladder_bit u v b)) ≡p 0 /\ snd (snd (ladder_bit u v b)) ≡p 0.
Proof.
  intros Hu H1 H2. unfold ladder_bit. assert (on_axis (fst (cswap b v))) as H by (by destruct b).
  destruct (ladder_step_axis u _ Hu H) as [E1 E2]. by destruct b.
Qed.

Lemma fold_axis (u : Z) (bits : list bool) (v : ladder_state) : u ≡p 0 -> bits <> [] -> on_axis (fst v) -> on_axis (snd v) ->
  snd (fst (fold_left (ladder_bit u) bits v)) ≡p 0.
Proof.
  intros Hu. revert v. induction bits as [|b bits IH]; intros v Hb H1 H2; [done |]. cbn [fold_left].
  destruct (ladder_bit_axis u v b Hu H1 H2) as [E1 E2].
  destruct bits as [|b' bits]; [exact E1 |].
  apply IH; [done | unfold on_axis; rewrite E1 | unfold on_axis; rewrite E2]; by rewrite Z.mul_0_r.
Qed.

Lemma ladder_axis (n : nat) (k u : Z) : u ≡p 0 -> (0 < n)%nat -> ladder n k u = 0.
Proof.
  intros Hu Hn. unfold ladder.
  assert (snd (fst (fold_left (ladder_bit u) (bits_down k n) ((1, 0), (u, 1)))) ≡p 0) as Hz.
  { apply fold_axis; [done | | by unfold on_axis | unfold on_axis; cbn [fst snd]; by rewrite Z.mul_1_r].
    destruct n as [|n]; [lia |]. by rewrite bits_down_S. }
  destruct (fold_left _ _ _) as [[x2 z2] rest]. cbn [fst snd] in Hz.
  change 0 with (0 mod p25519). apply eqp_iff. rewrite finv_eqp, (eqp_pow z2 0) by (done || unfold p25519; lia).
  rewrite Z.pow_0_l by (unfold p25519; lia). by rewrite Z.mul_0_r.
Qed.

(** ** A leading 0 *)

Lemma ladder_leading_zero (n : nat) (k u : Z) : (0 < n)%nat -> Z.testbit k (Z.of_nat n) = false ->
  ladder (S n) k u = ladder n k u.
Proof.
  intros Hn Hk. destruct (decide (u mod p25519 = 0)) as [Hu | Hu].
  { apply Z.mod_divide, eqp_0 in Hu; [| done]. by rewrite (ladder_axis (S n)), (ladder_axis n) by (done || lia). }
  assert (~ u ≡p 0) as Hu' by (intros H%eqp_iff; apply Hu; by rewrite H). clear Hu.
  unfold ladder. rewrite bits_down_S, Hk. cbn [fold_left].
  change (ladder_bit u ((1, 0), (u, 1)) false) with (ladder_step u ((1, 0), (u, 1))).
  destruct (ladder_step_values u 1 0 u 1) as (V1 & V2 & V3 & V4). cbv zeta in *.
  assert (same_points ((1, 0), (u, 1)) (ladder_step u ((1, 0), (u, 1)))) as Hs.
  { exists 1, (4 * u). assert (~ 1 ≡p 0) by (apply small_nonzero; unfold p25519; lia).
    assert (~ 4 ≡p 0) by (apply small_nonzero; unfold p25519; lia). split; [done |]. split; [by apply nonzero_mul |].
    split; split; cbn [fst snd]; [rewrite V1 | rewrite V2 | rewrite V3 | rewrite V4]; apply (eqp_multiple _ _ 0); ring. }
  destruct (fold_same u (bits_down k n) _ _ Hs) as (l & m & Hl & _ & [Hx Hz] & _).
  destruct (fold_left (ladder_bit u) (bits_down k n) ((1, 0), (u, 1))) as [[x2 z2] rest].
  destruct (fold_left (ladder_bit u) (bits_down k n) _) as [[x2' z2'] rest'].
  cbn [fst snd] in *. by apply (quotient_scaled l).
Qed.

(** ** Both implementations *)

(** The top bit of a clamped scalar is 0. *)
Lemma clamp_top (k : Z) : Z.testbit (clamp k) 255 = false.
Proof.
  rewrite Z.testbit_false by lia. unfold clamp. rewrite Z.div_small; [done |]. zlia.
Qed.

Lemma curve25519_x25519 (secret basepoint : list byte) :
  length secret = 32%nat -> length basepoint = 32%nat ->
  curve25519 secret basepoint
  = bytes_le 32 (x25519 (clamp (le_bytes secret)) (le_bytes basepoint mod 2 ^ 255)).
Proof.
  intros Hs Hb. rewrite curve25519_ladder by done. unfold x25519.
  rewrite (ladder_leading_zero 255); [done | lia | apply clamp_top].
Qed.

(** C2: [curve25519], built with 128-bit integers, computes the function X25519 of RFC 7748:
    for any secret and base point of 32 bytes its output is the little-endian form of the
    Montgomery ladder over the integers modulo 2^255 - 19, run over the 255 bits of the
    clamped secret from the 255 low bits of the base point, and divided out.  The words of the
    model wrap around as those of the code do, so no overflow can affect the result. *)
Theorem curve25519_refines (secret basepoint : list byte) :
  length secret = 32%nat -> length basepoint = 32%nat ->
  curve25519 secret basepoint
  = bytes_le 32 (x25519 (clamp (le_bytes secret)) (le_bytes basepoint mod 2 ^ 255)).
Proof. apply curve25519_x25519. Qed.

Lemma curve25519_refines_witness :
  curve25519 (map z2b (seqZ 1 32)) curve25519_basepoint
  = bytes_le 32 (x25519 (clamp (le_bytes (map z2b (seqZ 1 32)))) (le_bytes curve25519_basepoint mod 2 ^ 255)).
Proof. apply (curve25519_refines (map z2b (seqZ 1 32)) curve25519_basepoint); reflexivity. Defined.

(** C3: [curve25519], built without 128-bit integers, computes the same function of RFC 7748:
    for any secret and base point of 32 bytes the bytes it writes are those of X25519, the
    result of the ladder with its delayed swaps, divided out and fully reduced.  The words of
    the model wrap around as those of the code do, so no overflow can affect the result. *)
Theorem curve25519_32_refines (secret basepoint : list byte) :
  length secret = 32%nat -> length basepoint = 32%nat ->
  curve25519_32 secret basepoint
  = bytes_le 32 (x25519 (clamp (le_bytes secret)) (le_bytes basepoint mod 2 ^ 255)).
Proof. apply curve25519_32_ladder. Qed.

Lemma curve25519_32_refines_witness :
  curve25519_32 (map z2b (seqZ 1 32)) curve25519_basepoint
  = bytes_le 32 (x25519 (clamp (le_bytes (map z2b (seqZ 1 32)))) (le_bytes curve25519_basepoint mod 2 ^ 255)).
Proof. apply (curve25519_32_refines (map z2b (seqZ 1 32)) curve25519_basepoint); reflexivity. Defined.

(** C4: The two implementations agree: on every secret and every base point of 32 bytes, those
    that are not canonical and those of small order included, the 32-bit and the 64-bit build
    write the same bytes, and the same public keys, although their ladders start from different bits and carry
    different projective coordinates. *)
Theorem curve25519_builds_agree (secret basepoint : list byte) :
  length secret = 32%nat -> length basepoint = 32%nat ->
  curve25519_32 secret basepoint = curve25519 secret basepoint
  /\ curve25519_generate_public_32 secret = curve25519_generate_public secret.
Proof.
  intros Hs Hb. unfold curve25519_generate_public_32, curve25519_generate_public.
  split; etransitivity; [by apply curve25519_32_ladder | symmetry; by apply curve25519_x25519 |
    by apply curve25519_32_ladder | symmetry; by apply curve25519_x25519].
Qed.

Lemma curve25519_builds_agree_witness :
  curve25519_32 (map z2b (seqZ 1 32)) (repeat (z2b 255) 32) = curve25519 (map z2b (seqZ 1 32)) (repeat (z2b 255) 32)
  /\ curve25519_generate_public_32 (map z2b (seqZ 1 32)) = curve25519_generate_public (map z2b (seqZ 1 32)).
Proof. apply (curve25519_builds_agree (map z2b (seqZ 1 32)) (repeat (z2b 255) 32)); reflexivity. Defined.
