(* ===== verification/Keys.v ===== *)
(** * [awg genkey], [genpsk] and [pubkey] (src/genkey.c, src/pubkey.c)

    The commands that make keys.  The sources of randomness and the standard input are the
    environment's; a command returns its exit status and what it prints. *)

From S2P Require Import Prelude Ctype CString Encoding Curve25519 Rfc7748 X25519.
#[local] Open Scope Z_scope.
#[local] Opaque Z.pow.

(** ** Randomness *)

Class Random := {
  (** [getentropy], [None] when it fails. *)
  getentropy : nat -> option (list byte);
  (** What the [getrandom] system call stores; it may be less than asked for. *)
  getrandom : nat -> list byte;
  (** /dev/urandom, [None] when it does not open: what the [n]-th [read] of some bytes
      stores, nothing for an error or the end. *)
  urandom : option (nat -> nat -> list byte);
}.

(** The system calls store no more than they are asked for. *)
Class RandomLaws (R : Random) := {
  getentropy_length : forall n s, getentropy n = Some s -> length s = n;
  urandom_length : forall rd k n, urandom = Some rd -> (length (rd k n) <= n)%nat;
}.

(** The loop over [read], at its [k]-th turn, [out] being stored. *)
Fixpoint read_loop (fuel : nat) (rd : nat -> nat -> list byte) (k : nat) (out : list byte) (len : nat) :
    outcome (list byte) :=
  match fuel with
  | O => OutOfFuel
  | S fuel' =>
      if (length out <? len)%nat then
        let s := rd k (len - length out)%nat in
        if (length s =? 0)%nat then Returns out
        else read_loop fuel' rd (S k) (out ++ s) len
      else Returns out
  end.

Definition get_random_bytes `{Random} (len : nat) : outcome (option (list byte)) :=
  if (256 <? len)%nat then Returns None
  else
    match getentropy len with
    | Some s => Returns (Some s)
    | None =>
        if (length (getrandom len) =? len)%nat then Returns (Some (getrandom len))
        else
          match urandom with
          | None => Returns None
          | Some rd =>
              obind (read_loop (S len) rd 0 [] len)
                (fun out => Returns (if (length out =? len)%nat then Some out else None))
          end
    end.

(** ** The commands *)

Definition genkey_main `{Random} (argv : list (list byte)) : outcome (Z * list byte) :=
  match argv with
  | [cmd] =>
      obind (get_random_bytes WG_KEY_LEN) (fun res =>
        match res with
        | None => Returns (1, [])
        | Some key =>
            let key := if strcmp_eq cmd (text "genkey") then curve25519_clamp_secret key else key in
            Returns (0, key_to_base64 key ++ [x0a])
        end)
  | _ => Returns (1, [])
  end.

Definition EOF : Z := -1.

(** The loop over the characters after the key: whether only white space and NULs follow. *)
Fixpoint trailing_loop (stdin : list byte) : outcome bool :=
  match stdin with
  | c :: rest =>
      if (b2z c =? 0) || char_is_space (b2z c) then trailing_loop rest else Returns false
  | [] => if (EOF =? 0) || char_is_space EOF then OutOfFuel else Returns true
  end.

Definition pubkey_main `{Platform} (stdin : list byte) (argv : list (list byte)) : outcome (Z * list byte) :=
  match argv with
  | [_] =>
      let base64 := take (WG_KEY_LEN_BASE64 - 1) stdin in
      if negb (length base64 =? WG_KEY_LEN_BASE64 - 1)%nat then Returns (1, [])
      else
        obind (trailing_loop (drop (WG_KEY_LEN_BASE64 - 1) stdin)) (fun ok =>
          if negb ok then Returns (1, [])
          else
            let '(key, ok) := key_from_base64 (repeat x00 WG_KEY_LEN) (c_str base64) in
            if negb ok then Returns (1, [])
            else Returns (0, key_to_base64 (curve25519_generate_public key) ++ [x0a]))
  | _ => Returns (1, [])
  end.

(** ** What the commands print *)

Lemma read_loop_ends (fuel len k : nat) (rd : nat -> nat -> list byte) (out : list byte) :
  (forall k n, length (rd k n) <= n)%nat -> (length out <= len)%nat -> (len - length out < fuel)%nat ->
  exists s, read_loop fuel rd k out len = Returns s /\ (length s <= len)%nat.
Proof.
  intros Hrd. revert k out. induction fuel as [|fuel IH]; intros k out Hl Hf; [lia |]. cbn [read_loop].
  destruct (Nat.ltb_spec (length out) len); [| by eexists].
  destruct (Nat.eqb_spec (length (rd k (len - length out)%nat)) 0); [by eexists |].
  specialize (Hrd k (len - length out)%nat). apply IH; rewrite length_app; lia.
Qed.

Lemma get_random_bytes_cases `{R : Random} `{!RandomLaws R} (len : nat) :
  get_random_bytes len = Returns None
  \/ exists s, get_random_bytes len = Returns (Some s) /\ length s = len.
Proof.
  unfold get_random_bytes. destruct (_ <? _)%nat; [by left |].
  destruct (getentropy len) as [s |] eqn:E; [right; exists s; split; [done | by apply getentropy_length] |].
  destruct (Nat.eqb_spec (length (getrandom len)) len); [right; by eexists |].
  destruct urandom as [rd |] eqn:Eu; [| by left].
  destruct (read_loop_ends (S len) len 0 rd []) as (s & -> & _); cbn [length obind]; [| lia.. |].
  - intros i m. by apply urandom_length.
  - destruct (Nat.eqb_spec (length s) len); [right; by eexists | by left].
Qed.

Lemma clamp_idem (k : Z) : clamp (clamp k) = clamp k.
Proof. unfold clamp. zlia. Qed.

Lemma clamp_secret_length (s : list byte) : length (curve25519_clamp_secret s) = length s.
Proof. destruct s as [|b s]; [done |]. unfold curve25519_clamp_secret. by rewrite length_insert. Qed.

(** [genkey] and [genpsk] always end; they fail without printing, or print the base64 text
    of 32 random bytes, which for [genkey] are already clamped. *)
Theorem genkey_main_spec `{R : Random} `{!RandomLaws R} (cmd : list byte) :
  genkey_main [cmd] = Returns (1, [])
  \/ exists key, genkey_main [cmd] = Returns (0, key_to_base64 key ++ [x0a]) /\ length key = 32%nat
     /\ (cmd = text "genkey" -> le_bytes key = clamp (le_bytes key)).
Proof.
  unfold genkey_main. destruct (get_random_bytes_cases WG_KEY_LEN) as [-> | (s & -> & Hs)]; [by left |]. right.
  cbn [obind]. destruct (strcmp_eq cmd (text "genkey")) eqn:E.
  - exists (curve25519_clamp_secret s). rewrite clamp_secret_length, clamp_ok by done. split; [done |]. split; [done |].
    by rewrite clamp_idem.
  - exists s. split; [done |]. split; [done |]. intros ->. unfold strcmp_eq in E. by rewrite beq_refl in E.
Qed.

(** White space or NUL. *)
Definition is_blank (c : byte) : bool := (b2z c =? 0) || char_is_space (b2z c).

Lemma trailing_loop_spec (s : list byte) : trailing_loop s = Returns (forallb is_blank s).
Proof.
  induction s as [|c s IH]; [done |]. cbn [trailing_loop forallb]. unfold is_blank at 1.
  destruct (_ || _); [exact IH | done].
Qed.

Lemma c_str_take (s : list byte) : c_str s = take (length (c_str s)) s.
Proof. induction s as [|c s IH]; [done |]. cbn [c_str]. destruct (Byte.eqb c x00); [done |]. cbn. by rewrite <- IH. Qed.

Lemma key_text_no_nul (key : list byte) : ~ In x00 (key_to_base64 key).
Proof.
  intros Hin. pose proof (key_to_base64_chars key) as Hc. rewrite List.Forall_forall in Hc.
  specialize (Hc _ Hin). revert Hc. vm_compute. intuition discriminate.
Qed.

Lemma generate_public_spec (key : list byte) : length key = 32%nat ->
  curve25519_generate_public key = bytes_le 32 (x25519 (clamp (le_bytes key)) 9).
Proof. intros Hk. unfold curve25519_generate_public. by rewrite curve25519_x25519. Qed.

(** C40: [pubkey] answers exactly the keys: when its input is the base64 text of a 32-byte key
    followed by white space or NULs it prints the base64 text of the public key of X25519,
    with base point 9; on any other input it fails and prints nothing.  It always ends. *)
Theorem pubkey_main_spec `{Platform} (stdin cmd : list byte) :
  (exists key blanks, length key = 32%nat /\ stdin = key_to_base64 key ++ blanks /\ forallb is_blank blanks = true
     /\ pubkey_main stdin [cmd]
        = Returns (0, key_to_base64 (bytes_le 32 (x25519 (clamp (le_bytes key)) 9)) ++ [x0a]))
  \/ (pubkey_main stdin [cmd] = Returns (1, [])
      /\ forall key blanks, length key = 32%nat -> forallb is_blank blanks = true ->
         stdin <> key_to_base64 key ++ blanks).
Proof.
  unfold pubkey_main. set (base64 := take _ stdin). set (rest := drop _ stdin).
  assert (forall key blanks, length key = 32%nat -> stdin = key_to_base64 key ++ blanks ->
          base64 = key_to_base64 key /\ rest = blanks) as Hsplit.
  { intros key blanks Hk ->. subst base64 rest. pose proof (key_to_base64_length key Hk) as Hl.
    change (WG_KEY_LEN_BASE64 - 1)%nat with 44%nat. rewrite <- Hl. split; [apply take_app_length | apply drop_app_length]. }
  destruct (Nat.eqb_spec (length base64) (WG_KEY_LEN_BASE64 - 1)) as [Hl | Hl]; cbn [negb].
  2: { right. split; [done |]. intros key blanks Hk _ [E _]%Hsplit; [| done]. apply Hl. rewrite E. by apply key_to_base64_length. }
  rewrite trailing_loop_spec. cbn [obind]. destruct (forallb is_blank rest) eqn:Hb; cbn [negb].
  2: { right. split; [done |]. intros key blanks Hk Hbl [_ E]%Hsplit; [| done]. by rewrite E, Hbl in Hb. }
  destruct (key_from_base64 _ (c_str base64)) as [key ok] eqn:Ek. destruct ok; cbn [negb].
  - left. pose proof (key_from_base64_length _ _ _ Ek) as Hk. pose proof (key_from_base64_text _ _ _ Ek) as Et.
    exists key, rest. rewrite generate_public_spec by done. split; [done |]. split; [| done].
    assert (c_str base64 = base64) as Ec.
    { rewrite c_str_take. assert (length (c_str base64) = length base64) as ->; [| apply firstn_all].
      by rewrite Et, key_to_base64_length, Hl by done. }
    rewrite <- Et, Ec. symmetry. apply take_drop.
  - right. split; [done |]. intros key' blanks Hk _ [E _]%Hsplit; [| done].
    rewrite E, c_str_no_nul, key_base64_decodes in Ek by (done || apply key_text_no_nul). discriminate.
Qed.

(** A machine without [getentropy] whose device gives one byte at a time. *)
Definition slow_random : Random :=
  {| getentropy := fun _ => None; getrandom := fun _ => [x01];
     urandom := Some (fun k n => if (n =? 0)%nat then [] else [z2b (Z.of_nat k)]) |}.

#[export] Instance slow_random_laws : RandomLaws slow_random.
Proof. split; [done |]. intros rd k n [= <-]. destruct (Nat.eqb_spec n 0); cbn; lia. Qed.

Lemma genkey_main_spec_witness :
  @genkey_main slow_random [text "genkey"] = Returns (1, [])
  \/ exists key, @genkey_main slow_random [text "genkey"] = Returns (0, key_to_base64 key ++ [x0a]) /\ length key = 32%nat
     /\ (text "genkey" = text "genkey" -> le_bytes key = clamp (le_bytes key)).
Proof. apply (@genkey_main_spec slow_random slow_random_laws (text "genkey")). Defined.
