(* ===== verification/Main.v ===== *)
(** * The command [awg] (src/wg.c)

    [main] chooses the subcommand.  The result of a run is its exit status, what it prints
    on the standard output and the device it handed to an interface, if any. *)

From S2P Require Import Prelude CString Encoding Containers NetLib NetLibNumeric ConfigValues Config CSort Ipc WellFormed.
From S2P Require Import ShowConf ConfRoundtrip SetConf Show Keys.
#[local] Open Scope Z_scope.
#[local] Open Scope awg_scope.

Definition WIREGUARD_TOOLS_VERSION : list byte := text "1.0.20210914".

(** The names and descriptions of the table [subcommands]. *)
Definition subcommands : list (list byte * list byte) :=
  [ (text "show", text "Shows the current configuration and device information");
    (text "showconf", text "Shows the current configuration of a given WireGuard interface, for use with `setconf'");
    (text "set", text "Change the current configuration, add peers, remove peers, or change peers");
    (text "setconf", text "Applies a configuration file to a WireGuard interface");
    (text "addconf", text "Appends a configuration file to a WireGuard interface");
    (text "syncconf", text "Synchronizes a configuration file to a WireGuard interface");
    (text "genkey", text "Generates a new private key and writes it to stdout");
    (text "genpsk", text "Generates a new preshared key and writes it to stdout");
    (text "pubkey", text "Reads a private key from stdin and writes a public key to stdout") ].

(** [show_usage(stdout)]. *)
Definition show_usage (prog_name : list byte) : list byte :=
  text "Usage: " ++ prog_name ++ text " <cmd> [<args>]" ++ newline ++ newline
  ++ text "Available subcommands:" ++ newline
  ++ concat (map (fun c => text "  " ++ fst c ++ text ": " ++ snd c ++ newline) subcommands)
  ++ text "You may pass `--help' to any of these subcommands to view usage." ++ newline.

Record run := Run {
  status : Z;
  stdout : list byte;
  sent : option wgdevice;
}.

(** A command that prints, and one that changes a device. *)
Definition printing (res : outcome (Z * list byte)) : outcome run :=
  let! (r : Z * list byte) := res in Returns (Run (fst r) (snd r) None).
Definition changing (res : outcome (Z * option wgdevice)) : outcome run :=
  let! (r : Z * option wgdevice) := res in Returns (Run (fst r) [] (snd r)).

Section Main.
(** The machine: its files and standard input, its interfaces and their names, the clock and
    the terminal; [fuel] bounds the resolution of endpoints and the number of interfaces. *)
Context `{Platform} `{NetLib} `{CSort} `{Ipc} `{Random}.
Context (read_file : list byte -> option (list byte)) (stdin : list byte) (interfaces : option (list byte)).
Context (gai_text : list byte -> list byte) (isatty : bool) (now : Z) (fuel : nat).

(** The functions of the table. *)
Definition subcommand (cmd : list byte) : option (list (list byte) -> outcome run) :=
  if strcmp_eq cmd (text "show") then Some (fun argv => printing (show_main gai_text isatty now fuel interfaces argv))
  else if strcmp_eq cmd (text "showconf") then Some (fun argv => printing (Returns (showconf_main ipc_get_device argv)))
  else if strcmp_eq cmd (text "set") then Some (fun argv => changing (set_main fuel read_file argv))
  else if strcmp_eq cmd (text "setconf") then Some (fun argv => changing (setconf_main fuel read_file argv))
  else if strcmp_eq cmd (text "addconf") then Some (fun argv => changing (setconf_main fuel read_file argv))
  else if strcmp_eq cmd (text "syncconf") then Some (fun argv => changing (setconf_main fuel read_file argv))
  else if strcmp_eq cmd (text "genkey") then Some (fun argv => printing (genkey_main argv))
  else if strcmp_eq cmd (text "genpsk") then Some (fun argv => printing (genkey_main argv))
  else if strcmp_eq cmd (text "pubkey") then Some (fun argv => printing (pubkey_main stdin argv))
  else None.

(** [prog_name] is [argv\[0\]], [argv] the arguments after it. *)
Definition main (prog_name : list byte) (argv : list (list byte)) : outcome run :=
  match argv with
  | [] => printing (show_main gai_text isatty now fuel interfaces [text "show"])
  | cmd :: args =>
      let alone (names : list (list byte)) := (length args =? 0)%nat && existsb (strcmp_eq cmd) names in
      if alone [text "-v"; text "--version"; text "version"] then
        Returns (Run 0 (text "amneziawg-tools v" ++ WIREGUARD_TOOLS_VERSION ++ text " - https://amnezia.org" ++ newline) None)
      else if alone [text "-h"; text "--help"; text "help"] then Returns (Run 0 (show_usage prog_name) None)
      else
        match subcommand cmd with
        | Some function => function argv
        | None => Returns (Run 1 [] None)
        end
  end.

End Main.

(** ** The status of a run that calls [exit] *)

(** Such a run has the status 1. *)
Definition quits {A} (m : outcome A) : Prop := match m with Exits code => code = 1 | _ => True end.

Lemma quits_bind {A B} (m : outcome A) (k : A -> outcome B) : quits m -> (forall a, quits (k a)) -> quits (obind m k).
Proof. intros Hm Hk. destruct m; cbn; [apply Hk | exact Hm | exact I]. Qed.

Create HintDb quits discriminated.

(** Case analysis down to values and calls. *)
Ltac quits :=
  repeat lazymatch goal with
  | |- quits (Returns _) => exact I
  | |- quits OutOfFuel => exact I
  | |- quits (Exits 1) => reflexivity
  | |- quits (obind _ _) => apply quits_bind; [| intros ?]
  | |- quits (match ?x with _ => _ end) => destruct x
  | |- quits _ => solve [eauto 2 with quits nocore]
  end.

Section Quits.
Context `{P : Platform} `{N : NetLib} (fuel : nat) (read_file : list byte -> option (list byte)).

Lemma parse_dns_retries_quits : quits parse_dns_retries.
Proof. unfold parse_dns_retries. quits. Qed.

Lemma resolve_loop_quits (attempt : nat) (retries timeout : Z) (host service : list byte) (waited : list Z) :
  quits (resolve_loop fuel attempt retries timeout host service waited).
Proof. revert attempt retries timeout waited. induction fuel; intros; cbn [resolve_loop]; quits. Qed.

#[local] Hint Resolve parse_dns_retries_quits resolve_loop_quits : quits.

Lemma parse_endpoint_quits (endpoint value : list byte) : quits (parse_endpoint fuel endpoint value).
Proof. unfold parse_endpoint. quits. Qed.

Lemma parse_uint16_quits (old : Z) (value : list byte) : quits (parse_uint16 old value).
Proof. unfold parse_uint16. cbv zeta. quits. Qed.

Lemma parse_bool_quits (old : bool) (value : list byte) : quits (parse_bool old value).
Proof. unfold parse_bool. cbv zeta. quits. Qed.

#[local] Hint Resolve parse_endpoint_quits parse_uint16_quits parse_bool_quits : quits.

Lemma config_read_line_quits (ctx : config_ctx) (input : list byte) : quits (config_read_line fuel ctx input).
Proof.
  unfold config_read_line, process_line, process_device_line, process_peer_line, dev_uint16, dev_string. cbv zeta. quits.
Qed.

#[local] Hint Resolve config_read_line_quits : quits.

Lemma config_read_text_quits (append : bool) (content : list byte) : quits (config_read_text fuel append content).
Proof.
  unfold config_read_text. apply quits_bind; [| intros; exact I]. generalize (config_read_init append).
  induction (map c_str (getlines content)) as [|l ls IH]; intros ctx; cbn [config_read_lines]; quits.
Qed.

Lemma cmd_step_quits (st : cmd_state) (key : list byte) (rest : list (list byte)) : quits (cmd_step fuel read_file st key rest).
Proof.
  unfold cmd_step, cmd_new_peer, cmd_set_peer, cmd_set_device. cbv zeta.
  assert (forall r value, cmd_device_option read_file st key value = Some r -> quits r) as Hd.
  { intros r value. unfold cmd_device_option, cmd_uint16, cmd_string, cmd_set_device. cbv zeta. intros E.
    repeat match type of E with (if ?b then _ else _) = _ => destruct b end; try discriminate; injection E as <-; quits. }
  assert (forall i r value, cmd_peer_option fuel read_file st i key value = Some r -> quits r) as Hp.
  { intros i r value. unfold cmd_peer_option, cmd_set_peer, cmd_set_device. cbv zeta. intros E.
    repeat match type of E with (if ?b then _ else _) = _ => destruct b end; try discriminate; injection E as <-; quits. }
  repeat match goal with
  | |- quits (match (match ?x with _ => _ end) with _ => _ end) => destruct x
  | |- quits (match cmd_device_option ?f ?s ?k ?v with _ => _ end) => destruct (cmd_device_option f s k v) eqn:?
  | |- quits (match cmd_peer_option ?f ?g ?s ?i ?k ?v with _ => _ end) => destruct (cmd_peer_option f g s i k v) eqn:?
  | |- quits (match ?x with _ => _ end) => destruct x
  end; quits.
Qed.

Lemma config_read_cmd_quits (argv : list (list byte)) : quits (config_read_cmd fuel read_file argv).
Proof.
  unfold config_read_cmd. generalize (CmdState zero_device None None).
  assert (forall n argv st, (length argv <= n)%nat -> quits (cmd_loop fuel read_file st argv)) as H; [| intros; by eapply H].
  induction n as [|n IH]; intros args st Hn; (destruct args as [|key rest]; [exact I |]); cbn [length] in Hn; [lia |].
  cbn [cmd_loop]. apply quits_bind; [apply cmd_step_quits |]. intros [[st' []] |]; [destruct rest | |]; try exact I; apply IH; cbn in *; lia.
Qed.

End Quits.

#[export] Hint Resolve config_read_text_quits config_read_cmd_quits : quits.

(** ** What a run can do *)

Section Safety.
Context `{S : CSort} `{!CSortLaws S} `{I : Ipc} `{R : Random}.
Context `{P : Platform} `{!PlatformOk P} `{N : NetLib} `{!NetLibLaws N}.
Context (read_file : list byte -> option (list byte)) (stdin : list byte) (interfaces : option (list byte)).
Context (gai_text : list byte -> list byte) (isatty : bool) (now : Z) (fuel : nat).

Definition exit_code (z : Z) : Prop := z = 0 \/ z = 1.

Lemma show_all_loop_code (param : option (list byte)) (n : nat) (buf : list byte) (ret : Z) (r : Z * list byte) :
  exit_code ret -> show_all_loop gai_text isatty now n param buf ret = Returns r -> exit_code (fst r).
Proof.
  revert buf ret r. induction n as [|n IH]; intros buf ret r Hret E; cbn [show_all_loop] in E; [done |].
  destruct (_ =? _)%nat; [by injection E as <- |].
  destruct (ipc_get_device _) as [d |]; [| by apply IH in E].
  assert (forall out, (let! (rest : Z * list byte) := show_all_loop gai_text isatty now n param
            (drop (length (c_str buf) + 1) buf) 0 in Returns (fst rest, out ++ snd rest)) = Returns r ->
          exit_code (fst r)) as Hrest.
  { intros out. destruct (show_all_loop _ _ _ _ _ _ _) as [rest | |] eqn:El; cbn [obind]; try done.
    intros [= <-]. apply IH in El; [exact El | by left]. }
  destruct param as [p |]; [| by apply Hrest in E].
  destruct (ugly_print _ _ _ _) as [ok out]. destruct ok; cbn [negb] in E; [by apply Hrest in E |].
  injection E as <-. by right.
Qed.

Lemma show_main_code (argv : list (list byte)) (r : Z * list byte) :
  show_main gai_text isatty now fuel interfaces argv = Returns r -> exit_code (fst r).
Proof.
  assert (forall param, match interfaces with
    | None => Returns (1, [])
    | Some buf => show_all_loop gai_text isatty now fuel param buf (if Byte.eqb (byte_at buf 0) x00 then 0 else 1)
    end = Returns r -> exit_code (fst r)) as Hall.
  { intros param. destruct interfaces as [buf |]; [| intros [= <-]; by right].
    apply show_all_loop_code. destruct (Byte.eqb _ _); [by left | by right]. }
  assert (exit_code 0 /\ exit_code 1) as [H0 H1] by (split; [by left | by right]).
  unfold show_main. intros E. destruct argv as [|c [|a [|p [|? ?]]]]; try (by injection E as <-); [by eapply Hall | |].
  - destruct (strcmp_eq a (text "all")); [by eapply Hall |]. destruct (strcmp_eq a (text "interfaces")).
    { destruct interfaces as [buf |]; [| by injection E as <-].
      destruct (show_names_loop fuel buf); cbn [obind] in E; try done. by injection E as <-. }
    destruct (_ || _); [by injection E as <- |]. destruct (ipc_get_device a); by injection E as <-.
  - destruct (strcmp_eq a (text "all")); [by eapply Hall |].
    destruct (strcmp_eq a (text "interfaces")); [by injection E as <- |].
    destruct (ipc_get_device a); [| by injection E as <-].
    destruct (ugly_print _ _ _ _) as [ok out]. injection E as <-. by destruct ok.
Qed.

Lemma genkey_main_code (argv : list (list byte)) (r : Z * list byte) : genkey_main argv = Returns r -> exit_code (fst r).
Proof.
  unfold genkey_main. intros E. destruct argv as [|c [|? ?]]; try (injection E as <-; by right).
  destruct (get_random_bytes _) as [[key |] | |]; cbn [obind] in E; try done; injection E as <-; [by left | by right].
Qed.

Lemma pubkey_main_code (argv : list (list byte)) (r : Z * list byte) :
  pubkey_main stdin argv = Returns r -> exit_code (fst r).
Proof.
  unfold pubkey_main. intros E. destruct argv as [|c [|? ?]]; try (injection E as <-; by right).
  destruct (negb _); [injection E as <-; by right |].
  destruct (trailing_loop _) as [ok | |]; cbn [obind] in E; try done. destruct ok; cbn [negb] in E; [| injection E as <-; by right].
  destruct (key_from_base64 _ _) as [key ok]. destruct ok; injection E as <-; [by left | by right].
Qed.

(** A device comes with the command that changes interfaces and the interface's answer.  It is
    well formed; the one that [syncconf] makes of the device that the interface reports, when
    that one is. *)
Definition run_ok (argv : list (list byte)) (r : run) : Prop :=
  exit_code (status r)
  /\ forall d, sent r = Some d -> status r = (if ipc_set_device d then 0 else 1)
     /\ exists cmd iface args, argv = cmd :: iface :: args /\ name d = take 15 iface
        /\ In cmd [text "set"; text "setconf"; text "addconf"; text "syncconf"]
        /\ ((cmd = text "syncconf" -> reports_wf (take 15 iface)) -> wf_device d).

Lemma printing_ok (argv : list (list byte)) (res : outcome (Z * list byte)) (r : run) :
  (forall x, res = Returns x -> exit_code (fst x)) -> printing res = Returns r -> run_ok argv r.
Proof. unfold printing. intros Hres E. destruct res as [x | |]; cbn [obind] in E; try done. injection E as <-. split; [by apply Hres | done]. Qed.

Lemma changing_ok (cmd : list byte) (args : list (list byte)) (res : outcome (Z * option wgdevice)) (r : run) :
  In cmd [text "set"; text "setconf"; text "addconf"; text "syncconf"] ->
  (forall ret s, res = Returns (ret, s) -> (ret = 1 /\ s = None)
     \/ exists iface rest d, args = iface :: rest /\ s = Some d /\ ret = (if ipc_set_device d then 0 else 1)
        /\ name d = take 15 iface /\ ((cmd = text "syncconf" -> reports_wf (take 15 iface)) -> wf_device d)) ->
  changing res = Returns r -> run_ok (cmd :: args) r.
Proof.
  unfold changing. intros Hcmd Hres E. destruct res as [[ret s] | |]; cbn [obind] in E; try done. injection E as <-.
  destruct (Hres ret s eq_refl) as [[-> ->] | (iface & rest & d & -> & -> & -> & Hn & Hw)]; cbn [fst snd].
  - split; [by right | done].
  - split; [cbn; destruct (ipc_set_device d); [by left | by right] |].
    intros d' [= <-]. split; [done |]. by exists cmd, iface, rest.
Qed.

Lemma subcommand_ok (cmd : list byte) (args : list (list byte)) function (r : run) :
  subcommand read_file stdin interfaces gai_text isatty now fuel cmd = Some function ->
  function (cmd :: args) = Returns r -> run_ok (cmd :: args) r.
Proof.
  intros Hf E. unfold subcommand in Hf.
  assert (forall ret s, setconf_main fuel read_file (cmd :: args) = Returns (ret, s) -> (ret = 1 /\ s = None)
     \/ exists iface rest d, args = iface :: rest /\ s = Some d /\ ret = (if ipc_set_device d then 0 else 1)
        /\ name d = take 15 iface /\ ((cmd = text "syncconf" -> reports_wf (take 15 iface)) -> wf_device d)) as Hset.
  { intros ret s [? | (? & iface & path & _ & d & [= <- ->] & _ & ? & ? & ? & Hw)]%setconf_main_cases; [by left |].
    right. exists iface, [path], d. do 4 (split; [done |]). intros Hr. apply Hw. intros Hc. by apply Hr, beq_eq. }
  assert (forall ret s, set_main fuel read_file (cmd :: args) = Returns (ret, s) -> (ret = 1 /\ s = None)
     \/ exists iface rest d, args = iface :: rest /\ s = Some d /\ ret = (if ipc_set_device d then 0 else 1)
        /\ name d = take 15 iface /\ ((cmd = text "syncconf" -> reports_wf (take 15 iface)) -> wf_device d)) as Hset'.
  { intros ret s [? | (? & iface & rest & d & [= -> ->] & ? & ? & ? & ?)]%set_main_cases; [by left |].
    right. exists iface, rest, d. by do 4 (split; [done |]). }
  repeat match type of Hf with
  | (if strcmp_eq cmd ?n then _ else _) = _ => destruct (strcmp_eq cmd n) eqn:?
  | Some _ = Some _ => injection Hf as <-
  end; try discriminate; unfold strcmp_eq in *;
    repeat match goal with Hn : beq cmd _ = true |- _ => apply beq_eq in Hn; subst cmd end.
  - eapply printing_ok, E. apply show_main_code.
  - eapply (printing_ok _ (Returns (showconf_main ipc_get_device (text "showconf" :: args)))), E.
    intros x [= <-]. unfold showconf_main.
    destruct args as [|a [|? ?]]; try by right. destruct (ipc_get_device a); [by left | by right].
  - eapply changing_ok, E; [cbn; tauto | exact Hset'].
  - eapply changing_ok, E; [cbn; tauto | exact Hset].
  - eapply changing_ok, E; [cbn; tauto | exact Hset].
  - eapply changing_ok, E; [cbn; tauto | exact Hset].
  - eapply printing_ok, E. apply genkey_main_code.
  - eapply printing_ok, E. apply genkey_main_code.
  - eapply printing_ok, E. apply pubkey_main_code.
Qed.

Lemma show_main_quits (argv : list (list byte)) : quits (show_main gai_text isatty now fuel interfaces argv).
Proof.
  assert (forall param n buf ret, quits (show_all_loop gai_text isatty now n param buf ret)) as Hall.
  { intros param. induction n; intros buf ret; cbn [show_all_loop]; cbv zeta; quits. }
  assert (forall n buf, quits (show_names_loop n buf)) as Hnames.
  { induction n; intros buf; cbn [show_names_loop]; cbv zeta; quits. }
  unfold show_main. cbv zeta. quits.
Qed.

Lemma genkey_main_quits (argv : list (list byte)) : quits (genkey_main argv).
Proof.
  assert (forall rd n k out len, quits (read_loop n rd k out len)) as Hread.
  { intros rd. induction n; intros k out len; cbn [read_loop]; cbv zeta; quits. }
  unfold genkey_main, get_random_bytes. cbv zeta. quits.
Qed.

Lemma pubkey_main_quits (argv : list (list byte)) : quits (pubkey_main stdin argv).
Proof.
  assert (forall l, quits (trailing_loop l)) as Ht by (induction l; cbn [trailing_loop]; quits).
  unfold pubkey_main. cbv zeta. quits.
Qed.

Lemma subcommand_quits (cmd : list byte) (argv : list (list byte)) function :
  subcommand read_file stdin interfaces gai_text isatty now fuel cmd = Some function -> quits (function argv).
Proof.
  unfold subcommand. intros E. pose proof (show_main_quits argv). pose proof (genkey_main_quits argv). pose proof (pubkey_main_quits argv).
  repeat match type of E with (if ?b then _ else _) = _ => destruct b end; try discriminate; injection E as <-;
    unfold printing, changing, setconf_main, set_main; cbv zeta; quits.
Qed.

Lemma main_returns (prog_name : list byte) (argv : list (list byte)) (r : run) :
  main read_file stdin interfaces gai_text isatty now fuel prog_name argv = Returns r -> run_ok argv r.
Proof.
  unfold main. intros E. destruct argv as [|cmd args].
  { eapply printing_ok, E. apply show_main_code. }
  destruct (_ && _); [injection E as <-; split; [by left | done] |].
  destruct (_ && _); [injection E as <-; split; [by left | done] |].
  destruct (subcommand _ _ _ _ _ _ _ cmd) as [f |] eqn:Ef; [by eapply subcommand_ok |].
  injection E as <-. split; [by right | done].
Qed.

Lemma main_quits (prog_name : list byte) (argv : list (list byte)) :
  quits (main read_file stdin interfaces gai_text isatty now fuel prog_name argv).
Proof.
  unfold main. destruct argv as [|cmd args]; [apply quits_bind; [apply show_main_quits | intros; done] |]. cbv zeta.
  do 2 (destruct (_ && _); [done |]). destruct (subcommand _ _ _ _ _ _ _ cmd) eqn:E; [by apply subcommand_quits with (argv := cmd :: args) in E | done].
Qed.

(** C34: What a run of [awg] can do.  When it calls [exit] its status is 1, and when it returns
    from [main] its status is 0 or 1.  Only set, setconf, addconf and syncconf ever hand a
    device to an interface, at most one, under the name given on the command line cut to 15
    bytes, and then the exit status tells whether it was accepted; the device is well formed,
    for syncconf when the device that the interface reports under that name is.  Nothing is said
    of a run that is still resolving names, or listing interfaces, when the fuel is spent. *)
Theorem main_safe (prog_name : list byte) (argv : list (list byte)) :
  match main read_file stdin interfaces gai_text isatty now fuel prog_name argv with
  | Returns r => run_ok argv r
  | Exits code => code = 1
  | OutOfFuel => True
  end.
Proof.
  destruct (main _ _ _ _ _ _ _ prog_name argv) eqn:E; [by eapply main_returns | | done].
  pose proof (main_quits prog_name argv) as Hq. by rewrite E in Hq.
Qed.
End Safety.

Section Witnesses.
#[local] Existing Instance lp64_x86.
#[local] Existing Instance numeric_net.
#[local] Existing Instance insertion_csort.
#[local] Existing Instance slow_random.

#[local] Existing Instance one_interface.

(** A syncconf of an interface with three peers: the device that is sent removes them. *)
Definition sync_argv : list (list byte) := [text "syncconf"; text "awg0"; text "f"].

Lemma main_safe_witness : exists r,
  main (fun _ => Some sample_config) [] None (fun _ => []) false 0 16 (text "awg") sync_argv = Returns r
  /\ run_ok sync_argv r /\ (exists d, sent r = Some d /\ (3 <= length (peers d))%nat) /\ reports_wf (text "awg0").
Proof.
  eexists. split; [vm_compute; reflexivity |]. split; [| split; [eexists; split; [reflexivity | vm_compute; lia] | intros d; apply runtime_ok]].
  pose proof (main_safe (fun _ => Some sample_config) [] None (fun _ => []) false 0 16 (text "awg") sync_argv) as H.
  vm_compute in H |- *. exact H.
Defined.
End Witnesses.
