(* ===== verification/Regex.v ===== *)
(** * The regular expressions of <regex.h>

    [re] is the part of the extended syntax that awg-quick uses, [re_span] its meaning: a
    span of positions of a string that an expression matches.  [re_step] computes, from the
    positions where a match may start, those where it may end; [regexec] finds the leftmost
    of the longest matches and the bounds of its one group.  Shown: the computation is the
    meaning, so a match is found exactly when there is one. *)

From Stdlib Require Import Sorted.
From stdpp Require Import relations.
From S2P Require Import Prelude CString.

(** ** Syntax *)

Inductive re : Type :=
| RChar (p : byte -> bool)
| REps
| RCat (a b : re)
| RAlt (a b : re)
| RStar (a : re)
| RBol
| REol.

Definition ROpt (a : re) : re := RAlt a REps.
Definition RPlus (a : re) : re := RCat a (RStar a).
Definition RAny : re := RChar (fun _ => true).
Definition RByte (c : byte) : re := RChar (Byte.eqb c).

Fixpoint RLit (t : list byte) : re :=
  match t with
  | [] => REps
  | c :: t' => RCat (RByte c) (RLit t')
  end.

(** [a{1,m+1}]. *)
Fixpoint RUpTo (m : nat) (a : re) : re :=
  match m with
  | O => REps
  | S m' => ROpt (RCat a (RUpTo m' a))
  end.
Definition RRep1 (m : nat) (a : re) : re := RCat a (RUpTo m a).

(** ** Meaning *)

Inductive re_span (s : list byte) : re -> nat -> nat -> Prop :=
| span_char p c i : s !! i = Some c -> p c = true -> re_span s (RChar p) i (S i)
| span_eps i : i <= length s -> re_span s REps i i
| span_cat a b i j k : re_span s a i j -> re_span s b j k -> re_span s (RCat a b) i k
| span_alt_l a b i j : re_span s a i j -> re_span s (RAlt a b) i j
| span_alt_r a b i j : re_span s b i j -> re_span s (RAlt a b) i j
| span_star_nil a i : i <= length s -> re_span s (RStar a) i i
| span_star_cons a i j k : re_span s a i j -> re_span s (RStar a) j k -> re_span s (RStar a) i k
| span_bol : re_span s RBol 0 0
| span_eol : re_span s REol (length s) (length s).

(** ** Computation

    A set of positions of [s] is a list of [length s + 1] booleans. *)

Fixpoint re_step (s : list byte) (r : re) (v : list bool) : list bool :=
  match r with
  | RChar p => false :: zip_with (fun c b => p c && b) s v
  | REps => v
  | RCat a b => re_step s b (re_step s a v)
  | RAlt a b => zip_with orb (re_step s a v) (re_step s b v)
  | RStar a => Nat.iter (length s) (fun u => zip_with orb u (re_step s a u)) v
  | RBol => imap (fun i b => b && (i =? 0)) v
  | REol => imap (fun i b => b && (i =? length s)) v
  end.

Definition re_from (s : list byte) (i : nat) : list bool :=
  map (Nat.eqb i) (seq 0 (S (length s))).

Definition re_ends (s : list byte) (r : re) (i : nat) : list nat :=
  let v := re_step s r (re_from s i) in
  List.filter (fun j => nth j v false) (seq 0 (S (length s))).

Definition re_spanb (s : list byte) (r : re) (i j : nat) : bool :=
  existsb (Nat.eqb j) (re_ends s r i).

Definition nonempty {A} (l : list A) : bool := match l with [] => false | _ => true end.

(** [!regexec(r, s, 0, NULL, 0)]. *)
Definition regmatch (r : re) (s : list byte) : bool :=
  existsb (fun i => nonempty (re_ends s r i)) (seq 0 (S (length s))).

(** [regexec] of the pattern [pre(grp)post]: the bounds of the group, [matches\[1\]], in the
    leftmost longest match, earlier parts as long as possible. *)
Definition regexec (pre grp post : re) (s : list byte) : option (nat * nat) :=
  let whole := RCat pre (RCat grp post) in
  match List.find (fun i => nonempty (re_ends s whole i)) (seq 0 (S (length s))) with
  | None => None
  | Some i =>
      let j := List.last (re_ends s whole i) 0 in
      let so := List.last (List.filter (fun m => re_spanb s (RCat grp post) m j) (re_ends s pre i)) 0 in
      let eo := List.last (List.filter (fun m => re_spanb s post m j) (re_ends s grp so)) 0 in
      Some (so, eo)
  end.

(** The characters [so .. eo - 1], which the code cuts out with a NUL at [eo]. *)
Definition substring (s : list byte) (so eo : nat) : list byte := take (eo - so) (drop so s).

Definition regexec_sub (pre grp post : re) (s : list byte) : option (list byte) :=
  match regexec pre grp post s with
  | Some (so, eo) => Some (substring s so eo)
  | None => None
  end.

(** ** The computation is the meaning *)

Lemma re_span_le (s : list byte) (r : re) (i j : nat) : re_span s r i j -> i <= j <= length s.
Proof.
  induction 1; try lia. apply lookup_lt_Some in H. lia.
Qed.

Lemma star_iter_length (f : list bool -> list bool) (n k : nat) (v : list bool) :
  (forall u, length u = n -> length (f u) = n) -> length v = n ->
  length (Nat.iter k (fun u => zip_with orb u (f u)) v) = n.
Proof.
  intros Hf Hv. induction k as [|k IH]; [done |]. rewrite Nat.iter_succ.
  rewrite length_zip_with, (Hf _ IH), IH. lia.
Qed.

Lemma re_step_length (s : list byte) (r : re) (v : list bool) :
  length v = S (length s) -> length (re_step s r v) = S (length s).
Proof.
  revert v. induction r as [p| |a IHa b IHb|a IHa b IHb|a IHa| |]; intros v Hv; cbn [re_step]; auto.
  - cbn [length]. rewrite length_zip_with. lia.
  - rewrite length_zip_with, IHa, IHb by done. lia.
  - by apply star_iter_length.
  - by rewrite length_imap.
  - by rewrite length_imap.
Qed.

(** [j] is in the set. *)
Definition inset (v : list bool) (j : nat) : Prop := v !! j = Some true.

Lemma inset_or (u v : list bool) (j : nat) : length u = length v ->
  inset (zip_with orb u v) j <-> inset u j \/ inset v j.
Proof.
  intros Hl. unfold inset. rewrite lookup_zip_with.
  destruct (u !! j) as [b|] eqn:Hu; cbn.
  - destruct (lookup_lt_is_Some_2 v j) as [c Hc]; [rewrite <- Hl; eauto using lookup_lt_Some |].
    rewrite Hc. cbn. destruct b, c; cbn; naive_solver.
  - apply lookup_ge_None in Hu. rewrite (lookup_ge_None_2 v j) by lia. naive_solver.
Qed.

Lemma inset_imap (f : nat -> bool) (v : list bool) (j : nat) :
  inset (imap (fun i b => b && f i) v) j <-> inset v j /\ f j = true.
Proof.
  unfold inset. rewrite list_lookup_imap. destruct (v !! j) as [b|]; cbn; [| naive_solver].
  rewrite (inj_iff Some), (inj_iff Some), andb_true_iff. done.
Qed.

(** What the iteration of a star collects after [k] turns. *)
Definition steps_upto (s : list byte) (a : re) (k i j : nat) : Prop :=
  exists m, m <= k /\ nsteps (re_span s a) m i j.

Lemma steps_upto_star (s : list byte) (a : re) (k i j : nat) :
  i <= length s -> steps_upto s a k i j -> re_span s (RStar a) i j.
Proof.
  intros Hi (m & _ & H). revert Hi. induction H as [x|m x y z Hxy Hyz IH]; intros Hx; [by apply span_star_nil |].
  eapply span_star_cons; [done |]. apply IH. apply re_span_le in Hxy. lia.
Qed.

Lemma star_steps_upto (s : list byte) (a : re) (i j : nat) :
  re_span s (RStar a) i j -> steps_upto s a (j - i) i j.
Proof.
  remember (RStar a) as r eqn:Er. induction 1 as [| | | | |a' i Hi|a' i j k H1 _ H2 IH| |]; simplify_eq.
  - exists 0. split; [lia | constructor].
  - destruct (IH eq_refl) as (m & Hm & Hs). pose proof (re_span_le _ _ _ _ H1).
    pose proof (re_span_le _ _ _ _ H2).
    destruct (decide (i = j)) as [-> | Hne]; [by exists m |].
    exists (S m). split; [lia | by econstructor].
Qed.

Lemma inset_iter (s : list byte) (a : re) (v : list bool) (k j : nat) :
  (forall u j, length u = S (length s) -> inset (re_step s a u) j <-> exists i, inset u i /\ re_span s a i j) ->
  length v = S (length s) ->
  inset (Nat.iter k (fun u => zip_with orb u (re_step s a u)) v) j
  <-> exists i, inset v i /\ steps_upto s a k i j.
Proof.
  intros Ha Hv.
  assert (forall k, length (Nat.iter k (fun u => zip_with orb u (re_step s a u)) v) = S (length s)) as Hl.
  { intros m. apply star_iter_length; [| done]. intros u. apply re_step_length. }
  revert j. induction k as [|k IH]; intros j.
  - split; [intros H; exists j; split; [done | by exists 0; split; [lia | constructor]] |].
    intros (i & Hi & m & Hm & H). assert (m = 0) as -> by lia. by inversion H; subst.
  - rewrite Nat.iter_succ, inset_or by (rewrite re_step_length; apply Hl). rewrite Ha, IH by apply Hl. split.
    + intros [(i & Hi & m & Hm & H) | (x & Hx & Hs)]; [exists i; split; [done |]; exists m; split; [lia | done] |].
      apply IH in Hx as (i & Hi & m & Hm & H). exists i. split; [done |]. exists (S m). split; [lia |].
      by eapply nsteps_r.
    + intros (i & Hi & m & Hm & H). destruct (decide (m <= k)) as [Hle | Hgt].
      * left. exists i. split; [done |]. by exists m.
      * right. assert (m = S k) as -> by lia. apply nsteps_inv_r in H as (x & Hx & Hs).
        exists x. split; [| done]. apply IH. exists i. split; [done |]. by exists k.
Qed.

Lemma re_step_spec (s : list byte) (r : re) (v : list bool) (j : nat) :
  length v = S (length s) ->
  inset (re_step s r v) j <-> exists i, inset v i /\ re_span s r i j.
Proof.
  revert v j. induction r as [p| |a IHa b IHb|a IHa b IHb|a IHa| |]; intros v j Hv; cbn [re_step].
  - destruct j as [|j].
    { split; [done |]. intros (i & _ & H). by inversion H. }
    unfold inset. rewrite lookup_cons_ne_0 by done. cbn [Nat.pred]. rewrite lookup_zip_with. split.
    + destruct (s !! j) as [c|] eqn:Hc; [| done]. cbn. destruct (v !! j) as [b|] eqn:Hb; [| done]. cbn.
      intros E. apply (inj Some), andb_true_iff in E as [Hp ->]. exists j. split; [done |]. by econstructor.
    + intros (i & Hi & H). inversion H as [p' c i' Hc Hp| | | | | | | |]; subst. rewrite Hc, Hi. cbn. by rewrite Hp.
  - split; [intros H; exists j; split; [done |]; constructor; apply lookup_lt_Some in H; lia |].
    intros (i & Hi & H). by inversion H; subst.
  - rewrite IHb by (by apply re_step_length). setoid_rewrite IHa; [| done]. split.
    + intros (x & (i & Hi & H1) & H2). exists i. split; [done | by econstructor].
    + intros (i & Hi & H). inversion H; subst. eauto.
  - rewrite inset_or by (by rewrite !re_step_length). rewrite IHa, IHb by done. split.
    + intros [(i & Hi & H) | (i & Hi & H)]; exists i; (split; [done |]); [by apply span_alt_l | by apply span_alt_r].
    + intros (i & Hi & H). inversion H; subst; eauto.
  - rewrite inset_iter by done. split; intros (i & Hi & H); exists i; (split; [done |]).
    + apply lookup_lt_Some in Hi. eapply steps_upto_star; [lia | done].
    + pose proof (re_span_le _ _ _ _ H). apply star_steps_upto in H as (m & Hm & H). exists m. split; [lia | done].
  - rewrite inset_imap, Nat.eqb_eq. split; [intros [H ->]; exists 0; split; [done | constructor] |].
    intros (i & Hi & H). by inversion H; subst.
  - rewrite inset_imap, Nat.eqb_eq. split; [intros [H ->]; exists (length s); split; [done | constructor] |].
    intros (i & Hi & H). by inversion H; subst.
Qed.

Lemma inset_from (s : list byte) (i j : nat) : inset (re_from s i) j <-> i = j /\ j <= length s.
Proof.
  unfold inset, re_from. rewrite list_lookup_fmap. split.
  - destruct (seq 0 (S (length s)) !! j) as [k|] eqn:E; [| done]. apply lookup_seq in E as [-> Hj]. cbn.
    intros E. apply (inj Some), Nat.eqb_eq in E. lia.
  - intros [-> Hj]. rewrite lookup_seq_lt by lia. cbn. by rewrite Nat.eqb_refl.
Qed.

Lemma re_ends_spec (s : list byte) (r : re) (i j : nat) : In j (re_ends s r i) <-> re_span s r i j.
Proof.
  unfold re_ends. rewrite filter_In, in_seq.
  assert (length (re_from s i) = S (length s)) as Hl by (unfold re_from; by rewrite length_map, length_seq).
  assert (nth j (re_step s r (re_from s i)) false = true <-> inset (re_step s r (re_from s i)) j) as ->.
  { unfold inset. rewrite nth_lookup. destruct (_ !! j) as [b|]; cbn; naive_solver. }
  rewrite re_step_spec by done. setoid_rewrite inset_from. split.
  - intros (_ & k & (<- & _) & H). done.
  - intros H. pose proof (re_span_le _ _ _ _ H). split; [lia |]. exists i. split; [lia | done].
Qed.

Lemma re_spanb_spec (s : list byte) (r : re) (i j : nat) : re_spanb s r i j = true <-> re_span s r i j.
Proof.
  unfold re_spanb. rewrite existsb_exists, <- re_ends_spec. split.
  - intros (x & Hx & ->%Nat.eqb_eq). done.
  - intros H. exists j. split; [done | apply Nat.eqb_refl].
Qed.

Lemma re_ends_nonempty (s : list byte) (r : re) (i : nat) :
  nonempty (re_ends s r i) = true <-> exists j, re_span s r i j.
Proof.
  setoid_rewrite <- re_ends_spec. destruct (re_ends s r i) as [|j l]; cbn; [naive_solver |].
  split; [eauto | done].
Qed.

(** A match is found exactly when there is one. *)
Lemma regmatch_spec (r : re) (s : list byte) : regmatch r s = true <-> exists i j, re_span s r i j.
Proof.
  unfold regmatch. rewrite existsb_exists. setoid_rewrite re_ends_nonempty. split; [naive_solver |].
  intros (i & j & H). exists i. split; [| eauto]. apply in_seq. pose proof (re_span_le _ _ _ _ H). lia.
Qed.

(** ** What [regexec] finds *)

Lemma last_In {A} (l : list A) (d x : A) : In x l -> In (List.last l d) l.
Proof.
  revert x. induction l as [|y l IH]; intros x Hx; [destruct Hx |]. destruct l as [|z l]; [by left |].
  right. apply (IH z). by left.
Qed.

Lemma seq_ascending (i n : nat) : StronglySorted lt (seq i n).
Proof.
  revert i. induction n as [|n IH]; intros i; cbn; constructor; [done |].
  apply Forall_forall. intros x Hx%elem_of_seq. lia.
Qed.

Lemma filter_ascending (f : nat -> bool) (l : list nat) :
  StronglySorted lt l -> StronglySorted lt (List.filter f l).
Proof.
  induction 1 as [|x l Hl IH Hx]; cbn; [constructor |]. destruct (f x); [| done].
  constructor; [done |]. rewrite Forall_forall in Hx |- *. intros y Hy. apply Hx.
  apply list_elem_of_In in Hy. apply filter_In in Hy as [Hy _]. by apply list_elem_of_In.
Qed.

Lemma last_ascending (l : list nat) (d x : nat) :
  StronglySorted lt l -> In x l -> x <= List.last l d.
Proof.
  intros Hs. revert x. induction Hs as [|y l Hl IH Hy]; intros x Hx; [destruct Hx |].
  destruct l as [|z l]; [destruct Hx as [-> | []]; cbn; lia |].
  change (x <= List.last (z :: l) d). destruct Hx as [-> | Hx]; [| auto].
  rewrite Forall_forall in Hy. assert (In z (z :: l)) as Hz by (by left).
  specialize (IH z Hz). specialize (Hy z). assert (x < z); [apply Hy; by left | lia].
Qed.

Lemma find_first (f : nat -> bool) (i n : nat) :
  match List.find f (seq i n) with
  | Some k => f k = true /\ i <= k < i + n /\ forall k', i <= k' < k -> f k' = false
  | None => forall k, i <= k < i + n -> f k = false
  end.
Proof.
  revert i. induction n as [|n IH]; intros i; cbn [seq List.find]; [lia |].
  destruct (f i) eqn:Ei; [split_and!; [done | lia | lia | lia] |].
  specialize (IH (S i)). destruct (List.find f (seq (S i) n)) as [k|].
  - destruct IH as (Hk & Hr & Hn). split_and!; [done | lia | lia |]. intros k' Hk'.
    destruct (decide (k' = i)) as [-> | ?]; [done | apply Hn; lia].
  - intros k Hk. destruct (decide (k = i)) as [-> | ?]; [done | apply IH; lia].
Qed.

(** The longest of the ends that satisfy a test. *)
Lemma longest_end (s : list byte) (r : re) (f : nat -> bool) (i j : nat) :
  re_span s r i j -> f j = true ->
  let m := List.last (List.filter f (re_ends s r i)) 0 in
  re_span s r i m /\ f m = true /\ forall j', re_span s r i j' -> f j' = true -> j' <= m.
Proof.
  intros Hj Hf m. assert (In j (List.filter f (re_ends s r i))) as Hin.
  { apply filter_In. split; [by apply re_ends_spec | done]. }
  pose proof (last_In _ 0 j Hin) as Hm. apply filter_In in Hm as [Hm1 Hm2].
  apply re_ends_spec in Hm1. split_and!; [done | done |]. intros j' Hj' Hf'.
  apply last_ascending; [| apply filter_In; split; [by apply re_ends_spec | done]].
  apply filter_ascending. unfold re_ends. apply filter_ascending, seq_ascending.
Qed.

Lemma filter_true {A} (l : list A) : List.filter (fun _ => true) l = l.
Proof. induction l; cbn; by f_equal. Qed.

(** The split of a match that POSIX asks for: leftmost, longest, and earlier parts first. *)
Record found (pre grp post : re) (s : list byte) (i j so eo : nat) : Prop := Found {
  found_pre : re_span s pre i so;
  found_grp : re_span s grp so eo;
  found_post : re_span s post eo j;
  found_leftmost : forall i' j', re_span s (RCat pre (RCat grp post)) i' j' -> i <= i';
  found_longest : forall j', re_span s (RCat pre (RCat grp post)) i j' -> j' <= j;
  found_pre_longest : forall m, re_span s pre i m -> re_span s (RCat grp post) m j -> m <= so;
  found_grp_longest : forall m, re_span s grp so m -> re_span s post m j -> m <= eo;
}.

Lemma span_cat_inv (s : list byte) (a b : re) (i k : nat) :
  re_span s (RCat a b) i k <-> exists j, re_span s a i j /\ re_span s b j k.
Proof. split; [intros H; inversion H; subst; eauto | intros (j & Ha & Hb); by econstructor]. Qed.

Lemma regexec_spec (pre grp post : re) (s : list byte) :
  match regexec pre grp post s with
  | Some (so, eo) => exists i j, found pre grp post s i j so eo
  | None => forall i j, ~ re_span s (RCat pre (RCat grp post)) i j
  end.
Proof.
  unfold regexec. set (whole := RCat pre (RCat grp post)).
  pose proof (find_first (fun i => nonempty (re_ends s whole i)) 0 (S (length s))) as Hf.
  destruct (List.find _ _) as [i|].
  - destruct Hf as (Hi & Hr & Hmin). apply re_ends_nonempty in Hi as [j0 Hj0].
    destruct (longest_end s whole (fun _ => true) i j0 Hj0 eq_refl) as (Hj & _ & Hjmax).
    rewrite filter_true in Hj, Hjmax. set (j := List.last (re_ends s whole i) 0) in *.
    destruct (proj1 (span_cat_inv _ _ _ _ _) Hj) as (so0 & Hpre & Hgp).
    destruct (longest_end s pre (fun m => re_spanb s (RCat grp post) m j) i so0) as (Hso & Hgp' & Hsomax);
      [done | by apply re_spanb_spec |].
    set (so := List.last (List.filter _ (re_ends s pre i)) 0) in *. apply re_spanb_spec in Hgp'.
    destruct (proj1 (span_cat_inv _ _ _ _ _) Hgp') as (eo0 & Hgrp & Hpost).
    destruct (longest_end s grp (fun m => re_spanb s post m j) so eo0) as (Heo & Hpost' & Heomax);
      [done | by apply re_spanb_spec |].
    set (eo := List.last (List.filter _ (re_ends s grp so)) 0) in *. apply re_spanb_spec in Hpost'.
    exists i, j. constructor; [done | done | done | | auto | | ].
    + intros i' j' Hij'. pose proof (re_span_le _ _ _ _ Hij'). destruct (decide (i <= i')); [done |].
      assert (nonempty (re_ends s whole i') = true) as Hne by (apply re_ends_nonempty; eauto).
      rewrite Hmin in Hne by lia. done.
    + intros m Hm Hmg. apply Hsomax; [done | by apply re_spanb_spec].
    + intros m Hm Hmp. apply Heomax; [done | by apply re_spanb_spec].
  - intros i j Hij. pose proof (re_span_le _ _ _ _ Hij).
    assert (nonempty (re_ends s whole i) = true) as Hne by (apply re_ends_nonempty; eauto).
    rewrite Hf in Hne by lia. done.
Qed.

(** Where there is a match, [regexec] finds one. *)
Lemma regexec_some (pre grp post : re) (s : list byte) (i j : nat) :
  re_span s (RCat pre (RCat grp post)) i j ->
  exists i' j' so eo, regexec pre grp post s = Some (so, eo) /\ found pre grp post s i' j' so eo.
Proof.
  intros H. pose proof (regexec_spec pre grp post s) as Hs.
  destruct (regexec pre grp post s) as [[so eo]|]; [| by destruct (Hs i j)].
  destruct Hs as (i' & j' & Hs). by exists i', j', so, eo.
Qed.

(** ** Spans of the common expressions *)

Lemma span_byte (s : list byte) (p : byte -> bool) (i j : nat) :
  re_span s (RChar p) i j <-> j = S i /\ exists c, s !! i = Some c /\ p c = true.
Proof. split; [intros H; inversion H; subst; eauto | intros (-> & c & Hc & Hp); by econstructor]. Qed.

Lemma span_lit (s t : list byte) (i j : nat) :
  re_span s (RLit t) i j <-> i <= length s /\ j = i + length t /\ take (length t) (drop i s) = t.
Proof.
  revert i. induction t as [|c t IH]; intros i; cbn [RLit length take].
  - split; [intros H; inversion H; subst; split_and!; [done | lia | done] |].
    intros (Hi & -> & _). rewrite Nat.add_0_r. by constructor.
  - rewrite span_cat_inv. setoid_rewrite span_byte. setoid_rewrite IH. split.
    + intros (k & (-> & d & Hd & ->%byte_eqb_eq) & Hi & -> & Ht). split_and!; [lia | lia |].
      rewrite (drop_S _ _ _ Hd). cbn [firstn]. by rewrite Ht.
    + intros (Hi & -> & Ht). destruct (s !! i) as [d|] eqn:Hd.
      * rewrite (drop_S _ _ _ Hd) in Ht. cbn [firstn] in Ht. injection Ht as -> Ht.
        exists (S i). apply lookup_lt_Some in Hd as Hlt. split_and!; [done | | lia | lia | done].
        exists c. split; [done | apply byte_eqb_refl].
      * apply lookup_ge_None in Hd. rewrite drop_ge in Ht by done. done.
Qed.

Lemma span_star_class (s : list byte) (p : byte -> bool) (i j : nat) :
  re_span s (RStar (RChar p)) i j
  <-> i <= j <= length s /\ forall k c, i <= k < j -> s !! k = Some c -> p c = true.
Proof.
  split.
  - intros H. split; [by eapply re_span_le |]. remember (RStar (RChar p)) as r eqn:Er.
    induction H as [| | | | |a i Hi|a i j k H1 _ H2 IH| |]; simplify_eq; [intros; lia |].
    apply span_byte in H1 as (-> & c & Hc & Hp). intros m d Hm Hd.
    destruct (decide (m = i)) as [-> | ?]; [congruence | apply (IH eq_refl m); [lia | done]].
  - intros [Hij H]. remember (j - i) as n eqn:En. revert i Hij H En.
    induction n as [|n IH]; intros i Hij H En.
    + assert (j = i) as -> by lia. constructor. lia.
    + destruct (lookup_lt_is_Some_2 s i) as [c Hc]; [lia |].
      apply span_star_cons with (S i); [econstructor; [done | apply (H i); [lia | done]] |].
      apply IH; [lia | | lia]. intros k d Hk. apply H. lia.
Qed.

Lemma span_plus_class (s : list byte) (p : byte -> bool) (i j : nat) :
  re_span s (RPlus (RChar p)) i j
  <-> i < j <= length s /\ forall k c, i <= k < j -> s !! k = Some c -> p c = true.
Proof.
  unfold RPlus. rewrite span_cat_inv. setoid_rewrite span_byte. setoid_rewrite span_star_class. split.
  - intros (k & (-> & c & Hc & Hp) & Hk & H). split; [lia |]. intros m d Hm Hd.
    destruct (decide (m = i)) as [-> | ?]; [congruence | apply (H m); [lia | done]].
  - intros [Hij H]. exists (S i). destruct (lookup_lt_is_Some_2 s i) as [c Hc]; [lia |]. split_and!.
    + done.
    + exists c. split; [done | apply (H i); [lia | done]].
    + lia.
    + lia.
    + intros m d Hm. apply H. lia.
Qed.

Lemma span_upto_class (s : list byte) (p : byte -> bool) (m i j : nat) :
  re_span s (RUpTo m (RChar p)) i j
  <-> i <= j <= length s /\ j - i <= m /\ forall k c, i <= k < j -> s !! k = Some c -> p c = true.
Proof.
  revert i. induction m as [|m IH]; intros i; cbn [RUpTo].
  - split; [intros H; inversion H; subst; split_and!; [lia | lia | lia | intros; lia] |].
    intros (Hij & Hm & _). assert (j = i) as -> by lia. constructor. lia.
  - unfold ROpt. split.
    + intros H. pose proof (re_span_le _ _ _ _ H). inversion H as [| | |? ? ? ? H'|? ? ? ? H'| | | |]; subst.
      * apply span_cat_inv in H' as (k & H1 & H2). apply span_byte in H1 as (-> & c & Hc & Hp).
        apply IH in H2 as (Hk & Hm & H2). split_and!; [lia | lia | lia |]. intros n d Hn Hd.
        destruct (decide (n = i)) as [-> | ?]; [congruence | apply (H2 n); [lia | done]].
      * inversion H'; subst. split_and!; [lia | lia | lia | intros; lia].
    + intros (Hij & Hm & H). destruct (decide (i = j)) as [-> | Hne].
      { apply span_alt_r. constructor. lia. }
      apply span_alt_l. destruct (lookup_lt_is_Some_2 s i) as [c Hc]; [lia |].
      apply span_cat with (S i); [econstructor; [done | apply (H i); [lia | done]] |].
      apply IH. split_and!; [lia | lia | lia |]. intros k d Hk. apply H. lia.
Qed.

Lemma span_rep1_class (s : list byte) (p : byte -> bool) (m i j : nat) :
  re_span s (RRep1 m (RChar p)) i j
  <-> i < j <= length s /\ j - i <= S m /\ forall k c, i <= k < j -> s !! k = Some c -> p c = true.
Proof.
  unfold RRep1. rewrite span_cat_inv. setoid_rewrite span_byte. setoid_rewrite span_upto_class. split.
  - intros (k & (-> & c & Hc & Hp) & Hk & Hm & H). split_and!; [lia | lia | lia |]. intros n d Hn Hd.
    destruct (decide (n = i)) as [-> | ?]; [congruence | apply (H n); [lia | done]].
  - intros (Hij & Hm & H). exists (S i). destruct (lookup_lt_is_Some_2 s i) as [c Hc]; [lia |]. split_and!.
    + done.
    + exists c. split; [done | apply (H i); [lia | done]].
    + lia.
    + lia.
    + lia.
    + intros n d Hn. apply H. lia.
Qed.

Lemma span_eol_inv (s : list byte) (i j : nat) : re_span s REol i j <-> i = length s /\ j = length s.
Proof. split; [intros H; inversion H; done | intros [-> ->]; constructor]. Qed.

Lemma span_bol_inv (s : list byte) (i j : nat) : re_span s RBol i j <-> i = 0 /\ j = 0.
Proof. split; [intros H; inversion H; done | intros [-> ->]; constructor]. Qed.

Lemma span_opt_inv (s : list byte) (a : re) (i j : nat) :
  re_span s (ROpt a) i j <-> re_span s a i j \/ (i = j /\ i <= length s).
Proof.
  split; [intros H; inversion H as [| | |? ? ? ? H'|? ? ? ? H'| | | |]; subst; [by left |]; inversion H'; subst; by right |].
  intros [H | [-> H]]; [by apply span_alt_l | apply span_alt_r; by constructor].
Qed.
