(* ===== verification/AndroidShell.v ===== *)
(** * Commands and their output (wg-quick/android.c)

    awg-quick for Android is "a shell script written in C": it runs commands, reads what they
    print, and leaves the process at the first failure.  [Phone] is what it runs on: the
    commands and their answers, the files, the environment, and the binder library.  A
    function of the program is a [M], a state transformer that may leave the process; its
    state keeps the static variables of the file and a record of everything done to the
    phone. *)

From S2P Require Import Prelude CString.
#[local] Open Scope Z_scope.

(** ** Numbers *)

Definition strtol `{Platform} (base : Z) (s : list byte) : Z * list byte :=
  match strto_scan base s with
  | None => (0, s)
  | Some (neg, v, rest) =>
      let v := if neg then - v else v in
      (Z.max (- 2 ^ (ulong_bits - 1)) (Z.min (2 ^ (ulong_bits - 1) - 1) v), rest)
  end.

(** The conversion to [int]. *)
Definition s32 (z : Z) : Z := (z + 2 ^ 31) mod 2 ^ 32 - 2 ^ 31.

Definition atoi `{Platform} (s : list byte) : Z := s32 (fst (strtol 10 s)).

(** The successive results of [strtok] with a set of delimiters: the longest runs of other
    characters. *)
Fixpoint strtok_from (delim : byte -> bool) (cur s : list byte) : list (list byte) :=
  match s with
  | [] => match cur with [] => [] | _ => [cur] end
  | c :: s' =>
      if delim c then match cur with [] => strtok_from delim [] s' | _ => cur :: strtok_from delim [] s' end
      else strtok_from delim (cur ++ [c]) s'
  end.
Definition strtok (delims : list byte) (s : list byte) : list (list byte) :=
  strtok_from (fun c => has_byte c delims) [] s.

(** ** Error numbers *)

Definition ESRCH : Z := 3.
Definition EIO : Z := 5.
Definition EEXIST : Z := 17.
Definition EINVAL : Z := 22.
Definition ENOSYS : Z := 38.
Definition EBADR : Z := 53.
Definition ENONET : Z := 64.
Definition ELIBACC : Z := 79.
Definition EMEDIUMTYPE : Z := 124.

(** The status of a process, as [waitpid] encodes it. *)
Definition WIFEXITED (status : Z) : bool := Z.land status 127 =? 0.
Definition WEXITSTATUS (status : Z) : Z := Z.land (Z.shiftr status 8) 255.

(** ** The phone *)

(** A file opened for reading: what [getline] gives, and the error of [fstat], 0 for none. *)
Record file := File {
  f_content : list byte;
  f_fstat : Z;
}.

(** A command fed through a pipe: it could not be started, its input could not be written, or
    it ended with a status. *)
Inductive fed : Type :=
| FeedNoProcess (errno : Z)
| FeedNoWrite (errno : Z)
| FeedDone (status : Z).

Class Phone := {
  world : Type;
  (** [system(3)]. *)
  ph_system : list byte -> world -> Z * world;
  (** A command started by [popen(cmd, "r")]: the error of [popen], or what it prints and
      the error that ends the reading, 0 at the end of the output. *)
  ph_popen : list byte -> world -> (Z + list byte * Z) * world;
  ph_feed : list byte -> list byte -> world -> fed * world;
  ph_fopen : list byte -> world -> Z + file;
  ph_getenv : list byte -> option (list byte);
  ph_property : list byte -> option (list byte);
  ph_getuid : Z;
  (** The error of [execvp]; [None] when the process is replaced. *)
  ph_execvp : list (list byte) -> world -> option Z;
  (** The results of [random()] after [srandom]. *)
  ph_random : world -> nat -> Z;
  (** What follows the end of a string in memory. *)
  ph_heap : list byte -> list byte;

  (** libbinder_ndk.so: which symbols it has, when it is there. *)
  ph_binder : option (list byte -> bool);
  parcel : Type;
  status : Type;
  AServiceManager_getService : list byte -> world -> bool;
  AIBinder_Class_define : list byte -> world -> bool;
  AIBinder_associateClass : world -> bool;
  AIBinder_prepareTransaction : world -> Z * parcel;
  AIBinder_transact : Z -> parcel -> world -> (Z * parcel) * world;
  AParcel_writeInt32 : parcel -> Z -> Z * parcel;
  AParcel_writeString : parcel -> option (list byte) -> Z -> Z * parcel;
  AParcel_writeStringArray : parcel -> Z -> (nat -> option (list byte) * Z) -> Z * parcel;
  AParcel_getDataPosition : parcel -> Z;
  AParcel_setDataPosition : parcel -> Z -> Z * parcel;
  AParcel_readStatusHeader : parcel -> Z * status;
  AStatus_isOk : status -> bool;
  AStatus_getExceptionCode : status -> Z;
  AStatus_getStatus : status -> Z;
}.

(** What POSIX says of errors and statuses: a call that fails sets a nonzero [errno], and
    [system] and [pclose] return -1 or the status of a process that exited with a code or
    was killed by a signal, perhaps with a core dump. *)
Definition wait_status (z : Z) : Prop :=
  z = -1 \/ (exists code, 0 <= code < 256 /\ z = code * 256)
  \/ (exists signal core, 1 <= signal <= 126 /\ 0 <= core <= 1 /\ z = core * 128 + signal).

Class PhoneLaws (P : Phone) := {
  system_status : forall cmd w, wait_status (fst (ph_system cmd w));
  popen_errno : forall cmd w e, fst (ph_popen cmd w) = inl e -> e <> 0;
  feed_errno : forall cmd input w e, fst (ph_feed cmd input w) = FeedNoProcess e -> e <> 0;
  feed_write_errno : forall cmd input w e, fst (ph_feed cmd input w) = FeedNoWrite e -> e <> 0;
  feed_status : forall cmd input w z, fst (ph_feed cmd input w) = FeedDone z -> wait_status z;
  fopen_errno : forall path w e, ph_fopen path w = inl e -> e <> 0;
  execvp_errno : forall args w e, ph_execvp args w = Some e -> e <> 0;
}.

(** ** Programs *)

Section Shell.
Context `{Platform} `{Phone}.

(** What the program does to the phone, in order. *)
Inductive event : Type :=
| Printed (line : list byte)
| Ran (cmd : list byte)
| Opened (cmd : list byte)
| Fed (cmd input : list byte)
| Transacted (code : Z) (data : parcel).

Record st := St {
  st_world : world;
  st_trace : list event;
  is_exiting : bool;
  binder_available : bool;
  sdk_version : Z;
  is_awg_on : bool;
  cleanup_iface : option (list byte);
  cleanup_registered : bool;
}.

#[export] Instance st_eta : Eta st :=
  fun s => St (st_world s) (st_trace s) (is_exiting s) (binder_available s) (sdk_version s)
              (is_awg_on s) (cleanup_iface s) (cleanup_registered s).

(** How a call ends: it returns, it calls [exit], the process becomes another program, the
    program reads or writes where it must not, or it draws random numbers for longer than
    the fuel. *)
Inductive res (A : Type) : Type :=
| Ret (a : A)
| Exit (code : Z)
| Replaced (args : list (list byte))
| Undefined
| Spinning.
Arguments Ret {A} a.
Arguments Exit {A} code.
Arguments Replaced {A} args.
Arguments Undefined {A}.
Arguments Spinning {A}.

Definition M (A : Type) : Type := st -> res A * st.

#[export] Instance M_ret : MRet M := fun A a s => (Ret a, s).
#[export] Instance M_bind : MBind M := fun A B k m s =>
  match m s with
  | (Ret a, s') => k a s'
  | (Exit code, s') => (Exit code, s')
  | (Replaced args, s') => (Replaced args, s')
  | (Undefined, s') => (Undefined, s')
  | (Spinning, s') => (Spinning, s')
  end.

#[local] Open Scope awg_scope.

Definition exit {A} (code : Z) : M A := fun s => (Exit code, s).
Definition undefined {A} : M A := fun s => (Undefined, s).
Definition get {A} (f : st -> A) : M A := fun s => (Ret (f s), s).
Definition put (f : st -> st) : M unit := fun s => (Ret tt, f s).
Definition emit (e : event) : M unit := put (fun s => s <| st_trace ::= fun t => t ++ [e] |>).

(** A pointer that is dereferenced. *)
Definition deref {A} (p : option A) : M A := match p with Some a => mret a | None => undefined end.

(** A call that changes the phone. *)
Definition on_world {A} (f : world -> A * world) : M A := fun s =>
  let '(a, w) := f (st_world s) in (Ret a, s <| st_world := w |>).

Definition printf (line : list byte) : M unit := emit (Printed line).

(** The commands a record shows started for reading, and those run. *)
Definition opened (t : list event) : list (list byte) :=
  flat_map (fun e => match e with Opened c => [c] | _ => [] end) t.
Definition ran (t : list event) : list (list byte) :=
  flat_map (fun e => match e with Ran c => [c] | _ => [] end) t.

(** ** Running commands *)

(** The lines of a started command that are still to be read, and the error at the end. *)
Definition stream : Type := list (list byte) * Z.

Definition popen (cmd : list byte) : M stream :=
  emit (Opened cmd);;
  r ← on_world (ph_popen cmd);
  match r with
  | inl errno => exit errno
  | inr (out, errno) => mret (map c_str (getlines out), errno)
  end.

Definition getline (s : stream) : M (option (list byte) * stream) :=
  match s with
  | (l :: ls, errno) => mret (Some l, (ls, errno))
  | ([], errno) => if errno =? 0 then mret (None, s) else exit errno
  end.

(** [struct command_buffer]; the buffer of the line is the result of the calls. *)
Definition command_buffer : Type := option stream.

Definition vcmd_ret (c : command_buffer) (cmd : option (list byte)) :
    M (option (list byte) * command_buffer) :=
  match cmd with
  | Some cmd =>
      s ← popen cmd; '(l, s) ← getline s; mret (l, Some s)
  | None =>
      match c with
      | None => mret (None, None)
      | Some s => '(l, s) ← getline s; mret (l, Some s)
      end
  end.

(** [cmd_ret] of a fresh buffer: the first line. *)
Definition cmd_ret (cmd : list byte) : M (option (list byte)) :=
  '(l, _) ← vcmd_ret None (Some cmd); mret l.

(** [for (l = cmd_ret(&c, cmd); l; l = cmd_ret(&c, NULL)) body], where the body updates [a]
    and says whether to break. *)
Fixpoint lines_loop {A} (body : list byte -> A -> M (A * bool)) (ls : list (list byte)) (errno : Z) (a : A) : M A :=
  match ls with
  | [] => '(_, _) ← getline ([], errno); mret a
  | l :: ls' =>
      '(a, stop) ← body l a;
      if (stop : bool) then mret a else lines_loop body ls' errno a
  end.

Definition for_lines {A} (cmd : list byte) (body : list byte -> A -> M (A * bool)) (a : A) : M A :=
  '(ls, errno) ← popen cmd; lines_loop body ls errno a.

(** A loop over the tokens of [strtok]. *)
Fixpoint for_each {A} (body : A -> M unit) (l : list A) : M unit :=
  match l with
  | [] => mret tt
  | x :: l' => body x;; for_each body l'
  end.

Definition cmd (c : list byte) : M unit :=
  printf (text "[#] " ++ c ++ [x0a]);;
  emit (Ran c);;
  ret ← on_world (ph_system c);
  let ret := if ret <? 0 then ESRCH
             else if 0 <? ret then (if WIFEXITED ret then WEXITSTATUS ret else EIO) else 0 in
  exiting ← get is_exiting;
  if negb (ret =? 0) && negb exiting then exit ret else mret tt.

Definition cndc (c : list byte) : M unit :=
  let ndc := text "ndc " ++ c in
  printf (text "[#] " ++ ndc ++ [x0a]);;
  ret ← cmd_ret ndc;
  match ret with
  | None => exit ENOSYS
  | Some ret =>
      let error_code := atoi ret in
      if (400 <=? error_code) && (error_code <? 600) then exit ENONET else mret tt
  end.
End Shell.
Arguments Ret {A} a.
Arguments Exit {A} code.
Arguments Replaced {A} args.
Arguments Undefined {A}.
Arguments Spinning {A}.
#[export] Existing Instances st_eta M_ret M_bind.

(** [concat_and_free]: a list joined by a delimiter, one element at a time. *)
Definition concat_and_free (orig : option (list byte)) (delim new_line : list byte) : option (list byte) :=
  match orig with
  | None => Some new_line
  | Some o => Some (o ++ delim ++ new_line)
  end.

(** ** Equations of the monad *)

Section Equations.
Context {P : Phone}.

Lemma bind_put {A} (f : st -> st) (k : unit -> M A) (s : st) : (put f ≫= k) s = k tt (f s).
Proof. done. Qed.

Lemma bind_get {A B} (f : st -> A) (k : A -> M B) (s : st) : (get f ≫= k) s = k (f s) s.
Proof. done. Qed.

Lemma bind_ret {A B} (a : A) (k : A -> M B) : (mret a ≫= k) = k a.
Proof. done. Qed.

Lemma bind_exit {A B} (code : Z) (k : A -> M B) (s : st) : (exit code ≫= k) s = (Exit code, s).
Proof. done. Qed.

Lemma bind_eq {A B} (m : M A) (k : A -> M B) (s s' : st) (a : A) :
  m s = (Ret a, s') -> (m ≫= k) s = k a s'.
Proof. intros E. unfold mbind, M_bind. by rewrite E. Qed.

Lemma bind_ext {A B} (m : M A) (k k' : A -> M B) (s : st) :
  (forall a s', m s = (Ret a, s') -> k a s' = k' a s') -> (m ≫= k) s = (m ≫= k') s.
Proof. intros Hk. unfold mbind, M_bind. destruct (m s) as [[a|code|args| |] s']; auto. Qed.
End Equations.
