(* ===== verification/AndroidBinder.v ===== *)
(** * The DNS resolver service (wg-quick/android.c)

    Where the phone has libbinder_ndk.so, awg-quick sets the DNS servers through the service
    "dnsresolver".  A call is a parcel of integers and strings; the parcel of
    [setResolverConfiguration] holds a structure that starts with its own size, written after
    the rest. *)

From S2P Require Import Prelude CString AndroidShell.
#[local] Open Scope Z_scope.
#[local] Open Scope awg_scope.

Definition STATUS_OK : Z := 0.
Definition STATUS_UNKNOWN_ERROR : Z := -2147483647 - 1.
Definition STATUS_FAILED_TRANSACTION : Z := STATUS_UNKNOWN_ERROR + 2.
Definition EX_TRANSACTION_FAILED : Z := -129.
Definition FIRST_CALL_TRANSACTION : Z := 1.

Definition DNSRESOLVER_SAMPLE_VALIDITY : Z := 1800.
Definition DNSRESOLVER_SUCCESS_THRESHOLD : Z := 25.
Definition DNSRESOLVER_MIN_SAMPLES : Z := 8.
Definition DNSRESOLVER_MAX_SAMPLES : Z := 8.
Definition DNSRESOLVER_BASE_TIMEOUT : Z := 5000.
Definition DNSRESOLVER_RETRY_COUNT : Z := 2.

(** The names [load_symbols] imports. *)
Definition binder_symbols : list (list byte) := map text
  [ "AIBinder_Class_define"; "AIBinder_associateClass"; "AIBinder_decStrong";
    "AIBinder_prepareTransaction"; "AIBinder_transact"; "AIBinder_ping"; "AIBinder_dump";
    "AParcel_readStatusHeader"; "AParcel_readBool"; "AParcel_delete"; "AParcel_setDataPosition";
    "AParcel_getDataPosition"; "AParcel_writeInt32"; "AParcel_writeStringArray";
    "AParcel_writeString"; "AStatus_isOk"; "AStatus_delete"; "AStatus_getExceptionCode";
    "AStatus_getServiceSpecificError"; "AStatus_getMessage"; "AStatus_getStatus";
    "AServiceManager_getService" ]%string.

(** An array of strings that ends with a null pointer is the list of its strings. *)
Record dnsresolver_params := DnsresolverParams {
  netid : Z;
  sample_validity_seconds : Z;
  success_threshold : Z;
  min_samples : Z;
  max_samples : Z;
  base_timeout_msec : Z;
  retry_count : Z;
  servers : option (list (list byte));
  domains : option (list (list byte));
  tls_name : option (list byte);
  tls_servers : option (list (list byte));
  tls_fingerprints : option (list (list byte));
}.

Definition string_size (str : option (list byte)) : Z :=
  match str with Some s => s32 (Z.of_nat (length s)) | None => -1 end.

Definition string_array_size (array : option (list (list byte))) : Z :=
  match array with Some a => s32 (Z.of_nat (length a)) | None => -1 end.

Definition string_array_getter (array : option (list (list byte))) (index : nat) : option (list byte) * Z :=
  match match array with Some a => nth_error a index | None => None end with
  | Some s => (Some s, s32 (Z.of_nat (length s)))
  | None => (None, -1)
  end.

Section Binder.
Context `{Platform} `{Phone}.

Definition load_symbols : M unit :=
  match ph_binder with
  | None => put (fun s => s <| binder_available := false |>)
  | Some has_symbol =>
      put (fun s => s <| binder_available := true |>);;
      if forallb has_symbol binder_symbols then mret tt else exit ELIBACC
  end.

Definition meaningful_binder_status (status_out : status) : Z :=
  if AStatus_isOk status_out then STATUS_OK
  else if AStatus_getExceptionCode status_out =? EX_TRANSACTION_FAILED
  then AStatus_getStatus status_out
  else STATUS_FAILED_TRANSACTION.

(** [status = f(...); if (status != STATUS_OK) return status;]. *)
Definition checked {A} (r : Z * A) (k : A -> M Z) : M Z :=
  let '(status, a) := r in if status =? STATUS_OK then k a else mret status.
#[local] Notation "'ok!' x ':=' r 'in' k" := (checked r (fun x => k))
  (at level 10, x binder, r at level 100, k at level 200).

Definition dnsresolver_get_handle : M bool :=
  available ← get binder_available;
  if (available : bool) then
    w ← get st_world;
    mret (AServiceManager_getService (text "dnsresolver") w
          && AIBinder_Class_define (text "android.net.IDnsResolver") w
          && AIBinder_associateClass w)
  else mret false.

Definition transact (code : Z) (p : parcel) : M (Z * parcel) :=
  emit (Transacted code p);; on_world (AIBinder_transact code p).

Definition dnsresolver_create_network_cache (netid : Z) : M Z :=
  w ← get st_world;
  ok! p := AIBinder_prepareTransaction w in
  ok! p := AParcel_writeInt32 p netid in
  r ← transact (FIRST_CALL_TRANSACTION + 7) p;
  ok! out := r in
  ok! status_out := AParcel_readStatusHeader out in
  if negb (AStatus_isOk status_out) then mret (meaningful_binder_status status_out)
  else mret STATUS_OK.

Definition write_strings (p : parcel) (array : option (list (list byte))) : Z * parcel :=
  AParcel_writeStringArray p (string_array_size array) (string_array_getter array).

Definition dnsresolver_set_resolver_configuration (params : dnsresolver_params) : M Z :=
  w ← get st_world;
  ok! p := AIBinder_prepareTransaction w in
  ok! p := AParcel_writeInt32 p 1 in
  let start_position := AParcel_getDataPosition p in
  ok! p := AParcel_writeInt32 p 0 in
  ok! p := AParcel_writeInt32 p (netid params) in
  ok! p := AParcel_writeInt32 p (sample_validity_seconds params) in
  ok! p := AParcel_writeInt32 p (success_threshold params) in
  ok! p := AParcel_writeInt32 p (min_samples params) in
  ok! p := AParcel_writeInt32 p (max_samples params) in
  ok! p := AParcel_writeInt32 p (base_timeout_msec params) in
  ok! p := AParcel_writeInt32 p (retry_count params) in
  ok! p := write_strings p (servers params) in
  ok! p := write_strings p (domains params) in
  ok! p := AParcel_writeString p (tls_name params) (string_size (tls_name params)) in
  ok! p := write_strings p (tls_servers params) in
  ok! p := write_strings p (tls_fingerprints params) in
  let end_position := AParcel_getDataPosition p in
  ok! p := AParcel_setDataPosition p start_position in
  ok! p := AParcel_writeInt32 p (s32 (end_position - start_position)) in
  ok! p := AParcel_setDataPosition p end_position in
  r ← transact (FIRST_CALL_TRANSACTION + 2) p;
  ok! out := r in
  ok! status_out := AParcel_readStatusHeader out in
  mret (meaningful_binder_status status_out).
End Binder.
