(* ===== verification/Android.v ===== *)
(** * awg-quick for Android (wg-quick/android.c)

    The patterns, the reader of the configuration file ([parse_options]), and the functions
    that create, configure and delete an interface and select the users of the tunnel, each
    as the source composes them.  The commands built from them are in AndroidUp.v. *)

From S2P Require Import Prelude CString CSort Regex AndroidShell AndroidBinder.
#[local] Open Scope Z_scope.
#[local] Open Scope awg_scope.

(** ** Patterns *)

Definition in_range (lo hi c : byte) : bool := (b2z lo <=? b2z c) && (b2z c <=? b2z hi).
Definition is_digit (c : byte) : bool := in_range "0" "9" c.
Definition is_lower_hex (c : byte) : bool := is_digit c || in_range "a" "f" c.

(** [[a-zA-Z0-9_=+.-]]. *)
Definition iface_char (c : byte) : bool :=
  in_range "a" "z" c || in_range "A" "Z" c || is_digit c || has_byte c (text "_=+.-").

(** The end of a pattern that is an interface name put in unchanged: a period is any
    character, and a plus repeats the character before it, [last] at the beginning.  Two
    pluses in a row are not a pattern. *)
Fixpoint name_pattern (last : re) (repeated : bool) (name : list byte) : option re :=
  match name with
  | [] => Some last
  | c :: name' =>
      if Byte.eqb c "+" then if repeated then None else name_pattern (RPlus last) true name'
      else match name_pattern (if Byte.eqb c "." then RAny else RByte c) false name' with
           | Some r => Some (RCat last r)
           | None => None
           end
  end.

(** A pattern with one group. *)
Record pattern := Pattern {
  p_pre : re;
  p_grp : re;
  p_post : re;
}.
Definition pattern_sub (p : pattern) (s : list byte) : option (list byte) :=
  regexec_sub (p_pre p) (p_grp p) (p_post p) s.

(** ["0xc([0-9a-f]+)/0xcffff lookup NAME"]. *)
Definition rule_regex (name : re) : pattern :=
  Pattern (RLit (text "0xc")) (RPlus (RChar is_lower_hex)) (RCat (RLit (text "/0xcffff lookup")) name).

Definition double_quote : byte := x22.
Definition line_feed : byte := x0a.

(** The rules that carry the comment of the interface; the group is all after "-A ", up to
    the newlines at the end. *)
Definition iptables_regex (name : re) : pattern :=
  Pattern (RCat RBol (RLit (text "-A ")))
    (RCat (RStar RAny) (RCat (RLit (text " --comment " ++ [double_quote] ++ text "amneziawg rule"))
      (RCat name (RCat (RByte double_quote) (RStar (RChar (fun c => negb (Byte.eqb c line_feed))))))))
    (RCat (RStar (RByte line_feed)) REol).

(** ["(^[0-9.]+$)|(^.*:.*$)"]. *)
Definition regex_ipnothost : re :=
  RAlt (RCat RBol (RCat (RPlus (RChar (fun c => is_digit c || Byte.eqb c "."))) REol))
    (RCat RBol (RCat (RStar RAny) (RCat (RByte ":") (RCat (RStar RAny) REol)))).

(** ["mtu ([0-9]+)"] and ["dev ([^ ]+)"]. *)
Definition regex_mtu : pattern := Pattern (RLit (text "mtu ")) (RPlus (RChar is_digit)) REps.
Definition regex_dev : pattern :=
  Pattern (RLit (text "dev ")) (RPlus (RChar (fun c => negb (Byte.eqb c " ")))) REps.

(** ["^\[?([a-z0-9:.]+)\]?:[0-9]+$"]. *)
Definition endpoint_char (c : byte) : bool :=
  in_range "a" "z" c || is_digit c || has_byte c (text ":.").
Definition regex_endpoint : pattern :=
  Pattern (RCat RBol (ROpt (RByte "["))) (RPlus (RChar endpoint_char))
    (RCat (ROpt (RByte "]")) (RCat (RByte ":") (RCat (RPlus (RChar is_digit)) REol))).

(** ["^[a-zA-Z0-9_=+.-]{1,15}$"] and ["/?([a-zA-Z0-9_=+.-]{1,15})\.conf$"]. *)
Definition regex_iface : re := RCat RBol (RCat (RRep1 14 (RChar iface_char)) REol).
Definition regex_conf : pattern :=
  Pattern (ROpt (RByte "/")) (RRep1 14 (RChar iface_char)) (RCat (RLit (text ".conf")) REol).

(** ** The configuration file *)

Definition AWG_PACKAGE_NAME : list byte := text "org.amnezia.awg".
Definition AWG_CONFIG_SEARCH_PATHS : list byte :=
  text "/data/misc/amneziawg /data/data/" ++ AWG_PACKAGE_NAME ++ text "/files".

(** What [parse_options] fills in; a missing string is a null pointer. *)
Record options := Options {
  o_iface : list byte;
  o_config : option (list byte);
  o_mtu : Z;
  o_addrs : option (list byte);
  o_dnses : option (list byte);
  o_excluded : option (list byte);
  o_included : option (list byte);
}.

(** The variables of the loop over the lines. *)
Record reader := Reader {
  r_in_interface : bool;
  r_config : option (list byte);
  r_mtu : Z;
  r_addrs : option (list byte);
  r_dnses : option (list byte);
  r_excluded : option (list byte);
  r_included : option (list byte);
  r_awg : bool;
}.
#[export] Instance reader_eta : Eta reader :=
  fun r => Reader (r_in_interface r) (r_config r) (r_mtu r) (r_addrs r) (r_dnses r)
                  (r_excluded r) (r_included r) (r_awg r).

(** [!strncasecmp(clean, key, strlen(key)) && j > least]. *)
Definition has_key (clean : list byte) (key : string) (least : nat) : bool :=
  strncasecmp_eq clean (text key) (length (text key)) && (least <? length clean)%nat.

(** The keys that turn on the userspace daemon. *)
Definition awg_keys : list (string * nat) :=
  [ ("Jc=", 4); ("Jmin=", 4); ("Jmax=", 4); ("S1=", 4); ("S2=", 4); ("S3=", 4); ("S4=", 4);
    ("H1=", 4); ("H2=", 4); ("H3=", 4); ("H4=", 4); ("I1=", 4); ("I2=", 2); ("I3=", 2);
    ("I4=", 2); ("I5=", 2) ]%string%nat.

Definition has_awg_key (clean : list byte) : bool :=
  existsb (fun '(key, least) => has_key clean key least) awg_keys.

Definition strip (line : list byte) : list byte := List.filter (fun c => negb (c_isspace c)) line.

Definition section_after (in_interface : bool) (clean : list byte) : bool :=
  let in_interface := if Byte.eqb (byte_at clean 0) "[" then false else in_interface in
  if strcasecmp_eq clean (text "[Interface]") then true else in_interface.

Section Android.
Context `{Platform} `{Phone} `{CSort}.

Definition reader_line (r : reader) (line : list byte) : reader :=
  let clean := strip line in
  let r := r <| r_in_interface ::= fun i => section_after i clean |> in
  let keep r := r <| r_config ::= fun c => concat_and_free c [] line |> in
  if r_in_interface r then
    if has_key clean "Address=" 8 then r <| r_addrs ::= fun a => concat_and_free a (text ",") (drop 8 clean) |>
    else if has_key clean "DNS=" 4 then r <| r_dnses ::= fun a => concat_and_free a (text ",") (drop 4 clean) |>
    else if has_key clean "ExcludedApplications=" 4 then
      r <| r_excluded ::= fun a => concat_and_free a (text ",") (drop 21 clean) |>
    else if has_key clean "IncludedApplications=" 4 then
      r <| r_included ::= fun a => concat_and_free a (text ",") (drop 21 clean) |>
    else if has_key clean "MTU=" 4 then r <| r_mtu := u32 (atoi (drop 4 clean)) |>
    else if has_awg_key clean then keep (r <| r_awg := true |>)
    else keep r
  else keep r.

(** The loop; [false] when a line of more than 2^16 characters makes the function return. *)
Fixpoint reader_lines (r : reader) (lines : list (list byte)) : reader * bool :=
  match lines with
  | [] => (r, true)
  | line :: lines' =>
      if 2 ^ 16 <? Z.of_nat (length line) then (r, false) else reader_lines (reader_line r line) lines'
  end.

Definition conf_path (path arg : list byte) : list byte := path ++ text "/" ++ arg ++ text ".conf".

(** The first search path with a file for the interface, or the last error. *)
Fixpoint search_conf (arg : list byte) (paths : list (list byte)) (errno : Z) (w : world) :
    Z + list byte * file :=
  match paths with
  | [] => inl errno
  | path :: paths' =>
      match ph_fopen (conf_path path arg) w with
      | inl e => search_conf arg paths' e w
      | inr f => inr (conf_path path arg, f)
      end
  end.

Definition open_conf (arg : list byte) (w : world) : Z + list byte * file :=
  if regmatch regex_iface arg then search_conf arg (strtok (text " ") AWG_CONFIG_SEARCH_PATHS) 0 w
  else match ph_fopen arg w with inl e => inl e | inr f => inr (arg, f) end.

Definition reader_start : reader := Reader false None 0 None None None None false.

Definition parse_options (arg : list byte) : M options :=
  w ← get st_world;
  match open_conf arg w with
  | inl errno => exit errno
  | inr (filename, f) =>
      match pattern_sub regex_conf filename with
      | None => exit EINVAL
      | Some iface =>
          if negb (f_fstat f =? 0) then exit (f_fstat f)
          else
            let '(r, complete) := reader_lines reader_start (map c_str (getlines (f_content f))) in
            put (fun s => s <| is_awg_on ::= fun b => b || r_awg r |>);;
            let or_empty s := if complete then Some (default [] s) else s in
            mret (Options iface (or_empty (r_config r)) (r_mtu r) (or_empty (r_addrs r))
                    (or_empty (r_dnses r)) (r_excluded r) (r_included r))
      end
  end.

(** ** The interface *)

Definition add_if (iface : list byte) : M unit :=
  awg ← get is_awg_on;
  if (awg : bool) then cmd (text "amneziawg-go " ++ iface)
  else cmd (text "ip link add " ++ iface ++ text " type amneziawg").

(** Deletes the rules of one table that carry the comment of the interface. *)
Definition del_rules (iptables_reg : pattern) (save tool : list byte) : M unit :=
  for_lines save (fun rule _ =>
    match pattern_sub iptables_reg rule with
    | Some spec => cmd (tool ++ text " -D " ++ spec);; mret (tt, false)
    | None => mret (tt, false)
    end) tt.

(** What [del_if] does after the interface is gone. *)
Definition del_rest (name : re) : M unit :=
  del_rules (iptables_regex name) (text "iptables-save") (text "iptables");;
  del_rules (iptables_regex name) (text "ip6tables-save") (text "ip6tables");;
  netid ← for_lines (text "ip rule show") (fun rule found =>
    match pattern_sub (rule_regex name) rule with
    | Some netid => mret (Some netid, true)
    | None => mret (found, false)
    end) None;
  match netid with
  | Some netid => cndc (text "network destroy " ++ print_u (fst (strtoul 16 netid)))
  | None => mret tt
  end.

Definition del_if (iface : list byte) : M unit :=
  match name_pattern (RByte " ") false iface with
  | None => exit EBADR
  | Some name => cmd (text "ip link del " ++ iface);; del_rest name
  end.

Definition should_block_ipv6 (iface : list byte) : M bool :=
  '(has_ipv6, has_all_none) ← for_lines (text "awg show " ++ iface ++ text " endpoints")
    (fun endpoint '(has_ipv6, has_all_none) =>
       match snd (strsep x09 endpoint) with
       | None => mret (has_ipv6, has_all_none, false)
       | Some start =>
           mret (if Byte.eqb (byte_at start 0) "[" then true else has_ipv6,
                 if Byte.eqb (byte_at start 0) "(" then has_all_none else false, false)
       end) (false, true);
  mret (negb has_ipv6 && negb has_all_none).

Definition determine_listen_port (iface : list byte) : M Z :=
  cmd (text "ip link set up dev " ++ iface);;
  value ← cmd_ret (text "awg show " ++ iface ++ text " listen-port");
  let listen_port :=
    match value with
    | None => 0
    | Some value => let p := fst (strtoul 10 value) in if (2 ^ 16 - 1 <? p) || (p =? 0) then 0 else p
    end in
  cmd (text "ip link set down dev " ++ iface);;
  mret listen_port.

(** The loop that draws the network id: [random() & 0xfffe] until it is at least 4096. *)
Fixpoint draw_netid (fuel : nat) (random : nat -> Z) (drawn : nat) (netid : Z) : option Z :=
  if 4096 <=? netid then Some netid
  else match fuel with
       | O => None
       | S fuel' => draw_netid fuel' random (S drawn) (Z.land (random drawn) 0xfffe)
       end.

Definition accept_marked (tool iface : list byte) : list byte :=
  tool ++ text " -I OUTPUT 1 -m mark --mark 0x20000 -j ACCEPT -m comment --comment " ++ [double_quote]
    ++ text "amneziawg rule " ++ iface ++ [double_quote].
Definition input_rule (tool : list byte) (listen_port : Z) (verdict iface : list byte) : list byte :=
  tool ++ text " -I INPUT 1 -p udp --dport " ++ print_u listen_port ++ text " -j " ++ verdict
    ++ text " -m comment --comment " ++ [double_quote] ++ text "amneziawg rule " ++ iface ++ [double_quote].

Definition up_if (fuel : nat) (netid : Z) (iface : list byte) (listen_port : Z) : M Z :=
  w ← get st_world;
  match draw_netid fuel (ph_random w) 0 netid with
  | None => fun s => (Spinning, s)
  | Some netid =>
      cmd (text "awg set " ++ iface ++ text " fwmark 0x20000");;
      cmd (accept_marked (text "iptables") iface);;
      cmd (accept_marked (text "ip6tables") iface);;
      (if negb (listen_port =? 0) then
         cmd (input_rule (text "iptables") listen_port (text "ACCEPT") iface);;
         block ← should_block_ipv6 iface;
         cmd (input_rule (text "ip6tables") listen_port (if (block : bool) then text "DROP" else text "ACCEPT") iface)
       else mret tt);;
      cmd (text "ip link set up dev " ++ iface);;
      sdk ← get sdk_version;
      cndc (text "network create " ++ print_u netid ++ (if sdk <? 31 then text " vpn 1 1" else text " vpn 1"));;
      cndc (text "network interface add " ++ print_u netid ++ text " " ++ iface);;
      mret netid
  end.

(** ** Applications *)

Definition compare_uid (a b : Z) : Z := s32 (u32 (a - b)).

(** [strchrnul(start, ',')] on memory from [start] on: the token and what follows its
    delimiter; [None] past the end of memory. *)
Fixpoint app_token (mem : list byte) : option (list byte * list byte) :=
  match mem with
  | [] => None
  | c :: mem' =>
      if Byte.eqb c "," || Byte.eqb c x00 then Some ([], mem')
      else match app_token mem' with Some (tok, rest) => Some (c :: tok, rest) | None => None end
  end.

(** The tokens of the loop, which steps over the delimiter of each, a comma or a NUL, and
    stops where a token would start with a NUL. *)
Fixpoint app_tokens (fuel : nat) (mem : list byte) : option (list (list byte)) :=
  match fuel with
  | O => None
  | S fuel' =>
      match app_token mem with
      | None => None
      | Some (tok, rest) =>
          if Byte.eqb (byte_at mem 0) x00 then Some []
          else match app_tokens fuel' rest with Some toks => Some (tok :: toks) | None => None end
      end
  end.

(** The memory that holds a string: the string, its NUL, and what lies behind. *)
Definition mem_of (s : list byte) : list byte := s ++ x00 :: ph_heap s.

(** The name and the user of a line of packages.list. *)
Definition package_line (line : list byte) : option (list byte * Z) :=
  match strsep " " line with
  | (_, None) => None
  | (package_name, Some rest) =>
      let package_uid_str := fst (strsep " " rest) in
      let '(v, endptr) := strtoul 10 package_uid_str in
      let package_uid := u32 v in
      if (package_uid =? 0) || negb (nonempty package_uid_str) || nonempty endptr then None
      else Some (package_name, package_uid)
  end.

(** How often a package is among the tokens. *)
Definition times_selected (tokens : list (list byte)) (package_name : list byte) : nat :=
  length (List.filter (fun tok => nonempty tok && beq tok package_name) tokens).

(** The loop over the packages: the users written to an array of [room] cells. *)
Fixpoint packages_loop (selected : list byte) (room : nat) (lines : list (list byte)) (uids : list Z) :
    option (list Z) :=
  match lines with
  | [] => Some uids
  | line :: lines' =>
      match package_line line with
      | None => packages_loop selected room lines' uids
      | Some (package_name, package_uid) =>
          match app_tokens (S (length (mem_of selected))) (mem_of selected) with
          | None => None
          | Some tokens =>
              let uids := uids ++ repeat package_uid (times_selected tokens package_name) in
              if (room <? length uids)%nat then None else packages_loop selected room lines' uids
          end
      end
  end.

(** The cells of the array: two more than the commas after the first character. *)
Definition uid_list_room (selected : list byte) : option nat :=
  let mem := drop 1 (mem_of selected) in
  if has_byte x00 mem then Some (2 + count_occ byte_eq_dec (c_str mem) ","%byte)%nat else None.

Definition get_uid_list (selected_applications : option (list byte)) : M (list Z) :=
  match selected_applications with
  | None => mret [0]
  | Some selected =>
      room ← deref (uid_list_room selected);
      w ← get st_world;
      match ph_fopen (text "/data/system/packages.list") w with
      | inl errno => exit errno
      | inr f =>
          uids ← deref (packages_loop selected room (map c_str (getlines (f_content f))) []);
          mret (qsort compare_uid uids ++ repeat 0 (room - length uids))
      end
  end.

Definition add_users (netid : Z) (ranges : list byte) : M unit :=
  cndc (text "network users add " ++ print_u netid ++ text " " ++ ranges).

(** One more argument, and the command after every eighteenth. *)
Definition add_range (netid : Z) (range : list byte) (args : Z) (ranges : option (list byte)) :
    M (Z * option (list byte)) :=
  let ranges := concat_and_free ranges (text " ") range in
  let args := u32 (args + 1) in
  if args mod 18 =? 0 then add_users netid (default [] ranges);; mret (args, None)
  else mret (args, ranges).

Definition range_text (start last : Z) : list byte :=
  if start =? last then print_u start else print_u start ++ text "-" ++ print_u last.

Fixpoint excluded_loop (netid : Z) (cells : list Z) (start args : Z) (ranges : option (list byte)) :
    M (Z * option (list byte)) :=
  match cells with
  | [] => undefined
  | uid :: cells' =>
      if uid =? 0 then mret (start, ranges)
      else if u32 (uid - 1) <? start then excluded_loop netid cells' (u32 (uid + 1)) args ranges
      else
        '(args, ranges) ← add_range netid (range_text start (u32 (uid - 1))) args ranges;
        excluded_loop netid cells' (u32 (uid + 1)) args ranges
  end.

Fixpoint included_loop (netid : Z) (cells : list Z) (args : Z) (ranges : option (list byte)) :
    M (option (list byte)) :=
  match cells with
  | [] => undefined
  | uid :: cells' =>
      if uid =? 0 then mret ranges
      else
        '(args, ranges) ← add_range netid (print_u uid) args ranges;
        included_loop netid cells' args ranges
  end.

Definition set_users (netid : Z) (excluded included : option (list byte)) : M unit :=
  match excluded, included with
  | Some _, Some _ => exit EEXIST
  | _, _ =>
      ranges ←
        match excluded, included with
        | None, Some _ =>
            uids ← get_uid_list included;
            included_loop netid uids 0 None
        | _, _ =>
            uids ← get_uid_list excluded;
            '(start, ranges) ← excluded_loop netid uids 0 0 None;
            mret (if start <? 99999 then concat_and_free ranges (text " ") (print_u start ++ text "-99999")
                  else ranges)
        end;
      match ranges with
      | Some ranges => add_users netid ranges
      | None => mret tt
      end
  end.

End Android.
