(* ===== verification/AndroidUp.v ===== *)
(** * awg-quick for Android: up, down and [main] (wg-quick/android.c)

    The addresses, the DNS servers, the routes and the MTU of the interface, the commands
    [up] and [down], and the whole process: the constructor that loads the binder library,
    [main], and the handler that [cmd_up] registers with [atexit]. *)

From S2P Require Import Prelude CString CSort Regex AndroidShell AndroidBinder Android.
#[local] Open Scope Z_scope.
#[local] Open Scope awg_scope.

Definition apostrophe : byte := "'".

(** [strchr(dns, '\'') || strchr(dns, '\\')]. *)
Definition has_quoting (s : list byte) : bool := has_byte apostrophe s || has_byte "\" s.

Definition list_delims : list byte := text ", " ++ [x09; x0a].

(** ** DNS servers *)

Definition is_ip (dns : list byte) : bool := regmatch regex_ipnothost dns.

(** [snprintf(arg, size, ...)]: what fits before the NUL. *)
Definition snprintf (size : nat) (s : list byte) : list byte := take (size - 1) s.

(** [strncat(dst, src, n)] into a buffer of [room] bytes. *)
Definition strncat (room : nat) (dst src : list byte) (n : nat) : option (list byte) :=
  let dst := dst ++ take n src in
  if (length dst <? room)%nat then Some dst else None.

(** The buffers and the arrays of [set_dnses]. *)
Record dns_lists := DnsLists {
  dns_shell_arglist : list byte;
  dns_search_shell_arglist : list byte;
  dns_function_arglist : list byte;
  dns_search_function_arglist : list byte;
  dns_list : list (list byte);
  dns_search_list : list (list byte);
}.

Definition dns_step (len : nat) (d : dns_lists) (dns : list byte) : option dns_lists :=
  if has_quoting dns then Some d
  else
    let ip := is_ip dns in
    let function_arglist := if ip then dns_function_arglist d else dns_search_function_arglist d in
    let cat dst arg := strncat (len * 4 + 1) dst arg (len * 4 - 1) in
    let quoted := snprintf (len + 3) ([apostrophe] ++ dns ++ [apostrophe] ++ text " ") in
    let listed := snprintf (len + 2) (if nonempty function_arglist then text ", " ++ dns else dns) in
    match cat (if ip then dns_shell_arglist d else dns_search_shell_arglist d) quoted,
          cat function_arglist listed with
    | Some shell, Some function =>
        Some (if ip then
                DnsLists shell (dns_search_shell_arglist d) function (dns_search_function_arglist d)
                  (dns_list d ++ [dns]) (dns_search_list d)
              else
                DnsLists (dns_shell_arglist d) shell (dns_function_arglist d) function
                  (dns_list d) (dns_search_list d ++ [dns]))
    | _, _ => None
    end.

Fixpoint dns_loop (len : nat) (d : dns_lists) (tokens : list (list byte)) : option dns_lists :=
  match tokens with
  | [] => Some d
  | dns :: tokens' =>
      match dns_step len d dns with
      | Some d => dns_loop len d tokens'
      | None => None
      end
  end.

(** The first pass: how many tokens are addresses. *)
Definition count_ips (tokens : list (list byte)) : nat :=
  length (List.filter (fun dns => negb (has_quoting dns) && is_ip dns) tokens).

Section AndroidUp.
Context `{Platform} `{Phone} `{CSort}.

Definition resolver_params (netid : Z) (d : dns_lists) : dnsresolver_params :=
  DnsresolverParams (s32 netid) DNSRESOLVER_SAMPLE_VALIDITY DNSRESOLVER_SUCCESS_THRESHOLD
    DNSRESOLVER_MIN_SAMPLES DNSRESOLVER_MAX_SAMPLES DNSRESOLVER_BASE_TIMEOUT
    DNSRESOLVER_RETRY_COUNT (Some (dns_list d)) (Some (dns_search_list d)) (Some []) (Some []) (Some []).

Definition set_dnses (netid : Z) (dnses : option (list byte)) : M unit :=
  dnses ← deref dnses;
  let len := length dnses in
  let tokens := strtok list_delims dnses in
  if 2 ^ 16 <? Z.of_nat len then mret tt
  else if (len =? 0)%nat then mret tt
  else if (count_ips tokens =? 0)%nat then mret tt
  else
    d ← deref (dns_loop len (DnsLists [] [] [] [] [] []) tokens);
    handle ← dnsresolver_get_handle;
    if (handle : bool) then
      printf (text "[#] <binder>::dnsResolver->createNetworkCache(" ++ print_u netid ++ text ")" ++ [x0a]);;
      status ← dnsresolver_create_network_cache (s32 netid);
      if negb (status =? 0) then exit ENONET
      else
        printf (text "[#] <binder>::dnsResolver->setResolverConfiguration(" ++ print_u netid ++ text ", ["
                ++ dns_function_arglist d ++ text "], [" ++ dns_search_function_arglist d
                ++ text "], 1800, 25, 8, 8, 5000, 2, [], [])" ++ [x0a]);;
        status ← dnsresolver_set_resolver_configuration (resolver_params netid d);
        if negb (status =? 0) then exit ENONET else mret tt
    else
      cndc (text "resolver setnetdns " ++ print_u netid ++ text " " ++ [apostrophe]
            ++ dns_search_shell_arglist d ++ [apostrophe] ++ text " " ++ dns_shell_arglist d).

(** ** Addresses, MTU and routes *)

Definition add_addr (iface addr : list byte) : M unit :=
  if has_byte ":" addr then
    cndc (text "interface ipv6 " ++ iface ++ text " enable");;
    cmd (text "ip -6 addr add " ++ [apostrophe] ++ addr ++ [apostrophe] ++ text " dev " ++ iface)
  else
    let '(mut_addr, slash) := strsep "/" addr in
    let mask := match slash with Some rest => u8 (atoi rest) | None => 32 end in
    cndc (text "interface setcfg " ++ iface ++ text " " ++ [apostrophe] ++ mut_addr ++ [apostrophe]
          ++ text " " ++ print_u mask).

Definition set_addr (iface : list byte) (addrs : option (list byte)) : M unit :=
  addrs ← deref addrs;
  for_each (fun addr => if has_quoting addr then mret tt else add_addr iface addr)
    (strtok list_delims addrs).

Definition get_route_mtu (endpoint : list byte) : M Z :=
  let verb := if strcmp_eq endpoint (text "default") then text "show " else text "get " in
  route ← cmd_ret (text "ip -o route " ++ verb ++ endpoint);
  match route with
  | None => mret (-1)
  | Some route =>
      match pattern_sub regex_mtu route with
      | Some mtu => mret (atoi mtu)
      | None =>
          match pattern_sub regex_dev route with
          | None => mret (-1)
          | Some dev =>
              route ← cmd_ret (text "ip -o link show dev " ++ dev);
              match route with
              | None => mret (-1)
              | Some route =>
                  match pattern_sub regex_mtu route with
                  | None => mret (-1)
                  | Some mtu => mret (atoi mtu)
                  end
              end
          end
      end
  end.

Definition set_mtu (iface : list byte) (mtu : Z) : M unit :=
  if negb (mtu =? 0) then cndc (text "interface setmtu " ++ iface ++ text " " ++ print_u mtu)
  else
    default_mtu ← get_route_mtu (text "default");
    let endpoint_mtu := if default_mtu =? -1 then 1500 else default_mtu in
    endpoint_mtu ← for_lines (text "awg show " ++ iface ++ text " endpoints")
      (fun endpoint endpoint_mtu =>
         match pattern_sub regex_endpoint endpoint with
         | None => mret (endpoint_mtu, false)
         | Some endpoint =>
             next_mtu ← get_route_mtu endpoint;
             mret (if (0 <? next_mtu) && (next_mtu <? endpoint_mtu) then next_mtu else endpoint_mtu, false)
         end) endpoint_mtu;
    cndc (text "interface setmtu " ++ iface ++ text " " ++ print_d (endpoint_mtu - 80)).

Definition add_route (iface : list byte) (netid : Z) (route : list byte) : M unit :=
  cndc (text "network route add " ++ print_u netid ++ text " " ++ iface ++ text " " ++ route).

Definition set_routes (iface : list byte) (netid : Z) : M unit :=
  for_lines (text "awg show " ++ iface ++ text " allowed-ips")
    (fun allowedips _ =>
       match snd (strsep x09 allowedips) with
       | None => mret (tt, false)
       | Some start =>
           for_each (fun allowedip => if strcmp_eq allowedip (text "(none)") then mret tt
                                      else add_route iface netid allowedip)
             (strtok (text " " ++ [x0a]) start);;
           mret (tt, false)
       end) tt.

(** A null configuration is written to the pipe after the command has started: the command
    reads nothing, and the program crashes. *)
Definition set_config (iface : list byte) (config : option (list byte)) : M unit :=
  let c := text "awg setconf " ++ iface ++ text " /proc/self/fd/0" in
  printf (text "[#] " ++ c ++ [x0a]);;
  emit (Fed c (default [] config));;
  r ← on_world (ph_feed c (default [] config));
  match r, config with
  | FeedNoProcess errno, _ => exit errno
  | _, None => undefined
  | FeedNoWrite errno, Some _ => exit errno
  | FeedDone ret, Some _ =>
      if negb (ret =? 0) then exit (if WIFEXITED ret then WEXITSTATUS ret else EIO) else mret tt
  end.

Definition broadcast_change : M unit :=
  let tell := cmd (text "am broadcast -a org.amnezia.awg.action.REFRESH_TUNNEL_STATES " ++ AWG_PACKAGE_NAME) in
  match ph_getenv (text "CALLING_PACKAGE") with
  | None => tell
  | Some pkg => if strcmp_eq pkg AWG_PACKAGE_NAME then mret tt else tell
  end.

(** ** Commands *)

Definition auto_su (argv : list (list byte)) : M unit :=
  if ph_getuid =? 0 then mret tt
  else
    printf (text "[$] su -p -c " ++ concat (imap (fun i arg =>
      arg ++ (if (i =? length argv - 1)%nat then [x0a] else text " ")) argv));;
    w ← get st_world;
    let args := map text ["su"; "-p"; "-c"]%string ++ argv in
    match ph_execvp args w with
    | None => fun s => (Replaced args, s)
    | Some errno => exit errno
    end.

Definition usage_paths (prefix : string) : list byte :=
  concat (map (fun path => text prefix ++ path ++ [x0a]) (strtok (text " ") AWG_CONFIG_SEARCH_PATHS)).

Definition usage_lines (lines : list string) : list byte :=
  concat (map (fun l => text l ++ [x0a]) lines).

Definition cmd_usage (program : list byte) : M unit :=
  printf (text "Usage: " ++ program ++ usage_lines
    [ " [ up | down ] [ CONFIG_FILE | INTERFACE ]";
      "";
      "  CONFIG_FILE is a configuration file, whose filename is the interface name";
      "  followed by `.conf'. Otherwise, INTERFACE is an interface name, with";
      "  configuration found at:";
      "" ]%string);;
  printf (usage_paths "  - ");;
  printf (usage_lines
    [ "";
      "  It is to be readable by awg(8)'s `setconf' sub-command, with the exception";
      "  of the following additions to the [Interface] section, which are handled by";
      "  this program:";
      "";
      "  - Address: may be specified one or more times and contains one or more";
      "    IP addresses (with an optional CIDR mask) to be set for the interface.";
      "  - MTU: an optional MTU for the interface; if unspecified, auto-calculated.";
      "  - DNS: an optional DNS server to use while the device is up.";
      "  - ExcludedApplications: optional blacklist of applications to exclude from the tunnel.";
      "";
      "  - IncludedApplications: optional whitelist of applications to include in the tunnel.";
      "";
      "  See awg-quick(8) for more info and examples." ]%string).

Definition cmd_up_cleanup : M unit :=
  put (fun s => s <| is_exiting := true |>);;
  iface ← get cleanup_iface;
  match iface with
  | Some iface => del_if iface
  | None => mret tt
  end.

(** What follows the creation of the interface. *)
Definition up_rest (fuel : nat) (o : options) : M unit :=
  let iface := o_iface o in
  set_config iface (o_config o);;
  listen_port ← determine_listen_port iface;
  netid ← up_if fuel 0 iface listen_port;
  set_addr iface (o_addrs o);;
  set_dnses netid (o_dnses o);;
  set_routes iface netid;;
  set_mtu iface (o_mtu o);;
  set_users netid (o_excluded o) (o_included o);;
  broadcast_change.

Definition cmd_up (fuel : nat) (o : options) : M unit :=
  let iface := o_iface o in
  found ← cmd_ret (text "ip link show dev " ++ iface ++ text " 2>/dev/null");
  match found with
  | Some _ => exit EEXIST
  | None =>
      put (fun s => s <| cleanup_iface := Some iface |> <| cleanup_registered := true |>);;
      add_if iface;;
      up_rest fuel o;;
      put (fun s => s <| cleanup_iface := None |>);;
      exit 0
  end.

Definition cmd_down (iface : list byte) : M unit :=
  ifaces ← cmd_ret (text "awg show interfaces");
  let found := match ifaces with
               | Some ifaces => existsb (strcmp_eq iface) (strtok (text " " ++ [x0a]) ifaces)
               | None => false
               end in
  if negb found then exit EMEDIUMTYPE
  else del_if iface;; broadcast_change;; exit 0.

Definition main (fuel : nat) (argv : list (list byte)) : M Z :=
  let argv0 := match argv with a :: _ => a | [] => text "(null)" end in
  let named s arg := strcmp_eq arg (text s) in
  (match ph_property (text "ro.build.version.sdk") with
   | Some prop => put (fun s => s <| sdk_version := u32 (atoi prop) |>)
   | None => mret tt
   end);;
  let usage := cmd_usage argv0;; mret 1 in
  match argv with
  | [_; arg] => if named "help"%string arg || named "--help"%string arg || named "-h"%string arg
                then cmd_usage argv0;; mret 0 else usage
  | [_; verb; arg] =>
      if named "up"%string verb then auto_su argv;; o ← parse_options arg; cmd_up fuel o;; mret 0
      else if named "down"%string verb then auto_su argv;; o ← parse_options arg; cmd_down (o_iface o);; mret 0
      else usage
  | _ => usage
  end.

(** ** The process *)

(** How a process ends; calling [exit] from the handler of an [exit] is undefined in C. *)
Inductive ending : Type :=
| Ended (code : Z)
| Became (args : list (list byte))
| ExitTwice (code : Z)
| Crashed
| Spins.

Definition at_exit (code : Z) (s : st) : ending * st :=
  if cleanup_registered s then
    match cmd_up_cleanup s with
    | (Ret _, s') => (Ended code, s')
    | (Exit code', s') => (ExitTwice code', s')
    | (Replaced args, s') => (Became args, s')
    | (Undefined, s') => (Crashed, s')
    | (Spinning, s') => (Spins, s')
    end
  else (Ended code, s).

Definition boot (w : world) : st := St w [] false false 0 false None false.

(** The end of a process: the handlers, then the exit code. *)
Definition finish (p : res Z * st) : ending * st :=
  match p with
  | (Ret code, s) => at_exit code s
  | (Exit code, s) => at_exit code s
  | (Replaced args, s) => (Became args, s)
  | (Undefined, s) => (Crashed, s)
  | (Spinning, s) => (Spins, s)
  end.

Definition process (fuel : nat) (argv : list (list byte)) (w : world) : ending * st :=
  finish ((load_symbols;; main fuel argv) (boot w)).
End AndroidUp.
