(* ===== verification/AndroidScript.v ===== *)
(** * A phone that follows a script

    An instance of [Phone] for concrete runs: tables say what commands answer, ["ndc"]
    commands are acknowledged unless a table says otherwise, and parcels are buffers with a
    position.  The laws hold of every script whose processes exit. *)

From S2P Require Import Prelude CString AndroidShell.
#[local] Open Scope Z_scope.

Record script := Script {
  sc_status : list (list byte * Z);
  sc_output : list (list byte * list byte);
  sc_files : list (list byte * list byte);
  sc_uid : Z;
  sc_sdk : option (list byte);
  sc_binder : bool;
  sc_heap : list byte;
}.

Fixpoint assoc {A} (k : list byte) (l : list (list byte * A)) : option A :=
  match l with
  | [] => None
  | (k', a) :: l' => if beq k k' then Some a else assoc k l'
  end.

(** A parcel: the data and the position. *)
Record bytes_parcel := BytesParcel {
  bp_data : list byte;
  bp_pos : nat;
}.

(** A write at the position, over what is there. *)
Definition bp_write (p : bytes_parcel) (b : list byte) : bytes_parcel :=
  BytesParcel (take (bp_pos p) (bp_data p) ++ b ++ drop (bp_pos p + length b) (bp_data p)) (bp_pos p + length b).

Definition bp_string (s : option (list byte)) (len : Z) : list byte :=
  bytes_le 4 len ++ match s with Some s => take (Z.to_nat len) s | None => [] end.

Definition script_phone (s : script) : Phone := {|
  world := unit;
  ph_system cmd w := (default 0 (assoc cmd (sc_status s)), w);
  ph_popen cmd w :=
    (inr (default (if beq (take 4 cmd) (text "ndc ") then text "200 0 ok" ++ [x0a] else [])
            (assoc cmd (sc_output s)), 0), w);
  ph_feed cmd input w := (FeedDone (default 0 (assoc cmd (sc_status s))), w);
  ph_fopen path w := match assoc path (sc_files s) with Some c => inr (File c 0) | None => inl 2 end;
  ph_getenv _ := None;
  ph_property _ := sc_sdk s;
  ph_getuid := sc_uid s;
  ph_execvp _ _ := Some 2;
  ph_random _ k := 5000 * Z.of_nat k;
  ph_heap _ := sc_heap s;
  ph_binder := if sc_binder s then Some (fun _ => true) else None;
  parcel := bytes_parcel;
  status := unit;
  AServiceManager_getService _ _ := true;
  AIBinder_Class_define _ _ := true;
  AIBinder_associateClass _ := true;
  AIBinder_prepareTransaction _ := (0, BytesParcel [] 0);
  AIBinder_transact _ p w := ((0, BytesParcel [] 0), w);
  AParcel_writeInt32 p v := (0, bp_write p (bytes_le 4 v));
  AParcel_writeString p str len := (0, bp_write p (bp_string str len));
  AParcel_writeStringArray p len getter :=
    (0, bp_write p (bytes_le 4 len
                    ++ concat (map (fun i => let '(str, n) := getter i in bp_string str n)
                                 (seq 0 (Z.to_nat len)))));
  AParcel_getDataPosition p := Z.of_nat (bp_pos p);
  AParcel_setDataPosition p pos := (0, BytesParcel (bp_data p) (Z.to_nat pos));
  AParcel_readStatusHeader _ := (0, tt);
  AStatus_isOk _ := true;
  AStatus_getExceptionCode _ := 0;
  AStatus_getStatus _ := 0;
|}.

Definition script_ok (s : script) : bool :=
  forallb (fun '(_, z) => (0 <=? z) && (z <? 2 ^ 16) && (z mod 256 =? 0)) (sc_status s).

Lemma assoc_In {A} (k : list byte) (l : list (list byte * A)) (a : A) :
  assoc k l = Some a -> exists k', In (k', a) l.
Proof.
  induction l as [|[k' a'] l IH]; cbn; [done |]. destruct (beq k k').
  - intros [= ->]. eauto.
  - intros (k'' & Hk)%IH. eauto.
Qed.

Lemma script_status (s : script) (cmd : list byte) :
  script_ok s = true -> wait_status (default 0 (assoc cmd (sc_status s))).
Proof.
  intros Hs. right. left. destruct (assoc cmd (sc_status s)) as [z|] eqn:E; cbn; [| by exists 0].
  apply assoc_In in E as (k & Hin). unfold script_ok in Hs. rewrite forallb_forall in Hs.
  specialize (Hs _ Hin). cbv beta iota in Hs. boolz. exists (z / 256). zlia.
Qed.

Lemma script_phone_laws (s : script) : script_ok s = true -> PhoneLaws (script_phone s).
Proof.
  intros Hs. constructor; cbn; try done.
  - intros cmd w. by apply script_status.
  - intros cmd input w z [= <-]. by apply script_status.
  - intros path w e. destruct (assoc path (sc_files s)); [done |]. by intros [= <-].
  - by intros args w e [= <-].
Qed.

(** Lines of text. *)
Definition lines_of (l : list string) : list byte := concat (map (fun s => text s ++ [x0a]) l).

(** A phone with two packages, a configuration for wg0, and nothing in the way. *)
Definition demo_conf : list byte := lines_of
  ["[Interface]"; "Address = 10.0.0.2/24, fd00::2/64"; "DNS = 1.1.1.1, example.com"; "Jc = 4";
   "ExcludedApplications = org.a, org.b"]%string.

Definition demo_files : list (list byte * list byte) :=
  [(text "/data/misc/amneziawg/wg0.conf", demo_conf);
   (text "/data/system/packages.list", lines_of ["org.a 10001 0 /data/a"; "org.c 10002 0 /c"; "org.b 10003 0 /b"]%string)].

Definition demo_script : script := Script [] [] demo_files 0 (Some (text "33")) false [x00].

Lemma no_ndc_output (s : script) (c : list byte) :
  forallb (fun '(k, _) => negb (beq (take 4 k) (text "ndc "))) (sc_output s) = true ->
  assoc (text "ndc " ++ c) (sc_output s) = None.
Proof.
  induction (sc_output s) as [|[k o] l IH]; [done |]. cbn [forallb assoc]. intros [Hk Hl]%andb_true_iff.
  destruct (beq (text "ndc " ++ c) k) eqn:E; [| by apply IH]. apply beq_eq in E as <-. done.
Qed.
