(* ===== verification/AndroidRun.v ===== *)
(** * What a run of awg-quick does (wg-quick/android.c)

    [steps phi m] is the contract of the functions: [m] adds events that satisfy [phi] to the
    record, leaves the variables of the cleanup alone, and never calls [exit] with zero.  It
    composes, so a command is checked by the commands it is made of.  Shown: a run of [up] that
    exits deletes the interface it began to create exactly when it fails, unless the name of the
    interface is not a pattern; and what is left when it does not exit. *)

From S2P Require Import Prelude CString CSort Regex AndroidShell AndroidBinder Android AndroidUp AndroidScript.
#[local] Open Scope Z_scope.
#[local] Open Scope awg_scope.

Create HintDb steps.

Section Steps.
Context `{Platform} {P : Phone} {PL : PhoneLaws P} {CS : CSort}.

(** The variables of the cleanup. *)
Definition same_cleanup (s s' : st) : Prop :=
  cleanup_iface s' = cleanup_iface s /\ cleanup_registered s' = cleanup_registered s
  /\ is_exiting s' = is_exiting s.

Definition extends (phi : event -> Prop) (s s' : st) : Prop :=
  exists evs, st_trace s' = st_trace s ++ evs /\ Forall phi evs.

Definition steps (phi : event -> Prop) {A} (m : M A) : Prop :=
  forall s, let '(r, s') := m s in
    extends phi s s' /\ same_cleanup s s' /\ (forall code, r = Exit code -> code <> 0).

Lemma extends_refl (phi : event -> Prop) (s : st) : extends phi s s.
Proof. exists []. by rewrite app_nil_r. Qed.

Lemma extends_trans (phi : event -> Prop) (s1 s2 s3 : st) :
  extends phi s1 s2 -> extends phi s2 s3 -> extends phi s1 s3.
Proof.
  intros (e1 & E1 & H1) (e2 & E2 & H2). exists (e1 ++ e2). rewrite E2, E1, app_assoc.
  split; [done |]. by apply Forall_app.
Qed.

Lemma same_cleanup_trans (s1 s2 s3 : st) :
  same_cleanup s1 s2 -> same_cleanup s2 s3 -> same_cleanup s1 s3.
Proof. unfold same_cleanup. naive_solver congruence. Qed.

Lemma steps_ret (phi : event -> Prop) {A} (a : A) : steps phi (mret a : M A).
Proof. intros s. split_and!; [apply extends_refl | done | done]. Qed.

Lemma steps_exit (phi : event -> Prop) {A} (code : Z) : code <> 0 -> steps phi (exit code : M A).
Proof. intros Hc s. split_and!; [apply extends_refl | done | by intros ? [= <-]]. Qed.

Lemma steps_undefined (phi : event -> Prop) {A} : steps phi (undefined : M A).
Proof. intros s. split_and!; [apply extends_refl | done | done]. Qed.

Lemma steps_bind (phi : event -> Prop) {A B} (m : M A) (k : A -> M B) :
  steps phi m -> (forall a, steps phi (k a)) -> steps phi (m ≫= k).
Proof.
  intros Hm Hk s. unfold mbind, M_bind. specialize (Hm s).
  destruct (m s) as [[a|code|args| |] s1]; destruct Hm as (He & Hs & Hc);
    try (split_and!; [done | done | naive_solver]).
  specialize (Hk a s1). destruct (k a s1) as [r s2]. destruct Hk as (He' & Hs' & Hc').
  split_and!; [by eapply extends_trans | by eapply same_cleanup_trans | done].
Qed.

Lemma steps_emit (phi : event -> Prop) (e : event) : phi e -> steps phi (emit e).
Proof. intros He s. split_and!; [| done | done]. exists [e]. split; [done | by constructor]. Qed.

Lemma steps_get (phi : event -> Prop) {A} (f : st -> A) : steps phi (get f).
Proof. intros s. split_and!; [apply extends_refl | done | done]. Qed.

Lemma steps_put (phi : event -> Prop) (f : st -> st) :
  (forall s, st_trace (f s) = st_trace s /\ same_cleanup s (f s)) -> steps phi (put f).
Proof.
  intros Hf s. destruct (Hf s) as [Ht Hs]. split_and!; [| done | done].
  exists []. by rewrite app_nil_r.
Qed.

Lemma steps_world (phi : event -> Prop) {A} (f : world -> A * world) : steps phi (on_world f).
Proof.
  intros s. unfold on_world. destruct (f (st_world s)).
  split_and!; [exists []; by rewrite app_nil_r | done | done].
Qed.

(** What the phone answers, for the codes of [exit]. *)
Lemma steps_world_bind (phi : event -> Prop) {A B} (f : world -> A * world) (k : A -> M B) :
  (forall w, steps phi (k (fst (f w)))) -> steps phi (on_world f ≫= k).
Proof.
  intros Hk s. unfold mbind, M_bind, on_world. specialize (Hk (st_world s)).
  destruct (f (st_world s)) as [a w]. cbn [fst] in Hk.
  specialize (Hk (s <| st_world := w |>)). destruct (k a _) as [r s2]. exact Hk.
Qed.

Lemma steps_deref (phi : event -> Prop) {A} (p : option A) : steps phi (deref p).
Proof. destruct p; [apply steps_ret | apply steps_undefined]. Qed.

Lemma steps_weaken (phi psi : event -> Prop) {A} (m : M A) :
  (forall e, phi e -> psi e) -> steps phi m -> steps psi m.
Proof.
  intros Hw Hm s. specialize (Hm s). destruct (m s) as [r s'].
  destruct Hm as ((evs & E & He) & Hs & Hc). split_and!; [| done | done].
  exists evs. split; [done | by eapply Forall_impl].
Qed.

(** ** The primitives *)

Section Commands.
Variable phi : event -> Prop.
Hypothesis Hprinted : forall line, phi (Printed line).
#[local] Abbreviation ok := (steps phi).

Lemma steps_popen (c : list byte) : phi (Opened c) -> ok (popen c).
Proof.
  intros Hc. apply steps_bind; [by apply steps_emit |]. intros _. apply steps_world_bind. intros w.
  pose proof (popen_errno c w) as He. destruct (fst (ph_popen c w)) as [e|[out e]].
  - apply steps_exit. by apply He.
  - apply steps_ret.
Qed.

Lemma steps_getline (s : stream) : ok (getline s).
Proof.
  destruct s as [[|l ls] e]; cbn; [| apply steps_ret]. destruct (Z.eqb_spec e 0); [apply steps_ret | by apply steps_exit].
Qed.

Lemma steps_vcmd_ret (c : command_buffer) (cm : option (list byte)) :
  match cm with Some cm => phi (Opened cm) | None => True end -> ok (vcmd_ret c cm).
Proof.
  intros Hc. destruct cm as [cm|]; cbn.
  - apply steps_bind; [by apply steps_popen |]. intros s. apply steps_bind; [apply steps_getline |].
    intros [l s']. apply steps_ret.
  - destruct c as [s|]; [| apply steps_ret]. apply steps_bind; [apply steps_getline |].
    intros [l s']. apply steps_ret.
Qed.

Lemma steps_cmd_ret (c : list byte) : phi (Opened c) -> ok (cmd_ret c).
Proof. intros Hc. apply steps_bind; [by apply steps_vcmd_ret |]. intros [l s]. apply steps_ret. Qed.

Lemma steps_for_lines {A} (c : list byte) (body : list byte -> A -> M (A * bool)) (a : A) :
  phi (Opened c) -> (forall l a, ok (body l a)) -> ok (for_lines c body a).
Proof.
  intros Hc Hb. apply steps_bind; [by apply steps_popen |]. intros [ls e]. revert a.
  induction ls as [|l ls IH]; intros a; cbn [lines_loop].
  - apply steps_bind; [apply steps_getline |]. intros [l s]. apply steps_ret.
  - apply steps_bind; [apply Hb |]. intros [a' stop]. destruct stop; [apply steps_ret | apply IH].
Qed.

Lemma steps_for_each {A} (body : A -> M unit) (l : list A) :
  (forall x, ok (body x)) -> ok (for_each body l).
Proof.
  intros Hb. induction l as [|x l IH]; cbn; [apply steps_ret |]. apply steps_bind; auto.
Qed.

(** The exit code of a failed command is never zero. *)
Lemma exit_status_nonzero (z : Z) :
  wait_status z -> z <> 0 -> (if WIFEXITED z then WEXITSTATUS z else EIO) <> 0.
Proof.
  unfold WIFEXITED, WEXITSTATUS. change 127 with (2 ^ 7 - 1). change 255 with (2 ^ 8 - 1).
  rewrite !land_mask, Z.shiftr_div_pow2 by lia. change (2 ^ 7) with 128. change (2 ^ 8) with 256.
  intros [-> | [(code & Hc & ->) | (signal & core & Hs & Hc & ->)]] Hz.
  - done.
  - assert (code * 256 mod 128 = 0) as -> by zlia. rewrite Z.eqb_refl. zlia.
  - assert ((core * 128 + signal) mod 128 = signal) as -> by zlia.
    destruct (Z.eqb_spec signal 0); [lia | done].
Qed.

Lemma steps_cmd (c : list byte) : phi (Ran c) -> ok (cmd c).
Proof.
  intros Hc. apply steps_bind; [by apply steps_emit |]. intros _.
  apply steps_bind; [by apply steps_emit |]. intros _. apply steps_world_bind. intros w.
  apply steps_bind; [apply steps_get |]. intros exiting.
  pose proof (system_status c w) as Hz. generalize dependent (fst (ph_system c w)). intros z Hz.
  assert (forall r, ok
    (if negb (r =? 0) && negb exiting then exit r else mret tt)) as Hif; [| apply Hif].
  intros r. destruct (Z.eqb_spec r 0); cbn [negb andb]; [apply steps_ret |].
  destruct exiting; cbn [negb]; [apply steps_ret | by apply steps_exit].
Qed.

Lemma steps_cndc (c : list byte) : phi (Opened (text "ndc " ++ c)) -> ok (cndc c).
Proof.
  intros Hc. apply steps_bind; [by apply steps_emit |]. intros _. apply steps_bind; [by apply steps_cmd_ret |].
  intros [l|]; [| by apply steps_exit]. cbv zeta. destruct (_ && _); [by apply steps_exit | apply steps_ret].
Qed.
End Commands.

(** Walks through a function, down to the calls that have a lemma. *)
Ltac walk :=
  repeat lazymatch goal with
  | |- steps _ (mret _) => apply steps_ret
  | |- steps _ (exit _) => apply steps_exit
  | |- steps _ undefined => apply steps_undefined
  | |- steps _ (get _) => apply steps_get
  | |- steps _ (deref _) => apply steps_deref
  | |- steps _ (emit _) => apply steps_emit
  | |- steps _ (printf _) => apply steps_emit
  | |- steps _ (popen _) => apply steps_popen
  | |- steps _ (cmd_ret _) => apply steps_cmd_ret
  | |- steps _ (cmd _) => apply steps_cmd
  | |- steps _ (cndc _) => apply steps_cndc
  | |- steps _ (for_lines _ _ _) => apply steps_for_lines; [| intros]
  | |- steps _ (for_each _ _) => apply steps_for_each; intros
  | |- steps _ (_ ≫= _) => apply steps_bind; [| intros]
  | |- steps _ (if ?x then _ else _) => destruct x eqn:?
  | |- steps _ (match ?x with _ => _ end) => destruct x eqn:?
  end; try done.

(** ** The functions *)

Definition prefixb (p c : list byte) : bool := beq (take (length p) c) p.

(** A condition on the commands that are run; reading and printing do not matter. *)
Definition only_runs (psi : list byte -> Prop) (e : event) : Prop :=
  match e with Ran c => psi c | _ => True end.

(** A command that neither creates nor deletes an interface. *)
Definition harmlessb (c : list byte) : bool :=
  negb (prefixb (text "ip link add ") c || prefixb (text "amneziawg-go ") c || prefixb (text "ip link del ") c).
Definition harmless (c : list byte) : Prop := harmlessb c = true.

(** The commands of a record that create or delete an interface. *)
Definition touching (t : list event) : list (list byte) :=
  flat_map (fun e => match e with Ran c => if harmlessb c then [] else [c] | _ => [] end) t.

#[local] Abbreviation ok := (steps (only_runs harmless)).

Lemma steps_del_rules (reg : pattern) (save tool : list byte) :
  (forall spec, harmless (tool ++ text " -D " ++ spec)) -> ok (del_rules reg save tool).
Proof. intros Ht. unfold del_rules. walk. apply Ht. Qed.

Lemma steps_should_block_ipv6 (iface : list byte) : ok (should_block_ipv6 iface).
Proof. unfold should_block_ipv6. walk. Qed.

Lemma steps_determine_listen_port (iface : list byte) : ok (determine_listen_port iface).
Proof. unfold determine_listen_port. walk. Qed.

Lemma steps_up_if (fuel : nat) (netid : Z) (iface : list byte) (port : Z) : ok (up_if fuel netid iface port).
Proof.
  unfold up_if. walk; try apply steps_should_block_ipv6.
  intros s. split_and!; [apply extends_refl | done | done].
Qed.

Lemma steps_add_users (n : Z) (ranges : list byte) : ok (add_users n ranges).
Proof. unfold add_users. walk. Qed.

Lemma steps_add_range (n : Z) (range : list byte) (args : Z) (ranges : option (list byte)) :
  ok (add_range n range args ranges).
Proof. unfold add_range. walk; apply steps_add_users. Qed.

Lemma steps_get_uid_list (selected : option (list byte)) : ok (get_uid_list selected).
Proof. unfold get_uid_list. walk. by eapply fopen_errno. Qed.

Lemma steps_excluded_loop (n : Z) (cells : list Z) (start args : Z) (ranges : option (list byte)) :
  ok (excluded_loop n cells start args ranges).
Proof.
  revert start args ranges. induction cells as [|uid cells IH]; intros; cbn [excluded_loop]; walk; auto.
  apply steps_add_range.
Qed.

Lemma steps_included_loop (n : Z) (cells : list Z) (args : Z) (ranges : option (list byte)) :
  ok (included_loop n cells args ranges).
Proof.
  revert args ranges. induction cells as [|uid cells IH]; intros; cbn [included_loop]; walk; auto.
  apply steps_add_range.
Qed.

Lemma steps_set_users (n : Z) (excluded included : option (list byte)) : ok (set_users n excluded included).
Proof.
  unfold set_users. destruct excluded, included; walk;
    auto using steps_add_users, steps_get_uid_list, steps_excluded_loop, steps_included_loop.
Qed.

Lemma steps_checked {A} (r : Z * A) (k : A -> M Z) : (forall a, ok (k a)) -> ok (checked r k).
Proof. intros Hk. destruct r as [z a]. cbn. by walk. Qed.

Lemma steps_transact (code : Z) (p : parcel) : ok (transact code p).
Proof. unfold transact. walk. apply steps_world. Qed.

Lemma steps_create_network_cache (n : Z) : ok (dnsresolver_create_network_cache n).
Proof. unfold dnsresolver_create_network_cache. repeat (walk; try apply steps_transact; try (apply steps_checked; intros)). Qed.

Lemma steps_set_resolver_configuration (p : dnsresolver_params) :
  ok (dnsresolver_set_resolver_configuration p).
Proof.
  unfold dnsresolver_set_resolver_configuration.
  repeat (walk; try apply steps_transact; try (apply steps_checked; intros)).
Qed.

Lemma steps_set_dnses (n : Z) (dnses : option (list byte)) : ok (set_dnses n dnses).
Proof.
  unfold set_dnses, dnsresolver_get_handle.
  walk; auto using steps_create_network_cache, steps_set_resolver_configuration.
Qed.

Lemma steps_set_addr (iface : list byte) (addrs : option (list byte)) : ok (set_addr iface addrs).
Proof. unfold set_addr, add_addr. walk. Qed.

Lemma steps_get_route_mtu (endpoint : list byte) : ok (get_route_mtu endpoint).
Proof. unfold get_route_mtu. walk. Qed.

Lemma steps_set_mtu (iface : list byte) (mtu : Z) : ok (set_mtu iface mtu).
Proof. unfold set_mtu. walk; apply steps_get_route_mtu. Qed.

Lemma steps_set_routes (iface : list byte) (n : Z) : ok (set_routes iface n).
Proof. unfold set_routes, add_route. walk. Qed.

Lemma steps_set_config (iface : list byte) (config : option (list byte)) : ok (set_config iface config).
Proof.
  unfold set_config. set (c := text "awg setconf " ++ _). set (input := default [] config).
  do 2 (apply steps_bind; [by walk | intros _]). apply steps_world_bind. intros w.
  pose proof (feed_errno c input w) as H1. pose proof (feed_write_errno c input w) as H2.
  pose proof (feed_status c input w) as H3. destruct (fst (ph_feed c input w)) as [e|e|z].
  - apply steps_exit. auto.
  - destruct config; [apply steps_exit; auto | apply steps_undefined].
  - destruct config; [| apply steps_undefined]. destruct (Z.eqb_spec z 0); cbn [negb]; [apply steps_ret |].
    apply steps_exit, exit_status_nonzero; auto.
Qed.

Lemma steps_broadcast_change : ok broadcast_change.
Proof. unfold broadcast_change. by walk. Qed.

Lemma steps_auto_su (argv : list (list byte)) : ok (auto_su argv).
Proof.
  unfold auto_su. walk.
  - by eapply execvp_errno.
  - intros s. split_and!; [apply extends_refl | done | done].
Qed.

Lemma search_conf_errno (arg : list byte) (paths : list (list byte)) (e0 e : Z) (w : world) :
  e0 <> 0 \/ paths <> [] -> search_conf arg paths e0 w = inl e -> e <> 0.
Proof.
  revert e0. induction paths as [|path paths IH]; intros e0 He0; cbn; [naive_solver |].
  destruct (ph_fopen _ w) as [e1|f] eqn:E; [| done]. apply IH. left. by eapply fopen_errno.
Qed.

Lemma open_conf_errno (arg : list byte) (w : world) (e : Z) : open_conf arg w = inl e -> e <> 0.
Proof.
  unfold open_conf. destruct (regmatch _ _).
  - apply search_conf_errno. right. by vm_compute.
  - destruct (ph_fopen arg w) eqn:E; [| done]. intros [= <-]. by eapply fopen_errno.
Qed.

Lemma steps_parse_options (arg : list byte) : ok (parse_options arg).
Proof.
  unfold parse_options. walk.
  - by eapply open_conf_errno.
  - boolz. done.
  - by apply steps_put.
Qed.

Lemma steps_load_symbols : ok load_symbols.
Proof. unfold load_symbols. walk; by apply steps_put. Qed.

(** ** Bringing an interface up *)

(** The command that creates an interface, and the one that deletes it. *)
Definition creates (iface c : list byte) : Prop :=
  c = text "amneziawg-go " ++ iface \/ c = text "ip link add " ++ iface ++ text " type amneziawg".
Definition deletes (iface : list byte) : list byte := text "ip link del " ++ iface.

Lemma touching_app (t u : list event) : touching (t ++ u) = touching t ++ touching u.
Proof. apply flat_map_app. Qed.

Lemma touching_harmless (t : list event) : Forall (only_runs harmless) t -> touching t = [].
Proof.
  induction 1 as [|e t He _ IH]; [done |]. cbn. unfold touching in IH. rewrite IH, app_nil_r.
  destruct e as [|c| | |]; try done. cbn in He. by rewrite He.
Qed.

Lemma extends_touching (s s' : st) :
  extends (only_runs harmless) s s' -> touching (st_trace s') = touching (st_trace s).
Proof.
  intros (evs & -> & He). by rewrite touching_app, (touching_harmless evs He), app_nil_r.
Qed.

Lemma steps_up_rest (fuel : nat) (o : options) : ok (up_rest fuel o).
Proof.
  unfold up_rest. walk; auto using steps_set_config, steps_determine_listen_port, steps_up_if,
    steps_set_addr, steps_set_dnses, steps_set_routes, steps_set_mtu, steps_set_users, steps_broadcast_change.
Qed.

(** A command is run exactly once, and fails softly in the handler. *)
Lemma cmd_spec (c : list byte) (s : st) :
  let '(r, s') := cmd c s in
  st_trace s' = st_trace s ++ [Printed (text "[#] " ++ c ++ [x0a]); Ran c]
  /\ same_cleanup s s'
  /\ (r = Ret tt \/ is_exiting s = false /\ exists code, code <> 0 /\ r = Exit code).
Proof.
  unfold cmd, mbind, M_bind, printf, emit, put, on_world, get. cbn [fst snd].
  destruct s as [w0 tr ex ba sdk awg ci cr]. cbn. destruct (ph_system c w0) as [z w]. cbn.
  generalize (if z <? 0 then ESRCH else if 0 <? z then if WIFEXITED z then WEXITSTATUS z else EIO else 0).
  intros code. destruct (Z.eqb_spec code 0) as [-> | Hne]; cbn [negb andb].
  - split_and!; [by rewrite <- app_assoc | done | by left].
  - destruct ex; cbn [negb].
    + split_and!; [by rewrite <- app_assoc | done | by left].
    + split_and!; [by rewrite <- app_assoc | done |]. right. split; [done |]. by exists code.
Qed.

Lemma cmd_touching (c : list byte) (s : st) : harmlessb c = false ->
  let '(r, s') := cmd c s in
  touching (st_trace s') = touching (st_trace s) ++ [c] /\ same_cleanup s s'
  /\ (r = Ret tt \/ is_exiting s = false /\ exists code, code <> 0 /\ r = Exit code).
Proof.
  intros Hc. pose proof (cmd_spec c s) as Hs. destruct (cmd c s) as [r s'].
  destruct Hs as (-> & Hs & Hr). split_and!; [| done | done].
  rewrite touching_app. cbn. by rewrite Hc.
Qed.

(** [add_if] runs the creating command, whatever comes of it. *)
Lemma add_if_touching (iface : list byte) (s : st) :
  let '(r, s') := add_if iface s in
  (exists c, creates iface c /\ touching (st_trace s') = touching (st_trace s) ++ [c])
  /\ same_cleanup s s' /\ (r = Ret tt \/ exists code, code <> 0 /\ r = Exit code).
Proof.
  unfold add_if, mbind, M_bind, get. destruct (is_awg_on s);
  match goal with |- context [cmd ?c s] => pose proof (cmd_touching c s eq_refl) as Hs; destruct (cmd c s) as [r s'] end;
  destruct Hs as (Ht & Hs & Hr); (split_and!; [| done | naive_solver]);
  eexists; (split; [| exact Ht]); [by left | by right].
Qed.

Lemma steps_del_rest (name : re) : ok (del_rest name).
Proof. unfold del_rest. walk; by apply steps_del_rules. Qed.

Lemma del_if_eq (iface : list byte) (name : re) : name_pattern (RByte " ") false iface = Some name ->
  del_if iface = (cmd (deletes iface);; del_rest name).
Proof. intros E. unfold del_if. by rewrite E. Qed.

(** The handler deletes the interface, unless its name is not a pattern. *)
Lemma cleanup_touching (iface : list byte) (s : st) : cleanup_iface s = Some iface ->
  let '(r, s') := cmd_up_cleanup s in
  touching (st_trace s') = touching (st_trace s)
    ++ match name_pattern (RByte " ") false iface with Some _ => [deletes iface] | None => [] end
  /\ (name_pattern (RByte " ") false iface = None -> r = Exit EBADR).
Proof.
  intros Hi. unfold cmd_up_cleanup. rewrite bind_put, bind_get.
  set (s1 := s <| is_exiting := true |>). change (cleanup_iface s1) with (cleanup_iface s). rewrite Hi.
  destruct (name_pattern _ false iface) as [name|] eqn:En.
  - rewrite (del_if_eq iface name En). pose proof (cmd_touching (deletes iface) s1 eq_refl) as Hs.
    unfold mbind, M_bind. destruct (cmd _ s1) as [r s2]. destruct Hs as (Ht & _ & Hr).
    destruct Hr as [-> | [? _]]; [| done].
    pose proof (steps_del_rest name s2) as Hm. destruct (del_rest name s2) as [r s3].
    destruct Hm as (He & _ & _). split; [| done]. by rewrite (extends_touching s2 s3 He), Ht.
  - unfold del_if. rewrite En. by rewrite app_nil_r.
Qed.

(** [cmd_up] stops before the creation, or creates the interface and either completes or
    leaves its name to the handler. *)
Lemma cmd_up_touching (fuel : nat) (o : options) (s : st) :
  cleanup_registered s = false ->
  let '(r, s') := cmd_up fuel o s in
  (cleanup_registered s' = false /\ touching (st_trace s') = touching (st_trace s)
   /\ (forall code, r = Exit code -> code <> 0) /\ r <> Ret tt)
  \/ (cleanup_registered s' = true
      /\ (exists c, creates (o_iface o) c /\ touching (st_trace s') = touching (st_trace s) ++ [c])
      /\ (cleanup_iface s' = None /\ r = Exit 0
          \/ cleanup_iface s' = Some (o_iface o) /\ (forall code, r = Exit code -> code <> 0) /\ r <> Ret tt)).
Proof.
  intros Hreg. unfold cmd_up. pose proof (steps_cmd_ret (only_runs harmless) (text "ip link show dev " ++ o_iface o ++ text " 2>/dev/null") I s) as Hs.
  unfold mbind at 1, M_bind at 1. destruct (cmd_ret _ s) as [r s1]. destruct Hs as (He & (Hi & Hr & Hx) & Hc).
  apply extends_touching in He. rewrite Hreg in Hr.
  destruct r as [[l|]|code|args| |]; try (by left; naive_solver).
  rewrite bind_put. set (s2 := s1 <| cleanup_iface := Some (o_iface o) |> <| cleanup_registered := true |>).
  assert (touching (st_trace s2) = touching (st_trace s)) as Ht2 by done.
  pose proof (add_if_touching (o_iface o) s2) as Hs. unfold mbind at 1, M_bind at 1.
  destruct (add_if _ s2) as [r s3]. destruct Hs as ((c & Hcr & Ht3) & (Hi3 & Hr3 & _) & Hx3).
  change (cleanup_iface s2) with (Some (o_iface o)) in Hi3. change (cleanup_registered s2) with true in Hr3.
  rewrite Ht2 in Ht3. destruct Hx3 as [-> | (code & Hne & ->)]; [| right; naive_solver].
  pose proof (steps_up_rest fuel o s3) as Hs. unfold mbind at 1, M_bind at 1.
  destruct (up_rest fuel o s3) as [r s4]. destruct Hs as (He4 & (Hi4 & Hr4 & _) & Hx4).
  apply extends_touching in He4. rewrite Hi3 in Hi4. rewrite Hr3 in Hr4. rewrite Ht3 in He4.
  destruct r as [[]|code|args| |]; right; try naive_solver.
Qed.

(** ** A whole run *)

(** The process does not exit: it was replaced, was killed, or runs on. *)
Definition no_exit (e : ending) : Prop := match e with Ended _ | ExitTwice _ => False | _ => True end.

(** The commands of a run that create or delete an interface, and how it ends. *)
Inductive up_outcome : ending -> list (list byte) -> Prop :=
| up_refused code : code <> 0 -> up_outcome (Ended code) []
| up_done iface c : creates iface c -> up_outcome (Ended 0) [c]
| up_undone iface c code : creates iface c -> code <> 0 -> up_outcome (Ended code) [c; deletes iface]
| up_undone_twice iface c code : creates iface c -> up_outcome (ExitTwice code) [c; deletes iface]
| up_not_a_pattern iface c : creates iface c -> name_pattern (RByte " ") false iface = None ->
    up_outcome (ExitTwice EBADR) [c]
| up_stopped e : no_exit e -> up_outcome e []
| up_left iface c e : creates iface c -> no_exit e -> up_outcome e [c]
| up_stopped_undoing iface c e : creates iface c -> no_exit e -> up_outcome e [c; deletes iface].

(** Before the creation nothing is registered and nothing is touched. *)
Definition fresh (s : st) : Prop := cleanup_registered s = false /\ touching (st_trace s) = [].
Definition closes (p : res Z * st) : Prop :=
  let '(e, s) := finish p in up_outcome e (touching (st_trace s)).

Lemma closes_bind {A} (m : M A) (k : A -> M Z) (s : st) : ok m -> fresh s ->
  (forall a s', fresh s' -> closes (k a s')) -> closes ((m ≫= k) s).
Proof.
  intros Hm [Hr Ht] Hk. unfold mbind, M_bind. specialize (Hm s). destruct (m s) as [r s'].
  destruct Hm as (He & (_ & Hr' & _) & Hc). apply extends_touching in He. rewrite Hr in Hr'. rewrite Ht in He.
  assert (fresh s') as Hf by done.
  destruct r as [a|code|args| |]; [by apply Hk | | | |]; unfold closes, finish, at_exit; rewrite ?Hr', ?He.
  - apply up_refused. naive_solver.
  - by apply up_stopped.
  - by apply up_stopped.
  - by apply up_stopped.
Qed.

Lemma closes_up (fuel : nat) (o : options) (s : st) : fresh s -> closes ((cmd_up fuel o;; mret 0) s).
Proof.
  intros [Hr Ht]. pose proof (cmd_up_touching fuel o s Hr) as Hs. unfold mbind, M_bind.
  destruct (cmd_up fuel o s) as [r s']. rewrite Ht in Hs. cbn [app] in Hs.
  destruct Hs as [(Hr' & Ht' & Hc & Hn) | (Hr' & (c & Hcr & Ht') & Hs)].
  - destruct r as [[]|code|args| |]; [done | | | |]; unfold closes, finish, at_exit; rewrite ?Hr', ?Ht';
      [apply up_refused; naive_solver | by apply up_stopped ..].
  - destruct Hs as [[Hi ->] | (Hi & Hc & Hn)].
    + unfold closes, finish, at_exit. rewrite Hr'. unfold cmd_up_cleanup. rewrite bind_put, bind_get.
      change (cleanup_iface _) with (cleanup_iface s') at 1. rewrite Hi.
      change (up_outcome (Ended 0) (touching (st_trace s'))). rewrite Ht'. by eapply up_done.
    + destruct r as [[]|code|args| |]; [done | | unfold closes, finish, at_exit; rewrite ?Hr', ?Ht'; by eapply up_left ..].
      unfold closes, finish, at_exit. rewrite Hr'. pose proof (cleanup_touching (o_iface o) s' Hi) as Hs.
      destruct (cmd_up_cleanup s') as [r s2]. destruct Hs as (Hs & Hx). rewrite Ht' in Hs.
      destruct (name_pattern _ false (o_iface o)) as [name|] eqn:En.
      * destruct r as [a|code'|args| |]; rewrite Hs; [| | by eapply up_stopped_undoing ..].
        -- eapply up_undone; [done | naive_solver].
        -- by eapply up_undone_twice.
      * rewrite (Hx eq_refl), Hs. by eapply up_not_a_pattern.
Qed.

(** C15: The commands with which a run of [awg-quick up] creates or deletes an interface, by how
    the run ends.  It exits with another status than 0 before it has touched an interface; or
    it exits with 0, having created the interface; or it exits with another status, having
    created the interface and deleted it again in the exit handler, which may itself exit
    again.  Excepted is a name that is not a pattern (two pluses in a row): the handler exits
    before it deletes the interface.  A run that does not exit, because it was replaced by
    [su], was killed or runs on, has done nothing, or created the interface, or created and
    deleted it: the handler does not run then.  Nothing is ever created or deleted twice. *)
Theorem up_run_cleans (fuel : nat) (program arg : list byte) (w : world) :
  let '(e, s) := process fuel [program; text "up"; arg] w in up_outcome e (touching (st_trace s)).
Proof.
  change (closes ((load_symbols;; main fuel [program; text "up"; arg]) (boot w))).
  apply closes_bind; [apply steps_load_symbols | done |]. intros _ s Hs. unfold main.
  apply closes_bind; [destruct (ph_property _); [by apply steps_put | apply steps_ret] | done |].
  clear s Hs. intros _ s Hs.
  apply closes_bind; [apply steps_auto_su | done |]. clear s Hs. intros _ s Hs.
  apply closes_bind; [apply steps_parse_options | done |]. clear s Hs. intros o s Hs.
  by apply closes_up.
Qed.
End Steps.

(** ** Witness *)

Section Witness.
#[local] Existing Instance lp64_x86.

(** The phone of the example, where one command fails. *)
Definition failing_script : script :=
  Script [(text "awg set wg0 fwmark 0x20000", 256)] [] demo_files 0 None false [x00].

#[local] Instance failing_phone : Phone := script_phone failing_script.
#[local] Instance failing_laws : PhoneLaws failing_phone := script_phone_laws failing_script eq_refl.
#[local] Existing Instance insertion_csort.

Lemma up_run_cleans_witness :
  let '(e, s) := process 10 [text "awg-quick"; text "up"; text "wg0"] (tt : @world failing_phone) in
  up_outcome e (touching (st_trace s)) /\ e = Ended 1
  /\ touching (st_trace s) = [text "ip link add wg0 type amneziawg"; text "ip link del wg0"].
Proof.
  pose proof (up_run_cleans 10 (text "awg-quick") (text "wg0") (tt : @world failing_phone)) as H. revert H.
  assert (let '(e, s) := process 10 [text "awg-quick"; text "up"; text "wg0"] (tt : @world failing_phone) in
    e = Ended 1 /\ touching (st_trace s) = [text "ip link add wg0 type amneziawg"; text "ip link del wg0"]) as Hr
    by (vm_compute; split; reflexivity).
  revert Hr. destruct (process 10 [text "awg-quick"; text "up"; text "wg0"] (tt : @world failing_phone)) as [e s]. tauto.
Defined.
End Witness.
