(* ===== verification/AndroidUsers.v ===== *)
(** * Which applications use the tunnel (wg-quick/android.c)

    [set_users] hands ranges of users to [ndc].  Shown: with ExcludedApplications the ranges
    are the users that are not those of an excluded package, but for 99999 when 99998 is excluded, and with
    IncludedApplications exactly the users of the included ones.  The loop over the list of
    applications reads on behind its NUL: what lies there is a parameter, and the theorem says
    for every content of it what counts as an application and when the array of users overflows. *)

From Stdlib Require Import Sorted Permutation.
From S2P Require Import Prelude CString CSort Regex AndroidShell AndroidBinder Android AndroidScript.
#[local] Open Scope Z_scope.
#[local] Open Scope awg_scope.

(** ** The list of applications *)

(** How often a nonempty token occurs. *)
Definition nonempty_tokens (toks : list (list byte)) : nat := length (List.filter nonempty toks).

Lemma app_token_comma (t rest : list byte) : ~ In ","%byte t -> ~ In x00 t ->
  app_token (t ++ ","%byte :: rest) = Some (t, rest) /\ app_token (t ++ x00 :: rest) = Some (t, rest).
Proof.
  induction t as [|c t IH]; intros Hc Hz; [done |]. cbn [app app_token].
  rewrite (proj2 (byte_eqb_neq c ",")) by (intros ->; apply Hc; by left).
  rewrite (proj2 (byte_eqb_neq c x00)) by (intros ->; apply Hz; by left).
  destruct IH as [-> ->]; [by intros ?; apply Hc; right | by intros ?; apply Hz; right | done].
Qed.

Lemma split_on_nonempty (d : byte) (s : list byte) : split_on d s <> [].
Proof. rewrite split_on_strsep. by destruct (strsep d s). Qed.

(** A string is one token, or a token, a comma and a string. *)
Lemma comma_cases (s : list byte) :
  (~ In ","%byte s /\ split_on "," s = [s])
  \/ exists t s', ~ In ","%byte t /\ s = t ++ ","%byte :: s' /\ split_on "," s = t :: split_on "," s'.
Proof.
  destruct (in_dec byte_eq_dec ","%byte s) as [Hin | Hn]; [right | left; split; [done | by apply split_on_no]].
  induction s as [|c s IH]; [done |]. destruct (byte_eq_dec c ","%byte) as [-> | Hne].
  - exists [], s. by split_and!; [intros [] | |].
  - destruct Hin as [E | Hin]; [done |]. destruct (IH Hin) as (t & s' & Ht & -> & _).
    exists (c :: t), s'. assert (~ In ","%byte (c :: t)) by (intros [?|?]; done).
    split_and!; [done | done | by apply (split_on_app "," (c :: t))].
Qed.

(** The tokens that are read from a list of applications in memory, [heap] being what lies behind
    its NUL: those of the list, and, unless the list ends with a comma, those of the memory behind it,
    up to a token that starts with a NUL; [None] when there is no such token. *)
Definition read_tokens (s heap : list byte) : option (list (list byte)) :=
  if nonempty (List.last (split_on "," s) [])
  then option_map (app (split_on "," s)) (app_tokens (S (length heap)) heap)
  else Some (removelast (split_on "," s)).

Lemma app_token_shorter (mem tok rest : list byte) : app_token mem = Some (tok, rest) -> (length rest < length mem)%nat.
Proof.
  revert tok. induction mem as [|c mem IH]; intros tok; cbn [app_token length]; [done |].
  destruct (_ || _); [intros [= <- <-]; lia |]. destruct (app_token mem) as [[t r]|]; [| done]. intros [= <- <-]. specialize (IH t eq_refl). lia.
Qed.

(** More turns than bytes are enough. *)
Lemma app_tokens_fuel (f g : nat) (mem : list byte) : (length mem < f)%nat -> (length mem < g)%nat -> app_tokens f mem = app_tokens g mem.
Proof.
  revert g mem. induction f as [|f IH]; intros [|g] mem Hf Hg; try lia. cbn [app_tokens].
  destruct (app_token mem) as [[tok rest]|] eqn:E; [| done]. apply app_token_shorter in E. destruct (Byte.eqb _ _); [done |].
  rewrite (IH g) by lia. done.
Qed.

Lemma app_tokens_read (fuel : nat) (s heap : list byte) :
  ~ In x00 s -> (length (s ++ x00 :: heap) < fuel)%nat -> app_tokens fuel (s ++ x00 :: heap) = read_tokens s heap.
Proof.
  revert s. induction fuel as [|fuel IH]; intros s Hz Hl; [lia |]. cbn [app_tokens]. rewrite length_app in Hl. cbn [length] in Hl.
  destruct (comma_cases s) as [[Hc Hs] | (t & s' & Hc & -> & Hs)].
  - destruct (app_token_comma s heap Hc Hz) as [_ ->]. unfold read_tokens. rewrite Hs. cbn [List.last removelast].
    destruct s as [|c s]; cbn [app byte_at nth nonempty]; [by rewrite byte_eqb_refl |].
    rewrite (proj2 (byte_eqb_neq c x00)) by (intros ->; apply Hz; by left).
    rewrite (app_tokens_fuel fuel (S (length heap))) by lia. by destruct (app_tokens _ heap).
  - rewrite <- app_assoc. cbn [app]. assert (~ In x00 t) as Hzt by (intros ?; apply Hz, in_app_iff; by left).
    assert (~ In x00 s') as Hzs by (intros ?; apply Hz, in_app_iff; right; by right).
    destruct (app_token_comma t (s' ++ x00 :: heap) Hc Hzt) as [-> _].
    assert (Byte.eqb (byte_at (t ++ ","%byte :: s' ++ x00 :: heap) 0) x00 = false) as ->.
    { destruct t as [|c t]; [done |]. apply byte_eqb_neq. intros E'. cbn in E'. apply Hzt. by left. }
    rewrite length_app in Hl. cbn [length] in Hl. rewrite IH by (try done; rewrite length_app; cbn [length]; lia).
    unfold read_tokens. rewrite Hs. pose proof (split_on_nonempty "," s') as Hne. destruct (split_on "," s') as [|t' ts]; [done |].
    change (List.last (t :: t' :: ts) []) with (List.last (t' :: ts) []). change (removelast (t :: t' :: ts)) with (t :: removelast (t' :: ts)).
    destruct (nonempty _); [| done]. by destruct (app_tokens _ heap).
Qed.

(** The nonempty ones among the tokens of the list itself. *)
Lemma removelast_filter (f : list byte -> bool) (l : list (list byte)) :
  f (List.last l []) = false -> List.filter f (removelast l) = List.filter f l.
Proof.
  induction l as [|x [|y l] IH]; intros Hf; [done | cbn in *; by rewrite Hf |].
  change (removelast (x :: y :: l)) with (x :: removelast (y :: l)). cbn [List.filter] in *. by rewrite IH.
Qed.

Lemma read_tokens_own (s heap : list byte) (f : list byte -> bool) :
  f [] = false -> List.last (split_on "," s) [] = [] \/ (exists rest, heap = x00 :: rest) ->
  exists toks, read_tokens s heap = Some toks /\ List.filter f toks = List.filter f (split_on "," s).
Proof.
  intros Hf [Hl | (rest & ->)]; unfold read_tokens.
  - rewrite Hl. eexists. split; [done |]. apply removelast_filter. by rewrite Hl.
  - destruct (nonempty _) eqn:E.
    + eexists. split; [done |]. by rewrite app_nil_r.
    + eexists. split; [done |]. apply removelast_filter. by destruct (List.last _ _).
Qed.

Lemma c_str_nul (s rest : list byte) : ~ In x00 s -> c_str (s ++ x00 :: rest) = s.
Proof.
  induction s as [|c s IH]; intros Hz; [done |]. cbn [app c_str].
  rewrite (proj2 (byte_eqb_neq c x00)) by (intros ->; apply Hz; by left).
  rewrite IH; [done |]. intros ?. apply Hz. by right.
Qed.

(** There is room for every token and the zero at the end. *)
Lemma nonempty_split (s : list byte) :
  (nonempty_tokens (split_on "," s) <= S (count_occ byte_eq_dec (drop 1 s) ","%byte))%nat.
Proof.
  assert (forall s, length (split_on "," s) = S (count_occ byte_eq_dec s ","%byte)) as Hlen.
  { clear s. intros s. induction s as [|c s IH]; [done |]. cbn [split_on count_occ].
    destruct (byte_eq_dec c ","%byte) as [-> | Hne].
    - rewrite byte_eqb_refl. cbn [length]. by rewrite IH.
    - rewrite (proj2 (byte_eqb_neq c ",")) by done. destruct (split_on "," s); cbn in *; lia. }
  unfold nonempty_tokens. destruct s as [|c s]; [cbn; lia |]. change (drop 1 (c :: s)) with s.
  rewrite <- Hlen. cbn [split_on]. destruct (Byte.eqb c ","); cbn [List.filter nonempty].
  - apply List.filter_length_le.
  - destruct (split_on "," s) as [|tok toks] eqn:E; [specialize (Hlen s); rewrite E in Hlen; done |]. cbn [List.filter nonempty length].
    pose proof (List.filter_length_le nonempty toks). lia.
Qed.

Lemma split_on_cat (d : byte) (a b : list byte) : split_on d (a ++ d :: b) = split_on d a ++ split_on d b.
Proof.
  induction a as [|c a IH]; cbn [app split_on]; [by rewrite byte_eqb_refl |].
  destruct (Byte.eqb c d); cbn [app]; rewrite IH; [done |].
  pose proof (split_on_nonempty d a). by destruct (split_on d a).
Qed.

(** ** Ranges as text *)

Lemma print_u_inj (a b : Z) : 0 <= a -> 0 <= b -> print_u a = print_u b -> a = b.
Proof.
  intros Ha Hb E. pose proof (numeral_scan 10 a _ (print_base_numeral 10 a ltac:(lia) Ha)) as H1.
  pose proof (numeral_scan 10 b _ (print_base_numeral 10 b ltac:(lia) Hb)) as H2.
  unfold print_u in E. rewrite E in H1. congruence.
Qed.

Lemma print_u_no (c : byte) (n : Z) : is_digit c = false -> 0 <= n -> ~ In c (print_u n).
Proof.
  intros Hc Hn Hin. destruct (print_u_digits n Hn) as [_ Hd]. rewrite Forall_forall in Hd.
  apply list_elem_of_In in Hin. specialize (Hd c Hin). unfold is_digit, in_range in Hc.
  change (b2z "0") with 48 in Hc. change (b2z "9") with 57 in Hc.
  apply andb_false_iff in Hc as [Hc | Hc]; apply Z.leb_gt in Hc; lia.
Qed.

Lemma range_text_no_space (a b : Z) : 0 <= a -> 0 <= b -> ~ In " "%byte (range_text a b).
Proof.
  intros Ha Hb. unfold range_text. destruct (a =? b); [by apply print_u_no |].
  rewrite !in_app_iff. intros [Hin | [Hin | Hin]]; [by eapply print_u_no in Hin | | by eapply print_u_no in Hin].
  by destruct Hin as [Hin | []].
Qed.

Lemma range_text_inj (a b a' b' : Z) : 0 <= a -> 0 <= b -> 0 <= a' -> 0 <= b' ->
  range_text a b = range_text a' b' -> a = a' /\ b = b'.
Proof.
  intros Ha Hb Ha' Hb' E.
  assert (forall a b, 0 <= a -> 0 <= b -> split_on "-" (range_text a b)
    = if a =? b then [print_u a] else [print_u a; print_u b]) as Hs.
  { clear. intros a b Ha Hb. unfold range_text. destruct (a =? b).
    - apply split_on_no. by apply print_u_no.
    - change (text "-" ++ print_u b) with ("-"%byte :: print_u b).
      rewrite (split_on_app "-" (print_u a)) by (by apply print_u_no).
      f_equal. apply split_on_no. by apply print_u_no. }
  pose proof (Hs a b Ha Hb) as H1. pose proof (Hs a' b' Ha' Hb') as H2. rewrite <- E in H2. rewrite H1 in H2.
  destruct (Z.eqb_spec a b) as [-> | ?], (Z.eqb_spec a' b') as [-> | ?]; try done.
  - injection H2 as E1. by apply print_u_inj in E1 as ->.
  - injection H2 as E1 E2. split; by apply print_u_inj.
Qed.

(** ** The ranges between users *)

(** The ranges that [excluded_loop] writes before it stops, and where the last one starts. *)
Fixpoint gaps (start : Z) (uids : list Z) : list (Z * Z) :=
  match uids with
  | [] => []
  | u :: us => if u - 1 <? start then gaps (u + 1) us else (start, u - 1) :: gaps (u + 1) us
  end.
Fixpoint next_start (start : Z) (uids : list Z) : Z :=
  match uids with [] => start | u :: us => next_start (u + 1) us end.

Lemma next_start_spec (start : Z) (uids : list Z) : StronglySorted Z.le uids ->
  (uids = [] /\ next_start start uids = start)
  \/ exists l, In l uids /\ next_start start uids = l + 1 /\ forall u, In u uids -> u <= l.
Proof.
  intros Hs. revert start. induction Hs as [|u us Hus IH Hu]; intros start; [by left |]. right.
  cbn [next_start]. destruct (IH (u + 1)) as [[-> ->] | (l & Hl & -> & Hmax)].
  - exists u. split_and!; [by left | done |]. intros v [-> | []]. lia.
  - exists l. split_and!; [by right | done |]. intros v [<- | Hv]; [| auto].
    rewrite Forall_forall in Hu. apply Hu. by apply list_elem_of_In.
Qed.

Lemma in_gaps (uids : list Z) (start x : Z) : StronglySorted Z.le uids ->
  Forall (fun u => start - 1 <= u) uids ->
  (exists a b, In (a, b) (gaps start uids) /\ a <= x <= b)
  <-> start <= x /\ ~ In x uids /\ x < next_start start uids.
Proof.
  intros Hs. revert start. induction Hs as [|u us Hus IH Hu]; intros start Hst; cbn [gaps next_start In].
  - split; [naive_solver | lia].
  - apply Forall_cons in Hst as [Hst Hst']. rewrite Forall_forall in Hu.
    specialize (IH (u + 1)). assert (Forall (fun v => u + 1 - 1 <= v) us) as Hf.
    { apply Forall_forall. intros v Hv. specialize (Hu v Hv). lia. }
    specialize (IH Hf). assert (forall v, In v us -> u <= v) as Hle.
    { intros v Hv. apply Hu. by apply list_elem_of_In. }
    assert (u + 1 <= next_start (u + 1) us) as Hn.
    { destruct (next_start_spec (u + 1) us Hus) as [[_ ->] | (l & Hl & -> & _)]; [lia | specialize (Hle l Hl); lia]. }
    destruct (Z.ltb_spec (u - 1) start).
    + rewrite IH. split; [intros (? & ? & ?); split_and!; [lia | intros [? | ?]; [lia | done] | done] |].
      intros (? & Hni & ?). assert (x <> u) by (intros ->; apply Hni; by left).
      split_and!; [lia | intros ?; apply Hni; by right | done].
    + split.
      * intros (a & b & [[= <- <-] | Hin] & Hx).
        -- split_and!; [lia | intros [? | Hv]; [lia | specialize (Hle x Hv); lia] | lia].
        -- destruct (proj1 IH) as (? & Hni & ?); [by exists a, b |]. split_and!; [lia | intros [? | ?]; [lia | done] | done].
      * intros (? & Hni & ?). destruct (Z.ltb_spec x u) as [Hlt | Hge].
        -- exists start, (u - 1). split; [by left | lia].
        -- assert (x <> u) by (intros ->; apply Hni; by left).
           destruct (proj2 IH) as (a & b & Hin & Hx); [| exists a, b; split; [by right | done]].
           split_and!; [lia | intros ?; apply Hni; by right | done].
Qed.

(** All the ranges of the exclusive form. *)
Definition all_gaps (uids : list Z) : list (Z * Z) :=
  gaps 0 uids ++ (if next_start 0 uids <? 99999 then [(next_start 0 uids, 99999)] else []).

Lemma in_all_gaps (uids : list Z) (x : Z) : StronglySorted Z.le uids -> Forall (fun u => 0 < u) uids ->
  (exists a b, In (a, b) (all_gaps uids) /\ a <= x <= b)
  <-> 0 <= x /\ ~ In x uids /\ ((exists u, In u uids /\ x < u) \/ (x <= 99999 /\ forall u, In u uids -> u < 99998)).
Proof.
  intros Hs Hp. pose proof (in_gaps uids 0 x Hs) as Hg. pose proof (next_start_spec 0 uids Hs) as Hn.
  assert (Forall (fun u => 0 - 1 <= u) uids) as Hf by (eapply Forall_impl; [exact Hp |]; cbn; lia).
  specialize (Hg Hf). set (n := next_start 0 uids) in *. unfold all_gaps. fold n.
  assert ((exists a b, In (a, b) (gaps 0 uids ++ (if n <? 99999 then [(n, 99999)] else [])) /\ a <= x <= b)
    <-> (exists a b, In (a, b) (gaps 0 uids) /\ a <= x <= b) \/ (n < 99999 /\ n <= x <= 99999)) as ->.
  { setoid_rewrite in_app_iff. split.
    - intros (a & b & [Hin | Hin] & Hx); [left; by exists a, b | right].
      destruct (Z.ltb_spec n 99999); [| done]. by destruct Hin as [[= <- <-] | []].
    - intros [(a & b & Hin & Hx) | [Hlt Hx]]; [exists a, b; auto | exists n, 99999].
      rewrite (proj2 (Z.ltb_lt n 99999)) by done. split; [right; by left | done]. }
  rewrite Hg. destruct Hn as [[-> Hn] | (l & Hl & Hn & Hmax)].
  - rewrite Hn. cbn [In]. split; [intros [? | ?]; [lia |] | intros (? & _ & [(? & [] & _) | ?]); lia].
    split_and!; [lia | by intros [] | right]. split; [lia | by intros ? []].
  - rewrite Hn. split.
    + intros [(? & Hni & ?) | [? ?]].
      * split_and!; [done | done | left]. exists l. split; [done |]. assert (x <> l) by (by intros ->). lia.
      * rewrite Forall_forall in Hp. assert (0 < l) by (apply Hp; by apply list_elem_of_In).
        split_and!; [lia | intros ?%Hmax; lia | right]. split; [lia |]. intros u ?%Hmax. lia.
    + intros (? & Hni & [(u & Hu & ?) | [? Hall]]); [left; specialize (Hmax u Hu); split_and!; [done | done | lia] |].
      specialize (Hall l Hl). destruct (Z.ltb_spec x (l + 1)); [left; done | right; lia].
Qed.

Section Users.
Context `{Platform} {P : Phone} {CS : CSort} {CSL : CSortLaws CS}.

(** The packages of a file. *)
Definition packages (f : file) : list (list byte * Z) :=
  omap package_line (map c_str (getlines (f_content f))).

(** [u] is the user of a package that the tokens name. *)
Definition selected_uid (f : file) (toks : list (list byte)) (u : Z) : Prop :=
  exists name, In (name, u) (packages f) /\ In name toks /\ name <> [].

(** What the loop over the packages collects. *)
Definition collected (toks : list (list byte)) (pkgs : list (list byte * Z)) : list Z :=
  flat_map (fun '(name, u) => repeat u (times_selected toks name)) pkgs.

Lemma times_selected_cons (tok : list byte) (toks : list (list byte)) (name : list byte) :
  times_selected (tok :: toks) name
  = ((if nonempty tok && beq tok name then 1 else 0) + times_selected toks name)%nat.
Proof. unfold times_selected. cbn [List.filter]. by destruct (nonempty tok && beq tok name). Qed.

(** A token is counted for one name at most. *)
Lemma collected_length (toks : list (list byte)) (pkgs : list (list byte * Z)) :
  NoDup (map fst pkgs) -> (length (collected toks pkgs) <= nonempty_tokens toks)%nat.
Proof.
  intros Hnd. unfold collected, nonempty_tokens. induction toks as [|tok toks IH].
  - clear Hnd. induction pkgs as [|[n u] pkgs IHp]; [done |]. exact IHp.
  - assert (length (flat_map (fun '(name, u) => repeat u (times_selected (tok :: toks) name)) pkgs)
      = (if nonempty tok then length (List.filter (fun '(n, _) => beq tok n) pkgs) else 0)
        + length (flat_map (fun '(name, u) => repeat u (times_selected toks name)) pkgs))%nat as ->.
    { clear. induction pkgs as [|[n u] pkgs IHp]; cbn [flat_map List.filter length]; [by destruct (nonempty tok) |].
      rewrite !length_app, !repeat_length, times_selected_cons, IHp.
      destruct (nonempty tok), (beq tok n); cbn; lia. }
    assert (length (List.filter (fun '(n, _) => beq tok n) pkgs) <= 1)%nat as H1.
    { clear IH. induction pkgs as [|[n u] pkgs IHp]; cbn [List.filter length]; [lia |].
      cbn in Hnd. apply NoDup_cons in Hnd as [Hn Hnd]. destruct (beq tok n) eqn:E; [| by apply IHp].
      apply beq_eq in E as ->. assert (List.filter (fun '(n', _) => beq n n') pkgs = []) as ->; [| done].
      clear IHp Hnd. induction pkgs as [|[m v] pkgs IHp]; [done |]. cbn in Hn |- *.
      destruct (beq n m) eqn:E; [apply beq_eq in E as ->; exfalso; apply Hn; left |]. apply IHp. intros Hin. apply Hn. by right. }
    cbn [List.filter]. destruct (nonempty tok); cbn [length]; lia.
Qed.

Lemma collected_same (toks toks' : list (list byte)) (pkgs : list (list byte * Z)) :
  List.filter nonempty toks = List.filter nonempty toks' -> collected toks pkgs = collected toks' pkgs.
Proof.
  intros Hs. unfold collected. induction pkgs as [|[n u] pkgs IH]; [done |]. cbn [flat_map]. rewrite IH. do 2 f_equal.
  unfold times_selected. f_equal.
  assert (forall l, List.filter (fun tok => nonempty tok && beq tok n) l = List.filter (fun tok => beq tok n) (List.filter nonempty l)) as Hf.
  { induction l as [|x l IHl]; [done |]. cbn. destruct (nonempty x); cbn; by rewrite IHl. }
  by rewrite !Hf, Hs.
Qed.

Lemma in_collected (f : file) (toks : list (list byte)) (u : Z) :
  In u (collected toks (packages f)) <-> selected_uid f toks u.
Proof.
  unfold collected, selected_uid. rewrite in_flat_map. split.
  - intros ([name u'] & Hin & Hr). apply repeat_spec in Hr as Hu. subst u'. exists name. split; [done |].
    unfold times_selected in Hr. destruct (List.filter _ _) as [|tok l] eqn:E; [done |].
    assert (In tok (tok :: l)) as Ht by (by left). rewrite <- E in Ht. apply filter_In in Ht as [Ht Hb].
    apply andb_true_iff in Hb as [Hne ->%beq_eq]. split; [done |]. by destruct name.
  - intros (name & Hin & Hs & Hne). exists (name, u). split; [done |].
    assert (In name (List.filter (fun tok => nonempty tok && beq tok name) toks)) as Hf.
    { apply filter_In. split; [done |]. rewrite beq_refl. by destruct name. }
    unfold times_selected. destruct (List.filter _ _); [done |]. by left.
Qed.

Lemma packages_loop_spec (apps : list byte) (room : nat) (toks : list (list byte)) (lines : list (list byte)) (acc : list Z) :
  app_tokens (S (length (mem_of apps))) (mem_of apps) = Some toks -> (length acc <= room)%nat ->
  packages_loop apps room lines acc
  = if (room <? length acc + length (collected toks (omap package_line lines)))%nat then None
    else Some (acc ++ collected toks (omap package_line lines)).
Proof.
  intros Ht. revert acc. induction lines as [|line lines IH]; intros acc Hl; cbn [packages_loop omap list_omap].
  - rewrite (proj2 (Nat.ltb_ge _ _)) by (cbn; lia). by rewrite app_nil_r.
  - change (omap package_line (line :: lines)) with
      (match package_line line with Some y => y :: omap package_line lines | None => omap package_line lines end) in *.
    destruct (package_line line) as [[name u]|]; [| by apply IH].
    rewrite Ht. cbn [collected flat_map] in *. fold (collected toks (omap package_line lines)) in *. rewrite !length_app.
    destruct (Nat.ltb_spec room (length acc + length (repeat u (times_selected toks name)))).
    + by rewrite (proj2 (Nat.ltb_lt _ _)) by lia.
    + rewrite IH by (rewrite length_app; lia). by rewrite length_app, app_assoc, Nat.add_assoc.
Qed.

Lemma packages_loop_outside (apps : list byte) (room : nat) (lines : list (list byte)) (acc : list Z) :
  app_tokens (S (length (mem_of apps))) (mem_of apps) = None -> omap package_line lines <> [] -> packages_loop apps room lines acc = None.
Proof.
  intros Ht. induction lines as [|line lines IH]; cbn [packages_loop]; [done |].
  change (omap package_line (line :: lines)) with
    (match package_line line with Some y => y :: omap package_line lines | None => omap package_line lines end).
  destruct (package_line line) as [[name u]|]; [by rewrite Ht | exact IH].
Qed.

(** The users the array holds, and as many zeros behind them as there is room for. *)
Definition uid_cells (uids cells : list Z) : Prop := exists k, cells = uids ++ 0 :: repeat 0 k.

(** The file of the packages, readable, each package once, the users of applications. *)
Record packages_list (w : world) (f : file) : Prop := PackagesList {
  pl_open : ph_fopen (text "/data/system/packages.list") w = inr f;
  pl_names : NoDup (map fst (packages f));
  pl_users : Forall (fun '(_, u) => u < 2 ^ 31) (packages f);
}.

(** A list of applications: a string that is not empty. *)
Record app_list (apps : list byte) : Prop := AppList {
  al_nonempty : apps <> [];
  al_text : ~ In x00 apps;
}.

(** The cells of the array. *)
Definition room_of (apps : list byte) : nat := (2 + count_occ byte_eq_dec (drop 1 apps) ","%byte)%nat.

Lemma package_line_range (line name : list byte) (u : Z) :
  package_line line = Some (name, u) -> 0 < u < 2 ^ 32.
Proof.
  unfold package_line. destruct (strsep " " line) as [n [rest|]]; [| done].
  destruct (strtoul 10 _) as [v e]. pose proof (uw_range 32 v ltac:(lia)).
  destruct (Z.eqb_spec (u32 v) 0); cbn [orb]; [done |]. destruct (_ || _); [done |].
  intros [= <- <-]. unfold u32 in *. lia.
Qed.

Lemma packages_range (f : file) : Forall (fun '(_, u) => 0 < u) (packages f).
Proof.
  unfold packages. apply Forall_forall. intros [name u] Hin.
  apply list_elem_of_omap in Hin as (line & _ & Hl). apply package_line_range in Hl. lia.
Qed.

Lemma compare_uid_small (a b : Z) : 0 <= a < 2 ^ 31 -> 0 <= b < 2 ^ 31 -> compare_uid a b = a - b.
Proof.
  intros Ha Hb. unfold compare_uid, s32, u32, uw. change (2 ^ 32) with 4294967296. change (2 ^ 31) with 2147483648 in *. zlia.
Qed.

Lemma uid_list_room_of (apps : list byte) : app_list apps -> uid_list_room apps = Some (room_of apps).
Proof.
  intros [Hne Hz]. unfold uid_list_room, mem_of. destruct apps as [|c apps]; [done |].
  change (drop 1 ((c :: apps) ++ x00 :: ph_heap (c :: apps))) with (apps ++ x00 :: ph_heap (c :: apps)).
  rewrite (proj2 (has_byte_iff _ _)) by (apply in_app_iff; right; by left).
  rewrite c_str_nul; [done |]. intros Hin. apply Hz. by right.
Qed.

(** The list of users, for every content of the memory behind the applications. *)
Lemma get_uid_list_read (f : file) (apps : list byte) (toks : list (list byte)) (s : st) :
  packages_list (st_world s) f -> app_list apps -> read_tokens apps (ph_heap apps) = Some toks ->
  let got := collected toks (packages f) in
  get_uid_list (Some apps) s
  = if (room_of apps <? length got)%nat then (Undefined, s)
    else (Ret (qsort compare_uid got ++ repeat 0 (room_of apps - length got)), s).
Proof.
  intros [Ho _ _] Hl Ht got. unfold get_uid_list. rewrite uid_list_room_of by done. unfold deref. rewrite bind_ret, bind_get, Ho.
  rewrite (packages_loop_spec apps _ toks); cycle 1.
  { unfold mem_of. by rewrite app_tokens_read by (try lia; by destruct Hl). }
  { cbn. lia. }
  cbn [length plus app]. fold (packages f) got. by destruct (_ <? _)%nat.
Qed.

Lemma get_uid_list_outside (f : file) (apps : list byte) (s : st) :
  packages_list (st_world s) f -> app_list apps -> read_tokens apps (ph_heap apps) = None -> packages f <> [] ->
  get_uid_list (Some apps) s = (Undefined, s).
Proof.
  intros [Ho _ _] Hl Ht Hne. unfold get_uid_list. rewrite uid_list_room_of by done. unfold deref. rewrite bind_ret, bind_get, Ho.
  rewrite packages_loop_outside; [done | | done]. unfold mem_of. by rewrite app_tokens_read by (try lia; by destruct Hl).
Qed.

(** Where the tokens are those of the list alone, there is room for every user and a zero. *)
Lemma own_tokens_fit (f : file) (apps : list byte) (toks : list (list byte)) :
  NoDup (map fst (packages f)) -> List.filter nonempty toks = List.filter nonempty (split_on "," apps) ->
  (length (collected toks (packages f)) < room_of apps)%nat.
Proof.
  intros Hnd Hs. eapply Nat.le_lt_trans; [by apply collected_length |]. unfold nonempty_tokens. rewrite Hs.
  pose proof (nonempty_split apps). unfold nonempty_tokens, room_of in *. lia.
Qed.

(** The users in order. *)
Lemma sorted_users (f : file) (toks : list (list byte)) (w : world) : packages_list w f ->
  let uids := qsort compare_uid (collected toks (packages f)) in
  StronglySorted Z.le uids /\ Forall (fun u => 0 < u < 2 ^ 31) uids /\ length uids = length (collected toks (packages f))
  /\ forall u, In u uids <-> selected_uid f toks u.
Proof.
  intros [_ _ Hu]. cbv zeta. set (got := collected toks (packages f)).
  assert (forall u, In u got -> 0 < u < 2 ^ 31) as Hrange.
  { intros u (name & Hin & _)%in_collected. pose proof (packages_range f) as Hp. rewrite Forall_forall in Hp, Hu.
    apply list_elem_of_In in Hin. specialize (Hp _ Hin). specialize (Hu _ Hin). cbn in Hp, Hu. lia. }
  split_and!.
  - rewrite (qsort_ext _ Z.sub).
    + assert (StronglySorted (fun x y => x - y <= 0) (qsort Z.sub got)) as Hs by (apply qsort_sorted; split; lia).
      induction Hs as [|x l _ IH Hx]; constructor; [done |]. eapply Forall_impl; [exact Hx |]. cbn. lia.
    + intros x y Hx%Hrange Hy%Hrange. apply compare_uid_small; lia.
  - apply Forall_forall. intros u Hin. apply Hrange. apply list_elem_of_In in Hin.
    by eapply Permutation_in; [apply qsort_perm |].
  - apply Permutation_length, qsort_perm.
  - intros u. rewrite <- in_collected. fold got.
    split; apply Permutation_in; [apply qsort_perm | symmetry; apply qsort_perm].
Qed.

(** The array when it has a cell left. *)
Lemma get_uid_list_spec (f : file) (apps : list byte) (toks : list (list byte)) (s : st) :
  packages_list (st_world s) f -> app_list apps -> read_tokens apps (ph_heap apps) = Some toks ->
  (length (collected toks (packages f)) < room_of apps)%nat ->
  exists uids cells, get_uid_list (Some apps) s = (Ret cells, s) /\ uid_cells uids cells
    /\ StronglySorted Z.le uids /\ Forall (fun u => 0 < u < 2 ^ 31) uids
    /\ forall u, In u uids <-> selected_uid f toks u.
Proof.
  intros Hf Hl Ht Hlt. destruct (sorted_users f toks _ Hf) as (Hs & Hr & Hlen & Hin). rewrite (get_uid_list_read f apps toks) by done. cbv zeta.
  rewrite (proj2 (Nat.ltb_ge _ _)) by lia. eexists _, _. split; [done |]. split; [| done].
  exists (room_of apps - length (collected toks (packages f)) - 1)%nat. f_equal. change (0 :: repeat 0 ?n) with (repeat 0 (S n)). f_equal. lia.
Qed.

(** ** The commands *)

(** The daemon behind [ndc] accepts what it is told. *)
Definition ndc_accepts : Prop := forall c w, exists out e w' l ls,
  ph_popen (text "ndc " ++ c) w = (inr (out, e), w')
  /\ map c_str (getlines out) = l :: ls /\ ~ (400 <= atoi l < 600).

Lemma cndc_accepted (c : list byte) (s : st) : ndc_accepts ->
  exists s', cndc c s = (Ret tt, s')
    /\ st_trace s' = st_trace s ++ [Printed (text "[#] " ++ (text "ndc " ++ c) ++ [x0a]); Opened (text "ndc " ++ c)].
Proof.
  intros Ha. destruct (Ha c (st_world s)) as (out & e & w' & l & ls & Hp & Hl & Hc).
  unfold cndc, cmd_ret, vcmd_ret, popen, printf, emit, put, on_world, mbind, M_bind, mret, M_ret.
  destruct s as [w0 tr ex ba sdk awg ci cr]. cbn [st_world st_trace modify] in *.
  change (st_world _) with w0. rewrite Hp. cbv beta iota. rewrite Hl. cbn [getline mret M_ret]. unfold mret, M_ret.
  cbv beta iota. assert ((400 <=? atoi l) && (atoi l <? 600) = false) as ->.
  { apply andb_false_iff. destruct (Z.leb_spec 400 (atoi l)); [right; apply Z.ltb_ge; lia | by left]. }
  eexists. split; [done |]. cbn [st_trace modify]. by rewrite <- app_assoc.
Qed.

(** The arguments of the commands that add users to a network. *)
Definition users_command (n : Z) : list byte := text "ndc network users add " ++ print_u n ++ text " ".

Definition added (n : Z) (t : list event) : list (list byte) :=
  flat_map (fun e => match e with
    | Opened c => if beq (take (length (users_command n)) c) (users_command n)
                  then split_on " " (drop (length (users_command n)) c) else []
    | _ => []
    end) t.

(** A user is in one of the ranges handed over. *)
Definition user_added (n : Z) (t : list event) (x : Z) : Prop :=
  exists a b, In (range_text a b) (added n t) /\ 0 <= a <= x /\ x <= b.

Lemma added_app (n : Z) (t u : list event) : added n (t ++ u) = added n t ++ added n u.
Proof. apply flat_map_app. Qed.

Lemma add_users_accepted (n : Z) (ranges : list byte) (s : st) : ndc_accepts ->
  exists s' evs, add_users n ranges s = (Ret tt, s') /\ st_trace s' = st_trace s ++ evs
    /\ added n evs = split_on " " ranges.
Proof.
  intros Ha. destruct (cndc_accepted (text "network users add " ++ print_u n ++ text " " ++ ranges) s Ha) as (s' & E & Ht).
  exists s'. eexists. split_and!; [exact E | exact Ht |]. cbn [added flat_map]. rewrite app_nil_r.
  assert (text "ndc " ++ text "network users add " ++ print_u n ++ text " " ++ ranges = users_command n ++ ranges) as ->.
  { unfold users_command. by rewrite <- !app_assoc. }
  rewrite take_app_length, beq_refl, drop_app_length. done.
Qed.

(** The arguments that wait for the next command. *)
Definition waiting (toks : list (list byte)) (ranges : option (list byte)) : Prop :=
  match ranges with
  | None => toks = []
  | Some r => split_on " " r = toks
  end.

Lemma waiting_add (toks : list (list byte)) (ranges : option (list byte)) (range : list byte) :
  waiting toks ranges -> ~ In " "%byte range ->
  waiting (toks ++ [range]) (concat_and_free ranges (text " ") range).
Proof.
  intros Hp Hr. destruct ranges as [r|]; cbn [concat_and_free waiting] in *.
  - change (text " " ++ range) with (" "%byte :: range). by rewrite split_on_cat, Hp, (split_on_no " " range).
  - subst toks. by apply split_on_no.
Qed.

(** A step of the loops: [range] goes into a command or waits. *)
Lemma add_range_accepted (n : Z) (range : list byte) (args : Z) (toks : list (list byte)) (ranges : option (list byte)) (s : st) :
  ndc_accepts -> waiting toks ranges -> ~ In " "%byte range ->
  exists args' ranges' toks' s' evs, add_range n range args ranges s = (Ret (args', ranges'), s')
    /\ waiting toks' ranges' /\ st_trace s' = st_trace s ++ evs
    /\ added n evs ++ toks' = toks ++ [range].
Proof.
  intros Ha Hp Hr. pose proof (waiting_add _ _ _ Hp Hr) as Hp'. unfold add_range.
  destruct (u32 (args + 1) mod 18 =? 0).
  - destruct (concat_and_free ranges (text " ") range) as [r|] eqn:Ec; [| by destruct ranges].
    destruct (add_users_accepted n r s Ha) as (s' & evs & E & Ht & Hadd).
    eexists _, None, [], s', evs. cbn [default]. rewrite (bind_eq _ _ _ _ _ E). split_and!; [done | done | done |].
    by rewrite app_nil_r, Hadd.
  - eexists _, _, _, s, []. split_and!; [done | exact Hp' | by rewrite app_nil_r | done].
Qed.

Definition range_texts : list (Z * Z) -> list (list byte) := map (fun '(a, b) => range_text a b).

Lemma excluded_loop_accepted (n : Z) (uids pad : list Z) (start args : Z) (toks : list (list byte))
    (ranges : option (list byte)) (s : st) :
  ndc_accepts -> Forall (fun u => 0 < u < 2 ^ 31) uids -> 0 <= start -> waiting toks ranges ->
  exists ranges' toks' s' evs,
    excluded_loop n (uids ++ 0 :: pad) start args ranges s = (Ret (next_start start uids, ranges'), s')
    /\ waiting toks' ranges' /\ st_trace s' = st_trace s ++ evs
    /\ added n evs ++ toks' = toks ++ range_texts (gaps start uids).
Proof.
  intros Ha Hu. revert start args toks ranges s. induction Hu as [|u us Hu Hus IH]; intros start args toks ranges s Hst Hp.
  - exists ranges, toks, s, []. by rewrite !app_nil_r.
  - cbn [app excluded_loop next_start gaps]. change (2 ^ 31) with 2147483648 in Hu.
    rewrite (proj2 (Z.eqb_neq u 0)) by lia.
    assert (u32 (u - 1) = u - 1) as -> by (apply Z.mod_small; lia).
    assert (u32 (u + 1) = u + 1) as -> by (apply Z.mod_small; lia).
    destruct (Z.ltb_spec (u - 1) start); [by apply IH; [lia |] |].
    destruct (add_range_accepted n (range_text start (u - 1)) args toks ranges s Ha Hp) as (args' & r1 & t1 & s1 & e1 & E1 & Hp1 & Ht1 & Had1).
    { apply range_text_no_space; lia. }
    rewrite (bind_eq _ _ _ _ _ E1). cbv beta iota.
    destruct (IH (u + 1) args' t1 r1 s1) as (r2 & t2 & s2 & e2 & E2 & Hp2 & Ht2 & Had2); [lia | done |].
    exists r2, t2, s2, (e1 ++ e2). split_and!; [done | done | by rewrite Ht2, Ht1, app_assoc |].
    rewrite added_app, <- app_assoc, Had2, app_assoc, Had1, <- app_assoc. done.
Qed.

Lemma included_loop_accepted (n : Z) (uids pad : list Z) (args : Z) (toks : list (list byte))
    (ranges : option (list byte)) (s : st) :
  ndc_accepts -> Forall (fun u => 0 < u < 2 ^ 31) uids -> waiting toks ranges ->
  exists ranges' toks' s' evs,
    included_loop n (uids ++ 0 :: pad) args ranges s = (Ret ranges', s')
    /\ waiting toks' ranges' /\ st_trace s' = st_trace s ++ evs
    /\ added n evs ++ toks' = toks ++ range_texts (map (fun u => (u, u)) uids).
Proof.
  intros Ha Hu. revert args toks ranges s. induction Hu as [|u us Hu Hus IH]; intros args toks ranges s Hp.
  - exists ranges, toks, s, []. by rewrite !app_nil_r.
  - cbn [app included_loop map range_texts]. rewrite (proj2 (Z.eqb_neq u 0)) by lia.
    destruct (add_range_accepted n (print_u u) args toks ranges s Ha Hp) as (args' & r1 & t1 & s1 & e1 & E1 & Hp1 & Ht1 & Had1).
    { apply print_u_no; [done | lia]. }
    rewrite (bind_eq _ _ _ _ _ E1). cbv beta iota.
    destruct (IH args' t1 r1 s1 Hp1) as (r2 & t2 & s2 & e2 & E2 & Hp2 & Ht2 & Had2).
    exists r2, t2, s2, (e1 ++ e2). split_and!; [done | done | by rewrite Ht2, Ht1, app_assoc |].
    rewrite added_app, <- app_assoc, Had2, app_assoc, Had1, <- app_assoc. cbn [app].
    unfold range_text at 1. by rewrite Z.eqb_refl.
Qed.

(** The command that ends [set_users]. *)
Lemma last_command (n : Z) (toks : list (list byte)) (ranges : option (list byte)) (s : st) :
  ndc_accepts -> waiting toks ranges ->
  exists s' evs, match ranges with Some ranges => add_users n ranges | None => mret tt end s = (Ret tt, s')
    /\ st_trace s' = st_trace s ++ evs /\ added n evs = toks.
Proof.
  intros Ha Hp. destruct ranges as [r|]; cbn in Hp.
  - destruct (add_users_accepted n r s Ha) as (s' & evs & E & Ht & Had). exists s', evs. by rewrite Had.
  - exists s, []. by rewrite app_nil_r, Hp.
Qed.

(** Users are in the ranges handed over exactly when they are in the intervals. *)
Lemma user_added_ranges (n : Z) (evs : list event) (rs : list (Z * Z)) (x : Z) :
  added n evs = range_texts rs -> Forall (fun '(a, b) => 0 <= a <= b) rs ->
  user_added n evs x <-> exists a b, In (a, b) rs /\ a <= x <= b.
Proof.
  intros E Hrs. unfold user_added. rewrite E. unfold range_texts. rewrite Forall_forall in Hrs. split.
  - intros (a & b & Hin & Hx). apply in_map_iff in Hin as ([a' b'] & E' & Hin).
    assert (0 <= a' <= b') as Hab by (apply (Hrs (a', b')); by apply list_elem_of_In).
    apply range_text_inj in E' as [-> ->]; [| lia ..]. exists a, b. split; [done | lia].
  - intros (a & b & Hin & Hx). assert (0 <= a <= b) as Hab by (apply (Hrs (a, b)); by apply list_elem_of_In).
    exists a, b. split; [| lia]. apply in_map_iff. by exists (a, b).
Qed.

Lemma all_gaps_ok (uids : list Z) : Forall (fun u => 0 < u) uids -> Forall (fun '(a, b) => 0 <= a <= b) (all_gaps uids).
Proof.
  intros Hu. unfold all_gaps. assert (forall start, 0 <= start ->
    Forall (fun '(a, b) => 0 <= a <= b) (gaps start uids) /\ 0 <= next_start start uids) as Hg.
  { induction Hu as [|u us Hu Hus IH]; intros start Hst; cbn [gaps next_start]; [by split; [constructor |] |].
    destruct (IH (u + 1)) as [IH1 IH2]; [lia |]. split; [| done].
    destruct (Z.ltb_spec (u - 1) start); [done |]. constructor; [lia | done]. }
  destruct (Hg 0) as [Hg1 Hg2]; [lia |]. apply Forall_app. split; [done |].
  destruct (Z.ltb_spec (next_start 0 uids) 99999); constructor; [lia | done].
Qed.

(** What [set_users] hands over when the array holds [uids]. *)
Lemma set_users_excluded_cells (n : Z) (apps : list byte) (uids cells : list Z) (s : st) :
  ndc_accepts -> get_uid_list (Some apps) s = (Ret cells, s) -> uid_cells uids cells ->
  Forall (fun u => 0 < u < 2 ^ 31) uids ->
  exists s' evs, set_users n (Some apps) None s = (Ret tt, s') /\ st_trace s' = st_trace s ++ evs
    /\ added n evs = range_texts (all_gaps uids).
Proof.
  intros Ha Hg (k & ->) Hu. unfold set_users.
  destruct (excluded_loop_accepted n uids (repeat 0 k) 0 0 [] None s Ha Hu) as (r & toks & s1 & e1 & E1 & Hp & Ht1 & Had1);
    [lia | done |].
  set (start := next_start 0 uids) in *.
  set (ranges := if start <? 99999 then concat_and_free r (text " ") (print_u start ++ text "-99999") else r).
  assert (0 <= start) as Hst.
  { destruct uids as [|u us]; [done |]. unfold start. clear -Hu. cbn [next_start].
    apply Forall_cons in Hu as [Hu Hus]. assert (0 <= u + 1) by lia. revert H. generalize (u + 1).
    induction Hus as [|v vs Hv _ IH]; intros z Hz; [done |]. cbn. apply IH. lia. }
  assert (waiting (toks ++ range_texts (if start <? 99999 then [(start, 99999)] else [])) ranges) as Hp2.
  { unfold ranges. destruct (Z.ltb_spec start 99999) as [Hlt|]; [| by rewrite app_nil_r].
    assert (print_u start ++ text "-99999" = range_text start 99999) as ->.
    { unfold range_text. by rewrite (proj2 (Z.eqb_neq _ _)) by lia. }
    apply waiting_add; [done |]. apply range_text_no_space; lia. }
  destruct (last_command n _ ranges s1 Ha Hp2) as (s2 & e2 & E2 & Ht2 & Had2).
  exists s2, (e1 ++ e2). split_and!.
  - unfold mbind, M_bind. rewrite Hg, E1. exact E2.
  - by rewrite Ht2, Ht1, app_assoc.
  - rewrite added_app, Had2, app_assoc, Had1. unfold all_gaps, range_texts. by rewrite map_app.
Qed.

(** The exclusive form. *)
Lemma set_users_excluded (n : Z) (f : file) (apps : list byte) (toks : list (list byte)) (s : st) :
  ndc_accepts -> packages_list (st_world s) f -> app_list apps -> read_tokens apps (ph_heap apps) = Some toks ->
  (length (collected toks (packages f)) < room_of apps)%nat ->
  exists s' evs, set_users n (Some apps) None s = (Ret tt, s') /\ st_trace s' = st_trace s ++ evs
    /\ forall x, user_added n evs x <->
         0 <= x /\ ~ selected_uid f toks x
         /\ ((exists u, selected_uid f toks u /\ x < u)
             \/ (x <= 99999 /\ forall u, selected_uid f toks u -> u < 99998)).
Proof.
  intros Ha Hf Hl Ht Hr. destruct (get_uid_list_spec f apps toks s Hf Hl Ht Hr) as (uids & cells & Hg & Hc & Hs & Hu & Hin).
  destruct (set_users_excluded_cells n apps uids cells s Ha Hg Hc Hu) as (s' & evs & E & Htr & Had).
  exists s', evs. split_and!; [done | done |]. intros x.
  assert (Forall (fun u => 0 < u) uids) as Hp by (eapply Forall_impl; [exact Hu |]; cbn; lia).
  rewrite (user_added_ranges n evs _ x Had) by (by apply all_gaps_ok).
  rewrite in_all_gaps by done. by setoid_rewrite Hin.
Qed.

(** The inclusive form. *)
Lemma set_users_included (n : Z) (f : file) (apps : list byte) (toks : list (list byte)) (s : st) :
  ndc_accepts -> packages_list (st_world s) f -> app_list apps -> read_tokens apps (ph_heap apps) = Some toks ->
  (length (collected toks (packages f)) < room_of apps)%nat ->
  exists s' evs, set_users n None (Some apps) s = (Ret tt, s') /\ st_trace s' = st_trace s ++ evs
    /\ forall x, user_added n evs x <-> selected_uid f toks x.
Proof.
  intros Ha Hf Hl Ht Hr. destruct (get_uid_list_spec f apps toks s Hf Hl Ht Hr) as (uids & cells & Hg & (k & ->) & Hs & Hu & Hin).
  destruct (included_loop_accepted n uids (repeat 0 k) 0 [] None s Ha Hu eq_refl) as (r & args & s1 & e1 & E1 & Hp & Ht1 & Had1).
  destruct (last_command n args r s1 Ha Hp) as (s2 & e2 & E2 & Ht2 & Had2).
  exists s2, (e1 ++ e2). split_and!.
  - unfold set_users, mbind, M_bind. rewrite Hg, E1. exact E2.
  - by rewrite Ht2, Ht1, app_assoc.
  - intros x. rewrite (user_added_ranges n _ (map (fun u => (u, u)) uids)).
    + rewrite <- Hin. setoid_rewrite in_map_iff. split.
      * intros (a & b & (u & [= <- <-] & Hu') & Hx). by assert (x = u) as -> by lia.
      * intros Hx. exists x, x. split; [by exists x | lia].
    + rewrite added_app, Had2. exact Had1.
    + apply Forall_map. eapply Forall_impl; [exact Hu |]. cbn. lia.
Qed.

(** An array without a zero is read past its end. *)
Lemma excluded_loop_full (n : Z) (uids : list Z) (start args : Z) (toks : list (list byte)) (ranges : option (list byte)) (s : st) :
  ndc_accepts -> Forall (fun u => 0 < u < 2 ^ 31) uids -> 0 <= start -> waiting toks ranges ->
  fst (excluded_loop n uids start args ranges s) = Undefined.
Proof.
  intros Ha Hu. revert start args toks ranges s. induction Hu as [|u us Hu Hus IH]; intros start args toks ranges s Hst Hp; [done |].
  cbn [excluded_loop]. change (2 ^ 31) with 2147483648 in Hu. rewrite (proj2 (Z.eqb_neq u 0)) by lia.
  assert (u32 (u - 1) = u - 1) as -> by (apply Z.mod_small; lia).
  assert (u32 (u + 1) = u + 1) as -> by (apply Z.mod_small; lia).
  destruct (Z.ltb_spec (u - 1) start); [by apply (IH _ _ toks); [lia |] |].
  destruct (add_range_accepted n (range_text start (u - 1)) args toks ranges s Ha Hp) as (args' & r1 & t1 & s1 & e1 & E1 & Hp1 & _).
  { apply range_text_no_space; lia. }
  rewrite (bind_eq _ _ _ _ _ E1). cbv beta iota. by apply (IH _ _ t1); [lia |].
Qed.

Lemma included_loop_full (n : Z) (uids : list Z) (args : Z) (toks : list (list byte)) (ranges : option (list byte)) (s : st) :
  ndc_accepts -> Forall (fun u => 0 < u < 2 ^ 31) uids -> waiting toks ranges ->
  fst (included_loop n uids args ranges s) = Undefined.
Proof.
  intros Ha Hu. revert args toks ranges s. induction Hu as [|u us Hu Hus IH]; intros args toks ranges s Hp; [done |].
  cbn [included_loop]. rewrite (proj2 (Z.eqb_neq u 0)) by lia.
  destruct (add_range_accepted n (print_u u) args toks ranges s Ha Hp) as (args' & r1 & t1 & s1 & e1 & E1 & Hp1 & _).
  { apply print_u_no; [done | lia]. }
  rewrite (bind_eq _ _ _ _ _ E1). cbv beta iota. by apply (IH _ t1).
Qed.

(** An undefined step ends the sequence. *)
Lemma bind_undefined {A B} (m : M A) (k : A -> M B) (s : st) : fst (m s) = Undefined -> fst ((m ≫= k) s) = Undefined.
Proof. unfold mbind, M_bind. destruct (m s) as [r s']. cbn. by intros ->. Qed.

(** Too many users for the array, whether the writing or the reading leaves it. *)
Lemma set_users_overflow (n : Z) (f : file) (apps : list byte) (toks : list (list byte)) (s : st) :
  ndc_accepts -> packages_list (st_world s) f -> app_list apps -> read_tokens apps (ph_heap apps) = Some toks ->
  (room_of apps <= length (collected toks (packages f)))%nat ->
  fst (set_users n (Some apps) None s) = Undefined /\ fst (set_users n None (Some apps) s) = Undefined.
Proof.
  intros Ha Hf Hl Ht Hr. destruct (sorted_users f toks _ Hf) as (_ & Hu & Hlen & _).
  pose proof (get_uid_list_read f apps toks s Hf Hl Ht) as Hg. cbv zeta in Hg.
  destruct (Nat.ltb_spec (room_of apps) (length (collected toks (packages f)))) as [Hlt | Hge].
  - split; apply bind_undefined, bind_undefined; by rewrite Hg.
  - rewrite (proj2 (Nat.sub_0_le _ _)), app_nil_r in Hg by lia.
    split; apply bind_undefined; rewrite (bind_eq _ _ _ _ _ Hg).
    + apply bind_undefined. by apply (excluded_loop_full n _ 0 0 [] None).
    + by apply (included_loop_full n _ 0 [] None).
Qed.

(** C19: What [set_users] hands over, whatever lies in memory behind the list of applications, where [ndc]
    accepts its commands.  The loop over the list reads on behind its NUL, unless the list ends
    with a comma, up to a token that starts with a NUL; what it reads there counts as
    applications too.  When the packages so named have fewer users than the array has cells, two
    more than there are commas, the run succeeds: with ExcludedApplications the users handed
    over are those that are not the user of a named package, up to 99999 or to the largest
    excluded user, and 99999 itself is left out when 99998 is excluded; with
    IncludedApplications they are exactly the users of the named packages.  With as many users as cells or
    more the run writes or reads past the array, and where no token starts with a NUL it reads past the memory.  The tokens
    are those of the list alone, and the array is large enough, when the list ends with a comma or the byte
    behind its NUL is a NUL. *)
Theorem set_users_selects (n : Z) (f : file) (apps : list byte) (s : st) :
  ndc_accepts -> packages_list (st_world s) f -> app_list apps ->
  match read_tokens apps (ph_heap apps) with
  | Some toks =>
      if (length (collected toks (packages f)) <? room_of apps)%nat then
        (exists s' evs, set_users n (Some apps) None s = (Ret tt, s') /\ st_trace s' = st_trace s ++ evs
           /\ forall x, user_added n evs x <->
                0 <= x /\ ~ selected_uid f toks x
                /\ ((exists u, selected_uid f toks u /\ x < u)
                    \/ (x <= 99999 /\ forall u, selected_uid f toks u -> u < 99998)))
        /\ (exists s' evs, set_users n None (Some apps) s = (Ret tt, s') /\ st_trace s' = st_trace s ++ evs
              /\ forall x, user_added n evs x <-> selected_uid f toks x)
      else fst (set_users n (Some apps) None s) = Undefined /\ fst (set_users n None (Some apps) s) = Undefined
  | None =>
      packages f <> [] -> fst (set_users n (Some apps) None s) = Undefined /\ fst (set_users n None (Some apps) s) = Undefined
  end
  /\ (List.last (split_on "," apps) [] = [] \/ (exists rest, ph_heap apps = x00 :: rest) ->
      exists toks, read_tokens apps (ph_heap apps) = Some toks
        /\ (length (collected toks (packages f)) < room_of apps)%nat
        /\ forall u, selected_uid f toks u <-> selected_uid f (split_on "," apps) u).
Proof.
  intros Ha Hf Hl. split.
  - destruct (read_tokens apps (ph_heap apps)) as [toks|] eqn:Ht.
    + destruct (Nat.ltb_spec (length (collected toks (packages f))) (room_of apps)).
      * split; [by apply (set_users_excluded n f apps) | by apply (set_users_included n f apps)].
      * by apply (set_users_overflow n f apps toks).
    + intros Hne. pose proof (get_uid_list_outside f apps s Hf Hl Ht Hne) as Hg.
      split; apply bind_undefined, bind_undefined; by rewrite Hg.
  - intros Hown. destruct (read_tokens_own apps (ph_heap apps) nonempty eq_refl Hown) as (toks & Ht & Hs).
    exists toks. split_and!; [done | apply own_tokens_fit; [by destruct Hf | done] |].
    intros u. by rewrite <- !in_collected, (collected_same _ _ _ Hs).
Qed.
End Users.

(** ** Witnesses *)

Section Witnesses.
#[local] Existing Instance lp64_x86.
#[local] Existing Instance insertion_csort.
#[local] Instance demo_phone : Phone := script_phone demo_script.

Definition demo_packages : file :=
  File (lines_of ["org.a 10001 0 /data/a"; "org.c 10002 0 /c"; "org.b 10003 0 /b"]%string) 0.

Lemma demo_accepts : ndc_accepts.
Proof.
  intros c w. eexists _, 0, w, (text "200 0 ok" ++ [x0a]), []. split_and!.
  - cbn [ph_popen demo_phone script_phone]. rewrite (no_ndc_output demo_script) by reflexivity. reflexivity.
  - reflexivity.
  - vm_compute. intros [? ?]. congruence.
Qed.

Lemma demo_packages_ok : packages_list (tt : @world demo_phone) demo_packages.
Proof.
  assert (packages demo_packages = [(text "org.a", 10001); (text "org.c", 10002); (text "org.b", 10003)]) as E
    by (vm_compute; reflexivity).
  constructor; rewrite ?E.
  - vm_compute. reflexivity.
  - apply (bool_decide_unpack _). vm_compute. exact I.
  - repeat constructor.
Qed.

Lemma demo_apps_ok : app_list (text "org.a,org.b").
Proof. constructor; [done |]. apply (bool_decide_unpack (~ In x00 (text "org.a,org.b"))). vm_compute. exact I. Qed.

Definition demo_state : st := St (tt : @world demo_phone) [] false false 33 false None false.

Lemma set_users_selects_witness :
  let toks := [text "org.a"; text "org.b"] in
  (exists s' evs, set_users 5000 (Some (text "org.a,org.b")) None demo_state = (Ret tt, s') /\ st_trace s' = [] ++ evs
     /\ forall x, user_added 5000 evs x <->
          0 <= x /\ ~ selected_uid demo_packages toks x
          /\ ((exists u, selected_uid demo_packages toks u /\ x < u)
              \/ (x <= 99999 /\ forall u, selected_uid demo_packages toks u -> u < 99998)))
  /\ (exists s' evs, set_users 5000 None (Some (text "org.a,org.b")) demo_state = (Ret tt, s') /\ st_trace s' = [] ++ evs
        /\ forall x, user_added 5000 evs x <-> selected_uid demo_packages toks x).
Proof.
  destruct (set_users_selects 5000 demo_packages (text "org.a,org.b") demo_state) as [Hsel _].
  - exact demo_accepts.
  - exact demo_packages_ok.
  - exact demo_apps_ok.
  - assert (read_tokens (text "org.a,org.b") (ph_heap (text "org.a,org.b")) = Some [text "org.a"; text "org.b"]) as Ht by (vm_compute; reflexivity).
    rewrite Ht in Hsel.
    assert ((length (collected [text "org.a"; text "org.b"] (packages demo_packages)) <? room_of (text "org.a,org.b"))%nat = true) as Hlt by (vm_compute; reflexivity).
    rewrite Hlt in Hsel. exact Hsel.
Defined.

(** The commands of the example. *)
Example set_users_example :
  opened (st_trace (snd (set_users 5000 (Some (text "org.a,org.b")) None demo_state)))
  = [text "ndc network users add 5000 0-10000 10002 10004-99999"].
Proof. vm_compute. reflexivity. Qed.

(** What lies behind the list in memory is read as more applications: 10002 is the user of
    org.c, which the list does not name. *)
Definition stale_phone : Phone := script_phone (Script [] [] demo_files 0 None false (text "org.c" ++ [x00; x00])).

Example get_uid_list_reads_on :
  fst (@get_uid_list lp64_x86 stale_phone insertion_csort (Some (text "org.a,org.z"))
         (St (tt : @world stale_phone) [] false false 33 false None false))
  = Ret [10001; 10002; 0].
Proof. vm_compute. reflexivity. Qed.
End Witnesses.
