(* ===== verification/AndroidNet.v ===== *)
(** * Routes, MTU and rules (wg-quick/android.c)

    What the patterns of [set_mtu] and [del_if] match.  Shown: no line of [awg show] that ends
    with a newline is an endpoint to [set_mtu], so the MTU is always that of the default route
    less 80; and the rule that [del_if] takes for that of the interface may be that of another
    interface whose name only begins with it. *)

From S2P Require Import Prelude CString CSort Regex AndroidShell AndroidBinder Android AndroidUp AndroidScript.
#[local] Open Scope Z_scope.
#[local] Open Scope awg_scope.

(** ** The MTU *)

(** No character class of the expression has [c]. *)
Fixpoint re_avoids (c : byte) (r : re) : bool :=
  match r with
  | RChar p => negb (p c)
  | RCat a b | RAlt a b => re_avoids c a && re_avoids c b
  | RStar a => re_avoids c a
  | REps | RBol | REol => true
  end.

Lemma re_avoids_span (c : byte) (s : list byte) (r : re) (i j k : nat) :
  re_avoids c r = true -> re_span s r i j -> (i <= k < j)%nat -> s !! k <> Some c.
Proof.
  intros Ha Hs. revert Ha k. induction Hs as [p d i Hd Hp| |a b i j l H1 IH1 H2 IH2|a b i j H1 IH1|a b i j H1 IH1| |a i j l H1 IH1 H2 IH2| |];
    cbn [re_avoids]; intros Ha k Hk Hc; try lia.
  - assert (k = i) as -> by lia. rewrite Hd in Hc. injection Hc as ->. by rewrite Hp in Ha.
  - apply andb_true_iff in Ha as [Ha1 Ha2]. destruct (decide (k < j)%nat).
    + by apply (IH1 Ha1 k); [lia |].
    + by apply (IH2 Ha2 k); [lia |].
  - apply andb_true_iff in Ha as [Ha1 _]. by apply (IH1 Ha1 k).
  - apply andb_true_iff in Ha as [_ Ha2]. by apply (IH1 Ha2 k).
  - destruct (decide (k < j)%nat).
    + by apply (IH1 Ha k); [lia |].
    + by apply (IH2 Ha k); [lia |].
Qed.

Lemma endpoint_no_newline (l : list byte) : In x0a l -> pattern_sub regex_endpoint l = None.
Proof.
  intros Hin. unfold pattern_sub, regexec_sub.
  pose proof (regexec_spec (p_pre regex_endpoint) (p_grp regex_endpoint) (p_post regex_endpoint) l) as Hs.
  destruct (regexec _ _ _ l) as [[so eo]|]; [| done]. exfalso.
  destruct Hs as (i & j & [Hpre Hgrp Hpost _ _ _ _]).
  apply span_cat_inv in Hpre as (i' & [-> ->]%span_bol_inv & Hpre).
  assert (j = length l) as ->.
  { apply span_cat_inv in Hpost as (? & _ & Hpost). apply span_cat_inv in Hpost as (? & _ & Hpost).
    apply span_cat_inv in Hpost as (? & _ & [_ ->]%span_eol_inv). done. }
  apply list_elem_of_In, list_elem_of_lookup in Hin as [k Hk]. apply lookup_lt_Some in Hk as Hlt.
  assert (re_span l (RCat (ROpt (RByte "[")) (RCat (p_grp regex_endpoint) (p_post regex_endpoint))) 0 (length l)) as Hall.
  { econstructor; [done |]. by econstructor. }
  refine (re_avoids_span x0a l _ _ _ k _ Hall _ Hk); [reflexivity | lia].
Qed.

(** ** The rule of an interface *)

(** A name without the characters that mean something in a pattern. *)
Definition plain_name (name : list byte) : Prop := ~ In "."%byte name /\ ~ In "+"%byte name.

Lemma name_pattern_plain (c : byte) (name : list byte) : plain_name name ->
  exists r, name_pattern (RByte c) false name = Some r
    /\ forall s i j, re_span s r i j <-> re_span s (RLit (c :: name)) i j.
Proof.
  revert c. induction name as [|d name IH]; intros c [Hd Hp].
  - exists (RByte c). split; [done |]. intros s i j. cbn [RLit]. rewrite span_cat_inv. split.
    + intros Hs. exists j. split; [done |]. constructor. apply re_span_le in Hs. lia.
    + intros (k & Hs & He). by inversion He; subst.
  - cbn [name_pattern]. rewrite (proj2 (byte_eqb_neq d "+")) by (intros ->; apply Hp; by left).
    rewrite (proj2 (byte_eqb_neq d ".")) by (intros ->; apply Hd; by left).
    destruct (IH d) as (r & -> & Hr); [split; intros ?; [apply Hd | apply Hp]; by right |].
    exists (RCat (RByte c) r). split; [done |]. intros s i j. change (RLit (c :: d :: name)) with (RCat (RByte c) (RLit (d :: name))).
    rewrite !span_cat_inv. by setoid_rewrite Hr.
Qed.

Lemma drop_app_at {A} (a b : list A) (k : nat) : k = length a -> drop k (a ++ b) = b.
Proof. intros ->. apply drop_app_length. Qed.

Section Rule.
Variables (iface pre h rest : list byte) (name : re).
Hypothesis Hname : forall s i j, re_span s name i j <-> re_span s (RLit (" "%byte :: iface)) i j.
Hypothesis Hx : ~ In "x"%byte pre.
Hypothesis Hne : h <> [].
Hypothesis Hh : forallb is_lower_hex h = true.
#[local] Abbreviation tail := (text "/0xcffff lookup" ++ (" "%byte :: iface) ++ rest).
#[local] Abbreviation rule := (pre ++ text "0xc" ++ h ++ tail).
#[local] Abbreviation post := (p_post (rule_regex name)).
#[local] Abbreviation start := (length pre).
#[local] Abbreviation so := (start + 3)%nat.

Lemma rule_drops : drop start rule = text "0xc" ++ h ++ tail
  /\ drop so rule = h ++ tail /\ drop (so + length h) rule = tail.
Proof.
  split_and!; [by apply drop_app_at | |]; rewrite ?(Nat.add_assoc _ 3).
  - rewrite <- drop_drop, drop_app_at by done. by apply drop_app_at.
  - rewrite <- !drop_drop, drop_app_at by done. rewrite (drop_app_at (text "0xc")) by done. by apply drop_app_at.
Qed.

Lemma rule_length : length rule = (so + length h + length tail)%nat.
Proof. rewrite !length_app. cbn. lia. Qed.

Lemma rule_hex (k : nat) (c : byte) : (so <= k < so + length h)%nat -> rule !! k = Some c -> is_lower_hex c = true.
Proof.
  intros Hk Hc. destruct rule_drops as (_ & Hd & _). replace k with (so + (k - so))%nat in Hc by lia.
  rewrite <- lookup_drop, Hd, lookup_app_l in Hc by lia. apply list_elem_of_lookup_2 in Hc.
  rewrite forallb_forall in Hh. apply Hh. by apply list_elem_of_In.
Qed.

Lemma rule_slash : rule !! (so + length h)%nat = Some "/"%byte.
Proof.
  destruct rule_drops as (_ & _ & Hd). replace (so + length h)%nat with (so + length h + 0)%nat by lia.
  by rewrite <- lookup_drop, Hd.
Qed.

Lemma rule_matched : re_span rule (RCat (RLit (text "0xc")) (RCat (RPlus (RChar is_lower_hex)) post)) start
  (so + length h + length (text "/0xcffff lookup") + length (" "%byte :: iface)).
Proof.
  destruct rule_drops as (Hd0 & _ & Hd2).
  apply span_cat with so.
  { apply span_lit. split_and!; [rewrite rule_length; lia | done | by rewrite Hd0, take_app_length]. }
  apply span_cat with (so + length h)%nat.
  { apply span_plus_class. split; [| apply rule_hex]. rewrite rule_length. destruct h; [done |]. cbn [length]. lia. }
  apply span_cat with (so + length h + length (text "/0xcffff lookup"))%nat.
  { apply span_lit. split_and!; [rewrite rule_length; lia | done | by rewrite Hd2, take_app_length]. }
  apply Hname, span_lit. split_and!; [rewrite rule_length, !length_app; lia | done |].
  rewrite <- drop_drop, Hd2, drop_app_length. apply take_app_length.
Qed.

(** A match starts at an "x" with one character before, and there is none in [pre]. *)
Lemma rule_leftmost (i j : nat) :
  re_span rule (RCat (RLit (text "0xc")) (RCat (RPlus (RChar is_lower_hex)) post)) i j -> (start <= i)%nat.
Proof.
  intros Hs. apply span_cat_inv in Hs as (k & Hlit & _). apply span_lit in Hlit as (Hi & -> & Ht).
  destruct (decide (start <= i)%nat) as [| Hlt]; [done |]. exfalso.
  assert (rule !! (i + 1)%nat = Some "x"%byte) as Hc.
  { rewrite <- lookup_drop, <- (lookup_take_lt _ (length (text "0xc"))), Ht by (cbn; lia). done. }
  destruct (decide (i + 1 < start)%nat).
  - rewrite lookup_app_l in Hc by done. apply Hx. apply list_elem_of_In. by eapply list_elem_of_lookup_2.
  - rewrite lookup_app_r in Hc by lia. by replace (i + 1 - start)%nat with 0%nat in Hc by lia.
Qed.

Lemma rule_found : pattern_sub (rule_regex name) rule = Some h.
Proof.
  destruct (regexec_some _ _ _ _ _ _ rule_matched) as (i & j & so' & eo & E & [Hpre Hgrp Hpost Hmin _ _ _]).
  unfold pattern_sub, regexec_sub. cbn [rule_regex p_pre p_grp] in *. rewrite E. f_equal.
  pose proof (Hmin _ _ rule_matched) as Hi. assert (i = start) as ->.
  { apply Nat.le_antisymm; [done |]. apply (rule_leftmost i j). econstructor; [done |]. by econstructor. }
  apply span_lit in Hpre as (_ & -> & _). change (length (text "0xc")) with 3%nat in *.
  apply span_plus_class in Hgrp as [Hr Hhex]. destruct rule_drops as (_ & Hd & _).
  apply span_cat_inv in Hpost as (k & Hlit & _). apply span_lit in Hlit as (Hle & _ & Ht).
  assert (rule !! eo = Some "/"%byte) as Hslash.
  { replace eo with (eo + 0)%nat by lia. rewrite <- lookup_drop, <- (lookup_take_lt _ (length (text "/0xcffff lookup"))), Ht by (cbn; lia). done. }
  assert (eo = so + length h)%nat as ->.
  { destruct (Nat.lt_trichotomy eo (so + length h)) as [Hlt | [? | Hgt]]; [| done |].
    - assert (is_lower_hex "/" = true) by (apply (rule_hex eo); [lia | done]). done.
    - assert (is_lower_hex "/" = true) by (apply (Hhex (so + length h)%nat); [lia | apply rule_slash]). done. }
  unfold substring. rewrite Hd. replace (so + length h - so)%nat with (length h) by lia. apply take_app_length.
Qed.
End Rule.

(** [del_if] takes the network id from the first rule whose table name begins with the
    name of the interface, whatever follows it: the rule of wg10 is taken for that of wg1. *)
Theorem rule_of_longer_name (iface pre h rest : list byte) :
  plain_name iface -> ~ In "x"%byte pre -> h <> [] -> forallb is_lower_hex h = true ->
  exists name, name_pattern (RByte " ") false iface = Some name
    /\ pattern_sub (rule_regex name)
         (pre ++ text "0xc" ++ h ++ text "/0xcffff lookup" ++ (" "%byte :: iface) ++ rest) = Some h.
Proof.
  intros Hpl Hx Hne Hh. destruct (name_pattern_plain " " iface Hpl) as (name & Hn & Hspan).
  exists name. split; [done |]. by apply rule_found.
Qed.

Section Net.
Context `{Platform} {P : Phone}.

(** A command prints whole lines of text. *)
Definition prints_lines (c : list byte) : Prop := forall w out e w',
  ph_popen c w = (inr (out, e), w') -> Forall (In x0a) (map c_str (getlines out)).

(** A loop that keeps its variable reads to the end. *)
Lemma idle_loop {A} (f : list byte -> A -> M (A * bool)) (ls : list (list byte)) (e : Z) (a : A) (s : st) :
  Forall (fun l => f l a = mret (a, false)) ls ->
  lines_loop f ls e a s = if e =? 0 then (Ret a, s) else (Exit e, s).
Proof.
  intros Hf. revert s. induction Hf as [|l ls Hl _ IH]; intros s; cbn [lines_loop].
  - cbn [getline]. by destruct (e =? 0).
  - rewrite Hl. apply IH.
Qed.

(** Where [awg show] prints whole lines, [set_mtu] looks at none of the endpoints: the MTU
    it sets is that of the default route, or 1500, less 80. *)
Theorem set_mtu_default_route (iface : list byte) (s : st) :
  prints_lines (text "awg show " ++ iface ++ text " endpoints") ->
  set_mtu iface 0 s =
    (default_mtu ← get_route_mtu (text "default");
     _ ← for_lines (text "awg show " ++ iface ++ text " endpoints") (fun _ u => mret (u, false)) tt;
     cndc (text "interface setmtu " ++ iface ++ text " "
           ++ print_d ((if default_mtu =? -1 then 1500 else default_mtu) - 80))) s.
Proof.
  intros Hl. unfold set_mtu. cbn [Z.eqb negb]. apply bind_ext. intros d s1 _.
  generalize (if d =? -1 then 1500 else d). intros m. unfold for_lines.
  set (c := text "awg show " ++ iface ++ text " endpoints") in *.
  assert (forall s ls e s', popen c s = (Ret (ls, e), s') -> Forall (In x0a) ls) as Hp.
  { clear - Hl. intros s ls e s'. unfold popen, mbind, M_bind, emit, put, on_world. cbn [st_world modify].
    change (st_world _) with (st_world s). specialize (Hl (st_world s)).
    destruct (ph_popen c (st_world s)) as [[err|[out err]] w']; [done |]. intros [= <- <- _]. by eapply Hl. }
  unfold mbind, M_bind. specialize (Hp s1). destruct (popen c s1) as [[[ls e]|code|args| |] s2]; try done.
  specialize (Hp ls e s2 eq_refl).
  rewrite !idle_loop by (eapply Forall_impl; [exact Hp |]; intros l Hin; by try rewrite (endpoint_no_newline l Hin)).
  by destruct (e =? 0).
Qed.
End Net.

(** ** Witnesses *)

Section Witnesses.
#[local] Existing Instance lp64_x86.

(** Two interfaces, the longer name first, and a peer behind a route with an MTU of 1280. *)
Definition rules_script : script := Script []
  [(text "ip rule show", lines_of ["13000: from all fwmark 0xc1f40/0xcffff lookup wg10";
                                   "13000: from all fwmark 0xc2710/0xcffff lookup wg1"]%string);
   (text "awg show wg1 endpoints", text "AAAA=" ++ [x09] ++ text "192.0.2.1:51820" ++ [x0a]);
   (text "ip -o route show default", lines_of ["default via 10.0.0.1 dev wlan0 mtu 1400"]%string);
   (text "ip -o route get 192.0.2.1", lines_of ["192.0.2.1 via 10.0.0.1 mtu 1280"]%string)]
  demo_files 0 None false [x00].
#[local] Instance rules_phone : Phone := script_phone rules_script.

(** Taking down wg1 destroys the network of wg10, 0x1f40. *)
Lemma rule_of_longer_name_witness :
  (exists name, name_pattern (RByte " ") false (text "wg1") = Some name
     /\ pattern_sub (rule_regex name)
          (text "13000: from all fwmark " ++ text "0xc" ++ text "1f40" ++ text "/0xcffff lookup"
           ++ (" "%byte :: text "wg1") ++ text "0") = Some (text "1f40"))
  /\ opened (st_trace (snd (del_if (text "wg1") (St (tt : @world rules_phone) [] false false 33 false None false))))
     = map text ["iptables-save"; "ip6tables-save"; "ip rule show"; "ndc network destroy 8000"]%string.
Proof.
  split.
  - apply (rule_of_longer_name (text "wg1") (text "13000: from all fwmark ") (text "1f40") (text "0")).
    + split; (intros Hin; vm_compute in Hin; intuition discriminate).
    + intros Hin. vm_compute in Hin. intuition discriminate.
    + discriminate.
    + reflexivity.
  - vm_compute. reflexivity.
Defined.

(** The MTU of the peer's route, 1280, does not count: 1400 - 80 is set. *)
Lemma set_mtu_default_route_witness :
  let s := St (tt : @world rules_phone) [] false false 33 false None false in
  set_mtu (text "wg1") 0 s =
    (default_mtu ← get_route_mtu (text "default");
     _ ← for_lines (text "awg show " ++ text "wg1" ++ text " endpoints") (fun _ u => mret (u, false)) tt;
     cndc (text "interface setmtu " ++ text "wg1" ++ text " "
           ++ print_d ((if default_mtu =? -1 then 1500 else default_mtu) - 80))) s
  /\ opened (st_trace (snd (set_mtu (text "wg1") 0 s)))
     = map text ["ip -o route show default"; "awg show wg1 endpoints"; "ndc interface setmtu wg1 1320"]%string.
Proof.
  split.
  - apply (set_mtu_default_route (text "wg1")).
    intros w out e w' E. vm_compute in E. injection E as <- _ _. vm_compute. constructor; [| constructor].
    cbn. tauto.
  - vm_compute. reflexivity.
Defined.
End Witnesses.
