(* ===== verification/AndroidQuote.v ===== *)
(** * What the shell reads (wg-quick/android.c)

    The commands go through [sh -c].  [sh_words] splits a command of plain characters and
    single quotes into its arguments, and is [None] where an unquoted character means
    something to the shell.  Shown: the addresses of the interface reach the programs as
    single arguments; the buffers of [set_dnses] are large enough; the DNS servers are single
    arguments too, while the search domains end up outside the quotes. *)

From S2P Require Import Prelude CString CSort Regex AndroidShell AndroidBinder Android AndroidUp AndroidScript AndroidRun.
#[local] Open Scope Z_scope.
#[local] Open Scope awg_scope.

(** ** Tokens *)

Section Strtok.
Variable delim : byte -> bool.

Definition token (t : list byte) : Prop := t <> [] /\ forallb (fun c => negb (delim c)) t = true.

Lemma strtok_from_token (cur s : list byte) :
  forallb (fun c => negb (delim c)) cur = true -> Forall token (strtok_from delim cur s).
Proof.
  revert cur. induction s as [|c s IH]; intros cur Hc; cbn [strtok_from].
  - destruct cur; repeat constructor; done.
  - destruct (delim c) eqn:E.
    + destruct cur as [|d cur]; [by apply IH |]. constructor; [done | by apply IH].
    + apply IH. rewrite forallb_app, Hc. cbn. by rewrite E.
Qed.

(** Tokens and the delimiters between them fit the string. *)
Fixpoint tokens_size (l : list (list byte)) : nat :=
  match l with [] => 0 | t :: l' => S (length t) + tokens_size l' end.

Lemma strtok_from_size (cur s : list byte) :
  (tokens_size (strtok_from delim cur s) <= length cur + length s + 1)%nat.
Proof.
  revert cur. induction s as [|c s IH]; intros cur; cbn [strtok_from].
  - destruct cur; cbn; lia.
  - destruct (delim c).
    + specialize (IH []). destruct cur as [|d cur]; cbn in *; lia.
    + specialize (IH (cur ++ [c])). rewrite length_app in IH. cbn in *. lia.
Qed.
End Strtok.

Lemma strtok_tokens (delims s : list byte) : Forall (token (fun c => has_byte c delims)) (strtok delims s).
Proof. by apply strtok_from_token. Qed.

Lemma strtok_size (delims s : list byte) : (tokens_size (strtok delims s) <= length s + 1)%nat.
Proof. apply (strtok_from_size _ []). Qed.

(** ** The shell *)

(** Characters that mean nothing to the shell. *)
Definition sh_plain (c : byte) : bool :=
  in_range "a" "z" c || in_range "A" "Z" c || is_digit c || has_byte c (text "_-./:+=,@%").

Fixpoint sh_lex (s : list byte) (quoted : bool) (cur : option (list byte)) : option (list (list byte)) :=
  match s with
  | [] => if quoted then None else Some (match cur with Some w => [w] | None => [] end)
  | c :: s' =>
      if quoted then
        if Byte.eqb c apostrophe then sh_lex s' false cur
        else sh_lex s' true (Some (default [] cur ++ [c]))
      else if Byte.eqb c apostrophe then sh_lex s' true (Some (default [] cur))
      else if Byte.eqb c " " then
        match cur with
        | None => sh_lex s' false None
        | Some w => match sh_lex s' false None with Some ws => Some (w :: ws) | None => None end
        end
      else if sh_plain c then sh_lex s' false (Some (default [] cur ++ [c]))
      else None
  end.
Definition sh_words (s : list byte) : option (list (list byte)) := sh_lex s false None.

Lemma sh_plain_other (c : byte) : sh_plain c = true -> Byte.eqb c apostrophe = false /\ Byte.eqb c " " = false.
Proof.
  intros Hc. assert (forallb (fun c => negb (sh_plain c) || (negb (Byte.eqb c apostrophe) && negb (Byte.eqb c " ")))
    all_bytes = true) as Hall by by vm_compute.
  pose proof (byte_exhaust _ Hall c) as H. cbv beta in H. rewrite Hc in H. clear Hall. cbn [negb orb] in H. by boolz.
Qed.

(** Plain characters lengthen the word, quoted ones too. *)
Lemma sh_lex_plain (w s : list byte) (cur : list byte) : forallb sh_plain w = true ->
  sh_lex (w ++ s) false (Some cur) = sh_lex s false (Some (cur ++ w)).
Proof.
  revert cur. induction w as [|c w IH]; intros cur Hw; [by rewrite app_nil_r |]. cbn in Hw.
  apply andb_true_iff in Hw as [Hc Hw]. destruct (sh_plain_other c Hc) as [Ha Hs].
  cbn [app sh_lex]. rewrite Ha, Hs, Hc. cbn [default]. rewrite IH by done. by rewrite <- app_assoc.
Qed.

Lemma sh_lex_plain_start (w s : list byte) : w <> [] -> forallb sh_plain w = true ->
  sh_lex (w ++ s) false None = sh_lex s false (Some w).
Proof.
  intros Hne Hw. destruct w as [|c w]; [done |]. cbn in Hw. apply andb_true_iff in Hw as [Hc Hw].
  destruct (sh_plain_other c Hc) as [Ha Hs]. cbn [app sh_lex]. rewrite Ha, Hs, Hc. cbn [default app].
  by rewrite sh_lex_plain.
Qed.

Lemma sh_lex_quoted (w s cur : list byte) : has_byte apostrophe w = false ->
  sh_lex (w ++ [apostrophe] ++ s) true (Some cur) = sh_lex s false (Some (cur ++ w)).
Proof.
  revert cur. induction w as [|c w IH]; intros cur Hw; cbn [app sh_lex].
  - by rewrite byte_eqb_refl, app_nil_r.
  - unfold has_byte in Hw. cbn [existsb] in Hw. apply orb_false_iff in Hw as [Hc Hw].
    assert (Byte.eqb c apostrophe = false) as ->.
    { apply byte_eqb_neq. apply byte_eqb_neq in Hc. done. }
    cbn [default]. cbn [app] in IH. rewrite IH by done. by rewrite <- app_assoc.
Qed.

(** A word of plain characters, and a quoted one, followed by a space. *)
Lemma sh_words_plain (w s : list byte) : w <> [] -> forallb sh_plain w = true ->
  sh_words (w ++ text " " ++ s) = match sh_words s with Some ws => Some (w :: ws) | None => None end.
Proof. intros Hne Hw. unfold sh_words. by rewrite sh_lex_plain_start. Qed.

Lemma sh_words_quoted (w s : list byte) : has_byte apostrophe w = false ->
  sh_words ([apostrophe] ++ w ++ [apostrophe] ++ text " " ++ s)
  = match sh_words s with Some ws => Some (w :: ws) | None => None end.
Proof.
  intros Hw. unfold sh_words. change (sh_lex ([apostrophe] ++ ?x) false None) with (sh_lex x true (Some [])).
  by rewrite sh_lex_quoted.
Qed.

Lemma sh_words_last (w : list byte) : w <> [] -> forallb sh_plain w = true -> sh_words w = Some [w].
Proof. intros Hne Hw. unfold sh_words. by rewrite <- (app_nil_r w), sh_lex_plain_start, app_nil_r. Qed.

Lemma print_u_plain (n : Z) : 0 <= n -> print_u n <> [] /\ forallb sh_plain (print_u n) = true.
Proof.
  intros Hn. destruct (print_u_digits n Hn) as [Hne Hd]. split; [done |]. apply forallb_forall.
  intros c Hin. rewrite Forall_forall in Hd. apply list_elem_of_In in Hin. specialize (Hd c Hin).
  unfold sh_plain, is_digit, in_range. change (b2z "0") with 48. change (b2z "9") with 57.
  rewrite (proj2 (Z.leb_le 48 _)), (proj2 (Z.leb_le _ 57)) by lia. by rewrite !orb_true_r.
Qed.

(** The names of interfaces. *)
Definition iface_name (name : list byte) : Prop :=
  (1 <= length name <= 15)%nat /\ forallb iface_char name = true.

Lemma iface_plain (name : list byte) : iface_name name -> name <> [] /\ forallb sh_plain name = true.
Proof.
  intros [Hl Hc]. split; [by destruct name; cbn in Hl; [lia |] |]. eapply forallb_weaken; [| exact Hc].
  intros c. unfold iface_char, sh_plain.
  assert (forallb (fun c => negb (iface_char c) || sh_plain c) all_bytes = true) as Hall by by vm_compute.
  pose proof (byte_exhaust _ Hall c) as H. unfold iface_char, sh_plain in H. intros E. rewrite E in H. done.
Qed.

(** ** Addresses *)

(** The commands for one address. *)
Inductive addr_command (iface addr : list byte) : list (list byte) -> Prop :=
| ac_enable : addr_command iface addr
    [text "ndc"; text "interface"; text "ipv6"; iface; text "enable"]
| ac_add : addr_command iface addr
    [text "ip"; text "-6"; text "addr"; text "add"; addr; text "dev"; iface]
| ac_setcfg mask : 0 <= mask < 256 -> addr_command iface addr
    [text "ndc"; text "interface"; text "setcfg"; iface; fst (strsep "/" addr); print_u mask].

Lemma has_byte_strsep (c d : byte) (s : list byte) : has_byte c s = false -> has_byte c (fst (strsep d s)) = false.
Proof.
  unfold has_byte. induction s as [|a s IH]; cbn; [done |]. intros [Ha Hs]%orb_false_iff.
  destruct (Byte.eqb a d); [done |]. destruct (strsep d s) as [tok rest]. cbn in *. by rewrite Ha, IH.
Qed.

(** One word after another. *)
Ltac words := repeat first
  [ rewrite sh_words_quoted by (done || auto)
  | rewrite sh_words_plain by (done || auto)
  | rewrite sh_words_last by (done || auto) ].

Section Quote.
Context `{Platform} {P : Phone} {PL : PhoneLaws P} {CS : CSort}.

Definition addr_event (iface addrs : list byte) (e : event) : Prop :=
  match e with
  | Printed _ => True
  | Ran c | Opened c => exists addr ws, In addr (strtok list_delims addrs)
      /\ sh_words c = Some ws /\ addr_command iface addr ws
  | _ => False
  end.

Lemma for_each_steps {A} (phi : event -> Prop) (body : A -> M unit) (l : list A) :
  (forall x, In x l -> steps phi (body x)) -> steps phi (for_each body l).
Proof.
  induction l as [|x l IH]; intros Hb; cbn; [apply steps_ret |].
  apply steps_bind; [apply Hb; by left | intros _]. apply IH. intros y Hy. apply Hb. by right.
Qed.

(** C20: Whatever the Address lines of a configuration hold, every command [set_addr] gives to
    the shell is read as the intended one, with the whole address as a single argument. *)
Theorem set_addr_words (iface addrs : list byte) :
  iface_name iface -> steps (addr_event iface addrs) (set_addr iface (Some addrs)).
Proof.
  intros [Hne Hp]%iface_plain. unfold set_addr, deref. rewrite bind_ret. apply for_each_steps. intros addr Hin.
  destruct (has_quoting addr) eqn:Hq; [apply steps_ret |]. apply orb_false_iff in Hq as [Hq _].
  unfold add_addr. destruct (has_byte ":" addr).
  - apply steps_bind; [| intros _]; [apply steps_cndc | apply steps_cmd]; try done.
    + exists addr. eexists. split_and!; [done | | apply ac_enable].
      change (text "ndc " ++ text "interface ipv6 " ++ iface ++ text " enable")
        with (text "ndc" ++ text " " ++ text "interface" ++ text " " ++ text "ipv6" ++ text " " ++ iface ++ text " " ++ text "enable").
      by words.
    + exists addr. eexists. split_and!; [done | | apply ac_add].
      change (text "ip -6 addr add " ++ ?x) with (text "ip" ++ text " " ++ text "-6" ++ text " " ++ text "addr" ++ text " " ++ text "add" ++ text " " ++ x).
      change (text " dev " ++ iface) with (text " " ++ text "dev" ++ text " " ++ iface). by words.
  - destruct (strsep "/" addr) as [mut slash] eqn:Es. apply steps_cndc; [done |].
    pose proof (has_byte_strsep apostrophe "/" addr Hq) as Hm. rewrite Es in Hm. cbn [fst] in Hm.
    set (mask := match slash with Some rest => u8 (atoi rest) | None => 32 end).
    assert (0 <= mask < 256) as Hmask.
    { unfold mask. destruct slash; [| lia]. apply (uw_range 8). lia. }
    destruct (print_u_plain mask) as [Hmne Hmp]; [lia |].
    exists addr. eexists. split_and!; [done | | by apply (ac_setcfg iface addr mask)]. rewrite Es. cbn [fst].
    change (text "ndc " ++ text "interface setcfg " ++ ?x) with (text "ndc" ++ text " " ++ text "interface" ++ text " " ++ text "setcfg" ++ text " " ++ x).
    by words.
Qed.
End Quote.

(** ** DNS servers *)

Definition server_tokens (toks : list (list byte)) : list (list byte) :=
  List.filter (fun t => negb (has_quoting t) && is_ip t) toks.
Definition domain_tokens (toks : list (list byte)) : list (list byte) :=
  List.filter (fun t => negb (has_quoting t) && negb (is_ip t)) toks.

Fixpoint join_texts (sep : list byte) (l : list (list byte)) : list byte :=
  match l with
  | [] => []
  | [t] => t
  | t :: l' => t ++ sep ++ join_texts sep l'
  end.

Lemma join_texts_snoc (sep : list byte) (l : list (list byte)) (t : list byte) :
  join_texts sep (l ++ [t]) = match l with [] => t | _ => join_texts sep l ++ sep ++ t end.
Proof.
  induction l as [|u l IH]; [done |]. cbn [app join_texts]. destruct l as [|v l]; [done |].
  change ((v :: l) ++ [t]) with (v :: (l ++ [t])) in *. cbn [join_texts] in *. rewrite IH. by rewrite <- !app_assoc.
Qed.

Lemma tokens_size_app (l l' : list (list byte)) : tokens_size (l ++ l') = (tokens_size l + tokens_size l')%nat.
Proof. induction l as [|t l IH]; cbn; [done |]. rewrite IH. lia. Qed.

Lemma tokens_size_filter (f : list byte -> bool) (l : list (list byte)) :
  (tokens_size (List.filter f l) <= tokens_size l)%nat.
Proof. induction l as [|t l IH]; cbn; [done |]. destruct (f t); cbn; lia. Qed.

Lemma join_texts_length (l : list (list byte)) : Forall (fun t => t <> []) l ->
  (length (join_texts (text ", ") l) <= 2 * tokens_size l)%nat.
Proof.
  induction 1 as [|t l Ht _ IH]; [done |]. destruct t as [|c t]; [done |].
  change (join_texts (text ", ") ((c :: t) :: l))
    with (match l with [] => c :: t | _ => (c :: t) ++ text ", " ++ join_texts (text ", ") l end).
  destruct l; rewrite ?length_app; cbn [length tokens_size text] in *; cbn in *; lia.
Qed.

Section Dns.
Variable len : nat.

(** A token in quotes, and the space behind it unless the token is the whole list. *)
Definition quoted (t : list byte) : list byte := take (len + 2) ([apostrophe] ++ t ++ [apostrophe] ++ text " ").
Definition quoted_list (l : list (list byte)) : list byte := concat (map quoted l).

(** What the loop has built from the tokens it has seen. *)
Definition lists_of (toks : list (list byte)) : dns_lists :=
  DnsLists (quoted_list (server_tokens toks)) (quoted_list (domain_tokens toks))
    (join_texts (text ", ") (server_tokens toks)) (join_texts (text ", ") (domain_tokens toks))
    (server_tokens toks) (domain_tokens toks).

Lemma quoted_list_snoc (l : list (list byte)) (t : list byte) : quoted_list (l ++ [t]) = quoted_list l ++ quoted t.
Proof. unfold quoted_list. rewrite map_app, concat_app. cbn. by rewrite app_nil_r. Qed.

Lemma quoted_list_length (l : list (list byte)) : Forall (fun t => t <> []) l ->
  (length (quoted_list l) <= 2 * tokens_size l)%nat.
Proof.
  induction 1 as [|t l Ht _ IH]; [done |]. unfold quoted_list in *. cbn [map concat tokens_size]. rewrite length_app.
  assert (length (quoted t) <= length t + 3)%nat.
  { unfold quoted. rewrite length_take, !length_app. cbn. lia. }
  destruct t; [done |]. cbn [length] in *. lia.
Qed.

Hypothesis Hlen : (1 <= len)%nat.

(** A list grows by a token without overflow and without a cut. *)
Lemma strncat_fits (dst src : list byte) : (length src <= len + 2)%nat -> (length (dst ++ src) <= 2 * (len + 1))%nat ->
  strncat (len * 4 + 1) dst src (len * 4 - 1) = Some (dst ++ src).
Proof.
  intros Hs Hd. unfold strncat. rewrite (take_ge src) by lia.
  destruct (Nat.ltb_spec (length (dst ++ src)) (len * 4 + 1)); [done | lia].
Qed.

Lemma list_grows (l : list (list byte)) (t : list byte) :
  Forall (fun t => t <> []) (l ++ [t]) -> (tokens_size (l ++ [t]) <= len + 1)%nat ->
  strncat (len * 4 + 1) (quoted_list l) (quoted t) (len * 4 - 1) = Some (quoted_list (l ++ [t]))
  /\ strncat (len * 4 + 1) (join_texts (text ", ") l)
       (snprintf (len + 2) (if nonempty (join_texts (text ", ") l) then text ", " ++ t else t)) (len * 4 - 1)
     = Some (join_texts (text ", ") (l ++ [t])).
Proof.
  intros Hne Hsz. pose proof (quoted_list_length _ Hne) as Hq. pose proof (join_texts_length _ Hne) as Hj.
  rewrite tokens_size_app in *. cbn [tokens_size] in *.
  assert (match l with [] => True | _ => nonempty (join_texts (text ", ") l) = true /\ (2 <= tokens_size l)%nat end) as Hl.
  { apply Forall_app in Hne as [Hne _]. destruct Hne as [|u l Hu _]; [done |]. destruct u as [|c u]; [done |].
    split; [by destruct l | cbn; lia]. }
  split.
  - rewrite quoted_list_snoc in *. apply strncat_fits; [| lia]. unfold quoted. rewrite length_take. lia.
  - rewrite join_texts_snoc in *. unfold snprintf. destruct l as [|u l].
    + cbn [join_texts nonempty]. rewrite take_ge by lia. apply strncat_fits; [lia | cbn; lia].
    + destruct Hl as [-> Hl]. rewrite take_ge by (rewrite length_app; cbn; lia).
      apply strncat_fits; [rewrite length_app; cbn; lia | lia].
Qed.

Lemma dns_step_lists (pre : list (list byte)) (t : list byte) :
  Forall (fun t => t <> []) (pre ++ [t]) -> (tokens_size (pre ++ [t]) <= len + 1)%nat ->
  dns_step len (lists_of pre) t = Some (lists_of (pre ++ [t])).
Proof.
  intros Hne Hsz. unfold dns_step, lists_of, server_tokens, domain_tokens. rewrite !List.filter_app. cbn [List.filter].
  destruct (has_quoting t) eqn:Hq; cbn [negb andb]; [by rewrite !app_nil_r |].
  assert (forall f, f t = true -> Forall (fun t => t <> []) (List.filter f pre ++ [t])
    /\ (tokens_size (List.filter f pre ++ [t]) <= len + 1)%nat) as Hf.
  { intros f Hf. apply Forall_app in Hne as [Hne1 Hne2]. split.
    - apply Forall_app. split; [| done]. rewrite Forall_forall in Hne1 |- *. intros x Hx. apply Hne1.
      apply list_elem_of_In in Hx. apply filter_In in Hx as [Hx _]. by apply list_elem_of_In.
    - rewrite tokens_size_app in *. pose proof (tokens_size_filter f pre). lia. }
  change (snprintf (len + 3) ?x) with (take (len + 3 - 1) x). replace (len + 3 - 1)%nat with (len + 2)%nat by lia.
  fold (quoted t). cbn [dns_shell_arglist dns_search_shell_arglist dns_function_arglist dns_search_function_arglist
    dns_list dns_search_list].
  destruct (is_ip t) eqn:Hi; cbn [negb andb].
  - destruct (Hf (fun t => negb (has_quoting t) && is_ip t)) as [H1 H2]; [by rewrite Hq, Hi |].
    destruct (list_grows _ t H1 H2) as [-> ->]. by rewrite !app_nil_r.
  - destruct (Hf (fun t => negb (has_quoting t) && negb (is_ip t))) as [H1 H2]; [by rewrite Hq, Hi |].
    destruct (list_grows _ t H1 H2) as [-> ->]. by rewrite !app_nil_r.
Qed.

Lemma dns_loop_lists (pre toks : list (list byte)) :
  Forall (fun t => t <> []) (pre ++ toks) -> (tokens_size (pre ++ toks) <= len + 1)%nat ->
  dns_loop len (lists_of pre) toks = Some (lists_of (pre ++ toks)).
Proof.
  revert pre. induction toks as [|t toks IH]; intros pre Hne Hsz; cbn [dns_loop]; [by rewrite app_nil_r |].
  replace (pre ++ t :: toks) with ((pre ++ [t]) ++ toks) in * by (by rewrite <- app_assoc).
  rewrite dns_step_lists; [by apply IH | by apply Forall_app in Hne as [? _] |].
  rewrite tokens_size_app in Hsz. lia.
Qed.
End Dns.

Lemma dns_loop_strtok (dnses : list byte) : dnses <> [] ->
  dns_loop (length dnses) (DnsLists [] [] [] [] [] []) (strtok list_delims dnses)
  = Some (lists_of (length dnses) (strtok list_delims dnses)).
Proof.
  intros Hne. apply (dns_loop_lists (length dnses) ltac:(by destruct dnses; cbn; [| lia]) []).
  - eapply Forall_impl; [apply strtok_tokens |]. by intros t [? _].
  - cbn [app]. apply strtok_size.
Qed.

Lemma filtered_tokens (f : list byte -> bool) (dnses : list byte) :
  Forall (fun t => t <> []) (List.filter f (strtok list_delims dnses))
  /\ (tokens_size (List.filter f (strtok list_delims dnses)) <= length dnses + 1)%nat.
Proof.
  split.
  - apply Forall_forall. intros t Ht. apply list_elem_of_In in Ht. apply filter_In in Ht as [Ht _].
    pose proof (strtok_tokens list_delims dnses) as Hall. rewrite Forall_forall in Hall.
    apply list_elem_of_In in Ht. by destruct (Hall t Ht).
  - pose proof (tokens_size_filter f (strtok list_delims dnses)). pose proof (strtok_size list_delims dnses). lia.
Qed.

(** The buffers of [set_dnses] hold every list of servers and search domains: nothing is
    written past their ends, and no entry is lost or cut. *)
Theorem dns_loop_fits (dnses : list byte) : dnses <> [] ->
  let toks := strtok list_delims dnses in
  exists d, dns_loop (length dnses) (DnsLists [] [] [] [] [] []) toks = Some d
    /\ dns_list d = server_tokens toks /\ dns_search_list d = domain_tokens toks
    /\ dns_function_arglist d = join_texts (text ", ") (server_tokens toks)
    /\ dns_search_function_arglist d = join_texts (text ", ") (domain_tokens toks)
    /\ Forall (fun b => (length b <= 4 * length dnses)%nat)
         [dns_shell_arglist d; dns_search_shell_arglist d; dns_function_arglist d; dns_search_function_arglist d].
Proof.
  intros Hne toks. exists (lists_of (length dnses) toks).
  split_and!; [by apply dns_loop_strtok | done | done | done | done |].
  assert (1 <= length dnses)%nat by (destruct dnses; [done | cbn; lia]).
  destruct (filtered_tokens (fun t => negb (has_quoting t) && is_ip t) dnses) as [Hs1 Hs2].
  destruct (filtered_tokens (fun t => negb (has_quoting t) && negb (is_ip t)) dnses) as [Hd1 Hd2].
  pose proof (quoted_list_length (length dnses) _ Hs1). pose proof (quoted_list_length (length dnses) _ Hd1).
  pose proof (join_texts_length _ Hs1). pose proof (join_texts_length _ Hd1).
  repeat constructor; cbn [lists_of dns_shell_arglist dns_search_shell_arglist dns_function_arglist dns_search_function_arglist];
    unfold server_tokens, domain_tokens, toks; lia.
Qed.

(** ** The command without the binder library *)

(** A token that is shorter than the whole list. *)
Lemma quoted_short (len : nat) (t : list byte) : (length t < len)%nat ->
  quoted len t = [apostrophe] ++ t ++ [apostrophe] ++ text " ".
Proof. intros Ht. unfold quoted. apply take_ge. rewrite !length_app. cbn. lia. Qed.

Lemma quoted_whole (len : nat) (t : list byte) : length t = len -> quoted len t = [apostrophe] ++ t ++ [apostrophe].
Proof.
  intros Ht. unfold quoted. rewrite !app_assoc, take_app_le by (rewrite !length_app; cbn; lia).
  rewrite take_ge by (rewrite !length_app; cbn; lia). by rewrite <- app_assoc.
Qed.

Lemma sh_words_servers (len : nat) (l : list (list byte)) :
  Forall (fun t => has_byte apostrophe t = false /\ (length t < len)%nat) l -> sh_words (quoted_list len l) = Some l.
Proof.
  induction 1 as [|t l [Hq Ht] _ IH]; [done |]. unfold quoted_list in *. cbn [map concat].
  rewrite quoted_short by done. rewrite <- !app_assoc, sh_words_quoted by done. by rewrite IH.
Qed.

Lemma sh_lex_special (w s : list byte) (cur : list byte) :
  has_byte apostrophe w = false -> has_byte " " w = false -> forallb sh_plain w = false ->
  sh_lex (w ++ s) false (Some cur) = None.
Proof.
  revert cur. induction w as [|c w IH]; intros cur Ha Hs Hp; [done |]. unfold has_byte in *. cbn [existsb forallb] in Ha, Hs, Hp.
  apply orb_false_iff in Ha as [Ha Ha']. apply orb_false_iff in Hs as [Hs Hs'].
  cbn [app sh_lex]. rewrite (proj2 (byte_eqb_neq c apostrophe)) by (apply byte_eqb_neq in Ha; done).
  rewrite (proj2 (byte_eqb_neq c " ")) by (apply byte_eqb_neq in Hs; done).
  destruct (sh_plain c); [| done]. by apply IH.
Qed.

(** Inside the quotes of the command, the quotes of a domain close and open. *)
Lemma sh_lex_domains (len : nat) (l : list (list byte)) (s cur : list byte) :
  Forall (fun t => has_byte apostrophe t = false /\ has_byte " " t = false /\ (length t < len)%nat) l ->
  sh_lex (quoted_list len l ++ s) true (Some cur)
  = if forallb (forallb sh_plain) l then sh_lex s true (Some (cur ++ concat (map (fun d => d ++ text " ") l))) else None.
Proof.
  intros Hl. revert cur. induction Hl as [|t l (Hq & Hs & Ht) _ IH]; intros cur; [by rewrite app_nil_r |].
  unfold quoted_list in *. cbn [map concat forallb]. rewrite quoted_short by done. rewrite <- !app_assoc.
  change (sh_lex ([apostrophe] ++ ?x) true (Some cur)) with (sh_lex x false (Some cur)).
  destruct (forallb sh_plain t) eqn:Hp; cbn [andb]; [| by apply sh_lex_special].
  rewrite sh_lex_plain by done.
  change (sh_lex ([apostrophe] ++ text " " ++ ?x) false (Some ?w)) with (sh_lex x true (Some (w ++ text " "))).
  rewrite IH. by rewrite <- !app_assoc.
Qed.

(** In a list of two tokens or more, all are shorter than the list. *)
Lemma short_tokens (dnses : list byte) (t : list byte) :
  (2 <= length (strtok list_delims dnses))%nat -> In t (strtok list_delims dnses) -> (length t < length dnses)%nat.
Proof.
  intros H2 Hin. pose proof (strtok_size list_delims dnses) as Hsz. pose proof (strtok_tokens list_delims dnses) as Hall.
  apply in_split in Hin as (l1 & l2 & E). rewrite E in *. rewrite tokens_size_app in Hsz. cbn [tokens_size] in Hsz.
  rewrite length_app in H2. cbn in H2.
  assert (forall l, Forall (token (fun c => has_byte c list_delims)) l -> (2 * length l <= tokens_size l)%nat) as Hl.
  { clear. induction 1 as [|t l [Ht _] _ IH]; [done |]. destruct t; [done |]. cbn [length tokens_size] in *. lia. }
  apply Forall_app in Hall as [Hl1 Hl2]. apply Forall_cons in Hl2 as [_ Hl2].
  specialize (Hl l1 Hl1) as H3. specialize (Hl l2 Hl2) as H4. lia.
Qed.

Lemma token_no_space (dnses t : list byte) : In t (strtok list_delims dnses) -> has_byte " " t = false.
Proof.
  intros Hin. pose proof (strtok_tokens list_delims dnses) as Hall. rewrite Forall_forall in Hall.
  apply list_elem_of_In in Hin. destruct (Hall t Hin) as [_ Hd].
  destruct (has_byte " " t) eqn:E; [| done]. apply has_byte_iff in E. rewrite forallb_forall in Hd. by specialize (Hd _ E).
Qed.

(** The command of [set_dnses] when there is no binder library. *)
Definition setnetdns (n : Z) (len : nat) (toks : list (list byte)) : list byte :=
  text "resolver setnetdns " ++ print_u n ++ text " " ++ [apostrophe]
    ++ quoted_list len (domain_tokens toks) ++ [apostrophe] ++ text " " ++ quoted_list len (server_tokens toks).

Lemma has_quoting_filter (f : list byte -> bool) (toks : list (list byte)) (t : list byte) :
  In t (List.filter (fun t => negb (has_quoting t) && f t) toks) -> In t toks /\ has_byte apostrophe t = false.
Proof.
  intros [Hin Hb]%filter_In. apply andb_true_iff in Hb as [Hq _]. apply negb_true_iff, orb_false_iff in Hq as [Hq _]. done.
Qed.

(** The servers are the last words of the command. *)
Lemma servers_words (dnses : list byte) : server_tokens (strtok list_delims dnses) <> [] ->
  sh_words (quoted_list (length dnses) (server_tokens (strtok list_delims dnses)))
  = Some (server_tokens (strtok list_delims dnses)).
Proof.
  set (toks := strtok list_delims dnses). intros Hne.
  destruct (decide (2 <= length toks)%nat) as [H2 | H1].
  - apply sh_words_servers. apply Forall_forall. intros t Ht. apply list_elem_of_In in Ht.
    apply has_quoting_filter in Ht as [Hin Hq]. split; [done | by apply short_tokens].
  - assert (exists t, toks = [t]) as [t Et].
    { destruct toks as [|t [|u l]] eqn:E; [done | by exists t | cbn in H1; lia]. }
    unfold server_tokens in *. rewrite Et in *. cbn [List.filter] in *.
    destruct (negb (has_quoting t) && is_ip t) eqn:Hb; [| done].
    apply andb_true_iff in Hb as [Hq _]. apply negb_true_iff, orb_false_iff in Hq as [Hq _].
    pose proof (strtok_size list_delims dnses) as Hsz. fold toks in Hsz. rewrite Et in Hsz. cbn in Hsz.
    destruct (decide (length t = length dnses)) as [He | Hn].
    + unfold quoted_list. cbn [map concat]. rewrite app_nil_r, quoted_whole by done.
      unfold sh_words. change (sh_lex ([apostrophe] ++ ?x) false None) with (sh_lex x true (Some [])).
      by rewrite <- (app_nil_r (t ++ [apostrophe])), <- app_assoc, sh_lex_quoted.
    + apply sh_words_servers. constructor; [| done]. split; [done | lia].
Qed.

Section DnsCommand.
Context `{Platform} {P : Phone}.

(** Without the binder library, the DNS servers of the configuration are single arguments
    of the command; the search domains are one argument, but their own quotes close those
    around it, so a domain is read by the shell: where it has a special character the command
    is no longer the intended one. *)
Theorem set_dnses_words (n : Z) (dnses : list byte) (s : st) :
  0 <= n -> binder_available s = false -> Z.of_nat (length dnses) <= 2 ^ 16 ->
  server_tokens (strtok list_delims dnses) <> [] ->
  exists c, set_dnses n (Some dnses) s = cndc c s
    /\ sh_words (text "ndc " ++ c)
       = if forallb (forallb sh_plain) (domain_tokens (strtok list_delims dnses))
         then Some ([text "ndc"; text "resolver"; text "setnetdns"; print_u n;
                     concat (map (fun d => d ++ text " ") (domain_tokens (strtok list_delims dnses)))]
                    ++ server_tokens (strtok list_delims dnses))
         else None.
Proof.
  intros Hn Hb Hl Hs. pose proof (servers_words dnses Hs) as Hw. set (toks := strtok list_delims dnses) in *.
  assert (dnses <> []) as Hne by (intros ->; by apply Hs).
  exists (setnetdns n (length dnses) toks). split.
  - unfold set_dnses, deref. rewrite bind_ret. rewrite (proj2 (Z.ltb_ge _ _)) by lia.
    rewrite (proj2 (Nat.eqb_neq _ _)) by (by destruct dnses). unfold count_ips. fold toks. fold (server_tokens toks).
    rewrite (proj2 (Nat.eqb_neq _ _)) by (by destruct (server_tokens toks)).
    unfold toks. rewrite dns_loop_strtok by done. rewrite bind_ret.
    assert (dnsresolver_get_handle s = (Ret false, s)) as Eh.
    { unfold dnsresolver_get_handle. by rewrite bind_get, Hb. }
    by rewrite (bind_eq _ _ _ _ _ Eh).
  - unfold setnetdns. destruct (print_u_plain n Hn) as [Hpn Hpp].
    change (text "ndc " ++ text "resolver setnetdns " ++ ?x)
      with (text "ndc" ++ text " " ++ text "resolver" ++ text " " ++ text "setnetdns" ++ text " " ++ x).
    do 4 (rewrite sh_words_plain by done).
    assert (sh_words ([apostrophe] ++ quoted_list (length dnses) (domain_tokens toks) ++ [apostrophe] ++ text " "
      ++ quoted_list (length dnses) (server_tokens toks))
      = if forallb (forallb sh_plain) (domain_tokens toks)
        then Some (concat (map (fun d => d ++ text " ") (domain_tokens toks)) :: server_tokens toks) else None) as ->;
      [| by destruct (forallb _ (domain_tokens toks))].
    unfold sh_words at 1. change (sh_lex ([apostrophe] ++ ?x) false None) with (sh_lex x true (Some [])).
    rewrite sh_lex_domains.
    + destruct (forallb _ (domain_tokens toks)); [| done]. cbn [app].
      change (sh_lex (apostrophe :: text " " ++ ?x) true (Some ?w))
        with (match sh_words x with Some ws => Some (w :: ws) | None => None end). by rewrite Hw.
    + apply Forall_forall. intros t Ht. apply list_elem_of_In in Ht as Ht'.
      apply has_quoting_filter in Ht' as [Hin Hq]. split_and!; [done | by eapply token_no_space |].
      apply short_tokens; [| done]. fold toks.
      destruct (server_tokens toks) as [|u l] eqn:Es; [done |].
      assert (In u (server_tokens toks)) as Hu by (rewrite Es; by left).
      apply filter_In in Hu as [Hu1 Hu2]. apply list_elem_of_In in Ht. apply filter_In in Ht as [_ Ht2].
      apply andb_true_iff in Hu2 as [_ Hu2]. apply andb_true_iff in Ht2 as [_ Ht2].
      destruct toks as [|a [|b r]]; [done | | cbn; lia].
      destruct Hin as [<- | []]. destruct Hu1 as [<- | []]. by rewrite Hu2 in Ht2.
Qed.
End DnsCommand.

(** ** Witnesses *)

Section Witnesses.
#[local] Existing Instance lp64_x86.
#[local] Instance quote_phone : Phone := script_phone demo_script.
#[local] Instance quote_laws : PhoneLaws quote_phone := script_phone_laws demo_script eq_refl.

(** An address with a command in it stays one argument. *)
Lemma set_addr_words_witness :
  steps (addr_event (text "wg0") (text "::1;reboot,10.0.0.2/24")) (set_addr (text "wg0") (Some (text "::1;reboot,10.0.0.2/24"))).
Proof. apply (set_addr_words (text "wg0")). split; [cbn; lia | reflexivity]. Defined.

Lemma dns_loop_fits_witness : exists d,
  dns_loop 20 (DnsLists [] [] [] [] [] []) (strtok list_delims (text "1.1.1.1, example.com")) = Some d
  /\ dns_list d = server_tokens (strtok list_delims (text "1.1.1.1, example.com"))
  /\ dns_search_list d = domain_tokens (strtok list_delims (text "1.1.1.1, example.com"))
  /\ dns_function_arglist d = join_texts (text ", ") (server_tokens (strtok list_delims (text "1.1.1.1, example.com")))
  /\ dns_search_function_arglist d = join_texts (text ", ") (domain_tokens (strtok list_delims (text "1.1.1.1, example.com")))
  /\ Forall (fun b => (length b <= 4 * 20)%nat)
       [dns_shell_arglist d; dns_search_shell_arglist d; dns_function_arglist d; dns_search_function_arglist d].
Proof. apply (dns_loop_fits (text "1.1.1.1, example.com")). discriminate. Defined.

(** A search domain with a command in it is not in quotes. *)
Lemma set_dnses_words_witness : exists c,
  set_dnses 5000 (Some (text "1.1.1.1,$(reboot)")) (boot (tt : @world quote_phone))
  = cndc c (boot (tt : @world quote_phone))
  /\ sh_words (text "ndc " ++ c) = None.
Proof.
  destruct (set_dnses_words 5000 (text "1.1.1.1,$(reboot)") (boot (tt : @world quote_phone))) as (c & E & Hw).
  - lia.
  - reflexivity.
  - vm_compute. discriminate.
  - vm_compute. discriminate.
  - exists c. split; [exact E |]. rewrite Hw. vm_compute. reflexivity.
Defined.
End Witnesses.
