(* ===== verification/AndroidParcel.v ===== *)
(** * The parcel of the resolver's configuration (wg-quick/android.c)

    [ParcelLaws] is what the binder library says of parcels: a buffer with a position, where a
    write replaces or extends the bytes at the position.  Shown: the parcel handed to
    [setResolverConfiguration] is a structure whose first field is its size in bytes, although
    the size is written last. *)

From S2P Require Import Prelude CString CSort Regex AndroidShell AndroidBinder Android AndroidUp AndroidScript AndroidRun.
#[local] Open Scope Z_scope.
#[local] Open Scope awg_scope.

(** The bytes at the position of a buffer are replaced, and the position moves behind them. *)
Definition write_at (v : list byte * nat) (b : list byte) : list byte * nat :=
  let '(data, pos) := v in (take pos data ++ b ++ drop (pos + length b) data, (pos + length b)%nat).

Class ParcelLaws (P : Phone) := {
  parcel_view : parcel -> list byte * nat;
  (** The encodings of strings and arrays of strings. *)
  enc_string : option (list byte) -> Z -> list byte;
  enc_strings : Z -> (nat -> option (list byte) * Z) -> list byte;
  prepare_view : forall w p, AIBinder_prepareTransaction w = (STATUS_OK, p) ->
    exists header, parcel_view p = (header, length header);
  position_view : forall p, AParcel_getDataPosition p = Z.of_nat (snd (parcel_view p));
  write_int_view : forall p v p', AParcel_writeInt32 p v = (STATUS_OK, p') ->
    parcel_view p' = write_at (parcel_view p) (bytes_le 4 v);
  write_string_view : forall p s n p', AParcel_writeString p s n = (STATUS_OK, p') ->
    parcel_view p' = write_at (parcel_view p) (enc_string s n);
  write_strings_view : forall p n g p', AParcel_writeStringArray p n g = (STATUS_OK, p') ->
    parcel_view p' = write_at (parcel_view p) (enc_strings n g);
  set_position_view : forall p pos p', AParcel_setDataPosition p (Z.of_nat pos) = (STATUS_OK, p') ->
    (pos <= length (fst (parcel_view p)))%nat -> parcel_view p' = (fst (parcel_view p), pos);
}.

Lemma write_at_end (d b : list byte) : write_at (d, length d) b = (d ++ b, length (d ++ b)).
Proof. unfold write_at. rewrite firstn_all, drop_ge, app_nil_r, length_app by lia. done. Qed.

Lemma write_at_mid (a old c b : list byte) : length old = length b ->
  write_at (a ++ old ++ c, length a) b = (a ++ b ++ c, (length a + length b)%nat).
Proof.
  intros Hl. unfold write_at. rewrite take_app_length. f_equal. rewrite <- drop_drop, drop_app_length, <- Hl.
  by rewrite drop_app_length.
Qed.

Section Parcel.
Context `{Platform} {P : Phone} {L : ParcelLaws P}.

Definition enc_array (a : option (list (list byte))) : list byte :=
  enc_strings (string_array_size a) (string_array_getter a).

(** The fields of the structure after its size. *)
Definition params_body (q : dnsresolver_params) : list byte :=
  bytes_le 4 (netid q) ++ bytes_le 4 (sample_validity_seconds q) ++ bytes_le 4 (success_threshold q)
  ++ bytes_le 4 (min_samples q) ++ bytes_le 4 (max_samples q) ++ bytes_le 4 (base_timeout_msec q)
  ++ bytes_le 4 (retry_count q) ++ enc_array (servers q) ++ enc_array (domains q)
  ++ enc_string (tls_name q) (string_size (tls_name q)) ++ enc_array (tls_servers q)
  ++ enc_array (tls_fingerprints q).

(** The parcel: the header of the transaction, a 1 for a structure that is there, its size,
    and its fields. *)
Definition config_event (q : dnsresolver_params) (e : event) : Prop :=
  match e with
  | Transacted code p => code = FIRST_CALL_TRANSACTION + 2 /\ exists header,
      fst (parcel_view p) = header ++ bytes_le 4 1
        ++ bytes_le 4 (4 + Z.of_nat (length (params_body q))) ++ params_body q
      /\ snd (parcel_view p) = length (fst (parcel_view p))
  | _ => False
  end.

Lemma steps_checked_ok {A} (phi : event -> Prop) (r : Z * A) (k : A -> M Z) :
  (forall a, r = (STATUS_OK, a) -> steps phi (k a)) -> steps phi (checked r k).
Proof.
  intros Hk. destruct r as [z a]. unfold checked. destruct (Z.eqb_spec z STATUS_OK) as [-> | ?]; [by apply Hk | apply steps_ret].
Qed.

(** A write at the end of the data. *)
Definition at_end (p : parcel) (d : list byte) : Prop := parcel_view p = (d, length d).

Lemma append_int (p p' : parcel) (d : list byte) (v : Z) :
  at_end p d -> AParcel_writeInt32 p v = (STATUS_OK, p') -> at_end p' (d ++ bytes_le 4 v).
Proof. unfold at_end. intros Hp Hw%write_int_view. by rewrite Hw, Hp, write_at_end. Qed.

Lemma append_strings (p p' : parcel) (d : list byte) (a : option (list (list byte))) :
  at_end p d -> write_strings p a = (STATUS_OK, p') -> at_end p' (d ++ enc_array a).
Proof. unfold at_end. intros Hp Hw%write_strings_view. by rewrite Hw, Hp, write_at_end. Qed.

Lemma append_string (p p' : parcel) (d : list byte) (s : option (list byte)) (n : Z) :
  at_end p d -> AParcel_writeString p s n = (STATUS_OK, p') -> at_end p' (d ++ enc_string s n).
Proof. unfold at_end. intros Hp Hw%write_string_view. by rewrite Hw, Hp, write_at_end. Qed.

(** The size is written over the zero that kept its place. *)
Lemma patch_size (p p1 p2 p3 : parcel) (head body : list byte) :
  at_end p (head ++ bytes_le 4 0 ++ body) -> Z.of_nat (length body) + 4 < 2 ^ 31 ->
  AParcel_setDataPosition p (Z.of_nat (length head)) = (STATUS_OK, p1) ->
  AParcel_writeInt32 p1 (s32 (AParcel_getDataPosition p - Z.of_nat (length head))) = (STATUS_OK, p2) ->
  AParcel_setDataPosition p2 (AParcel_getDataPosition p) = (STATUS_OK, p3) ->
  at_end p3 (head ++ bytes_le 4 (4 + Z.of_nat (length body)) ++ body).
Proof.
  intros Hp Hl H1 H2 H3. rewrite position_view in H2, H3. unfold at_end in *. rewrite Hp in H2, H3. cbn [snd] in H2, H3.
  apply set_position_view in H1; [| rewrite Hp; cbn [fst]; rewrite length_app; lia]. rewrite Hp in H1. cbn [fst] in H1.
  apply write_int_view in H2. rewrite H1, write_at_mid in H2 by (by rewrite !bytes_le_length).
  assert (length (head ++ bytes_le 4 0 ++ body) = length head + 4 + length body)%nat as E.
  { rewrite !length_app, bytes_le_length. lia. }
  rewrite E in *. change (2 ^ 31) with 2147483648 in Hl.
  assert (s32 (Z.of_nat (length head + 4 + length body) - Z.of_nat (length head)) = 4 + Z.of_nat (length body)) as Es.
  { unfold s32. change (2 ^ 31) with 2147483648. change (2 ^ 32) with 4294967296. rewrite Z.mod_small; lia. }
  rewrite Es in H2. apply set_position_view in H3; rewrite H2 in *; cbn [fst] in *;
    rewrite !length_app, ?bytes_le_length in *; [| lia]. rewrite H3. f_equal. lia.
Qed.

(** The one transaction of [dnsresolver_set_resolver_configuration] carries a structure
    that starts with its size, the size field included, followed by its fields in order. *)
Theorem resolver_parcel (q : dnsresolver_params) :
  Z.of_nat (length (params_body q)) + 4 < 2 ^ 31 ->
  steps (config_event q) (dnsresolver_set_resolver_configuration q).
Proof.
  intros Hl. unfold dnsresolver_set_resolver_configuration. apply steps_bind; [apply steps_get |]. intros w.
  apply steps_checked_ok. intros p0 H0. apply prepare_view in H0 as [header H0].
  apply steps_checked_ok. intros p1 H1. apply (append_int _ _ header) in H1; [| done].
  cbv zeta. set (head := header ++ bytes_le 4 1) in *.
  assert (AParcel_getDataPosition p1 = Z.of_nat (length head)) as Hpos by (rewrite position_view, H1; done). rewrite Hpos.
  apply steps_checked_ok. intros p2 H2. apply (append_int _ _ _ _ H1) in H2.
  do 7 (apply steps_checked_ok; intros ? H3; eapply append_int in H3; [| exact H2]; clear H2; rename H3 into H2).
  do 2 (apply steps_checked_ok; intros ? H3; eapply append_strings in H3; [| exact H2]; clear H2; rename H3 into H2).
  apply steps_checked_ok. intros ? H3. eapply append_string in H3; [| exact H2]. clear H2. rename H3 into H2.
  do 2 (apply steps_checked_ok; intros ? H3; eapply append_strings in H3; [| exact H2]; clear H2; rename H3 into H2).
  rewrite <- !app_assoc in H2. fold (params_body q) in H2.
  apply steps_checked_ok. intros p3 H3. apply steps_checked_ok. intros p4 H4. apply steps_checked_ok. intros p5 H5.
  pose proof (patch_size _ _ _ _ _ _ H2 Hl H3 H4 H5) as Hend.
  apply steps_bind; [unfold transact; apply steps_bind; [apply steps_emit | intros; apply steps_world] |].
  - split; [done |]. exists header. rewrite Hend. cbn [fst snd]. unfold head. by rewrite <- app_assoc.
  - intros r. apply steps_checked_ok. intros out _. apply steps_checked_ok. intros st _. apply steps_ret.
Qed.
End Parcel.

(** The parcels of a script. *)
#[export] Instance script_phone_parcels (s : script) : ParcelLaws (script_phone s).
Proof.
  refine {| parcel_view := (fun p : @parcel (script_phone s) => (bp_data p, bp_pos p));
    enc_string := bp_string;
    enc_strings := fun len getter => bytes_le 4 len
      ++ concat (map (fun i => let '(str, n) := getter i in bp_string str n) (seq 0 (Z.to_nat len))) |}; cbn.
  - intros _ p [= <-]. by exists [].
  - done.
  - by intros p v p' [= <-].
  - by intros p str n p' [= <-].
  - by intros p n g p' [= <-].
  - intros p pos p' [= <-] _. cbn. by rewrite Nat2Z.id.
Defined.

Section Witness.
#[local] Existing Instance lp64_x86.
#[local] Instance parcel_phone : Phone := script_phone (Script [] [] demo_files 0 None true [x00]).
#[local] Existing Instance insertion_csort.

Definition demo_params : dnsresolver_params :=
  resolver_params 5000 (DnsLists [] [] [] [] [text "1.1.1.1"; text "9.9.9.9"] [text "example.com"]).

Lemma resolver_parcel_witness :
  steps (@config_event parcel_phone (script_phone_parcels _) demo_params) (dnsresolver_set_resolver_configuration demo_params)
  /\ Z.of_nat (length (@params_body parcel_phone (script_phone_parcels _) demo_params)) = 85.
Proof.
  split; [apply (resolver_parcel demo_params) |]; vm_compute; reflexivity.
Defined.
End Witness.
