(* ===== verification/AndroidConf.v ===== *)
(** * The configuration file of awg-quick (wg-quick/android.c)

    [parse_options] keeps the lines for [awg setconf] and takes out its own.  Shown: which name
    a file gives to the interface; and a file made of what [awg showconf] prints for a device
    and of any lines of awg-quick is handed over as exactly that text, which [setconf] reads
    as the device. *)

From S2P Require Import Prelude Ctype CString Encoding Containers NetLib NetLibNumeric ConfigValues Config WellFormed ShowConf ConfRoundtrip.
From S2P Require Import CSort Regex AndroidShell AndroidBinder Android AndroidUp AndroidScript AndroidQuote.
#[local] Open Scope Z_scope.
#[local] Open Scope awg_scope.

(** ** The name of the interface *)

Lemma slash_not_iface : iface_char "/" = false.
Proof. done. Qed.

(** What a match of the pattern is: a name that ends before ".conf" at the end. *)
Lemma conf_grp_post (f : list byte) (so eo j : nat) :
  re_span f (RRep1 14 (RChar iface_char)) so eo -> re_span f (RCat (RLit (text ".conf")) REol) eo j ->
  j = length f /\ (so < eo /\ eo - so <= 15)%nat /\ (eo + 5 = length f)%nat /\ drop eo f = text ".conf"
  /\ forall k c, (so <= k < eo)%nat -> f !! k = Some c -> iface_char c = true.
Proof.
  intros Hg Hp. apply span_rep1_class in Hg as (Hr & Hm & Hc).
  apply span_cat_inv in Hp as (k & Hl & He). apply span_lit in Hl as (Hle & -> & Ht). apply span_eol_inv in He as [He ->].
  change (length (text ".conf")) with 5%nat in *.
  assert (drop eo f = text ".conf") as Hd.
  { rewrite <- Ht. symmetry. apply take_ge. rewrite length_drop. lia. }
  split_and!; [done | lia | lia | done | done | done].
Qed.

Definition conf_whole : re := RCat (p_pre regex_conf) (RCat (p_grp regex_conf) (p_post regex_conf)).

(** Every such name is matched, without a slash. *)
Lemma conf_matched (pre name : list byte) : iface_name name ->
  re_span (pre ++ name ++ text ".conf") conf_whole (length pre) (length (pre ++ name ++ text ".conf")).
Proof.
  intros [Hl Hc]. set (f := pre ++ name ++ text ".conf").
  assert (length f = length pre + length name + 5)%nat as Hf by (unfold f; rewrite !length_app; cbn; lia).
  assert (drop (length pre) f = name ++ text ".conf") as Hd by apply drop_app_length.
  apply span_cat with (length pre); [apply span_opt_inv; right; split; [done | lia] |].
  apply span_cat with (length pre + length name)%nat.
  - apply span_rep1_class. split_and!; [lia | lia | lia |]. intros k c Hk Hlk.
    replace k with (length pre + (k - length pre))%nat in Hlk by lia.
    rewrite <- lookup_drop, Hd, lookup_app_l in Hlk by lia. rewrite forallb_forall in Hc. apply Hc.
    apply list_elem_of_In. by eapply list_elem_of_lookup_2.
  - apply span_cat with (length f); [| apply span_eol_inv; done]. apply span_lit.
    split_and!; [lia | change (length (text ".conf")) with 5%nat; lia |].
    rewrite <- drop_drop, Hd, drop_app_length. done.
Qed.

(** The name cannot be made longer to the left. *)
Definition longest_name (pre name : list byte) : Prop :=
  length name = 15%nat \/ pre = [] \/ exists pre' c, pre = pre' ++ [c] /\ iface_char c = false.

Lemma conf_sub_some (f : list byte) (iface : list byte) : pattern_sub regex_conf f = Some iface ->
  exists pre, f = pre ++ iface ++ text ".conf" /\ iface_name iface /\ longest_name pre iface.
Proof.
  unfold pattern_sub, regexec_sub. pose proof (regexec_spec (p_pre regex_conf) (p_grp regex_conf) (p_post regex_conf) f) as Hs.
  destruct (regexec _ _ _ f) as [[so eo]|]; [| done]. intros [= <-].
  destruct Hs as (i & j & [Hpre Hgrp Hpost Hmin _ _ _]).
  destruct (conf_grp_post f so eo j Hgrp Hpost) as (-> & [Hlt Hle] & Hend & Hd & Hc).
  assert (length (substring f so eo) = eo - so)%nat as Hln by (unfold substring; rewrite length_take, length_drop; lia).
  assert (f = take so f ++ substring f so eo ++ text ".conf") as Hf.
  { rewrite <- Hd. unfold substring. replace (drop eo f) with (drop (eo - so) (drop so f))
      by (rewrite drop_drop; f_equal; lia). by rewrite take_drop, take_drop. }
  assert (iface_name (substring f so eo)) as Hname.
  { split; [lia |]. apply forallb_forall. intros c Hin. apply list_elem_of_In, list_elem_of_lookup in Hin as [k Hk].
    apply lookup_lt_Some in Hk as Hklt. apply (Hc (so + k)%nat); [lia |].
    unfold substring in Hk. rewrite lookup_take_lt, lookup_drop in Hk by lia. done. }
  exists (take so f). split_and!; [done | done |]. unfold longest_name.
  destruct (decide (eo - so = 15)%nat); [left; lia |]. right.
  destruct (take so f) as [|a l _] eqn:Et using rev_ind; [by left | right]. exists l, a. split; [done |].
  destruct (iface_char a) eqn:Ha; [exfalso | done].
  assert (so = S (length l)) as Hso by (apply (f_equal length) in Et; rewrite length_take, length_app in Et; cbn in Et; lia).
  assert (iface_name (a :: substring f so eo)) as Hname2.
  { split; [cbn; lia |]. cbn. rewrite Ha. apply Hname. }
  pose proof (conf_matched l _ Hname2) as Hm.
  assert (l ++ (a :: substring f so eo) ++ text ".conf" = f) as E by (rewrite Hf at 2; by rewrite <- app_assoc).
  rewrite E in Hm. apply Hmin in Hm.
  apply span_opt_inv in Hpre as [Hpre | [-> _]]; [| lia].
  apply span_byte in Hpre as (-> & c & Hci & Hcs). assert (i = length l) as -> by lia.
  apply byte_eqb_eq in Hcs as <-. rewrite <- E, lookup_app_r, Nat.sub_diag in Hci by lia. cbn in Hci.
  injection Hci as ->. by rewrite slash_not_iface in Ha.
Qed.

(** A longest name is not shorter than another name at the same place. *)
Lemma longest_name_max (pre name pre' name' : list byte) :
  pre ++ name = pre' ++ name' -> longest_name pre name -> iface_name name' -> (length name' <= length name)%nat.
Proof.
  intros E Hl [Hn Hc]. destruct (decide (length name' <= length name)%nat) as [| Hlt]; [done | exfalso].
  destruct Hl as [Hl | [-> | (p & c & -> & Hci)]]; [lia | apply (f_equal length) in E; rewrite !length_app in E; cbn in E; lia |].
  assert (In c name') as Hin.
  { apply (f_equal (drop (length pre'))) in E as Ed. rewrite drop_app_length in Ed.
    apply (f_equal length) in E. rewrite !length_app in E. cbn in E.
    rewrite drop_app_le, drop_app_le in Ed by (rewrite ?length_app; cbn; lia).
    rewrite <- Ed. apply in_app_iff. left. apply in_app_iff. right. by left. }
  rewrite forallb_forall in Hc. rewrite (Hc c Hin) in Hci. done.
Qed.

Lemma longest_name_unique (pre name pre' name' : list byte) :
  pre ++ name = pre' ++ name' -> longest_name pre name -> longest_name pre' name' ->
  iface_name name -> iface_name name' -> name = name'.
Proof.
  intros E Hl Hl' Hn Hn'. pose proof (longest_name_max _ _ _ _ E Hl Hn'). pose proof (longest_name_max _ _ _ _ (eq_sym E) Hl' Hn).
  apply app_inj_2 in E as [_ ->]; [done | lia].
Qed.

(** The interface of a configuration file is the longest run of at most fifteen name
    characters before ".conf" at the end of its path; a longer file name is cut from the
    left. *)
Theorem conf_name (f iface : list byte) :
  pattern_sub regex_conf f = Some iface
  <-> exists pre, f = pre ++ iface ++ text ".conf" /\ iface_name iface /\ longest_name pre iface.
Proof.
  split; [apply conf_sub_some |]. intros (pre & -> & Hn & Hl).
  destruct (regexec_some _ _ _ _ _ _ (conf_matched pre iface Hn)) as (i & j & so & eo & E & _).
  destruct (pattern_sub regex_conf (pre ++ iface ++ text ".conf")) as [name|] eqn:Es;
    [| unfold pattern_sub, regexec_sub in Es; by rewrite E in Es].
  apply conf_sub_some in Es as (pre' & Ef & Hn' & Hl'). f_equal.
  rewrite !app_assoc in Ef. apply app_inv_tail in Ef. by eapply longest_name_unique.
Qed.

(** ** Lines *)

(** A line with its newline, and no NUL. *)
Definition text_char (c : byte) : bool := negb (Byte.eqb c x0a) && negb (Byte.eqb c x00).
Definition whole_line (l : list byte) : Prop := exists b, l = b ++ [x0a] /\ forallb text_char b = true.

Lemma getlines_whole (ls : list (list byte)) : Forall whole_line ls -> map c_str (getlines (concat ls)) = ls.
Proof.
  induction 1 as [|l ls (b & -> & Hb) _ IH]; [done |]. cbn [concat]. rewrite <- app_assoc. cbn [app].
  rewrite getlines_cons by (by apply (forallb_not_in text_char)). cbn [map]. rewrite IH. f_equal.
  apply c_str_no_nul. rewrite in_app_iff. intros [Hin | Hin]; [| by destruct Hin as [? | []]].
  revert Hin. by apply (forallb_not_in text_char).
Qed.

(** The lines awg-quick takes out of the [Interface] section. *)
Definition quick_key (clean : list byte) : bool :=
  has_key clean "Address=" 8 || has_key clean "DNS=" 4 || has_key clean "ExcludedApplications=" 4
  || has_key clean "IncludedApplications=" 4 || has_key clean "MTU=" 4.

(** The lines that are kept, from a section on, and the section at their end. *)
Fixpoint kept (i : bool) (ls : list (list byte)) : list (list byte) :=
  match ls with
  | [] => []
  | l :: ls' =>
      let i := section_after i (strip l) in
      (if i && quick_key (strip l) then [] else [l]) ++ kept i ls'
  end.

Fixpoint section_at (i : bool) (ls : list (list byte)) : bool :=
  match ls with
  | [] => i
  | l :: ls' => section_at (section_after i (strip l)) ls'
  end.

Definition short_line (l : list byte) : Prop := Z.of_nat (length l) <= 2 ^ 16.

Lemma short_lines_check (ls : list (list byte)) :
  forallb (fun l => Z.of_nat (length l) <=? 2 ^ 16) ls = true -> Forall short_line ls.
Proof.
  intros H. apply Forall_forall. intros l Hl. rewrite forallb_forall in H. apply Z.leb_le, H. by apply list_elem_of_In.
Qed.

Section Reader.
Context `{Platform}.

Lemma reader_line_kept (r : reader) (l : list byte) :
  r_in_interface (reader_line r l) = section_after (r_in_interface r) (strip l)
  /\ default [] (r_config (reader_line r l))
     = default [] (r_config r)
       ++ (if section_after (r_in_interface r) (strip l) && quick_key (strip l) then [] else l).
Proof.
  assert (forall c : option (list byte), default [] (concat_and_free c [] l) = default [] c ++ l) as Hk by (by intros []).
  destruct r as [i c m a d e n g]. unfold reader_line, quick_key. cbn [r_in_interface r_config modify].
  destruct (section_after i (strip l)); cbn [andb]; [| by split; [| apply Hk]].
  destruct (has_key _ "Address=" 8); cbn [orb]; [by rewrite app_nil_r |].
  destruct (has_key _ "DNS=" 4); cbn [orb]; [by rewrite app_nil_r |].
  destruct (has_key _ "ExcludedApplications=" 4); cbn [orb]; [by rewrite app_nil_r |].
  destruct (has_key _ "IncludedApplications=" 4); cbn [orb]; [by rewrite app_nil_r |].
  destruct (has_key _ "MTU=" 4); cbn [orb]; [by rewrite app_nil_r |].
  destruct (has_awg_key _); by split; [| apply Hk].
Qed.

Lemma reader_lines_kept (r : reader) (ls : list (list byte)) : Forall short_line ls ->
  exists r', reader_lines r ls = (r', true)
    /\ default [] (r_config r') = default [] (r_config r) ++ concat (kept (r_in_interface r) ls).
Proof.
  intros Hs. revert r. induction Hs as [|l ls Hl _ IH]; intros r; cbn [reader_lines kept].
  - exists r. by rewrite app_nil_r.
  - rewrite (proj2 (Z.ltb_ge _ _)) by done. destruct (IH (reader_line r l)) as (r' & E & Hc).
    destruct (reader_line_kept r l) as [Hi Hk]. exists r'. split; [done |]. rewrite Hc, Hk, Hi, <- app_assoc. f_equal.
    cbv zeta. destruct (_ && _); cbn [app concat]; done.
Qed.
End Reader.

Lemma c_str_shorter (l : list byte) : (length (c_str l) <= length l)%nat.
Proof. induction l as [|c l IH]; cbn; [done |]. destruct (Byte.eqb c x00); cbn; lia. Qed.

(** ** Text that is kept as it is *)

(** Whole lines, all kept from section [i] on, ending in section [j]. *)
Definition inert (i : bool) (t : list byte) (j : bool) : Prop :=
  exists ls, t = concat ls /\ Forall whole_line ls /\ kept i ls = ls /\ section_at i ls = j.

Lemma kept_app (i : bool) (ls ls' : list (list byte)) : kept i (ls ++ ls') = kept i ls ++ kept (section_at i ls) ls'.
Proof. revert i. induction ls as [|l ls IH]; intros i; cbn; [done |]. by rewrite IH, app_assoc. Qed.

Lemma section_at_app (i : bool) (ls ls' : list (list byte)) : section_at i (ls ++ ls') = section_at (section_at i ls) ls'.
Proof. revert i. induction ls as [|l ls IH]; intros i; cbn; [done |]. apply IH. Qed.

Lemma inert_nil (i : bool) : inert i [] i.
Proof. by exists []. Qed.

Lemma inert_app (i j k : bool) (t u : list byte) : inert i t j -> inert j u k -> inert i (t ++ u) k.
Proof.
  intros (ls & -> & Hw & Hk & Hj) (ls' & -> & Hw' & Hk' & Hj'). exists (ls ++ ls').
  rewrite concat_app, kept_app, section_at_app, Hj, Hk, Hk', Hj'. split_and!; [done | by apply Forall_app | done | done].
Qed.

Lemma inert_line (i j : bool) (l : list byte) : whole_line l -> section_after i (strip l) = j ->
  j && quick_key (strip l) = false -> inert i l j.
Proof.
  intros Hw Hs Hq. exists [l]. cbn. rewrite app_nil_r, Hs, Hq. split_and!; [done | by apply Forall_singleton | done | done].
Qed.

Lemma inert_if (i c : bool) (t : list byte) : (c = true -> inert i t i) -> inert i (print_if c t) i.
Proof. destruct c; [auto | intros _; apply inert_nil]. Qed.

Definition quick_keys : list string :=
  ["Address="; "DNS="; "ExcludedApplications="; "IncludedApplications="; "MTU="]%string.

(** A key that neither opens a section nor is one of awg-quick. *)
Definition inert_key (key : string) : bool :=
  let k := text key ++ text "=" in
  forallb conf_char k && negb (Byte.eqb (byte_at k 0) "[") && mismatch k (text "[Interface]")
  && forallb (fun q => mismatch k (text q)) quick_keys.

Lemma has_key_mismatch (k v : list byte) (q : string) (n : nat) : mismatch k (text q) = true -> has_key (k ++ v) q n = false.
Proof. intros Hm. unfold has_key. by rewrite (proj1 (mismatch_strncasecmp k (text q) v Hm)). Qed.

Lemma inner_line (v : list byte) : forallb inner_char v = true -> forallb text_char v = true.
Proof. apply forallb_weaken. unfold inner_char, text_char. intros c Hc. boolz. by rewrite H, H0. Qed.

Lemma strip_conf (s : list byte) : forallb conf_char s = true -> strip s = s.
Proof.
  unfold strip. induction s as [|c s IH]; cbn [forallb List.filter]; [done |]. intros [Hc Hs]%andb_true_iff.
  unfold conf_char in Hc. boolz. rewrite H. cbn [negb]. by rewrite IH.
Qed.

Lemma inert_assign (i : bool) (key : string) (v : list byte) :
  inert_key key = true -> forallb inner_char v = true -> inert i (assign key v) i.
Proof.
  unfold inert_key. cbv zeta. set (k := text key ++ text "="). intros Hk Hv.
  apply andb_true_iff in Hk as [Hk Hq]. apply andb_true_iff in Hk as [Hk Hi]. apply andb_true_iff in Hk as [Hk Hb].
  assert (strip (assign key v) = k ++ strip v) as Es.
  { unfold assign, strip. rewrite !List.filter_app. fold (strip (text key)). fold (strip v).
    change (List.filter _ ShowConf.newline) with (@nil byte).
    change (List.filter _ (text " = ")) with (text "="). rewrite app_nil_r, app_assoc. f_equal. unfold k. f_equal.
    apply strip_conf. unfold k in Hk. rewrite forallb_app in Hk. by apply andb_true_iff in Hk as [? _]. }
  assert (k <> []) as Hkn by (unfold k; by destruct (text key)).
  apply inert_line; rewrite ?Es.
  - exists (text key ++ text " = " ++ v). split; [unfold assign; by rewrite <- !app_assoc |].
    rewrite !forallb_app, (inner_line v Hv). unfold k in Hk. rewrite forallb_app in Hk. apply andb_true_iff in Hk as [Hk _].
    by rewrite (inner_line _ (conf_inner _ Hk)).
  - unfold section_after. rewrite (proj2 (mismatch_strncasecmp _ _ _ Hi)).
    destruct k as [|c k']; [done |]. cbn [app byte_at nth] in *. apply negb_true_iff in Hb. by rewrite Hb.
  - unfold quick_keys in Hq. cbn [forallb] in Hq. repeat (apply andb_true_iff in Hq as [? Hq]).
    unfold quick_key. rewrite !has_key_mismatch by done. by rewrite andb_false_r.
Qed.

Lemma inert_blank (i : bool) : inert i ShowConf.newline i.
Proof. apply inert_line; [by exists [] | done | by rewrite andb_false_r]. Qed.

Lemma inert_peer_header (i : bool) : inert i (text "[Peer]" ++ ShowConf.newline) false.
Proof. apply inert_line; [by exists (text "[Peer]") | done | done]. Qed.

Section Showconf.
Context `{P : Platform} `{!PlatformOk P} `{N : NetLib} `{!NetLibLaws N}.

Lemma print_u_inner (n : Z) : 0 <= n -> forallb inner_char (print_u n) = true.
Proof. intros Hn. apply conf_inner. by apply print_u_conf. Qed.

Lemma header_inner (s : option (list byte)) : header_ok s -> forallb inner_char (print_s s) = true.
Proof. intros (t & -> & Ht). by apply conf_inner. Qed.

Lemma junk_inner (s : option (list byte)) : junk_ok s -> forallb inner_char (print_s s) = true.
Proof. by intros (t & -> & Ht & _). Qed.

Lemma base64_inner (k : list byte) : length k = WG_KEY_LEN -> forallb inner_char (key_to_base64 k) = true.
Proof. intros Hk. apply conf_inner. by apply base64_conf. Qed.

Lemma endpoint_inert (ep : list byte) : endpoint_ok ep -> inert false (showconf_endpoint ep) false.
Proof.
  unfold endpoint_ok, showconf_endpoint. destruct (endpoint_addr ep) as [sa|]; [| intros _; apply inert_nil].
  intros Hok. destruct (gai_nameinfo sa Hok) as (host & service & -> & _ & _ & Hh & _ & Hs & _).
  pose proof (conf_inner _ (forallb_weaken _ _ _ plain_conf Hh)) as Hh'.
  pose proof (conf_inner _ (forallb_weaken _ _ _ plain_conf Hs)) as Hs'.
  destruct (_ && _); apply inert_assign; try done; by rewrite !forallb_app, Hh', Hs'.
Qed.

Lemma peer_inert (p : wgpeer) (i : bool) : wf_peer p -> endpoint_ok (endpoint p) -> inert i (showconf_peer p) false.
Proof.
  intros [_ Hpk Hps _ Hka Hal] He. unfold showconf_peer. rewrite app_assoc. unfold is_u16 in Hka.
  apply inert_app with false; [apply inert_peer_header |].
  apply inert_app with false; [apply inert_assign; [done | by apply base64_inner] |].
  apply inert_app with false; [apply inert_if; intros _; apply inert_assign; [done | by apply base64_inner] |].
  apply inert_app with false; [apply inert_if; intros _; apply inert_assign; [done | by destruct (awg p)] |].
  apply inert_app with false.
  { apply inert_if. intros Hne. apply inert_assign; [done |]. apply showconf_allowedips_ok; [done |]. by destruct (allowedips p). }
  apply inert_app with false; [by apply endpoint_inert |].
  apply inert_if. intros _. apply inert_assign; [done | apply print_u_inner; lia].
Qed.

Lemma peers_inert (l : list wgpeer) (i : bool) : Forall wf_peer l -> Forall (fun p => endpoint_ok (endpoint p)) l ->
  exists j, inert i (showconf_peers l) j.
Proof.
  intros Hw. revert i. induction Hw as [|p l Hp _ IH]; intros i He; cbn [showconf_peers]; [exists i; apply inert_nil |].
  apply Forall_cons in He as [He Hes]. destruct (IH false Hes) as [j Hj]. exists j.
  apply inert_app with false; [by apply peer_inert |]. apply inert_app with false; [| done].
  apply inert_if. intros _. apply inert_blank.
Qed.

(** What [showconf] prints after its first line. *)
Definition showconf_body (d : wgdevice) : list byte :=
  drop (length (text "[Interface]" ++ ShowConf.newline)) (showconf_text d).

Lemma showconf_body_eq (d : wgdevice) : showconf_text d = (text "[Interface]" ++ ShowConf.newline) ++ showconf_body d.
Proof. done. Qed.

Lemma body_inert (d : wgdevice) : showable d -> exists j, inert true (showconf_body d) j.
Proof.
  intros [[] Hep Hh1 Hh2 Hh3 Hh4 Hi1 Hi2 Hi3 Hi4 Hi5].
  destruct (peers_inert (peers d) true wf_peers Hep) as [j Hj]. exists j. unfold is_u16, is_u32 in *.
  change (showconf_body d) with (drop 12 (showconf_interface d ++ showconf_peers (peers d))).
  unfold showconf_interface. change (drop 12 (?a ++ ShowConf.newline ++ ?x)) with x. rewrite <- !app_assoc.
  repeat (apply inert_app with true;
    [first [ apply inert_if; intros; apply inert_assign; [done |];
             first [ solve [apply print_u_inner; lia] | by apply base64_inner
                   | apply conf_inner, print_x_conf; lia
                   | solve [apply header_inner; auto] | solve [apply junk_inner; auto] ]
           | apply inert_blank ] |]).
  done.
Qed.

(** ** The whole file *)

(** A line of awg-quick, as it may stand in the [Interface] section. *)
Definition quick_line (l : list byte) : Prop :=
  whole_line l /\ quick_key (strip l) = true /\ Byte.eqb (byte_at (strip l) 0) "[" = false.

Lemma quick_line_section (l : list byte) : quick_line l -> section_after true (strip l) = true.
Proof. intros (_ & _ & Hb). unfold section_after. rewrite Hb. by destruct (strcasecmp_eq _ _). Qed.

Lemma quick_lines_dropped (qs ls : list (list byte)) : Forall quick_line qs -> kept true (qs ++ ls) = kept true ls.
Proof.
  induction 1 as [|q qs Hq _ IH]; [done |]. cbn [app kept]. rewrite (quick_line_section q Hq).
  destruct Hq as (_ & -> & _). exact IH.
Qed.

(** The lines of a file with the quick lines at the top of the [Interface] section. *)
Lemma conf_file_kept (d : wgdevice) (qs : list (list byte)) : showable d -> Forall quick_line qs ->
  exists ls, map c_str (getlines ((text "[Interface]" ++ ShowConf.newline) ++ concat qs ++ showconf_body d)) = ls
    /\ concat (kept false ls) = showconf_text d.
Proof.
  intros Hd Hq. destruct (body_inert d Hd) as (j & ls & Eb & Hw & Hk & _).
  assert (Forall whole_line qs) as Hqw by (eapply Forall_impl; [exact Hq |]; by intros l (? & _)).
  exists ([text "[Interface]" ++ ShowConf.newline] ++ qs ++ ls). split.
  - rewrite Eb. rewrite <- (concat_app qs ls).
    change ((text "[Interface]" ++ ShowConf.newline) ++ concat (qs ++ ls))
      with (concat ([text "[Interface]" ++ ShowConf.newline] ++ qs ++ ls)).
    apply getlines_whole. constructor; [by exists (text "[Interface]") | by apply Forall_app].
  - change (kept false ([text "[Interface]" ++ ShowConf.newline] ++ qs ++ ls))
      with ([text "[Interface]" ++ ShowConf.newline] ++ kept true (qs ++ ls)).
    rewrite quick_lines_dropped by done. rewrite Hk, concat_app, <- Eb. by rewrite showconf_body_eq.
Qed.

Context {Ph : Phone} (fuel : nat) (retries : Z).

(** C16: A configuration file that holds what [awg showconf] prints for a device, with any
    lines of awg-quick in its [Interface] section, makes awg-quick hand exactly that text to
    [awg setconf], which reads it as the device. *)
Theorem quick_conf_roundtrip (d : wgdevice) (qs : list (list byte)) (arg filename iface : list byte) (f : file) (s : st) :
  parse_dns_retries = Returns retries -> (0 < fuel)%nat -> showable d -> Forall quick_line qs ->
  open_conf arg (st_world s) = inr (filename, f) -> f_fstat f = 0 -> pattern_sub regex_conf filename = Some iface ->
  f_content f = (text "[Interface]" ++ ShowConf.newline) ++ concat qs ++ showconf_body d ->
  Forall short_line (getlines (f_content f)) ->
  exists o s' config, parse_options arg s = (Ret o, s') /\ o_iface o = iface /\ o_config o = Some config
    /\ config = showconf_text d
    /\ config_read_text fuel false config = Returns (Some (conf_image false d)).
Proof.
  intros Hr Hfu Hd Hq Ho Hst Hp Hc Hs. destruct (conf_file_kept d qs Hd Hq) as (ls & El & Hk).
  rewrite <- Hc in El.
  assert (Forall short_line ls) as Hsl.
  { rewrite <- El. apply Forall_map. eapply Forall_impl; [exact Hs |]. intros l Hl. unfold short_line in *.
    pose proof (c_str_shorter l). lia. }
  destruct (reader_lines_kept reader_start ls Hsl) as (r & Er & Hrc). cbn [r_in_interface reader_start r_config default app] in Hrc.
  eexists _, _, (showconf_text d). split_and!; [| | | done | by eapply showconf_reads].
  - unfold parse_options. rewrite bind_get, Ho, Hp, Hst, El, Er. cbn [Z.eqb negb]. rewrite bind_put. reflexivity.
  - done.
  - cbn [o_config]. by rewrite Hrc, Hk.
Qed.
End Showconf.

(** ** Witness *)

Section Witness.
#[local] Existing Instance lp64_x86.
#[local] Existing Instance numeric_net.

Definition demo_quick : list (list byte) :=
  map (fun s => text s ++ [x0a]) ["Address = 10.0.0.2/24"; "MTU = 1280"; "dns = 1.1.1.1"]%string.
Definition demo_file : list byte :=
  (text "[Interface]" ++ ShowConf.newline) ++ concat demo_quick ++ showconf_body shown_device.
#[local] Instance conf_phone : Phone :=
  script_phone (Script [] [] [(text "/data/misc/amneziawg/wg0.conf", demo_file)] 0 None false [x00]).
Abbreviation conf_start := (boot (tt : @world conf_phone)).

Lemma demo_quick_ok : Forall quick_line demo_quick.
Proof. repeat constructor; (eexists; split; [apply app_inj_tail_iff; split; reflexivity | reflexivity]). Qed.

Lemma demo_short : Forall short_line (getlines demo_file).
Proof.
  apply short_lines_check. vm_compute. reflexivity.
Qed.

Lemma quick_conf_roundtrip_witness : exists o s' config,
  parse_options (text "wg0") conf_start = (Ret o, s') /\ o_iface o = text "wg0" /\ o_config o = Some config
  /\ config = showconf_text shown_device
  /\ config_read_text 1 false config = Returns (Some (conf_image false shown_device)).
Proof.
  apply (quick_conf_roundtrip 1 15 shown_device demo_quick (text "wg0") (text "/data/misc/amneziawg/wg0.conf")
    (text "wg0") (File demo_file 0) conf_start).
  - reflexivity.
  - lia.
  - apply shown_device_ok.
  - apply demo_quick_ok.
  - vm_compute. reflexivity.
  - reflexivity.
  - vm_compute. reflexivity.
  - reflexivity.
  - apply demo_short.
Defined.
End Witness.
