(* ===== verification/WgCurve.v ===== *)
(** * Keys of the embeddable library (contrib/embeddable-wg-library/wireguard.c)

    The library has its own copy of the base64 functions and its own X25519: sixteen signed
    words of 64 bits, of which sixteen bits are used, multiplied and carried in loops.  An
    overflow of [int64_t] is undefined in C: the arithmetic is partial, [None] where a sum or
    a product does not fit. *)

From S2P Require Import Netlink Prelude CString Encoding Keys.
#[local] Open Scope Z_scope.

(** ** Loops *)

Fixpoint for_in {A} (idx : list nat) (body : nat -> A -> option A) (a : A) : option A :=
  match idx with
  | [] => Some a
  | i :: idx' => body i a ≫= for_in idx' body
  end.

(** ** Field elements *)

(** [int64_t] arithmetic. *)
Definition int64 (z : Z) : option Z := if (- 2 ^ 63 <=? z) && (z <? 2 ^ 63) then Some z else None.

Notation fe := (list Z).
Definition limb (o : fe) (i : nat) : Z := nth i o 0.

(** [(const fe){ x, y }]: the other words are zero. *)
Definition fe_of (l : list Z) : fe := l ++ repeat 0 (16 - length l).

Definition carry_step (i : nat) (o : fe) : option fe :=
  c ← int64 ((if (i =? 15)%nat then 38 else 1) * Z.shiftr (limb o i) 16);
  v ← int64 (limb o ((i + 1) mod 16) + c);
  let o := <[((i + 1) mod 16)%nat := v]> o in
  Some (<[i := Z.land (limb o i) 0xffff]> o).

Definition carry (o : fe) : option fe := for_in (seq 0 16) carry_step o.

(** [b] is 0 or 1. *)
Definition cswap (p q : fe) (b : Z) : fe * fe :=
  let c := Z.lnot (b - 1) in
  let t x y := Z.land c (Z.lxor x y) in
  (zip_with (fun x y => Z.lxor x (t x y)) p q, zip_with (fun x y => Z.lxor y (t x y)) p q).

Definition add (a b : fe) : option fe := mapM (fun '(x, y) => int64 (x + y)) (zip a b).
Definition subtract (a b : fe) : option fe := mapM (fun '(x, y) => int64 (x - y)) (zip a b).

(** [t\[i + j\] += a\[i\] * b\[j\]]. *)
Definition mult_step (a b : fe) (i j : nat) (t : list Z) : option (list Z) :=
  p ← int64 (limb a i * limb b j);
  v ← int64 (limb t (i + j) + p);
  Some (<[(i + j)%nat := v]> t).

(** [t\[i\] += 38 * t\[i + 16\]]. *)
Definition fold_step (i : nat) (t : list Z) : option (list Z) :=
  p ← int64 (38 * limb t (i + 16));
  v ← int64 (limb t i + p);
  Some (<[i := v]> t).

Definition multmod (a b : fe) : option fe :=
  t ← for_in (seq 0 16) (fun i => for_in (seq 0 16) (mult_step a b i)) (repeat 0 31);
  t ← for_in (seq 0 15) fold_step t;
  o ← carry (take 16 t);
  carry o.

(** [a] runs from 253 down to 0. *)
Definition invert (i : fe) : option fe :=
  for_in (rev (seq 0 254)) (fun a c =>
    c ← multmod c c;
    if negb (a =? 2)%nat && negb (a =? 4)%nat then multmod c i else Some c) i.

(** [m\[i\] = t\[i\] - 0xffff - ((m\[i - 1\] >> 16) & 1)], and the word before is cut. *)
Definition pack_step (t : fe) (i : nat) (m : fe) : option fe :=
  v ← int64 (limb t i - 0xffff - Z.land (Z.shiftr (limb m (i - 1)) 16) 1);
  let m := <[i := v]> m in
  Some (<[(i - 1)%nat := Z.land (limb m (i - 1)) 0xffff]> m).

(** [t] less 2^255 - 19, when that is not negative. *)
Definition pack_subtract (tm : fe * fe) : option (fe * fe) :=
  let '(t, m) := tm in
  v ← int64 (limb t 0 - 0xffed);
  m ← for_in (seq 1 14) (pack_step t) (<[0%nat := v]> m);
  v ← int64 (limb t 15 - 0x7fff - Z.land (Z.shiftr (limb m 14) 16) 1);
  let m := <[15%nat := v]> m in
  let b := Z.land (Z.shiftr (limb m 15) 16) 1 in
  let m := <[14%nat := Z.land (limb m 14) 0xffff]> m in
  Some (cswap t m (1 - b)).

Definition pack_bytes (t : fe) : list byte :=
  concat (map (fun i => [z2b (Z.land (limb t i) 0xff); z2b (Z.shiftr (limb t i) 8)]) (seq 0 16)).

(** [uninit] is what the array [m] holds before it is written. *)
Definition pack (uninit : nat -> Z) (n : fe) : option (list byte) :=
  t ← carry n;
  t ← carry t;
  t ← carry t;
  tm ← for_in (seq 0 2) (fun _ => pack_subtract) (t, map uninit (seq 0 16));
  Some (pack_bytes (fst tm)).

(** ** X25519 *)

Definition clamp_key (z : list byte) : list byte :=
  let z := <[31%nat := z2b (Z.lor (Z.land (b2z (byte_at z 31)) 127) 64)]> z in
  <[0%nat := z2b (Z.land (b2z (byte_at z 0)) 248)]> z.

(** The body of the loop, on [a], [b], [c] and [d]. *)
Definition public_step (z : list byte) (i : nat) (st : fe * fe * fe * fe) : option (fe * fe * fe * fe) :=
  let '(a, b, c, d) := st in
  let r := Z.land (Z.shiftr (b2z (byte_at z (i / 8))) (Z.of_nat (i mod 8))) 1 in
  let '(a, b) := cswap a b r in
  let '(c, d) := cswap c d r in
  e ← add a c;
  a ← subtract a c;
  c ← add b d;
  b ← subtract b d;
  d ← multmod e e;
  f ← multmod a a;
  a ← multmod c a;
  c ← multmod b e;
  e ← add a c;
  a ← subtract a c;
  b ← multmod a a;
  c ← subtract d f;
  a ← multmod c (fe_of [0xdb41; 1]);
  a ← add a d;
  c ← multmod c a;
  a ← multmod d f;
  d ← multmod b (fe_of [9]);
  b ← multmod e e;
  let '(a, b) := cswap a b r in
  let '(c, d) := cswap c d r in
  Some (a, b, c, d).

Definition wg_generate_public_key (uninit : nat -> Z) (private_key : list byte) : option (list byte) :=
  let z := clamp_key private_key in
  st ← for_in (rev (seq 0 255)) (public_step z) (fe_of [1], fe_of [9], fe_of [0], fe_of [1]);
  let '(a, _, c, _) := st in
  c ← invert c;
  a ← multmod a c;
  pack uninit a.

(** ** Random keys *)

(** What a failed [assert] ends the process with. *)
Definition SIGABRT_status : Z := 134.

(** The loop over [read], which must not fail. *)
Fixpoint preshared_loop (fuel : nat) (rd : nat -> nat -> list byte) (k : nat) (out : list byte) : outcome (list byte) :=
  match fuel with
  | O => OutOfFuel
  | S fuel' =>
      if (length out <? 32)%nat then
        let s := rd k (32 - length out)%nat in
        if (length s =? 0)%nat then Exits SIGABRT_status else preshared_loop fuel' rd (S k) (out ++ s)
      else Returns out
  end.

Definition wg_generate_preshared_key `{Random} : outcome (list byte) :=
  match getentropy 32 with
  | Some s => Returns s
  | None =>
      if (length (getrandom 32) =? 32)%nat then Returns (getrandom 32)
      else
        match urandom with
        | None => Exits SIGABRT_status
        | Some rd => preshared_loop 33 rd 0 []
        end
  end.

Definition wg_generate_private_key `{Random} : outcome (list byte) :=
  obind wg_generate_preshared_key (fun key => Returns (clamp_key key)).

(** ** Base64

    [encode_base64] and [decode_base64] are those of encoding.c, character for character. *)

(** The NUL is not part of the result. *)
Definition wg_key_to_base64 (key : list byte) : list byte :=
  let block i := encode_base64 (byte_at key (i * 3)) (byte_at key (i * 3 + 1)) (byte_at key (i * 3 + 2)) in
  let base64 := concat (map block (seq 0 10)) ++ encode_base64 (byte_at key 30) (byte_at key 31) x00 in
  <[43%nat := "="%byte]> base64.

(** The three bytes of a block, stored at [key + i]. *)
Definition put_block (val : Z) (i : nat) (key : list byte) : list byte :=
  let key := <[i := z2b (Z.land (Z.shiftr val 16) 0xff)]> key in
  let key := <[(i + 1)%nat := z2b (Z.land (Z.shiftr val 8) 0xff)]> key in
  <[(i + 2)%nat := z2b (Z.land val 0xff)]> key.

(** The key, which is written also when the text is refused for its characters, and the
    negative error. *)
Definition wg_key_from_base64 `{Platform} (key base64 : list byte) : list byte * Z :=
  if negb (length base64 =? 44)%nat || negb (Byte.eqb (byte_at base64 43) "="%byte) then (key, - EINVAL)
  else
    let step '(key, ret) i :=
      let val := decode_base64 (byte_at base64 (i * 4)) (byte_at base64 (i * 4 + 1))
                   (byte_at base64 (i * 4 + 2)) (byte_at base64 (i * 4 + 3)) in
      (put_block val (i * 3) key, u8 (Z.lor ret (Z.shiftr (u32 val) 31))) in
    let '(key, ret) := fold_left step (seq 0 10) (key, 0) in
    let val := decode_base64 (byte_at base64 40) (byte_at base64 41) (byte_at base64 42) "A"%byte in
    let ret := u8 (Z.lor ret (Z.lor (Z.shiftr (u32 val) 31) (Z.land val 0xff))) in
    let key := <[30%nat := z2b (Z.land (Z.shiftr val 16) 0xff)]> key in
    let key := <[31%nat := z2b (Z.land (Z.shiftr val 8) 0xff)]> key in
    (key, - Z.land EINVAL (Z.lnot (Z.shiftr (ret - 1) 8))).

Definition wg_key_is_zero (key : list byte) : bool :=
  let acc := fold_left (fun acc i => u8 (Z.lor acc (b2z (byte_at key i)))) (seq 0 32) 0 in
  negb (Z.land 1 (Z.shiftr (acc - 1) 8) =? 0).
