(* ===== verification/WgCurveOk.v ===== *)
(** * The keys of the embeddable library are those of the tools

    A field element stands for [val], the number with its words as digits of 16 bits.  A carry
    leaves the digits of that number with the part above 2^256 folded into the first word
    ([carried]), so that what a product computes depends on the numbers only.  Shown: no
    [int64_t] overflows, and [wg_generate_public_key] computes X25519 of RFC 7748. *)

From Stdlib Require Import Setoid Morphisms Zpow_facts.
From S2P Require Import Netlink Prelude CString Encoding Curve25519 Rfc7748 Keys WgCurve.
#[local] Open Scope Z_scope.
#[local] Opaque Z.pow Z.mul Z.add Z.sub.

(** ** Words and digits *)

Fixpoint val (l : list Z) : Z :=
  match l with
  | [] => 0
  | x :: l' => x + 2 ^ 16 * val l'
  end.

(** The [n] low digits of a number. *)
Fixpoint digits (n : nat) (v : Z) : list Z :=
  match n with
  | O => []
  | S n' => v mod 2 ^ 16 :: digits n' (v / 2 ^ 16)
  end.

Definition weight (n : nat) : Z := 2 ^ (16 * Z.of_nat n).

Definition within (b : Z) (l : list Z) : Prop := Forall (fun x => - b <= x <= b) l.

Lemma weight_S (n : nat) : weight (S n) = 2 ^ 16 * weight n.
Proof. unfold weight. rewrite <- Z.pow_add_r by lia. f_equal. lia. Qed.

Lemma weight_pos (n : nat) : 0 < weight n.
Proof. apply Z.pow_pos_nonneg; lia. Qed.

Lemma digits_length (n : nat) (v : Z) : length (digits n v) = n.
Proof. revert v. induction n as [|n IH]; intros v; cbn; [done |]. by rewrite IH. Qed.

Lemma digits_range (n : nat) (v : Z) : Forall (fun x => 0 <= x < 2 ^ 16) (digits n v).
Proof. revert v. induction n as [|n IH]; intros v; constructor; [by apply Z.mod_pos_bound | apply IH]. Qed.

Lemma val_digits (n : nat) (v : Z) : val (digits n v) = v mod weight n.
Proof.
  revert v. induction n as [|n IH]; intros v; cbn [val digits].
  - change (weight 0) with 1. by rewrite Z.mod_1_r.
  - rewrite IH, weight_S. pose proof (weight_pos n). rewrite Z.rem_mul_r by lia. done.
Qed.

Lemma digits_snoc (n : nat) (v : Z) : digits (S n) v = digits n v ++ [v / weight n mod 2 ^ 16].
Proof.
  revert v. induction n as [|n IH]; intros v.
  - cbn. change (weight 0) with 1. by rewrite Z.div_1_r.
  - change (digits (S (S n)) v) with (v mod 2 ^ 16 :: digits (S n) (v / 2 ^ 16)). rewrite IH. cbn [digits app].
    pose proof (weight_pos n). rewrite weight_S, Z.div_div by lia. done.
Qed.

Lemma val_app (a b : list Z) : val (a ++ b) = val a + weight (length a) * val b.
Proof.
  induction a as [|x a IH]; cbn [app val length].
  - change (weight 0) with 1. lia.
  - rewrite IH, weight_S. ring.
Qed.

(** The digits of a number are the only list of words in range with its value. *)
Lemma digits_val (l : list Z) : Forall (fun x => 0 <= x < 2 ^ 16) l -> digits (length l) (val l) = l.
Proof.
  induction 1 as [|x l Hx _ IH]; cbn [length digits val]; [done |].
  rewrite (Z.mul_comm (2 ^ 16)), Z.mod_add, Z.div_add, Z.mod_small, Z.div_small, Z.add_0_l, IH by lia. done.
Qed.

Lemma val_insert (l : list Z) (i : nat) (v : Z) : (i < length l)%nat ->
  val (<[i := v]> l) = val l + (v - limb l i) * weight i.
Proof.
  unfold limb. revert i. induction l as [|x l IH]; intros i Hi; cbn [length] in Hi; [lia |]. destruct i as [|i].
  - change (<[0%nat := v]> (x :: l)) with (v :: l). cbn [val nth]. change (weight 0) with 1. ring.
  - change (<[S i := v]> (x :: l)) with (x :: <[i := v]> l). cbn [val nth]. rewrite IH, weight_S by lia. ring.
Qed.

Lemma within_weaken (b c : Z) (l : list Z) : b <= c -> within b l -> within c l.
Proof. intros Hb Hl. eapply Forall_impl; [exact Hl |]. intros x Hx. cbn beta in *. lia. Qed.

Lemma within_limb (b : Z) (l : list Z) (i : nat) : within b l -> 0 <= b -> - b <= limb l i <= b.
Proof.
  intros Hl Hb. unfold limb. destruct (Nat.lt_ge_cases i (length l)) as [Hi | Hi].
  - unfold within in Hl. rewrite List.Forall_forall in Hl. apply Hl. by apply nth_In.
  - rewrite nth_overflow by done. lia.
Qed.

Lemma within_insert (b : Z) (l : list Z) (i : nat) (v : Z) : within b l -> - b <= v <= b -> within b (<[i := v]> l).
Proof. intros Hl Hv. by apply Forall_insert. Qed.

Lemma within_val (b : Z) (l : list Z) : within b l ->
  - b * (weight (length l) - 1) <= 65535 * val l <= b * (weight (length l) - 1).
Proof.
  induction 1 as [|x l Hx _ IH]; cbn [val length].
  - change (weight 0) with 1. lia.
  - rewrite weight_S. change (2 ^ 16) with 65536. lia.
Qed.

Lemma int64_small (z : Z) : - 2 ^ 62 <= z <= 2 ^ 62 -> int64 z = Some z.
Proof. intros Hz. unfold int64. rewrite (proj2 (Z.leb_le _ _)), (proj2 (Z.ltb_lt _ _)) by lia. done. Qed.

Lemma limb_app_mid (a b : list Z) (x : Z) : limb (a ++ x :: b) (length a) = x.
Proof. unfold limb. by rewrite nth_middle. Qed.

(** ** Carries *)

(** The digits of a number below 2^256, what is above it multiplied by 38. *)
Definition carried (v : Z) : fe :=
  match digits 16 v with
  | [] => []
  | d :: l => d + 38 * (v / 2 ^ 256) :: l
  end.

Definition reduce (v : Z) : Z := v mod 2 ^ 256 + 38 * (v / 2 ^ 256).

Lemma val_carried (v : Z) : val (carried v) = reduce v.
Proof.
  unfold carried, reduce. pose proof (val_digits 16 v) as H. change (weight 16) with (2 ^ 256) in H.
  destruct (digits 16 v) as [|d l] eqn:E; [by apply (f_equal length) in E; rewrite digits_length in E |].
  cbn [val] in *. lia.
Qed.

Lemma carried_length (v : Z) : length (carried v) = 16%nat.
Proof.
  unfold carried. pose proof (digits_length 16 v) as H. by destruct (digits 16 v).
Qed.

Lemma reduce_eqp (v : Z) : reduce v ≡p v.
Proof.
  unfold reduce. apply (eqp_multiple _ _ (-2 * (v / 2 ^ 256))). unfold p25519.
  pose proof (Z.div_mod v (2 ^ 256) ltac:(done)). lia.
Qed.

Lemma carried_small (v : Z) : 0 <= v < 2 ^ 256 -> carried v = digits 16 v.
Proof.
  intros Hv. unfold carried. destruct (digits 16 v) as [|d l]; [done |]. rewrite Z.div_small by done. f_equal. lia.
Qed.

Lemma carried_within (b v : Z) : 0 <= b -> - b * 2 ^ 256 <= v < (b + 1) * 2 ^ 256 -> within (2 ^ 16 + 38 * b) (carried v).
Proof.
  intros Hb Hv. unfold carried. pose proof (digits_range 16 v) as H.
  assert (- b <= v / 2 ^ 256 <= b) as Hc.
  { split; [apply Z.div_le_lower_bound; lia | apply Zlt_succ_le, Z.div_lt_upper_bound; lia]. }
  destruct (digits 16 v) as [|d l]; [constructor |]. inversion H as [| ? ? Hd Hl]; subst. constructor; [lia |].
  eapply Forall_impl; [exact Hl |]. intros x Hx. cbn beta in *. lia.
Qed.

(** One turn below the last word: its carry goes to the next one. *)
Lemma carry_step_inner (pre rest : list Z) (x y : Z) : (length pre < 15)%nat ->
  - 2 ^ 61 <= x <= 2 ^ 61 -> - 2 ^ 61 <= y <= 2 ^ 61 ->
  carry_step (length pre) (pre ++ x :: y :: rest) = Some (pre ++ x mod 2 ^ 16 :: y + x / 2 ^ 16 :: rest).
Proof.
  intros Hl Hx Hy. unfold carry_step. rewrite (proj2 (Nat.eqb_neq _ _)), Z.mul_1_l by lia.
  rewrite limb_app_mid, Z.shiftr_div_pow2, int64_small by zlia. cbn [mbind option_bind].
  rewrite Nat.mod_small by lia. assert (limb (pre ++ x :: y :: rest) (length pre + 1) = y) as ->.
  { change (x :: y :: rest) with ([x] ++ y :: rest). rewrite app_assoc.
    replace (length pre + 1)%nat with (length (pre ++ [x])) by (rewrite length_app; cbn; lia). apply limb_app_mid. }
  rewrite int64_small by zlia. cbn [mbind option_bind].
  rewrite insert_app_r_alt by lia. replace (length pre + 1 - length pre)%nat with 1%nat by lia.
  change (<[1%nat := y + x / 2 ^ 16]> (x :: y :: rest)) with (x :: y + x / 2 ^ 16 :: rest).
  rewrite limb_app_mid, insert_app_r_alt by lia. replace (length pre - length pre)%nat with O by lia.
  change 0xffff with (2 ^ 16 - 1). by rewrite land_mask.
Qed.

Lemma carry_steps (rest pre : list Z) (x : Z) :
  (length pre + length rest = 15)%nat -> - 2 ^ 61 <= x <= 2 ^ 61 -> within (2 ^ 60) rest ->
  for_in (seq (length pre) (length rest)) carry_step (pre ++ x :: rest)
  = Some (pre ++ digits (length rest) (val (x :: rest)) ++ [val (x :: rest) / weight (length rest)]).
Proof.
  revert pre x. induction rest as [|y rest IH]; intros pre x Hl Hx Hr; cbn [length seq for_in].
  - cbn [val digits app]. change (weight 0) with 1. rewrite Z.div_1_r, Z.mul_0_r, Z.add_0_r. done.
  - cbn [length] in Hl. inversion Hr as [| ? ? Hy Hr']; subst.
    rewrite carry_step_inner by lia. cbn [mbind option_bind].
    replace (S (length pre)) with (length (pre ++ [x mod 2 ^ 16])) by (rewrite length_app; cbn; lia).
    change (x mod 2 ^ 16 :: y + x / 2 ^ 16 :: rest) with ([x mod 2 ^ 16] ++ y + x / 2 ^ 16 :: rest).
    rewrite app_assoc, IH; [| rewrite length_app; cbn; lia | zlia | done].
    assert (val (x :: y :: rest) mod 2 ^ 16 = x mod 2 ^ 16) as E1.
    { cbn [val]. by rewrite Z.mul_comm, Z.mod_add by lia. }
    assert (val (x :: y :: rest) / 2 ^ 16 = val (y + x / 2 ^ 16 :: rest)) as E2.
    { cbn [val]. rewrite Z.mul_comm, Z.div_add by lia. lia. }
    cbn [digits]. rewrite E1, E2, weight_S, <- Z.div_div, E2, <- app_assoc by (pose proof (weight_pos (length rest)); lia). done.
Qed.

(** The last turn folds the carry of the top word into the first. *)
Lemma carry_step_last (l : list Z) (d q : Z) : length l = 14%nat -> 0 <= d < 2 ^ 16 -> - 2 ^ 61 <= q <= 2 ^ 61 ->
  carry_step 15 (d :: l ++ [q]) = Some (d + 38 * (q / 2 ^ 16) :: l ++ [q mod 2 ^ 16]).
Proof.
  intros Hl Hd Hq. unfold carry_step. change (15 =? 15)%nat with true. change ((15 + 1) mod 16)%nat with O. cbv iota.
  assert (forall x, limb (x :: l ++ [q]) 15 = q) as E.
  { intros x. change (x :: l ++ [q]) with ((x :: l) ++ [q]). replace 15%nat with (length (x :: l)) by (cbn; lia). apply limb_app_mid. }
  rewrite E, Z.shiftr_div_pow2, int64_small by zlia. cbn [mbind option_bind].
  change (limb (d :: l ++ [q]) 0) with d. rewrite int64_small by zlia. cbn [mbind option_bind].
  set (d' := d + _). change (<[0%nat := d']> (d :: l ++ [q])) with (d' :: l ++ [q]). rewrite E.
  set (r := Z.land q 65535). change (<[15%nat := r]> (d' :: l ++ [q])) with (d' :: <[14%nat := r]> (l ++ [q])).
  rewrite insert_app_r_alt by lia. replace (14 - length l)%nat with O by lia.
  change (<[0%nat := r]> [q]) with [r]. subst r. change 65535 with (2 ^ 16 - 1). by rewrite land_mask.
Qed.

Lemma for_in_snoc {A} (l : list nat) (i : nat) (f : nat -> A -> option A) (a : A) :
  for_in (l ++ [i]) f a = for_in l f a ≫= f i.
Proof.
  revert a. induction l as [|j l IH]; intros a; cbn [app for_in mbind option_bind].
  - by destruct (f i a).
  - destruct (f j a) as [a' |]; [apply IH | done].
Qed.

Lemma carry_ok (o : fe) : length o = 16%nat -> within (2 ^ 60) o -> carry o = Some (carried (val o)).
Proof.
  intros Hl Hw. destruct o as [|x rest]; [done |]. cbn [length] in Hl. injection Hl as Hl.
  inversion Hw as [| ? ? Hx Hr]; subst. unfold carry. change (seq 0 16) with (seq 0 15 ++ [15%nat]).
  rewrite for_in_snoc, <- Hl. pose proof (carry_steps rest [] x) as H. cbn [app length] in H. rewrite H by (done || lia). clear H.
  cbn [mbind option_bind]. set (V := val (x :: rest)). rewrite Hl. change (weight 15) with (2 ^ 240).
  assert (- 2 ^ 61 <= V / 2 ^ 240 <= 2 ^ 61) as Hq.
  { pose proof (within_val _ _ Hw) as Hv. fold V in Hv. cbn [length] in Hv. rewrite Hl in Hv.
    change (weight 16) with (2 ^ 256) in Hv. zlia. }
  unfold carried. rewrite (digits_snoc 15). change (weight 15) with (2 ^ 240). pose proof (digits_range 15 V) as Hd.
  pose proof (digits_length 15 V) as Hn. destruct (digits 15 V) as [|d l]; [done |]. cbn [app length] in *.
  inversion Hd; subst. rewrite carry_step_last by (done || lia). rewrite Z.div_div by lia. done.
Qed.

(** ** Sums and products *)

Lemma mapM_int64 (f : Z -> Z -> Z) (x y : list Z) :
  Forall (fun '(u, v) => - 2 ^ 62 <= f u v <= 2 ^ 62) (zip x y) ->
  mapM (fun '(u, v) => int64 (f u v)) (zip x y) = Some (zip_with f x y).
Proof.
  revert y. induction x as [|u x IH]; intros [|v y] H; try done. cbn in H. inversion H; subst.
  cbn. rewrite int64_small by done. cbn. by rewrite IH.
Qed.

(** A field element that stands for [v]: as a product leaves it, or as a sum does. *)
Definition tight (o : fe) (v : Z) : Prop := exists w, - 2 ^ 50 <= w < 2 ^ 256 + 2 ^ 50 /\ o = carried w /\ w ≡p v.
Definition loose (o : fe) (v : Z) : Prop := length o = 16%nat /\ within (2 ^ 18) o /\ val o ≡p v.

Lemma tight_loose (o : fe) (v : Z) : tight o v -> loose o v.
Proof.
  intros (w & Hw & -> & E). split_and!; [apply carried_length | | by rewrite val_carried, reduce_eqp].
  apply (within_weaken (2 ^ 16 + 38 * 1)); [lia |]. apply carried_within; lia.
Qed.

Lemma tight_within (o : fe) (v : Z) : tight o v -> within (2 ^ 17) o.
Proof.
  intros (w & Hw & -> & _). apply (within_weaken (2 ^ 16 + 38 * 1)); [lia |]. apply carried_within; lia.
Qed.

Lemma zip_within (f : Z -> Z -> Z) (b c : Z) (x y : list Z) : within b x -> within b y ->
  (forall u v, - b <= u <= b -> - b <= v <= b -> - c <= f u v <= c) ->
  Forall (fun '(u, v) => - c <= f u v <= c) (zip x y) /\ within c (zip_with f x y).
Proof.
  intros Hx. revert y. induction Hx as [|u x Hu _ IH]; intros y Hy Hf; [by split; constructor |].
  destruct Hy as [|v y Hv Hy]; [by split; constructor |]. destruct (IH y Hy Hf) as [H1 H2].
  split; cbn; constructor; auto.
Qed.

Lemma val_zip_add (x y : list Z) : length x = length y -> val (zip_with Z.add x y) = val x + val y.
Proof. revert y. induction x as [|u x IH]; intros [|v y] H; try done. injection H as H. cbn. rewrite IH by done. ring. Qed.

Lemma val_zip_sub (x y : list Z) : length x = length y -> val (zip_with Z.sub x y) = val x - val y.
Proof. revert y. induction x as [|u x IH]; intros [|v y] H; try done. injection H as H. cbn. rewrite IH by done. ring. Qed.

Lemma add_ok (x y : fe) (v w : Z) : tight x v -> tight y w -> exists o, add x y = Some o /\ loose o (fadd v w).
Proof.
  intros Hx Hy. destruct (tight_loose _ _ Hx) as (Lx & _ & Ex), (tight_loose _ _ Hy) as (Ly & _ & Ey).
  destruct (zip_within Z.add (2 ^ 17) (2 ^ 18) x y) as [H1 H2]; [by eapply tight_within.. | lia |].
  exists (zip_with Z.add x y). split; [| split_and!; [rewrite length_zip_with; lia | done |]].
  - apply mapM_int64. eapply Forall_impl; [exact H1 |]. intros [] H. lia.
  - rewrite val_zip_add, Ex, Ey, fadd_eqp by lia. done.
Qed.

Lemma subtract_ok (x y : fe) (v w : Z) : tight x v -> tight y w -> exists o, subtract x y = Some o /\ loose o (fsub v w).
Proof.
  intros Hx Hy. destruct (tight_loose _ _ Hx) as (Lx & _ & Ex), (tight_loose _ _ Hy) as (Ly & _ & Ey).
  destruct (zip_within Z.sub (2 ^ 17) (2 ^ 18) x y) as [H1 H2]; [by eapply tight_within.. | lia |].
  exists (zip_with Z.sub x y). split; [| split_and!; [rewrite length_zip_with; lia | done |]].
  - apply mapM_int64. eapply Forall_impl; [exact H1 |]. intros [] H. lia.
  - rewrite val_zip_sub, Ex, Ey, fsub_eqp by lia. done.
Qed.

(** A loop each turn of which adds a multiple of a word, in its place. *)
Lemma for_in_sum {A} (step : nat -> A -> option A) (inv : nat -> A -> Prop) (measure : A -> Z) (l : list Z) (c : Z) :
  (forall i a, (i < length l)%nat -> inv i a ->
     exists a', step i a = Some a' /\ inv (S i) a' /\ measure a' = measure a + c * weight i * limb l i) ->
  forall n k a, (k + n = length l)%nat -> inv k a ->
  exists a', for_in (seq k n) step a = Some a' /\ inv (k + n)%nat a' /\ measure a' = measure a + c * weight k * val (drop k l).
Proof.
  intros Hstep n. induction n as [|n IH]; intros k a Hk Ha; cbn [seq for_in].
  - exists a. rewrite drop_ge by lia. cbn [val]. rewrite Nat.add_0_r. split_and!; [done.. | lia].
  - destruct (Hstep k a ltac:(lia) Ha) as (a' & -> & Ha' & E). cbn [mbind option_bind].
    destruct (IH (S k) a' ltac:(lia) Ha') as (a'' & -> & Ha'' & E'). exists a''.
    rewrite <- Nat.add_succ_comm. split_and!; [done.. |]. rewrite E', E, weight_S.
    assert (drop k l = limb l k :: drop (S k) l) as ->; [| cbn [val]; ring].
    unfold limb. rewrite (drop_S l (nth k l 0) k); [done |]. by destruct (nth_lookup_or_length l k 0); [| lia].
Qed.

Lemma mult_step_ok (a b : fe) (i j : nat) (t : list Z) (n : Z) : within (2 ^ 18) a -> within (2 ^ 18) b ->
  (i < 16)%nat -> (j < 16)%nat -> length t = 31%nat -> 0 <= n <= 1024 -> within (n * 2 ^ 36) t ->
  exists t', mult_step a b i j t = Some t' /\ length t' = 31%nat /\ within ((n + 1) * 2 ^ 36) t'
    /\ val t' = val t + limb a i * weight i * weight j * limb b j.
Proof.
  intros Ha Hb Hi Hj Hl Hn Ht. unfold mult_step.
  pose proof (within_limb _ _ i Ha ltac:(lia)). pose proof (within_limb _ _ j Hb ltac:(lia)).
  pose proof (within_limb _ _ (i + j) Ht ltac:(lia)).
  assert (- 2 ^ 36 <= limb a i * limb b j <= 2 ^ 36) by nia.
  rewrite int64_small by lia. cbn [mbind option_bind]. rewrite int64_small by lia. cbn [mbind option_bind].
  eexists. split; [done |]. rewrite length_insert. split_and!; [done | |].
  - apply within_insert; [| lia]. apply (within_weaken (n * 2 ^ 36)); [lia | done].
  - rewrite val_insert by lia. unfold weight. rewrite Nat2Z.inj_add, Z.mul_add_distr_l, Z.pow_add_r by lia. ring.
Qed.

Lemma fold_step_ok (i : nat) (t : list Z) (n : Z) (hi : list Z) : (i < 15)%nat -> length t = 31%nat -> drop 16 t = hi ->
  within (2 ^ 45) hi -> 0 <= n <= 1000 -> within (n * 2 ^ 45) (take 16 t) ->
  exists t', fold_step i t = Some t' /\ length t' = 31%nat /\ drop 16 t' = hi /\ within ((n + 38) * 2 ^ 45) (take 16 t')
    /\ val (take 16 t') = val (take 16 t) + 38 * weight i * limb hi i.
Proof.
  intros Hi Hl Hd Hhi Hn Ht. unfold fold_step.
  assert (limb t (i + 16) = limb hi i) as -> by (unfold limb; rewrite <- Hd, nth_skipn; f_equal; lia).
  assert (limb t i = limb (take 16 t) i) as ->.
  { unfold limb. rewrite <- (take_drop 16 t) at 1. apply app_nth1. rewrite length_take_le; lia. }
  pose proof (within_limb _ _ i Hhi ltac:(lia)). pose proof (within_limb _ _ i Ht ltac:(lia)).
  rewrite int64_small by lia. cbn [mbind option_bind]. rewrite int64_small by lia. cbn [mbind option_bind].
  eexists. split; [done |]. rewrite length_insert, drop_insert_lt, take_insert_lt by lia. split_and!; [done | done | |].
  - apply within_insert; [| lia]. apply (within_weaken (n * 2 ^ 45)); [lia | done].
  - rewrite val_insert by (rewrite length_take_le; lia). ring.
Qed.

(** The two carries at the end of a product. *)
Lemma carry_twice (t : list Z) : length t = 16%nat -> within (2 ^ 55) t ->
  exists o, (o ← carry t; carry o) = Some o /\ tight o (val t).
Proof.
  intros Hl Ht. assert (- 2 ^ 40 * 2 ^ 256 <= val t < (2 ^ 40 + 1) * 2 ^ 256) as Hv.
  { pose proof (within_val _ _ Ht) as H. rewrite Hl in H. change (weight 16) with (2 ^ 256) in H. lia. }
  rewrite carry_ok by (done || by apply (within_weaken (2 ^ 55))). cbn [mbind option_bind].
  pose proof (carried_within (2 ^ 40) (val t) ltac:(lia) Hv) as Hc.
  rewrite carry_ok; [| apply carried_length | by apply (within_weaken (2 ^ 16 + 38 * 2 ^ 40))].
  eexists. split; [done |]. exists (val (carried (val t))). rewrite val_carried. split; [| split; [done | apply reduce_eqp]].
  unfold reduce. zlia.
Qed.

(** The columns of the product. *)
Lemma products_ok (x y : fe) : length x = 16%nat -> length y = 16%nat -> within (2 ^ 18) x -> within (2 ^ 18) y ->
  exists t, for_in (seq 0 16) (fun i => for_in (seq 0 16) (mult_step x y i)) (repeat 0 31) = Some t
    /\ length t = 31%nat /\ within (2 ^ 44) t /\ val t = val x * val y.
Proof.
  intros Lx Ly Wx Wy.
  destruct (for_in_sum (fun i => for_in (seq 0 16) (mult_step x y i))
    (fun i t => length t = 31%nat /\ within (16 * Z.of_nat i * 2 ^ 36) t) val x (val y)) with (n := 16%nat) (k := O) (a := repeat 0 31)
    as (t & -> & [Lt Wt] & Et).
  - intros i t Hi [Hl Ht].
    destruct (for_in_sum (mult_step x y i)
      (fun j t => length t = 31%nat /\ within ((16 * Z.of_nat i + Z.of_nat j) * 2 ^ 36) t) val y (limb x i * weight i))
      with (n := 16%nat) (k := O) (a := t) as (t' & -> & [Lt Wt] & Et).
    + intros j t' Hj [Hl' Ht']. destruct (mult_step_ok x y i j t' (16 * Z.of_nat i + Z.of_nat j)) as (t'' & -> & Hl'' & Ht'' & E); try done; try lia.
      exists t''. split_and!; [done | done | | done]. eapply within_weaken; [| exact Ht'']. lia.
    + lia.
    + split; [done |]. eapply within_weaken; [| exact Ht]. lia.
    + exists t'. rewrite drop_0 in Et. split_and!; [done | done | eapply within_weaken; [| exact Wt]; lia |].
      rewrite Et. change (weight 0) with 1. ring.
  - lia.
  - split; [done |]. apply List.Forall_forall. intros z ->%repeat_spec. lia.
  - exists t. rewrite drop_0 in Et. split_and!; [done | done | eapply within_weaken; [| exact Wt]; lia |].
    rewrite Et. change (weight 0) with 1. change (val (repeat 0 31)) with 0. ring.
Qed.

Lemma multmod_ok (x y : fe) (v w : Z) : loose x v -> loose y w -> exists o, multmod x y = Some o /\ tight o (fprod v w).
Proof.
  intros (Lx & Wx & Ex) (Ly & Wy & Ey). unfold multmod.
  destruct (products_ok x y Lx Ly Wx Wy) as (t & -> & Lt & Wt & Et). cbn [mbind option_bind].
  assert (within (2 ^ 45) (drop 16 t)) as Whi by (apply Forall_drop; by apply (within_weaken (2 ^ 44))).
  destruct (for_in_sum fold_step
    (fun i u => length u = 31%nat /\ drop 16 u = drop 16 t /\ within ((1 + 38 * Z.of_nat i) * 2 ^ 45) (take 16 u))
    (fun u => val (take 16 u)) (drop 16 t) 38) with (n := 15%nat) (k := O) (a := t) as (u & -> & (Lu & _ & Wu) & Eu).
  - intros i u Hi (Hl & Hd & Hw). rewrite length_drop in Hi.
    destruct (fold_step_ok i u (1 + 38 * Z.of_nat i) (drop 16 t)) as (u' & -> & Hl' & Hd' & Hw' & E); try done; try lia.
    exists u'. split_and!; [done.. | | done]. eapply within_weaken; [| exact Hw']. lia.
  - rewrite length_drop. lia.
  - split_and!; [done | done |]. apply Forall_take. eapply within_weaken; [| exact Wt]. lia.
  - cbn [mbind option_bind]. destruct (carry_twice (take 16 u)) as (o & Eo & w' & Hw' & -> & Ho).
    + rewrite length_take_le; lia.
    + eapply within_weaken; [| exact Wu]. lia.
    + eexists. split; [exact Eo |]. exists w'. split; [done |]. split; [done |]. rewrite Ho, Eu, fprod_eqp, <- Ex, <- Ey, <- Et.
      rewrite <- (take_drop 16 t) at 3. rewrite val_app, length_take_le by lia. change (weight 16) with (2 ^ 256).
      change (weight 0) with 1. rewrite drop_0. apply (eqp_multiple _ _ (-2 * val (drop 16 t))). unfold p25519. ring_simplify. lia.
Qed.

(** ** Inversion *)

Lemma tight_eqp (o : fe) (v w : Z) : v ≡p w -> tight o v -> tight o w.
Proof. intros E (u & Hu & Ho & Eu). exists u. split; [done |]. split; [done |]. by rewrite Eu. Qed.

(** The exponent that the turns of [invert] build up. *)
Definition exponent (idx : list nat) (e : Z) : Z :=
  fold_left (fun e a => 2 * e + (if negb (a =? 2)%nat && negb (a =? 4)%nat then 1 else 0)) idx e.

Lemma invert_loop (i : fe) (z : Z) (idx : list nat) (c : fe) (e : Z) : tight i z -> 0 <= e -> tight c (z ^ e) ->
  exists o, for_in idx (fun a c => c ← multmod c c; if negb (a =? 2)%nat && negb (a =? 4)%nat then multmod c i else Some c) c = Some o
    /\ tight o (z ^ exponent idx e).
Proof.
  intros Hi. revert c e. induction idx as [|a idx IH]; intros c e He Hc; cbn [for_in exponent fold_left]; [by exists c |].
  pose proof (tight_loose _ _ Hc) as Lc. destruct (multmod_ok c c _ _ Lc Lc) as (c2 & -> & Hc2). cbn [mbind option_bind].
  assert (tight c2 (z ^ (2 * e))) as Hsq.
  { eapply tight_eqp; [| exact Hc2]. rewrite fprod_eqp, <- Z.pow_add_r by done. by replace (e + e) with (2 * e) by lia. }
  destruct (negb (a =? 2)%nat && negb (a =? 4)%nat).
  - destruct (multmod_ok c2 i _ _ (tight_loose _ _ Hsq) (tight_loose _ _ Hi)) as (c3 & -> & Hc3). cbn [mbind option_bind].
    apply IH; [lia |]. eapply tight_eqp; [| exact Hc3]. rewrite fprod_eqp, Z.pow_add_r, Z.pow_1_r by lia. done.
  - cbn [mbind option_bind]. apply IH; [lia |]. by rewrite Z.add_0_r.
Qed.

Lemma invert_ok (i : fe) (z : Z) : tight i z -> exists o, invert i = Some o /\ tight o (finv z).
Proof.
  intros Hi. destruct (invert_loop i z (rev (seq 0 254)) i 1 Hi) as (o & E & Ho); [lia | by rewrite Z.pow_1_r |].
  exists o. split; [exact E |]. eapply tight_eqp; [| exact Ho]. rewrite finv_eqp.
  assert (exponent (rev (seq 0 254)) 1 = p25519 - 2) as -> by by vm_compute. done.
Qed.

(** ** The ladder *)

Lemma cswap_ok (x y : fe) (b : bool) : length x = length y -> cswap x y (Z.b2z b) = Rfc7748.cswap b (x, y).
Proof.
  intros Hl. unfold cswap, Rfc7748.cswap. cbn [fst snd]. destruct b; cbn [Z.b2z].
  - change (Z.lnot (1 - 1)) with (-1). f_equal; revert y Hl; induction x as [|u x IH]; intros [|v y] Hl; try done;
      injection Hl as Hl; cbn [zip_with]; (f_equal; [| by apply IH]); rewrite Z.land_m1_l.
    + by rewrite <- Z.lxor_assoc, Z.lxor_nilpotent, Z.lxor_0_l.
    + by rewrite Z.lxor_comm, Z.lxor_assoc, Z.lxor_nilpotent, Z.lxor_0_r.
  - change (Z.lnot (0 - 1)) with 0. f_equal; revert y Hl; induction x as [|u x IH]; intros [|v y] Hl; try done;
      injection Hl as Hl; cbn [zip_with]; (f_equal; [| by apply IH]); by rewrite Z.land_0_l, Z.lxor_0_r.
Qed.

(** The words of the loop stand for the coordinates of the two points. *)
Definition ladder_repr (st : fe * fe * fe * fe) (v : ladder_state) : Prop :=
  let '(a, b, c, d) := st in
  let '((x2, z2), (x3, z3)) := v in
  tight a x2 /\ tight b x3 /\ tight c z2 /\ tight d z3.

Lemma tight_length (o : fe) (v : Z) : tight o v -> length o = 16%nat.
Proof. intros (w & _ & -> & _). apply carried_length. Qed.

(** Both swaps of a turn. *)
Lemma cswap_repr (a b c d : fe) (v : ladder_state) (bit : bool) : ladder_repr (a, b, c, d) v ->
  exists a' b' c' d', cswap a b (Z.b2z bit) = (a', b') /\ cswap c d (Z.b2z bit) = (c', d')
    /\ ladder_repr (a', b', c', d') (Rfc7748.cswap bit v).
Proof.
  destruct v as [[x2 z2] [x3 z3]]. cbn [ladder_repr]. intros (Ha & Hb & Hc & Hd).
  rewrite !cswap_ok by (erewrite !tight_length; done). destruct bit; cbn [Rfc7748.cswap fst snd].
  - by exists b, a, d, c.
  - by exists a, b, c, d.
Qed.

Lemma loose_const (l : list Z) (v : Z) : forallb (fun x => (0 <=? x) && (x <=? 2 ^ 16)) (fe_of l) = true -> (length l <=? 16)%nat = true ->
  val (fe_of l) = v -> loose (fe_of l) v.
Proof.
  intros Hf Hl Hv. split_and!; [| | by rewrite Hv].
  - unfold fe_of. rewrite length_app, repeat_length. apply Nat.leb_le in Hl. lia.
  - rewrite forallb_forall in Hf. apply List.Forall_forall. intros x Hx%Hf. boolz. lia.
Qed.

(** Runs the operation of the field that comes first. *)
Ltac field_op :=
  let o := fresh "o" in let H := fresh "H" in
  lazymatch goal with
  | |- exists _, mbind _ ?m = _ /\ _ =>
      lazymatch m with
      | multmod ?x ?y => edestruct (multmod_ok x y) as (o & -> & H); [first [eassumption | eapply tight_loose; eassumption].. |]
      | add ?x ?y => edestruct (add_ok x y) as (o & -> & H); [eassumption.. |]
      | subtract ?x ?y => edestruct (subtract_ok x y) as (o & -> & H); [eassumption.. |]
      end; cbn [mbind option_bind]
  end.

Lemma public_step_ok (z : list byte) (i : nat) (st : fe * fe * fe * fe) (v : ladder_state) : ladder_repr st v ->
  exists st', public_step z i st = Some st'
    /\ ladder_repr st' (ladder_bit 9 v (Z.testbit (le_bytes z) (Z.of_nat i))).
Proof.
  destruct st as [[[a b] c] d]. intros Hv. unfold public_step, ladder_bit.
  assert (Z.land (Z.shiftr (b2z (byte_at z (i / 8))) (Z.of_nat (i mod 8))) 1
          = Z.b2z (Z.testbit (le_bytes z) (Z.of_nat i))) as ->.
  { rewrite (Nat.div_mod i 8) at 3 by lia. rewrite testbit_le_bytes by (apply Nat.mod_upper_bound; lia).
    rewrite Z.testbit_spec' by lia. change 1 with (2 ^ 1 - 1). rewrite land_mask, Z.shiftr_div_pow2 by lia. done. }
  set (bit := Z.testbit _ _). clearbody bit.
  destruct (cswap_repr a b c d v bit Hv) as (a1 & b1 & c1 & d1 & -> & -> & H1). clear a b c d Hv.
  destruct (Rfc7748.cswap bit v) as [[x2 z2] [x3 z3]]. cbn [ladder_repr] in H1. destruct H1 as (Ha & Hb & Hc & Hd).
  assert (loose (fe_of [0xdb41; 1]) 121665) as Hk1 by by apply loose_const; vm_compute.
  assert (loose (fe_of [9]) 9) as Hk2 by by apply loose_const; vm_compute.
  repeat field_op.
  destruct (cswap_repr o14 o16 o13 o15 (ladder_step 9 ((x2, z2), (x3, z3))) bit) as (a' & b' & c' & d' & -> & -> & Hr).
  - cbn [ladder_repr ladder_step]. unfold fsq. split; [done |]. split; [by rewrite (fadd_comm (fprod _ (fadd x2 z2))) |].
    split; [by rewrite (fadd_comm _ (fprod 121665 _)), (fprod_comm 121665) |].
    change (fprod ?x ?x) with (fsq x). rewrite fsq_swap, (fprod_comm 9). done.
  - by exists (a', b', c', d').
Qed.

Lemma public_loop_ok (z : list byte) (n : nat) (st : fe * fe * fe * fe) (v : ladder_state) : ladder_repr st v ->
  exists st', for_in (rev (seq 0 n)) (public_step z) st = Some st'
    /\ ladder_repr st' (fold_left (ladder_bit 9) (bits_down (le_bytes z) n) v).
Proof.
  revert st v. induction n as [|n IH]; intros st v Hv; [by exists st |].
  rewrite seq_S, rev_app_distr, bits_down_S. cbn [rev app for_in fold_left Nat.add].
  destruct (public_step_ok z n st v Hv) as (st' & -> & Hv'). cbn [mbind option_bind]. by apply IH.
Qed.

(** ** Writing *)

Lemma digits_add (n : nat) (v k : Z) : digits n (v + weight n * k) = digits n v.
Proof.
  revert v k. induction n as [|n IH]; intros v k; cbn [digits]; [done |]. rewrite weight_S.
  replace (v + 2 ^ 16 * weight n * k) with (v + weight n * k * 2 ^ 16) by ring.
  rewrite Z.mod_add, Z.div_add, IH by lia. done.
Qed.

(** The borrow of a word. *)
Lemma borrow_ok (x : Z) : - 2 ^ 16 <= x < 2 ^ 16 -> Z.land (Z.shiftr x 16) 1 = - (x / 2 ^ 16).
Proof.
  intros Hx. rewrite Z.shiftr_div_pow2 by lia. assert (x / 2 ^ 16 = -1 \/ x / 2 ^ 16 = 0) as [-> | ->] by zlia; done.
Qed.

Lemma digit_limb (t : list Z) (i : nat) : Forall (fun y => 0 <= y < 2 ^ 16) t -> 0 <= limb t i < 2 ^ 16.
Proof.
  intros Ht. unfold limb. destruct (Nat.lt_ge_cases i (length t)); [| rewrite nth_overflow by done; lia].
  rewrite List.Forall_forall in Ht. apply Ht. by apply nth_In.
Qed.

Lemma pack_step_ok (t pre junk : list Z) (x y : Z) : Forall (fun y => 0 <= y < 2 ^ 16) t -> - 2 ^ 16 <= x < 2 ^ 16 ->
  pack_step t (S (length pre)) (pre ++ x :: y :: junk)
  = Some (pre ++ x mod 2 ^ 16 :: limb t (S (length pre)) - 0xffff + x / 2 ^ 16 :: junk).
Proof.
  intros Ht Hx. pose proof (digit_limb t (S (length pre)) Ht). unfold pack_step.
  replace (S (length pre) - 1)%nat with (length pre) by lia. rewrite limb_app_mid, borrow_ok by done.
  rewrite int64_small by zlia. cbn [mbind option_bind]. rewrite insert_app_r_alt by lia.
  replace (S (length pre) - length pre)%nat with 1%nat by lia. set (x' := limb t (S (length pre)) - 65535 - _).
  change (<[1%nat := x']> (x :: y :: junk)) with (x :: x' :: junk).
  rewrite limb_app_mid, insert_app_r_alt by lia. replace (length pre - length pre)%nat with O by lia.
  change (<[0%nat := Z.land x 65535]> (x :: x' :: junk)) with (Z.land x (2 ^ 16 - 1) :: x' :: junk).
  rewrite land_mask by lia. subst x'. by rewrite Z.sub_opp_r.
Qed.

Lemma pack_steps (t junk pre : list Z) (x : Z) (n : nat) : Forall (fun y => 0 <= y < 2 ^ 16) t ->
  (n <= length junk)%nat -> - 2 ^ 16 <= x < 2 ^ 16 ->
  let words := x :: map (fun i => limb t i - 0xffff) (seq (S (length pre)) n) in
  for_in (seq (S (length pre)) n) (pack_step t) (pre ++ x :: junk)
  = Some (pre ++ digits n (val words) ++ val words / weight n :: drop n junk).
Proof.
  intros Ht. revert pre junk x. induction n as [|n IH]; intros pre junk x Hl Hx; cbn [seq map for_in].
  - cbn [val digits app]. change (weight 0) with 1. rewrite Z.div_1_r, Z.mul_0_r, Z.add_0_r. done.
  - destruct junk as [|y junk]; cbn [length] in Hl; [lia |]. rewrite pack_step_ok by done. cbn [mbind option_bind].
    pose proof (digit_limb t (S (length pre)) Ht). set (x' := limb t (S (length pre)) - 65535 + x / 2 ^ 16).
    change (x mod 2 ^ 16 :: x' :: junk) with ([x mod 2 ^ 16] ++ x' :: junk). rewrite app_assoc.
    replace (S (length pre)) with (length (pre ++ [x mod 2 ^ 16])) at 1 by (rewrite length_app; cbn; lia).
    rewrite IH; [| lia | subst x'; zlia].
    replace (length (pre ++ [x mod 2 ^ 16])) with (S (length pre)) by (rewrite length_app; cbn; lia).
    set (ws := map _ (seq (S (S (length pre))) n)). cbn [digits drop]. rewrite weight_S.
    assert (val (x :: limb t (S (length pre)) - 65535 :: ws) mod 2 ^ 16 = x mod 2 ^ 16) as E1.
    { cbn [val]. by rewrite Z.mul_comm, Z.mod_add by lia. }
    assert (val (x :: limb t (S (length pre)) - 65535 :: ws) / 2 ^ 16 = val (x' :: ws)) as E2.
    { cbn [val]. subst x'. rewrite Z.mul_comm, Z.div_add by lia. lia. }
    rewrite <- Z.div_div, E1, E2, <- app_assoc by (pose proof (weight_pos n); lia). done.
Qed.

(** The words of the difference with 2^255 - 19, the last apart. *)
Definition low_words (t : fe) : list Z := limb t 0 - 0xffed :: map (fun i => limb t i - 0xffff) (seq 1 14).

Lemma low_words_val (w : Z) : 0 <= w < 2 ^ 256 ->
  let t := digits 16 w in
  limb t 15 = w / 2 ^ 240 /\ val (low_words t) = w - p25519 - 2 ^ 240 * (w / 2 ^ 240 - 0x7fff).
Proof.
  intros Hw t. assert (limb t 15 = w / 2 ^ 240) as E15.
  { subst t. rewrite (digits_snoc 15). change (weight 15) with (2 ^ 240).
    rewrite <- (digits_length 15 w) at 2. rewrite limb_app_mid. zlia. }
  split; [done |]. rewrite <- E15. assert (val t = w) as Ev by (subst t; rewrite val_digits, Z.mod_small; done).
  assert (length t = 16%nat) as Hl by apply digits_length. clearbody t. rewrite <- Ev. clear Ev E15 Hw.
  do 16 (destruct t as [|? t]; [done |]). destruct t; [| done].
  unfold low_words, limb. cbn [map seq val nth]. unfold p25519. lia.
Qed.

(** The last word of the difference. *)
Lemma pack_top (t d : fe) (q z v : Z) : length d = 14%nat -> - 2 ^ 16 <= q < 2 ^ 16 -> 0 <= limb t 15 < 2 ^ 16 ->
  v = limb t 15 - 0x7fff + q / 2 ^ 16 ->
  (v ← int64 (limb t 15 - 0x7fff - Z.land (Z.shiftr (limb (d ++ [q; z]) 14) 16) 1);
   let m := <[15%nat := v]> (d ++ [q; z]) in
   let b := Z.land (Z.shiftr (limb m 15) 16) 1 in
   let m := <[14%nat := Z.land (limb m 14) 0xffff]> m in
   Some (cswap t m (1 - b)))
  = Some (cswap t (d ++ [q mod 2 ^ 16; v]) (1 + v / 2 ^ 16)).
Proof.
  intros Hd Hq Ht Hv.
  assert (forall u, limb (d ++ [q; u]) 14 = q) as Eq14 by (intros u; rewrite <- Hd; apply limb_app_mid).
  assert (forall u, limb (d ++ [q; u]) 15 = u) as Eq15.
  { intros u. unfold limb. rewrite app_nth2 by lia. by replace (15 - length d)%nat with 1%nat by lia. }
  rewrite Eq14, borrow_ok, Z.sub_opp_r by done. rewrite <- Hv, int64_small by zlia.
  cbn [mbind option_bind]. cbv zeta. rewrite insert_app_r_alt by lia. replace (15 - length d)%nat with 1%nat by lia.
  change (<[1%nat := v]> [q; z]) with [q; v]. rewrite Eq14, Eq15, insert_app_r_alt by lia.
  replace (14 - length d)%nat with O by lia. set (r := Z.land q 65535). change (<[0%nat := r]> [q; v]) with [r; v].
  subst r. change 65535 with (2 ^ 16 - 1). rewrite land_mask by lia. rewrite borrow_ok by zlia. by rewrite Z.sub_opp_r.
Qed.

(** The words of a difference that is not negative. *)
Lemma difference_digits (L D k : Z) : D = L + 2 ^ 240 * k -> 0 <= D < 2 ^ 256 ->
  digits 14 L ++ [L / weight 14 mod 2 ^ 16; D / 2 ^ 240] = digits 16 D.
Proof.
  intros HD Hr. rewrite (digits_snoc 15). change (weight 15) with (2 ^ 240). rewrite (Z.mod_small (D / 2 ^ 240)) by zlia.
  rewrite HD at 2. change (2 ^ 240) with (weight 15) at 2. rewrite digits_add, (digits_snoc 14), <- app_assoc. done.
Qed.

(** What the words are compared with and swapped for. *)
Lemma pack_subtract_words (t m : fe) (L w : Z) : length m = 16%nat -> Forall (fun y => 0 <= y < 2 ^ 16) t ->
  0 <= w < 2 ^ 256 -> limb t 15 = w / 2 ^ 240 -> L = val (low_words t) -> L = w - p25519 - 2 ^ 240 * (w / 2 ^ 240 - 0x7fff) ->
  pack_subtract (t, m)
  = Some (cswap t (digits 14 L ++ [L / weight 14 mod 2 ^ 16; (w - p25519) / 2 ^ 240]) (Z.b2z (negb (w <? p25519)))).
Proof.
  intros Hm Ht Hw E15 HL EL. unfold pack_subtract. pose proof (digit_limb t 0 Ht).
  rewrite int64_small by lia. cbn [mbind option_bind]. destruct m as [|y junk]; [done |]. cbn [length] in Hm.
  pose proof (pack_steps t junk [] (limb t 0 - 65517) 14 Ht ltac:(lia) ltac:(lia)) as Hs. cbn [app length] in Hs.
  fold (low_words t) in Hs. rewrite <- HL in Hs. clear HL.
  change (<[0%nat := limb t 0 - 65517]> (y :: junk)) with (limb t 0 - 65517 :: junk). rewrite Hs. clear Hs.
  cbn [mbind option_bind]. assert (exists z, drop 14 junk = [z]) as [z ->].
  { pose proof (length_drop junk 14) as Hl. destruct (drop 14 junk) as [|z [|]]; cbn in Hl; [lia | by exists z | lia]. }
  assert (- 2 ^ 16 <= L / weight 14 < 2 ^ 16) as Hq by (change (weight 14) with (2 ^ 224); unfold p25519 in EL; zlia).
  rewrite (pack_top _ _ _ _ ((w - p25519) / 2 ^ 240)); [| apply digits_length | done | by apply digit_limb |].
  - do 2 f_equal. destruct (Z.ltb_spec w p25519); unfold p25519 in *; cbn [negb Z.b2z]; zlia.
  - rewrite E15. change (weight 14) with (2 ^ 224). unfold p25519 in *. zlia.
Qed.

(** A conditional subtraction of 2^255 - 19. *)
Lemma pack_subtract_ok (w : Z) (m : fe) : 0 <= w < 2 ^ 256 -> length m = 16%nat ->
  exists m', pack_subtract (digits 16 w, m) = Some (digits 16 (if w <? p25519 then w else w - p25519), m') /\ length m' = 16%nat.
Proof.
  intros Hw Hm. destruct (low_words_val w Hw) as [E15 EL].
  rewrite (pack_subtract_words _ m _ w Hm (digits_range 16 w) Hw E15 eq_refl EL).
  set (m1 := digits 14 _ ++ _). assert (length m1 = 16%nat) as Hm1 by (subst m1; rewrite length_app, digits_length; done).
  rewrite cswap_ok by (rewrite digits_length; done).
  destruct (Z.ltb_spec w p25519); cbn [negb Rfc7748.cswap fst snd]; [by exists m1 |].
  eexists. split; [| apply digits_length]. do 2 f_equal. subst m1.
  apply (difference_digits _ _ (w / 2 ^ 240 - 32767)); [rewrite EL; lia |]. unfold p25519 in *. lia.
Qed.

Lemma pack_bytes_ok (w : Z) : pack_bytes (digits 16 w) = bytes_le 32 w.
Proof.
  unfold pack_bytes. pose proof (digits_length 16 w) as Hl.
  assert (forall (f : Z -> list byte) n t, length t = n -> map (fun i => f (limb t i)) (seq 0 n) = map f t) as Hm.
  { intros f n t <-. induction t as [|x t IH]; [done |]. cbn [length seq map]. f_equal.
    rewrite <- seq_shift, map_map. exact IH. }
  rewrite (Hm (fun x => [z2b (Z.land x 0xff); z2b (Z.shiftr x 8)])) by done. clear Hl Hm.
  change 32%nat with (2 * 16)%nat. generalize 16%nat as n. intros n. revert w. induction n as [|n IH]; intros w; [done |].
  replace (2 * S n)%nat with (S (S (2 * n))) by lia. cbn [digits map concat app bytes_le]. rewrite IH.
  rewrite Z.div_div by lia. change (256 * 256) with (2 ^ 16). change 0xff with (2 ^ 8 - 1).
  rewrite land_mask, Z.shiftr_div_pow2 by lia. f_equal; [apply z2b_eq; zlia |]. f_equal. apply z2b_eq. zlia.
Qed.

Lemma pack_ok (uninit : nat -> Z) (o : fe) (v : Z) : tight o v -> pack uninit o = Some (bytes_le 32 (v mod p25519)).
Proof.
  intros (u & Hu & -> & Eu). unfold pack.
  assert (0 <= reduce u < 2 ^ 256) as Hr by (unfold reduce; zlia).
  rewrite carry_ok by (apply carried_length || (apply (within_weaken (2 ^ 16 + 38 * 1)); [lia | apply carried_within; lia])).
  cbn [mbind option_bind]. rewrite val_carried, carried_small by done.
  assert (carry (digits 16 (reduce u)) = Some (digits 16 (reduce u))) as Ec.
  { rewrite carry_ok; [| apply digits_length |].
    - rewrite val_digits. change (weight 16) with (2 ^ 256). rewrite Z.mod_small, carried_small by done. done.
    - eapply Forall_impl; [apply digits_range |]. intros x Hx. cbn beta in *. lia. }
  rewrite Ec. cbn [mbind option_bind]. rewrite Ec. cbn [mbind option_bind seq for_in].
  destruct (pack_subtract_ok (reduce u) (map uninit (seq 0 16)) Hr eq_refl) as (m1 & E1 & Hm1).
  cbn [seq] in E1. rewrite E1. clear E1. cbn [mbind option_bind].
  set (w1 := if reduce u <? p25519 then _ else _). assert (0 <= w1 < 2 ^ 256 /\ w1 < p25519 + 38 /\ w1 ≡p reduce u) as (H1 & B1 & C1).
  { subst w1. destruct (Z.ltb_spec (reduce u) p25519); unfold p25519 in *; (split; [lia |]); (split; [lia |]); [done |].
    apply (eqp_multiple _ _ (-1)). unfold p25519. lia. }
  destruct (pack_subtract_ok w1 m1 H1 Hm1) as (m2 & -> & _). cbn [mbind option_bind fst]. rewrite pack_bytes_ok. do 2 f_equal.
  assert (w1 ≡p v) as Cv by by rewrite C1, reduce_eqp. apply eqp_iff in Cv. rewrite <- Cv.
  destruct (Z.ltb_spec w1 p25519); [by rewrite Z.mod_small by lia |].
  apply Z.mod_unique_pos with (q := 1); unfold p25519 in *; lia.
Qed.

(** ** Public keys *)

Lemma clamp_key_ok (z : list byte) : length z = 32%nat -> clamp_key z = curve25519_clamp_secret z.
Proof.
  intros Hl. do 32 (destruct z as [|? z]; [done |]). destruct z; [| done]. reflexivity.
Qed.

Lemma tight_small (v : Z) : 0 <= v < 2 ^ 16 -> tight (fe_of [v]) v.
Proof.
  intros Hv. exists v. split; [lia |]. split; [| done]. rewrite carried_small by lia. unfold fe_of. cbn [length repeat Nat.sub app].
  cbn [digits]. rewrite Z.mod_small, Z.div_small by lia. reflexivity.
Qed.

(** C14: The embeddable library derives the same public keys as the tools, those of RFC 7748: for
    every private key of 32 bytes, [wg_generate_public_key] writes the little-endian form of
    X25519 of the clamped key and the coordinate 9, fully reduced.  No sum and no product of
    its loops overflows [int64_t], which would be undefined, and what the arrays held before
    they were written does not matter. *)
Theorem wg_generate_public_key_refines (uninit : nat -> Z) (private_key : list byte) : length private_key = 32%nat ->
  wg_generate_public_key uninit private_key = Some (bytes_le 32 (x25519 (clamp (le_bytes private_key)) 9)).
Proof.
  intros Hl. unfold wg_generate_public_key, x25519, ladder. rewrite <- clamp_ok, <- clamp_key_ok by done.
  set (z := clamp_key private_key).
  destruct (public_loop_ok z 255 (fe_of [1], fe_of [9], fe_of [0], fe_of [1]) ((1, 0), (9, 1))) as (st & -> & Hst).
  { cbn [ladder_repr]. split_and!; by apply tight_small. }
  destruct (fold_left (ladder_bit 9) (bits_down (le_bytes z) 255) ((1, 0), (9, 1))) as [[x2 z2] [x3 z3]].
  destruct st as [[[a b] c] d]. cbn [ladder_repr mbind option_bind] in *. destruct Hst as (Ha & _ & Hc & _).
  destruct (invert_ok c z2 Hc) as (i & -> & Hi). cbn [mbind option_bind].
  destruct (multmod_ok a i x2 (finv z2)) as (o & -> & Ho); [by apply tight_loose.. |]. cbn [mbind option_bind].
  rewrite (pack_ok uninit o _ Ho). unfold fprod. by rewrite Z.mod_mod by done.
Qed.

Lemma wg_generate_public_key_refines_witness :
  wg_generate_public_key (fun _ => -1) (map z2b (seqZ 1 32))
  = Some (bytes_le 32 (x25519 (clamp (le_bytes (map z2b (seqZ 1 32)))) 9)).
Proof. apply (wg_generate_public_key_refines (fun _ => -1) (map z2b (seqZ 1 32))). reflexivity. Defined.
