(* ===== verification/WgKeysOk.v ===== *)
(** * Texts and random keys of the embeddable library

    The base64 functions agree with those of encoding.c on every key and every text, and the
    generators with those of genkey.c, up to what they do when there is no randomness. *)

From S2P Require Import Netlink Prelude CString Encoding Curve25519 Rfc7748 Keys WgCurve WgCurveOk.
#[local] Open Scope Z_scope.
#[local] Opaque Z.pow.

(** ** Base64 *)

Lemma wg_key_to_base64_eq (key : list byte) : wg_key_to_base64 key = key_to_base64 key.
Proof. reflexivity. Qed.

(** The [errno] that the last byte of the computation stands for. *)
Lemma errno_mask (ret : Z) : 0 <= ret < 256 ->
  - Z.land EINVAL (Z.lnot (Z.shiftr (ret - 1) 8)) = if negb (Z.land 1 (Z.shiftr (ret - 1) 8) =? 0) then 0 else - EINVAL.
Proof.
  intros Hr. rewrite Z.shiftr_div_pow2 by lia. change (2 ^ 8) with 256.
  destruct (decide (ret = 0)) as [-> | Hz]; [done |]. assert ((ret - 1) / 256 = 0) as -> by zlia. done.
Qed.

Lemma put_block_app (val : Z) (pre rest : list byte) (a b c : byte) :
  put_block val (length pre) (pre ++ a :: b :: c :: rest) = (pre ++ value_bytes val) ++ rest.
Proof.
  unfold put_block. rewrite !insert_app_r_alt by lia.
  replace (length pre - length pre)%nat with O by lia. replace (length pre + 1 - length pre)%nat with 1%nat by lia.
  replace (length pre + 2 - length pre)%nat with 2%nat by lia. rewrite <- app_assoc. reflexivity.
Qed.

(** The blocks are stored one after the other. *)
Lemma put_blocks (f : nat -> Z) (n k : nat) (pre rest : list byte) (ret : Z) :
  length pre = (k * 3)%nat -> (n * 3 <= length rest)%nat ->
  fold_left (fun '(key, ret) i => (put_block (f i) (i * 3) key, u8 (Z.lor ret (Z.shiftr (u32 (f i)) 31)))) (seq k n) (pre ++ rest, ret)
  = (pre ++ concat (map value_bytes (map f (seq k n))) ++ drop (n * 3) rest,
     fold_left (fun ret val => u8 (Z.lor ret (Z.shiftr (u32 val) 31))) (map f (seq k n)) ret).
Proof.
  revert k pre rest ret. induction n as [|n IH]; intros k pre rest ret Hd Hr; [done |].
  destruct rest as [|a [|b [|c rest]]]; cbn [length] in Hr; try lia. cbn [seq map fold_left concat].
  rewrite <- Hd, put_block_app, IH by (rewrite ?length_app, ?Hd; cbn; lia).
  rewrite <- !app_assoc. done.
Qed.

Lemma wg_key_from_base64_eq `{Platform} (key base64 : list byte) : length key = 32%nat ->
  wg_key_from_base64 key base64
  = let '(key, ok) := key_from_base64 key base64 in (key, if ok then 0 else - EINVAL).
Proof.
  intros Hl. unfold wg_key_from_base64, key_from_base64. change (WG_KEY_LEN_BASE64 - 1)%nat with 44%nat.
  change (WG_KEY_LEN_BASE64 - 2)%nat with 43%nat. change (WG_KEY_LEN / 3)%nat with 10%nat. destruct (_ || _); [done |].
  set (f := fun i : nat => decode_base64 (byte_at base64 (i * 4)) _ _ _).
  pose proof (put_blocks f 10 0 [] key 0 eq_refl ltac:(lia)) as Hp. cbn [app] in Hp. change (10 * 3)%nat with 30%nat in Hp. subst f. cbv beta in Hp. rewrite Hp. clear Hp.
  cbv zeta. set (last := decode_base64 _ _ _ "A"%byte). set (vals := map _ (seq 0 10)).
  set (ret := u8 _). assert (0 <= ret < 256) as Hr by apply u8_lor_range. rewrite errno_mask by done. f_equal.
  change (fun val : Z => _) with value_bytes.
  assert (length (concat (map value_bytes vals)) = 30%nat) as Hb by reflexivity.
  assert (exists a b, drop 30 key = [a; b]) as (a & b & ->).
  { pose proof (length_drop key 30) as Hd. rewrite Hl in Hd. destruct (drop 30 key) as [|a [|b [|]]]; try done. by exists a, b. }
  rewrite !insert_app_r_alt by (rewrite ?length_app, Hb; cbn; lia). rewrite Hb. reflexivity.
Qed.

(** The base64 functions of the embeddable library agree with those of the tools: every key
    gets the same text, and of every text the same bytes are stored, with 0 for the texts the
    tools accept and -EINVAL for those they refuse. *)
Theorem wg_base64_agrees `{Platform} (old key base64 : list byte) : length old = 32%nat ->
  wg_key_to_base64 key = key_to_base64 key
  /\ wg_key_from_base64 old base64
     = let '(key, ok) := key_from_base64 old base64 in (key, if ok then 0 else - EINVAL).
Proof. intros Ho. split; [apply wg_key_to_base64_eq | by apply wg_key_from_base64_eq]. Qed.

Lemma wg_base64_agrees_witness :
  wg_key_to_base64 (map z2b (seqZ 1 32)) = key_to_base64 (map z2b (seqZ 1 32))
  /\ @wg_key_from_base64 lp64_x86 (repeat x00 32) (text "AQIDBAUGBwgJCgsMDQ4PEBESExQVFhcYGRobHB0eHyA=")
     = let '(key, ok) := @key_from_base64 lp64_x86 (repeat x00 32) (text "AQIDBAUGBwgJCgsMDQ4PEBESExQVFhcYGRobHB0eHyA=") in
       (key, if ok then 0 else - EINVAL).
Proof. apply (@wg_base64_agrees lp64_x86 (repeat x00 32) (map z2b (seqZ 1 32))). reflexivity. Defined.

(** ** Random keys *)

Lemma preshared_loop_eq (fuel : nat) (rd : nat -> nat -> list byte) (k : nat) (out : list byte) :
  (forall k n, length (rd k n) <= n)%nat -> (length out <= 32)%nat ->
  preshared_loop fuel rd k out
  = obind (read_loop fuel rd k out 32) (fun s => if (length s =? 32)%nat then Returns s else Exits SIGABRT_status).
Proof.
  intros Hrd. revert k out. induction fuel as [|fuel IH]; intros k out Ho; [done |]. cbn [preshared_loop read_loop].
  destruct (Nat.ltb_spec (length out) 32).
  - destruct (length (rd k (32 - length out)) =? 0)%nat; cbn [obind].
    + by rewrite (proj2 (Nat.eqb_neq _ _)) by lia.
    + apply IH. rewrite length_app. specialize (Hrd k (32 - length out)%nat). lia.
  - cbn [obind]. by rewrite (proj2 (Nat.eqb_eq _ _)) by lia.
Qed.

(** Where [awg genkey] fails for want of randomness the library aborts the process. *)
Lemma wg_generate_preshared_key_eq `{R : Random} `{!RandomLaws R} :
  wg_generate_preshared_key
  = obind (get_random_bytes 32) (fun res => match res with Some s => Returns s | None => Exits SIGABRT_status end).
Proof.
  unfold wg_generate_preshared_key, get_random_bytes. change (256 <? 32)%nat with false. cbv iota.
  destruct (getentropy 32); [done |]. destruct (_ =? 32)%nat; [done |]. destruct urandom as [rd |] eqn:E; [| done].
  rewrite preshared_loop_eq by ((intros; by apply urandom_length) || (cbn; lia)).
  destruct (read_loop 33 rd 0 [] 32); cbn [obind]; [by destruct (_ =? 32)%nat | done..].
Qed.

(** The library aborts or returns 32 bytes; those of a private key are already clamped. *)
Theorem wg_generate_private_key_spec `{R : Random} `{!RandomLaws R} :
  wg_generate_private_key = Exits SIGABRT_status
  \/ exists key, wg_generate_private_key = Returns key /\ length key = 32%nat /\ le_bytes key = clamp (le_bytes key).
Proof.
  unfold wg_generate_private_key. rewrite wg_generate_preshared_key_eq.
  destruct (get_random_bytes_cases 32) as [-> | (s & -> & Hs)]; cbn [obind]; [by left |]. right.
  exists (clamp_key s). rewrite clamp_key_ok, clamp_ok, clamp_secret_length by done. split; [done |]. split; [done |].
  by rewrite clamp_idem.
Qed.
