(* ===== verification/WgDevice.v ===== *)
(** * Devices of the embeddable library (contrib/embeddable-wg-library/wireguard.c)

    The library configures the interfaces of the kernel module, without the fields of
    AmneziaWG.  Its netlink code is that of netlink.h, except for [mnlg_socket_open], which is
    given the version of the protocol; [string_list_add], [put_allowedips] (the loop over the
    allowed IPs), [parse_allowedip] and [fetch_device_names] (there
    [kernel_get_wireguard_interfaces]) are those of ipc.c and ipc-linux.h. *)

From S2P Require Import Prelude CString Encoding Containers CSort Ipc Netlink IpcLinux Curve25519 Rfc7748 Keys WgCurve.
#[local] Open Scope Z_scope.
#[local] Open Scope awg_scope.

Definition WG_GENL_VERSION : Z := 1.
Definition EAFNOSUPPORT : Z := 97.
Definition ENXIO : Z := 6.

(** ** wireguard.h *)

(** [wg_allowedip] has the fields of [struct wgallowedip]. *)
Record wg_peer := WgLibPeer {
  p_flags : Z;
  p_public_key : list byte;
  p_preshared_key : list byte;
  p_endpoint : list byte;
  p_last_handshake_time : timespec64;
  p_rx_bytes : Z;
  p_tx_bytes : Z;
  p_persistent_keepalive_interval : Z;
  p_allowedips : list wgallowedip;
}.

Record wg_device := WgLibDevice {
  d_name : list byte;
  d_ifindex : Z;
  d_flags : Z;
  d_public_key : list byte;
  d_private_key : list byte;
  d_fwmark : Z;
  d_listen_port : Z;
  d_peers : list wg_peer;
}.

#[export] Instance eta_wg_peer : Eta wg_peer :=
  fun r => WgLibPeer (p_flags r) (p_public_key r) (p_preshared_key r) (p_endpoint r) (p_last_handshake_time r)
    (p_rx_bytes r) (p_tx_bytes r) (p_persistent_keepalive_interval r) (p_allowedips r).

#[export] Instance eta_wg_device : Eta wg_device :=
  fun r => WgLibDevice (d_name r) (d_ifindex r) (d_flags r) (d_public_key r) (d_private_key r) (d_fwmark r)
    (d_listen_port r) (d_peers r).

(** What [calloc] returns. *)
Definition wg_zero_peer : wg_peer :=
  WgLibPeer 0 zero_key zero_key (repeat x00 sizeof_sockaddr_in6) (Timespec64 0 0) 0 0 0 [].
Definition wg_zero_device : wg_device := WgLibDevice [] 0 0 zero_key zero_key 0 0 [].

(** ** The socket *)

Section Open.
Context `{NetlinkKernel} (fuel : nat).

(** The data is [nlg->id]. *)
Definition wg_get_family_id_cb : callback Z := fun nlh '(errno, p_id) =>
  let '(_, (errno, tb)) := mnl_attr_parse nlh sizeof_genlmsghdr get_family_id_attr_cb (errno, (None, None)) in
  match tb with
  | (Some tb_id, _) => (MNL_CB_OK, (errno, mnl_attr_get_u16 tb_id))
  | (None, _) => (MNL_CB_ERROR, (errno, p_id))
  end.

(** [inl errno] for NULL. *)
Definition wg_mnlg_socket_open (k : kstate) (family_name : list byte) (version : Z) : outcome (kstate * (Z + mnlg_socket)) :=
  match nl_open k NETLINK_GENERIC with
  | (k, inl e) => Returns (k, inl e)
  | (k, inr port) =>
      let nlg := mnlg_msg_prepare k (MnlgSocket 0 0 0 port) in
      let m := mnl_attr_put_strz (genlmsghdr CTRL_CMD_GETFAMILY 1) CTRL_ATTR_FAMILY_NAME family_name in
      match nl_sendto k (nlmsg GENL_ID_CTRL (Z.lor NLM_F_REQUEST NLM_F_ACK) (seq nlg) m) with
      | (k, Some e) => Returns (k, inl e)
      | (k, None) =>
          let! '(k, err, (errno, id)) := mnlg_socket_recv_run fuel k nlg (Some wg_get_family_id_cb) (0, 0) in
          if err <? 0 then
            let errno := if errno =? ENOENT then EPROTONOSUPPORT else errno in
            Returns (k, inl (if negb (errno =? 0) then errno else ENOSYS))
          else Returns (k, inr (MnlgSocket id version (seq nlg) port))
      end
  end.

End Open.

(** ** [wg_set_device] *)

Section Set_device.
Context (uninit : nat -> byte) (buffer_size : Z).

(** The attributes of the device, in the first message. *)
Definition wg_put_device (dev : wg_device) (m : list byte) : list byte :=
  let has := has_flag (d_flags dev) in
  let flags := if has WGDEVICE_REPLACE_PEERS then WGDEVICE_F_REPLACE_PEERS else 0 in
  let m := if has WGDEVICE_HAS_PRIVATE_KEY then mnl_attr_put m WGDEVICE_A_PRIVATE_KEY (d_private_key dev) else m in
  let m := if has WGDEVICE_HAS_LISTEN_PORT then mnl_attr_put_u16 m WGDEVICE_A_LISTEN_PORT (d_listen_port dev) else m in
  let m := if has WGDEVICE_HAS_FWMARK then mnl_attr_put_u32 m WGDEVICE_A_FWMARK (d_fwmark dev) else m in
  if negb (flags =? 0) then mnl_attr_put_u32 m WGDEVICE_A_FLAGS flags else m.

(** The attributes of a peer before its allowed IPs; [first] when none of them was sent. *)
Definition wg_put_peer (first : bool) (p : wg_peer) : put :=
  let has := has_flag (p_flags p) in
  let flags := Z.lor (if has WGPEER_REMOVE_ME then WGPEER_F_REMOVE_ME else 0)
                 (if first && has WGPEER_REPLACE_ALLOWEDIPS then WGPEER_F_REPLACE_ALLOWEDIPS else 0) in
  put_then (mnl_attr_put_check buffer_size WGPEER_A_PUBLIC_KEY (p_public_key p))
  (put_then (put_when (first && has WGPEER_HAS_PRESHARED_KEY)
               (mnl_attr_put_check buffer_size WGPEER_A_PRESHARED_KEY (p_preshared_key p)))
  (put_then (put_when first
               (if sa_family (p_endpoint p) =? AF_INET
                then mnl_attr_put_check buffer_size WGPEER_A_ENDPOINT (take sizeof_sockaddr_in (p_endpoint p))
                else if sa_family (p_endpoint p) =? AF_INET6
                then mnl_attr_put_check buffer_size WGPEER_A_ENDPOINT (take sizeof_sockaddr_in6 (p_endpoint p))
                else put_none))
  (put_then (put_when (first && has WGPEER_HAS_PERSISTENT_KEEPALIVE_INTERVAL)
               (mnl_attr_put_u16_check buffer_size WGPEER_A_PERSISTENT_KEEPALIVE_INTERVAL
                  (p_persistent_keepalive_interval p)))
   (put_when (negb (flags =? 0)) (mnl_attr_put_u32_check buffer_size WGPEER_A_FLAGS flags))))).

(** The loop over the peers: the peers that are left and the rest of the first one's allowed
    IPs; none of either when all are written. *)
Fixpoint wg_put_peers (peer : list wg_peer) (allowedip : list wgallowedip) (m : list byte) :
    list wg_peer * list wgallowedip * list byte :=
  match peer with
  | [] => ([], allowedip, m)
  | p :: next_peer =>
      match mnl_attr_nest_start_check uninit m buffer_size 0 with
      | None => (peer, allowedip, m)
      | Some (peer_nest, m) =>
          match wg_put_peer (length allowedip =? 0)%nat p m with
          | (false, m) => (peer, allowedip, mnl_attr_nest_cancel m peer_nest)
          | (true, m) =>
              if (length (p_allowedips p) =? 0)%nat then wg_put_peers next_peer allowedip (mnl_attr_nest_end m peer_nest)
              else
                let allowedip := if (length allowedip =? 0)%nat then p_allowedips p else allowedip in
                match mnl_attr_nest_start_check uninit m buffer_size WGPEER_A_ALLOWEDIPS with
                | None => (peer, allowedip, mnl_attr_nest_end m peer_nest)
                | Some (allowedips_nest, m) =>
                    let '(allowedip, m) := put_allowedips uninit buffer_size allowedip m in
                    let m := mnl_attr_nest_end (mnl_attr_nest_end m allowedips_nest) peer_nest in
                    if (length allowedip =? 0)%nat then wg_put_peers next_peer allowedip m else (peer, allowedip, m)
                end
          end
      end
  end.

(** One message; [peer] is empty for NULL, before the first. *)
Definition wg_set_message (version : Z) (dev : wg_device) (peer : list wg_peer) (allowedip : list wgallowedip) :
    list wg_peer * list wgallowedip * list byte :=
  let m := mnl_attr_put_strz (genlmsghdr WG_CMD_SET_DEVICE version) WGDEVICE_A_IFNAME (d_name dev) in
  let m := if (length peer =? 0)%nat then wg_put_device dev m else m in
  if (length (d_peers dev) =? 0)%nat then (peer, allowedip, m)
  else
    let '(peers_nest, m) := mnl_attr_nest_start uninit m WGDEVICE_A_PEERS in
    let '(peer, allowedip, m) := wg_put_peers (if (length peer =? 0)%nat then d_peers dev else peer) allowedip m in
    (peer, allowedip, mnl_attr_nest_end m peers_nest).

Context `{NetlinkKernel} (fuel : nat).

(** The loop from [again] on, with the socket open. *)
Fixpoint wg_set_loop (turns : nat) (k : kstate) (nlg : mnlg_socket) (dev : wg_device) (peer : list wg_peer)
    (allowedip : list wgallowedip) : outcome (kstate * Z) :=
  match turns with
  | O => OutOfFuel
  | S turns' =>
      let nlg := mnlg_msg_prepare k nlg in
      let '(peer, allowedip, m) := wg_set_message (version nlg) dev peer allowedip in
      match nl_sendto k (nlmsg (id nlg) (Z.lor NLM_F_REQUEST NLM_F_ACK) (seq nlg) m) with
      | (k, Some e) => Returns (k, - e)
      | (k, None) =>
          let! '(k, err, (errno, _)) := mnlg_socket_recv_run (A := unit) fuel k nlg None (0, tt) in
          if err <? 0 then Returns (k, if negb (errno =? 0) then - errno else - EINVAL)
          else if (length peer =? 0)%nat then Returns (k, 0)
          else wg_set_loop turns' k nlg dev peer allowedip
      end
  end.

Definition wg_set_device (turns : nat) (k : kstate) (dev : wg_device) : outcome (kstate * Z) :=
  let! '(k, res) := wg_mnlg_socket_open fuel k WG_GENL_NAME WG_GENL_VERSION in
  match res with
  | inl e => Returns (k, - e)
  | inr nlg => wg_set_loop turns k nlg dev [] []
  end.

End Set_device.

(** ** [wg_get_device] *)

Definition wg_parse_allowedips (attr : nlattr) (st : Z * wg_peer) : Z * (Z * wg_peer) :=
  let '(errno, peer) := st in
  let '(ret, (errno, new_allowedip)) := mnl_attr_parse_nested attr parse_allowedip (errno, zero_allowedip) in
  let peer := peer <| p_allowedips ::= fun l => l ++ [new_allowedip] |> in
  if ret =? 0 then (ret, (errno, peer))
  else if negb (((family new_allowedip =? AF_INET) && (cidr new_allowedip <=? 32))
                || ((family new_allowedip =? AF_INET6) && (cidr new_allowedip <=? 128)))
  then (MNL_CB_ERROR, (EAFNOSUPPORT, peer))
  else (MNL_CB_OK, (errno, peer)).

Definition wg_set_peer_flag (f : Z) (p : wg_peer) : wg_peer := p <| p_flags ::= fun x => Z.lor x f |>.
Definition wg_set_dev_flag (f : Z) (d : wg_device) : wg_device := d <| d_flags ::= fun x => Z.lor x f |>.

Definition wg_parse_peer (attr : nlattr) (st : Z * wg_peer) : Z * (Z * wg_peer) :=
  let type := mnl_attr_get_type attr in
  let data := mnl_attr_get_payload attr in
  let ok st : Z * (Z * wg_peer) := (MNL_CB_OK, st) in
  if type =? WGPEER_A_PUBLIC_KEY then
    ok (if_len attr 32 (fun p => wg_set_peer_flag WGPEER_HAS_PUBLIC_KEY (p <| p_public_key := take 32 data |>)) st)
  else if type =? WGPEER_A_PRESHARED_KEY then
    ok (if_len attr 32 (fun p =>
          let p := p <| p_preshared_key := take 32 data |> in
          if wg_key_is_zero (p_preshared_key p) then p else wg_set_peer_flag WGPEER_HAS_PRESHARED_KEY p) st)
  else if type =? WGPEER_A_ENDPOINT then
    ok (if mnl_attr_get_payload_len attr <? 16 then st
        else if (sa_family data =? AF_INET) && (mnl_attr_get_payload_len attr =? Z.of_nat sizeof_sockaddr_in) then
          (fst st, (snd st) <| p_endpoint ::= fun dst => memcpy_front dst (take sizeof_sockaddr_in data) |>)
        else if (sa_family data =? AF_INET6) && (mnl_attr_get_payload_len attr =? Z.of_nat sizeof_sockaddr_in6) then
          (fst st, (snd st) <| p_endpoint ::= fun dst => memcpy_front dst (take sizeof_sockaddr_in6 data) |>)
        else st)
  else if type =? WGPEER_A_PERSISTENT_KEEPALIVE_INTERVAL then
    ok (if_valid attr MNL_TYPE_U16 (fun p => p <| p_persistent_keepalive_interval := mnl_attr_get_u16 attr |>) st)
  else if type =? WGPEER_A_LAST_HANDSHAKE_TIME then
    ok (if_len attr 16 (fun p =>
          p <| p_last_handshake_time := Timespec64 (s64 (le_bytes (take 8 data))) (s64 (le_bytes (take 8 (drop 8 data)))) |>) st)
  else if type =? WGPEER_A_RX_BYTES then
    ok (if_valid attr MNL_TYPE_U64 (fun p => p <| p_rx_bytes := mnl_attr_get_u64 attr |>) st)
  else if type =? WGPEER_A_TX_BYTES then
    ok (if_valid attr MNL_TYPE_U64 (fun p => p <| p_tx_bytes := mnl_attr_get_u64 attr |>) st)
  else if type =? WGPEER_A_ALLOWEDIPS then mnl_attr_parse_nested attr wg_parse_allowedips st
  else ok st.

Definition wg_parse_peers (attr : nlattr) (st : Z * wg_device) : Z * (Z * wg_device) :=
  let '(errno, device) := st in
  let '(ret, (errno, new_peer)) := mnl_attr_parse_nested attr wg_parse_peer (errno, wg_zero_peer) in
  let device := device <| d_peers ::= fun l => l ++ [new_peer] |> in
  if ret =? 0 then (ret, (errno, device))
  else if negb (has_flag (p_flags new_peer) WGPEER_HAS_PUBLIC_KEY) then (MNL_CB_ERROR, (ENXIO, device))
  else (MNL_CB_OK, (errno, device)).

Definition wg_parse_device (attr : nlattr) (st : Z * wg_device) : Z * (Z * wg_device) :=
  let type := mnl_attr_get_type attr in
  let data := mnl_attr_get_payload attr in
  let ok st : Z * (Z * wg_device) := (MNL_CB_OK, st) in
  if type =? WGDEVICE_A_IFINDEX then
    ok (if_valid attr MNL_TYPE_U32 (fun d => d <| d_ifindex := mnl_attr_get_u32 attr |>) st)
  else if type =? WGDEVICE_A_IFNAME then
    ok (if_valid attr MNL_TYPE_STRING (fun d => d <| d_name := take (IFNAMSIZ - 1) (mnl_attr_get_str attr) |>) st)
  else if type =? WGDEVICE_A_PRIVATE_KEY then
    ok (if_len attr 32 (fun d => wg_set_dev_flag WGDEVICE_HAS_PRIVATE_KEY (d <| d_private_key := take 32 data |>)) st)
  else if type =? WGDEVICE_A_PUBLIC_KEY then
    ok (if_len attr 32 (fun d => wg_set_dev_flag WGDEVICE_HAS_PUBLIC_KEY (d <| d_public_key := take 32 data |>)) st)
  else if type =? WGDEVICE_A_LISTEN_PORT then
    ok (if_valid attr MNL_TYPE_U16 (fun d => d <| d_listen_port := mnl_attr_get_u16 attr |>) st)
  else if type =? WGDEVICE_A_FWMARK then
    ok (if_valid attr MNL_TYPE_U32 (fun d => d <| d_fwmark := mnl_attr_get_u32 attr |>) st)
  else if type =? WGDEVICE_A_PEERS then mnl_attr_parse_nested attr wg_parse_peers st
  else ok st.

Definition wg_read_device_cb : callback wg_device := fun nlh st => mnl_attr_parse nlh sizeof_genlmsghdr wg_parse_device st.

(** The loop from a peer on, whose [last_allowedip] is NULL when [last_null]; [None] when that
    pointer is followed. *)
Fixpoint wg_coalesce_from (peer : wg_peer) (last_null : bool) (next : list wg_peer) {struct next} : option (list wg_peer) :=
  match next with
  | [] => Some [peer]
  | next_peer :: next' =>
      let next_null := (length (p_allowedips next_peer) =? 0)%nat in
      if negb (memcmp (p_public_key peer) (p_public_key next_peer) =? 0) then
        option_map (cons peer) (wg_coalesce_from next_peer next_null next')
      else if (length (p_allowedips peer) =? 0)%nat then
        wg_coalesce_from (peer <| p_allowedips := p_allowedips next_peer |>) next_null next'
      else if last_null then None
      else wg_coalesce_from (peer <| p_allowedips ::= fun l => l ++ p_allowedips next_peer |>) next_null next'
  end.

Definition wg_coalesce_peers (device : wg_device) : option wg_device :=
  match d_peers device with
  | [] => Some device
  | peer :: next =>
      option_map (fun l => device <| d_peers := l |>) (wg_coalesce_from peer (length (p_allowedips peer) =? 0)%nat next)
  end.

Inductive wg_try_result :=
| WgNoSocket (ret : Z)
| WgFailed (ret : Z)
| WgGot (device : wg_device).

Section Get_device.
Context `{NetlinkKernel} (fuel : nat).

(** From [try_again] to [out]: [WgGot] when [ret] was not assigned. *)
Definition wg_get_try (k : kstate) (device_name : list byte) : outcome (kstate * wg_try_result) :=
  let! '(k, res) := wg_mnlg_socket_open fuel k WG_GENL_NAME WG_GENL_VERSION in
  match res with
  | inl e => Returns (k, WgNoSocket (- e))
  | inr nlg =>
      let nlg := mnlg_msg_prepare k nlg in
      let m := mnl_attr_put_strz (genlmsghdr WG_CMD_GET_DEVICE (version nlg)) WGDEVICE_A_IFNAME device_name in
      match nl_sendto k (nlmsg (id nlg) (Z.lor (Z.lor NLM_F_REQUEST NLM_F_ACK) NLM_F_DUMP) (seq nlg) m) with
      | (k, Some e) => Returns (k, WgFailed (- e))
      | (k, None) =>
          let! '(k, err, (errno, device)) := mnlg_socket_recv_run fuel k nlg (Some wg_read_device_cb) (0, wg_zero_device) in
          if err <? 0 then Returns (k, WgFailed (if negb (errno =? 0) then - errno else - EINVAL))
          else match wg_coalesce_peers device with
               | Some device => Returns (k, WgGot device)
               | None => Exits SEGV
               end
      end
  end.

(** [ret] is set to 0 before [try_again] only, so a later try starts with the error of the
    one before. *)
Fixpoint wg_get_loop (tries : nat) (k : kstate) (device_name : list byte) (ret : Z) : outcome (kstate * (Z + wg_device)) :=
  match tries with
  | O => OutOfFuel
  | S tries' =>
      let! '(k, res) := wg_get_try k device_name in
      let out ret device :=
        if ret =? 0 then Returns (k, inr device)
        else if ret =? - EINTR then wg_get_loop tries' k device_name ret
        else Returns (k, inl ret) in
      match res with
      | WgNoSocket e => Returns (k, inl e)
      | WgFailed ret => out ret wg_zero_device
      | WgGot device => out ret device
      end
  end.

Definition wg_get_device (tries : nat) (k : kstate) (device_name : list byte) : outcome (kstate * (Z + wg_device)) :=
  wg_get_loop tries k device_name 0.

End Get_device.

(** ** Interfaces *)

Definition RTM_NEWLINK : Z := 16.
Definition RTM_DELLINK : Z := 17.
Definition NLM_F_EXCL : Z := 0x200.
Definition NLM_F_CREATE : Z := 0x400.

Section Interfaces.
Context `{NetlinkKernel}.

(** The request, in a buffer of zeros. *)
Definition link_request (k : kstate) (ifname : list byte) (add : bool) : list byte :=
  let m := mnl_attr_put_strz (repeat x00 (Z.to_nat sizeof_ifinfomsg)) IFLA_IFNAME ifname in
  let '(nest, m) := mnl_attr_nest_start (fun _ => x00) m IFLA_LINKINFO in
  let m := mnl_attr_nest_end (mnl_attr_put_strz m IFLA_INFO_KIND WG_GENL_NAME) nest in
  nlmsg (if add then RTM_NEWLINK else RTM_DELLINK)
    (Z.lor (Z.lor NLM_F_REQUEST NLM_F_ACK) (if add then Z.lor NLM_F_CREATE NLM_F_EXCL else 0)) (u32 (nl_time k)) m.

(** [nlh] points into the buffer of the answer: the sequence number that the answer is
    compared with is read from the answer itself. *)
Definition add_del_iface (k : kstate) (ifname : list byte) (add : bool) : kstate * Z :=
  match nl_open k NETLINK_ROUTE with
  | (k, inl e) => (k, - e)
  | (k, inr portid) =>
      let request := link_request k ifname add in
      match nl_sendto k request with
      | (k, Some e) => (k, - e)
      | (k, None) =>
          match nl_recvfrom k with
          | (k, inl e) => (k, - e)
          | (k, inr buf) =>
              let rtnl_buffer := memcpy_front request buf in
              let '(ret, (errno, _)) := mnl_cb_run (A := unit) buf (nlmsg_seq rtnl_buffer) portid None (0, tt) in
              (k, if ret <? 0 then - errno else 0)
          end
      end
  end.

Definition wg_add_device (k : kstate) (device_name : list byte) : kstate * Z := add_del_iface k device_name true.
Definition wg_del_device (k : kstate) (device_name : list byte) : kstate * Z := add_del_iface k device_name false.

(** NULL with an [errno], or the buffer. *)
Definition wg_list_device_names (fresh : nat -> byte) (turns : nat) (k : kstate) : outcome (kstate * (Z + list byte)) :=
  let! '(k, ret, list) := kernel_get_wireguard_interfaces fresh turns k empty_list in
  if negb (ret =? 0) then Returns (k, inl (- ret))
  else Returns (k, inr (if (cap list =? 0)%nat then [x00] else buffer list)).

End Interfaces.
