(* ===== verification/WgDeviceOk.v ===== *)
(** * The embeddable library and the tools

    [full_device] is a device of the library as the tools know it, with nothing of AmneziaWG
    set, and [plain_device] what is left of a device of the tools in the library.  Shown: to a
    module that speaks the library's version of the protocol [wg_set_device] sends what
    [kernel_set_device] sends; of a complete dump [wg_get_device] makes what is left of the
    device of [kernel_get_device]; after an interrupted dump it returns no device any more;
    and [wg_add_device] takes the answer to any request for that to its own. *)

From S2P Require Import Prelude CString Encoding Containers CSort Ipc Netlink NetlinkOk IpcLinux IpcLinuxSet IpcLinuxGet IpcLinuxDump.
From S2P Require Import Curve25519 Rfc7748 Keys WgCurve WgDevice.
#[local] Open Scope Z_scope.
#[local] Open Scope awg_scope.

(** ** Flags *)

(** The flags of the library are the five low ones. *)
Lemma has_flag_low (fl f : Z) : Z.land 31 f = f -> has_flag (Z.land fl 31) f = has_flag fl f.
Proof. intros E. unfold has_flag. by rewrite <- Z.land_assoc, E. Qed.

Lemma has_flag_high (fl f : Z) : Z.land 31 f = 0 -> has_flag (Z.land fl 31) f = false.
Proof. intros E. unfold has_flag. by rewrite <- Z.land_assoc, E, Z.land_0_r. Qed.

Ltac low_flags :=
  repeat match goal with
  | |- context [has_flag (Z.land ?fl 31) ?f] =>
      first [rewrite (has_flag_low fl f eq_refl) | rewrite (has_flag_high fl f eq_refl)]
  end.

(** ** Setting *)

Definition full_peer (p : wg_peer) : wgpeer :=
  WgPeer (Z.land (p_flags p) 31) (p_public_key p) (p_preshared_key p) (p_endpoint p) (p_last_handshake_time p)
    (p_rx_bytes p) (p_tx_bytes p) (p_persistent_keepalive_interval p) false (p_allowedips p).

Definition full_device (d : wg_device) : wgdevice :=
  WgDevice (d_name d) (d_ifindex d) (Z.land (d_flags d) 31) (d_public_key d) (d_private_key d) (d_fwmark d)
    (d_listen_port d) (map full_peer (d_peers d)) 0 0 0 0 0 0 0 None None None None None None None None None.

Lemma put_device_full `{Platform} (version : Z) (d : wg_device) (m : list byte) :
  put_device version (full_device d) m = Some (wg_put_device d m).
Proof.
  unfold put_device, wg_put_device. cbn [full_device flags private_key listen_port fwmark]. low_flags. unfold when.
  do 4 (destruct (has_flag _ _); cbn [mbind option_bind]); done.
Qed.

Section Set_agrees.
Context `{Platform} (uninit : nat -> byte) (buffer_size : Z).

Lemma put_peer_full (first : bool) (p : wg_peer) (m : list byte) :
  put_peer buffer_size first (full_peer p) m = wg_put_peer buffer_size first p m.
Proof.
  unfold put_peer, wg_put_peer.
  cbn [full_peer peer_flags peer_public_key preshared_key endpoint persistent_keepalive_interval awg].
  low_flags. rewrite Z.lor_0_r. cbn [andb].
  unfold put_then at 1 6. destruct (mnl_attr_put_check _ _ _ m) as [[] m1]; [| done].
  unfold put_then at 1 5. destruct (put_when _ _ m1) as [[] m2]; [| done].
  unfold put_then at 1 4. destruct (put_when _ _ m2) as [[] m3]; [| done].
  unfold put_then at 1 3. destruct (put_when _ _ m3) as [[] m4]; done.
Qed.

Lemma put_peers_full (l : list wg_peer) (a : list wgallowedip) (m : list byte) :
  put_peers uninit buffer_size (map full_peer l) a m
  = let '(l', a', m') := wg_put_peers uninit buffer_size l a m in (map full_peer l', a', m').
Proof.
  revert a m. induction l as [|p l IH]; intros a m; [done |]. cbn [map put_peers wg_put_peers].
  destruct (mnl_attr_nest_start_check uninit m buffer_size 0) as [[nest m1] |]; [| done].
  rewrite put_peer_full. destruct (wg_put_peer _ _ p m1) as [[] m2]; [| done]. cbn [full_peer allowedips].
  destruct (length (p_allowedips p) =? 0)%nat; [apply IH |].
  destruct (mnl_attr_nest_start_check uninit m2 buffer_size WGPEER_A_ALLOWEDIPS) as [[ips m3] |]; [| done].
  destruct (put_allowedips _ _ _ m3) as [a' m4]. destruct (length a' =? 0)%nat; [apply IH | done].
Qed.

Lemma set_message_full (version : Z) (d : wg_device) (l : list wg_peer) (a : list wgallowedip) :
  set_message uninit buffer_size version (full_device d) (map full_peer l) a
  = Some (let '(l', a', m') := wg_set_message uninit buffer_size version d l a in (map full_peer l', a', m')).
Proof.
  unfold set_message, wg_set_message. cbn [full_device name peers]. rewrite !length_map.
  set (m0 := mnl_attr_put_strz _ _ _). fold (full_device d).
  assert (when (length l =? 0)%nat (put_device version (full_device d)) m0
          = Some (if (length l =? 0)%nat then wg_put_device d m0 else m0)) as ->
    by (destruct (length l =? 0)%nat; cbn [when]; [apply put_device_full | done]).
  cbn [mbind option_bind]. destruct (length (d_peers d) =? 0)%nat; [done |]. cbn [mnl_attr_nest_start].
  assert ((if (length l =? 0)%nat then map full_peer (d_peers d) else map full_peer l)
          = map full_peer (if (length l =? 0)%nat then d_peers d else l)) as -> by (by destruct (length l =? 0)%nat).
  rewrite put_peers_full. by destruct (wg_put_peers _ _ _ _ _) as [[l' a'] m'].
Qed.

Context `{K : NetlinkKernel} (fuel : nat).

Lemma set_loop_full (turns : nat) (k : kstate) (nlg : mnlg_socket) (d : wg_device) (l : list wg_peer) (a : list wgallowedip) :
  set_loop uninit buffer_size fuel turns k nlg (full_device d) (map full_peer l) a
  = wg_set_loop uninit buffer_size fuel turns k nlg d l a.
Proof.
  revert k nlg l a. induction turns as [|turns IH]; intros k nlg l a; [done |]. cbn [set_loop wg_set_loop].
  rewrite set_message_full. destruct (wg_set_message _ _ _ _ _ _) as [[l' a'] m']. cbv zeta.
  destruct (nl_sendto _ _) as [k1 [e |]]; [done |].
  destruct (mnlg_socket_recv_run _ _ _ _ _) as [[[k2 err] [errno u]] | |]; cbn [obind]; [| done..].
  rewrite length_map. destruct (err <? 0); [done |]. destruct (length l' =? 0)%nat; [done | apply IH].
Qed.

End Set_agrees.

(** ** Two callbacks side by side *)

(** Attributes: the same verdicts keep the data related. *)
Definition follows {A B} (R : A -> B -> Prop) (cb : nlattr -> A -> Z * A) (cb' : nlattr -> B -> Z * B) : Prop :=
  forall attr a b, R a b -> fst (cb' attr b) = fst (cb attr a) /\ R (snd (cb attr a)) (snd (cb' attr b)).

Lemma attr_loop_follows {A B} (R : A -> B -> Prop) cb cb' (fuel : nat) (buf : list byte) (len ret : Z) (a : A) (b : B) :
  follows R cb cb' -> R a b ->
  fst (attr_loop fuel cb' buf len ret b) = fst (attr_loop fuel cb buf len ret a)
  /\ R (snd (attr_loop fuel cb buf len ret a)) (snd (attr_loop fuel cb' buf len ret b)).
Proof.
  intros Hcb. revert buf len ret a b. induction fuel as [|fuel IH]; intros buf len ret a b Hab; [done |].
  cbn [attr_loop]. destruct (mnl_attr_ok _ _); [| done]. destruct (Hcb (attr_at buf) a b Hab) as [E HR].
  destruct (cb (attr_at buf) a) as [r a'], (cb' (attr_at buf) b) as [r' b']. cbn [fst snd] in *. subst r'.
  destruct (r <=? MNL_CB_STOP); [done | by apply IH].
Qed.

(** Messages: [f] and [g] agree as long as [f] does not fail. *)
Definition message_follows {A B} (R : A -> B -> Prop) (f : callback A) (g : callback B) : Prop :=
  forall nlh e a e' b, R a b -> 0 <= fst (f nlh (e, a)) ->
  fst (g nlh (e', b)) = fst (f nlh (e, a)) /\ R (snd (snd (f nlh (e, a)))) (snd (snd (g nlh (e', b)))).

(** The same for the callbacks of every type of message. *)
Definition table_follows {A B} (R : A -> B -> Prop) (cb : Z -> option (callback A)) (cb' : Z -> option (callback B)) : Prop :=
  forall type, match cb type, cb' type with
               | Some f, Some g => message_follows R f g
               | None, None => True
               | _, _ => False
               end.

(** Control messages have the same verdict whatever the data. *)
Lemma cb_for_follows {A B} (R : A -> B -> Prop) (f : callback A) (g : callback B) :
  message_follows R f g -> table_follows R (cb_for (Some f) mnlg_cb_array 5) (cb_for (Some g) mnlg_cb_array 5).
Proof.
  intros Hfg type. unfold cb_for. destruct (NLMSG_MIN_TYPE <=? type); [done |].
  unfold mnlg_cb_array, default_cb_array. repeat case_match; simplify_eq; try done; intros nlh e a e' b HR _;
    unfold mnl_cb_noop, mnl_cb_error, mnlg_cb_stop, mnl_cb_stop; by repeat case_match.
Qed.

Lemma cb_run_follows {A B} (R : A -> B -> Prop) cb cb' (fuel : nat) (seq portid : Z) (nlh : list byte) (len ret : Z)
    (e e' : Z) (a : A) (b : B) :
  table_follows R cb cb' -> R a b ->
  let run := cb_run fuel cb seq portid nlh len ret (e, a) in
  let run' := cb_run fuel cb' seq portid nlh len ret (e', b) in
  0 <= fst run -> fst run' = fst run /\ R (snd (snd run)) (snd (snd run')).
Proof.
  intros Hcb. revert nlh len ret e e' a b. induction fuel as [|fuel IH]; intros nlh len ret e e' a b HR; cbn [cb_run]; [done |].
  destruct (mnl_nlmsg_ok nlh len); [| done].
  destruct (negb (mnl_nlmsg_portid_ok nlh portid)); [done |]. destruct (negb (mnl_nlmsg_seq_ok nlh seq)); [done |].
  destruct (negb (_ =? 0)); [done |]. destruct (mnl_nlmsg_next nlh len) as [nlh' len']. specialize (Hcb (nlmsg_type nlh)).
  destruct (cb (nlmsg_type nlh)) as [f |], (cb' (nlmsg_type nlh)) as [g |]; try done; [| by apply IH].
  specialize (Hcb nlh e a e' b HR). destruct (f nlh (e, a)) as [r [e1 a1]], (g nlh (e', b)) as [r' [e1' b1]]. cbn [fst snd] in Hcb.
  destruct (Z.leb_spec r MNL_CB_STOP) as [Hs | Hs]; cbn [fst snd].
  - intros Hr. destruct (Hcb Hr) as [-> HR1]. by rewrite (proj2 (Z.leb_le _ _)).
  - unfold MNL_CB_STOP in Hs. destruct Hcb as [-> HR1]; [lia |]. rewrite (proj2 (Z.leb_gt _ _)) by done. by apply IH.
Qed.

Lemma recv_run_follows `{K : NetlinkKernel} {A B} (R : A -> B -> Prop) (f : callback A) (g : callback B) (turns : nat)
    (k : kstate) (nlg : mnlg_socket) (e e' : Z) (a : A) (b : B) k1 err e1 a1 :
  message_follows R f g -> R a b -> recv_run turns k nlg (Some f) (e, a) = Returns (k1, err, (e1, a1)) -> 0 <= err ->
  exists e1' b1, recv_run turns k nlg (Some g) (e', b) = Returns (k1, err, (e1', b1)) /\ R a1 b1.
Proof.
  intros Hfg. revert k e e' a b. induction turns as [|turns IH]; intros k e e' a b HR E Herr; [done |]. cbn [recv_run] in *.
  destruct (nl_recvfrom k) as [k' [x | buf]]; [injection E as <- <- <- <-; lia |].
  destruct (length buf =? 0)%nat; [injection E as <- <- <- <-; eauto |]. unfold mnl_cb_run2 in *.
  pose proof (cb_run_follows R _ _ (S (length buf)) (seq nlg) (portid nlg) buf (Z.of_nat (length buf)) MNL_CB_OK e e' a b
    (cb_for_follows R f g Hfg) HR) as H. cbv zeta in H.
  destruct (cb_run _ (cb_for (Some f) _ _) _ _ _ _ _ _) as [r [e2 a2]], (cb_run _ (cb_for (Some g) _ _) _ _ _ _ _ _) as [r' [e2' b2]].
  cbn [fst snd] in *. destruct (Z.ltb_spec 0 r) as [Hr | Hr].
  - destruct H as [-> HR2]; [lia |]. rewrite (proj2 (Z.ltb_lt _ _)) by done. by eapply IH.
  - injection E as <- <- <- <-. destruct (H Herr) as [-> HR2]. rewrite (proj2 (Z.ltb_ge _ _)) by done. eauto.
Qed.

(** ** Opening *)

(** The attributes of the family are found whatever [errno] was. *)
Lemma family_attrs_follow : follows (fun x y => snd x = snd y) get_family_id_attr_cb get_family_id_attr_cb.
Proof.
  intros attr [e [i v]] [e' [i' v']] [= -> ->]. unfold get_family_id_attr_cb. by repeat case_match.
Qed.

Lemma family_follows (s p : Z) :
  message_follows (fun nlg i => i = id nlg /\ seq nlg = s /\ portid nlg = p) get_family_id_cb wg_get_family_id_cb.
Proof.
  intros nlh e nlg e' i (-> & Hs & Hp). unfold get_family_id_cb, wg_get_family_id_cb, mnl_attr_parse.
  destruct (attr_loop_follows _ _ _ (S (Z.to_nat (MNL_ALIGN (nlmsg_len nlh) - (MNL_NLMSG_HDRLEN + MNL_ALIGN sizeof_genlmsghdr))))
    (mnl_nlmsg_get_payload_offset nlh sizeof_genlmsghdr) (MNL_ALIGN (nlmsg_len nlh) - (MNL_NLMSG_HDRLEN + MNL_ALIGN sizeof_genlmsghdr))
    MNL_CB_OK (e, (None, None)) (e', (None, None)) family_attrs_follow eq_refl) as [_ E].
  destruct (attr_loop _ _ _ _ _ (e, _)) as [r [e1 tb]], (attr_loop _ _ _ _ _ (e', _)) as [r' [e1' tb']]. cbn [snd] in E. subst tb'.
  destruct tb as [[tb_id |] [tb_version |]]; cbn [fst snd id seq portid]; try done.
Qed.

Lemma socket_open_agrees `{K : NetlinkKernel} (fuel : nat) (k : kstate) (family : list byte) (v : Z) k1 nlg :
  mnlg_socket_open fuel k family = Returns (k1, inr nlg) ->
  wg_mnlg_socket_open fuel k family v = Returns (k1, inr (MnlgSocket (id nlg) v (seq nlg) (portid nlg))).
Proof.
  unfold mnlg_socket_open, wg_mnlg_socket_open. destruct (nl_open k NETLINK_GENERIC) as [k' [e | port]]; [done |].
  set (nlg0 := mnlg_msg_prepare k' _). destruct (nl_sendto _ _) as [k2 [e |]]; [done |]. unfold mnlg_socket_recv_run.
  destruct (recv_run fuel k2 nlg0 (Some get_family_id_cb) (0, nlg0)) as [[[k3 err] [errno nlg']] | |] eqn:Er; cbn [obind]; try done.
  destruct (Z.ltb_spec err 0); [done |]. intros [= <- <-].
  destruct (recv_run_follows _ _ _ fuel k2 nlg0 0 0 nlg0 0 k3 err errno nlg' (family_follows (seq nlg0) (portid nlg0)))
    as (e1 & i & -> & -> & Hs & Hp); [done.. |].
  cbn [obind]. rewrite (proj2 (Z.ltb_ge _ _)) by done. by rewrite Hs, Hp.
Qed.

(** C29: To a kernel module that reports version 1 of the protocol, the only one the library
    speaks, [wg_set_device] does what [kernel_set_device] does for the same device with
    nothing of AmneziaWG set: the same messages in the same order, split at the same peers
    and allowed IPs, and the same result. *)
Theorem wg_set_device_agrees `{Platform} `{K : NetlinkKernel} (uninit : nat -> byte) (buffer_size : Z) (fuel turns : nat)
    (k k1 : kstate) (nlg : mnlg_socket) (dev : wg_device) :
  mnlg_socket_open fuel k WG_GENL_NAME = Returns (k1, inr nlg) -> version nlg = WG_GENL_VERSION ->
  wg_set_device uninit buffer_size fuel turns k dev = kernel_set_device uninit buffer_size fuel turns k (full_device dev).
Proof.
  intros Eo Hv. unfold wg_set_device, kernel_set_device. rewrite (socket_open_agrees _ _ _ WG_GENL_VERSION _ _ Eo), Eo.
  cbn [obind]. rewrite <- Hv. destruct nlg as [i v s p]. cbn [id version seq portid]. symmetry. apply (set_loop_full _ _ _ _ _ _ dev []).
Qed.

(** ** Reading *)

Definition plain_peer (p : wgpeer) : wg_peer :=
  WgLibPeer (Z.land (peer_flags p) 31) (peer_public_key p) (preshared_key p) (endpoint p) (last_handshake_time p)
    (rx_bytes p) (tx_bytes p) (persistent_keepalive_interval p) (allowedips p).

Definition plain_device (d : wgdevice) : wg_device :=
  WgLibDevice (name d) (ifindex d) (Z.land (flags d) 31) (public_key d) (private_key d) (fwmark d) (listen_port d)
    (map plain_peer (peers d)).

(** A flag of the library is kept, one of AmneziaWG is not. *)
Lemma plain_flag (fl f : Z) : Z.land (Z.lor fl f) 31 = Z.lor (Z.land fl 31) (Z.land f 31).
Proof. apply Z.land_lor_distr_l. Qed.

Lemma allowedip_follows : follows (fun x y => snd x = snd y) parse_allowedip parse_allowedip.
Proof.
  intros attr [e a] [e' a'] [= ->]. unfold parse_allowedip, if_valid. split; [done |].
  cbn [fst snd]. repeat case_match; simplify_eq/=; done.
Qed.

Definition plain_peer_of (x : Z * wgpeer) (y : Z * wg_peer) : Prop := snd y = plain_peer (snd x).
Definition plain_device_of (x : Z * wgdevice) (y : Z * wg_device) : Prop := snd y = plain_device (snd x).

Lemma nested_follows {A B} (R : A -> B -> Prop) cb cb' (attr : nlattr) (a : A) (b : B) : follows R cb cb' -> R a b ->
  fst (mnl_attr_parse_nested attr cb' b) = fst (mnl_attr_parse_nested attr cb a)
  /\ R (snd (mnl_attr_parse_nested attr cb a)) (snd (mnl_attr_parse_nested attr cb' b)).
Proof. apply attr_loop_follows. Qed.

Lemma allowedips_follow : follows plain_peer_of parse_allowedips wg_parse_allowedips.
Proof.
  intros attr [e p] [e' p'] E. unfold plain_peer_of in *. cbn [snd] in E. subst p'. unfold parse_allowedips, wg_parse_allowedips.
  destruct (nested_follows _ _ _ attr (e, zero_allowedip) (e', zero_allowedip) allowedip_follows eq_refl) as [Er Ea].
  destruct (mnl_attr_parse_nested _ _ (e, _)) as [r [e1 a]], (mnl_attr_parse_nested _ _ (e', _)) as [r' [e1' a']].
  cbn [fst snd] in *. subst r' a'. repeat case_match; simplify_eq/=; done.
Qed.

Lemma if_valid_plain {A B} (plain : A -> B) (attr : nlattr) (type : mnl_attr_data_type) (f : A -> A) (g : B -> B) (e e' : Z) (a : A) :
  g (plain a) = plain (f a) -> snd (if_valid attr type g (e', plain a)) = plain (snd (if_valid attr type f (e, a))).
Proof. intros E. unfold if_valid. by destruct (mnl_attr_validate attr type). Qed.

Lemma if_len_plain {A B} (plain : A -> B) (attr : nlattr) (n : nat) (f : A -> A) (g : B -> B) (e e' : Z) (a : A) :
  g (plain a) = plain (f a) -> snd (if_len attr n g (e', plain a)) = plain (snd (if_len attr n f (e, a))).
Proof. intros E. unfold if_len. by destruct (_ =? _). Qed.

(** An attribute that the library does not know. *)
Lemma if_valid_other {A B} (plain : A -> B) (attr : nlattr) (type : mnl_attr_data_type) (f : A -> A) (e : Z) (a : A) :
  plain (f a) = plain a -> plain a = plain (snd (if_valid attr type f (e, a))).
Proof. intros E. unfold if_valid. by destruct (mnl_attr_validate attr type). Qed.

Lemma plain_set_peer_flag (f : Z) (p : wgpeer) : Z.land f 31 = f -> wg_set_peer_flag f (plain_peer p) = plain_peer (set_peer_flag f p).
Proof. intros E. unfold plain_peer, set_peer_flag, wg_set_peer_flag. cbn. by rewrite plain_flag, E. Qed.

Lemma plain_no_peer_flag (p : wgpeer) : plain_peer (set_peer_flag WGPEER_HAS_AWG p) = plain_peer p.
Proof.
  unfold plain_peer, set_peer_flag. cbn. rewrite plain_flag. change (Z.land WGPEER_HAS_AWG 31) with 0. by rewrite Z.lor_0_r.
Qed.

Lemma plain_set_dev_flag (f : Z) (d : wgdevice) : Z.land f 31 = f -> wg_set_dev_flag f (plain_device d) = plain_device (set_dev_flag f d).
Proof. intros E. unfold plain_device, set_dev_flag, wg_set_dev_flag. cbn. by rewrite plain_flag, E. Qed.

Lemma plain_no_dev_flag (f : Z) (d : wgdevice) : Z.land f 31 = 0 -> plain_device (set_dev_flag f d) = plain_device d.
Proof. intros E. unfold plain_device, set_dev_flag. cbn. by rewrite plain_flag, E, Z.lor_0_r. Qed.

Lemma wg_key_is_zero_eq (key : list byte) : wg_key_is_zero key = key_is_zero key.
Proof. unfold wg_key_is_zero, key_is_zero. change WG_KEY_LEN with 32%nat. reflexivity. Qed.

Lemma peer_follows : follows plain_peer_of parse_peer wg_parse_peer.
Proof.
  intros attr [e p] [e' p'] E. unfold plain_peer_of in E. cbn [snd] in E. subst p'. unfold parse_peer, wg_parse_peer. cbv zeta.
  set (t := mnl_attr_get_type attr). set (data := mnl_attr_get_payload attr).
  destruct (t =? WGPEER_A_PUBLIC_KEY). { split; [done |]. apply if_len_plain. by rewrite <- plain_set_peer_flag. }
  destruct (t =? WGPEER_A_PRESHARED_KEY).
  { split; [done |]. apply if_len_plain. set (key := take 32 data). rewrite wg_key_is_zero_eq.
    change (preshared_key (p <| preshared_key := key |>)) with key.
    change (p_preshared_key ((plain_peer p) <| p_preshared_key := key |>)) with key.
    destruct (key_is_zero key); [done | by rewrite <- plain_set_peer_flag]. }
  destruct (t =? WGPEER_A_ENDPOINT). { split; [done |]. unfold plain_peer_of. cbn [fst snd]. by repeat case_match. }
  destruct (t =? WGPEER_A_PERSISTENT_KEEPALIVE_INTERVAL). { split; [done |]. by apply if_valid_plain. }
  destruct (t =? WGPEER_A_LAST_HANDSHAKE_TIME). { split; [done |]. by apply if_len_plain. }
  destruct (t =? WGPEER_A_RX_BYTES). { split; [done |]. by apply if_valid_plain. }
  destruct (t =? WGPEER_A_TX_BYTES). { split; [done |]. by apply if_valid_plain. }
  destruct (Z.eqb_spec t WGPEER_A_FLAGS) as [-> |].
  { split; [done |]. apply (if_valid_other plain_peer). case_match; [| done]. apply plain_no_peer_flag. }
  destruct (Z.eqb_spec t WGPEER_A_AWG) as [-> |].
  { split; [done |]. apply (if_valid_other plain_peer). cbv zeta. case_match; [done |]. by rewrite plain_no_peer_flag. }
  destruct (t =? WGPEER_A_ALLOWEDIPS); [apply (nested_follows plain_peer_of); [apply allowedips_follow | done] | done].
Qed.

Lemma peers_follow : follows plain_device_of parse_peers wg_parse_peers.
Proof.
  intros attr [e d] [e' d'] E. unfold plain_device_of in *. cbn [snd] in E. subst d'. unfold parse_peers, wg_parse_peers.
  destruct (nested_follows _ _ _ attr (e, zero_peer) (e', wg_zero_peer) peer_follows eq_refl) as [Er Ea].
  destruct (mnl_attr_parse_nested _ _ (e, _)) as [r [e1 p]], (mnl_attr_parse_nested _ _ (e', _)) as [r' [e1' p']].
  unfold plain_peer_of in Ea. cbn [fst snd] in *. subst r' p'. cbn [plain_peer p_flags]. low_flags.
  assert ((plain_device d) <| d_peers ::= fun l => l ++ [plain_peer p] |> = plain_device (d <| peers ::= fun l => l ++ [p] |>)) as ->.
  { unfold plain_device. cbn. by rewrite map_app. }
  repeat case_match; simplify_eq/=; done.
Qed.

Lemma magic_header_other (attr : nlattr) (set : list byte -> wgdevice -> wgdevice) (f e : Z) (d : wgdevice) :
  Z.land f 31 = 0 -> (forall v, plain_device (set v d) = plain_device d) ->
  plain_device d = plain_device (snd (GET_MAGIC_HEADER attr set f (e, d))).
Proof.
  intros Hf Hset. unfold GET_MAGIC_HEADER. destruct (mnl_attr_validate attr MNL_TYPE_U32); cbn [fst snd].
  - apply if_valid_other. by rewrite plain_no_dev_flag.
  - by rewrite plain_no_dev_flag.
Qed.

Lemma device_follows : follows plain_device_of parse_device wg_parse_device.
Proof.
  intros attr [e d] [e' d'] E. unfold plain_device_of in E. cbn [snd] in E. subst d'. unfold parse_device, wg_parse_device. cbv zeta.
  set (t := mnl_attr_get_type attr). set (data := mnl_attr_get_payload attr).
  destruct (t =? WGDEVICE_A_IFINDEX). { split; [done |]. by apply if_valid_plain. }
  destruct (t =? WGDEVICE_A_IFNAME). { split; [done |]. by apply if_valid_plain. }
  destruct (t =? WGDEVICE_A_PRIVATE_KEY). { split; [done |]. apply if_len_plain. by rewrite <- plain_set_dev_flag. }
  destruct (t =? WGDEVICE_A_PUBLIC_KEY). { split; [done |]. apply if_len_plain. by rewrite <- plain_set_dev_flag. }
  destruct (t =? WGDEVICE_A_LISTEN_PORT). { split; [done |]. by apply if_valid_plain. }
  destruct (t =? WGDEVICE_A_FWMARK). { split; [done |]. by apply if_valid_plain. }
  destruct (t =? WGDEVICE_A_PEERS); [apply (nested_follows plain_device_of); [apply peers_follow | done] |].
  repeat (case_match; [split; [done |]; first [apply (if_valid_other plain_device); by rewrite plain_no_dev_flag | by apply magic_header_other] |]).
  done.
Qed.

Lemma read_device_follows : message_follows (fun d d' => d' = plain_device d) read_device_cb wg_read_device_cb.
Proof.
  intros nlh e d e' d' ->. intros _.
  destruct (attr_loop_follows plain_device_of _ _ (S (Z.to_nat (MNL_ALIGN (nlmsg_len nlh) - (MNL_NLMSG_HDRLEN + MNL_ALIGN sizeof_genlmsghdr))))
    (mnl_nlmsg_get_payload_offset nlh sizeof_genlmsghdr) (MNL_ALIGN (nlmsg_len nlh) - (MNL_NLMSG_HDRLEN + MNL_ALIGN sizeof_genlmsghdr))
    MNL_CB_OK (e, d) (e', plain_device d) device_follows eq_refl) as [E1 E2]. split; [exact E1 | exact E2].
Qed.

(** Joining the fragments looks at keys and allowed IPs only. *)
Lemma coalesce_from_plain (p : wgpeer) (last_null : bool) (next : list wgpeer) :
  wg_coalesce_from (plain_peer p) last_null (map plain_peer next)
  = option_map (map plain_peer) (coalesce_from p last_null next).
Proof.
  revert p last_null. induction next as [|q next IH]; intros p last_null; [done |]. cbn [map wg_coalesce_from coalesce_from].
  cbn [plain_peer p_allowedips p_public_key].
  destruct (negb (memcmp _ _ =? 0)); [rewrite IH; by destruct (coalesce_from q _ next) |].
  destruct (length (allowedips p) =? 0)%nat; [by rewrite <- IH |]. destruct last_null; [done |]. by rewrite <- IH.
Qed.

Lemma coalesce_peers_plain (d : wgdevice) : wg_coalesce_peers (plain_device d) = option_map plain_device (coalesce_peers d).
Proof.
  unfold wg_coalesce_peers, coalesce_peers. cbn [plain_device d_peers]. destruct (peers d) as [|p next] eqn:E; [done |]. cbn [map].
  rewrite coalesce_from_plain. cbn [plain_peer p_allowedips]. by destruct (coalesce_from p _ next).
Qed.

Section Get_agrees.
Context `{K : NetlinkKernel} (fuel : nat).

Lemma get_try_agrees (k k1 k' : kstate) (nlg : mnlg_socket) (iface : list byte) (d : wgdevice) :
  mnlg_socket_open fuel k WG_GENL_NAME = Returns (k1, inr nlg) -> version nlg = WG_GENL_VERSION ->
  get_try fuel k iface = Returns (k', Got d) -> wg_get_try fuel k iface = Returns (k', WgGot (plain_device d)).
Proof.
  intros Eo Hv. unfold get_try, wg_get_try. rewrite Eo, (socket_open_agrees _ _ _ WG_GENL_VERSION _ _ Eo). cbn [obind].
  rewrite <- Hv. destruct nlg as [i v s p]. cbn [mnlg_msg_prepare id version seq portid].
  destruct (nl_sendto _ _) as [k2 [e |]]; [done |]. unfold mnlg_socket_recv_run.
  destruct (recv_run fuel k2 _ (Some read_device_cb) (0, zero_device)) as [[[k3 err] [errno raw]] | |] eqn:Er; cbn [obind]; try done.
  destruct (Z.ltb_spec err 0); [done |].
  destruct (recv_run_follows _ _ _ _ _ _ 0 0 zero_device wg_zero_device _ _ _ _ read_device_follows eq_refl Er)
    as (e1 & b1 & -> & ->); [done |].
  cbn [obind]. rewrite (proj2 (Z.ltb_ge _ _)) by done. rewrite coalesce_peers_plain.
  destruct (coalesce_peers raw) as [d' |]; [| done]. by intros [= <- <-].
Qed.

(** C30: Of a dump that is not interrupted, from a module that reports version 1,
    [wg_get_device] returns what the tools read of it, less the fields of AmneziaWG, and talks
    to the kernel as they do: keys, endpoints, counters, and the peers with the allowed IPs of
    their fragments joined. *)
Theorem wg_get_device_agrees (tries : nat) (k k1 k' : kstate) (nlg : mnlg_socket) (iface : list byte) (d : wgdevice) :
  mnlg_socket_open fuel k WG_GENL_NAME = Returns (k1, inr nlg) -> version nlg = WG_GENL_VERSION ->
  get_try fuel k iface = Returns (k', Got d) -> (length iface < IFNAMSIZ)%nat ->
  kernel_get_device fuel (S tries) k iface = Returns (k', inr d)
  /\ wg_get_device fuel (S tries) k iface = Returns (k', inr (plain_device d)).
Proof.
  intros Eo Hv Et Hn. split.
  - unfold kernel_get_device. rewrite (proj2 (Nat.leb_gt _ _)) by done. cbn [get_loop]. by rewrite Et.
  - unfold wg_get_device. cbn [wg_get_loop]. by rewrite (get_try_agrees _ _ _ _ _ _ Eo Hv Et).
Qed.

Context `{!NetlinkKernelLaws K}.

(** A try that fails has an error. *)
Lemma get_try_fails (k k' : kstate) (iface : list byte) (r : Z) : wg_get_try fuel k iface = Returns (k', WgFailed r) -> r <> 0.
Proof.
  unfold wg_get_try. destruct (wg_mnlg_socket_open _ _ _ _) as [[k1 [e | nlg]] | |]; cbn [obind]; try done.
  destruct (nl_sendto _ _) as [k2 [e |]] eqn:Es; [intros [= _ <-]; apply send_errno in Es; lia |].
  destruct (mnlg_socket_recv_run _ _ _ _ _) as [[[k3 err] [errno raw]] | |]; cbn [obind]; try done.
  destruct (err <? 0); [| by destruct (wg_coalesce_peers raw)]. intros [= _ <-].
  destruct (Z.eqb_spec errno 0); cbn [negb]; [unfold EINVAL |]; lia.
Qed.

(** Once [ret] is the error of an interrupted dump no device is returned. *)
Lemma get_loop_stuck (tries : nat) (k k' : kstate) (iface : list byte) (d : wg_device) :
  wg_get_loop fuel tries k iface (- EINTR) <> Returns (k', inr d).
Proof.
  revert k. induction tries as [|tries IH]; intros k E; [done |]. cbn [wg_get_loop] in E.
  destruct (wg_get_try fuel k iface) as [[k1 [e | r | d']] | |] eqn:Et; cbn [obind] in E; try done; [| by apply IH in E].
  apply get_try_fails in Et. rewrite (proj2 (Z.eqb_neq _ _)) in E by done.
  destruct (Z.eqb_spec r (- EINTR)) as [-> |]; [by apply IH in E | done].
Qed.

(** C28: [wg_get_device] does not recover from an interrupted dump, although it goes back to
    read again: [ret] keeps the error, so no later dump, however complete, is ever returned;
    and as long as the dumps are complete it reads again for ever. *)
Theorem wg_get_device_interrupted (k k1 : kstate) (iface : list byte) :
  wg_get_try fuel k iface = Returns (k1, WgFailed (- EINTR)) ->
  (forall tries k' d, wg_get_device fuel tries k iface <> Returns (k', inr d))
  /\ (forall steady : kstate -> Prop, steady k1 ->
      (forall k, steady k -> exists k' d, wg_get_try fuel k iface = Returns (k', WgGot d) /\ steady k') ->
      forall tries, wg_get_device fuel tries k iface = OutOfFuel).
Proof.
  intros Et. assert (forall tries, wg_get_device fuel (S tries) k iface = wg_get_loop fuel tries k1 iface (- EINTR)) as E.
  { intros tries. unfold wg_get_device. cbn [wg_get_loop]. rewrite Et. cbn [obind]. by rewrite Z.eqb_refl. }
  split.
  - intros [|tries] k' d; [done |]. rewrite E. apply get_loop_stuck.
  - intros steady Hk1 Hsteady [|tries]; [done |]. rewrite E. clear E Et. revert k1 Hk1.
    induction tries as [|tries IH]; intros k1 Hk1; [done |]. cbn [wg_get_loop].
    destruct (Hsteady k1 Hk1) as (k2 & d & -> & Hk2). cbn [obind]. by apply IH.
Qed.

End Get_agrees.

(** ** Interfaces *)

Lemma nlmsg_seq_front (request buf : list byte) : (12 <= length buf)%nat -> nlmsg_seq (memcpy_front request buf) = nlmsg_seq buf.
Proof.
  intros Hl. unfold nlmsg_seq, get_u32_at, memcpy_front. f_equal. rewrite drop_app_le by lia. apply take_app_le. rewrite length_drop. lia.
Qed.

Lemma s32_neg (e : Z) : 0 <= e < 2 ^ 31 -> s32 (- e mod 2 ^ 32) = - e.
Proof.
  intros He. unfold s32, u32, uw. rewrite Z.mod_mod by lia.
  destruct (decide (e = 0)) as [-> | Hz]; [done |]. rewrite Z.mod_opp_l_nz, Z.mod_small by (rewrite ?Z.mod_small; lia).
  rewrite (proj2 (Z.leb_le _ _)) by lia. lia.
Qed.

(** The answer to a request, with its error. *)
Lemma ack_error {A} (errno : Z) (request : list byte) (st : Z * A) : 0 <= errno < 2 ^ 31 -> (16 <= length request)%nat ->
  mnl_cb_error (ack_msg errno request) st = (if errno =? 0 then MNL_CB_STOP else MNL_CB_ERROR, (errno, snd st)).
Proof.
  intros He Hl. destruct st as [e a]. unfold mnl_cb_error, ack_msg. set (body := bytes_le 4 _ ++ _).
  assert (total_len body = 36) as Ht.
  { unfold total_len. subst body. rewrite length_app, bytes_le_length, length_take_le by lia. done. }
  destruct (nlmsg_fields NLMSG_ERROR 0 (nlmsg_seq request) body [] ltac:(lia)) as (Hlen & _). rewrite app_nil_r in Hlen.
  rewrite Hlen, Ht. change (36 <? mnl_nlmsg_size sizeof_nlmsgerr) with false. cbv iota.
  assert (get_u32_at (mnl_nlmsg_get_payload (nlmsg NLMSG_ERROR 0 (nlmsg_seq request) body)) 0 = - errno mod 2 ^ 32) as ->.
  { change (mnl_nlmsg_get_payload (nlmsg NLMSG_ERROR 0 (nlmsg_seq request) body)) with body.
    unfold get_u32_at. rewrite drop_0. subst body. rewrite take_app_length' by done. apply le_bytes_bytes_le. }
  rewrite s32_neg by done. cbn [snd]. destruct (Z.eqb_spec errno 0) as [-> |]; [done |].
  rewrite (proj2 (Z.eqb_neq _ _)), (proj2 (Z.ltb_lt _ _)) by lia. by rewrite Z.opp_involutive.
Qed.

Section Answer.
Context (errno : Z) (other : list byte) (He : 0 <= errno < 2 ^ 31) (Hl : (16 <= length other)%nat).

Lemma ack_body_length : length (bytes_le 4 (- errno) ++ take 16 other) = 20%nat.
Proof using Hl. rewrite length_app, bytes_le_length, length_take_le; lia. Qed.

Lemma ack_seq : nlmsg_seq (ack_msg errno other) = nlmsg_seq other /\ 0 <= nlmsg_seq other < 2 ^ 32.
Proof using Hl.
  assert (0 <= nlmsg_seq other < 2 ^ 32) as Hseq.
  { unfold nlmsg_seq, get_u32_at. pose proof (le_bytes_range (take 4 (drop 8 other))) as H.
    rewrite length_take_le in H by (rewrite length_drop; lia). exact H. }
  split; [| done]. unfold ack_msg.
  destruct (nlmsg_fields NLMSG_ERROR 0 (nlmsg_seq other) (bytes_le 4 (- errno) ++ take 16 other) []) as (_ & _ & _ & E & _).
  - unfold total_len. by rewrite ack_body_length.
  - rewrite app_nil_r in E. rewrite E. unfold u32. by rewrite uw_small.
Qed.

Lemma ack_length : length (ack_msg errno other) = 36%nat.
Proof using Hl.
  apply Nat2Z.inj. unfold ack_msg. rewrite nlmsg_length. unfold total_len. by rewrite ack_body_length.
Qed.

(** A run over an acknowledgement, compared with its own sequence number. *)
Lemma ack_run {A} (port : Z) (st : Z * A) :
  mnl_cb_run (ack_msg errno other) (nlmsg_seq other) port None st
  = (if errno =? 0 then MNL_CB_STOP else MNL_CB_ERROR, (errno, snd st)).
Proof using He Hl.
  destruct ack_seq as [_ Hseq]. unfold mnl_cb_run. pose proof ack_body_length as Hb. rewrite <- (app_nil_r (ack_msg errno other)).
  rewrite app_nil_r at 1. unfold ack_msg at 2 3. rewrite (cb_run_first _ _ mnl_cb_error); [| done | done | done | | | done].
  - fold (ack_msg errno other). rewrite app_nil_r, ack_error by done. by destruct (errno =? 0).
  - unfold aligned. by rewrite Hb.
  - unfold total_len. by rewrite Hb.
Qed.

End Answer.

(** [wg_add_device] and [wg_del_device] return the error of the first acknowledgement they
    receive, whatever request it is for: the sequence number it is compared with is read from
    the buffer after the answer has replaced the request in it, so the comparison always
    succeeds. *)
Theorem add_del_iface_any_answer `{K : NetlinkKernel} (k k1 k2 k3 : kstate) (ifname : list byte) (add : bool)
    (port errno : Z) (other : list byte) :
  nl_open k NETLINK_ROUTE = (k1, inr port) -> nl_sendto k1 (link_request k1 ifname add) = (k2, None) ->
  nl_recvfrom k2 = (k3, inr (ack_msg errno other)) -> (16 <= length other)%nat -> 0 <= errno < 2 ^ 31 ->
  add_del_iface k ifname add = (k3, - errno).
Proof.
  intros Eo Es Er Hl He. unfold add_del_iface. rewrite Eo, Es, Er.
  rewrite nlmsg_seq_front by (rewrite ack_length by done; lia). destruct (ack_seq errno other Hl) as [-> _].
  rewrite ack_run by done. destruct (Z.eqb_spec errno 0) as [-> |]; done.
Qed.

(** ** Kernels of version 1 *)

Definition family_v1 (msg : list byte) : list byte :=
  nlmsg GENL_ID_CTRL 0 (nlmsg_seq msg)
    (genlmsghdr 1 2 ++ tlvs [(CTRL_ATTR_FAMILY_ID, bytes_le 2 29); (CTRL_ATTR_VERSION, bytes_le 4 1)]).

(** Acknowledges requests, and answers a dump with [odd_dump]. *)
Definition kernel_v1 : nat -> list byte -> list (list byte) := fun _ msg =>
  if nlmsg_type msg =? GENL_ID_CTRL then [family_v1 msg; ack_msg 0 msg]
  else if Z.land (nlmsg_flags msg) NLM_F_DUMP =? 0 then [ack_msg 0 msg]
  else [dump_msg 29 (nlmsg_seq msg) odd_dump; done_msg (nlmsg_seq msg)].

(** Two peers, the first of which does not fit a message of 256 bytes. *)
Definition sample_wg_device : wg_device :=
  let ip n := WgAllowedip AF_INET ([x0a; x00; x00; z2b n] ++ repeat x00 12) 32 in
  let peer n ips := WgLibPeer (Z.lor WGPEER_HAS_PUBLIC_KEY WGPEER_HAS_PERSISTENT_KEEPALIVE_INTERVAL) (repeat (z2b n) 32) zero_key
                      (repeat x00 28) (Timespec64 0 0) 0 0 25 (map ip ips) in
  WgLibDevice (text "awg0") 0 (Z.lor WGDEVICE_HAS_PRIVATE_KEY WGDEVICE_HAS_LISTEN_PORT) zero_key (repeat x01 32) 0 51820
    [peer 2 [1; 2; 3; 4; 5; 6]; peer 3 [7]].

Lemma wg_set_device_agrees_witness :
  @wg_set_device (fun _ => xff) 256 (scripted kernel_v1) 5 20 (0%nat, []) sample_wg_device
  = @kernel_set_device lp64_x86 (fun _ => xff) 256 (scripted kernel_v1) 5 20 (0%nat, []) (full_device sample_wg_device).
Proof.
  apply (wg_set_device_agrees (H := lp64_x86) (K := scripted kernel_v1) (fun _ => xff) 256 5 20 (0%nat, []) (1%nat, [])
           (MnlgSocket 29 1 1700000000 4242)); vm_compute; reflexivity.
Defined.

Lemma wg_get_device_agrees_witness :
  @kernel_get_device (scripted kernel_v1) 5 1 (0%nat, []) (text "awg1") = Returns ((2%nat, []), inr odd_device)
  /\ @wg_get_device (scripted kernel_v1) 5 1 (0%nat, []) (text "awg1") = Returns ((2%nat, []), inr (plain_device odd_device)).
Proof.
  apply (wg_get_device_agrees (K := scripted kernel_v1) 5 0 (0%nat, []) (1%nat, []) (2%nat, []) (MnlgSocket 29 1 1700000000 4242)).
  - vm_compute. reflexivity.
  - reflexivity.
  - vm_compute. reflexivity.
  - vm_compute. lia.
Defined.

(** Interrupts its first dump only; the state is whether it has. *)
Definition flaky : NetlinkKernel := {|
  kstate := bool * list (list byte);
  nl_time k := 1700000000;
  nl_open k bus := (k, inr 4242);
  nl_sendto k msg :=
    (if nlmsg_type msg =? GENL_ID_CTRL then (fst k, [family_v1 msg; ack_msg 0 msg])
     else (true, if fst k then [dump_msg 29 (nlmsg_seq msg) odd_dump; done_msg (nlmsg_seq msg)]
                 else [nlmsg 29 (Z.lor NLM_F_MULTI NLM_F_DUMP_INTR) (nlmsg_seq msg) odd_dump]), None);
  nl_recvfrom k :=
    match snd k with
    | [] => (k, inl EAGAIN)
    | buf :: rest =>
        ((fst k, rest), if is_datagram (length buf) buf && (Z.of_nat (length buf) <? 2 ^ 31) then inr buf else inl EAGAIN)
    end;
|}.

#[export] Instance flaky_laws : NetlinkKernelLaws flaky.
Proof.
  constructor; [done | done |]. cbn. intros [n [|b rest]] k' buf E; cbn in E; [done |].
  destruct (_ && _) eqn:Eb; [| done]. injection E as <- <-. boolz. split; [by eapply is_datagram_ok | done].
Qed.

(** The tools return the device of the second dump, the library runs for ever. *)
Lemma wg_get_device_interrupted_witness :
  @kernel_get_device flaky 5 2 (false, []) (text "awg1") = Returns ((true, []), inr odd_device)
  /\ (forall tries k' d, @wg_get_device flaky 5 tries (false, []) (text "awg1") <> Returns (k', inr d))
  /\ (forall tries, @wg_get_device flaky 5 tries (false, []) (text "awg1") = OutOfFuel).
Proof.
  split; [vm_compute; reflexivity |].
  destruct (wg_get_device_interrupted (K := flaky) 5 (false, []) (true, []) (text "awg1")) as [H1 H2]; [vm_compute; reflexivity |].
  split; [exact H1 |]. apply (H2 (fun k => k = (true, []))); [reflexivity |]. intros k ->.
  exists (true, []), (plain_device odd_device). split; [vm_compute; reflexivity | reflexivity].
Defined.

(** The answer is that to a request of an hour ago, which failed with EEXIST. *)
Lemma add_del_iface_any_answer_witness :
  @add_del_iface (scripted (fun _ _ => [ack_msg 17 (nlmsg RTM_DELLINK 5 1699996400 [])])) (0%nat, []) (text "awg0") true
  = ((1%nat, []), - 17).
Proof.
  apply (add_del_iface_any_answer (K := scripted (fun _ _ => [ack_msg 17 (nlmsg RTM_DELLINK 5 1699996400 [])]))
           (0%nat, []) (0%nat, []) (1%nat, [ack_msg 17 (nlmsg RTM_DELLINK 5 1699996400 [])]) (1%nat, []) (text "awg0") true
           4242 17 (nlmsg RTM_DELLINK 5 1699996400 [])).
  - reflexivity.
  - reflexivity.
  - vm_compute. reflexivity.
  - vm_compute. lia.
  - lia.
Defined.
