(* ===== verification/KernelImage.v ===== *)
(** * Devices that are set and read back through structures

    What the back ends of FreeBSD, OpenBSD and Windows share: the image of a device that is set
    and read back is what its flags announce, everything else zero; and words that collect
    flags. *)

From S2P Require Import Netlink Prelude CString Encoding Containers WellFormed Ipc.
#[local] Open Scope Z_scope.
#[local] Open Scope awg_scope.

(** Replaces the value of the first [let] on the left of an equation by what [tac] makes of it. *)
Ltac unlet := lazymatch goal with |- (let x := ?v in ?b) = ?r => change ((fun x => b) v = r); cbv beta end.
Ltac let_step tac :=
  lazymatch goal with
  | |- (let x := ?v in ?b) = ?r =>
      change ((fun x => b) v = r);
      let H := fresh in eassert (v = _) as H; [tac; reflexivity | rewrite H; clear H; cbv beta]
  end.

(** ** Words of flags *)

(** A field whose flag is set. *)
Definition take_if (c : bool) (f : Z) (set : wgdevice -> wgdevice) (dev : wgdevice) : wgdevice :=
  if c then set_dev_flag f (set dev) else dev.

(** A word of [w] bits that collects flags under conditions. *)
Definition flag_step (w : Z) (c : bool) (b x : Z) : Z := if c then uw w (Z.lor x b) else x.
Definition flag_word {F} (w : Z) (bit : F -> Z) (c : F -> bool) (fs : list F) : Z :=
  fold_left (fun acc f => flag_step w (c f) (bit f) acc) fs 0.

(** A flag is found again when it fits the word and its condition holds. *)
Lemma has_flag_word {F} `{EqDecision F} (w : Z) (bit : F -> Z) (fits : F -> bool) (c : F -> bool) (fs : list F) (g : F) :
  (forall f g, has_flag (bit f) (bit g) = bool_decide (f = g)) ->
  (forall a, has_flag (uw w a) (bit g) = fits g && has_flag a (bit g)) ->
  has_flag (flag_word w bit c fs) (bit g) = fits g && c g && existsb (fun f => bool_decide (f = g)) fs.
Proof.
  intros Hbit Hfit. unfold flag_word.
  assert (forall acc, has_flag acc (bit g) = fits g && has_flag acc (bit g) ->
          has_flag (fold_left (fun acc f => flag_step w (c f) (bit f) acc) fs acc) (bit g)
          = has_flag acc (bit g) || (fits g && c g && existsb (fun f => bool_decide (f = g)) fs)) as H.
  { induction fs as [|f fs IH]; intros acc Hacc; cbn [fold_left existsb]; [by rewrite andb_false_r, orb_false_r |].
    unfold flag_step at 2. rewrite IH by (destruct (c f); [rewrite Hfit; by destruct (fits g) | done]).
    revert Hacc. destruct (c f) eqn:Ec; rewrite ?Hfit, ?has_flag_lor, ?Hbit;
      (destruct (bool_decide_reflect (f = g)) as [-> | Hne]; rewrite ?Ec);
      by destruct (has_flag acc (bit g)), (fits g), (existsb _ fs), (c g). }
  rewrite H by (cbn; by rewrite andb_false_r). done.
Qed.

(** ** Flags that do not cross the boundary *)

Lemma has_flag_mask (a m f : Z) : has_flag (Z.land a m) f = negb (Z.land a (Z.land m f) =? 0).
Proof. unfold has_flag. by rewrite Z.land_assoc. Qed.

(** The device without some of its flags. *)
Definition drop_flags (m : Z) (d : wgdevice) : wgdevice := d <| flags ::= fun fl => Z.ldiff fl m |>.

Lemma has_dropped (m : Z) (d : wgdevice) (f : Z) : has_flag (flags (drop_flags m d)) f = has_flag (flags d) (Z.ldiff f m).
Proof.
  unfold has_flag, drop_flags. cbn [modify flags]. do 2 f_equal. apply Z.bits_inj'. intros n Hn. cbn -[Z.ldiff Z.land].
  rewrite !Z.land_spec, !Z.ldiff_spec. by destruct (Z.testbit (flags d) n), (Z.testbit f n), (Z.testbit m n).
Qed.

Lemma dropped_has (m : Z) (d : wgdevice) (f : Z) : has_flag (flags (drop_flags m d)) f = true -> has_flag (flags d) f = true.
Proof.
  unfold has_flag, drop_flags. cbn [modify flags]. intros H. apply negb_true_iff, Z.eqb_neq. apply negb_true_iff, Z.eqb_neq in H.
  contradict H. apply Z.bits_inj'. intros n Hn. apply (f_equal (fun z => Z.testbit z n)) in H. revert H. cbn -[Z.ldiff Z.land Z.testbit].
  rewrite !Z.land_spec, !Z.ldiff_spec, Z.bits_0. by destruct (Z.testbit (flags d) n), (Z.testbit f n), (Z.testbit m n).
Qed.

(** The strings that are announced are fewer. *)
Lemma dropped_present (m : Z) (d : wgdevice) : strings_present d = true -> strings_present (drop_flags m d) = true.
Proof.
  unfold strings_present. rewrite !forallb_forall. intros H [f s] Hin. specialize (H (f, s) Hin). cbv beta match in *.
  destruct (has_flag (flags (drop_flags m d)) f) eqn:E; [| done]. by rewrite (dropped_has _ _ _ E) in H.
Qed.

(** ** The image of a device *)

Section Image.
(** What is read of an endpoint. *)
Context (endpoint_image : list byte -> list byte).

(** Of the address only the bytes of its family. *)
Definition io_ip_image (a : wgallowedip) : wgallowedip :=
  WgAllowedip (family a)
    (if family a =? AF_INET then ip4 a ++ repeat x00 12 else ip a)
    (cidr a).

(** A preshared key of zeros counts as none. *)
Definition io_peer_image (p : wgpeer) : wgpeer :=
  let has := has_flag (peer_flags p) in
  let psk := has WGPEER_HAS_PRESHARED_KEY in
  let pka := has WGPEER_HAS_PERSISTENT_KEEPALIVE_INTERVAL in
  WgPeer
    (Z.lor (Z.lor WGPEER_HAS_PUBLIC_KEY (if psk && negb (key_is_zero (preshared_key p)) then WGPEER_HAS_PRESHARED_KEY else 0))
       (if pka then WGPEER_HAS_PERSISTENT_KEEPALIVE_INTERVAL else 0))
    (peer_public_key p) (if psk then preshared_key p else zero_key)
    (endpoint_image (endpoint p))
    (Timespec64 0 0) 0 0 (if pka then persistent_keepalive_interval p else 0) false
    (map io_ip_image (allowedips p)).

(** The flags that are read back. *)
Definition io_flags : list Z :=
  [WGDEVICE_HAS_LISTEN_PORT; WGDEVICE_HAS_JC; WGDEVICE_HAS_JMIN; WGDEVICE_HAS_JMAX; WGDEVICE_HAS_S1; WGDEVICE_HAS_S2;
   WGDEVICE_HAS_S3; WGDEVICE_HAS_S4; WGDEVICE_HAS_H1; WGDEVICE_HAS_H2; WGDEVICE_HAS_H3; WGDEVICE_HAS_H4; WGDEVICE_HAS_I1;
   WGDEVICE_HAS_I2; WGDEVICE_HAS_I3; WGDEVICE_HAS_I4; WGDEVICE_HAS_I5; WGDEVICE_HAS_FWMARK; WGDEVICE_HAS_PRIVATE_KEY].
Definition IO_FLAGS : Z := fold_left Z.lor io_flags 0.

(** The device that was set, without its peers: the fields whose flags it has, everything else
    zero. *)
Definition io_front_image (nm : list byte) (d : wgdevice) : wgdevice :=
  let has := has_flag (flags d) in
  let number f (v : Z) := if has f then v else 0 in
  let str f (s : option (list byte)) := if has f then s else None in
  WgDevice nm 0 (Z.land (flags d) IO_FLAGS) zero_key
    (if has WGDEVICE_HAS_PRIVATE_KEY then private_key d else zero_key)
    (number WGDEVICE_HAS_FWMARK (fwmark d)) (number WGDEVICE_HAS_LISTEN_PORT (listen_port d)) []
    (number WGDEVICE_HAS_JC (junk_packet_count d))
    (number WGDEVICE_HAS_JMIN (junk_packet_min_size d))
    (number WGDEVICE_HAS_JMAX (junk_packet_max_size d))
    (number WGDEVICE_HAS_S1 (init_packet_junk_size d))
    (number WGDEVICE_HAS_S2 (response_packet_junk_size d))
    (number WGDEVICE_HAS_S3 (cookie_reply_packet_junk_size d))
    (number WGDEVICE_HAS_S4 (transport_packet_junk_size d))
    (str WGDEVICE_HAS_H1 (init_packet_magic_header d))
    (str WGDEVICE_HAS_H2 (response_packet_magic_header d))
    (str WGDEVICE_HAS_H3 (underload_packet_magic_header d))
    (str WGDEVICE_HAS_H4 (transport_packet_magic_header d))
    (str WGDEVICE_HAS_I1 (i1 d)) (str WGDEVICE_HAS_I2 (i2 d)) (str WGDEVICE_HAS_I3 (i3 d))
    (str WGDEVICE_HAS_I4 (i4 d)) (str WGDEVICE_HAS_I5 (i5 d)).

(** The same as it is read, where a string is never NULL. *)
Definition io_front_read (nm : list byte) (d : wgdevice) : wgdevice :=
  let has := has_flag (flags d) in
  let number f (v : Z) := if has f then v else 0 in
  let str f (s : option (list byte)) := if has f then Some (default [] s) else None in
  WgDevice nm 0 (Z.land (flags d) IO_FLAGS) zero_key
    (if has WGDEVICE_HAS_PRIVATE_KEY then private_key d else zero_key)
    (number WGDEVICE_HAS_FWMARK (fwmark d)) (number WGDEVICE_HAS_LISTEN_PORT (listen_port d)) []
    (number WGDEVICE_HAS_JC (junk_packet_count d))
    (number WGDEVICE_HAS_JMIN (junk_packet_min_size d))
    (number WGDEVICE_HAS_JMAX (junk_packet_max_size d))
    (number WGDEVICE_HAS_S1 (init_packet_junk_size d))
    (number WGDEVICE_HAS_S2 (response_packet_junk_size d))
    (number WGDEVICE_HAS_S3 (cookie_reply_packet_junk_size d))
    (number WGDEVICE_HAS_S4 (transport_packet_junk_size d))
    (str WGDEVICE_HAS_H1 (init_packet_magic_header d))
    (str WGDEVICE_HAS_H2 (response_packet_magic_header d))
    (str WGDEVICE_HAS_H3 (underload_packet_magic_header d))
    (str WGDEVICE_HAS_H4 (transport_packet_magic_header d))
    (str WGDEVICE_HAS_I1 (i1 d)) (str WGDEVICE_HAS_I2 (i2 d)) (str WGDEVICE_HAS_I3 (i3 d))
    (str WGDEVICE_HAS_I4 (i4 d)) (str WGDEVICE_HAS_I5 (i5 d)).

Definition io_image (nm : list byte) (d : wgdevice) : wgdevice :=
  (io_front_image nm d) <| peers := map io_peer_image (peers d) |>.

Lemma io_flags_kept (fl : Z) :
  fold_left (fun acc f => Z.lor acc (if has_flag fl f then f else 0)) io_flags 0 = Z.land fl IO_FLAGS.
Proof. apply flags_kept. unfold io_flags. each_flag. Qed.

End Image.

Lemma io_front_present (nm : list byte) (d : wgdevice) : strings_present d = true -> io_front_read nm d = io_front_image nm d.
Proof.
  intros Hp. unfold io_front_read, io_front_image. cbv zeta.
  by f_equal; first [reflexivity | apply present_default; [done | cbn; tauto]].
Qed.
