(* ===== verification/Bsd.v ===== *)
(** * What the back ends of FreeBSD and OpenBSD share

    On these systems a [sockaddr] starts with its length, and the number of AF_INET6 is that of
    the system.  The devices that can be set, and what the two back ends read of endpoints. *)

From S2P Require Import Netlink Prelude CString Encoding Containers WellFormed Ipc KernelImage.
#[local] Open Scope Z_scope.
#[local] Open Scope awg_scope.

(** ** <sys/socket.h>, <string.h> *)

Definition sa_len (sa : list byte) : Z := b2z (byte_at sa 0).
Definition sa_family8 (sa : list byte) : Z := b2z (byte_at sa 1).

(** [strlcpy] into an array of [n] bytes. *)
Definition strlcpy (n : nat) (s : list byte) : list byte := take (n - 1) s.

Lemma strlcpy_twice (n : nat) (s : list byte) : strlcpy n (strlcpy n s) = strlcpy n s.
Proof. unfold strlcpy. rewrite take_take. by rewrite Nat.min_id. Qed.

(** The bytes of an address, copied into an endpoint of zeros. *)
Definition copied_sockaddr (sa : list byte) : list byte :=
  take (Z.to_nat (sa_len sa)) sa ++ repeat x00 (sizeof_sockaddr_in6 - Z.to_nat (sa_len sa)).

Lemma drop_repeat {A} (x : A) (n m : nat) : drop n (repeat x m) = repeat x (m - n).
Proof. revert m. induction n as [|n IH]; intros [|m]; [done .. | apply IH]. Qed.

Lemma copied_front (sa : list byte) : length sa = sizeof_sockaddr_in6 -> sa_len sa <= 28 ->
  memcpy_front (repeat x00 sizeof_sockaddr_in6) (take (Z.to_nat (sa_len sa)) sa) = copied_sockaddr sa.
Proof.
  intros Hl Hn. unfold memcpy_front, copied_sockaddr. rewrite drop_repeat, length_take, Hl.
  unfold sizeof_sockaddr_in6. do 3 f_equal. lia.
Qed.

Section Devices.
(** The number of AF_INET6. *)
Context (af6 : Z).

(** ** Devices that can be set *)

Definition inet_family (f : Z) : bool := (f =? AF_INET) || (f =? af6).

Record bsd_allowedip (a : wgallowedip) : Prop := BsdAllowedip {
  bsd_ip : length (ip a) = 16%nat;
  bsd_cidr : family a = AF_INET /\ 0 <= cidr a <= 32 \/ family a = af6 /\ 0 <= cidr a <= 128;
}.

Record bsd_peer (p : wgpeer) : Prop := BsdPeer {
  bsd_peer_public_key : length (peer_public_key p) = WG_KEY_LEN;
  bsd_preshared_key : length (preshared_key p) = WG_KEY_LEN;
  bsd_keepalive : is_u16 (persistent_keepalive_interval p);
  bsd_endpoint : length (endpoint p) = sizeof_sockaddr_in6;
  bsd_sa_len : inet_family (sa_family8 (endpoint p)) = true -> 16 <= sa_len (endpoint p) <= 28;
  bsd_allowedips : Forall bsd_allowedip (allowedips p);
}.

(** A C string that is shorter, with its NUL, than the limit. *)
Definition bsd_string (s : option (list byte)) : Prop :=
  is_name (default [] s) /\ Z.of_nat (length (default [] s)) + 1 < MAX_AWG_STRING_LEN.

Record bsd_device (d : wgdevice) : Prop := BsdDevice {
  bsd_private_key : length (private_key d) = WG_KEY_LEN;
  bsd_fwmark : is_u32 (fwmark d);
  bsd_numbers : Forall is_u16
    [listen_port d; junk_packet_count d; junk_packet_min_size d; junk_packet_max_size d; init_packet_junk_size d;
     response_packet_junk_size d; cookie_reply_packet_junk_size d; transport_packet_junk_size d];
  bsd_strings : Forall bsd_string
    [init_packet_magic_header d; response_packet_magic_header d; underload_packet_magic_header d;
     transport_packet_magic_header d; i1 d; i2 d; i3 d; i4 d; i5 d];
  bsd_present : strings_present d = true;
  bsd_peers : Forall bsd_peer (peers d);
}.

(** An endpoint that is read only when there is an address in it. *)
Definition if_inet (image : list byte -> list byte) (sa : list byte) : list byte :=
  if inet_family (sa_family8 sa) then image sa else repeat x00 sizeof_sockaddr_in6.

End Devices.
