(* ===== verification/FreeBsd.v ===== *)
(** * The kernel interface on FreeBSD (src/ipc-freebsd.h)

    A device crosses the kernel boundary as an nvlist, a list of named values of <sys/nv.h>,
    packed into bytes and handed to an ioctl.  [Nvlist] is what the library promises of these
    lists and [WgIoctl] the two ioctls.  The address families are those of FreeBSD, where a
    [sockaddr] starts with its length. *)

From S2P Require Import Netlink Prelude CString Encoding Containers Ipc Bsd.
#[local] Open Scope Z_scope.
#[local] Open Scope awg_scope.

(** ** <sys/nv.h> *)

Inductive nv_value (A : Type) : Type :=
| NvNumber (number : Z)
| NvBinary (binary : list byte)
| NvBool (flag : bool)
| NvArray (items : list A).
Arguments NvNumber {A} number.
Arguments NvBinary {A} binary.
Arguments NvBool {A} flag.
Arguments NvArray {A} items.

(** [nvlist_find l name] stands for [nvlist_exists_number], [nvlist_get_number] and their like
    of the other types; [nvlist_add] for [nvlist_add_number] and its like.  Packing and
    unpacking fail with an [errno]. *)
Class Nvlist := {
  nvlist_t : Type;
  nvlist_create : nvlist_t;
  nvlist_add : nvlist_t -> string -> nv_value nvlist_t -> nvlist_t;
  nvlist_find : nvlist_t -> string -> option (nv_value nvlist_t);
  nvlist_pack : nvlist_t -> Z + list byte;
  nvlist_unpack : list byte -> Z + nvlist_t;
}.

(** A list takes no empty array and no empty binary value. *)
Definition nv_nonempty {A} (v : nv_value A) : Prop :=
  match v with
  | NvBinary b => b <> []
  | NvArray items => items <> []
  | _ => True
  end.

(** A new list is empty; a name that is not in a list yet is found with the value it is added
    with, and the other names are as before; and what was packed is unpacked again. *)
Class NvlistLaws (N : Nvlist) := {
  find_create : forall name, nvlist_find nvlist_create name = None;
  find_add : forall l name v, nvlist_find l name = None -> nv_nonempty v -> nvlist_find (nvlist_add l name v) name = Some v;
  find_add_other : forall l name name' v, name' <> name -> nvlist_find (nvlist_add l name v) name' = nvlist_find l name';
  unpack_pack : forall l data, nvlist_pack l = inr data -> nvlist_unpack data = inr l;
}.

(** ** <sys/socket.h> *)

Definition AF_INET6_FREEBSD : Z := 28.

(** The kernel: the socket of [get_dgram_socket]; SIOCGIFGMEMB for the group "wg" without a
    buffer (its size) and with one of that size (the names in it); SIOCGWG without a buffer (the
    size) and with one of that size (the data); and SIOCSWG.  Each may fail with an [errno]. *)
Class WgIoctl := {
  fb_state : Type;
  fb_socket : fb_state -> option Z;
  fb_group_len : fb_state -> Z + nat;
  fb_group : fb_state -> nat -> Z + list (list byte);
  fb_size : fb_state -> list byte -> Z + nat;
  fb_data : fb_state -> list byte -> nat -> Z + list byte;
  fb_set : fb_state -> list byte -> list byte -> fb_state * option Z;
}.

(** ** [kernel_get_wireguard_interfaces] *)

Definition fb_get_wireguard_interfaces `{WgIoctl} (fresh : nat -> byte) (k : fb_state) (list : string_list) : Z * string_list :=
  match fb_socket k with
  | Some errno => (- errno, list)
  | None =>
      match fb_group_len k with
      | inl errno => (if errno =? ENOENT then 0 else - errno, list)
      | inr ifgr_len =>
          match fb_group k ifgr_len with
          | inl errno => (- errno, list)
          | inr members => (0, fold_left (string_list_add fresh) members list)
          end
      end
  end.

(** ** [kernel_get_device] *)

Section Read.
Context `{Nvlist}.
(** What lies behind a binary value in memory. *)
Context (behind : list byte -> list byte).

Definition get_number (l : nvlist_t) (name : string) : option Z :=
  match nvlist_find l name with Some (NvNumber n) => Some n | _ => None end.
Definition get_binary (l : nvlist_t) (name : string) : option (list byte) :=
  match nvlist_find l name with Some (NvBinary b) => Some b | _ => None end.
Definition get_array (l : nvlist_t) (name : string) : option (list nvlist_t) :=
  match nvlist_find l name with Some (NvArray a) => Some a | _ => None end.

(** A number that must not exceed [max]. *)
Definition read_number {A} (l : nvlist_t) (name : string) (max : Z) (set : Z -> A -> A) (a : A) : A :=
  match get_number l name with
  | Some number => if number <=? max then set number a else a
  | None => a
  end.

(** A binary value of [size] bytes. *)
Definition read_key {A} (l : nvlist_t) (name : string) (size : nat) (set : list byte -> A -> A) (a : A) : A :=
  match get_binary l name with
  | Some binary => if (length binary =? size)%nat then set binary a else a
  | None => a
  end.

(** [strdup] of a binary value. *)
Definition read_string (l : nvlist_t) (name : string) (set : list byte -> wgdevice -> wgdevice) (d : wgdevice) : wgdevice :=
  match get_binary l name with
  | Some binary =>
      if Z.of_nat (length binary) <? MAX_AWG_STRING_LEN then set (c_str (binary ++ behind binary)) d else d
  | None => d
  end.

Definition UINT16_MAX : Z := 65535.
Definition UINT32_MAX : Z := 4294967295.

(** The attributes of the device. *)
Definition fb_read_attributes (l : nvlist_t) (dev : wgdevice) : wgdevice :=
  let u16 name flag (set : Z -> wgdevice -> wgdevice) := read_number l name UINT16_MAX (fun n d => set_dev_flag flag (set n d)) in
  let str name flag (set : list byte -> wgdevice -> wgdevice) := read_string l name (fun s d => set_dev_flag flag (set s d)) in
  let dev := u16 "listen-port"%string WGDEVICE_HAS_LISTEN_PORT (fun n d => d <| listen_port := n |>) dev in
  let dev := u16 "jc"%string WGDEVICE_HAS_JC (fun n d => d <| junk_packet_count := n |>) dev in
  let dev := u16 "jmin"%string WGDEVICE_HAS_JMIN (fun n d => d <| junk_packet_min_size := n |>) dev in
  let dev := u16 "jmax"%string WGDEVICE_HAS_JMAX (fun n d => d <| junk_packet_max_size := n |>) dev in
  let dev := u16 "s1"%string WGDEVICE_HAS_S1 (fun n d => d <| init_packet_junk_size := n |>) dev in
  let dev := u16 "s2"%string WGDEVICE_HAS_S2 (fun n d => d <| response_packet_junk_size := n |>) dev in
  let dev := u16 "s3"%string WGDEVICE_HAS_S3 (fun n d => d <| cookie_reply_packet_junk_size := n |>) dev in
  let dev := u16 "s4"%string WGDEVICE_HAS_S4 (fun n d => d <| transport_packet_junk_size := n |>) dev in
  let dev := str "h1"%string WGDEVICE_HAS_H1 (fun s d => d <| init_packet_magic_header := Some s |>) dev in
  let dev := str "h2"%string WGDEVICE_HAS_H2 (fun s d => d <| response_packet_magic_header := Some s |>) dev in
  let dev := str "h3"%string WGDEVICE_HAS_H3 (fun s d => d <| underload_packet_magic_header := Some s |>) dev in
  let dev := str "h4"%string WGDEVICE_HAS_H4 (fun s d => d <| transport_packet_magic_header := Some s |>) dev in
  let dev := str "i1"%string WGDEVICE_HAS_I1 (fun s d => d <| i1 := Some s |>) dev in
  let dev := str "i2"%string WGDEVICE_HAS_I2 (fun s d => d <| i2 := Some s |>) dev in
  let dev := str "i3"%string WGDEVICE_HAS_I3 (fun s d => d <| i3 := Some s |>) dev in
  let dev := str "i4"%string WGDEVICE_HAS_I4 (fun s d => d <| i4 := Some s |>) dev in
  let dev := str "i5"%string WGDEVICE_HAS_I5 (fun s d => d <| i5 := Some s |>) dev in
  let dev := read_number l "user-cookie" UINT32_MAX (fun n d => set_dev_flag WGDEVICE_HAS_FWMARK (d <| fwmark := n |>)) dev in
  let dev := read_key l "public-key" 32 (fun b d => set_dev_flag WGDEVICE_HAS_PUBLIC_KEY (d <| public_key := b |>)) dev in
  read_key l "private-key" 32 (fun b d => set_dev_flag WGDEVICE_HAS_PRIVATE_KEY (d <| private_key := b |>)) dev.

(** An address of the list of allowed IPs: none when it is skipped, [inl] of what is returned
    when it ends the function. *)
Definition fb_read_aip (l : nvlist_t) : Z + option wgallowedip :=
  match get_number l "cidr" with
  | None => inr None
  | Some number =>
      match get_binary l "ipv4", get_binary l "ipv6" with
      | None, None => inr None
      | Some binary, _ =>
          if 32 <? number then inl EINVAL
          else inr (Some (zero_allowedip <| family := AF_INET |> <| cidr := u8 number |>
                            <| ip ::= fun dst => memcpy_front dst (take 4 (binary ++ behind binary)) |>))
      | None, Some binary =>
          if 128 <? number then inl EINVAL
          else inr (Some (zero_allowedip <| family := AF_INET6_FREEBSD |> <| cidr := u8 number |>
                            <| ip ::= fun dst => memcpy_front dst (take 16 (binary ++ behind binary)) |>))
      end
  end.

Fixpoint fb_read_aips (items : list nvlist_t) : Z + list wgallowedip :=
  match items with
  | [] => inr []
  | l :: items =>
      match fb_read_aip l with
      | inl e => inl e
      | inr aip =>
          match fb_read_aips items with
          | inl e => inl e
          | inr aips => inr (match aip with Some a => a :: aips | None => aips end)
          end
      end
  end.

(** A peer without its allowed IPs. *)
Definition fb_read_peer (l : nvlist_t) : wgpeer :=
  let p := read_key l "public-key" 32 (fun b p => set_peer_flag WGPEER_HAS_PUBLIC_KEY (p <| peer_public_key := b |>)) zero_peer in
  let p := read_key l "preshared-key" 32 (fun b p =>
             let p := p <| preshared_key := b |> in
             if key_is_zero b then p else set_peer_flag WGPEER_HAS_PRESHARED_KEY p) p in
  let p := read_number l "persistent-keepalive-interval" UINT16_MAX (fun n p =>
             set_peer_flag WGPEER_HAS_PERSISTENT_KEEPALIVE_INTERVAL (p <| persistent_keepalive_interval := n |>)) p in
  let p := match get_binary l "endpoint" with
           | Some sa =>
               if (length sa <=? sizeof_sockaddr_in6)%nat && (16 <=? length sa)%nat
                  && ((sa_family8 sa =? AF_INET) || (sa_family8 sa =? AF_INET6_FREEBSD))
               then p <| endpoint ::= fun dst => memcpy_front dst sa |> else p
           | None => p
           end in
  let p := match get_number l "rx-bytes" with Some n => p <| rx_bytes := n |> | None => p end in
  let p := match get_number l "tx-bytes" with Some n => p <| tx_bytes := n |> | None => p end in
  read_key l "last-handshake-time" 16 (fun b p =>
    p <| last_handshake_time := Timespec64 (s64 (le_bytes (take 8 b))) (s64 (le_bytes (take 8 (drop 8 b)))) |>) p.

Fixpoint fb_read_peers (items : list nvlist_t) : Z + list wgpeer :=
  match items with
  | [] => inr []
  | l :: items =>
      match fb_read_aips (default [] (get_array l "allowed-ips")) with
      | inl e => inl e
      | inr aips =>
          match fb_read_peers items with
          | inl e => inl e
          | inr peers => inr ((fb_read_peer l) <| allowedips := aips |> :: peers)
          end
      end
  end.

(** From the unpacked list on: the positive [EINVAL] of a bad prefix length is returned as it
    is. *)
Definition fb_read_device (l : nvlist_t) (dev : wgdevice) : Z + wgdevice :=
  let dev := fb_read_attributes l dev in
  match get_array l "peers" with
  | None => inr dev
  | Some items =>
      match fb_read_peers items with
      | inl e => inl e
      | inr ps => inr (dev <| peers := ps |>)
      end
  end.

Context `{WgIoctl}.

Definition fb_get_device (k : fb_state) (ifname : list byte) : Z + wgdevice :=
  match fb_socket k with
  | Some errno => inl (- errno)
  | None =>
      let wgd_name := strlcpy IFNAMSIZ ifname in
      match fb_size k wgd_name with
      | inl errno => inl (- errno)
      | inr size =>
          match fb_data k wgd_name size with
          | inl errno => inl (- errno)
          | inr data =>
              match nvlist_unpack data with
              | inl errno => inl (- errno)
              | inr l => fb_read_device l (zero_device <| name := strlcpy IFNAMSIZ ifname |>)
              end
          end
      end
  end.

End Read.

(** ** [kernel_set_device] *)

Section Write.
Context `{Nvlist}.

Definition add_when (c : bool) (name : string) (v : nv_value nvlist_t) (l : nvlist_t) : nvlist_t :=
  if c then nvlist_add l name v else l.

Definition fb_aip_nvlist (a : wgallowedip) : nvlist_t :=
  let l := nvlist_add nvlist_create "cidr" (NvNumber (cidr a)) in
  if family a =? AF_INET then nvlist_add l "ipv4" (NvBinary (ip4 a))
  else if family a =? AF_INET6_FREEBSD then nvlist_add l "ipv6" (NvBinary (ip6 a))
  else l.

Definition fb_peer_nvlist (p : wgpeer) : nvlist_t :=
  let has := has_flag (peer_flags p) in
  let sa := endpoint p in
  let l := nvlist_add nvlist_create "public-key" (NvBinary (peer_public_key p)) in
  let l := add_when (has WGPEER_HAS_PRESHARED_KEY) "preshared-key" (NvBinary (preshared_key p)) l in
  let l := add_when (has WGPEER_HAS_PERSISTENT_KEEPALIVE_INTERVAL) "persistent-keepalive-interval"
             (NvNumber (persistent_keepalive_interval p)) l in
  let l := add_when ((sa_family8 sa =? AF_INET) || (sa_family8 sa =? AF_INET6_FREEBSD)) "endpoint"
             (NvBinary (take (Z.to_nat (sa_len sa)) sa)) l in
  let l := add_when (has WGPEER_REPLACE_ALLOWEDIPS) "replace-allowedips" (NvBool true) l in
  let l := add_when (has WGPEER_REMOVE_ME) "remove" (NvBool true) l in
  add_when (negb (length (allowedips p) =? 0)%nat) "allowed-ips" (NvArray (map fb_aip_nvlist (allowedips p))) l.

(** None: [strlen] of a string that is NULL. *)
Definition fb_device_nvlist (dev : wgdevice) : option nvlist_t :=
  let has := has_flag (flags dev) in
  let strz name (s : option (list byte)) l := s ← s; Some (nvlist_add l name (NvBinary (s ++ [x00]))) in
  let l := add_when (has WGDEVICE_HAS_PRIVATE_KEY) "private-key" (NvBinary (private_key dev)) nvlist_create in
  let l := add_when (has WGDEVICE_HAS_LISTEN_PORT) "listen-port" (NvNumber (listen_port dev)) l in
  let l := add_when (has WGDEVICE_HAS_JC) "jc" (NvNumber (junk_packet_count dev)) l in
  let l := add_when (has WGDEVICE_HAS_JMIN) "jmin" (NvNumber (junk_packet_min_size dev)) l in
  let l := add_when (has WGDEVICE_HAS_JMAX) "jmax" (NvNumber (junk_packet_max_size dev)) l in
  let l := add_when (has WGDEVICE_HAS_S1) "s1" (NvNumber (init_packet_junk_size dev)) l in
  let l := add_when (has WGDEVICE_HAS_S2) "s2" (NvNumber (response_packet_junk_size dev)) l in
  let l := add_when (has WGDEVICE_HAS_S3) "s3" (NvNumber (cookie_reply_packet_junk_size dev)) l in
  let l := add_when (has WGDEVICE_HAS_S4) "s4" (NvNumber (transport_packet_junk_size dev)) l in
  l ← when (has WGDEVICE_HAS_H1) (strz "h1"%string (init_packet_magic_header dev)) l;
  l ← when (has WGDEVICE_HAS_H2) (strz "h2"%string (response_packet_magic_header dev)) l;
  l ← when (has WGDEVICE_HAS_H3) (strz "h3"%string (underload_packet_magic_header dev)) l;
  l ← when (has WGDEVICE_HAS_H4) (strz "h4"%string (transport_packet_magic_header dev)) l;
  l ← when (has WGDEVICE_HAS_I1) (strz "i1"%string (i1 dev)) l;
  l ← when (has WGDEVICE_HAS_I2) (strz "i2"%string (i2 dev)) l;
  l ← when (has WGDEVICE_HAS_I3) (strz "i3"%string (i3 dev)) l;
  l ← when (has WGDEVICE_HAS_I4) (strz "i4"%string (i4 dev)) l;
  l ← when (has WGDEVICE_HAS_I5) (strz "i5"%string (i5 dev)) l;
  let l := add_when (has WGDEVICE_HAS_FWMARK) "user-cookie" (NvNumber (fwmark dev)) l in
  let l := add_when (has WGDEVICE_REPLACE_PEERS) "replace-peers" (NvBool true) l in
  Some (add_when (negb (length (peers dev) =? 0)%nat) "peers" (NvArray (map fb_peer_nvlist (peers dev))) l).

Context `{WgIoctl}.

(** What the ioctl returns is returned: -1 for any error. *)
Definition fb_set_device (k : fb_state) (dev : wgdevice) : outcome (fb_state * Z) :=
  let wgd_name := strlcpy IFNAMSIZ (name dev) in
  match fb_device_nvlist dev with
  | None => Exits SEGV
  | Some nvl_device =>
      match nvlist_pack nvl_device with
      | inl errno => Returns (k, - errno)
      | inr data =>
          match fb_socket k with
          | Some errno => Returns (k, - errno)
          | None =>
              match fb_set k wgd_name data with
              | (k, Some _) => Returns (k, -1)
              | (k, None) => Returns (k, 0)
              end
          end
      end
  end.

End Write.
