(* ===== verification/FreeBsdOk.v ===== *)
(** * Devices set and read on FreeBSD (src/ipc-freebsd.h)

    What [kernel_set_device] puts into the nvlist is what [kernel_get_device] finds there: the
    device comes back as its [io_image].  Whatever the nvlist holds, a device that is read has
    its fields in their ranges. *)

From stdpp Require Import countable strings.
From S2P Require Import Netlink Prelude CString Encoding Containers WellFormed Ipc KernelImage Bsd FreeBsd.
#[local] Open Scope Z_scope.
#[local] Open Scope awg_scope.

(** ** Finding what was added *)

Section Find.
Context `{N : Nvlist} `{!NvlistLaws N} (behind : list byte -> list byte).

Lemma find_add_when (c : bool) (l : nvlist_t) (name : string) (v : nv_value nvlist_t) :
  nvlist_find l name = None -> (c = true -> nv_nonempty v) ->
  nvlist_find (add_when c name v l) name = if c then Some v else None.
Proof. intros Hl Hv. destruct c; [by apply find_add, Hv | done]. Qed.

Lemma find_add_when_other (c : bool) (l : nvlist_t) (name name' : string) (v : nv_value nvlist_t) :
  name' <> name -> nvlist_find (add_when c name v l) name' = nvlist_find l name'.
Proof. intros Hne. destruct c; [by apply find_add_other | done]. Qed.

End Find.

(** Values that a list takes. *)
Lemma nonempty_strz {A} (s : list byte) : nv_nonempty (A := A) (NvBinary (s ++ [x00])).
Proof. intros E. by apply app_eq_nil in E as [_ ?]. Qed.

Lemma nonempty_length {A} (b : list byte) (n : nat) : length b = S n -> nv_nonempty (A := A) (NvBinary b).
Proof. by intros E ->. Qed.

Ltac nv_taken := intros; first [done | apply nonempty_strz | eapply nonempty_length; eassumption].

(** The list of a device whose strings are there. *)
Definition fb_nvlist `{Nvlist} (dev : wgdevice) : nvlist_t :=
  let has := has_flag (flags dev) in
  let strz (s : option (list byte)) := NvBinary (default [] s ++ [x00]) in
  let l := add_when (has WGDEVICE_HAS_PRIVATE_KEY) "private-key" (NvBinary (private_key dev)) nvlist_create in
  let l := add_when (has WGDEVICE_HAS_LISTEN_PORT) "listen-port" (NvNumber (listen_port dev)) l in
  let l := add_when (has WGDEVICE_HAS_JC) "jc" (NvNumber (junk_packet_count dev)) l in
  let l := add_when (has WGDEVICE_HAS_JMIN) "jmin" (NvNumber (junk_packet_min_size dev)) l in
  let l := add_when (has WGDEVICE_HAS_JMAX) "jmax" (NvNumber (junk_packet_max_size dev)) l in
  let l := add_when (has WGDEVICE_HAS_S1) "s1" (NvNumber (init_packet_junk_size dev)) l in
  let l := add_when (has WGDEVICE_HAS_S2) "s2" (NvNumber (response_packet_junk_size dev)) l in
  let l := add_when (has WGDEVICE_HAS_S3) "s3" (NvNumber (cookie_reply_packet_junk_size dev)) l in
  let l := add_when (has WGDEVICE_HAS_S4) "s4" (NvNumber (transport_packet_junk_size dev)) l in
  let l := add_when (has WGDEVICE_HAS_H1) "h1" (strz (init_packet_magic_header dev)) l in
  let l := add_when (has WGDEVICE_HAS_H2) "h2" (strz (response_packet_magic_header dev)) l in
  let l := add_when (has WGDEVICE_HAS_H3) "h3" (strz (underload_packet_magic_header dev)) l in
  let l := add_when (has WGDEVICE_HAS_H4) "h4" (strz (transport_packet_magic_header dev)) l in
  let l := add_when (has WGDEVICE_HAS_I1) "i1" (strz (i1 dev)) l in
  let l := add_when (has WGDEVICE_HAS_I2) "i2" (strz (i2 dev)) l in
  let l := add_when (has WGDEVICE_HAS_I3) "i3" (strz (i3 dev)) l in
  let l := add_when (has WGDEVICE_HAS_I4) "i4" (strz (i4 dev)) l in
  let l := add_when (has WGDEVICE_HAS_I5) "i5" (strz (i5 dev)) l in
  let l := add_when (has WGDEVICE_HAS_FWMARK) "user-cookie" (NvNumber (fwmark dev)) l in
  let l := add_when (has WGDEVICE_REPLACE_PEERS) "replace-peers" (NvBool true) l in
  add_when (negb (length (peers dev) =? 0)%nat) "peers" (NvArray (map fb_peer_nvlist (peers dev))) l.

Lemma fb_device_nvlist_present `{Nvlist} (d : wgdevice) :
  fb_device_nvlist d = if strings_present d then Some (fb_nvlist d) else None.
Proof.
  unfold fb_device_nvlist, strings_present, device_strings. cbv zeta. cbn [forallb].
  repeat (rewrite (when_present _ _ (fun s l => nvlist_add l _ (NvBinary (s ++ [x00]))));
    match goal with |- context [implb ?a ?b] => destruct (implb a b); cbn [andb]; [| done] end).
  done.
Qed.

(** Looks a name up in a list built by [add_when] and [nvlist_add]. *)
Ltac nv_find :=
  repeat first
    [ rewrite find_create
    | rewrite find_add_when_other by discriminate
    | rewrite find_add_other by discriminate ];
  try done.

Ltac nv_found :=
  unfold fb_nvlist, fb_peer_nvlist; repeat first
    [ rewrite find_add_when_other by discriminate
    | rewrite find_add_other by discriminate ];
  first [ rewrite find_create | rewrite find_add_when; [reflexivity | nv_find | nv_taken]
        | rewrite find_add; [reflexivity | nv_find | nv_taken] ];
  try done.

Section Readers.
Context `{N : Nvlist} (behind : list byte -> list byte).

(** Each reader, when the value it looks for is there under a condition. *)
Lemma read_number_if {A} (l : nvlist_t) (name : string) (max : Z) (set : Z -> A -> A) (a : A) (c : bool) (n : Z) :
  nvlist_find l name = (if c then Some (NvNumber n) else None) -> n <= max ->
  read_number l name max set a = if c then set n a else a.
Proof.
  intros E Hn. unfold read_number, get_number. rewrite E. destruct c; [| done].
  by rewrite (proj2 (Z.leb_le n max) Hn).
Qed.

Lemma read_key_if {A} (l : nvlist_t) (name : string) (size : nat) (set : list byte -> A -> A) (a : A) (c : bool) (b : list byte) :
  nvlist_find l name = (if c then Some (NvBinary b) else None) -> length b = size ->
  read_key l name size set a = if c then set b a else a.
Proof.
  intros E Hb. unfold read_key, get_binary. rewrite E. destruct c; [| done].
  by rewrite (proj2 (Nat.eqb_eq _ _) Hb).
Qed.

Lemma read_string_if (l : nvlist_t) (name : string) (set : list byte -> wgdevice -> wgdevice) (d : wgdevice) (c : bool)
    (s : option (list byte)) :
  nvlist_find l name = (if c then Some (NvBinary (default [] s ++ [x00])) else None) -> bsd_string s ->
  read_string behind l name set d = if c then set (default [] s) d else d.
Proof.
  intros E [Hn Hl]. unfold read_string, get_binary. rewrite E. destruct c; [| done].
  rewrite length_app. cbn [length]. rewrite (proj2 (Z.ltb_lt _ _)) by lia. f_equal.
  rewrite <- app_assoc. by apply c_str_app.
Qed.

Lemma read_key_none {A} (l : nvlist_t) (name : string) (size : nat) (set : list byte -> A -> A) (a : A) :
  nvlist_find l name = None -> read_key l name size set a = a.
Proof. intros E. unfold read_key, get_binary. by rewrite E. Qed.

End Readers.

(** ** The attributes of a device *)

Section Device.
Context `{N : Nvlist} `{!NvlistLaws N} (behind : list byte -> list byte).

(** The next attribute of a device whose fields are known. *)
Ltac read_attribute :=
  let_step ltac:(
    first [ erewrite read_number_if; [| nv_found | assumption] | erewrite read_string_if; [| nv_found | assumption] ];
    cbv beta; rewrite cond_field by reflexivity; unfold set_dev_flag, zero_device; device_fields).

Lemma fb_attributes_read (d : wgdevice) (nm : list byte) : bsd_device AF_INET6_FREEBSD d ->
  fb_read_attributes behind (fb_nvlist d) (zero_device <| name := nm |>) = io_front_image nm d.
Proof.
  intros [Hkey Hmark Hnum Hstr Hpresent _]. unfold is_u32, is_u16 in *.
  assert (Forall (fun n => n <= UINT16_MAX) [listen_port d; junk_packet_count d; junk_packet_min_size d; junk_packet_max_size d; init_packet_junk_size d;
     response_packet_junk_size d; cookie_reply_packet_junk_size d; transport_packet_junk_size d]) as Hmax.
  { eapply Forall_impl; [exact Hnum |]. unfold UINT16_MAX. lia. }
  rewrite !Forall_cons in Hmax. rewrite !Forall_cons in Hstr. destruct Hmax as (? & ? & ? & ? & ? & ? & ? & ? & _).
  destruct Hstr as (? & ? & ? & ? & ? & ? & ? & ? & ? & _).
  assert (fwmark d <= UINT32_MAX) by (unfold UINT32_MAX; lia).
  cbv delta [fb_read_attributes] beta. do 2 unlet. do 18 read_attribute. unlet.
  rewrite (read_key_none _ "public-key") by nv_found. erewrite read_key_if; [| nv_found | done]. cbv beta. rewrite cond_field by reflexivity.
  rewrite <- io_front_present by done.
  unfold set_dev_flag. device_fields. unfold io_front_read. cbv zeta. rewrite <- io_flags_kept. unfold io_flags. cbn [fold_left].
  reflexivity.
Qed.

(** ** Allowed IPs and peers *)

(** An address is found in the list of its family. *)
Lemma fb_aip_found (n : Z) (key other : string) (b : list byte) : key <> "cidr"%string -> other <> key -> other <> "cidr"%string ->
  b <> [] -> let l := nvlist_add (nvlist_add nvlist_create "cidr" (NvNumber n)) key (NvBinary b) in
  get_number l "cidr" = Some n /\ get_binary l key = Some b /\ get_binary l other = None.
Proof.
  intros Hk Ho Hoc Hb l. unfold get_number, get_binary, l. split_and!.
  - rewrite find_add_other by done. by rewrite find_add by (apply find_create || done).
  - by rewrite find_add by (try done; rewrite find_add_other by done; apply find_create).
  - rewrite !find_add_other by done. by rewrite find_create.
Qed.

Lemma take_front (n : nat) (b rest : list byte) : length b = n -> take n (b ++ rest) = b.
Proof. intros <-. apply take_app_length. Qed.

Lemma fb_aip_read (a : wgallowedip) : bsd_allowedip AF_INET6_FREEBSD a ->
  fb_read_aip behind (fb_aip_nvlist a) = inr (Some (io_ip_image a)).
Proof.
  intros [Hip Hcidr]. destruct a as [f b c]. unfold fb_aip_nvlist, io_ip_image, ip4, ip6. cbn [family ip cidr] in *.
  assert (length (take 4 b) = 4%nat) as H4 by (rewrite length_take; lia).
  destruct Hcidr as [[-> Hc] | [-> Hc]].
  - change (AF_INET =? AF_INET) with true. cbv match.
    destruct (fb_aip_found c "ipv4" "ipv6" (take 4 b)) as (E1 & E2 & _); try done; [by destruct (take 4 b) |].
    unfold fb_read_aip. rewrite E1, E2. destruct (Z.ltb_spec 32 c); [lia |]. do 2 f_equal. unfold u8. cbn -[uw].
    unfold memcpy_front. rewrite take_front, H4 by done. by rewrite (uw_small 8) by lia.
  - change (AF_INET6_FREEBSD =? AF_INET) with false. change (AF_INET6_FREEBSD =? AF_INET6_FREEBSD) with true. cbv match.
    destruct (fb_aip_found c "ipv6" "ipv4" b) as (E1 & E2 & E3); try done; [by destruct b |].
    unfold fb_read_aip. rewrite E1, E2, E3. destruct (Z.ltb_spec 128 c); [lia |]. do 2 f_equal. unfold u8. cbn -[uw].
    unfold memcpy_front. rewrite take_front, Hip by done. rewrite (uw_small 8) by lia. by rewrite app_nil_r.
Qed.

Lemma fb_aips_read (l : list wgallowedip) : Forall (bsd_allowedip AF_INET6_FREEBSD) l ->
  fb_read_aips behind (map fb_aip_nvlist l) = inr (map io_ip_image l).
Proof. induction 1 as [|a l Ha _ IH]; [done |]. cbn [map fb_read_aips]. by rewrite fb_aip_read, IH. Qed.

Lemma fb_endpoint_copied (sa : list byte) : length sa = sizeof_sockaddr_in6 -> 16 <= sa_len sa <= 28 ->
  inet_family AF_INET6_FREEBSD (sa_family8 sa) = true ->
  let b := take (Z.to_nat (sa_len sa)) sa in
  (length b <=? sizeof_sockaddr_in6)%nat && (16 <=? length b)%nat
    && ((sa_family8 b =? AF_INET) || (sa_family8 b =? AF_INET6_FREEBSD)) = true
  /\ memcpy_front (repeat x00 sizeof_sockaddr_in6) b = copied_sockaddr sa.
Proof.
  intros Hl Hsa Hf. cbv zeta. set (n := Z.to_nat (sa_len sa)). assert (16 <= n <= 28)%nat as Hn by lia.
  assert (length (take n sa) = n) as Ht by (rewrite length_take, Hl; unfold sizeof_sockaddr_in6; lia). split.
  - assert (sa_family8 (take n sa) = sa_family8 sa) as ->.
    { destruct n as [|[|n']]; [lia | lia |]. by destruct sa as [|a [|b sa]]. }
    unfold inet_family in Hf. rewrite Hf, Ht. unfold sizeof_sockaddr_in6.
    by rewrite (proj2 (Nat.leb_le _ _)), (proj2 (Nat.leb_le _ _)) by lia.
  - apply copied_front; [done | lia].
Qed.

Lemma fb_peer_found (p : wgpeer) : bsd_peer AF_INET6_FREEBSD p ->
  let l := fb_peer_nvlist p in
  let has := has_flag (peer_flags p) in
  nvlist_find l "public-key" = Some (NvBinary (peer_public_key p))
  /\ nvlist_find l "preshared-key" = (if has WGPEER_HAS_PRESHARED_KEY then Some (NvBinary (preshared_key p)) else None)
  /\ nvlist_find l "persistent-keepalive-interval"
     = (if has WGPEER_HAS_PERSISTENT_KEEPALIVE_INTERVAL then Some (NvNumber (persistent_keepalive_interval p)) else None)
  /\ nvlist_find l "endpoint"
     = (if inet_family AF_INET6_FREEBSD (sa_family8 (endpoint p))
        then Some (NvBinary (take (Z.to_nat (sa_len (endpoint p))) (endpoint p))) else None)
  /\ nvlist_find l "rx-bytes" = None /\ nvlist_find l "tx-bytes" = None /\ nvlist_find l "last-handshake-time" = None.
Proof.
  intros [Hkey Hpsk Hpka Hep Hsa _]. cbv zeta. split_and!; try (by nv_found).
  unfold fb_peer_nvlist. rewrite !find_add_when_other by discriminate. rewrite find_add_when; [done | nv_find |].
  intros Hf. apply Hsa in Hf. apply (nonempty_length _ (Nat.pred (Z.to_nat (sa_len (endpoint p))))).
  rewrite length_take, Hep. unfold sizeof_sockaddr_in6. lia.
Qed.

Lemma fb_peer_read (p : wgpeer) : bsd_peer AF_INET6_FREEBSD p ->
  (fb_read_peer (fb_peer_nvlist p)) <| allowedips := map io_ip_image (allowedips p) |>
  = io_peer_image (if_inet AF_INET6_FREEBSD copied_sockaddr) p.
Proof.
  intros Hp. destruct (fb_peer_found p Hp) as (F1 & F2 & F3 & F4 & F5 & F6 & F7). destruct Hp as [Hkey Hpsk Hpka Hep Hsa _].
  generalize dependent (fb_peer_nvlist p). intros l F1 F2 F3 F4 F5 F6 F7. unfold fb_read_peer, get_number, get_binary.
  rewrite (read_key_none l "last-handshake-time"), F4, F5, F6 by done. unfold is_u16 in Hpka.
  rewrite (read_number_if l "persistent-keepalive-interval" _ _ _ _ _ F3) by (unfold UINT16_MAX; lia).
  rewrite (read_key_if l "preshared-key" _ _ _ _ _ F2), (read_key_if l "public-key" _ _ _ true _ F1) by done.
  unfold io_peer_image. cbv zeta. set (psk := has_flag _ WGPEER_HAS_PRESHARED_KEY). set (pka := has_flag _ _).
  unfold if_inet, inet_family in *. destruct ((_ =? _) || _) eqn:Ef.
  - specialize (Hsa eq_refl). destruct (fb_endpoint_copied (endpoint p)) as [Ec Em]; try done. rewrite Ec, <- Em.
    by destruct psk, pka, (key_is_zero (preshared_key p)).
  - by destruct psk, pka, (key_is_zero (preshared_key p)).
Qed.

(** An array is added when it has elements, and is found as it was. *)
Lemma find_array {A} (f : A -> nvlist_t) (items : list A) (l : nvlist_t) (name : string) : nvlist_find l name = None ->
  get_array (add_when (negb (length items =? 0)%nat) name (NvArray (map f items)) l) name
  = match items with [] => None | _ => Some (map f items) end.
Proof.
  intros Hl. unfold get_array. destruct items as [|x items]; cbn [length Nat.eqb negb add_when]; [by rewrite Hl |].
  by rewrite find_add.
Qed.

Lemma fb_peers_read (ps : list wgpeer) : Forall (bsd_peer AF_INET6_FREEBSD) ps ->
  fb_read_peers behind (map fb_peer_nvlist ps) = inr (map (io_peer_image (if_inet AF_INET6_FREEBSD copied_sockaddr)) ps).
Proof.
  induction 1 as [|p ps Hp _ IH]; [done |]. cbn [map fb_read_peers].
  replace (default [] (get_array (fb_peer_nvlist p) "allowed-ips")) with (map fb_aip_nvlist (allowedips p)).
  - rewrite fb_aips_read by apply Hp. rewrite IH. do 2 f_equal. by apply fb_peer_read.
  - unfold fb_peer_nvlist. rewrite find_array by nv_find. by destruct (allowedips p).
Qed.

Lemma fb_device_read (d : wgdevice) (nm : list byte) : bsd_device AF_INET6_FREEBSD d ->
  fb_read_device behind (fb_nvlist d) (zero_device <| name := nm |>)
  = inr (io_image (if_inet AF_INET6_FREEBSD copied_sockaddr) nm d).
Proof.
  intros Hd. unfold fb_read_device. rewrite fb_attributes_read by done.
  replace (get_array (fb_nvlist d) "peers")
    with (match peers d with [] => None | _ => Some (map fb_peer_nvlist (peers d)) end).
  - unfold io_image. pose proof (fb_peers_read (peers d) (bsd_peers _ _ Hd)) as E. by destruct (peers d); [| rewrite E].
  - unfold fb_nvlist. by rewrite find_array by nv_find.
Qed.

Context `{K : WgIoctl}.

(** A string that is NULL, with its flag set, ends the program. *)
Lemma fb_set_null (k : fb_state) (d : wgdevice) : strings_present d = false -> fb_set_device k d = Exits SEGV.
Proof. intros E. unfold fb_set_device. by rewrite fb_device_nvlist_present, E. Qed.

(** C7: On FreeBSD a device survives the way to the kernel and back.  What [kernel_set_device]
    hands to SIOCSWG is the packed nvlist of the device, under the interface's name; and when a
    kernel answers SIOCGWG with these bytes, [kernel_get_device] returns the device that was
    set: every attribute whose flag it had, zero elsewhere, and its peers with their keys,
    endpoints, intervals and allowed IPs, in order.  The device is one that can be set
    ([bsd_device]): no string is NULL whose flag is set ([fb_set_null]), a string with its NUL
    is shorter than the limit of the reader, an endpoint with an address has 16 to 28 bytes. *)
Theorem fb_device_roundtrip (k g : fb_state) (d : wgdevice) (l : nvlist_t) (data ifname : list byte) :
  bsd_device AF_INET6_FREEBSD d -> fb_device_nvlist d = Some l -> nvlist_pack l = inr data ->
  fb_socket k = None -> fb_socket g = None ->
  fb_size g (strlcpy IFNAMSIZ ifname) = inr (length data) ->
  fb_data g (strlcpy IFNAMSIZ ifname) (length data) = inr data ->
  fb_set_device k d = (let '(k', e) := fb_set k (strlcpy IFNAMSIZ (name d)) data in Returns (k', if e then -1 else 0))
  /\ fb_get_device behind g ifname = inr (io_image (if_inet AF_INET6_FREEBSD copied_sockaddr) (strlcpy IFNAMSIZ ifname) d).
Proof.
  intros Hd Hl Hpack Hk Hg Hsize Hdata. split.
  - unfold fb_set_device. rewrite Hl, Hpack, Hk. by destruct (fb_set k _ data) as [k' []].
  - unfold fb_get_device. rewrite Hg, Hsize, Hdata, (unpack_pack _ _ Hpack).
    rewrite fb_device_nvlist_present, (bsd_present _ _ Hd) in Hl. injection Hl as <-. by apply fb_device_read.
Qed.

End Device.

(** ** Addresses with a bad prefix length *)

Section BadPrefix.
Context `{N : Nvlist} (behind : list byte -> list byte).

(** The address would be stored, with a prefix longer than the address. *)
Definition bad_prefix (l : nvlist_t) : bool :=
  match get_number l "cidr" with
  | None => false
  | Some cidr =>
      match get_binary l "ipv4", get_binary l "ipv6" with
      | Some _, _ => 32 <? cidr
      | None, Some _ => 128 <? cidr
      | None, None => false
      end
  end.

Definition peer_bad (l : nvlist_t) : bool := existsb bad_prefix (default [] (get_array l "allowed-ips")).
Definition device_bad (l : nvlist_t) : bool := existsb peer_bad (default [] (get_array l "peers")).

(** The value is [EINVAL] in the bad case, some value otherwise. *)
Definition refused_if {A} (bad : bool) (r : Z + A) : Prop := if bad then r = inl EINVAL else exists a, r = inr a.

Lemma fb_read_aip_refused (l : nvlist_t) : refused_if (bad_prefix l) (fb_read_aip behind l).
Proof.
  unfold refused_if, bad_prefix, fb_read_aip. repeat case_match; simplify_eq; by eauto.
Qed.

Lemma fb_read_aips_refused (items : list nvlist_t) : refused_if (existsb bad_prefix items) (fb_read_aips behind items).
Proof.
  induction items as [|l items IH]; cbn [existsb fb_read_aips]; [by eexists |].
  pose proof (fb_read_aip_refused l) as Hl. unfold refused_if in *. destruct (bad_prefix l); cbn [orb]; [by rewrite Hl |].
  destruct Hl as [aip ->]. destruct (existsb bad_prefix items); [by rewrite IH |]. destruct IH as [aips ->]. by eexists.
Qed.

Lemma fb_read_peers_refused (items : list nvlist_t) : refused_if (existsb peer_bad items) (fb_read_peers behind items).
Proof.
  induction items as [|l items IH]; cbn [existsb fb_read_peers]; [by eexists |].
  pose proof (fb_read_aips_refused (default [] (get_array l "allowed-ips"))) as Hl. fold (peer_bad l) in Hl.
  unfold refused_if in *. destruct (peer_bad l); cbn [orb]; [by rewrite Hl |].
  destruct Hl as [aips ->]. destruct (existsb peer_bad items); [by rewrite IH |]. destruct IH as [ps ->]. by eexists.
Qed.

Context `{K : WgIoctl}.

(** One allowed IP with a prefix length beyond its address makes [kernel_get_device] on
    FreeBSD return the positive number [EINVAL] and no device, although its callers take only
    negative results for errors; an nvlist without such an address is always read. *)
Theorem fb_get_device_bad_prefix (g : fb_state) (ifname data : list byte) (size : nat) (l : nvlist_t) :
  fb_socket g = None -> fb_size g (strlcpy IFNAMSIZ ifname) = inr size ->
  fb_data g (strlcpy IFNAMSIZ ifname) size = inr data -> nvlist_unpack data = inr l ->
  refused_if (device_bad l) (fb_get_device behind g ifname).
Proof.
  intros Hg Hsize Hdata Hl. unfold fb_get_device. rewrite Hg, Hsize, Hdata, Hl. unfold fb_read_device, device_bad.
  destruct (get_array l "peers") as [items |]; [| by eexists]. cbn [default from_option Datatypes.id].
  pose proof (fb_read_peers_refused items) as H. unfold refused_if in *.
  destruct (existsb peer_bad items); [by rewrite H |]. destruct H as [ps ->]. by eexists.
Qed.

End BadPrefix.

(** ** A library of nvlists *)

(** A list is a tree of entries, an entry a node with the type, the name and the value; it is
    packed as the bits of its code. *)
Definition nv_leaf : Type := string + Z.
Definition nv_tree : Type := gen_tree nv_leaf.

Definition tree_entries (l : nv_tree) : list nv_tree := match l with GenNode 0 es => es | _ => [] end.

Definition tree_entry (name : string) (v : nv_value nv_tree) : nv_tree :=
  match v with
  | NvNumber n => GenNode 1 [GenLeaf (inl name); GenLeaf (inr n)]
  | NvBinary b => GenNode 2 [GenLeaf (inl name); GenLeaf (inl (string_of_list_byte b))]
  | NvBool b => GenNode 3 [GenLeaf (inl name); GenLeaf (inr (Z.b2z b))]
  | NvArray items => GenNode 4 (GenLeaf (inl name) :: items)
  end.

Definition tree_value (e : nv_tree) : option (string * nv_value nv_tree) :=
  match e with
  | GenNode 1 [GenLeaf (inl name); GenLeaf (inr n)] => Some (name, NvNumber n)
  | GenNode 2 [GenLeaf (inl name); GenLeaf (inl b)] => Some (name, NvBinary (list_byte_of_string b))
  | GenNode 3 [GenLeaf (inl name); GenLeaf (inr n)] => Some (name, NvBool (negb (n =? 0)))
  | GenNode 4 (GenLeaf (inl name) :: items) => Some (name, NvArray items)
  | _ => None
  end.

Definition tree_find (l : nv_tree) (name : string) : option (nv_value nv_tree) :=
  match List.find (fun e => bool_decide (fst e = name)) (omap tree_value (tree_entries l)) with
  | Some (_, v) => Some v
  | None => None
  end.

(** The bits of a number, one to a byte. *)
Fixpoint pos_bytes (p : positive) : list byte :=
  match p with
  | xH => []
  | xO p => x00 :: pos_bytes p
  | xI p => x01 :: pos_bytes p
  end.

Fixpoint bytes_pos (l : list byte) : positive :=
  match l with
  | [] => xH
  | b :: l => if Byte.eqb b x00 then xO (bytes_pos l) else xI (bytes_pos l)
  end.

Lemma bytes_pos_bytes (p : positive) : bytes_pos (pos_bytes p) = p.
Proof. induction p as [p IH | p IH |]; cbn; by rewrite ?IH. Qed.

#[export] Instance tree_nvlist : Nvlist := {|
  nvlist_t := nv_tree;
  nvlist_create := GenNode 0 [];
  nvlist_add l name v := GenNode 0 (tree_entries l ++ [tree_entry name v]);
  nvlist_find := tree_find;
  nvlist_pack l := inr (pos_bytes (encode l));
  nvlist_unpack data := match decode (bytes_pos data) with Some l => inr l | None => inl EINVAL end;
|}.

Lemma tree_entry_value (name : string) (v : nv_value nv_tree) : tree_value (tree_entry name v) = Some (name, v).
Proof. destruct v as [n | b | [] | items]; cbn; [done | | done .. ]. by rewrite list_byte_of_string_of_list_byte. Qed.

Lemma tree_find_add (l : nv_tree) (name name' : string) (v : nv_value nv_tree) :
  tree_find (GenNode 0 (tree_entries l ++ [tree_entry name v])) name'
  = match tree_find l name' with Some w => Some w | None => if bool_decide (name = name') then Some v else None end.
Proof.
  unfold tree_find at 1. cbn [tree_entries]. rewrite omap_app. cbn [omap list_omap]. rewrite tree_entry_value.
  unfold tree_find. generalize (omap tree_value (tree_entries l)). intros es.
  induction es as [|[n w] es IH]; cbn [app List.find fst]; [by destruct (bool_decide (name = name')) |].
  by destruct (bool_decide (n = name')).
Qed.

#[export] Instance tree_nvlist_laws : NvlistLaws tree_nvlist.
Proof.
  split.
  - done.
  - intros l name v Hl _. cbn. rewrite tree_find_add. cbn in Hl. rewrite Hl. by rewrite bool_decide_true.
  - intros l name name' v Hne. cbn. rewrite tree_find_add, bool_decide_false by congruence. by destruct (tree_find l name').
  - intros l data. cbn. intros [= <-]. by rewrite bytes_pos_bytes, decode_encode.
Qed.

(** ** A kernel that answers with what it was given last *)

#[export] Instance echo_ioctl : WgIoctl := {|
  fb_state := list byte;
  fb_socket _ := None;
  fb_group_len _ := inl ENOENT;
  fb_group _ _ := inl ENOENT;
  fb_size k _ := inr (length k);
  fb_data k _ _ := inr k;
  fb_set _ _ data := (data, None);
|}.

Definition demo_sockaddr (len family : byte) (n : nat) : list byte := len :: family :: repeat "7"%byte n ++ repeat x00 (26 - n).

Definition demo_peer : wgpeer :=
  zero_peer <| peer_flags := 28 |> <| peer_public_key := repeat "p"%byte 32 |> <| preshared_key := repeat "k"%byte 32 |>
    <| endpoint := demo_sockaddr x1c x1c 26 |> <| persistent_keepalive_interval := 25 |>
    <| allowedips := [WgAllowedip AF_INET (repeat x0a 4 ++ repeat x00 12) 32; WgAllowedip AF_INET6_FREEBSD (repeat x0b 16) 128] |>.

Definition demo_device : wgdevice :=
  zero_device <| name := text "awg0" |>
    <| flags := Z.lor WGDEVICE_HAS_JC (Z.lor WGDEVICE_HAS_H1 (Z.lor WGDEVICE_HAS_PRIVATE_KEY WGDEVICE_HAS_LISTEN_PORT)) |>
    <| private_key := repeat "x"%byte 32 |> <| listen_port := 51820 |> <| junk_packet_count := 4 |>
    <| init_packet_magic_header := Some (text "100-200") |>
    <| peers := [demo_peer; zero_peer] |>.

Lemma demo_device_bsd : bsd_device AF_INET6_FREEBSD demo_device.
Proof.
  constructor; try done.
  - repeat (apply Forall_cons_2; [by cbv |]). by apply Forall_nil.
  - repeat (apply Forall_cons_2; [split; [cbv; intuition discriminate | by cbv] |]). by apply Forall_nil.
  - apply Forall_cons_2; [| apply Forall_singleton].
    + constructor; try done; try (cbv; intuition discriminate).
      apply Forall_cons_2; [| apply Forall_singleton]; constructor; try done; [left | right]; cbv; intuition discriminate.
    + constructor; try done; try (cbv; intuition discriminate).
Qed.

(** The device comes back with the endpoint of its first peer. *)
Lemma fb_device_roundtrip_witness :
  exists data : @fb_state echo_ioctl, fb_set_device ([] : @fb_state echo_ioctl) demo_device = Returns (data, 0)
  /\ fb_get_device (fun _ => []) data (text "awg0") = inr (io_image (if_inet AF_INET6_FREEBSD copied_sockaddr) (text "awg0") demo_device).
Proof.
  exists (pos_bytes (encode (fb_nvlist demo_device))).
  apply (fb_device_roundtrip (K := echo_ioctl) (fun _ => []) [] (pos_bytes (encode (fb_nvlist demo_device))) demo_device
           (fb_nvlist demo_device) (pos_bytes (encode (fb_nvlist demo_device))) (text "awg0")); try reflexivity.
  exact demo_device_bsd.
Defined.

(** A peer with the address 10.0.0.1/33. *)
Definition bad_aip : @nvlist_t tree_nvlist :=
  nvlist_add (nvlist_add nvlist_create "cidr" (NvNumber 33)) "ipv4" (NvBinary [x0a; x00; x00; x01]).
Definition bad_list : @nvlist_t tree_nvlist :=
  nvlist_add nvlist_create "peers" (NvArray [nvlist_add nvlist_create "allowed-ips" (NvArray [bad_aip])]).

Definition bad_data : @fb_state echo_ioctl := pos_bytes (encode (bad_list : nv_tree)).

Lemma fb_get_device_bad_prefix_witness :
  device_bad bad_list = true
  /\ fb_get_device (fun _ => []) bad_data (text "awg0") = inl EINVAL.
Proof.
  split; [reflexivity |].
  apply (fb_get_device_bad_prefix (K := echo_ioctl) (fun _ => []) bad_data (text "awg0") bad_data
           (length bad_data) bad_list); try reflexivity.
Defined.
