(* ===== verification/OpenBsd.v ===== *)
(** * The kernel interface on OpenBSD (src/ipc-openbsd.h, src/uapi/openbsd/net/if_wg.h)

    A device crosses the kernel boundary as a [struct wg_interface_io] that is followed by its
    peers, each followed by its allowed IPs.  The structures are records of lists.  The array
    without a length, [i_peers], stands in the middle of its structure, so that the members of
    AmneziaWG after it and the first peer lie on the same bytes: the record holds both views of
    them, and what [kernel_set_device] does for a device that has peers and such members is
    left to the system.  The word [i_flags] has 16 bits. *)

From S2P Require Import Netlink Prelude CString Encoding Containers Ipc KernelImage Bsd.
#[local] Open Scope Z_scope.
#[local] Open Scope awg_scope.

(** ** <net/if_wg.h> *)

Definition AF_INET6_OPENBSD : Z := 24.

(** The names of WG_INTERFACE_* and of WG_PEER_*. *)
Inductive interface_flag :=
| HAS_PUBLIC | HAS_PRIVATE | HAS_PORT | HAS_RTABLE | REPLACE_PEERS
| HAS_JC | HAS_JMIN | HAS_JMAX | HAS_S1 | HAS_S2 | HAS_S3 | HAS_S4
| HAS_H1 | HAS_H2 | HAS_H3 | HAS_H4 | HAS_I1 | HAS_I2 | HAS_I3 | HAS_I4 | HAS_I5.

Inductive peer_flag :=
| PEER_HAS_PUBLIC | PEER_HAS_PSK | PEER_HAS_PKA | PEER_HAS_ENDPOINT | PEER_REPLACE_AIPS | PEER_REMOVE | PEER_UPDATE.

#[export] Instance interface_flag_eq_dec : EqDecision interface_flag.
Proof. solve_decision. Defined.
#[export] Instance peer_flag_eq_dec : EqDecision peer_flag.
Proof. solve_decision. Defined.

Definition WG_INTERFACE (f : interface_flag) : Z :=
  match f with
  | HAS_PUBLIC => Z.shiftl 1 0
  | HAS_PRIVATE => Z.shiftl 1 1
  | HAS_PORT => Z.shiftl 1 2
  | HAS_RTABLE => Z.shiftl 1 3
  | REPLACE_PEERS => Z.shiftl 1 4
  | HAS_JC => Z.shiftl 1 5
  | HAS_JMIN => Z.shiftl 1 6
  | HAS_JMAX => Z.shiftl 1 7
  | HAS_S1 => Z.shiftl 1 8
  | HAS_S2 => Z.shiftl 1 9
  | HAS_H1 => Z.shiftl 1 10
  | HAS_H2 => Z.shiftl 1 11
  | HAS_H3 => Z.shiftl 1 12
  | HAS_H4 => Z.shiftl 1 13
  | HAS_S3 => Z.shiftl 1 14
  | HAS_S4 => Z.shiftl 1 15
  | HAS_I1 => Z.shiftl 1 16
  | HAS_I2 => Z.shiftl 1 17
  | HAS_I3 => Z.shiftl 1 18
  | HAS_I4 => Z.shiftl 1 19
  | HAS_I5 => Z.shiftl 1 20
  end.

Definition WG_PEER (f : peer_flag) : Z :=
  match f with
  | PEER_HAS_PUBLIC => Z.shiftl 1 0
  | PEER_HAS_PSK => Z.shiftl 1 1
  | PEER_HAS_PKA => Z.shiftl 1 2
  | PEER_HAS_ENDPOINT => Z.shiftl 1 3
  | PEER_REPLACE_AIPS => Z.shiftl 1 4
  | PEER_REMOVE => Z.shiftl 1 5
  | PEER_UPDATE => Z.shiftl 1 6
  end.

Record wg_aip_io := WgAipIo {
  a_af : Z;
  a_cidr : Z;
  a_addr : list byte;
}.

Record wg_peer_io := WgPeerIo {
  p_flags : Z;
  p_protocol_version : Z;
  p_public : list byte;
  p_psk : list byte;
  p_pka : Z;
  p_endpoint : list byte;
  p_txbytes : Z;
  p_rxbytes : Z;
  p_last_handshake : timespec64;
  p_aips : list wg_aip_io;
}.

Record wg_interface_io := WgInterfaceIo {
  i_flags : Z;
  i_port : Z;
  i_rtable : Z;
  i_public : list byte;
  i_private : list byte;
  i_junk_packet_count : Z;
  i_junk_packet_min_size : Z;
  i_junk_packet_max_size : Z;
  i_init_packet_junk_size : Z;
  i_response_packet_junk_size : Z;
  i_cookie_reply_packet_junk_size : Z;
  i_transport_packet_junk_size : Z;
  i_init_packet_magic_header : option (list byte);
  i_response_packet_magic_header : option (list byte);
  i_underload_packet_magic_header : option (list byte);
  i_transport_packet_magic_header : option (list byte);
  i_i1 : option (list byte);
  i_i2 : option (list byte);
  i_i3 : option (list byte);
  i_i4 : option (list byte);
  i_i5 : option (list byte);
  i_peers : list wg_peer_io;
}.

#[export] Instance eta_wg_aip_io : Eta wg_aip_io := fun r => WgAipIo (a_af r) (a_cidr r) (a_addr r).

#[export] Instance eta_wg_peer_io : Eta wg_peer_io :=
  fun r => WgPeerIo (p_flags r) (p_protocol_version r) (p_public r) (p_psk r) (p_pka r) (p_endpoint r) (p_txbytes r) (p_rxbytes r)
    (p_last_handshake r) (p_aips r).

#[export] Instance eta_wg_interface_io : Eta wg_interface_io :=
  fun r => WgInterfaceIo (i_flags r) (i_port r) (i_rtable r) (i_public r) (i_private r)
    (i_junk_packet_count r) (i_junk_packet_min_size r) (i_junk_packet_max_size r) (i_init_packet_junk_size r)
    (i_response_packet_junk_size r) (i_cookie_reply_packet_junk_size r) (i_transport_packet_junk_size r)
    (i_init_packet_magic_header r) (i_response_packet_magic_header r) (i_underload_packet_magic_header r)
    (i_transport_packet_magic_header r) (i_i1 r) (i_i2 r) (i_i3 r) (i_i4 r) (i_i5 r) (i_peers r).

(** The size of the union [p_endpoint]. *)
Definition sizeof_p_endpoint : nat := sizeof_sockaddr_in6.

(** What [calloc] gives. *)
Definition zero_aip_io : wg_aip_io := WgAipIo 0 0 (repeat x00 16).
Definition zero_peer_io : wg_peer_io :=
  WgPeerIo 0 0 zero_key zero_key 0 (repeat x00 sizeof_p_endpoint) 0 0 (Timespec64 0 0) [].
Definition zero_interface_io : wg_interface_io :=
  WgInterfaceIo 0 0 0 zero_key zero_key 0 0 0 0 0 0 0 None None None None None None None None None [].

(** The kernel.  SIOCGWG takes the size of the buffer and returns the size the data has and what
    the buffer holds after the call, where a string whose flag is set is not NULL; the sizes of
    the structures are those of the system.  [ob_overlaid] is the whole of [kernel_set_device]
    for a device whose peers are written over members that were set before. *)
Class WgData := {
  ob_state : Type;
  ob_socket : ob_state -> option Z;
  ob_group_len : ob_state -> Z + nat;
  ob_group : ob_state -> nat -> Z + list (list byte);
  ob_get : ob_state -> list byte -> Z -> ob_state * (Z + (Z * wg_interface_io));
  ob_set : ob_state -> list byte -> Z -> wg_interface_io -> ob_state * option Z;
  ob_overlaid : ob_state -> wgdevice -> outcome (ob_state * Z);
  sizeof_interface_io : Z;
  sizeof_peer_io : Z;
  sizeof_aip_io : Z;
}.

(** ** [kernel_get_wireguard_interfaces] *)

Definition ob_get_wireguard_interfaces `{WgData} (fresh : nat -> byte) (k : ob_state) (list : string_list) : Z * string_list :=
  match ob_socket k with
  | Some errno => (- errno, list)
  | None =>
      match ob_group_len k with
      | inl errno => (if errno =? ENOENT then 0 else - errno, list)
      | inr ifgr_len =>
          match ob_group k ifgr_len with
          | inl errno => (- errno, list)
          | inr members => (0, fold_left (string_list_add fresh) members list)
          end
      end
  end.

(** ** [kernel_get_device] *)

Section Read.
Definition ob_read_attributes (wg : wg_interface_io) (dev : wgdevice) : wgdevice :=
  let has f := has_flag (i_flags wg) (WG_INTERFACE f) in
  let strdup (s : option (list byte)) := Some (default [] s) in
  let dev := take_if (has HAS_RTABLE) WGDEVICE_HAS_FWMARK (fun d => d <| fwmark := u32 (i_rtable wg) |>) dev in
  let dev := take_if (has HAS_PORT) WGDEVICE_HAS_LISTEN_PORT (fun d => d <| listen_port := i_port wg |>) dev in
  let dev := take_if (has HAS_PUBLIC) WGDEVICE_HAS_PUBLIC_KEY (fun d => d <| public_key := i_public wg |>) dev in
  let dev := take_if (has HAS_PRIVATE) WGDEVICE_HAS_PRIVATE_KEY (fun d => d <| private_key := i_private wg |>) dev in
  let dev := take_if (has HAS_JC) WGDEVICE_HAS_JC (fun d => d <| junk_packet_count := i_junk_packet_count wg |>) dev in
  let dev := take_if (has HAS_JMIN) WGDEVICE_HAS_JMIN (fun d => d <| junk_packet_min_size := i_junk_packet_min_size wg |>) dev in
  let dev := take_if (has HAS_JMAX) WGDEVICE_HAS_JMAX (fun d => d <| junk_packet_max_size := i_junk_packet_max_size wg |>) dev in
  let dev := take_if (has HAS_S1) WGDEVICE_HAS_S1 (fun d => d <| init_packet_junk_size := i_init_packet_junk_size wg |>) dev in
  let dev := take_if (has HAS_S2) WGDEVICE_HAS_S2 (fun d => d <| response_packet_junk_size := i_response_packet_junk_size wg |>) dev in
  let dev := take_if (has HAS_S3) WGDEVICE_HAS_S3 (fun d => d <| cookie_reply_packet_junk_size := i_cookie_reply_packet_junk_size wg |>) dev in
  let dev := take_if (has HAS_S4) WGDEVICE_HAS_S4 (fun d => d <| transport_packet_junk_size := i_transport_packet_junk_size wg |>) dev in
  let dev := take_if (has HAS_H1) WGDEVICE_HAS_H1 (fun d => d <| init_packet_magic_header := strdup (i_init_packet_magic_header wg) |>) dev in
  let dev := take_if (has HAS_H2) WGDEVICE_HAS_H2 (fun d => d <| response_packet_magic_header := strdup (i_response_packet_magic_header wg) |>) dev in
  let dev := take_if (has HAS_H3) WGDEVICE_HAS_H3 (fun d => d <| underload_packet_magic_header := strdup (i_underload_packet_magic_header wg) |>) dev in
  let dev := take_if (has HAS_H4) WGDEVICE_HAS_H4 (fun d => d <| transport_packet_magic_header := strdup (i_transport_packet_magic_header wg) |>) dev in
  let dev := take_if (has HAS_I1) WGDEVICE_HAS_I1 (fun d => d <| i1 := strdup (i_i1 wg) |>) dev in
  let dev := take_if (has HAS_I2) WGDEVICE_HAS_I2 (fun d => d <| i2 := strdup (i_i2 wg) |>) dev in
  let dev := take_if (has HAS_I3) WGDEVICE_HAS_I3 (fun d => d <| i3 := strdup (i_i3 wg) |>) dev in
  let dev := take_if (has HAS_I4) WGDEVICE_HAS_I4 (fun d => d <| i4 := strdup (i_i4 wg) |>) dev in
  take_if (has HAS_I5) WGDEVICE_HAS_I5 (fun d => d <| i5 := strdup (i_i5 wg) |>) dev.

Definition ob_read_aip (wg_aip : wg_aip_io) : wgallowedip :=
  let aip := zero_allowedip <| family := a_af wg_aip |> in
  if a_af wg_aip =? AF_INET then
    aip <| ip ::= fun dst => memcpy_front dst (take 4 (a_addr wg_aip)) |> <| cidr := u8 (a_cidr wg_aip) |>
  else if a_af wg_aip =? AF_INET6_OPENBSD then
    aip <| ip := a_addr wg_aip |> <| cidr := u8 (a_cidr wg_aip) |>
  else aip.

(** [sizeof(peer->endpoint.addr)] is that of a [struct sockaddr]. *)
Definition sizeof_sockaddr : Z := 16.

Definition ob_read_peer (wg_peer : wg_peer_io) : wgpeer :=
  let has f := has_flag (p_flags wg_peer) (WG_PEER f) in
  let p := zero_peer in
  let p := if has PEER_HAS_PUBLIC then set_peer_flag WGPEER_HAS_PUBLIC_KEY (p <| peer_public_key := p_public wg_peer |>) else p in
  let p := if has PEER_HAS_PSK then
             let p := p <| preshared_key := p_psk wg_peer |> in
             if key_is_zero (preshared_key p) then p else set_peer_flag WGPEER_HAS_PRESHARED_KEY p
           else p in
  let p := if has PEER_HAS_PKA then
             set_peer_flag WGPEER_HAS_PERSISTENT_KEEPALIVE_INTERVAL (p <| persistent_keepalive_interval := p_pka wg_peer |>)
           else p in
  let p := if has PEER_HAS_ENDPOINT && (sa_len (p_endpoint wg_peer) <=? sizeof_sockaddr) then
             p <| endpoint ::= fun dst => memcpy_front dst (take (Z.to_nat (sa_len (p_endpoint wg_peer))) (p_endpoint wg_peer)) |>
           else p in
  p <| rx_bytes := p_rxbytes wg_peer |> <| tx_bytes := p_txbytes wg_peer |>
    <| last_handshake_time := p_last_handshake wg_peer |>
    <| allowedips := map ob_read_aip (p_aips wg_peer) |>.

Definition ob_read_device (wg : wg_interface_io) (dev : wgdevice) : wgdevice :=
  (ob_read_attributes wg dev) <| peers := map ob_read_peer (i_peers wg) |>.

Context `{WgData}.

(** The loop around SIOCGWG, with the number of calls left: the buffer grows until the data is
    not larger than it.  [None] is the NULL pointer, when there is no buffer yet. *)
Fixpoint ob_get_loop (fuel : nat) (k : ob_state) (wgd_name : list byte) (wgd_size : Z) :
    outcome (ob_state * (Z + option wg_interface_io)) :=
  match fuel with
  | O => OutOfFuel
  | S fuel =>
      match ob_get k wgd_name wgd_size with
      | (k, inl errno) => Returns (k, inl errno)
      | (k, inr (size, buf)) =>
          if size <=? wgd_size then Returns (k, inr (if wgd_size =? 0 then None else Some buf))
          else ob_get_loop fuel k wgd_name size
      end
  end.

Definition ob_get_device (fuel : nat) (k : ob_state) (iface : list byte) : outcome (ob_state * (Z + wgdevice)) :=
  match ob_socket k with
  | Some errno => Returns (k, inl (- errno))
  | None =>
      match ob_get_loop fuel k (strlcpy IFNAMSIZ iface) 0 with
      | Returns (k, inl errno) => Returns (k, inl (- errno))
      | Returns (k, inr None) => Exits SEGV
      | Returns (k, inr (Some wg)) => Returns (k, inr (ob_read_device wg (zero_device <| name := strlcpy IFNAMSIZ iface |>)))
      | Exits code => Exits code
      | OutOfFuel => OutOfFuel
      end
  end.

End Read.

(** ** [kernel_set_device] *)

Section Write.
(** A field is written and its flag set. *)
Definition put_if (c : bool) (f : interface_flag) (set : wg_interface_io -> wg_interface_io) (wg : wg_interface_io) : wg_interface_io :=
  if c then (set wg) <| i_flags ::= fun x => u16 (Z.lor x (WG_INTERFACE f)) |> else wg.

(** None: [strdup] of a string that is NULL. *)
Definition ob_write_attributes (dev : wgdevice) (wg : wg_interface_io) : option wg_interface_io :=
  let has := has_flag (flags dev) in
  let strdup f (s : option (list byte)) set wg := s ← s; Some (put_if true f (set s) wg) in
  let wg := put_if (has WGDEVICE_HAS_PRIVATE_KEY) HAS_PRIVATE (fun w => w <| i_private := private_key dev |>) wg in
  let wg := put_if (has WGDEVICE_HAS_LISTEN_PORT) HAS_PORT (fun w => w <| i_port := listen_port dev |>) wg in
  let wg := put_if (has WGDEVICE_HAS_FWMARK) HAS_RTABLE (fun w => w <| i_rtable := s32 (fwmark dev) |>) wg in
  let wg := put_if (has WGDEVICE_REPLACE_PEERS) REPLACE_PEERS (fun w => w) wg in
  let wg := put_if (has WGDEVICE_HAS_JC) HAS_JC (fun w => w <| i_junk_packet_count := junk_packet_count dev |>) wg in
  let wg := put_if (has WGDEVICE_HAS_JMIN) HAS_JMIN (fun w => w <| i_junk_packet_min_size := junk_packet_min_size dev |>) wg in
  let wg := put_if (has WGDEVICE_HAS_JMAX) HAS_JMAX (fun w => w <| i_junk_packet_max_size := junk_packet_max_size dev |>) wg in
  let wg := put_if (has WGDEVICE_HAS_S1) HAS_S1 (fun w => w <| i_init_packet_junk_size := init_packet_junk_size dev |>) wg in
  let wg := put_if (has WGDEVICE_HAS_S2) HAS_S2 (fun w => w <| i_response_packet_junk_size := response_packet_junk_size dev |>) wg in
  let wg := put_if (has WGDEVICE_HAS_S3) HAS_S3 (fun w => w <| i_cookie_reply_packet_junk_size := cookie_reply_packet_junk_size dev |>) wg in
  let wg := put_if (has WGDEVICE_HAS_S4) HAS_S4 (fun w => w <| i_transport_packet_junk_size := transport_packet_junk_size dev |>) wg in
  wg ← when (has WGDEVICE_HAS_H1) (strdup HAS_H1 (init_packet_magic_header dev) (fun s w => w <| i_init_packet_magic_header := Some s |>)) wg;
  wg ← when (has WGDEVICE_HAS_H2) (strdup HAS_H2 (response_packet_magic_header dev) (fun s w => w <| i_response_packet_magic_header := Some s |>)) wg;
  wg ← when (has WGDEVICE_HAS_H3) (strdup HAS_H3 (underload_packet_magic_header dev) (fun s w => w <| i_underload_packet_magic_header := Some s |>)) wg;
  wg ← when (has WGDEVICE_HAS_H4) (strdup HAS_H4 (transport_packet_magic_header dev) (fun s w => w <| i_transport_packet_magic_header := Some s |>)) wg;
  wg ← when (has WGDEVICE_HAS_I1) (strdup HAS_I1 (i1 dev) (fun s w => w <| i_i1 := Some s |>)) wg;
  wg ← when (has WGDEVICE_HAS_I2) (strdup HAS_I2 (i2 dev) (fun s w => w <| i_i2 := Some s |>)) wg;
  wg ← when (has WGDEVICE_HAS_I3) (strdup HAS_I3 (i3 dev) (fun s w => w <| i_i3 := Some s |>)) wg;
  wg ← when (has WGDEVICE_HAS_I4) (strdup HAS_I4 (i4 dev) (fun s w => w <| i_i4 := Some s |>)) wg;
  wg ← when (has WGDEVICE_HAS_I5) (strdup HAS_I5 (i5 dev) (fun s w => w <| i_i5 := Some s |>)) wg;
  Some wg.

(** An address of another family is not counted; the two fields written for it are left in the
    space of the next structure, which is not modelled. *)
Definition ob_write_aip (aip : wgallowedip) : option wg_aip_io :=
  let wg_aip := zero_aip_io <| a_af := u8 (family aip) |> <| a_cidr := cidr aip |> in
  if family aip =? AF_INET then Some (wg_aip <| a_addr ::= fun dst => memcpy_front dst (ip4 aip) |>)
  else if family aip =? AF_INET6_OPENBSD then Some (wg_aip <| a_addr := ip6 aip |>)
  else None.

Definition ob_write_peer (peer : wgpeer) : wg_peer_io :=
  let has := has_flag (peer_flags peer) in
  let flag f p := p <| p_flags ::= fun x => Z.lor x (WG_PEER f) |> in
  let sa := endpoint peer in
  let p := zero_peer_io <| p_flags := WG_PEER PEER_HAS_PUBLIC |> <| p_public := peer_public_key peer |> in
  let p := if has WGPEER_HAS_PRESHARED_KEY then flag PEER_HAS_PSK (p <| p_psk := preshared_key peer |>) else p in
  let p := if has WGPEER_HAS_PERSISTENT_KEEPALIVE_INTERVAL
           then flag PEER_HAS_PKA (p <| p_pka := persistent_keepalive_interval peer |>) else p in
  let p := if ((sa_family8 sa =? AF_INET) || (sa_family8 sa =? AF_INET6_OPENBSD)) && (sa_len sa <=? Z.of_nat sizeof_p_endpoint)
           then flag PEER_HAS_ENDPOINT (p <| p_endpoint ::= fun dst => memcpy_front dst (take (Z.to_nat (sa_len sa)) sa) |>)
           else p in
  let p := if has WGPEER_REPLACE_ALLOWEDIPS then flag PEER_REPLACE_AIPS p else p in
  let p := if has WGPEER_REMOVE_ME then flag PEER_REMOVE p else p in
  p <| p_aips := omap ob_write_aip (allowedips peer) |>.

(** The flags of the members behind [i_peers]. *)
Definition behind_peers : list Z :=
  [WGDEVICE_HAS_JC; WGDEVICE_HAS_JMIN; WGDEVICE_HAS_JMAX; WGDEVICE_HAS_S1; WGDEVICE_HAS_S2; WGDEVICE_HAS_S3; WGDEVICE_HAS_S4;
   WGDEVICE_HAS_H1; WGDEVICE_HAS_H2; WGDEVICE_HAS_H3; WGDEVICE_HAS_H4;
   WGDEVICE_HAS_I1; WGDEVICE_HAS_I2; WGDEVICE_HAS_I3; WGDEVICE_HAS_I4; WGDEVICE_HAS_I5].

(** Peers are written over members that were set. *)
Definition overlaps (dev : wgdevice) : bool :=
  negb (length (peers dev) =? 0)%nat && existsb (has_flag (flags dev)) behind_peers.

(** The structures of a device for which they do not; None as before. *)
Definition ob_write_device (dev : wgdevice) : option wg_interface_io :=
  wg ← ob_write_attributes dev zero_interface_io; Some (wg <| i_peers := map ob_write_peer (peers dev) |>).

Context `{WgData}.

(** The size of the structures of a device. *)
Definition ob_size (dev : wgdevice) : Z :=
  fold_left (fun size peer => fold_left (fun size _ => size + sizeof_aip_io) (allowedips peer) (size + sizeof_peer_io))
    (peers dev) sizeof_interface_io.

Definition ob_set_device (k : ob_state) (dev : wgdevice) : outcome (ob_state * Z) :=
  match ob_socket k with
  | Some errno => Returns (k, - errno)
  | None =>
      match ob_write_device dev with
      | None => Exits SEGV
      | Some wg_iface =>
          if overlaps dev then ob_overlaid k dev
          else
            match ob_set k (strlcpy IFNAMSIZ (name dev)) (ob_size dev) wg_iface with
            | (k, Some errno) => Returns (k, - errno)
            | (k, None) => Returns (k, 0)
            end
      end
  end.

End Write.
