(* ===== verification/OpenBsdOk.v ===== *)
(** * Devices set and read on OpenBSD (src/ipc-openbsd.h)

    The structures that [kernel_set_device] writes are read back by [kernel_get_device] as the
    [io_image] of the device, when it does not have both peers and members that lie behind
    them, except that an endpoint longer than a [struct sockaddr] and the strings I1 to I5 are
    lost.  The loop around SIOCGWG ends when the size of the data is
    bounded. *)

From S2P Require Import Netlink Prelude CString Encoding Containers WellFormed Ipc KernelImage Bsd OpenBsd.
#[local] Open Scope Z_scope.
#[local] Open Scope awg_scope.

(** ** The word of flags *)

(** The conditions under which the flags are set. *)
Definition announces (dev : wgdevice) (f : interface_flag) : bool :=
  let has := has_flag (flags dev) in
  match f with
  | HAS_PUBLIC => false
  | HAS_PRIVATE => has WGDEVICE_HAS_PRIVATE_KEY
  | HAS_PORT => has WGDEVICE_HAS_LISTEN_PORT
  | HAS_RTABLE => has WGDEVICE_HAS_FWMARK
  | REPLACE_PEERS => has WGDEVICE_REPLACE_PEERS
  | HAS_JC => has WGDEVICE_HAS_JC
  | HAS_JMIN => has WGDEVICE_HAS_JMIN
  | HAS_JMAX => has WGDEVICE_HAS_JMAX
  | HAS_S1 => has WGDEVICE_HAS_S1
  | HAS_S2 => has WGDEVICE_HAS_S2
  | HAS_S3 => has WGDEVICE_HAS_S3
  | HAS_S4 => has WGDEVICE_HAS_S4
  | HAS_H1 => has WGDEVICE_HAS_H1
  | HAS_H2 => has WGDEVICE_HAS_H2
  | HAS_H3 => has WGDEVICE_HAS_H3
  | HAS_H4 => has WGDEVICE_HAS_H4
  | HAS_I1 => has WGDEVICE_HAS_I1
  | HAS_I2 => has WGDEVICE_HAS_I2
  | HAS_I3 => has WGDEVICE_HAS_I3
  | HAS_I4 => has WGDEVICE_HAS_I4
  | HAS_I5 => has WGDEVICE_HAS_I5
  end.

(** The order in which they are set. *)
Definition write_order : list interface_flag :=
  [HAS_PRIVATE; HAS_PORT; HAS_RTABLE; REPLACE_PEERS; HAS_JC; HAS_JMIN; HAS_JMAX; HAS_S1; HAS_S2; HAS_S3; HAS_S4;
   HAS_H1; HAS_H2; HAS_H3; HAS_H4; HAS_I1; HAS_I2; HAS_I3; HAS_I4; HAS_I5].

(** The flags of I1 to I5 are beyond the 16 bits of [i_flags]: a device without them. *)
Definition I_FLAGS : Z :=
  Z.lor WGDEVICE_HAS_I1 (Z.lor WGDEVICE_HAS_I2 (Z.lor WGDEVICE_HAS_I3 (Z.lor WGDEVICE_HAS_I4 WGDEVICE_HAS_I5))).
Definition without_i : wgdevice -> wgdevice := drop_flags I_FLAGS.

Definition fits16 (f : interface_flag) : bool :=
  match f with HAS_I1 | HAS_I2 | HAS_I3 | HAS_I4 | HAS_I5 => false | _ => true end.

Lemma interface_fits (f : interface_flag) (a : Z) : has_flag (uw 16 a) (WG_INTERFACE f) = fits16 f && has_flag a (WG_INTERFACE f).
Proof.
  unfold uw. rewrite <- land_mask, has_flag_mask by done. unfold has_flag.
  by destruct f; cbn [fits16 andb]; match goal with |- context [Z.land a ?m =? 0] =>
    let v := eval vm_compute in m in change m with v end; rewrite ?Z.land_0_r.
Qed.

Lemma interface_bits (f g : interface_flag) : has_flag (WG_INTERFACE f) (WG_INTERFACE g) = bool_decide (f = g).
Proof. by destruct f, g. Qed.

Lemma interface_word (dev : wgdevice) (f : interface_flag) :
  has_flag (flag_word 16 WG_INTERFACE (announces dev) write_order) (WG_INTERFACE f) = announces (without_i dev) f.
Proof.
  rewrite (has_flag_word _ _ fits16) by (apply interface_bits || apply interface_fits).
  destruct f; cbn [fits16 announces andb]; [done | ..]; unfold without_i; rewrite has_dropped;
    match goal with |- context [Z.ldiff ?m ?i] => let v := eval vm_compute in (Z.ldiff m i) in change (Z.ldiff m i) with v end;
    first [apply andb_true_r | unfold has_flag; by rewrite Z.land_0_r].
Qed.

(** ** What is written *)

Lemma put_if_field {T} (proj : wg_interface_io -> T) `{S : !Setter proj} (c : bool) (f : interface_flag) (v : T) (w : wg_interface_io) :
  modify proj (fun old => old) w = w ->
  put_if c f (fun w => w <| proj := v |>) w
  = (modify proj (fun old => if c then v else old) w) <| i_flags ::= flag_step 16 c (WG_INTERFACE f) |>.
Proof. intros Hid. unfold put_if. destruct c; [done |]. cbv match. rewrite Hid. by destruct w. Qed.

Lemma put_if_flag (c : bool) (f : interface_flag) (w : wg_interface_io) :
  put_if c f (fun w => w) w = w <| i_flags ::= flag_step 16 c (WG_INTERFACE f) |>.
Proof. unfold put_if. destruct c; [done |]. by destruct w. Qed.

Definition ob_written (dev : wgdevice) (ps : list wg_peer_io) : wg_interface_io :=
  let a := announces dev in
  let number f (v : Z) := if a f then v else 0 in
  let str f (s : option (list byte)) := if a f then Some (default [] s) else None in
  WgInterfaceIo (flag_word 16 WG_INTERFACE a write_order) (number HAS_PORT (listen_port dev)) (number HAS_RTABLE (s32 (fwmark dev)))
    zero_key (if a HAS_PRIVATE then private_key dev else zero_key)
    (number HAS_JC (junk_packet_count dev)) (number HAS_JMIN (junk_packet_min_size dev))
    (number HAS_JMAX (junk_packet_max_size dev)) (number HAS_S1 (init_packet_junk_size dev))
    (number HAS_S2 (response_packet_junk_size dev)) (number HAS_S3 (cookie_reply_packet_junk_size dev))
    (number HAS_S4 (transport_packet_junk_size dev))
    (str HAS_H1 (init_packet_magic_header dev)) (str HAS_H2 (response_packet_magic_header dev))
    (str HAS_H3 (underload_packet_magic_header dev)) (str HAS_H4 (transport_packet_magic_header dev))
    (str HAS_I1 (i1 dev)) (str HAS_I2 (i2 dev)) (str HAS_I3 (i3 dev)) (str HAS_I4 (i4 dev)) (str HAS_I5 (i5 dev)) ps.

Ltac interface_fields :=
  cbn [modify i_flags i_port i_rtable i_public i_private i_junk_packet_count i_junk_packet_min_size i_junk_packet_max_size
       i_init_packet_junk_size i_response_packet_junk_size i_cookie_reply_packet_junk_size i_transport_packet_junk_size
       i_init_packet_magic_header i_response_packet_magic_header i_underload_packet_magic_header
       i_transport_packet_magic_header i_i1 i_i2 i_i3 i_i4 i_i5 i_peers].

Ltac write_attribute :=
  first [rewrite put_if_field by reflexivity | rewrite put_if_flag]; unfold zero_interface_io; interface_fields.

(** The attributes of a device whose strings are there. *)
Definition ob_attributes (dev : wgdevice) (wg : wg_interface_io) : wg_interface_io :=
  let has := has_flag (flags dev) in
  let strdup (s : option (list byte)) := Some (default [] s) in
  let wg := put_if (has WGDEVICE_HAS_PRIVATE_KEY) HAS_PRIVATE (fun w => w <| i_private := private_key dev |>) wg in
  let wg := put_if (has WGDEVICE_HAS_LISTEN_PORT) HAS_PORT (fun w => w <| i_port := listen_port dev |>) wg in
  let wg := put_if (has WGDEVICE_HAS_FWMARK) HAS_RTABLE (fun w => w <| i_rtable := s32 (fwmark dev) |>) wg in
  let wg := put_if (has WGDEVICE_REPLACE_PEERS) REPLACE_PEERS (fun w => w) wg in
  let wg := put_if (has WGDEVICE_HAS_JC) HAS_JC (fun w => w <| i_junk_packet_count := junk_packet_count dev |>) wg in
  let wg := put_if (has WGDEVICE_HAS_JMIN) HAS_JMIN (fun w => w <| i_junk_packet_min_size := junk_packet_min_size dev |>) wg in
  let wg := put_if (has WGDEVICE_HAS_JMAX) HAS_JMAX (fun w => w <| i_junk_packet_max_size := junk_packet_max_size dev |>) wg in
  let wg := put_if (has WGDEVICE_HAS_S1) HAS_S1 (fun w => w <| i_init_packet_junk_size := init_packet_junk_size dev |>) wg in
  let wg := put_if (has WGDEVICE_HAS_S2) HAS_S2 (fun w => w <| i_response_packet_junk_size := response_packet_junk_size dev |>) wg in
  let wg := put_if (has WGDEVICE_HAS_S3) HAS_S3 (fun w => w <| i_cookie_reply_packet_junk_size := cookie_reply_packet_junk_size dev |>) wg in
  let wg := put_if (has WGDEVICE_HAS_S4) HAS_S4 (fun w => w <| i_transport_packet_junk_size := transport_packet_junk_size dev |>) wg in
  let wg := put_if (has WGDEVICE_HAS_H1) HAS_H1 (fun w => w <| i_init_packet_magic_header := strdup (init_packet_magic_header dev) |>) wg in
  let wg := put_if (has WGDEVICE_HAS_H2) HAS_H2 (fun w => w <| i_response_packet_magic_header := strdup (response_packet_magic_header dev) |>) wg in
  let wg := put_if (has WGDEVICE_HAS_H3) HAS_H3 (fun w => w <| i_underload_packet_magic_header := strdup (underload_packet_magic_header dev) |>) wg in
  let wg := put_if (has WGDEVICE_HAS_H4) HAS_H4 (fun w => w <| i_transport_packet_magic_header := strdup (transport_packet_magic_header dev) |>) wg in
  let wg := put_if (has WGDEVICE_HAS_I1) HAS_I1 (fun w => w <| i_i1 := strdup (i1 dev) |>) wg in
  let wg := put_if (has WGDEVICE_HAS_I2) HAS_I2 (fun w => w <| i_i2 := strdup (i2 dev) |>) wg in
  let wg := put_if (has WGDEVICE_HAS_I3) HAS_I3 (fun w => w <| i_i3 := strdup (i3 dev) |>) wg in
  let wg := put_if (has WGDEVICE_HAS_I4) HAS_I4 (fun w => w <| i_i4 := strdup (i4 dev) |>) wg in
  put_if (has WGDEVICE_HAS_I5) HAS_I5 (fun w => w <| i_i5 := strdup (i5 dev) |>) wg.

Lemma ob_write_attributes_present (dev : wgdevice) (wg : wg_interface_io) :
  ob_write_attributes dev wg = if strings_present dev then Some (ob_attributes dev wg) else None.
Proof.
  unfold ob_write_attributes, strings_present, device_strings. cbv zeta. cbn [forallb].
  repeat (rewrite when_present; match goal with |- context [implb ?a ?b] => destruct (implb a b); cbn [andb]; [| done] end).
  reflexivity.
Qed.

Lemma ob_attributes_written (dev : wgdevice) : ob_attributes dev zero_interface_io = ob_written dev [].
Proof.
  cbv delta [ob_attributes] beta. do 2 unlet. do 19 let_step write_attribute. write_attribute.
  unfold ob_written, flag_word, write_order. cbn [fold_left announces]. reflexivity.
Qed.

(** ** What is read of it *)

Lemma ob_written_has (dev : wgdevice) (ps : list wg_peer_io) (f : interface_flag) :
  has_flag (i_flags (ob_written dev ps)) (WG_INTERFACE f) = announces (without_i dev) f.
Proof. apply interface_word. Qed.

Ltac read_attribute :=
  unfold take_if; rewrite ob_written_has, cond_field by reflexivity; unfold set_dev_flag, zero_device; device_fields.

(** The flags of the device in the order in which they are set again. *)
Definition read_order : list Z :=
  [WGDEVICE_HAS_FWMARK; WGDEVICE_HAS_LISTEN_PORT; WGDEVICE_HAS_PRIVATE_KEY; WGDEVICE_HAS_JC; WGDEVICE_HAS_JMIN;
   WGDEVICE_HAS_JMAX; WGDEVICE_HAS_S1; WGDEVICE_HAS_S2; WGDEVICE_HAS_S3; WGDEVICE_HAS_S4; WGDEVICE_HAS_H1; WGDEVICE_HAS_H2;
   WGDEVICE_HAS_H3; WGDEVICE_HAS_H4; WGDEVICE_HAS_I1; WGDEVICE_HAS_I2; WGDEVICE_HAS_I3; WGDEVICE_HAS_I4; WGDEVICE_HAS_I5].

Lemma read_order_kept (fl : Z) :
  fold_left (fun acc f => Z.lor acc (if has_flag fl f then f else 0)) read_order 0 = Z.land fl IO_FLAGS.
Proof. apply flags_kept. unfold read_order. each_flag. Qed.

Lemma u32_s32 (z : Z) : is_u32 z -> u32 (s32 z) = z.
Proof.
  intros Hz. unfold is_u32 in Hz. unfold s32, u32. rewrite (uw_small 32 z) by done. cbv zeta.
  destruct (Z.leb_spec (2 ^ 31) z); [| by apply uw_small]. unfold uw. replace (z - 2 ^ 32) with (z + (-1) * 2 ^ 32) by lia.
  rewrite Z.mod_add by done. by apply Z.mod_small.
Qed.

Lemma ob_attributes_read (dev : wgdevice) (ps : list wg_peer_io) (nm : list byte) : is_u32 (fwmark dev) -> strings_present dev = true ->
  ob_read_attributes (ob_written dev ps) (zero_device <| name := nm |>) = io_front_image nm (without_i dev).
Proof.
  intros Hmark Hpresent. cbv delta [ob_read_attributes] beta. do 2 unlet. do 2 let_step read_attribute.
  let_step ltac:(unfold take_if; rewrite ob_written_has; cbn [announces]). do 16 let_step read_attribute. read_attribute.
  rewrite <- (io_front_present nm (without_i dev)) by (by apply dropped_present).
  unfold io_front_read. cbv zeta. rewrite <- read_order_kept. unfold read_order. cbn [fold_left announces].
  unfold ob_written. interface_fields. cbn [announces].
  f_equal; destruct (has_flag (flags (without_i dev)) _) eqn:E; try done; rewrite (dropped_has _ _ _ E); [done | | done ..].
  by apply u32_s32.
Qed.

(** ** Allowed IPs and peers *)

Lemma ob_aips_read (l : list wgallowedip) : Forall (bsd_allowedip AF_INET6_OPENBSD) l ->
  map ob_read_aip (omap ob_write_aip l) = map io_ip_image l.
Proof.
  induction 1 as [|a l [Hip Hcidr] _ IH]; [done |]. destruct a as [f b c]. cbn [family ip cidr] in *.
  change (omap ob_write_aip (?a :: l)) with (match ob_write_aip a with Some x => x :: omap ob_write_aip l | None => omap ob_write_aip l end).
  assert (length (take 4 b) = 4%nat) as H4 by (rewrite length_take; lia).
  destruct Hcidr as [[-> Hc] | [-> Hc]].
  - unfold ob_write_aip at 1. cbn [family]. change (AF_INET =? AF_INET) with true. cbv match. cbn [map]. rewrite IH. f_equal.
    unfold ob_read_aip, io_ip_image, ip4. cbn -[take repeat]. unfold memcpy_front. rewrite H4, (take_app_length' _ _ 4) by done.
    unfold u8. change (uw 8 AF_INET) with AF_INET. rewrite (uw_small 8 c) by lia. change (AF_INET =? AF_INET) with true.
    cbv match. by rewrite H4.
  - unfold ob_write_aip at 1. cbn [family]. change (AF_INET6_OPENBSD =? AF_INET) with false.
    change (AF_INET6_OPENBSD =? AF_INET6_OPENBSD) with true. cbv match. cbn [map]. rewrite IH. f_equal.
    unfold ob_read_aip, u8. cbn -[repeat uw]. change (uw 8 AF_INET6_OPENBSD) with AF_INET6_OPENBSD. by rewrite (uw_small 8 c) by lia.
Qed.

(** The flags of a peer. *)
Definition peer_announces (p : wgpeer) (f : peer_flag) : bool :=
  let has := has_flag (peer_flags p) in
  match f with
  | PEER_HAS_PUBLIC => true
  | PEER_HAS_PSK => has WGPEER_HAS_PRESHARED_KEY
  | PEER_HAS_PKA => has WGPEER_HAS_PERSISTENT_KEEPALIVE_INTERVAL
  | PEER_HAS_ENDPOINT => inet_family AF_INET6_OPENBSD (sa_family8 (endpoint p)) && (sa_len (endpoint p) <=? Z.of_nat sizeof_p_endpoint)
  | PEER_REPLACE_AIPS => has WGPEER_REPLACE_ALLOWEDIPS
  | PEER_REMOVE => has WGPEER_REMOVE_ME
  | PEER_UPDATE => false
  end.

Definition peer_order : list peer_flag :=
  [PEER_HAS_PUBLIC; PEER_HAS_PSK; PEER_HAS_PKA; PEER_HAS_ENDPOINT; PEER_REPLACE_AIPS; PEER_REMOVE].

Definition peer_word (p : wgpeer) : Z :=
  fold_left (fun acc f => if peer_announces p f then Z.lor acc (WG_PEER f) else acc) peer_order 0.

Lemma ob_peer_written (p : wgpeer) :
  ob_write_peer p
  = WgPeerIo (peer_word p) 0 (peer_public_key p)
      (if peer_announces p PEER_HAS_PSK then preshared_key p else zero_key)
      (if peer_announces p PEER_HAS_PKA then persistent_keepalive_interval p else 0)
      (if peer_announces p PEER_HAS_ENDPOINT
       then memcpy_front (repeat x00 sizeof_p_endpoint) (take (Z.to_nat (sa_len (endpoint p))) (endpoint p))
       else repeat x00 sizeof_p_endpoint)
      0 0 (Timespec64 0 0) (omap ob_write_aip (allowedips p)).
Proof.
  unfold ob_write_peer, peer_word, peer_order, zero_peer_io. cbn [fold_left peer_announces].
  unfold inet_family. destruct (has_flag _ WGPEER_HAS_PRESHARED_KEY), (has_flag _ WGPEER_HAS_PERSISTENT_KEEPALIVE_INTERVAL),
    (_ && _), (has_flag _ WGPEER_REPLACE_ALLOWEDIPS), (has_flag _ WGPEER_REMOVE_ME);
    cbn [modify p_flags p_protocol_version p_public p_psk p_pka p_endpoint p_txbytes p_rxbytes p_last_handshake p_aips]; done.
Qed.

Lemma peer_word_has (p : wgpeer) (f : peer_flag) : has_flag (peer_word p) (WG_PEER f) = peer_announces p f.
Proof.
  unfold peer_word, peer_order. cbn [fold_left peer_announces].
  destruct (has_flag _ WGPEER_HAS_PRESHARED_KEY) eqn:E1, (has_flag _ WGPEER_HAS_PERSISTENT_KEEPALIVE_INTERVAL) eqn:E2,
    (_ && _) eqn:E3, (has_flag _ WGPEER_REPLACE_ALLOWEDIPS) eqn:E4, (has_flag _ WGPEER_REMOVE_ME) eqn:E5;
    destruct f; cbn [peer_announces]; by rewrite ?E1, ?E2, ?E3, ?E4, ?E5.
Qed.

(** An endpoint is read only up to the size of a [struct sockaddr]. *)
Definition ob_endpoint_image (sa : list byte) : list byte :=
  if sa_len sa <=? sizeof_sockaddr then copied_sockaddr sa else repeat x00 sizeof_sockaddr_in6.

(** The first bytes of the endpoint in the structure. *)
Lemma ob_endpoint_seen (sa : list byte) : length sa = sizeof_sockaddr_in6 -> 16 <= sa_len sa <= 28 ->
  let e := memcpy_front (repeat x00 sizeof_p_endpoint) (take (Z.to_nat (sa_len sa)) sa) in
  sa_len e = sa_len sa /\ take (Z.to_nat (sa_len e)) e = take (Z.to_nat (sa_len sa)) sa.
Proof.
  intros Hl Hn e. assert (sa_len e = sa_len sa) as E.
  { unfold e, memcpy_front. unfold sa_len at 1. destruct (Z.to_nat (sa_len sa)) eqn:En; [lia |]. by destruct sa. }
  split; [done |]. rewrite E. unfold e, memcpy_front.
  apply take_app_length'. rewrite length_take, Hl. unfold sizeof_sockaddr_in6. lia.
Qed.

Lemma ob_peer_read (p : wgpeer) : bsd_peer AF_INET6_OPENBSD p ->
  ob_read_peer (ob_write_peer p) = io_peer_image (if_inet AF_INET6_OPENBSD ob_endpoint_image) p.
Proof.
  intros [Hkey Hpsk Hpka Hep Hsa Hips]. rewrite ob_peer_written. unfold ob_read_peer.
  cbn [p_flags p_protocol_version p_public p_psk p_pka p_endpoint p_txbytes p_rxbytes p_last_handshake p_aips].
  rewrite !peer_word_has, ob_aips_read by done. unfold io_peer_image, if_inet. cbn [peer_announces].
  change (preshared_key (?q <| preshared_key := ?v |>)) with v.
  destruct (inet_family AF_INET6_OPENBSD (sa_family8 (endpoint p))); cbn [andb].
  - specialize (Hsa eq_refl).
    rewrite (proj2 (Z.leb_le (sa_len (endpoint p)) (Z.of_nat sizeof_p_endpoint))) by (unfold sizeof_p_endpoint, sizeof_sockaddr_in6; lia). cbn [andb].
    destruct (ob_endpoint_seen (endpoint p)) as [E1 E2]; [done | lia |]. rewrite E2, E1. unfold ob_endpoint_image.
    rewrite <- copied_front by (done || lia).
    by destruct (sa_len (endpoint p) <=? sizeof_sockaddr), (has_flag _ WGPEER_HAS_PRESHARED_KEY), (has_flag _ _);
      destruct (key_is_zero (preshared_key p)).
  - by destruct (has_flag _ WGPEER_HAS_PRESHARED_KEY), (has_flag _ _); destruct (key_is_zero (preshared_key p)).
Qed.

Lemma ob_device_written (d : wgdevice) :
  ob_write_device d = if strings_present d then Some (ob_written d (map ob_write_peer (peers d))) else None.
Proof.
  unfold ob_write_device. rewrite ob_write_attributes_present, ob_attributes_written. by destruct (strings_present d).
Qed.

Lemma ob_device_read (d : wgdevice) (nm : list byte) : bsd_device AF_INET6_OPENBSD d ->
  ob_read_device (ob_written d (map ob_write_peer (peers d))) (zero_device <| name := nm |>)
  = io_image (if_inet AF_INET6_OPENBSD ob_endpoint_image) nm (without_i d).
Proof.
  intros Hd. unfold ob_read_device. rewrite ob_attributes_read by apply Hd.
  change (i_peers (ob_written d ?l)) with l. rewrite map_map.
  assert (map (fun p => ob_read_peer (ob_write_peer p)) (peers d)
          = map (io_peer_image (if_inet AF_INET6_OPENBSD ob_endpoint_image)) (peers d)) as ->; [| done].
  apply map_ext_Forall. apply (Forall_impl _ _ _ (bsd_peers _ _ Hd)). intros p. apply ob_peer_read.
Qed.

Section Kernel.
Context `{K : WgData}.

(** A string that is NULL, with its flag set, ends the program. *)
Lemma ob_set_null (k : ob_state) (d : wgdevice) : ob_socket k = None -> strings_present d = false ->
  ob_set_device k d = Exits SEGV.
Proof. intros Hk E. unfold ob_set_device. by rewrite Hk, ob_device_written, E. Qed.

(** C8: On OpenBSD a device that does not have both peers and attributes of AmneziaWG survives
    the way to the kernel and back, but for its longer endpoints and I1 to I5.  The premise is
    [overlaps d = false]: the members of AmneziaWG stand behind the array of the peers, and
    peers would be written over them.  [kernel_set_device] hands the structures of the device
    to SIOCSWG; and when a kernel answers SIOCGWG with these structures once the buffer is
    large enough, [kernel_get_device] returns the device that was set.  Of its endpoints only
    those of at most 16 bytes come back, which IPv4 addresses are and IPv6 addresses are not;
    and the flags of I1 to I5 are lost in the 16 bits of [i_flags].  No string is NULL whose
    flag is set ([ob_set_null]). *)
Theorem ob_device_roundtrip (k g g1 g2 : ob_state) (d : wgdevice) (iface : list byte) (size : Z) (buf wg : wg_interface_io) (fuel : nat) :
  bsd_device AF_INET6_OPENBSD d -> overlaps d = false -> ob_write_device d = Some wg ->
  ob_socket k = None -> ob_socket g = None -> 0 < size ->
  ob_get g (strlcpy IFNAMSIZ iface) 0 = (g1, inr (size, buf)) ->
  ob_get g1 (strlcpy IFNAMSIZ iface) size = (g2, inr (size, wg)) ->
  ob_set_device k d
  = (let '(k', e) := ob_set k (strlcpy IFNAMSIZ (name d)) (ob_size d) wg in
     Returns (k', match e with Some errno => - errno | None => 0 end))
  /\ ob_get_device (S (S fuel)) g iface
     = Returns (g2, inr (io_image (if_inet AF_INET6_OPENBSD ob_endpoint_image) (strlcpy IFNAMSIZ iface) (without_i d))).
Proof.
  intros Hd Hapart Hwg Hk Hg Hsize H1 H2. split.
  - unfold ob_set_device. rewrite Hk, Hwg, Hapart. by destruct (ob_set k _ _ _) as [k' []].
  - unfold ob_get_device. rewrite Hg. cbn [ob_get_loop]. rewrite H1.
    destruct (Z.leb_spec size 0) as [?|_]; [lia |]. rewrite H2, Z.leb_refl.
    destruct (Z.eqb_spec size 0) as [?|_]; [lia |].
    rewrite ob_device_written, (bsd_present _ _ Hd) in Hwg. injection Hwg as <-. by rewrite ob_device_read.
Qed.

(** ** The loop *)

(** The buffer grows from call to call and not beyond the bound. *)
Lemma ob_loop_ends (bound : nat) (nm : list byte) :
  (forall k k' given size buf, ob_get k nm given = (k', inr (size, buf)) -> 0 < size <= Z.of_nat bound) ->
  forall fuel k given, 0 <= given <= Z.of_nat bound -> Z.of_nat bound < given + Z.of_nat fuel ->
  exists k' r, ob_get_loop fuel k nm given = Returns (k', r) /\ r <> inr None.
Proof.
  intros Hbound fuel. induction fuel as [|fuel IH]; intros k given Hg Hf; cbn [ob_get_loop]; [lia |].
  destruct (ob_get k nm given) as [k1 [errno | [size buf]]] eqn:E; [by eexists _, _ |].
  apply Hbound in E as Hs. destruct (Z.leb_spec size given); [| apply IH; lia].
  eexists _, _. split; [done |]. destruct (Z.eqb_spec given 0); [lia | done].
Qed.

(** C26: [kernel_get_device] on OpenBSD ends, whatever sizes the kernel reports from one SIOCGWG
    to the next: when they are positive and below a bound, [bound + 1] calls are enough, and
    the structures that are read are those of a buffer that was allocated. *)
Theorem ob_get_device_ends (bound : nat) (k : ob_state) (iface : list byte) :
  (forall k k' given size buf, ob_get k (strlcpy IFNAMSIZ iface) given = (k', inr (size, buf)) -> 0 < size <= Z.of_nat bound) ->
  exists r, ob_get_device (S bound) k iface = Returns r.
Proof.
  intros Hbound. unfold ob_get_device. destruct (ob_socket k); [by eexists |].
  destruct (ob_loop_ends bound _ Hbound (S bound) k 0) as (k' & r & -> & Hr); [lia | lia |].
  destruct r as [errno | [wg |]]; [by eexists .. | done].
Qed.

End Kernel.

(** ** A kernel *)

(** A kernel that answers with the structures it was given last, and their size. *)
#[export] Instance echo_data : WgData := {|
  ob_state := Z * wg_interface_io;
  ob_socket _ := None;
  ob_group_len _ := inl ENOENT;
  ob_group _ _ := inl ENOENT;
  ob_get k _ _ := (k, inr k);
  ob_set _ _ size wg := ((size, wg), None);
  ob_overlaid k _ := Returns (k, 0);
  sizeof_interface_io := 152;
  sizeof_peer_io := 136;
  sizeof_aip_io := 24;
|}.

Definition demo_sa (len family : byte) (n : nat) : list byte := len :: family :: repeat "7"%byte n ++ repeat x00 (26 - n).

(** A peer with an IPv4 endpoint and one with an IPv6 endpoint. *)
Definition peer4 : wgpeer :=
  zero_peer <| peer_flags := 28 |> <| peer_public_key := repeat "p"%byte 32 |> <| preshared_key := repeat "k"%byte 32 |>
    <| endpoint := demo_sa x10 x02 6 |> <| persistent_keepalive_interval := 25 |>
    <| allowedips := [WgAllowedip AF_INET (repeat x0a 4 ++ repeat x00 12) 32; WgAllowedip AF_INET6_OPENBSD (repeat x0b 16) 128] |>.
Definition peer6 : wgpeer :=
  zero_peer <| peer_flags := 4 |> <| peer_public_key := repeat "q"%byte 32 |> <| endpoint := demo_sa x1c x18 26 |>.

(** A device with peers, and one with attributes of AmneziaWG. *)
Definition ob_demo_peers : wgdevice :=
  zero_device <| name := text "wg0" |> <| flags := Z.lor WGDEVICE_HAS_FWMARK WGDEVICE_HAS_LISTEN_PORT |>
    <| listen_port := 51820 |> <| fwmark := 3000000000 |> <| peers := [peer4; peer6] |>.
Definition ob_demo_awg : wgdevice :=
  zero_device <| name := text "wg0" |> <| flags := Z.lor WGDEVICE_HAS_I1 (Z.lor WGDEVICE_HAS_JC (Z.lor WGDEVICE_HAS_H1 WGDEVICE_HAS_LISTEN_PORT)) |>
    <| i1 := Some (text "<b 0x01>") |>
    <| listen_port := 51820 |> <| junk_packet_count := 4 |> <| init_packet_magic_header := Some (text "100-200") |>.

Lemma ob_demos_bsd : bsd_device AF_INET6_OPENBSD ob_demo_peers /\ bsd_device AF_INET6_OPENBSD ob_demo_awg.
Proof.
  split; constructor; try done; try apply Forall_nil_2.
  - repeat (apply Forall_cons_2; [by cbv |]). by apply Forall_nil.
  - repeat (apply Forall_cons_2; [split; [cbv; intuition discriminate | by cbv] |]). by apply Forall_nil.
  - apply Forall_cons_2; [| apply Forall_singleton]; constructor; try done; try (cbv; intuition discriminate).
    apply Forall_cons_2; [| apply Forall_singleton]; constructor; try done; [left | right]; cbv; intuition discriminate.
  - repeat (apply Forall_cons_2; [by cbv |]). by apply Forall_nil.
  - repeat (apply Forall_cons_2; [split; [cbv; intuition discriminate | by cbv] |]). by apply Forall_nil.
Qed.

(** The endpoint of the first peer comes back and that of the second does not; the header comes
    back and I1 does not. *)
Lemma ob_device_roundtrip_witness :
  let state d := (ob_size (H := echo_data) d, ob_written d (map ob_write_peer (peers d))) in
  let back d := io_image (if_inet AF_INET6_OPENBSD ob_endpoint_image) (text "wg0") (without_i d) in
  (ob_set_device (0, zero_interface_io) ob_demo_peers = Returns (state ob_demo_peers, 0)
   /\ ob_get_device 2 (state ob_demo_peers) (text "wg0") = Returns (state ob_demo_peers, inr (back ob_demo_peers)))
  /\ map endpoint (peers (back ob_demo_peers)) = [endpoint peer4; repeat x00 28]
  /\ (ob_set_device (0, zero_interface_io) ob_demo_awg = Returns (state ob_demo_awg, 0)
      /\ ob_get_device 2 (state ob_demo_awg) (text "wg0") = Returns (state ob_demo_awg, inr (back ob_demo_awg)))
  /\ init_packet_magic_header (back ob_demo_awg) = Some (text "100-200") /\ i1 (back ob_demo_awg) = None.
Proof.
  intros state back. split; [| split; [reflexivity |]; split; [| split; reflexivity]].
  - apply (ob_device_roundtrip (K := echo_data) (0, zero_interface_io) (state ob_demo_peers) (state ob_demo_peers)
             (state ob_demo_peers) ob_demo_peers (text "wg0") (fst (state ob_demo_peers)) (snd (state ob_demo_peers))
             (snd (state ob_demo_peers)) 0); try reflexivity.
    apply ob_demos_bsd.
  - apply (ob_device_roundtrip (K := echo_data) (0, zero_interface_io) (state ob_demo_awg) (state ob_demo_awg)
             (state ob_demo_awg) ob_demo_awg (text "wg0") (fst (state ob_demo_awg)) (snd (state ob_demo_awg))
             (snd (state ob_demo_awg)) 0); try reflexivity.
    apply ob_demos_bsd.
Defined.

(** A kernel with one more byte to report at each call, up to 154. *)
Definition growing : WgData := {|
  ob_state := nat;
  ob_socket _ := None;
  ob_group_len _ := inl ENOENT;
  ob_group _ _ := inl ENOENT;
  ob_get n _ _ := (S n, inr (Z.of_nat (Nat.min (152 + n) 154), zero_interface_io));
  ob_set n _ _ _ := (n, None);
  ob_overlaid n _ := Returns (n, 0);
  sizeof_interface_io := 152;
  sizeof_peer_io := 136;
  sizeof_aip_io := 24;
|}.

Lemma ob_get_device_ends_witness : exists r, @ob_get_device growing 155 0%nat (text "wg0") = Returns r.
Proof.
  apply (ob_get_device_ends (K := growing) 154). cbn. intros k k' given size buf [= <- <- <-]. lia.
Defined.
