(* ===== verification/WinHash.v ===== *)
(** * The hash table of the Windows build (src/wincompat/include/hashtable.h)

    A table is 1024 buckets, each the list of its entries; a pointer to an entry is its key.
    The table implements a finite map from keys to values that may still be NULL: any sequence
    of operations gives the answers of the map. *)

From stdpp Require Import gmap.
From S2P Require Import Prelude CString.
#[local] Open Scope Z_scope.

(** ** The operations *)

Definition HASHTABLE_ENTRY_BUCKETS_POW2 : Z := Z.shiftl 1 10.

Record hashtable_entry (V : Type) := HashtableEntry {
  key : list byte;
  value : option V;
}.
Arguments HashtableEntry {V} key value.
Arguments key {V} _.
Arguments value {V} _.

Definition hashtable (V : Type) : Type := list (list (hashtable_entry V)).

Definition empty_hashtable {V} : hashtable V := repeat [] (Z.to_nat HASHTABLE_ENTRY_BUCKETS_POW2).

Section Table.
Context `{Platform} {V : Type}.

(** The loop over the characters of the string, in [unsigned long]. *)
Fixpoint hash_loop (hash : Z) (str : list byte) : Z :=
  match str with
  | [] => hash
  | c :: str =>
      hash_loop (Z.lxor (uw ulong_bits (uw ulong_bits (Z.shiftl hash 5) + hash)) (uw ulong_bits (char_val c))) str
  end.

Definition hashtable_bucket (str : list byte) : Z := u32 (Z.land (hash_loop 5381 str) (HASHTABLE_ENTRY_BUCKETS_POW2 - 1)).

(** The list that starts in a bucket. *)
Definition bucket (t : hashtable V) (k : list byte) : list (hashtable_entry V) :=
  default [] (t !! Z.to_nat (hashtable_bucket k)).

Fixpoint chain_find (entries : list (hashtable_entry V)) (k : list byte) : option (hashtable_entry V) :=
  match entries with
  | [] => None
  | entry :: entries => if strcmp_eq (key entry) k then Some entry else chain_find entries k
  end.

Definition hashtable_find_entry (t : hashtable V) (k : list byte) : option (hashtable_entry V) :=
  chain_find (bucket t k) k.

(** The new entry goes to the end of the chain. *)
Definition hashtable_find_or_insert_entry (t : hashtable V) (k : list byte) : hashtable V * hashtable_entry V :=
  match chain_find (bucket t k) k with
  | Some entry => (t, entry)
  | None =>
      let entry := HashtableEntry k None in
      (<[Z.to_nat (hashtable_bucket k) := bucket t k ++ [entry]]> t, entry)
  end.

(** [entry->value = v] for the entry of a key. *)
Fixpoint chain_set (entries : list (hashtable_entry V)) (k : list byte) (v : option V) : list (hashtable_entry V) :=
  match entries with
  | [] => []
  | entry :: entries =>
      if strcmp_eq (key entry) k then HashtableEntry (key entry) v :: entries else entry :: chain_set entries k v
  end.

Definition hashtable_set_value (t : hashtable V) (k : list byte) (v : option V) : hashtable V :=
  <[Z.to_nat (hashtable_bucket k) := chain_set (bucket t k) k v]> t.

End Table.

(** ** The map it implements *)

#[export] Instance byte_countable : Countable byte := inj_countable Byte.to_N Byte.of_N Byte.of_to_N.

Section Refinement.
Context `{Platform} {V : Type}.
Implicit Types (t : hashtable V) (k : list byte) (m : gmap (list byte) (option V)).

Inductive table_op :=
| Find (k : list byte)
| FindOrInsert (k : list byte)
| Assign (k : list byte) (v : option V).

(** What an operation answers, and the table or the map after it. *)
Definition table_step t (op : table_op) : hashtable V * option (option V) :=
  match op with
  | Find k => (t, value <$> hashtable_find_entry t k)
  | FindOrInsert k => let '(t, entry) := hashtable_find_or_insert_entry t k in (t, Some (value entry))
  | Assign k v => (hashtable_set_value t k v, None)
  end.

Definition map_step m (op : table_op) : gmap (list byte) (option V) * option (option V) :=
  match op with
  | Find k => (m, m !! k)
  | FindOrInsert k => match m !! k with Some v => (m, Some v) | None => (<[k := None]> m, Some None) end
  | Assign k v => (match m !! k with Some _ => <[k := v]> m | None => m end, None)
  end.

Fixpoint answers {S} (step : S -> table_op -> S * option (option V)) (s : S) (ops : list table_op) : list (option (option V)) :=
  match ops with
  | [] => []
  | op :: ops => let '(s, a) := step s op in a :: answers step s ops
  end.

(** The table has all its buckets and finds what the map holds. *)
Record represents t m : Prop := Represents {
  rep_buckets : length t = Z.to_nat HASHTABLE_ENTRY_BUCKETS_POW2;
  rep_lookup : forall k, value <$> hashtable_find_entry t k = m !! k;
}.

Lemma hashtable_bucket_range k : (Z.to_nat (hashtable_bucket k) < Z.to_nat HASHTABLE_ENTRY_BUCKETS_POW2)%nat.
Proof.
  unfold hashtable_bucket, u32. change (HASHTABLE_ENTRY_BUCKETS_POW2 - 1) with (2 ^ 10 - 1). rewrite land_mask by done.
  pose proof (Z.mod_pos_bound (hash_loop 5381 k) (2 ^ 10) ltac:(done)) as Hr.
  rewrite (uw_small 32) by lia. change HASHTABLE_ENTRY_BUCKETS_POW2 with 1024. lia.
Qed.

(** Replacing the bucket of a key leaves the keys of the other buckets alone. *)
Lemma bucket_insert t k k' l : length t = Z.to_nat HASHTABLE_ENTRY_BUCKETS_POW2 ->
  bucket (<[Z.to_nat (hashtable_bucket k) := l]> t) k'
  = if decide (Z.to_nat (hashtable_bucket k') = Z.to_nat (hashtable_bucket k)) then l else bucket t k'.
Proof.
  intros Hl. unfold bucket, hashtable in *. destruct (decide _) as [-> | Hne].
  - rewrite list_lookup_insert_eq; [done |]. rewrite Hl. apply hashtable_bucket_range.
  - by rewrite list_lookup_insert_ne.
Qed.

Lemma chain_find_app (l : list (hashtable_entry V)) k k' (v : option V) : chain_find l k = None ->
  value <$> chain_find (l ++ [HashtableEntry k v]) k'
  = if decide (k' = k) then Some v else value <$> chain_find l k'.
Proof.
  induction l as [|e l IH]; cbn [chain_find app key].
  - intros _. unfold strcmp_eq. destruct (decide (k' = k)) as [-> | Hne]; [by rewrite beq_refl | by rewrite beq_neq].
  - destruct (strcmp_eq (key e) k) eqn:E; [done |]. intros Hn. specialize (IH Hn).
    destruct (strcmp_eq (key e) k') eqn:E'; [| exact IH].
    destruct (decide (k' = k)) as [-> |]; [by rewrite E in E' | done].
Qed.

Lemma chain_find_set (l : list (hashtable_entry V)) k k' (v : option V) :
  value <$> chain_find (chain_set l k v) k'
  = if decide (k' = k) then (match chain_find l k with Some _ => Some v | None => None end) else value <$> chain_find l k'.
Proof.
  induction l as [|e l IH]; cbn [chain_find chain_set]; [by destruct (decide (k' = k)) |].
  destruct (strcmp_eq (key e) k) eqn:E; cbn [chain_find key value].
  - unfold strcmp_eq in *. apply beq_eq in E. destruct (decide (k' = k)) as [-> | Hne]; [by rewrite E, beq_refl |].
    by rewrite E, beq_neq by congruence.
  - destruct (decide (k' = k)) as [-> | Hne]; [by rewrite E, IH |]. by destruct (strcmp_eq (key e) k').
Qed.

Lemma represents_empty : represents empty_hashtable ∅.
Proof.
  split; [apply repeat_length |]. intros k. unfold hashtable_find_entry, bucket.
  destruct (empty_hashtable !! _) as [l |] eqn:E; [| by rewrite lookup_empty].
  apply list_elem_of_lookup_2 in E. apply list_elem_of_In, repeat_spec in E as ->. by rewrite lookup_empty.
Qed.

(** A chain with something else in the place of one bucket. *)
Lemma find_insert t k k' l : length t = Z.to_nat HASHTABLE_ENTRY_BUCKETS_POW2 ->
  (k' <> k -> value <$> chain_find l k' = value <$> chain_find (bucket t k) k') ->
  value <$> hashtable_find_entry (<[Z.to_nat (hashtable_bucket k) := l]> t) k'
  = if decide (k' = k) then value <$> chain_find l k else value <$> hashtable_find_entry t k'.
Proof.
  intros Hl Hother. unfold hashtable_find_entry. rewrite bucket_insert by done. destruct (decide (k' = k)) as [-> | Hne].
  - by rewrite decide_True.
  - destruct (decide _) as [E |]; [| done]. rewrite Hother by done. unfold bucket. by rewrite E.
Qed.

Lemma table_length t (i : nat) l : length (<[i := l]> t) = length t.
Proof. unfold hashtable in *. apply length_insert. Qed.

(** Each step of the table is the step of the map. *)
Lemma step_simulated t m op : represents t m ->
  snd (table_step t op) = snd (map_step m op) /\ represents (fst (table_step t op)) (fst (map_step m op)).
Proof.
  intros [Hl Hm]. destruct op as [k | k | k v]; cbn [table_step map_step].
  - split; [apply Hm | by split].
  - unfold hashtable_find_or_insert_entry. pose proof (Hm k) as Hk. unfold hashtable_find_entry in Hk.
    destruct (chain_find (bucket t k) k) as [entry |] eqn:E; rewrite <- Hk; cbn [fmap option_fmap option_map fst snd].
    + done.
    + split; [done |]. split; [by rewrite table_length |]. intros k'. rewrite find_insert; [| done |].
      * rewrite chain_find_app by done. destruct (decide (k' = k)) as [-> | Hne].
        -- by rewrite decide_True, lookup_insert_eq by done.
        -- by rewrite Hm, lookup_insert_ne by congruence.
      * intros Hne. rewrite chain_find_app by done. by rewrite decide_False.
  - split; [done |]. split; [by cbn; unfold hashtable_set_value; rewrite table_length |]. cbn [fst]. intros k'. unfold hashtable_set_value.
    rewrite find_insert; [| done | by intros Hne; rewrite chain_find_set, decide_False].
    pose proof (Hm k) as Hk. unfold hashtable_find_entry in Hk. rewrite chain_find_set, (decide_True (P := k = k)) by done.
    destruct (chain_find (bucket t k) k) as [entry |] eqn:E; rewrite <- Hk; cbn [fmap option_fmap option_map].
    + destruct (decide (k' = k)) as [-> | Hne]; [by rewrite lookup_insert_eq | by rewrite Hm, lookup_insert_ne by congruence].
    + destruct (decide (k' = k)) as [-> | Hne]; [done | by rewrite Hm].
Qed.

Lemma answers_simulated t m (ops : list table_op) : represents t m -> answers table_step t ops = answers map_step m ops.
Proof.
  revert t m. induction ops as [|op ops IH]; intros t m Hrep; [done |]. cbn [answers].
  destruct (step_simulated t m op Hrep) as [Ha Hr].
  destruct (table_step t op) as [t' a], (map_step m op) as [m' a']. cbn [fst snd] in *. by rewrite Ha, (IH t' m').
Qed.

(** C12: The hash table refines a finite map from keys to values: whatever sequence of lookups,
    insertions and assignments is made on an empty table, each gives the answer that the map
    gives, however the keys are spread over the buckets. *)
Theorem hashtable_refines_map (ops : list table_op) :
  answers table_step empty_hashtable ops = answers map_step ∅ ops.
Proof. apply answers_simulated, represents_empty. Qed.

End Refinement.
