(* ===== verification/WinLibc.v ===== *)
(** * Functions of libc that the Windows build brings along (src/wincompat/libc.c)

    [strsep], [getdelim] and [getline].  A stream is the bytes left in it and whether it ends
    in an error.  A store outside of the buffer makes [getdelim] fail, as [None]: it never does,
    and line by line it reads what [getlines] of CString.v says. *)

From S2P Require Import Prelude CString Ipc.
#[local] Open Scope Z_scope.

(** ** [strsep] *)

(** [strcspn(s, sep)]. *)
Fixpoint strcspn (s sep : list byte) : nat :=
  match s with
  | [] => 0
  | c :: s => if has_byte c sep then 0 else S (strcspn s sep)
  end.

(** The token and what [*str] becomes; the byte behind the token is overwritten by a NUL. *)
Definition win_strsep (str : option (list byte)) (sep : list byte) : option (list byte * option (list byte)) :=
  match str with
  | None => None
  | Some s =>
      let end_ := strcspn s sep in
      if (end_ <? length s)%nat then Some (take end_ s, Some (drop (S end_) s)) else Some (s, None)
  end.

(** ** [getdelim], [getline] *)

Record stream := Stream {
  unread : list byte;
  (** The bytes are followed by an error, not by the end of the file. *)
  broken : bool;
}.

(** [*ptr = c] with the buffer's size known. *)
Definition poke (buf : list byte) (ptr : nat) (c : byte) : option (list byte) :=
  if (ptr <? length buf)%nat then Some (store buf ptr [c]) else None.

Section Getdelim.
(** What [malloc] and [realloc] find in new memory, by offset, and a constant of libc. *)
Context (fresh : nat -> byte) (BUFSIZ : nat).

(** The loop: the buffer, the return value and the stream after it. *)
Fixpoint getdelim_loop (buf : list byte) (ptr : nat) (delimiter : byte) (fp : list byte) (broken : bool) :
    option (list byte * Z * stream) :=
  match fp with
  | [] =>
      if negb broken && negb (ptr =? 0)%nat then
        match poke buf ptr x00 with
        | Some buf => Some (buf, Z.of_nat ptr, Stream [] broken)
        | None => None
        end
      else Some (buf, -1, Stream [] broken)
  | c :: fp =>
      match poke buf ptr c with
      | None => None
      | Some buf =>
          let ptr := S ptr in
          if Byte.eqb c delimiter then
            match poke buf ptr x00 with
            | Some buf => Some (buf, Z.of_nat ptr, Stream fp broken)
            | None => None
            end
          else
            let buf := if (length buf <=? ptr + 2)%nat then realloc fresh buf (length buf * 2) else buf in
            getdelim_loop buf ptr delimiter fp broken
      end
  end.

(** [*buf] is [None] when it is NULL; its size is [*bufsiz]. *)
Definition getdelim (buf : option (list byte)) (delimiter : byte) (fp : stream) : option (list byte * Z * stream) :=
  let buf := match buf with
             | Some buf => if (length buf =? 0)%nat then realloc fresh [] BUFSIZ else buf
             | None => realloc fresh [] BUFSIZ
             end in
  getdelim_loop buf 0 delimiter (unread fp) (broken fp).

Definition win_getline (buf : option (list byte)) (fp : stream) : option (list byte * Z * stream) := getdelim buf x0a fp.

(** [while (getline(&buf, &bufsiz, fp) >= 0)]: the strings the buffer holds, with the number
    of calls left. *)
Fixpoint getline_all (fuel : nat) (buf : option (list byte)) (fp : stream) : option (list (list byte)) :=
  match fuel with
  | O => None
  | S fuel =>
      match win_getline buf fp with
      | None => None
      | Some (buf, ret, fp) =>
          if ret <? 0 then Some []
          else
            match getline_all fuel (Some buf) fp with
            | Some lines => Some (take (Z.to_nat ret) buf :: lines)
            | None => None
            end
      end
  end.

(** ** It reads lines *)

Lemma poke_app (a b : list byte) (c : byte) : (0 < length b)%nat ->
  poke (a ++ b) (length a) c = Some (a ++ c :: tail b).
Proof.
  intros Hb. unfold poke. rewrite length_app, (proj2 (Nat.ltb_lt _ _)) by lia. f_equal. unfold store.
  rewrite take_app_length. f_equal. destruct b as [|x b]; [cbn in Hb; lia |]. cbn [length tail app]. f_equal.
  replace (length a + 1)%nat with (S (length a)) by lia. rewrite drop_app_ge by lia.
  by replace (S (length a) - length a)%nat with 1%nat by lia.
Qed.

Lemma realloc_more (buf : list byte) (n : nat) : (length buf <= n)%nat ->
  exists more, realloc fresh buf n = buf ++ more /\ length more = (n - length buf)%nat.
Proof. intros Hn. unfold realloc. rewrite take_ge by done. eexists. split; [done |]. by rewrite length_map, length_seq. Qed.

(** Up to a newline the loop stores what it reads and keeps room for two more bytes. *)
Lemma getdelim_loop_run (l s : list byte) (br : bool) : ~ In x0a l ->
  forall pre room, (2 < length room)%nat ->
  exists room', (2 < length room')%nat
    /\ getdelim_loop (pre ++ room) (length pre) x0a (l ++ s) br = getdelim_loop ((pre ++ l) ++ room') (length (pre ++ l)) x0a s br.
Proof.
  induction l as [|c l IH]; intros Hl pre room Hr; [exists room; by rewrite app_nil_r |].
  cbn [app getdelim_loop]. rewrite poke_app by lia. apply Decidable.not_or in Hl as [Hc Hl].
  rewrite (proj2 (byte_eqb_neq c x0a)) by done.
  cbv zeta. replace (S (length pre)) with (length (pre ++ [c])) by (rewrite length_app; cbn; lia).
  replace (pre ++ c :: tail room) with ((pre ++ [c]) ++ tail room) by by rewrite <- app_assoc.
  replace (pre ++ c :: l) with ((pre ++ [c]) ++ l) by by rewrite <- app_assoc.
  assert (length (tail room) = (length room - 1)%nat) as Ht by (destruct room; cbn; lia).
  assert (length ((pre ++ [c]) ++ tail room) = (length (pre ++ [c]) + (length room - 1))%nat) as Hlen by (rewrite length_app; lia).
  destruct (Nat.leb_spec (length ((pre ++ [c]) ++ tail room)) (length (pre ++ [c]) + 2)) as [Hfull | Hroom].
  - destruct (realloc_more ((pre ++ [c]) ++ tail room) (length ((pre ++ [c]) ++ tail room) * 2)) as (more & -> & Hm); [lia |].
    rewrite <- app_assoc. apply IH; [done |]. rewrite length_app. lia.
  - apply IH; [done | lia].
Qed.

(** Any text starts with a line or is one. *)
Lemma first_line (s : list byte) : (exists l rest, s = l ++ x0a :: rest /\ ~ In x0a l) \/ ~ In x0a s.
Proof.
  induction s as [|c s [(l & rest & -> & Hl) | Hs]]; [right; by intros [] | |].
  - left. destruct (byte_eq_dec c x0a) as [-> | Hc]; [exists [], (l ++ x0a :: rest); by split; [| intros []] |].
    exists (c :: l), rest. split; [done |]. by intros [? | ?].
  - destruct (byte_eq_dec c x0a) as [-> | Hc]; [left; exists [], s; by split; [| intros []] |]. right. by intros [? | ?].
Qed.

Lemma getline_line (l rest buf : list byte) : (2 < length buf)%nat -> ~ In x0a l ->
  exists buf', (2 < length buf')%nat /\ take (length (l ++ [x0a])) buf' = l ++ [x0a]
    /\ win_getline (Some buf) (Stream (l ++ x0a :: rest) false) = Some (buf', Z.of_nat (length (l ++ [x0a])), Stream rest false).
Proof.
  intros Hb Hl. unfold win_getline, getdelim. destruct (Nat.eqb_spec (length buf) 0) as [?|_]; [lia |]. cbn [unread broken].
  destruct (getdelim_loop_run l (x0a :: rest) false Hl [] buf Hb) as (room & Hr & E). cbn [app length] in E. rewrite E.
  cbn [getdelim_loop]. rewrite poke_app by lia. change (Byte.eqb x0a x0a) with true. cbv match zeta.
  replace (S (length l)) with (length (l ++ [x0a])) by (rewrite length_app; cbn; lia).
  replace (l ++ x0a :: tail room) with ((l ++ [x0a]) ++ tail room) by by rewrite <- app_assoc.
  assert (length (tail room) = (length room - 1)%nat) as Ht by (destruct room; cbn; lia).
  rewrite poke_app by lia. eexists. split_and!; [| | done].
  - rewrite length_app. cbn [length]. rewrite length_app. cbn [length].
    assert (length (tail (tail room)) = (length room - 2)%nat) by (destruct room as [|? []]; cbn; lia). lia.
  - apply take_app_length.
Qed.

(** The last line has no newline; after it there is nothing. *)
Lemma getline_last (s buf : list byte) : (2 < length buf)%nat -> ~ In x0a s -> s <> [] ->
  exists buf', (2 < length buf')%nat /\ take (length s) buf' = s
    /\ win_getline (Some buf) (Stream s false) = Some (buf', Z.of_nat (length s), Stream [] false).
Proof.
  intros Hb Hs Hne. unfold win_getline, getdelim. destruct (Nat.eqb_spec (length buf) 0) as [?|_]; [lia |]. cbn [unread broken].
  destruct (getdelim_loop_run s [] false Hs [] buf Hb) as (room & Hr & E). cbn [app length] in E. rewrite app_nil_r in E. rewrite E.
  cbn [getdelim_loop negb andb]. destruct (Nat.eqb_spec (length s) 0) as [?|_]; [by destruct s |]. cbn [negb].
  rewrite poke_app by lia. eexists. split_and!; [| apply take_app_length | done].
  rewrite length_app. cbn [length]. destruct s, room; cbn in *; done || lia.
Qed.

Lemma getline_end (buf : list byte) : (2 < length buf)%nat -> exists fp, win_getline (Some buf) (Stream [] false) = Some (buf, -1, fp).
Proof. intros Hb. unfold win_getline, getdelim. destruct (Nat.eqb_spec (length buf) 0) as [?|_]; [lia |]. by eexists. Qed.

Lemma getlines_no_newline (s : list byte) : ~ In x0a s -> s <> [] -> getlines s = [s].
Proof.
  induction s as [|c s IH]; [done |]. intros Hs _. apply Decidable.not_or in Hs as [Hc Hs]. cbn [getlines].
  rewrite (proj2 (byte_eqb_neq c x0a)) by done. destruct s as [|d s]; [done |]. by rewrite IH.
Qed.

Lemma getline_all_lines (fuel : nat) (s buf : list byte) : (2 < length buf)%nat -> (length (getlines s) < fuel)%nat ->
  getline_all fuel (Some buf) (Stream s false) = Some (getlines s).
Proof.
  revert s buf. induction fuel as [|fuel IH]; intros s buf Hb Hf; [lia |]. cbn [getline_all].
  destruct (first_line s) as [(l & rest & -> & Hl) | Hs].
  - destruct (getline_line l rest buf Hb Hl) as (buf' & Hb' & Ht & ->). rewrite getlines_cons in * by done. cbn [length] in Hf.
    destruct (Z.ltb_spec (Z.of_nat (length (l ++ [x0a]))) 0); [lia |]. rewrite IH by (done || lia). by rewrite Nat2Z.id, Ht.
  - destruct s as [|c s]; [by destruct (getline_end buf Hb) as [fp ->] |].
    destruct (getline_last (c :: s) buf Hb Hs) as (buf' & Hb' & Ht & ->); [done |].
    rewrite getlines_no_newline in * by done. cbn [length] in Hf.
    destruct (Z.ltb_spec (Z.of_nat (length (c :: s))) 0); [lia |]. rewrite IH by (done || cbn; lia). by rewrite Nat2Z.id, Ht.
Qed.

(** C36: The [getline] that the Windows build brings along reads a file line by line as the
    one of other systems does: from a NULL buffer on, the calls return exactly the lines of the
    file, the last with or without its newline, and no byte is stored outside of the buffer,
    which grows with the lines. *)
Theorem win_getline_lines (fuel : nat) (s : list byte) : (2 < BUFSIZ)%nat -> (length (getlines s) < fuel)%nat ->
  getline_all fuel None (Stream s false) = Some (getlines s).
Proof.
  intros HB Hf. rewrite <- (getline_all_lines fuel s (realloc fresh [] BUFSIZ)); [| | done].
  - destruct fuel; [done |]. cbn [getline_all]. unfold win_getline, getdelim.
    destruct (realloc_more [] BUFSIZ) as (more & -> & Hm); [cbn; lia |]. cbn [app]. cbn [length] in Hm.
    by destruct (Nat.eqb_spec (length more) 0); [lia |].
  - destruct (realloc_more [] BUFSIZ) as (more & -> & Hm); [cbn; lia |]. cbn [app length] in *. lia.
Qed.

End Getdelim.

(** The [strsep] of the Windows build, for the single delimiters the tools use. *)
Lemma win_strsep_agrees (d : byte) (s : list byte) : win_strsep (Some s) [d] = Some (strsep d s).
Proof.
  cbn [win_strsep]. induction s as [|c s IH]; [done |]. cbn [strcspn strsep length has_byte existsb].
  rewrite orb_false_r. destruct (Byte.eqb c d); [done |]. cbn [take drop].
  change (S (strcspn s [d]) <? S (length s))%nat with (strcspn s [d] <? length s)%nat.
  destruct (strsep d s) as [tok rest]. destruct (strcspn s [d] <? length s)%nat; by simplify_eq.
Qed.

Lemma win_getline_lines_witness :
  getline_all (fun _ => xff) 8 4 None (Stream (text "[Interface]" ++ [x0a; x0a] ++ text "Jc = 4") false)
  = Some [text "[Interface]" ++ [x0a]; [x0a]; text "Jc = 4"].
Proof.
  apply (win_getline_lines (fun _ => xff) 8 4 (text "[Interface]" ++ [x0a; x0a] ++ text "Jc = 4")); cbn; lia.
Defined.
