(* ===== verification/WinPipes.v ===== *)
(** * The userspace interfaces on Windows (src/ipc-uapi-windows.h)

    A userspace interface is a named pipe.  The pipe is opened when its owner is the local
    system; the pipes of the interfaces are found by enumerating all pipes, and cached in a hash
    table once they have been listed.  [Pipes] is what the system answers. *)

From stdpp Require Import gmap.
From S2P Require Import Prelude CString Ipc WinHash.
#[local] Open Scope Z_scope.
#[local] Open Scope awg_scope.

Definition MAX_PATH : nat := 260.
Definition EIO : Z := 5.
Definition EACCES : Z := 13.

(** [find_pipes] is what FindFirstFile and FindNextFile give for \\.\pipe\*: the first file and
    the further ones. *)
Class Pipes := {
  pipes : Type;
  pipe_handle : Type;
  sid : Type;
  stream : Type;
  sid_eq : sid -> sid -> bool;
  local_system : option sid;
  open_pipe : pipes -> list byte -> option pipe_handle;
  pipe_owner : pipes -> pipe_handle -> option sid;
  osfhandle : pipe_handle -> option Z;
  fdopen : Z -> option stream;
  find_pipes : pipes -> option (list byte * list (list byte));
}.

(** The global variables. *)
Record pipe_globals := PipeGlobals {
  have_cached_interfaces : bool;
  cached_interfaces : hashtable unit;
  pipe_errno : Z;
}.

#[export] Instance eta_pipe_globals : Eta pipe_globals :=
  fun r => PipeGlobals (have_cached_interfaces r) (cached_interfaces r) (pipe_errno r).

Definition prefix : list byte := text "ProtectedPrefix\Administrators\AmneziaWG\".

Section Operations.
Context `{Platform} `{Pipes}.

(** What a failing [fdopen] does to [errno] is not the program's. *)
Definition pipe_interface_file (s : pipes) (g : pipe_globals) (iface : list byte) : pipe_globals * option stream :=
  let err := (g <| pipe_errno := EACCES |>, None) in
  match local_system with
  | None => err
  | Some expected_sid =>
      let fname := take (MAX_PATH - 1) (text "\\.\pipe\" ++ prefix ++ iface) in
      match open_pipe s fname with
      | None => err
      | Some h =>
          match pipe_owner s h with
          | None => err
          | Some pipe_sid =>
              if negb (sid_eq expected_sid pipe_sid) then err
              else
                match osfhandle h with
                | None => (g, None)
                | Some fd => (g, fdopen fd)
                end
          end
      end
  end.

(** The error of the enumeration is [-EIO] as a [bool]. *)
Definition pipe_has_wireguard_interface (s : pipes) (g : pipe_globals) (iface : list byte) : bool :=
  if have_cached_interfaces g then
    match hashtable_find_entry (cached_interfaces g) iface with Some _ => true | None => false end
  else
    let fname := take (MAX_PATH - 1) (prefix ++ iface) in
    match find_pipes s with
    | None => negb (- EIO =? 0)
    | Some (first, more) => existsb (strcmp_eq fname) (first :: more)
    end.

Section List.
Context (fresh : nat -> byte).

(** A turn of the loop over the pipes. *)
Definition list_pipe (acc : hashtable unit * string_list) (file : list byte) : hashtable unit * string_list :=
  let '(cache, names) := acc in
  if negb (beq (take (length prefix) prefix) (take (length prefix) file)) then acc
  else
    let iface := drop (length prefix) file in
    (fst (hashtable_find_or_insert_entry cache iface), string_list_add fresh names iface).

Definition pipe_get_wireguard_interfaces (s : pipes) (g : pipe_globals) (names : string_list) : pipe_globals * Z * string_list :=
  match find_pipes s with
  | None => (g, - EIO, names)
  | Some (first, more) =>
      let '(cache, names) := fold_left list_pipe (first :: more) (cached_interfaces g, names) in
      (g <| cached_interfaces := cache |> <| have_cached_interfaces := true |>, 0, names)
  end.

End List.
End Operations.

(** ** The cache answers as the enumeration *)

Section Cache.
Context `{P : Platform} `{W : Pipes} (fresh : nat -> byte).

(** The interface of a pipe. *)
Definition pipe_interface (file : list byte) : option (list byte) :=
  if beq prefix (take (length prefix) file) then Some (drop (length prefix) file) else None.

Lemma pipe_interface_spec (file iface : list byte) : pipe_interface file = Some iface <-> file = prefix ++ iface.
Proof.
  unfold pipe_interface. destruct (beq prefix (take (length prefix) file)) eqn:E.
  - apply beq_eq in E. rewrite E at 2. rewrite <- (take_drop (length prefix) file) at 2. rewrite <- E. split; [by intros [= <-] |].
    intros ->%app_inv_head. done.
  - split; [done |]. intros ->. rewrite take_app_length, beq_refl in E. discriminate.
Qed.

Lemma list_pipe_interface (cache : hashtable unit) (names : string_list) (file : list byte) :
  list_pipe fresh (cache, names) file
  = match pipe_interface file with
    | Some iface => (fst (hashtable_find_or_insert_entry cache iface), string_list_add fresh names iface)
    | None => (cache, names)
    end.
Proof. unfold list_pipe, pipe_interface. rewrite (take_ge prefix) by done. by destruct (beq prefix _). Qed.

(** The listing: the strings are the interfaces in the order of their pipes, and the table holds
    them and nothing else. *)
Lemma list_pipes (files : list (list byte)) (cache : hashtable unit) (m : gmap (list byte) (option unit)) (names : string_list) :
  represents cache m ->
  exists cache' m', fold_left (list_pipe fresh) files (cache, names)
    = (cache', fold_left (string_list_add fresh) (omap pipe_interface files) names)
    /\ represents cache' m' /\ forall iface, is_Some (m' !! iface) <-> is_Some (m !! iface) \/ prefix ++ iface ∈ files.
Proof.
  revert cache m names. induction files as [|f files IH]; intros cache m names Hr.
  - exists cache, m. split; [done |]. split; [done |]. intros i. split; [by left | intros [? | []%not_elem_of_nil]; done].
  - cbn [fold_left omap list_omap]. rewrite list_pipe_interface. destruct (pipe_interface f) as [i|] eqn:E.
    + destruct (step_simulated cache m (FindOrInsert i) Hr) as [_ Hi]. cbn [table_step map_step] in Hi.
      destruct (hashtable_find_or_insert_entry cache i) as [c e]. cbn [fst] in *.
      destruct (IH c _ (string_list_add fresh names i) Hi) as (c' & m' & -> & Hr' & Hm'). exists c', m'.
      split; [done |]. split; [done |]. intros j. rewrite Hm', elem_of_cons. apply pipe_interface_spec in E as ->.
      destruct (m !! i) as [v|] eqn:Em; cbn [fst].
      * split; [tauto |]. intros [? | [->%app_inv_head | ?]]; [by left | left; by exists v | by right].
      * destruct (decide (i = j)) as [-> | Hne].
        -- rewrite lookup_insert_eq. split; [intros _; right; by left | intros _; left; by eexists].
        -- rewrite lookup_insert_ne by done. split; [tauto |]. intros [? | [?%app_inv_head | ?]]; [by left | congruence | by right].
    + destruct (IH cache m names Hr) as (c' & m' & -> & Hr' & Hm'). exists c', m'. split; [done |]. split; [done |].
      intros j. rewrite Hm', elem_of_cons. split; [tauto |]. intros [? | [<- | ?]]; [by left | | by right].
      by rewrite (proj2 (pipe_interface_spec (prefix ++ j) j)) in E.
Qed.

(** C32: Listing the userspace interfaces of Windows reports the interface of every pipe under
    the protected prefix, in order, and caches them; from then on an interface is found in the
    cache exactly when enumerating the pipes would find it, for every name that fits a path. *)
Theorem pipe_cache_agrees (s : pipes) (g : pipe_globals) (names : string_list) (first : list byte) (more : list (list byte)) :
  find_pipes s = Some (first, more) -> have_cached_interfaces g = false -> cached_interfaces g = empty_hashtable ->
  exists g', pipe_get_wireguard_interfaces fresh s g names
             = (g', 0, fold_left (string_list_add fresh) (omap pipe_interface (first :: more)) names)
    /\ forall iface, (length prefix + length iface < MAX_PATH)%nat ->
       pipe_has_wireguard_interface s g' iface = pipe_has_wireguard_interface s g iface.
Proof.
  intros Hf Hnot Hempty.
  destruct (list_pipes (first :: more) (cached_interfaces g) ∅ names) as (cache & m & Hl & Hr & Hm); [rewrite Hempty; apply represents_empty |].
  eexists. unfold pipe_get_wireguard_interfaces. rewrite Hf, Hl. split; [done |]. intros iface Hlen.
  unfold pipe_has_wireguard_interface. rewrite Hf, Hnot.
  rewrite (take_ge (prefix ++ iface)) by (rewrite length_app; lia).
  match goal with |- context [have_cached_interfaces ?x] => change (have_cached_interfaces x) with true; change (cached_interfaces x) with cache end.
  cbv match.
  pose proof (rep_lookup _ _ Hr iface) as Hc. specialize (Hm iface). rewrite <- Hc, lookup_empty in Hm.
  destruct (existsb (strcmp_eq (prefix ++ iface)) (first :: more)) eqn:Ee.
  - apply existsb_exists in Ee as (f & Hin & <-%beq_eq). destruct (hashtable_find_entry cache iface); [done |].
    destruct (proj2 Hm) as [? [=]]. right. by apply list_elem_of_In.
  - destruct (hashtable_find_entry cache iface) as [e|]; [| done]. destruct (proj1 Hm) as [[? [=]] | Hin]; [by eexists |].
    apply not_true_iff_false in Ee. destruct Ee. apply existsb_exists. exists (prefix ++ iface).
    split; [by apply list_elem_of_In | apply beq_refl].
Qed.

End Cache.

(** Two pipes, one of them an interface's. *)
Definition demo_pipes : Pipes := {|
  pipes := unit;
  pipe_handle := unit;
  sid := unit;
  stream := unit;
  sid_eq _ _ := true;
  local_system := Some tt;
  open_pipe _ _ := None;
  pipe_owner _ _ := None;
  osfhandle _ := None;
  fdopen _ := None;
  find_pipes _ := Some (text "lsass", [prefix ++ text "awg0"]);
|}.

Lemma pipe_cache_agrees_witness :
  exists g', @pipe_get_wireguard_interfaces lp64_x86 demo_pipes (fun _ => x00) tt (PipeGlobals false empty_hashtable 0) empty_list
             = (g', 0, string_list_add (fun _ => x00) empty_list (text "awg0"))
    /\ forall iface, (length prefix + length iface < MAX_PATH)%nat ->
       @pipe_has_wireguard_interface lp64_x86 demo_pipes tt g' iface
       = @pipe_has_wireguard_interface lp64_x86 demo_pipes tt (PipeGlobals false empty_hashtable 0) iface.
Proof.
  apply (@pipe_cache_agrees lp64_x86 demo_pipes (fun _ => x00) tt (PipeGlobals false empty_hashtable 0) empty_list
           (text "lsass") [prefix ++ text "awg0"]); reflexivity.
Defined.
