(* ===== verification/IpcWindows.v ===== *)
(** * The kernel interface on Windows (src/ipc-windows.h, src/uapi/windows/wireguard.h)

    The adapters are enumerated through the setup functions, their device interfaces opened by
    path, and a device crosses the kernel boundary as a [WG_IOCTL_INTERFACE] followed by its
    peers, each followed by its allowed IPs.  The list of adapters is cached in a hash table.
    [Windows] is what the system answers; wide strings are lists of 16-bit integers.  The global
    [errno] is part of the state, since some paths return it without setting it. *)

From S2P Require Import Netlink Prelude CString Encoding Containers Ipc KernelImage WinHash.
#[local] Open Scope Z_scope.
#[local] Open Scope awg_scope.

Definition AF_INET6_WINDOWS : Z := 23.
Definition IFNAMSIZ_WINDOWS : nat := 64.
Definition EACCES : Z := 13.
Definition EOVERFLOW : Z := 132.
Definition DWORD_MAX : Z := 2 ^ 32 - 1.
Definition MAX_ADAPTER_NAME : nat := 128.
Definition DN_DRIVER_LOADED : Z := 2.
Definition DN_STARTED : Z := 8.

(** ** src/uapi/windows/wireguard.h *)

Inductive WG_IOCTL_PEER_FLAG :=
| WG_IOCTL_PEER_HAS_PUBLIC_KEY
| WG_IOCTL_PEER_HAS_PRESHARED_KEY
| WG_IOCTL_PEER_HAS_PERSISTENT_KEEPALIVE
| WG_IOCTL_PEER_HAS_ENDPOINT
| WG_IOCTL_PEER_HAS_PROTOCOL_VERSION
| WG_IOCTL_PEER_REPLACE_ALLOWED_IPS
| WG_IOCTL_PEER_REMOVE
| WG_IOCTL_PEER_UPDATE.

Definition peer_bit (f : WG_IOCTL_PEER_FLAG) : Z :=
  match f with
  | WG_IOCTL_PEER_HAS_PUBLIC_KEY => Z.shiftl 1 0
  | WG_IOCTL_PEER_HAS_PRESHARED_KEY => Z.shiftl 1 1
  | WG_IOCTL_PEER_HAS_PERSISTENT_KEEPALIVE => Z.shiftl 1 2
  | WG_IOCTL_PEER_HAS_ENDPOINT => Z.shiftl 1 3
  | WG_IOCTL_PEER_HAS_PROTOCOL_VERSION => Z.shiftl 1 4
  | WG_IOCTL_PEER_REPLACE_ALLOWED_IPS => Z.shiftl 1 5
  | WG_IOCTL_PEER_REMOVE => Z.shiftl 1 6
  | WG_IOCTL_PEER_UPDATE => Z.shiftl 1 7
  end.

Inductive WG_IOCTL_INTERFACE_FLAG :=
| WG_IOCTL_INTERFACE_HAS_PUBLIC_KEY
| WG_IOCTL_INTERFACE_HAS_PRIVATE_KEY
| WG_IOCTL_INTERFACE_HAS_LISTEN_PORT
| WG_IOCTL_INTERFACE_REPLACE_PEERS
| WG_IOCTL_INTERFACE_PEERS
| WG_IOCTL_INTERFACE_JC
| WG_IOCTL_INTERFACE_JMIN
| WG_IOCTL_INTERFACE_JMAX
| WG_IOCTL_INTERFACE_S1
| WG_IOCTL_INTERFACE_S2
| WG_IOCTL_INTERFACE_H1
| WG_IOCTL_INTERFACE_H2
| WG_IOCTL_INTERFACE_H3
| WG_IOCTL_INTERFACE_H4
| WG_IOCTL_INTERFACE_S3
| WG_IOCTL_INTERFACE_S4
| WG_IOCTL_INTERFACE_I1
| WG_IOCTL_INTERFACE_I2
| WG_IOCTL_INTERFACE_I3
| WG_IOCTL_INTERFACE_I4
| WG_IOCTL_INTERFACE_I5.

#[export] Instance ioctl_interface_flag_eq_dec : EqDecision WG_IOCTL_INTERFACE_FLAG.
Proof. solve_decision. Defined.

Definition interface_bit (f : WG_IOCTL_INTERFACE_FLAG) : Z :=
  match f with
  | WG_IOCTL_INTERFACE_HAS_PUBLIC_KEY => Z.shiftl 1 0
  | WG_IOCTL_INTERFACE_HAS_PRIVATE_KEY => Z.shiftl 1 1
  | WG_IOCTL_INTERFACE_HAS_LISTEN_PORT => Z.shiftl 1 2
  | WG_IOCTL_INTERFACE_REPLACE_PEERS => Z.shiftl 1 3
  | WG_IOCTL_INTERFACE_PEERS => Z.shiftl 1 4
  | WG_IOCTL_INTERFACE_JC => Z.shiftl 1 5
  | WG_IOCTL_INTERFACE_JMIN => Z.shiftl 1 6
  | WG_IOCTL_INTERFACE_JMAX => Z.shiftl 1 7
  | WG_IOCTL_INTERFACE_S1 => Z.shiftl 1 8
  | WG_IOCTL_INTERFACE_S2 => Z.shiftl 1 9
  | WG_IOCTL_INTERFACE_H1 => Z.shiftl 1 10
  | WG_IOCTL_INTERFACE_H2 => Z.shiftl 1 11
  | WG_IOCTL_INTERFACE_H3 => Z.shiftl 1 12
  | WG_IOCTL_INTERFACE_H4 => Z.shiftl 1 13
  | WG_IOCTL_INTERFACE_S3 => Z.shiftl 1 14
  | WG_IOCTL_INTERFACE_S4 => Z.shiftl 1 15
  | WG_IOCTL_INTERFACE_I1 => Z.shiftl 1 16
  | WG_IOCTL_INTERFACE_I2 => Z.shiftl 1 17
  | WG_IOCTL_INTERFACE_I3 => Z.shiftl 1 18
  | WG_IOCTL_INTERFACE_I4 => Z.shiftl 1 19
  | WG_IOCTL_INTERFACE_I5 => Z.shiftl 1 20
  end.

Record WG_IOCTL_ALLOWED_IP := WgIoctlAllowedIp {
  Address : list byte;
  AddressFamily : Z;
  Cidr : Z;
}.

(** The peer with the allowed IPs that follow it; there are [AllowedIPsCount] of them. *)
Record WG_IOCTL_PEER := WgIoctlPeer {
  PeerFlags : Z;
  ProtocolVersion : Z;
  PeerPublicKey : list byte;
  PresharedKey : list byte;
  PersistentKeepalive : Z;
  Endpoint : list byte;
  TxBytes : Z;
  RxBytes : Z;
  LastHandshake : Z;
  AllowedIPs : list WG_IOCTL_ALLOWED_IP;
}.

(** The interface with the [PeersCount] peers that follow it. *)
Record WG_IOCTL_INTERFACE := WgIoctlInterface {
  Flags : Z;
  ListenPort : Z;
  PrivateKey : list byte;
  PublicKey : list byte;
  JunkPacketCount : Z;
  JunkPacketMinSize : Z;
  JunkPacketMaxSize : Z;
  InitPacketJunkSize : Z;
  ResponsePacketJunkSize : Z;
  CookieReplyPacketJunkSize : Z;
  TransportPacketJunkSize : Z;
  InitPacketMagicHeader : option (list byte);
  ResponsePacketMagicHeader : option (list byte);
  UnderloadPacketMagicHeader : option (list byte);
  TransportPacketMagicHeader : option (list byte);
  I1 : option (list byte);
  I2 : option (list byte);
  I3 : option (list byte);
  I4 : option (list byte);
  I5 : option (list byte);
  Peers : list WG_IOCTL_PEER;
}.

#[export] Instance eta_ioctl_allowed_ip : Eta WG_IOCTL_ALLOWED_IP :=
  fun r => WgIoctlAllowedIp (Address r) (AddressFamily r) (Cidr r).

#[export] Instance eta_ioctl_peer : Eta WG_IOCTL_PEER :=
  fun r => WgIoctlPeer (PeerFlags r) (ProtocolVersion r) (PeerPublicKey r) (PresharedKey r) (PersistentKeepalive r)
    (Endpoint r) (TxBytes r) (RxBytes r) (LastHandshake r) (AllowedIPs r).

#[export] Instance eta_ioctl_interface : Eta WG_IOCTL_INTERFACE :=
  fun r => WgIoctlInterface (Flags r) (ListenPort r) (PrivateKey r) (PublicKey r) (JunkPacketCount r) (JunkPacketMinSize r)
    (JunkPacketMaxSize r) (InitPacketJunkSize r) (ResponsePacketJunkSize r) (CookieReplyPacketJunkSize r)
    (TransportPacketJunkSize r) (InitPacketMagicHeader r) (ResponsePacketMagicHeader r) (UnderloadPacketMagicHeader r)
    (TransportPacketMagicHeader r) (I1 r) (I2 r) (I3 r) (I4 r) (I5 r) (Peers r).

(** The sizes of the structures in a 64-bit build, rounded up to multiples of eight. *)
Definition sizeof_ioctl_interface : Z := 168.
Definition sizeof_ioctl_peer : Z := 136.
Definition sizeof_ioctl_allowed_ip : Z := 24.

(** What [calloc] gives. *)
Definition zero_ioctl_ip : WG_IOCTL_ALLOWED_IP := WgIoctlAllowedIp (repeat x00 16) 0 0.
Definition zero_ioctl_peer : WG_IOCTL_PEER :=
  WgIoctlPeer 0 0 zero_key zero_key 0 (repeat x00 sizeof_sockaddr_in6) 0 0 0 [].
Definition zero_ioctl_interface : WG_IOCTL_INTERFACE :=
  WgIoctlInterface 0 0 zero_key zero_key 0 0 0 0 0 0 0 None None None None None None None None None [].

(** ** What the system answers *)

(** [SetupDiGetDeviceInstanceIdW], called for the size and for the text. *)
Inductive instance_answer :=
| InstanceNoSize
| InstanceNoText
| Instance_ (id : list Z).

(** A device: what the buffer holds after [SetupDiGetDevicePropertyW], when that succeeds with
    a string; the status that [CM_Get_DevNode_Status] gives; its instance. *)
Record devinfo := DevInfo {
  dev_property : option (list Z);
  dev_status : option Z;
  dev_instance : instance_answer;
}.

(** [SetupDiEnumDeviceInfo]: a device, ERROR_NO_MORE_ITEMS, another error. *)
Inductive enum_answer :=
| EnumDevice (d : devinfo)
| EnumNoMore
| EnumError.

(** [DeviceIoControl] with WG_IOCTL_GET: what the buffer holds, ERROR_MORE_DATA with the size
    that is needed, another error. *)
Inductive get_answer :=
| GetDone (data : WG_IOCTL_INTERFACE)
| GetMoreData (buf_len : Z)
| GetError.

(** [cm_interfaces] is the first path that [CM_Get_Device_Interface_ListW] finds for an instance,
    or for a NULL pointer, empty when there is none; [utf8] is [WideCharToMultiByte].  In the
    data of [io_get] a string whose flag is set is not NULL. *)
Class Windows := {
  system : Type;
  handle : Type;
  utf8 : list Z -> option (list byte);
  setup_devs : system -> bool;
  setup_enum : system -> nat -> enum_answer;
  cm_interfaces : system -> option (list Z) -> option (list Z);
  create_file : system -> list Z -> option handle;
  io_get : system -> handle -> Z -> system * get_answer;
  io_set : system -> handle -> Z -> WG_IOCTL_INTERFACE -> system * bool;
}.

(** The global variables. *)
Record globals := Globals {
  have_cached_kernel_interfaces : bool;
  cached_kernel_interfaces : hashtable (list Z);
  errno : Z;
}.

#[export] Instance eta_globals : Eta globals :=
  fun r => Globals (have_cached_kernel_interfaces r) (cached_kernel_interfaces r) (errno r).

(** ** Adapters *)

(** The wide string a buffer holds. *)
Fixpoint wcs (s : list Z) : list Z :=
  match s with
  | [] => []
  | c :: s => if c =? 0 then [] else c :: wcs s
  end.

Section Adapters.
Context `{Platform} `{Windows}.
(** What lies behind the buffer of the adapter's name. *)
Context (behind : list Z).

(** The name of the adapter in UTF-8.  The last character of the buffer becomes the digit 0. *)
Definition adapter_name (d : devinfo) : option (list byte) :=
  match dev_property d with
  | None => None
  | Some buf =>
      let buf := take (MAX_ADAPTER_NAME - 1) buf ++ [48] in
      if List.hd 0 buf =? 0 then None else utf8 (wcs (buf ++ behind))
  end.

Definition started (d : devinfo) : bool :=
  match dev_status d with
  | Some status => Z.land status (Z.lor DN_DRIVER_LOADED DN_STARTED) =? Z.lor DN_DRIVER_LOADED DN_STARTED
  | None => false
  end.

(** ** [kernel_get_wireguard_interfaces] *)

Section List.
Context (fresh : nat -> byte).

(** What the loop does with a device. *)
Definition list_device (d : devinfo) (cache : hashtable (list Z)) (names : string_list) : hashtable (list Z) * string_list :=
  match adapter_name d with
  | None => (cache, names)
  | Some interface_name =>
      let names := if started d then string_list_add fresh names interface_name else names in
      let '(cache, entry) := hashtable_find_or_insert_entry cache interface_name in
      (match dev_instance d with
       | InstanceNoSize => cache
       | InstanceNoText => hashtable_set_value cache interface_name None
       | Instance_ id => hashtable_set_value cache interface_name (Some id)
       end, names)
  end.

(** The loop, with the number of turns left. *)
Fixpoint list_devices (fuel : nat) (s : system) (i : nat) (cache : hashtable (list Z)) (names : string_list) :
    outcome (hashtable (list Z) * string_list) :=
  match fuel with
  | O => OutOfFuel
  | S fuel =>
      match setup_enum s i with
      | EnumNoMore => Returns (cache, names)
      | EnumError => list_devices fuel s (S i) cache names
      | EnumDevice d => let '(cache, names) := list_device d cache names in list_devices fuel s (S i) cache names
      end
  end.

Definition win_get_wireguard_interfaces (fuel : nat) (s : system) (g : globals) (names : string_list) :
    outcome (globals * Z * string_list) :=
  if negb (setup_devs s) then Returns (g <| errno := EACCES |>, - EACCES, names)
  else
    obind (list_devices fuel s 0 (cached_kernel_interfaces g) names) (fun '(cache, names) =>
      Returns (g <| cached_kernel_interfaces := cache |> <| have_cached_kernel_interfaces := true |>, 0, names)).

End List.

(** ** [kernel_interface_handle] *)

(** The path of a device's first interface. *)
Definition interface_path (s : system) (instance : option (list Z)) : option (list Z) :=
  match cm_interfaces s instance with
  | Some path => if List.hd 0 path =? 0 then None else Some path
  | None => None
  end.

(** The loop over the devices until one of the name has a path. *)
Fixpoint find_device (fuel : nat) (s : system) (i : nat) (iface : list byte) : outcome (option (list Z)) :=
  match fuel with
  | O => OutOfFuel
  | S fuel =>
      match setup_enum s i with
      | EnumNoMore => Returns None
      | EnumError => find_device fuel s (S i) iface
      | EnumDevice d =>
          let found := match adapter_name d with Some name => strcmp_eq name iface | None => false end in
          let path := if found then
                        match dev_instance d with
                        | Instance_ id => interface_path s (Some id)
                        | _ => None
                        end
                      else None in
          match path with
          | Some path => Returns (Some path)
          | None => find_device fuel s (S i) iface
          end
      end
  end.

Definition win_interface_handle (fuel : nat) (s : system) (g : globals) (iface : list byte) : outcome (globals * option handle) :=
  let cached := if have_cached_kernel_interfaces g then hashtable_find_entry (cached_kernel_interfaces g) iface else None in
  match cached with
  | Some entry =>
      match interface_path s (value entry) with
      | None => Returns (g <| errno := EACCES |>, None)
      | Some path =>
          match create_file s path with
          | None => Returns (g <| errno := EACCES |>, None)
          | Some h => Returns (g, Some h)
          end
      end
  | None =>
      if negb (setup_devs s) then Returns (g, None)
      else
        obind (find_device fuel s 0 iface) (fun path =>
          match path with
          | None => Returns (g <| errno := ENOENT |>, None)
          | Some path =>
              match create_file s path with
              | None => Returns (g <| errno := EACCES |>, None)
              | Some h => Returns (g, Some h)
              end
          end)
  end.

End Adapters.

(** ** [kernel_get_device] *)

Definition win_read_attributes (wg : WG_IOCTL_INTERFACE) (dev : wgdevice) : wgdevice :=
  let has f := has_flag (Flags wg) (interface_bit f) in
  let copy (s : option (list byte)) := Some (default [] s) in
  let dev := take_if (has WG_IOCTL_INTERFACE_HAS_LISTEN_PORT) WGDEVICE_HAS_LISTEN_PORT (fun d => d <| listen_port := ListenPort wg |>) dev in
  let dev := take_if (has WG_IOCTL_INTERFACE_HAS_PUBLIC_KEY) WGDEVICE_HAS_PUBLIC_KEY (fun d => d <| public_key := PublicKey wg |>) dev in
  let dev := take_if (has WG_IOCTL_INTERFACE_HAS_PRIVATE_KEY) WGDEVICE_HAS_PRIVATE_KEY (fun d => d <| private_key := PrivateKey wg |>) dev in
  let dev := take_if (has WG_IOCTL_INTERFACE_JC) WGDEVICE_HAS_JC (fun d => d <| junk_packet_count := JunkPacketCount wg |>) dev in
  let dev := take_if (has WG_IOCTL_INTERFACE_JMIN) WGDEVICE_HAS_JMIN (fun d => d <| junk_packet_min_size := JunkPacketMinSize wg |>) dev in
  let dev := take_if (has WG_IOCTL_INTERFACE_JMAX) WGDEVICE_HAS_JMAX (fun d => d <| junk_packet_max_size := JunkPacketMaxSize wg |>) dev in
  let dev := take_if (has WG_IOCTL_INTERFACE_S1) WGDEVICE_HAS_S1 (fun d => d <| init_packet_junk_size := InitPacketJunkSize wg |>) dev in
  let dev := take_if (has WG_IOCTL_INTERFACE_S2) WGDEVICE_HAS_S2 (fun d => d <| response_packet_junk_size := ResponsePacketJunkSize wg |>) dev in
  let dev := take_if (has WG_IOCTL_INTERFACE_S3) WGDEVICE_HAS_S3 (fun d => d <| cookie_reply_packet_junk_size := CookieReplyPacketJunkSize wg |>) dev in
  let dev := take_if (has WG_IOCTL_INTERFACE_S4) WGDEVICE_HAS_S4 (fun d => d <| transport_packet_junk_size := TransportPacketJunkSize wg |>) dev in
  let dev := take_if (has WG_IOCTL_INTERFACE_H1) WGDEVICE_HAS_H1 (fun d => d <| init_packet_magic_header := copy (InitPacketMagicHeader wg) |>) dev in
  let dev := take_if (has WG_IOCTL_INTERFACE_H2) WGDEVICE_HAS_H2 (fun d => d <| response_packet_magic_header := copy (ResponsePacketMagicHeader wg) |>) dev in
  let dev := take_if (has WG_IOCTL_INTERFACE_H3) WGDEVICE_HAS_H3 (fun d => d <| underload_packet_magic_header := copy (UnderloadPacketMagicHeader wg) |>) dev in
  let dev := take_if (has WG_IOCTL_INTERFACE_H4) WGDEVICE_HAS_H4 (fun d => d <| transport_packet_magic_header := copy (TransportPacketMagicHeader wg) |>) dev in
  let dev := take_if (has WG_IOCTL_INTERFACE_I1) WGDEVICE_HAS_I1 (fun d => d <| i1 := copy (I1 wg) |>) dev in
  let dev := take_if (has WG_IOCTL_INTERFACE_I2) WGDEVICE_HAS_I2 (fun d => d <| i2 := copy (I2 wg) |>) dev in
  let dev := take_if (has WG_IOCTL_INTERFACE_I3) WGDEVICE_HAS_I3 (fun d => d <| i3 := copy (I3 wg) |>) dev in
  let dev := take_if (has WG_IOCTL_INTERFACE_I4) WGDEVICE_HAS_I4 (fun d => d <| i4 := copy (I4 wg) |>) dev in
  take_if (has WG_IOCTL_INTERFACE_I5) WGDEVICE_HAS_I5 (fun d => d <| i5 := copy (I5 wg) |>) dev.

Definition win_read_aip (wg_aip : WG_IOCTL_ALLOWED_IP) : wgallowedip :=
  let aip := zero_allowedip <| family := AddressFamily wg_aip |> in
  if AddressFamily wg_aip =? AF_INET then
    aip <| ip ::= fun dst => memcpy_front dst (take 4 (Address wg_aip)) |> <| cidr := Cidr wg_aip |>
  else if AddressFamily wg_aip =? AF_INET6_WINDOWS then
    aip <| ip := Address wg_aip |> <| cidr := Cidr wg_aip |>
  else aip.

(** The time of a handshake, from ticks of 100 ns since 1601, in unsigned 64-bit arithmetic. *)
Definition handshake_time (ticks : Z) : timespec64 :=
  if ticks =? 0 then Timespec64 0 0
  else Timespec64 (s64 (u64 (ticks / 10000000 - 11644473600))) (s64 (u64 (ticks mod 10000000 * 100))).

Definition win_read_peer (wg_peer : WG_IOCTL_PEER) : wgpeer :=
  let has f := has_flag (PeerFlags wg_peer) (peer_bit f) in
  let p := zero_peer in
  let p := if has WG_IOCTL_PEER_HAS_PUBLIC_KEY
           then set_peer_flag WGPEER_HAS_PUBLIC_KEY (p <| peer_public_key := PeerPublicKey wg_peer |>) else p in
  let p := if has WG_IOCTL_PEER_HAS_PRESHARED_KEY then
             let p := p <| preshared_key := PresharedKey wg_peer |> in
             if key_is_zero (preshared_key p) then p else set_peer_flag WGPEER_HAS_PRESHARED_KEY p
           else p in
  let p := if has WG_IOCTL_PEER_HAS_PERSISTENT_KEEPALIVE then
             set_peer_flag WGPEER_HAS_PERSISTENT_KEEPALIVE_INTERVAL (p <| persistent_keepalive_interval := PersistentKeepalive wg_peer |>)
           else p in
  let p := if has WG_IOCTL_PEER_HAS_ENDPOINT then
             if sa_family (Endpoint wg_peer) =? AF_INET then
               p <| endpoint ::= fun dst => memcpy_front dst (take sizeof_sockaddr_in (Endpoint wg_peer)) |>
             else if sa_family (Endpoint wg_peer) =? AF_INET6_WINDOWS then
               p <| endpoint ::= fun dst => memcpy_front dst (take sizeof_sockaddr_in6 (Endpoint wg_peer)) |>
             else p
           else p in
  p <| rx_bytes := RxBytes wg_peer |> <| tx_bytes := TxBytes wg_peer |>
    <| last_handshake_time := handshake_time (LastHandshake wg_peer) |>
    <| allowedips := map win_read_aip (AllowedIPs wg_peer) |>.

Definition win_read_device (wg : WG_IOCTL_INTERFACE) (dev : wgdevice) : wgdevice :=
  (win_read_attributes wg dev) <| peers := map win_read_peer (Peers wg) |>.

(** The status of a process that follows a NULL pointer. *)
Definition ACCESS_VIOLATION : Z := 0xC0000005.

Section Get.
Context `{Platform} `{Windows} (behind : list Z).

(** The loop around WG_IOCTL_GET, with the number of calls left; [None] is the NULL pointer, when
    there is no buffer yet. *)
Fixpoint win_get_loop (fuel : nat) (s : system) (h : handle) (buf_len : Z) : outcome (system * option (option WG_IOCTL_INTERFACE)) :=
  match fuel with
  | O => OutOfFuel
  | S fuel =>
      match io_get s h buf_len with
      | (s, GetDone data) => Returns (s, Some (if buf_len =? 0 then None else Some data))
      | (s, GetMoreData buf_len) => win_get_loop fuel s h buf_len
      | (s, GetError) => Returns (s, None)
      end
  end.

(** [inl] is a return value without a device. *)
Definition win_get_device (fuel : nat) (s : system) (g : globals) (iface : list byte) :
    outcome (system * globals * (Z + wgdevice)) :=
  obind (win_interface_handle behind fuel s g iface) (fun '(g, h) =>
    match h with
    | None => Returns (s, g, inl (- errno g))
    | Some h =>
        match win_get_loop fuel s h 0 with
        | Returns (s, None) => Returns (s, g <| errno := EACCES |>, inl (- EACCES))
        | Returns (s, Some None) => Exits ACCESS_VIOLATION
        | Returns (s, Some (Some wg)) =>
            Returns (s, g <| errno := 0 |>, inr (win_read_device wg (zero_device <| name := take (IFNAMSIZ_WINDOWS - 1) iface |>)))
        | Exits code => Exits code
        | OutOfFuel => OutOfFuel
        end
    end).

End Get.

(** ** [kernel_set_device] *)

(** A field is written and its flag set. *)
Definition win_put_if (c : bool) (f : WG_IOCTL_INTERFACE_FLAG) (set : WG_IOCTL_INTERFACE -> WG_IOCTL_INTERFACE)
    (wg : WG_IOCTL_INTERFACE) : WG_IOCTL_INTERFACE :=
  if c then (set wg) <| Flags ::= fun x => u32 (Z.lor x (interface_bit f)) |> else wg.

(** None: [strlen] of a string that is NULL. *)
Definition win_write_attributes (dev : wgdevice) (wg : WG_IOCTL_INTERFACE) : option WG_IOCTL_INTERFACE :=
  let has := has_flag (flags dev) in
  let copy f (s : option (list byte)) set wg := s ← s; Some (win_put_if true f (set s) wg) in
  let wg := win_put_if (has WGDEVICE_HAS_PRIVATE_KEY) WG_IOCTL_INTERFACE_HAS_PRIVATE_KEY (fun w => w <| PrivateKey := private_key dev |>) wg in
  let wg := win_put_if (has WGDEVICE_HAS_LISTEN_PORT) WG_IOCTL_INTERFACE_HAS_LISTEN_PORT (fun w => w <| ListenPort := listen_port dev |>) wg in
  let wg := win_put_if (has WGDEVICE_REPLACE_PEERS) WG_IOCTL_INTERFACE_REPLACE_PEERS (fun w => w) wg in
  let wg := win_put_if (has WGDEVICE_HAS_JC) WG_IOCTL_INTERFACE_JC (fun w => w <| JunkPacketCount := junk_packet_count dev |>) wg in
  let wg := win_put_if (has WGDEVICE_HAS_JMIN) WG_IOCTL_INTERFACE_JMIN (fun w => w <| JunkPacketMinSize := junk_packet_min_size dev |>) wg in
  let wg := win_put_if (has WGDEVICE_HAS_JMAX) WG_IOCTL_INTERFACE_JMAX (fun w => w <| JunkPacketMaxSize := junk_packet_max_size dev |>) wg in
  let wg := win_put_if (has WGDEVICE_HAS_S1) WG_IOCTL_INTERFACE_S1 (fun w => w <| InitPacketJunkSize := init_packet_junk_size dev |>) wg in
  let wg := win_put_if (has WGDEVICE_HAS_S2) WG_IOCTL_INTERFACE_S2 (fun w => w <| ResponsePacketJunkSize := response_packet_junk_size dev |>) wg in
  let wg := win_put_if (has WGDEVICE_HAS_S3) WG_IOCTL_INTERFACE_S3 (fun w => w <| CookieReplyPacketJunkSize := cookie_reply_packet_junk_size dev |>) wg in
  let wg := win_put_if (has WGDEVICE_HAS_S4) WG_IOCTL_INTERFACE_S4 (fun w => w <| TransportPacketJunkSize := transport_packet_junk_size dev |>) wg in
  wg ← when (has WGDEVICE_HAS_H1) (copy WG_IOCTL_INTERFACE_H1 (init_packet_magic_header dev) (fun s w => w <| InitPacketMagicHeader := Some s |>)) wg;
  wg ← when (has WGDEVICE_HAS_H2) (copy WG_IOCTL_INTERFACE_H2 (response_packet_magic_header dev) (fun s w => w <| ResponsePacketMagicHeader := Some s |>)) wg;
  wg ← when (has WGDEVICE_HAS_H3) (copy WG_IOCTL_INTERFACE_H3 (underload_packet_magic_header dev) (fun s w => w <| UnderloadPacketMagicHeader := Some s |>)) wg;
  wg ← when (has WGDEVICE_HAS_H4) (copy WG_IOCTL_INTERFACE_H4 (transport_packet_magic_header dev) (fun s w => w <| TransportPacketMagicHeader := Some s |>)) wg;
  wg ← when (has WGDEVICE_HAS_I1) (copy WG_IOCTL_INTERFACE_I1 (i1 dev) (fun s w => w <| I1 := Some s |>)) wg;
  wg ← when (has WGDEVICE_HAS_I2) (copy WG_IOCTL_INTERFACE_I2 (i2 dev) (fun s w => w <| I2 := Some s |>)) wg;
  wg ← when (has WGDEVICE_HAS_I3) (copy WG_IOCTL_INTERFACE_I3 (i3 dev) (fun s w => w <| I3 := Some s |>)) wg;
  wg ← when (has WGDEVICE_HAS_I4) (copy WG_IOCTL_INTERFACE_I4 (i4 dev) (fun s w => w <| I4 := Some s |>)) wg;
  wg ← when (has WGDEVICE_HAS_I5) (copy WG_IOCTL_INTERFACE_I5 (i5 dev) (fun s w => w <| I5 := Some s |>)) wg;
  Some wg.

(** An address of another family is not counted; the two fields written for it are left in the
    space of the next structure, which is not modelled. *)
Definition win_write_aip (aip : wgallowedip) : option WG_IOCTL_ALLOWED_IP :=
  let wg_aip := zero_ioctl_ip <| AddressFamily := family aip |> <| Cidr := cidr aip |> in
  if family aip =? AF_INET then Some (wg_aip <| Address ::= fun dst => memcpy_front dst (ip4 aip) |>)
  else if family aip =? AF_INET6_WINDOWS then Some (wg_aip <| Address := ip6 aip |>)
  else None.

Definition win_write_peer (peer : wgpeer) : WG_IOCTL_PEER :=
  let has := has_flag (peer_flags peer) in
  let flag f p := p <| PeerFlags ::= fun x => Z.lor x (peer_bit f) |> in
  let sa := endpoint peer in
  let p := zero_ioctl_peer <| PeerFlags := peer_bit WG_IOCTL_PEER_HAS_PUBLIC_KEY |> <| PeerPublicKey := peer_public_key peer |> in
  let p := if has WGPEER_HAS_PRESHARED_KEY
           then flag WG_IOCTL_PEER_HAS_PRESHARED_KEY (p <| PresharedKey := preshared_key peer |>) else p in
  let p := if has WGPEER_HAS_PERSISTENT_KEEPALIVE_INTERVAL
           then flag WG_IOCTL_PEER_HAS_PERSISTENT_KEEPALIVE (p <| PersistentKeepalive := persistent_keepalive_interval peer |>) else p in
  let p := if sa_family sa =? AF_INET
           then flag WG_IOCTL_PEER_HAS_ENDPOINT (p <| Endpoint ::= fun dst => memcpy_front dst (take sizeof_sockaddr_in sa) |>)
           else if sa_family sa =? AF_INET6_WINDOWS
           then flag WG_IOCTL_PEER_HAS_ENDPOINT (p <| Endpoint ::= fun dst => memcpy_front dst (take sizeof_sockaddr_in6 sa) |>)
           else p in
  let p := if has WGPEER_REPLACE_ALLOWEDIPS then flag WG_IOCTL_PEER_REPLACE_ALLOWED_IPS p else p in
  let p := if has WGPEER_REMOVE_ME then flag WG_IOCTL_PEER_REMOVE p else p in
  p <| AllowedIPs := omap win_write_aip (allowedips peer) |>.

Definition win_write_device (dev : wgdevice) : option WG_IOCTL_INTERFACE :=
  wg ← win_write_attributes dev zero_ioctl_interface; Some (wg <| Peers := map win_write_peer (peers dev) |>).

(** The size of the structures, in a DWORD: [None] when it does not fit. *)
Definition grow (buf_len : option Z) (size : Z) : option Z :=
  match buf_len with
  | Some buf_len => if DWORD_MAX - buf_len <? size then None else Some (u32 (buf_len + size))
  | None => None
  end.

Definition win_size (dev : wgdevice) : option Z :=
  fold_left (fun buf_len peer =>
      fold_left (fun buf_len _ => grow buf_len sizeof_ioctl_allowed_ip) (allowedips peer) (grow buf_len sizeof_ioctl_peer))
    (peers dev) (Some sizeof_ioctl_interface).

Section Set_.
Context `{Platform} `{Windows} (behind : list Z).

Definition win_set_device (fuel : nat) (s : system) (g : globals) (dev : wgdevice) : outcome (system * globals * Z) :=
  obind (win_interface_handle behind fuel s g (name dev)) (fun '(g, h) =>
    match h with
    | None => Returns (s, g, - errno g)
    | Some h =>
        match win_size dev with
        | None => Returns (s, g <| errno := EOVERFLOW |>, - EOVERFLOW)
        | Some buf_len =>
            match win_write_device dev with
            | None => Exits ACCESS_VIOLATION
            | Some wg_iface =>
                match io_set s h buf_len wg_iface with
                | (s, false) => Returns (s, g <| errno := EACCES |>, - EACCES)
                | (s, true) => Returns (s, g <| errno := 0 |>, 0)
                end
            end
        end
    end).

End Set_.
