(* ===== verification/IpcWindowsOk.v ===== *)
(** * Devices set and read on Windows (src/ipc-windows.h)

    The structures that [kernel_set_device] writes are read back by [kernel_get_device] as the
    device that was set, without its mark; the size of the structures does not wrap around; the
    times of handshakes are exact; and, when the adapters have distinct names and each one that has
    a name has an instance with an interface, an adapter is opened through the cache of the
    listing as it is opened by enumerating the adapters. *)

From stdpp Require Import gmap.
From S2P Require Import Netlink Prelude CString Encoding Containers WellFormed Ipc KernelImage WinHash IpcWindows.
#[local] Open Scope Z_scope.
#[local] Open Scope awg_scope.

(** ** The word of flags *)

(** The conditions under which the flags are set. *)
Definition win_announces (dev : wgdevice) (f : WG_IOCTL_INTERFACE_FLAG) : bool :=
  let has := has_flag (flags dev) in
  match f with
  | WG_IOCTL_INTERFACE_HAS_PUBLIC_KEY => false
  | WG_IOCTL_INTERFACE_HAS_PRIVATE_KEY => has WGDEVICE_HAS_PRIVATE_KEY
  | WG_IOCTL_INTERFACE_HAS_LISTEN_PORT => has WGDEVICE_HAS_LISTEN_PORT
  | WG_IOCTL_INTERFACE_REPLACE_PEERS => has WGDEVICE_REPLACE_PEERS
  | WG_IOCTL_INTERFACE_PEERS => false
  | WG_IOCTL_INTERFACE_JC => has WGDEVICE_HAS_JC
  | WG_IOCTL_INTERFACE_JMIN => has WGDEVICE_HAS_JMIN
  | WG_IOCTL_INTERFACE_JMAX => has WGDEVICE_HAS_JMAX
  | WG_IOCTL_INTERFACE_S1 => has WGDEVICE_HAS_S1
  | WG_IOCTL_INTERFACE_S2 => has WGDEVICE_HAS_S2
  | WG_IOCTL_INTERFACE_H1 => has WGDEVICE_HAS_H1
  | WG_IOCTL_INTERFACE_H2 => has WGDEVICE_HAS_H2
  | WG_IOCTL_INTERFACE_H3 => has WGDEVICE_HAS_H3
  | WG_IOCTL_INTERFACE_H4 => has WGDEVICE_HAS_H4
  | WG_IOCTL_INTERFACE_S3 => has WGDEVICE_HAS_S3
  | WG_IOCTL_INTERFACE_S4 => has WGDEVICE_HAS_S4
  | WG_IOCTL_INTERFACE_I1 => has WGDEVICE_HAS_I1
  | WG_IOCTL_INTERFACE_I2 => has WGDEVICE_HAS_I2
  | WG_IOCTL_INTERFACE_I3 => has WGDEVICE_HAS_I3
  | WG_IOCTL_INTERFACE_I4 => has WGDEVICE_HAS_I4
  | WG_IOCTL_INTERFACE_I5 => has WGDEVICE_HAS_I5
  end.

Definition win_write_order : list WG_IOCTL_INTERFACE_FLAG :=
  [WG_IOCTL_INTERFACE_HAS_PRIVATE_KEY; WG_IOCTL_INTERFACE_HAS_LISTEN_PORT; WG_IOCTL_INTERFACE_REPLACE_PEERS;
   WG_IOCTL_INTERFACE_JC; WG_IOCTL_INTERFACE_JMIN; WG_IOCTL_INTERFACE_JMAX; WG_IOCTL_INTERFACE_S1; WG_IOCTL_INTERFACE_S2;
   WG_IOCTL_INTERFACE_S3; WG_IOCTL_INTERFACE_S4; WG_IOCTL_INTERFACE_H1; WG_IOCTL_INTERFACE_H2; WG_IOCTL_INTERFACE_H3;
   WG_IOCTL_INTERFACE_H4; WG_IOCTL_INTERFACE_I1; WG_IOCTL_INTERFACE_I2; WG_IOCTL_INTERFACE_I3; WG_IOCTL_INTERFACE_I4;
   WG_IOCTL_INTERFACE_I5].

Lemma win_interface_fits (f : WG_IOCTL_INTERFACE_FLAG) (a : Z) :
  has_flag (uw 32 a) (interface_bit f) = true && has_flag a (interface_bit f).
Proof.
  unfold uw. rewrite <- land_mask, has_flag_mask by done. unfold has_flag.
  by destruct f; cbn [andb]; match goal with |- context [Z.land a ?m =? 0] =>
    let v := eval vm_compute in m in change m with v end.
Qed.

Lemma win_interface_bits (f g : WG_IOCTL_INTERFACE_FLAG) : has_flag (interface_bit f) (interface_bit g) = bool_decide (f = g).
Proof. by destruct f, g. Qed.

Lemma win_interface_word (dev : wgdevice) (f : WG_IOCTL_INTERFACE_FLAG) :
  has_flag (flag_word 32 interface_bit (win_announces dev) win_write_order) (interface_bit f) = win_announces dev f.
Proof.
  rewrite (has_flag_word _ _ (fun _ => true)) by (apply win_interface_bits || apply win_interface_fits).
  destruct f; cbn [win_announces andb]; try done; apply andb_true_r.
Qed.

(** ** What is written *)

Lemma win_put_field {T} (proj : WG_IOCTL_INTERFACE -> T) `{S : !Setter proj} (c : bool) (f : WG_IOCTL_INTERFACE_FLAG) (v : T) (w : WG_IOCTL_INTERFACE) :
  modify proj (fun old => old) w = w ->
  win_put_if c f (fun w => w <| proj := v |>) w
  = (modify proj (fun old => if c then v else old) w) <| Flags ::= flag_step 32 c (interface_bit f) |>.
Proof. intros Hid. unfold win_put_if. destruct c; [done |]. cbv match. rewrite Hid. by destruct w. Qed.

Lemma win_put_flag (c : bool) (f : WG_IOCTL_INTERFACE_FLAG) (w : WG_IOCTL_INTERFACE) :
  win_put_if c f (fun w => w) w = w <| Flags ::= flag_step 32 c (interface_bit f) |>.
Proof. unfold win_put_if. destruct c; [done |]. by destruct w. Qed.

Definition win_written (dev : wgdevice) (ps : list WG_IOCTL_PEER) : WG_IOCTL_INTERFACE :=
  let a := win_announces dev in
  let number f (v : Z) := if a f then v else 0 in
  let str f (s : option (list byte)) := if a f then Some (default [] s) else None in
  WgIoctlInterface (flag_word 32 interface_bit a win_write_order) (number WG_IOCTL_INTERFACE_HAS_LISTEN_PORT (listen_port dev))
    (if a WG_IOCTL_INTERFACE_HAS_PRIVATE_KEY then private_key dev else zero_key) zero_key
    (number WG_IOCTL_INTERFACE_JC (junk_packet_count dev)) (number WG_IOCTL_INTERFACE_JMIN (junk_packet_min_size dev))
    (number WG_IOCTL_INTERFACE_JMAX (junk_packet_max_size dev)) (number WG_IOCTL_INTERFACE_S1 (init_packet_junk_size dev))
    (number WG_IOCTL_INTERFACE_S2 (response_packet_junk_size dev)) (number WG_IOCTL_INTERFACE_S3 (cookie_reply_packet_junk_size dev))
    (number WG_IOCTL_INTERFACE_S4 (transport_packet_junk_size dev))
    (str WG_IOCTL_INTERFACE_H1 (init_packet_magic_header dev)) (str WG_IOCTL_INTERFACE_H2 (response_packet_magic_header dev))
    (str WG_IOCTL_INTERFACE_H3 (underload_packet_magic_header dev)) (str WG_IOCTL_INTERFACE_H4 (transport_packet_magic_header dev))
    (str WG_IOCTL_INTERFACE_I1 (i1 dev)) (str WG_IOCTL_INTERFACE_I2 (i2 dev)) (str WG_IOCTL_INTERFACE_I3 (i3 dev))
    (str WG_IOCTL_INTERFACE_I4 (i4 dev)) (str WG_IOCTL_INTERFACE_I5 (i5 dev)) ps.

Ltac ioctl_fields :=
  cbn [modify Flags ListenPort PrivateKey PublicKey JunkPacketCount JunkPacketMinSize JunkPacketMaxSize InitPacketJunkSize
       ResponsePacketJunkSize CookieReplyPacketJunkSize TransportPacketJunkSize InitPacketMagicHeader ResponsePacketMagicHeader
       UnderloadPacketMagicHeader TransportPacketMagicHeader I1 I2 I3 I4 I5 Peers].

Ltac win_write_attribute :=
  first [rewrite win_put_field by reflexivity | rewrite win_put_flag]; unfold zero_ioctl_interface; ioctl_fields.

(** The attributes of a device whose strings are there. *)
Definition win_attributes (dev : wgdevice) (wg : WG_IOCTL_INTERFACE) : WG_IOCTL_INTERFACE :=
  let has := has_flag (flags dev) in
  let copy (s : option (list byte)) := Some (default [] s) in
  let wg := win_put_if (has WGDEVICE_HAS_PRIVATE_KEY) WG_IOCTL_INTERFACE_HAS_PRIVATE_KEY (fun w => w <| PrivateKey := private_key dev |>) wg in
  let wg := win_put_if (has WGDEVICE_HAS_LISTEN_PORT) WG_IOCTL_INTERFACE_HAS_LISTEN_PORT (fun w => w <| ListenPort := listen_port dev |>) wg in
  let wg := win_put_if (has WGDEVICE_REPLACE_PEERS) WG_IOCTL_INTERFACE_REPLACE_PEERS (fun w => w) wg in
  let wg := win_put_if (has WGDEVICE_HAS_JC) WG_IOCTL_INTERFACE_JC (fun w => w <| JunkPacketCount := junk_packet_count dev |>) wg in
  let wg := win_put_if (has WGDEVICE_HAS_JMIN) WG_IOCTL_INTERFACE_JMIN (fun w => w <| JunkPacketMinSize := junk_packet_min_size dev |>) wg in
  let wg := win_put_if (has WGDEVICE_HAS_JMAX) WG_IOCTL_INTERFACE_JMAX (fun w => w <| JunkPacketMaxSize := junk_packet_max_size dev |>) wg in
  let wg := win_put_if (has WGDEVICE_HAS_S1) WG_IOCTL_INTERFACE_S1 (fun w => w <| InitPacketJunkSize := init_packet_junk_size dev |>) wg in
  let wg := win_put_if (has WGDEVICE_HAS_S2) WG_IOCTL_INTERFACE_S2 (fun w => w <| ResponsePacketJunkSize := response_packet_junk_size dev |>) wg in
  let wg := win_put_if (has WGDEVICE_HAS_S3) WG_IOCTL_INTERFACE_S3 (fun w => w <| CookieReplyPacketJunkSize := cookie_reply_packet_junk_size dev |>) wg in
  let wg := win_put_if (has WGDEVICE_HAS_S4) WG_IOCTL_INTERFACE_S4 (fun w => w <| TransportPacketJunkSize := transport_packet_junk_size dev |>) wg in
  let wg := win_put_if (has WGDEVICE_HAS_H1) WG_IOCTL_INTERFACE_H1 (fun w => w <| InitPacketMagicHeader := copy (init_packet_magic_header dev) |>) wg in
  let wg := win_put_if (has WGDEVICE_HAS_H2) WG_IOCTL_INTERFACE_H2 (fun w => w <| ResponsePacketMagicHeader := copy (response_packet_magic_header dev) |>) wg in
  let wg := win_put_if (has WGDEVICE_HAS_H3) WG_IOCTL_INTERFACE_H3 (fun w => w <| UnderloadPacketMagicHeader := copy (underload_packet_magic_header dev) |>) wg in
  let wg := win_put_if (has WGDEVICE_HAS_H4) WG_IOCTL_INTERFACE_H4 (fun w => w <| TransportPacketMagicHeader := copy (transport_packet_magic_header dev) |>) wg in
  let wg := win_put_if (has WGDEVICE_HAS_I1) WG_IOCTL_INTERFACE_I1 (fun w => w <| I1 := copy (i1 dev) |>) wg in
  let wg := win_put_if (has WGDEVICE_HAS_I2) WG_IOCTL_INTERFACE_I2 (fun w => w <| I2 := copy (i2 dev) |>) wg in
  let wg := win_put_if (has WGDEVICE_HAS_I3) WG_IOCTL_INTERFACE_I3 (fun w => w <| I3 := copy (i3 dev) |>) wg in
  let wg := win_put_if (has WGDEVICE_HAS_I4) WG_IOCTL_INTERFACE_I4 (fun w => w <| I4 := copy (i4 dev) |>) wg in
  win_put_if (has WGDEVICE_HAS_I5) WG_IOCTL_INTERFACE_I5 (fun w => w <| I5 := copy (i5 dev) |>) wg.

Lemma win_write_attributes_present (dev : wgdevice) (wg : WG_IOCTL_INTERFACE) :
  win_write_attributes dev wg = if strings_present dev then Some (win_attributes dev wg) else None.
Proof.
  unfold win_write_attributes, strings_present, device_strings. cbv zeta. cbn [forallb].
  repeat (rewrite when_present; match goal with |- context [implb ?a ?b] => destruct (implb a b); cbn [andb]; [| done] end).
  reflexivity.
Qed.

Lemma win_attributes_written (dev : wgdevice) : win_attributes dev zero_ioctl_interface = win_written dev [].
Proof.
  cbv delta [win_attributes] beta. do 2 unlet. do 18 let_step win_write_attribute. win_write_attribute.
  unfold win_written, flag_word, win_write_order. cbn [fold_left win_announces]. reflexivity.
Qed.

(** ** What is read of it *)

Lemma win_written_has (dev : wgdevice) (ps : list WG_IOCTL_PEER) (f : WG_IOCTL_INTERFACE_FLAG) :
  has_flag (Flags (win_written dev ps)) (interface_bit f) = win_announces dev f.
Proof. apply win_interface_word. Qed.

Ltac win_read_attribute :=
  unfold take_if; rewrite win_written_has, cond_field by reflexivity; unfold set_dev_flag, zero_device; device_fields.

Definition win_read_order : list Z :=
  [WGDEVICE_HAS_LISTEN_PORT; WGDEVICE_HAS_PRIVATE_KEY; WGDEVICE_HAS_JC; WGDEVICE_HAS_JMIN;
   WGDEVICE_HAS_JMAX; WGDEVICE_HAS_S1; WGDEVICE_HAS_S2; WGDEVICE_HAS_S3; WGDEVICE_HAS_S4; WGDEVICE_HAS_H1; WGDEVICE_HAS_H2;
   WGDEVICE_HAS_H3; WGDEVICE_HAS_H4; WGDEVICE_HAS_I1; WGDEVICE_HAS_I2; WGDEVICE_HAS_I3; WGDEVICE_HAS_I4; WGDEVICE_HAS_I5].

Lemma win_order_kept (fl : Z) :
  fold_left (fun acc f => Z.lor acc (if has_flag fl f then f else 0)) win_read_order 0
  = Z.land (Z.ldiff fl WGDEVICE_HAS_FWMARK) IO_FLAGS.
Proof.
  transitivity (Z.land fl (fold_left Z.lor win_read_order 0)).
  - apply flags_kept. unfold win_read_order. each_flag.
  - rewrite Z.ldiff_land, <- Z.land_assoc. f_equal.
Qed.

Lemma win_attributes_read (dev : wgdevice) (ps : list WG_IOCTL_PEER) (nm : list byte) : strings_present dev = true ->
  win_read_attributes (win_written dev ps) (zero_device <| name := nm |>)
  = io_front_image nm (drop_flags WGDEVICE_HAS_FWMARK dev).
Proof.
  intros Hpresent. cbv delta [win_read_attributes] beta. do 2 unlet. let_step win_read_attribute.
  let_step ltac:(unfold take_if; rewrite win_written_has; cbn [win_announces]). do 16 let_step win_read_attribute. win_read_attribute.
  rewrite <- (io_front_present nm (drop_flags WGDEVICE_HAS_FWMARK dev)) by (by apply dropped_present).
  unfold io_front_read. cbv zeta. change (flags (drop_flags ?m dev)) with (Z.ldiff (flags dev) m).
  rewrite <- win_order_kept. unfold win_read_order. cbn [fold_left win_announces].
  unfold win_written. ioctl_fields. cbn [win_announces].
  f_equal; change (Z.ldiff (flags dev) ?m) with (flags (drop_flags m dev)); rewrite has_dropped;
    match goal with |- context [has_flag (flags dev) (Z.ldiff ?f ?m)] =>
      first [change (Z.ldiff f m) with f | change (Z.ldiff f m) with 0] end;
    [| unfold has_flag; by rewrite Z.land_0_r | ..];
    match goal with |- context [if has_flag (flags dev) ?f then _ else _] => by destruct (has_flag (flags dev) f) end.
Qed.

(** ** Allowed IPs and peers *)

Record win_allowedip (a : wgallowedip) : Prop := WinAllowedip {
  win_ip : length (ip a) = 16%nat;
  win_family : family a = AF_INET \/ family a = AF_INET6_WINDOWS;
}.

Record win_peer (p : wgpeer) : Prop := WinPeer {
  win_endpoint : length (endpoint p) = sizeof_sockaddr_in6;
  win_allowedips : Forall win_allowedip (allowedips p);
}.

Definition win_endpoint_image (sa : list byte) : list byte :=
  if sa_family sa =? AF_INET then take sizeof_sockaddr_in sa ++ repeat x00 12
  else if sa_family sa =? AF_INET6_WINDOWS then sa
  else repeat x00 sizeof_sockaddr_in6.

Lemma win_aips_read (l : list wgallowedip) : Forall win_allowedip l ->
  map win_read_aip (omap win_write_aip l) = map io_ip_image l.
Proof.
  induction 1 as [|a l [Hip Hfam] _ IH]; [done |]. destruct a as [f b c]. cbn [family ip] in *.
  change (omap win_write_aip (?a :: l)) with (match win_write_aip a with Some x => x :: omap win_write_aip l | None => omap win_write_aip l end).
  assert (length (take 4 b) = 4%nat) as H4 by (rewrite length_take; lia).
  destruct Hfam as [-> | ->].
  - unfold win_write_aip at 1. cbn [family]. change (AF_INET =? AF_INET) with true. cbv match. cbn [map]. rewrite IH. f_equal.
    unfold win_read_aip, io_ip_image, ip4. cbn -[take repeat]. unfold memcpy_front. rewrite H4, (take_app_length' _ _ 4) by done.
    by rewrite H4.
  - unfold win_write_aip at 1. cbn [family]. change (AF_INET6_WINDOWS =? AF_INET) with false.
    change (AF_INET6_WINDOWS =? AF_INET6_WINDOWS) with true. cbv match. cbn [map]. rewrite IH. done.
Qed.

(** The endpoint in the structure. *)
Definition ioctl_endpoint (sa : list byte) : option (list byte) :=
  if sa_family sa =? AF_INET then Some (memcpy_front (repeat x00 sizeof_sockaddr_in6) (take sizeof_sockaddr_in sa))
  else if sa_family sa =? AF_INET6_WINDOWS then Some (memcpy_front (repeat x00 sizeof_sockaddr_in6) (take sizeof_sockaddr_in6 sa))
  else None.

Definition ioctl_peer_word (p : wgpeer) : Z :=
  let has := has_flag (peer_flags p) in
  let put (c : bool) f x := if c then Z.lor x (peer_bit f) else x in
  put (has WGPEER_REMOVE_ME) WG_IOCTL_PEER_REMOVE
    (put (has WGPEER_REPLACE_ALLOWEDIPS) WG_IOCTL_PEER_REPLACE_ALLOWED_IPS
      (put (if ioctl_endpoint (endpoint p) then true else false) WG_IOCTL_PEER_HAS_ENDPOINT
        (put (has WGPEER_HAS_PERSISTENT_KEEPALIVE_INTERVAL) WG_IOCTL_PEER_HAS_PERSISTENT_KEEPALIVE
          (put (has WGPEER_HAS_PRESHARED_KEY) WG_IOCTL_PEER_HAS_PRESHARED_KEY (peer_bit WG_IOCTL_PEER_HAS_PUBLIC_KEY))))).

Lemma win_peer_written (p : wgpeer) :
  win_write_peer p
  = WgIoctlPeer (ioctl_peer_word p) 0 (peer_public_key p)
      (if has_flag (peer_flags p) WGPEER_HAS_PRESHARED_KEY then preshared_key p else zero_key)
      (if has_flag (peer_flags p) WGPEER_HAS_PERSISTENT_KEEPALIVE_INTERVAL then persistent_keepalive_interval p else 0)
      (default (repeat x00 sizeof_sockaddr_in6) (ioctl_endpoint (endpoint p))) 0 0 0 (omap win_write_aip (allowedips p)).
Proof.
  unfold win_write_peer, ioctl_peer_word, ioctl_endpoint, zero_ioctl_peer.
  destruct (has_flag _ WGPEER_HAS_PRESHARED_KEY), (has_flag _ WGPEER_HAS_PERSISTENT_KEEPALIVE_INTERVAL),
    (sa_family (endpoint p) =? AF_INET), (sa_family (endpoint p) =? AF_INET6_WINDOWS), (has_flag _ WGPEER_REPLACE_ALLOWEDIPS), (has_flag _ WGPEER_REMOVE_ME);
    reflexivity.
Qed.

Lemma ioctl_peer_word_has (p : wgpeer) :
  let has f := has_flag (ioctl_peer_word p) (peer_bit f) in
  has WG_IOCTL_PEER_HAS_PUBLIC_KEY = true
  /\ has WG_IOCTL_PEER_HAS_PRESHARED_KEY = has_flag (peer_flags p) WGPEER_HAS_PRESHARED_KEY
  /\ has WG_IOCTL_PEER_HAS_PERSISTENT_KEEPALIVE = has_flag (peer_flags p) WGPEER_HAS_PERSISTENT_KEEPALIVE_INTERVAL
  /\ has WG_IOCTL_PEER_HAS_ENDPOINT = (if ioctl_endpoint (endpoint p) then true else false).
Proof.
  cbv zeta. unfold ioctl_peer_word.
  by destruct (has_flag _ WGPEER_HAS_PRESHARED_KEY), (has_flag _ WGPEER_HAS_PERSISTENT_KEEPALIVE_INTERVAL),
    (ioctl_endpoint (endpoint p)), (has_flag _ WGPEER_REPLACE_ALLOWEDIPS), (has_flag _ WGPEER_REMOVE_ME).
Qed.

(** The family is read again, and the bytes. *)
Lemma ioctl_endpoint_read (sa : list byte) : length sa = sizeof_sockaddr_in6 ->
  match ioctl_endpoint sa with
  | Some e =>
      (if sa_family e =? AF_INET then memcpy_front (repeat x00 sizeof_sockaddr_in6) (take sizeof_sockaddr_in e)
       else if sa_family e =? AF_INET6_WINDOWS then memcpy_front (repeat x00 sizeof_sockaddr_in6) (take sizeof_sockaddr_in6 e)
       else repeat x00 sizeof_sockaddr_in6) = win_endpoint_image sa
  | None => win_endpoint_image sa = repeat x00 sizeof_sockaddr_in6
  end.
Proof.
  intros Hl. unfold ioctl_endpoint, win_endpoint_image.
  assert (forall n, (2 <= n)%nat -> sa_family (memcpy_front (repeat x00 sizeof_sockaddr_in6) (take n sa)) = sa_family sa) as Hfam.
  { intros n Hn. destruct n as [|[|n]]; [lia | lia |]. destruct sa as [|a [|b sa]]; [done | done |].
    unfold sa_family, memcpy_front. cbn [take app]. done. }
  destruct (sa_family sa =? AF_INET) eqn:E4.
  - rewrite Hfam, E4 by (unfold sizeof_sockaddr_in; lia). unfold memcpy_front.
    assert (length (take sizeof_sockaddr_in sa) = 16%nat) as Ht by (rewrite length_take, Hl; done).
    rewrite (take_app_length' _ _ sizeof_sockaddr_in) by done. by rewrite Ht.
  - destruct (sa_family sa =? AF_INET6_WINDOWS) eqn:E6; [| done].
    rewrite Hfam, E4, E6 by (unfold sizeof_sockaddr_in6; lia). rewrite (take_ge sa) by lia. unfold memcpy_front.
    rewrite (take_app_length' _ _ sizeof_sockaddr_in6) by done. rewrite Hl. by rewrite app_nil_r.
Qed.

Lemma win_peer_read (p : wgpeer) : win_peer p -> win_read_peer (win_write_peer p) = io_peer_image win_endpoint_image p.
Proof.
  intros [Hep Hips]. rewrite win_peer_written. unfold win_read_peer.
  cbn [PeerFlags ProtocolVersion PeerPublicKey PresharedKey PersistentKeepalive Endpoint TxBytes RxBytes LastHandshake AllowedIPs].
  destruct (ioctl_peer_word_has p) as (-> & -> & -> & ->). rewrite win_aips_read by done. unfold io_peer_image.
  change (preshared_key (?q <| preshared_key := ?v |>)) with v.
  pose proof (ioctl_endpoint_read (endpoint p) Hep) as He. destruct (ioctl_endpoint (endpoint p)) as [e|]; cbn [default from_option Datatypes.id].
  - rewrite <- He. by destruct (sa_family e =? AF_INET), (sa_family e =? AF_INET6_WINDOWS), (has_flag _ WGPEER_HAS_PRESHARED_KEY),
      (has_flag (peer_flags p) WGPEER_HAS_PERSISTENT_KEEPALIVE_INTERVAL); destruct (key_is_zero (preshared_key p)).
  - rewrite He. by destruct (has_flag _ WGPEER_HAS_PRESHARED_KEY), (has_flag (peer_flags p) WGPEER_HAS_PERSISTENT_KEEPALIVE_INTERVAL);
      destruct (key_is_zero (preshared_key p)).
Qed.

Lemma win_device_written (d : wgdevice) :
  win_write_device d = if strings_present d then Some (win_written d (map win_write_peer (peers d))) else None.
Proof.
  unfold win_write_device. rewrite win_write_attributes_present, win_attributes_written. by destruct (strings_present d).
Qed.

Lemma win_device_read (d : wgdevice) (nm : list byte) : strings_present d = true -> Forall win_peer (peers d) ->
  win_read_device (win_written d (map win_write_peer (peers d))) (zero_device <| name := nm |>)
  = io_image win_endpoint_image nm (drop_flags WGDEVICE_HAS_FWMARK d).
Proof.
  intros Hp Hd. unfold win_read_device. rewrite win_attributes_read by done.
  change (Peers (win_written d ?l)) with l. rewrite map_map.
  assert (map (fun p => win_read_peer (win_write_peer p)) (peers d) = map (io_peer_image win_endpoint_image) (peers d)) as ->; [| done].
  apply map_ext_Forall. apply (Forall_impl _ _ _ Hd). intros p. apply win_peer_read.
Qed.

(** ** The size of the buffer *)

(** The size of the structures without a bound. *)
Definition exact_size (d : wgdevice) : Z :=
  fold_left (fun n p => n + sizeof_ioctl_peer + sizeof_ioctl_allowed_ip * Z.of_nat (length (allowedips p))) (peers d) sizeof_ioctl_interface.

(** A size that is kept as long as it fits. *)
Definition bounded (n : Z) : option Z := if n <=? DWORD_MAX then Some n else None.

Lemma grow_bounded (n size : Z) : 0 <= n -> 0 <= size -> grow (bounded n) size = bounded (n + size).
Proof.
  intros Hn Hs. unfold grow, bounded, DWORD_MAX. destruct (n <=? 2 ^ 32 - 1) eqn:E.
  - apply Z.leb_le in E. destruct (2 ^ 32 - 1 - n <? size) eqn:E1.
    + by rewrite (proj2 (Z.leb_gt _ _)) by lia.
    + rewrite (proj2 (Z.leb_le _ _)) by lia. unfold u32. by rewrite uw_small by lia.
  - by rewrite (proj2 (Z.leb_gt _ _)) by lia.
Qed.

Lemma grow_ips (ips : list wgallowedip) (n : Z) : 0 <= n ->
  fold_left (fun buf_len _ => grow buf_len sizeof_ioctl_allowed_ip) ips (bounded n)
  = bounded (n + sizeof_ioctl_allowed_ip * Z.of_nat (length ips)).
Proof.
  revert n. induction ips as [|a ips IH]; intros n Hn; cbn [fold_left length].
  - f_equal. lia.
  - unfold sizeof_ioctl_allowed_ip in *. rewrite grow_bounded, IH by lia. f_equal. lia.
Qed.

Lemma grow_peers (l : list wgpeer) (n : Z) : 0 <= n ->
  fold_left (fun buf_len peer =>
      fold_left (fun buf_len _ => grow buf_len sizeof_ioctl_allowed_ip) (allowedips peer) (grow buf_len sizeof_ioctl_peer)) l (bounded n)
  = bounded (fold_left (fun n p => n + sizeof_ioctl_peer + sizeof_ioctl_allowed_ip * Z.of_nat (length (allowedips p))) l n)
  /\ n <= fold_left (fun n p => n + sizeof_ioctl_peer + sizeof_ioctl_allowed_ip * Z.of_nat (length (allowedips p))) l n.
Proof.
  revert n. induction l as [|p l IH]; intros n Hn; cbn [fold_left]; [split; [done | lia] |].
  assert (0 <= sizeof_ioctl_peer /\ 0 <= sizeof_ioctl_allowed_ip * Z.of_nat (length (allowedips p))) as [? ?]
    by (unfold sizeof_ioctl_peer, sizeof_ioctl_allowed_ip; lia).
  rewrite grow_bounded, grow_ips by lia.
  destruct (IH (n + sizeof_ioctl_peer + sizeof_ioctl_allowed_ip * Z.of_nat (length (allowedips p)))) as [-> ?]; [lia |].
  split; [done | lia].
Qed.

Lemma win_size_bounded (d : wgdevice) : win_size d = bounded (exact_size d) /\ sizeof_ioctl_interface <= exact_size d.
Proof.
  unfold win_size, exact_size. change (Some sizeof_ioctl_interface) with (bounded sizeof_ioctl_interface).
  apply grow_peers. done.
Qed.

Section Roundtrip.
Context `{P : Platform} `{W : Windows} (behind : list Z).

(** A string that is NULL, with its flag set, ends the program. *)
Lemma win_set_null (fuel : nat) (s : system) (g g' : globals) (h : handle) (d : wgdevice) (size : Z) :
  win_interface_handle behind fuel s g (name d) = Returns (g', Some h) -> win_size d = Some size ->
  strings_present d = false -> win_set_device behind fuel s g d = Exits ACCESS_VIOLATION.
Proof. intros Hh Hsize Hp. unfold win_set_device. rewrite Hh. cbn [obind]. by rewrite Hsize, win_device_written, Hp. Qed.

(** C9: On Windows a device survives the way to the driver and back, without its mark, which
    the structures have no place for.  [kernel_set_device] hands the structures of the device to
    WG_IOCTL_SET and returns 0; and when the driver then answers WG_IOCTL_GET with these
    structures once the buffer is large enough, [kernel_get_device] returns the device that was
    set: every attribute whose flag it had, zero elsewhere, and its peers with their keys,
    endpoints, intervals and allowed IPs, in order.  The premise [strings_present] is that no
    string of the device is NULL whose flag is set, which would end the program
    ([win_set_null]). *)
Theorem win_device_roundtrip (fuel : nat) (s s' s1 s2 : system) (g : globals) (h h' : handle) (d : wgdevice) (size : Z)
    (wg : WG_IOCTL_INTERFACE) :
  strings_present d = true -> Forall win_peer (peers d) -> win_size d = Some size -> win_write_device d = Some wg ->
  win_interface_handle behind (S (S fuel)) s g (name d) = Returns (g, Some h) ->
  io_set s h size wg = (s', true) ->
  win_interface_handle behind (S (S fuel)) s' (g <| errno := 0 |>) (name d) = Returns (g <| errno := 0 |>, Some h') ->
  io_get s' h' 0 = (s1, GetMoreData size) -> io_get s1 h' size = (s2, GetDone wg) ->
  win_set_device behind (S (S fuel)) s g d = Returns (s', g <| errno := 0 |>, 0)
  /\ win_get_device behind (S (S fuel)) s' (g <| errno := 0 |>) (name d)
     = Returns (s2, g <| errno := 0 |>,
                inr (io_image win_endpoint_image (take (IFNAMSIZ_WINDOWS - 1) (name d)) (drop_flags WGDEVICE_HAS_FWMARK d))).
Proof.
  intros Hp Hd Hsize Hwg Hh Hset Hh' H1 H2. split.
  - unfold win_set_device. rewrite Hh. cbn [obind]. by rewrite Hsize, Hwg, Hset.
  - unfold win_get_device. rewrite Hh'. cbn [obind win_get_loop]. rewrite H1, H2.
    rewrite win_device_written, Hp in Hwg. injection Hwg as <-.
    assert (size =? 0 = false) as ->; [| by rewrite win_device_read].
    apply Z.eqb_neq. intros ->. destruct (win_size_bounded d) as [Hb Hle]. rewrite Hsize in Hb. unfold bounded in Hb.
    destruct (exact_size d <=? DWORD_MAX); [| done]. injection Hb as Hb. rewrite <- Hb in Hle. by apply Hle.
Qed.

End Roundtrip.

(** ** The size, and what it is for *)

(** The room that the structures take. *)
Definition ioctl_size (wg : WG_IOCTL_INTERFACE) : Z :=
  fold_left (fun n p => n + sizeof_ioctl_peer + sizeof_ioctl_allowed_ip * Z.of_nat (length (AllowedIPs p))) (Peers wg) sizeof_ioctl_interface.

Lemma length_omap_le {A B} (f : A -> option B) (l : list A) : (length (omap f l) <= length l)%nat.
Proof. induction l as [|a l IH]; [done |]. cbn. destruct (f a); cbn; lia. Qed.

Lemma ioctl_size_peers (l : list wgpeer) (m n : Z) : m <= n ->
  fold_left (fun n p => n + sizeof_ioctl_peer + sizeof_ioctl_allowed_ip * Z.of_nat (length (AllowedIPs p))) (map win_write_peer l) m
  <= fold_left (fun n p => n + sizeof_ioctl_peer + sizeof_ioctl_allowed_ip * Z.of_nat (length (allowedips p))) l n.
Proof.
  revert m n. induction l as [|p l IH]; intros m n Hmn; cbn [fold_left map]; [done |]. apply IH.
  rewrite win_peer_written. cbn [AllowedIPs]. pose proof (length_omap_le win_write_aip (allowedips p)).
  unfold sizeof_ioctl_allowed_ip. lia.
Qed.

Section Size.
Context `{P : Platform} `{W : Windows} (behind : list Z).

(** C33: The size that [kernel_set_device] allocates is the exact sum of the sizes of the
    structures: the additions in a DWORD never wrap around.  When the sum does not fit the
    device is refused with EOVERFLOW, and nothing is handed to the driver; otherwise the
    structures that are written fit into the buffer, and their size is the one that the driver
    is told.  A string that is NULL, with its flag set, ends the program before that. *)
Theorem win_set_device_size (fuel : nat) (s : system) (g : globals) (h : handle) (d : wgdevice) :
  win_interface_handle behind fuel s g (name d) = Returns (g, Some h) ->
  win_set_device behind fuel s g d
  = (if exact_size d <=? DWORD_MAX then
       match win_write_device d with
       | Some wg =>
           let '(s, ok) := io_set s h (exact_size d) wg in
           let e := if ok then 0 else EACCES in Returns (s, g <| errno := e |>, - e)
       | None => Exits ACCESS_VIOLATION
       end
     else Returns (s, g <| errno := EOVERFLOW |>, - EOVERFLOW))
  /\ (win_write_device d = None <-> strings_present d = false)
  /\ (forall wg, win_write_device d = Some wg -> ioctl_size wg <= exact_size d).
Proof.
  intros Hh. split; [| rewrite win_device_written; split].
  - unfold win_set_device. rewrite Hh. cbn [obind]. destruct (win_size_bounded d) as [-> _]. unfold bounded.
    destruct (exact_size d <=? DWORD_MAX); [| done]. destruct (win_write_device d); [| done].
    by destruct (io_set s h (exact_size d) _) as [s' []].
  - by destruct (strings_present d).
  - destruct (strings_present d); [| done]. intros wg [= <-]. unfold ioctl_size, exact_size. by apply ioctl_size_peers.
Qed.

End Size.

(** ** Times of handshakes *)

(** Ticks of 100 ns since 1601 for a time since 1970. *)
Definition ticks_of (t : timespec64) : Z := (tv_sec t + 11644473600) * 10000000 + tv_nsec t / 100.

Lemma s64_u64 (x : Z) : - 2 ^ 63 <= x < 2 ^ 63 -> s64 (u64 x) = x.
Proof.
  intros Hx. unfold s64, u64, uw. rewrite Z.mod_mod by done. cbv zeta. destruct (Z.le_gt_cases 0 x) as [H0 | H0].
  - rewrite Z.mod_small by lia. by rewrite (proj2 (Z.leb_gt _ _)) by lia.
  - rewrite <- (Z_mod_plus_full x 1 (2 ^ 64)), Z.mod_small by lia. rewrite (proj2 (Z.leb_le _ _)) by lia. lia.
Qed.

(** The seconds and nanoseconds of a tick count that is not zero are the time it stands for. *)
Lemma handshake_time_exact (ticks : Z) : 0 < ticks < 2 ^ 64 ->
  ticks_of (handshake_time ticks) = ticks /\ 0 <= tv_nsec (handshake_time ticks) < 1000000000.
Proof.
  intros Ht. unfold handshake_time. rewrite (proj2 (Z.eqb_neq _ _)) by lia. unfold ticks_of. cbn [tv_sec tv_nsec].
  pose proof (Z.div_mod ticks 10000000 ltac:(done)). pose proof (Z.mod_pos_bound ticks 10000000 ltac:(done)).
  assert (0 <= ticks / 10000000 < 2 ^ 62) by (split; [apply Z.div_pos | apply Z.div_lt_upper_bound]; lia).
  rewrite !s64_u64 by lia. rewrite Z.div_mul by done. lia.
Qed.

(** ** The cache of adapters *)

Section Cache.
Context `{P : Platform} `{W : Windows} (behind : list Z) (fresh : nat -> byte).
Implicit Types (d : devinfo) (ds : list devinfo) (m : gmap (list byte) (option (list Z))).

(** The adapters that the system enumerates. *)
Definition enumerates (s : system) ds : Prop :=
  forall i, setup_enum s i = match ds !! i with Some d => EnumDevice d | None => EnumNoMore end.

(** What the listing does to the map of adapters. *)
Definition map_device m d : gmap (list byte) (option (list Z)) :=
  match adapter_name behind d with
  | None => m
  | Some n =>
      match dev_instance d with
      | InstanceNoSize => match m !! n with Some _ => m | None => <[n := None]> m end
      | InstanceNoText => <[n := None]> m
      | Instance_ id => <[n := Some id]> m
      end
  end.

Lemma list_device_represents d cache m names : represents cache m ->
  represents (fst (list_device behind fresh d cache names)) (map_device m d).
Proof.
  intros Hr. unfold list_device, map_device. destruct (adapter_name behind d) as [n|]; [| done].
  destruct (step_simulated cache m (FindOrInsert n) Hr) as [_ Hi]. cbn [table_step map_step] in Hi.
  destruct (hashtable_find_or_insert_entry cache n) as [cache' entry]. cbn [fst] in *.
  set (m' := fst (match m !! n with Some v => (m, Some v) | None => (<[n := None]> m, Some None) end)) in Hi.
  assert (m' = match m !! n with Some _ => m | None => <[n := None]> m end) as Em by (by unfold m'; destruct (m !! n)).
  assert (is_Some (m' !! n)) as [v' Hv'] by (rewrite Em; destruct (m !! n) eqn:E; [by rewrite E | by rewrite lookup_insert_eq]).
  assert (forall v, represents (hashtable_set_value cache' n v) (<[n := v]> m)) as Hset.
  { intros v. destruct (step_simulated cache' m' (Assign n v) Hi) as [_ Ha]. cbn [table_step map_step fst] in Ha. rewrite Hv' in Ha.
    assert (<[n := v]> m' = <[n := v]> m) as <-; [| done]. rewrite Em. destruct (m !! n); [done | apply insert_insert_eq]. }
  destruct (dev_instance d); [by rewrite <- Em | apply Hset | apply Hset].
Qed.

Lemma list_devices_represents s ds fuel i cache m names : enumerates s ds -> represents cache m -> (length ds - i < fuel)%nat ->
  exists cache' names', list_devices behind fresh fuel s i cache names = Returns (cache', names')
    /\ represents cache' (fold_left map_device (drop i ds) m).
Proof.
  intros Hs. revert i cache m names. induction fuel as [|fuel IH]; intros i cache m names Hr Hf; [lia |]. cbn [list_devices].
  rewrite Hs. destruct (ds !! i) as [d|] eqn:E.
  - pose proof (lookup_lt_Some _ _ _ E). pose proof (list_device_represents d cache m names Hr) as Hd.
    destruct (list_device behind fresh d cache names) as [c n]. rewrite (drop_S _ _ _ E). cbn [fold_left]. apply IH; [done | lia].
  - rewrite drop_ge by (by apply lookup_ge_None). by eexists _, _.
Qed.

(** The adapters have distinct names, and an adapter with a name has an instance with an interface. *)
Record settled (s : system) ds : Prop := Settled {
  distinct_names : NoDup (omap (adapter_name behind) ds);
  instances : Forall (fun d => is_Some (adapter_name behind d) ->
                exists id, dev_instance d = Instance_ id /\ is_Some (interface_path s (Some id))) ds;
}.

Lemma map_device_other ds m n : n ∉ omap (adapter_name behind) ds -> fold_left map_device ds m !! n = m !! n.
Proof.
  revert m. induction ds as [|d ds IH]; intros m Hn; [done |]. cbn [fold_left]. cbn in Hn.
  destruct (adapter_name behind d) as [n'|] eqn:E.
  - apply not_elem_of_cons in Hn as [Hne Hn]. rewrite IH by done. unfold map_device. rewrite E.
    destruct (dev_instance d); [destruct (m !! n'); [done |] | |]; by rewrite lookup_insert_ne.
  - rewrite IH by done. unfold map_device. by rewrite E.
Qed.

(** The loop finds the path that the map has. *)
Lemma find_device_map s ds fuel i n m : enumerates s ds -> settled s (drop i ds) -> (length ds - i < fuel)%nat -> m !! n = None ->
  find_device behind fuel s i n
  = Returns (match fold_left map_device (drop i ds) m !! n with Some v => interface_path s v | None => None end).
Proof.
  intros Hs. revert i m. induction fuel as [|fuel IH]; intros i m Hset Hf Hm; [lia |]. cbn [find_device].
  rewrite Hs. destruct (ds !! i) as [d|] eqn:E.
  - pose proof (lookup_lt_Some _ _ _ E). rewrite (drop_S _ _ _ E) in Hset |- *. destruct Hset as [Hnd Hin]. cbn [fold_left].
    apply Forall_cons in Hin as [Hd Hin]. cbn in Hnd. unfold map_device at 2.
    destruct (adapter_name behind d) as [n'|] eqn:En.
    + apply NoDup_cons in Hnd as [Hnew Hnd]. destruct Hd as (id & Hid & path & Hpath); [done |]. rewrite Hid, Hpath.
      unfold strcmp_eq. destruct (decide (n' = n)) as [-> | Hne].
      * rewrite beq_refl, map_device_other, lookup_insert_eq, Hpath by done. done.
      * rewrite beq_neq by done. apply IH; [done | lia |]. by rewrite lookup_insert_ne.
    + apply IH; [done | lia | done].
  - rewrite drop_ge by (by apply lookup_ge_None). cbn. by rewrite Hm.
Qed.

Lemma map_device_paths s ds m n v : settled s ds -> m !! n = None -> fold_left map_device ds m !! n = Some v -> is_Some (interface_path s v).
Proof.
  revert m. induction ds as [|d ds IH]; intros m [Hnd Hin] Hm Hv; cbn [fold_left] in Hv; [by rewrite Hm in Hv |].
  apply Forall_cons in Hin as [Hd Hin]. cbn in Hnd. unfold map_device at 2 in Hv. destruct (adapter_name behind d) as [n'|] eqn:En.
  - apply NoDup_cons in Hnd as [Hnew Hnd]. destruct Hd as (id & Hid & Hpath); [done |]. rewrite Hid in Hv.
    destruct (decide (n' = n)) as [-> | Hne].
    + rewrite map_device_other, lookup_insert_eq in Hv by done. by injection Hv as <-.
    + apply (IH (<[n' := Some id]> m)); [done | by rewrite lookup_insert_ne | done].
  - by apply (IH m).
Qed.

(** C31: For settled adapters the cache is transparent: when the adapters have distinct names and
    each adapter with a name has an instance that has an interface ([settled]), then, once they
    have been listed, opening an adapter through the cache gives the handle, or the error, that
    enumerating the adapters again gives, for every name.  Without the premise the two differ:
    an adapter without an instance is opened through the cache as the first device of the
    system, and one without an interface gives EACCES through the cache and ENOENT without. *)
Theorem cached_handle_agrees (fuel : nat) (s : system) (ds : list devinfo) (g : globals) (names : string_list) (iface : list byte) :
  enumerates s ds -> settled s ds -> (length ds < fuel)%nat -> setup_devs s = true ->
  have_cached_kernel_interfaces g = false -> cached_kernel_interfaces g = empty_hashtable ->
  exists g' names',
    win_get_wireguard_interfaces behind fresh fuel s g names = Returns (g', 0, names')
    /\ have_cached_kernel_interfaces g' = true
    /\ exists e h, win_interface_handle behind fuel s g iface = Returns (g <| errno := e |>, h)
        /\ win_interface_handle behind fuel s g' iface = Returns (g' <| errno := e |>, h).
Proof.
  intros Hs Hset Hf Hdevs Hnot Hempty.
  destruct (list_devices_represents s ds fuel 0 (cached_kernel_interfaces g) ∅ names Hs) as (cache & names' & Hl & Hr);
    [rewrite Hempty; apply represents_empty | lia |].
  eexists _, names'. unfold win_get_wireguard_interfaces. rewrite Hdevs, Hl. cbn [negb obind]. split; [done |]. split; [done |].
  pose proof (find_device_map s ds fuel 0 iface ∅ Hs Hset ltac:(lia) (lookup_empty _)) as Hfind. cbn [drop] in *.
  unfold win_interface_handle. rewrite Hnot, Hdevs, Hfind. cbn.
  pose proof (rep_lookup _ _ Hr iface) as Hc. destruct (hashtable_find_entry cache iface) as [entry|]; cbn in Hc; rewrite <- Hc.
  - destruct (map_device_paths s ds ∅ iface (value entry) Hset (lookup_empty _) (eq_sym Hc)) as [path Hp]. rewrite Hp.
    destruct (create_file s path) as [h|]; [exists (errno g), (Some h) | by exists EACCES, None]. by destruct g.
  - by exists ENOENT, None.
Qed.

End Cache.

(** ** A driver that echoes *)

Definition wide (str : list byte) : list Z := map b2z str.
Definition narrow (str : list Z) : option (list byte) := mapM (fun c => if c <? 128 then Some (z2b c) else None) str.

(** Two adapters, the first without a name; the driver gives what was last set. *)
Definition demo_adapters : list devinfo :=
  [DevInfo None None InstanceNoSize; DevInfo (Some (wide (text "awg0") ++ [0])) (Some 10) (Instance_ [7])].

Definition echo_driver : Windows := {|
  system := option (Z * WG_IOCTL_INTERFACE);
  handle := list Z;
  utf8 := narrow;
  setup_devs _ := true;
  setup_enum _ i := match demo_adapters !! i with Some d => EnumDevice d | None => EnumNoMore end;
  cm_interfaces _ instance := match instance with Some [7] => Some [92; 7] | _ => None end;
  create_file _ path := Some path;
  io_get s _ len := match s with
                    | Some (size, wg) => (s, if len <? size then GetMoreData size else GetDone wg)
                    | None => (s, GetError)
                    end;
  io_set s _ len wg := (Some (len, wg), true);
|}.

Definition initial : globals := Globals false empty_hashtable 0.

Definition demo_win_peer : wgpeer :=
  zero_peer <| peer_flags := 28 |> <| peer_public_key := repeat "p"%byte 32 |> <| preshared_key := repeat "k"%byte 32 |>
    <| endpoint := x17 :: x00 :: repeat "7"%byte 26 |> <| persistent_keepalive_interval := 25 |>
    <| allowedips := [WgAllowedip AF_INET (repeat x0a 4 ++ repeat x00 12) 32; WgAllowedip AF_INET6_WINDOWS (repeat x0b 16) 128] |>.

Definition demo_win_device : wgdevice :=
  zero_device <| name := text "awg0" |>
    <| flags := Z.lor WGDEVICE_HAS_JC (Z.lor WGDEVICE_HAS_H1 (Z.lor WGDEVICE_HAS_PRIVATE_KEY WGDEVICE_HAS_LISTEN_PORT)) |>
    <| private_key := repeat "x"%byte 32 |> <| listen_port := 51820 |> <| junk_packet_count := 4 |>
    <| init_packet_magic_header := Some (text "100-200") |>
    <| peers := [demo_win_peer; zero_peer] |>.

Lemma demo_win_peers : Forall win_peer (peers demo_win_device).
Proof.
  apply Forall_cons_2; [| apply Forall_singleton]; (split; [done |]); [| by apply Forall_nil].
  apply Forall_cons_2; [| apply Forall_singleton]; split; try done; [by left | by right].
Qed.

Lemma win_device_roundtrip_witness :
  let wg := win_written demo_win_device (map win_write_peer (peers demo_win_device)) in
  let set : @system echo_driver := Some (488, wg) in
  @win_set_device lp64_x86 echo_driver [] 3 None initial demo_win_device = Returns (set, initial, 0)
  /\ @win_get_device lp64_x86 echo_driver [] 3 set initial (text "awg0")
     = Returns (set, initial, inr (io_image win_endpoint_image (text "awg0") (drop_flags WGDEVICE_HAS_FWMARK demo_win_device))).
Proof.
  intros wg set.
  apply (@win_device_roundtrip lp64_x86 echo_driver [] 1 None set set set initial [92; 7] [92; 7] demo_win_device 488 wg);
    [reflexivity | exact demo_win_peers | reflexivity ..].
Defined.

Lemma win_set_device_size_witness :
  @win_set_device lp64_x86 echo_driver [] 3 None initial demo_win_device
  = Returns (Some (488, win_written demo_win_device (map win_write_peer (peers demo_win_device))), initial, 0)
  /\ (win_write_device demo_win_device = None <-> strings_present demo_win_device = false)
  /\ (forall wg, win_write_device demo_win_device = Some wg -> ioctl_size wg <= 488).
Proof.
  apply (@win_set_device_size lp64_x86 echo_driver [] 3 None initial [92; 7] demo_win_device). reflexivity.
Defined.

Lemma demo_enumerates : @enumerates echo_driver None demo_adapters.
Proof. intros i. reflexivity. Qed.

Lemma demo_settled : @settled echo_driver [] None demo_adapters.
Proof.
  split.
  - apply NoDup_singleton.
  - apply Forall_cons_2; [| apply Forall_singleton].
    + intros [n Hn]. discriminate Hn.
    + intros _. exists [7]. split; [reflexivity |]. by exists [92; 7].
Qed.

Lemma cached_handle_agrees_witness :
  exists g' names',
    @win_get_wireguard_interfaces lp64_x86 echo_driver [] (fun _ => x00) 3 None initial empty_list = Returns (g', 0, names')
    /\ have_cached_kernel_interfaces g' = true
    /\ exists e h, @win_interface_handle lp64_x86 echo_driver [] 3 None initial (text "awg0") = Returns (initial <| errno := e |>, h)
        /\ @win_interface_handle lp64_x86 echo_driver [] 3 None g' (text "awg0") = Returns (g' <| errno := e |>, h).
Proof.
  apply (@cached_handle_agrees lp64_x86 echo_driver [] (fun _ => x00) 3 None demo_adapters initial empty_list (text "awg0"));
    [exact demo_enumerates | exact demo_settled | cbn; lia | reflexivity ..].
Defined.
