(* ===== verification/ElfCleaner.v ===== *)
(** * The ELF cleaner (elf-cleaner/elf-cleaner.cpp, elf.h, arghandling.c)

    The build runs it on the executables for Android: it maps a file, aligns the TLS segments,
    removes the entries of the dynamic sections that old linkers warn about, and forgets the
    version sections.  The file is a list of bytes that the program reads and writes through
    the structures of elf.h; pointers are offsets into the mapping, in 64-bit arithmetic, and an
    access outside the file ends the program.  The template [process_elf] takes its five types
    as a record. *)

From S2P Require Import Prelude CString AndroidShell.
#[local] Open Scope Z_scope.
#[local] Open Scope awg_scope.

(** ** elf.h *)

(** The fields of a structure with their sizes; no structure has padding. *)
Definition layout : Type := list (string * nat).

Definition Elf32_Ehdr : layout :=
  [("e_ident", 16); ("e_type", 2); ("e_machine", 2); ("e_version", 4); ("e_entry", 4); ("e_phoff", 4); ("e_shoff", 4);
   ("e_flags", 4); ("e_ehsize", 2); ("e_phentsize", 2); ("e_phnum", 2); ("e_shentsize", 2); ("e_shnum", 2);
   ("e_shstrndx", 2)]%string%nat.
Definition Elf64_Ehdr : layout :=
  [("e_ident", 16); ("e_type", 2); ("e_machine", 2); ("e_version", 4); ("e_entry", 8); ("e_phoff", 8); ("e_shoff", 8);
   ("e_flags", 4); ("e_ehsize", 2); ("e_phentsize", 2); ("e_phnum", 2); ("e_shentsize", 2); ("e_shnum", 2);
   ("e_shstrndx", 2)]%string%nat.
Definition Elf32_Phdr : layout :=
  [("p_type", 4); ("p_offset", 4); ("p_vaddr", 4); ("p_paddr", 4); ("p_filesz", 4); ("p_memsz", 4); ("p_flags", 4);
   ("p_align", 4)]%string%nat.
Definition Elf64_Phdr : layout :=
  [("p_type", 4); ("p_flags", 4); ("p_offset", 8); ("p_vaddr", 8); ("p_paddr", 8); ("p_filesz", 8); ("p_memsz", 8);
   ("p_align", 8)]%string%nat.
Definition Elf32_Shdr : layout :=
  [("sh_name", 4); ("sh_type", 4); ("sh_flags", 4); ("sh_addr", 4); ("sh_offset", 4); ("sh_size", 4); ("sh_link", 4);
   ("sh_info", 4); ("sh_addralign", 4); ("sh_entsize", 4)]%string%nat.
Definition Elf64_Shdr : layout :=
  [("sh_name", 4); ("sh_type", 4); ("sh_flags", 8); ("sh_addr", 8); ("sh_offset", 8); ("sh_size", 8); ("sh_link", 4);
   ("sh_info", 4); ("sh_addralign", 8); ("sh_entsize", 8)]%string%nat.
Definition Elf32_Dyn : layout := [("d_tag", 4); ("d_un", 4)]%string%nat.
Definition Elf64_Dyn : layout := [("d_tag", 8); ("d_un", 8)]%string%nat.

Definition PT_TLS : Z := 7.
Definition SHT_NULL : Z := 0.
Definition SHT_DYNAMIC : Z := 6.
Definition SHT_GNU_verdef : Z := 0x6ffffffd.
Definition SHT_GNU_verneed : Z := 0x6ffffffe.
Definition SHT_GNU_versym : Z := 0x6fffffff.
Definition DT_NULL : Z := 0.
Definition DT_RPATH : Z := 15.
Definition DT_RUNPATH : Z := 29.
Definition DT_VERDEF : Z := 0x6ffffffc.
Definition DT_VERDEFNUM : Z := 0x6ffffffd.

Definition DT_GNU_HASH : Z := 0x6ffffef5.
Definition DT_VERSYM : Z := 0x6ffffff0.
Definition DT_FLAGS_1 : Z := 0x6ffffffb.
Definition DT_VERNEEDED : Z := 0x6ffffffe.
Definition DT_VERNEEDNUM : Z := 0x6fffffff.
Definition DT_AARCH64_BTI_PLT : Z := 0x70000001.
Definition DT_AARCH64_PAC_PLT : Z := 0x70000003.
Definition DT_AARCH64_VARIANT_PCS : Z := 0x70000005.

Definition DF_1_NOW : Z := 1.
Definition DF_1_GLOBAL : Z := 2.
Definition DF_1_NODELETE : Z := 8.

Definition sizeof (l : layout) : nat := foldr (fun f n => (snd f + n)%nat) O l.

(** The offset and the size of a field. *)
Fixpoint field_of (l : layout) (f : string) : nat * nat :=
  match l with
  | [] => (O, O)
  | (g, n) :: l => if String.eqb f g then (O, n) else let '(off, w) := field_of l f in ((n + off)%nat, w)
  end.

(** The types that [process_elf] is instantiated with. *)
Record elf_types := ElfTypes {
  ElfWord : nat;
  ElfHeaderType : layout;
  ElfSectionHeaderType : layout;
  ElfProgramHeaderType : layout;
  ElfDynamicSectionEntryType : layout;
}.

Definition Elf32 : elf_types := ElfTypes 4 Elf32_Ehdr Elf32_Shdr Elf32_Phdr Elf32_Dyn.
Definition Elf64 : elf_types := ElfTypes 8 Elf64_Ehdr Elf64_Shdr Elf64_Phdr Elf64_Dyn.

(** ** The mapped file *)

(** The bytes of the file, and what was written to the two output streams. *)
Record mapping := Mapping {
  bytes : list byte;
  printed : list byte;
  warned : list byte;
}.

#[export] Instance eta_mapping : Eta mapping := fun r => Mapping (bytes r) (printed r) (warned r).

Definition elf (A : Type) : Type := mapping -> outcome (A * mapping).

#[export] Instance elf_ret : MRet elf := fun A a s => Returns (a, s).
#[export] Instance elf_bind : MBind elf := fun A B k m s => obind (m s) (fun '(a, s) => k a s).

Definition SIGBUS : Z := 7.

Definition inside (s : mapping) (off : Z) (n : nat) : bool :=
  (0 <=? off) && (off + Z.of_nat n <=? Z.of_nat (length (bytes s))).

Definition load (off : Z) (n : nat) : elf (list byte) := fun s =>
  if inside s off n then Returns (take n (drop (Z.to_nat off) (bytes s)), s) else Exits SIGBUS.

Definition store (off : Z) (v : list byte) : elf unit := fun s =>
  if inside s off (length v)
  then Returns (tt, s <| bytes := take (Z.to_nat off) (bytes s) ++ v ++ drop (Z.to_nat off + length v) (bytes s) |>)
  else Exits SIGBUS.

(** [p->f] and [p->f = v]. *)
Definition read_field (p : Z) (l : layout) (f : string) : elf Z :=
  v ← load (u64 (p + Z.of_nat (fst (field_of l f)))) (snd (field_of l f)); mret (le_bytes v).
Definition write_field (p : Z) (l : layout) (f : string) (v : Z) : elf unit :=
  store (u64 (p + Z.of_nat (fst (field_of l f)))) (bytes_le (snd (field_of l f)) v).

(** [table + i]. *)
Definition element (table : Z) (l : layout) (i : Z) : Z := u64 (table + Z.of_nat (sizeof l) * i).

Definition no_fuel {A} : elf A := fun _ => OutOfFuel.
Definition file_size : elf Z := fun s => Returns (Z.of_nat (length (bytes s)), s).
Definition print (l : list (list byte)) : elf unit := fun s => Returns (tt, s <| printed ::= fun out => out ++ concat l |>).
Definition warn (l : list (list byte)) : elf unit := fun s => Returns (tt, s <| warned ::= fun out => out ++ concat l |>).

Definition PACKAGE_NAME : list byte := text "elf-cleaner".
Definition nl : list byte := [x0a].

(** ** [process_elf] *)

(** The global variables. *)
Record cleaner_options := Options {
  supported_dt_flags_1 : Z;
  api_level : Z;
  dry_run : bool;
  quiet : bool;
}.

#[export] Instance eta_cleaner_options : Eta cleaner_options := fun r => Options (supported_dt_flags_1 r) (api_level r) (dry_run r) (quiet r).

Definition default_options : cleaner_options := Options (Z.lor DF_1_NOW DF_1_GLOBAL) 21 false false.

Definition when (c : bool) (m : elf unit) : elf unit := if c then m else mret tt.

(** The [switch] on the tag.  The tags are signed in elf.h, but the constants they are compared
    with are positive, so the unsigned value does as well. *)
Definition removed_name (o : cleaner_options) (is_aarch64 : bool) (d_tag : Z) : option (list byte) :=
  let below (n : Z) (c : bool) (name : list byte) := if c && (api_level o <? n) then Some name else None in
  if d_tag =? DT_GNU_HASH then below 23 true (text "DT_GNU_HASH")
  else if d_tag =? DT_VERSYM then below 23 true (text "DT_VERSYM")
  else if d_tag =? DT_VERNEEDED then below 23 true (text "DT_VERNEEDED")
  else if d_tag =? DT_VERNEEDNUM then below 23 true (text "DT_VERNEEDNUM")
  else if d_tag =? DT_VERDEF then below 23 true (text "DT_VERDEF")
  else if d_tag =? DT_VERDEFNUM then below 23 true (text "DT_VERDEFNUM")
  else if d_tag =? DT_RPATH then Some (text "DT_RPATH")
  else if d_tag =? DT_RUNPATH then below 24 true (text "DT_RUNPATH")
  else if d_tag =? DT_AARCH64_BTI_PLT then below 31 is_aarch64 (text "DT_AARCH64_BTI_PLT")
  else if d_tag =? DT_AARCH64_PAC_PLT then below 31 is_aarch64 (text "DT_AARCH64_PAC_PLT")
  else if d_tag =? DT_AARCH64_VARIANT_PCS then below 31 is_aarch64 (text "DT_AARCH64_VARIANT_PCS")
  else None.

Section Process.
Context (T : elf_types) (o : cleaner_options) (file_name : list byte).

(** The loop over the program headers from the second on, with the number of turns left. *)
Fixpoint program_headers (fuel : nat) (program_header_table i : Z) : elf unit :=
  match fuel with
  | O => no_fuel
  | S fuel =>
      e_phnum ← read_field 0 (ElfHeaderType T) "e_phnum";
      if i <? e_phnum then
        let program_header_entry := element program_header_table (ElfProgramHeaderType T) i in
        let tls_min_alignment := Z.of_nat (ElfWord T) * 8 in
        p_type ← read_field program_header_entry (ElfProgramHeaderType T) "p_type";
        _ ← when (p_type =? PT_TLS) (
              p_align ← read_field program_header_entry (ElfProgramHeaderType T) "p_align";
              when (p_align <? tls_min_alignment) (
                _ ← when (negb (quiet o)) (print [PACKAGE_NAME; text ": Changing TLS alignment for '"; file_name; text "' to ";
                       print_u (u32 tls_min_alignment); text ", instead of "; print_u (u32 p_align); nl]);
                when (negb (dry_run o)) (write_field program_header_entry (ElfProgramHeaderType T) "p_align" tls_min_alignment)));
        program_headers fuel program_header_table (u32 (i + 1))
      else mret tt
  end.

(** The index of the last entry that is not null, among those from [j] down to 1; 0 when there is none. *)
Fixpoint last_nonnull (fuel : nat) (dynamic_section j : Z) : elf Z :=
  match fuel with
  | O => no_fuel
  | S fuel =>
      if 0 <? j then
        d_tag ← read_field (element dynamic_section (ElfDynamicSectionEntryType T) j) (ElfDynamicSectionEntryType T) "d_tag";
        if negb (d_tag =? DT_NULL) then mret j else last_nonnull fuel dynamic_section (u32 (j - 1))
      else mret 0
  end.

(** [std::swap] of two entries. *)
Definition swap_entries (a b : Z) : elf unit :=
  let size := sizeof (ElfDynamicSectionEntryType T) in
  tmp ← load a size;
  x ← load b size;
  _ ← store a x;
  store b tmp.

(** The loop over the entries, with the number of turns left. *)
Fixpoint clean_entries (fuel : nat) (is_aarch64 : bool) (dynamic_section dynamic_section_entries j last_nonnull_entry_idx : Z) : elf unit :=
  match fuel with
  | O => no_fuel
  | S fuel =>
      if j <? dynamic_section_entries then
        let entry := ElfDynamicSectionEntryType T in
        let dynamic_section_entry := element dynamic_section entry j in
        d_tag ← read_field dynamic_section_entry entry "d_tag";
        match removed_name o is_aarch64 d_tag with
        | Some removed_name =>
            _ ← when (negb (quiet o)) (print [PACKAGE_NAME; text ": Removing the "; removed_name;
                   text " dynamic section entry from '"; file_name; text "'"; nl]);
            _ ← when (negb (dry_run o)) (write_field dynamic_section_entry entry "d_tag" DT_NULL);
            _ ← swap_entries (element dynamic_section entry j) (element dynamic_section entry last_nonnull_entry_idx);
            clean_entries fuel is_aarch64 dynamic_section dynamic_section_entries (u32 (u32 (j - 1) + 1)) (u32 (last_nonnull_entry_idx - 1))
        | None =>
            _ ← when (d_tag =? DT_FLAGS_1) (
                  orig_d_val ← read_field dynamic_section_entry entry "d_un";
                  let new_d_val := Z.land orig_d_val (supported_dt_flags_1 o) in
                  when (negb (new_d_val =? orig_d_val)) (
                    _ ← when (negb (quiet o)) (print [PACKAGE_NAME; text ": Replacing unsupported DF_1_* flags "; print_u orig_d_val;
                           text " with "; print_u new_d_val; text " in '"; file_name; text "'"; nl]);
                    when (negb (dry_run o)) (write_field dynamic_section_entry entry "d_un" new_d_val)));
            clean_entries fuel is_aarch64 dynamic_section dynamic_section_entries (u32 (j + 1)) last_nonnull_entry_idx
        end
      else mret tt
  end.

(** A dynamic section of [sh_size] bytes that lies in the file. *)
Definition clean_dynamic_section (fuel : nat) (is_aarch64 : bool) (sh_offset sh_size : Z) : elf unit :=
  let dynamic_section_entries := sh_size / Z.of_nat (sizeof (ElfDynamicSectionEntryType T)) in
  last_nonnull_entry_idx ← last_nonnull fuel sh_offset (u32 (dynamic_section_entries - 1));
  clean_entries fuel is_aarch64 sh_offset dynamic_section_entries 0 last_nonnull_entry_idx.

(** The loop over the section headers from the second on; [false] when a dynamic section ends
    after the file.  The end is computed in the type of the offsets. *)
Fixpoint section_headers (fuel : nat) (is_aarch64 : bool) (section_header_table i : Z) : elf bool :=
  match fuel with
  | O => no_fuel
  | S fuel' =>
      e_shnum ← read_field 0 (ElfHeaderType T) "e_shnum";
      if i <? e_shnum then
        let header := ElfSectionHeaderType T in
        let section_header_entry := element section_header_table header i in
        let next := section_headers fuel' is_aarch64 section_header_table (u32 (i + 1)) in
        sh_type ← read_field section_header_entry header "sh_type";
        if sh_type =? SHT_DYNAMIC then
          sh_offset ← read_field section_header_entry header "sh_offset";
          sh_size ← read_field section_header_entry header "sh_size";
          elf_file_size ← file_size;
          let last_dynamic_section_byte := uw (8 * Z.of_nat (snd (field_of header "sh_size"))) (sh_offset + sh_size) in
          if elf_file_size <? last_dynamic_section_byte then
            _ ← warn [PACKAGE_NAME; text ": Dynamic section for '"; file_name; text "' would end at ";
                 print_u last_dynamic_section_byte; text " but file size only "; print_u elf_file_size; nl];
            mret false
          else
            _ ← clean_dynamic_section fuel is_aarch64 sh_offset sh_size;
            next
        else if (api_level o <? 23)
                && ((sh_type =? SHT_GNU_verdef) || (sh_type =? SHT_GNU_verneed) || (sh_type =? SHT_GNU_versym)) then
          _ ← when (negb (quiet o)) (print [PACKAGE_NAME; text ": Removing version section from '"; file_name; text "'"; nl]);
          _ ← when (negb (dry_run o)) (write_field section_header_entry header "sh_type" SHT_NULL);
          next
        else next
      else mret true
  end.

Definition process_elf (fuel : nat) : elf bool :=
  elf_file_size ← file_size;
  let too_long (what : list byte) (last : Z) :=
    (_ ← warn [PACKAGE_NAME; text ": "; what; text " for '"; file_name; text "' would end at "; print_u last;
          text " but file size only "; print_u elf_file_size; nl];
     mret false) in
  if elf_file_size <? Z.of_nat (sizeof (ElfSectionHeaderType T)) then too_long (text "Elf header") (Z.of_nat (sizeof (ElfSectionHeaderType T)))
  else
    e_machine ← read_field 0 (ElfHeaderType T) "e_machine";
    let is_aarch64 := e_machine =? 183 in
    e_phoff ← read_field 0 (ElfHeaderType T) "e_phoff";
    e_phnum ← read_field 0 (ElfHeaderType T) "e_phnum";
    let last_program_header_byte := u64 (e_phoff + Z.of_nat (sizeof (ElfProgramHeaderType T)) * e_phnum) in
    if elf_file_size <? last_program_header_byte then too_long (text "Program header") last_program_header_byte
    else
      _ ← program_headers fuel e_phoff 1;
      e_shoff ← read_field 0 (ElfHeaderType T) "e_shoff";
      e_shnum ← read_field 0 (ElfHeaderType T) "e_shnum";
      let last_section_header_byte := u64 (e_shoff + Z.of_nat (sizeof (ElfSectionHeaderType T)) * e_shnum) in
      if elf_file_size <? last_section_header_byte then too_long (text "Section header") last_section_header_byte
      else section_headers fuel is_aarch64 e_shoff 1.

End Process.

(** ** [parse_file] *)

(** A file: what it holds, and which of the calls on it succeed. *)
Record elf_file := ElfFile {
  contents : list byte;
  fstat_ok : bool;
  mmap_ok : bool;
  msync_ok : bool;
  close_ok : bool;
}.

#[export] Instance eta_elf_file : Eta elf_file := fun r => ElfFile (contents r) (fstat_ok r) (mmap_ok r) (msync_ok r) (close_ok r).

(** The files that can be opened for reading and writing, and the output of the program. *)
Record disk := Disk {
  files : list byte -> option elf_file;
  stdout : list byte;
  stderr : list byte;
}.

#[export] Instance eta_disk : Eta disk := fun r => Disk (files r) (stdout r) (stderr r).

Definition replace_file (name : list byte) (f : elf_file) (fs : list byte -> option elf_file) : list byte -> option elf_file :=
  fun n => if beq n name then Some f else fs n.

Section Main.
Context `{Platform}.
(** What [perror] prints after the name of a call. *)
Context (reason : list byte -> list byte).

Definition perror (call : list byte) (d : disk) : disk := d <| stderr ::= fun e => e ++ call ++ text ": " ++ reason call ++ nl |>.

(** [if (close(fd) != 0) perror("close()")], when the result no longer matters. *)
Definition close_quietly (f : elf_file) (d : disk) : disk := if close_ok f then d else perror (text "close()") d.

(** The end of a run that changes nothing: 1 when the file cannot be closed. *)
Definition close_unchanged (f : elf_file) (d : disk) : Z * disk :=
  if close_ok f then (0, d) else (1, perror (text "close()") d).

Definition parse_file (fuel : nat) (o : cleaner_options) (file_name : list byte) (d : disk) : outcome (Z * disk) :=
  match files d file_name with
  | None => Returns (1, perror (text "open(" ++ [x22] ++ file_name ++ [x22] ++ text ")") d)
  | Some f =>
      if negb (fstat_ok f) then Returns (1, close_quietly f (perror (text "fstat()") d))
      else if Z.of_nat (length (contents f)) <? Z.of_nat (sizeof Elf32_Ehdr) then Returns (close_unchanged f d)
      else if negb (mmap_ok f) then Returns (1, close_quietly f (perror (text "mmap()") d))
      else
        let at_ i := b2z (byte_at (contents f) i) in
        if negb ((at_ 0%nat =? 0x7F) && (at_ 1%nat =? 69) && (at_ 2%nat =? 76) && (at_ 3%nat =? 70)) then Returns (close_unchanged f d)
        else if negb (at_ 5%nat =? 1) then
          Returns (close_unchanged f (d <| stderr ::= fun e => e ++ PACKAGE_NAME ++ text ": Not little endianness in '" ++ file_name ++ text "'" ++ nl |>))
        else
          let bit_value := at_ 4%nat in
          let types := if bit_value =? 1 then Some Elf32 else if bit_value =? 2 then Some Elf64 else None in
          match types with
          | None =>
              Returns (1, close_quietly f (d <| stderr ::= fun e => e ++ PACKAGE_NAME ++ text ": Incorrect bit value " ++ print_u bit_value
                                                     ++ text " in '" ++ file_name ++ text "'" ++ nl |>))
          | Some T =>
              match process_elf T o file_name fuel (Mapping (contents f) (stdout d) (stderr d)) with
              | Returns (ok, m) =>
                  let f := f <| contents := bytes m |> in
                  let d := Disk (replace_file file_name f (files d)) (printed m) (warned m) in
                  if negb ok then Returns (1, close_quietly f d)
                  else if negb (msync_ok f) then Returns (1, close_quietly f (perror (text "msync()") d))
                  else Returns (0, d)
              | Exits code => Exits code
              | OutOfFuel => OutOfFuel
              end
          end
  end.

(** ** [argmatch] and [main] *)

Definition SIGSEGV : Z := 11.

(** The result, what is stored at [valptr], and the new [*skipptr]; [valued] is whether there is
    a [valptr].  The element after the last argument is NULL. *)
Definition argmatch (argv : list (list byte)) (sstr lstr : list byte) (minlen : nat) (valued : bool) (skip : nat) :
    outcome (bool * option Z * nat) :=
  match argv !! (skip + 1)%nat with
  | None => Returns (false, None, skip)
  | Some arg =>
      if strcmp_eq arg sstr then
        if valued then
          match argv !! (skip + 2)%nat with
          | Some v => Returns (true, Some (atoi v), (skip + 2)%nat)
          | None => Exits SIGSEGV
          end
        else Returns (true, None, (skip + 1)%nat)
      else
        let '(name, value) := strsep "="%byte arg in
        let p := if valued then value else None in
        let arglen := match p with Some _ => length name | None => length arg end in
        if (arglen <? minlen)%nat || negb (beq (take arglen arg) (take arglen lstr)) then Returns (false, None, skip)
        else if negb valued then Returns (true, None, (skip + 1)%nat)
        else
          match p with
          | Some p => Returns (true, Some (atoi p), (skip + 1)%nat)
          | None =>
              match argv !! (skip + 2)%nat with
              | Some v => Returns (true, Some (atoi v), (skip + 2)%nat)
              | None => Returns (false, None, skip)
              end
          end
  end.

Definition usage_message : list byte :=
  nl ++ text "Processes ELF files to remove unsupported section types and" ++ nl
  ++ text "dynamic section entries which the Android linker warns about." ++ nl
  ++ nl
  ++ text "Options:" ++ nl
  ++ nl
  ++ text "--api-level NN        choose target api level, i.e. 21, 24, .." ++ nl
  ++ text "--dry-run             print info but but do not remove entries" ++ nl
  ++ text "--quiet               do not print info about removed entries" ++ nl
  ++ text "--help                display this help and exit" ++ nl
  ++ text "--version             output version information and exit" ++ nl.

(** The build defines the version and the copyright as empty strings. *)
Definition version_message : list byte :=
  PACKAGE_NAME ++ text " " ++ nl ++ nl
  ++ PACKAGE_NAME ++ text " comes with ABSOLUTELY NO WARRANTY." ++ nl
  ++ text "You may redistribute copies of " ++ PACKAGE_NAME ++ nl
  ++ text "under the terms of the GNU General Public License." ++ nl
  ++ text "For more information about these matters, see the file named COPYING." ++ nl.

(** The files until the first that fails. *)
Fixpoint parse_files (fuel : nat) (o : cleaner_options) (names : list (list byte)) (d : disk) : outcome (Z * disk) :=
  match names with
  | [] => Returns (0, d)
  | file_name :: names =>
      obind (parse_file fuel o file_name d) (fun '(ret, d) => if negb (ret =? 0) then Returns (1, d) else parse_files fuel o names d)
  end.

Definition elf_main (fuel : nat) (argv : list (list byte)) (d : disk) : outcome (Z * disk) :=
  let say text := d <| stdout ::= fun out => out ++ text |> in
  let usage := say (text "Usage: " ++ default [] (argv !! O) ++ text " [OPTION-OR-FILENAME]..." ++ nl ++ usage_message) in
  if (length argv =? 1)%nat then Returns (0, usage)
  else
    obind (argmatch argv (text "-help") (text "--help") 3 false 0) (fun '(help, _, skip_args) =>
    if (help : bool) then Returns (0, usage)
    else
      obind (argmatch argv (text "-version") (text "--version") 3 false skip_args) (fun '(version, _, skip_args) =>
      if (version : bool) then Returns (0, say version_message)
      else
        obind (argmatch argv (text "-api-level") (text "--api-level") 3 true skip_args) (fun '(_, level, skip_args) =>
        let o := match level with Some level => default_options <| api_level := level |> | None => default_options end in
        let o := if 23 <=? api_level o then o <| supported_dt_flags_1 := Z.lor (Z.lor DF_1_NOW DF_1_GLOBAL) DF_1_NODELETE |> else o in
        obind (argmatch argv (text "-dry-run") (text "--dry-run") 3 false skip_args) (fun '(dry, _, skip_args) =>
        let o := if (dry : bool) then o <| dry_run := true |> else o in
        obind (argmatch argv (text "-quiet") (text "--quiet") 3 false skip_args) (fun '(hush, _, skip_args) =>
        let o := if (hush : bool) then o <| quiet := true |> else o in
        parse_files fuel o (drop (skip_args + 1) argv) d))))).

End Main.
