(* ===== verification/ElfCleanerOk.v ===== *)
(** * What the ELF cleaner does to a file (elf-cleaner/elf-cleaner.cpp)

    A dynamic section is a list of entries that lie in the file.  Cleaning it leaves every entry
    that is not removed, with the flags it may have, and turns the removed entries into null
    entries, behind the others when the null entries were all behind the others before.  A dry run
    still exchanges entries, and can leave the file. *)

From S2P Require Import Prelude CString AndroidShell ElfCleaner.
#[local] Open Scope Z_scope.
#[local] Open Scope awg_scope.

(** ** Reading and writing a mapping *)

Lemma bind_returns {A B} (m : elf A) (k : A -> elf B) (s s' : mapping) (a : A) : m s = Returns (a, s') -> (m ≫= k) s = k a s'.
Proof. intros H. unfold mbind, elf_bind. by rewrite H. Qed.

Lemma bind_exits {A B} (m : elf A) (k : A -> elf B) (s : mapping) (code : Z) : m s = Exits code -> (m ≫= k) s = Exits code.
Proof. intros H. unfold mbind, elf_bind. by rewrite H. Qed.

Lemma inside_app (a m b p e : list byte) (n : nat) : n = length m -> inside (Mapping (a ++ m ++ b) p e) (Z.of_nat (length a)) n = true.
Proof.
  intros ->. unfold inside. cbn [bytes]. rewrite !length_app. apply andb_true_iff. rewrite !Z.leb_le. lia.
Qed.

Lemma load_at (a m b p e : list byte) (n : nat) : n = length m ->
  load (Z.of_nat (length a)) n (Mapping (a ++ m ++ b) p e) = Returns (m, Mapping (a ++ m ++ b) p e).
Proof.
  intros Hn. unfold load. rewrite inside_app by done. cbn [bytes]. subst n. by rewrite Nat2Z.id, drop_app_length, take_app_length.
Qed.

Lemma store_at (a m b v p e : list byte) : length v = length m ->
  store (Z.of_nat (length a)) v (Mapping (a ++ m ++ b) p e) = Returns (tt, Mapping (a ++ v ++ b) p e).
Proof.
  intros Hv. unfold store. rewrite inside_app by done. rewrite Nat2Z.id.
  change (_ <| bytes := ?l |>) with (Mapping l p e). cbn [bytes].
  rewrite take_app_length, drop_app_add', Hv, drop_app_length by done. done.
Qed.

(** A message changes the output alone. *)
Lemma when_print (c : bool) (l : list (list byte)) (b p w : list byte) :
  exists p', when c (print l) (Mapping b p w) = Returns (tt, Mapping b p' w).
Proof. by destruct c; eexists. Qed.

(** ** Dynamic sections *)

Record dyn := Dyn {
  d_tag : Z;
  d_un : Z;
}.

#[export] Instance eta_dyn : Eta dyn := fun r => Dyn (d_tag r) (d_un r).

(** What the proofs use of the types: the entries have two words of 64 bits at most, sizes have 32 bits at least, and
    a section header is not longer than the file header, in whose place its size is checked. *)
Class ElfTypesOk (T : elf_types) := {
  dyn_word : nat;
  dyn_word_pos : (0 < dyn_word)%nat;
  dyn_word_small : (dyn_word <= 8)%nat;
  dyn_entries : ElfDynamicSectionEntryType T = [("d_tag", dyn_word); ("d_un", dyn_word)]%string;
  size_word : (4 <= snd (field_of (ElfSectionHeaderType T) "sh_size"))%nat;
  program_size : (0 < sizeof (ElfProgramHeaderType T))%nat;
  header_room : (sizeof (ElfSectionHeaderType T) <= sizeof (ElfHeaderType T))%nat;
}.

#[export] Instance Elf32_ok : ElfTypesOk Elf32.
Proof. exists 4%nat; [lia | lia | done | cbn; lia ..]. Defined.
#[export] Instance Elf64_ok : ElfTypesOk Elf64.
Proof. exists 8%nat; [lia | lia | done | cbn; lia ..]. Defined.

(** A change that a dry run leaves out. *)
Definition written {A} (o : cleaner_options) (f : A -> A) (x : A) : A := if dry_run o then x else f x.

Section Dynamic.
Context (T : elf_types) `{ElfTypesOk T} (o : cleaner_options) (file_name : list byte) (is_aarch64 : bool).
Implicit Types (pre post p w : list byte) (es : list dyn) (e : dyn) (j : nat).

Definition fits e : Prop := 0 <= d_tag e < 256 ^ Z.of_nat dyn_word /\ 0 <= d_un e < 256 ^ Z.of_nat dyn_word.

Definition dyn_bytes e : list byte := bytes_le dyn_word (d_tag e) ++ bytes_le dyn_word (d_un e).

(** A file with the entries in it. *)
Definition section_image pre es post : list byte := pre ++ concat (map dyn_bytes es) ++ post.

Lemma sizeof_dyn : sizeof (ElfDynamicSectionEntryType T) = (2 * dyn_word)%nat.
Proof. rewrite dyn_entries. cbn. lia. Qed.

Lemma field_tag : field_of (ElfDynamicSectionEntryType T) "d_tag" = (0%nat, dyn_word).
Proof. by rewrite dyn_entries. Qed.

Lemma field_un : field_of (ElfDynamicSectionEntryType T) "d_un" = (dyn_word, dyn_word).
Proof. rewrite dyn_entries. cbn. f_equal. lia. Qed.

Lemma dyn_bytes_length e : length (dyn_bytes e) = (2 * dyn_word)%nat.
Proof. unfold dyn_bytes. rewrite length_app, !bytes_le_length. lia. Qed.

Lemma dyns_length es : length (concat (map dyn_bytes es)) = (2 * dyn_word * length es)%nat.
Proof. induction es as [|e es IH]; cbn [map concat length]; [lia |]. rewrite length_app, dyn_bytes_length, IH. lia. Qed.

(** The file around an entry. *)
Lemma section_image_split pre es post j e : es !! j = Some e ->
  exists a b, length a = (length pre + 2 * dyn_word * j)%nat /\ section_image pre es post = a ++ dyn_bytes e ++ b
    /\ forall e', section_image pre (<[j := e']> es) post = a ++ dyn_bytes e' ++ b.
Proof.
  intros He. pose proof (lookup_lt_Some _ _ _ He) as Hj.
  exists (pre ++ concat (map dyn_bytes (take j es))), (concat (map dyn_bytes (drop (S j) es)) ++ post). split; [| split].
  - rewrite length_app, dyns_length, length_take. f_equal. f_equal. lia.
  - unfold section_image. rewrite <- (take_drop_middle es j e He) at 1. rewrite map_app, concat_app. cbn [map concat].
    by rewrite <- !app_assoc.
  - intros e'. unfold section_image. rewrite insert_take_drop by done. rewrite map_app, concat_app. cbn [map concat].
    by rewrite <- !app_assoc.
Qed.

Lemma dyn_bytes_inj e e' : fits e -> fits e' -> dyn_bytes e = dyn_bytes e' -> e = e'.
Proof.
  destruct e as [t v], e' as [t' v']. intros [Ht Hv] [Ht' Hv']. cbn in *. unfold dyn_bytes. cbn [d_tag d_un].
  intros [Et Ev]%app_inj_1; [| by rewrite !bytes_le_length].
  apply (f_equal le_bytes) in Et, Ev. rewrite !le_bytes_bytes_le, !Z.mod_small in Et, Ev by done. by subst.
Qed.

Lemma section_image_inj pre es es' post : Forall fits es -> Forall fits es' ->
  length es = length es' -> section_image pre es post = section_image pre es' post -> es = es'.
Proof.
  intros Hf Hf' Hl E%app_inv_head%app_inv_tail. revert es' Hf' Hl E. induction Hf as [|e es He Hes IH]; intros [|e' es'] Hf' Hl E; try done.
  apply Forall_cons in Hf' as [He' Hes']. cbn [map concat] in E. apply app_inj_1 in E as [E1 E2]; [| by rewrite !dyn_bytes_length].
  f_equal; [by apply dyn_bytes_inj | by apply IH; [| injection Hl |]].
Qed.

(** *** Entries *)

(** What becomes of an entry. *)
Definition removable e : bool := match removed_name o is_aarch64 (d_tag e) with Some _ => true | None => false end.

Definition clean_entry e : dyn :=
  if removable e then e <| d_tag := DT_NULL |>
  else if d_tag e =? DT_FLAGS_1 then e <| d_un ::= fun v => Z.land v (supported_dt_flags_1 o) |>
  else e.

Lemma null_kept e : d_tag e = DT_NULL -> removable e = false.
Proof. unfold removable. by intros ->. Qed.

Lemma clean_entry_idemp e : clean_entry (clean_entry e) = clean_entry e.
Proof.
  unfold clean_entry at 2 3. destruct (removable e) eqn:Er.
  - unfold clean_entry. by rewrite null_kept.
  - destruct (d_tag e =? DT_FLAGS_1) eqn:Ef.
    + unfold clean_entry. assert (removable (e <| d_un ::= fun v => Z.land v (supported_dt_flags_1 o) |>) = false) as -> by done.
      destruct e as [t v]. cbn in *. rewrite Ef. by rewrite <- Z.land_assoc, Z.land_diag.
    + unfold clean_entry. by rewrite Er, Ef.
Qed.

Lemma clean_entry_fits e : fits e -> fits (clean_entry e).
Proof.
  intros [Ht Hv]. unfold clean_entry. destruct (removable e); [split; [| done]; cbn; unfold DT_NULL; lia |].
  destruct (d_tag e =? DT_FLAGS_1); [| done]. split; [done |]. cbn.
  assert (0 <= Z.land (d_un e) (supported_dt_flags_1 o)) by (apply Z.land_nonneg; lia).
  pose proof (Z.land_ldiff (d_un e) (supported_dt_flags_1 o)).
  assert (Z.land (d_un e) (supported_dt_flags_1 o) <= d_un e); [| lia].
  apply Z.ldiff_le; [lia |]. apply Z.bits_inj. intros n. rewrite Z.ldiff_spec, Z.land_spec, Z.bits_0. by destruct (Z.testbit (d_un e) n), (Z.testbit _ n).
Qed.

Definition removals es : nat := foldr (fun e n => ((if removable e then 1 else 0) + n)%nat) O es.

Lemma removals_perm es es' : es ≡ₚ es' -> removals es = removals es'.
Proof. unfold removals. induction 1; cbn [foldr]; lia. Qed.

Lemma removals_insert es j e e' : es !! j = Some e ->
  (removals (<[j := e']> es) + (if removable e then 1 else 0) = removals es + (if removable e' then 1 else 0))%nat.
Proof.
  unfold removals. revert j. induction es as [|x es IH]; intros [|j] He; try done; cbn [foldr insert list_insert lookup list_lookup] in *.
  - injection He as ->. destruct (removable e), (removable e'); lia.
  - rewrite <- !Nat.add_assoc. f_equal. exact (IH j He).
Qed.

Lemma removals_length es : (removals es <= length es)%nat.
Proof. unfold removals. induction es as [|e es IH]; cbn [foldr length]; [lia |]. destruct (removable e); lia. Qed.

Lemma swap_perm es i j (x y : dyn) : es !! i = Some x -> es !! j = Some y -> <[j := x]> (<[i := y]> es) ≡ₚ es.
Proof.
  intros Hi Hj. destruct (decide (i = j)) as [-> | Hne].
  - rewrite Hi in Hj. injection Hj as ->. rewrite list_insert_insert_eq. by rewrite list_insert_id.
  - symmetry. apply Permutation_inj. split; [by rewrite !length_insert |].
    exists (fun k => if decide (k = i) then j else if decide (k = j) then i else k). split.
    + intros a b. repeat destruct (decide _); intros; subst; congruence.
    + intros k. pose proof (lookup_lt_Some _ _ _ Hi). pose proof (lookup_lt_Some _ _ _ Hj). destruct (decide (k = i)) as [-> |].
      * rewrite list_lookup_insert_eq by (by rewrite length_insert). done.
      * destruct (decide (k = j)) as [-> |]; [by rewrite list_lookup_insert_ne, list_lookup_insert_eq by congruence |].
        by rewrite !list_lookup_insert_ne by congruence.
Qed.

(** The entries before [k] are not null, those from [k] on are. *)
Definition compact es (k : nat) : Prop :=
  (k <= length es)%nat /\ forall i e, es !! i = Some e -> (d_tag e <> DT_NULL <-> (i < k)%nat).

Lemma removable_nonnull e : removable e = true -> d_tag e <> DT_NULL.
Proof. intros Hr Hn. by rewrite (null_kept e Hn) in Hr. Qed.

Lemma cleaned_insert es j e : es !! j = Some e -> clean_entry <$> <[j := clean_entry e]> es = clean_entry <$> es.
Proof. intros He. rewrite list_fmap_insert, clean_entry_idemp. apply list_insert_id. by rewrite list_lookup_fmap, He. Qed.

Lemma u32_id (z : Z) : 0 <= z < 2 ^ 32 -> u32 z = z.
Proof. intros Hz. unfold u32. by apply uw_small. Qed.

Section File.
Context (pre post : list byte) (es0 : list dyn).
Context (Hsize : Z.of_nat (length (section_image pre es0 post)) < 2 ^ 64).

(** The address of an entry. *)
Lemma element_offset es j e : length es = length es0 -> es !! j = Some e ->
  element (Z.of_nat (length pre)) (ElfDynamicSectionEntryType T) (Z.of_nat j) = Z.of_nat (length pre + 2 * dyn_word * j)
  /\ forall k, (k <= dyn_word)%nat ->
     u64 (Z.of_nat (length pre + 2 * dyn_word * j) + Z.of_nat k) = Z.of_nat (length pre + 2 * dyn_word * j + k).
Proof.
  intros Hl Hj%lookup_lt_Some. unfold element. rewrite sizeof_dyn. unfold section_image in Hsize.
  rewrite !length_app, dyns_length, <- Hl in Hsize. pose proof dyn_word_pos.
  assert (length pre + 2 * dyn_word * j + dyn_word <= length pre + 2 * dyn_word * length es)%nat by nia.
  split; [| intros k Hk]; unfold u64; rewrite uw_small by nia; nia.
Qed.

Lemma get_tag es j e p w : length es = length es0 -> es !! j = Some e -> fits e ->
  read_field (element (Z.of_nat (length pre)) (ElfDynamicSectionEntryType T) (Z.of_nat j)) (ElfDynamicSectionEntryType T) "d_tag"
    (Mapping (section_image pre es post) p w) = Returns (d_tag e, Mapping (section_image pre es post) p w).
Proof.
  intros Hl Hj [Ht _]. destruct (element_offset es j e Hl Hj) as [-> Hu]. unfold read_field. rewrite field_tag. cbn [fst snd].
  rewrite Hu by lia. destruct (section_image_split pre es post j e Hj) as (a & b & Ha & -> & _). unfold dyn_bytes. rewrite <- app_assoc.
  rewrite Nat.add_0_r, <- Ha. erewrite bind_returns by (apply load_at; by rewrite bytes_le_length).
  by rewrite le_bytes_bytes_le, Z.mod_small.
Qed.

Lemma get_un es j e p w : length es = length es0 -> es !! j = Some e -> fits e ->
  read_field (element (Z.of_nat (length pre)) (ElfDynamicSectionEntryType T) (Z.of_nat j)) (ElfDynamicSectionEntryType T) "d_un"
    (Mapping (section_image pre es post) p w) = Returns (d_un e, Mapping (section_image pre es post) p w).
Proof.
  intros Hl Hj [_ Ht]. destruct (element_offset es j e Hl Hj) as [-> Hu]. unfold read_field. rewrite field_un. cbn [fst snd].
  rewrite Hu by lia. destruct (section_image_split pre es post j e Hj) as (a & b & Ha & -> & _). unfold dyn_bytes.
  rewrite <- app_assoc, (app_assoc a), <- Ha. 
  replace (length a + dyn_word)%nat with (length (a ++ bytes_le dyn_word (d_tag e))) by (rewrite length_app, bytes_le_length; done).
  erewrite bind_returns by (apply load_at; by rewrite bytes_le_length).
  by rewrite le_bytes_bytes_le, Z.mod_small.
Qed.

Lemma set_tag es j e v p w : length es = length es0 -> es !! j = Some e ->
  write_field (element (Z.of_nat (length pre)) (ElfDynamicSectionEntryType T) (Z.of_nat j)) (ElfDynamicSectionEntryType T) "d_tag" v
    (Mapping (section_image pre es post) p w) = Returns (tt, Mapping (section_image pre (<[j := e <| d_tag := v |>]> es) post) p w).
Proof.
  intros Hl Hj. destruct (element_offset es j e Hl Hj) as [-> Hu]. unfold write_field. rewrite field_tag. cbn [fst snd].
  rewrite Hu by lia. destruct (section_image_split pre es post j e Hj) as (a & b & Ha & -> & ->). unfold dyn_bytes. rewrite <- !app_assoc.
  rewrite Nat.add_0_r, <- Ha. rewrite store_at by (by rewrite !bytes_le_length). done.
Qed.

Lemma set_un es j e v p w : length es = length es0 -> es !! j = Some e ->
  write_field (element (Z.of_nat (length pre)) (ElfDynamicSectionEntryType T) (Z.of_nat j)) (ElfDynamicSectionEntryType T) "d_un" v
    (Mapping (section_image pre es post) p w) = Returns (tt, Mapping (section_image pre (<[j := e <| d_un := v |>]> es) post) p w).
Proof.
  intros Hl Hj. destruct (element_offset es j e Hl Hj) as [-> Hu]. unfold write_field. rewrite field_un. cbn [fst snd].
  rewrite Hu by lia. destruct (section_image_split pre es post j e Hj) as (a & b & Ha & -> & ->). unfold dyn_bytes.
  rewrite <- !app_assoc, (app_assoc a), <- Ha.
  replace (length a + dyn_word)%nat with (length (a ++ bytes_le dyn_word (d_tag e))) by (rewrite length_app, bytes_le_length; done).
  rewrite store_at by (by rewrite !bytes_le_length). by rewrite <- app_assoc.
Qed.

Lemma load_entry es j e p w : length es = length es0 -> es !! j = Some e ->
  load (element (Z.of_nat (length pre)) (ElfDynamicSectionEntryType T) (Z.of_nat j)) (2 * dyn_word) (Mapping (section_image pre es post) p w)
  = Returns (dyn_bytes e, Mapping (section_image pre es post) p w).
Proof.
  intros Hl Hj. destruct (element_offset es j e Hl Hj) as [-> _].
  destruct (section_image_split pre es post j e Hj) as (a & b & Ha & -> & _). rewrite <- Ha. apply load_at. by rewrite dyn_bytes_length.
Qed.

Lemma store_entry es j e e' p w : length es = length es0 -> es !! j = Some e ->
  store (element (Z.of_nat (length pre)) (ElfDynamicSectionEntryType T) (Z.of_nat j)) (dyn_bytes e') (Mapping (section_image pre es post) p w)
  = Returns (tt, Mapping (section_image pre (<[j := e']> es) post) p w).
Proof.
  intros Hl Hj. destruct (element_offset es j e Hl Hj) as [-> _].
  destruct (section_image_split pre es post j e Hj) as (a & b & Ha & -> & ->). rewrite <- Ha. apply store_at. by rewrite !dyn_bytes_length.
Qed.

Lemma swap_lists es i j x y p w : length es = length es0 -> es !! i = Some x -> es !! j = Some y ->
  swap_entries T (element (Z.of_nat (length pre)) (ElfDynamicSectionEntryType T) (Z.of_nat i))
    (element (Z.of_nat (length pre)) (ElfDynamicSectionEntryType T) (Z.of_nat j)) (Mapping (section_image pre es post) p w)
  = Returns (tt, Mapping (section_image pre (<[j := x]> (<[i := y]> es)) post) p w).
Proof.
  intros Hl Hi Hj. unfold swap_entries. rewrite sizeof_dyn.
  rewrite (bind_returns _ _ _ _ _ (load_entry es i x p w Hl Hi)). rewrite (bind_returns _ _ _ _ _ (load_entry es j y p w Hl Hj)).
  rewrite (bind_returns _ _ _ _ _ (store_entry es i x y p w Hl Hi)).
  destruct (decide (i = j)) as [<- | Hne].
  - apply (store_entry _ i y); [by rewrite length_insert | rewrite list_lookup_insert_eq; [done | by apply (lookup_lt_Some _ _ x)]].
  - apply (store_entry _ j y); [by rewrite length_insert | by rewrite list_lookup_insert_ne].
Qed.

(** *** The loop *)

(** What holds at each turn: the entries before [j] are clean, those after [last] are null. *)
Record progress es (j : nat) (last : Z) : Prop := Progress {
  pr_length : length es = length es0;
  pr_fits : Forall fits es;
  pr_perm : clean_entry <$> es ≡ₚ clean_entry <$> es0;
  pr_last : -1 <= last < Z.of_nat (length es0);
  pr_tail : forall k e, es !! k = Some e -> last < Z.of_nat k -> d_tag e = DT_NULL;
  pr_clean : forall k e, (k < j)%nat -> es !! k = Some e -> clean_entry e = e;
  pr_front : (exists k, compact es0 k) -> exists k, compact es k /\ (last = Z.of_nat k - 1 \/ k = 0%nat);
}.

(** An entry that is kept. *)
Lemma keep_step es j last e : progress es j last -> es !! j = Some e -> removable e = false ->
  progress (<[j := clean_entry e]> es) (S j) last.
Proof.
  intros [Hl Hf Hp Hr Ht Hc Hk] He Hn. pose proof (lookup_lt_Some _ _ _ He) as Hj.
  assert (d_tag (clean_entry e) = d_tag e) as Htag by (unfold clean_entry; rewrite Hn; by destruct (d_tag e =? DT_FLAGS_1)).
  assert (forall k x, <[j := clean_entry e]> es !! k = Some x -> exists y, es !! k = Some y /\ d_tag x = d_tag y) as Hsame.
  { intros k x. destruct (decide (k = j)) as [-> | Hne].
    - rewrite list_lookup_insert_eq by done. intros [= <-]. by exists e.
    - rewrite list_lookup_insert_ne by done. by exists x. }
  split; [by rewrite length_insert | | by rewrite cleaned_insert | done | | |].
  - apply Forall_insert; [done |]. apply clean_entry_fits. by apply (Forall_lookup_1 _ _ _ _ Hf He).
  - intros k x Hx Hlt. destruct (Hsame k x Hx) as (y & Hy & ->). by apply (Ht k).
  - intros k x Hk' Hx. destruct (decide (k = j)) as [-> | Hne].
    + rewrite list_lookup_insert_eq in Hx by done. injection Hx as <-. apply clean_entry_idemp.
    + rewrite list_lookup_insert_ne in Hx by done. apply (Hc k); [lia | done].
  - intros H0. destruct (Hk H0) as (k & [Hkl Hcomp] & Hlast). exists k. split; [| done]. split; [by rewrite length_insert |].
    intros i x Hx. destruct (Hsame i x Hx) as (y & Hy & ->). by apply Hcomp.
Qed.

(** An entry that is removed: it becomes null and changes places with the last one. *)
Lemma remove_step es j last e : progress es j last -> es !! j = Some e -> removable e = true ->
  Z.of_nat j <= last /\ exists y, <[j := clean_entry e]> es !! Z.to_nat last = Some y
    /\ let es' := <[Z.to_nat last := clean_entry e]> (<[j := y]> (<[j := clean_entry e]> es)) in
       progress es' j (last - 1) /\ S (removals es') = removals es.
Proof.
  intros [Hl Hf Hp Hr Ht Hc Hk] He Hn. pose proof (lookup_lt_Some _ _ _ He) as Hj.
  assert (Z.of_nat j <= last) as Hjl.
  { destruct (Z.le_gt_cases (Z.of_nat j) last); [done |]. by destruct (removable_nonnull e Hn (Ht j e He ltac:(lia))). }
  split; [done |]. assert (d_tag (clean_entry e) = DT_NULL) as Hnull by (unfold clean_entry; by rewrite Hn).
  set (es1 := <[j := clean_entry e]> es). set (l := Z.to_nat last).
  assert (l < length es)%nat as Hll by lia.
  destruct (lookup_lt_is_Some_2 es1 l) as [y Hy]; [by unfold es1; rewrite length_insert |]. exists y. split; [done |]. cbv zeta.
  assert (es1 !! j = Some (clean_entry e)) as He1 by (unfold es1; by rewrite list_lookup_insert_eq).
  pose proof (swap_perm es1 j l _ _ He1 Hy) as Hsw.
  set (es' := <[l := clean_entry e]> (<[j := y]> es1)) in *.
  assert (forall k x, es' !! k = Some x -> k = l /\ x = clean_entry e \/ k = j /\ k <> l /\ es !! l = Some x \/ k <> j /\ k <> l /\ es !! k = Some x) as Hat.
  { intros k x. unfold es', es1 in *. destruct (decide (k = l)) as [-> | Hkl].
    - rewrite list_lookup_insert_eq by (by rewrite !length_insert). intros [= <-]. by left.
    - rewrite list_lookup_insert_ne by congruence. destruct (decide (k = j)) as [-> | Hkj].
      + rewrite list_lookup_insert_eq by (by rewrite !length_insert). intros [= <-]. right. left. split; [done |]. split; [done |].
        by rewrite list_lookup_insert_ne in Hy by congruence.
      + rewrite !list_lookup_insert_ne by congruence. intros Hx. right. right. done. }
  split.
  - split; [by unfold es', es1; rewrite !length_insert | | | lia | | |].
    + rewrite Hsw. unfold es1. apply Forall_insert; [done |]. apply clean_entry_fits. by apply (Forall_lookup_1 _ _ _ _ Hf He).
    + rewrite Hsw. unfold es1. by rewrite cleaned_insert.
    + intros k x Hx Hlt. destruct (Hat k x Hx) as [(-> & ->) | [(-> & Hne & Hx') | (Hkj & Hkl & Hx')]]; [done | lia |]. apply (Ht k); [done | lia].
    + intros k x Hkj Hx. destruct (Hat k x Hx) as [(-> & ->) | [(-> & Hne & Hx') | (_ & Hkl & Hx')]]; [apply clean_entry_idemp | lia | by apply (Hc k)].
    + intros H0. destruct (Hk H0) as (k & [Hkl Hcomp] & Hlast). pose proof (proj1 (Hcomp j e He) (removable_nonnull e Hn)) as Hjk.
      destruct Hlast as [Hlast | ->]; [| lia]. exists (k - 1)%nat. split; [| left; lia].
      split; [unfold es', es1; rewrite !length_insert; lia |].
      intros i x Hx. destruct (Hat i x Hx) as [(-> & ->) | [(-> & Hne & Hx') | (Hij & Hil & Hx')]].
      * rewrite Hnull. split; [done | lia].
      * split; [lia | intros _]. apply (Hcomp l); [done | lia].
      * rewrite (Hcomp i x Hx'). lia.
  - rewrite (removals_perm es' es1 Hsw). unfold es1. pose proof (removals_insert es j e (clean_entry e) He) as Hrem.
    rewrite Hn, null_kept in Hrem by done. lia.
Qed.

Context (Hmany : Z.of_nat (length es0) < 2 ^ 32) (Hfits : Forall fits es0).
Let base : Z := Z.of_nat (length pre).

Lemma last_nonnull_ok (fuel j : nat) p w : (j < length es0)%nat -> (j < fuel)%nat ->
  exists l, last_nonnull T fuel base (Z.of_nat j) (Mapping (section_image pre es0 post) p w)
            = Returns (Z.of_nat l, Mapping (section_image pre es0 post) p w)
    /\ (l <= j)%nat /\ (forall k e, (l < k <= j)%nat -> es0 !! k = Some e -> d_tag e = DT_NULL)
    /\ (l <> 0%nat -> exists e, es0 !! l = Some e /\ d_tag e <> DT_NULL).
Proof.
  revert j. induction fuel as [|fuel IH]; intros j Hj Hfuel; [lia |]. cbn [last_nonnull].
  destruct (Z.ltb_spec 0 (Z.of_nat j)) as [H0 | H0].
  - destruct (lookup_lt_is_Some_2 es0 j Hj) as [e He]. pose proof (Forall_lookup_1 _ _ _ _ Hfits He) as Hfit.
    rewrite (bind_returns _ _ _ _ _ (get_tag es0 j e p w eq_refl He Hfit)).
    destruct (Z.eqb_spec (d_tag e) DT_NULL) as [Hnull | Hnn]; cbn [negb].
    + rewrite u32_id by lia. replace (Z.of_nat j - 1) with (Z.of_nat (j - 1)) by lia.
      destruct (IH (j - 1)%nat) as (l & -> & Hl & Hz & Hn); [lia | lia |]. exists l. split; [done |]. split; [lia |]. split; [| done].
      intros k x Hk Hx. destruct (decide (k = j)) as [-> | Hne]; [congruence | apply (Hz k); [lia | done]].
    + exists j. split; [done |]. split; [lia |]. split; [intros; lia | intros _; by exists e].
  - exists 0%nat. replace j with 0%nat by lia. split; [done |]. split; [lia |]. split; [intros; lia | done].
Qed.

Lemma initial_progress (l : nat) : (l < length es0)%nat ->
  (forall k e, (l < k <= length es0 - 1)%nat -> es0 !! k = Some e -> d_tag e = DT_NULL) ->
  (l <> 0%nat -> exists e, es0 !! l = Some e /\ d_tag e <> DT_NULL) -> progress es0 0 (Z.of_nat l).
Proof.
  intros Hl Hz Hn. split; [done | done | done | lia | | intros; lia |].
  - intros k e He Hlt. pose proof (lookup_lt_Some _ _ _ He). apply (Hz k); [lia | done].
  - intros (k & Hle & Hk). exists k. split; [done |]. destruct (decide (k = 0%nat)) as [-> | H0]; [by right | left].
    assert (l < k)%nat as Hlk.
    { destruct (decide (l = 0%nat)) as [-> | Hl0]; [lia |]. destruct (Hn Hl0) as (e & He & Hne). by apply (Hk l e He). }
    assert (~ (l + 1 < k)%nat); [| lia]. intros Hlt.
    destruct (lookup_lt_is_Some_2 es0 (l + 1)) as [e He]; [lia |].
    apply (proj2 (Hk _ e He) Hlt). apply (Hz (l + 1)%nat); [lia | done].
Qed.

(** The word of the flags, in the entry that has it. *)
Lemma mask_flags es j e p w : length es = length es0 -> es !! j = Some e -> fits e -> removable e = false ->
  exists p', when (d_tag e =? DT_FLAGS_1) (
      orig_d_val ← read_field (element base (ElfDynamicSectionEntryType T) (Z.of_nat j)) (ElfDynamicSectionEntryType T) "d_un";
      let new_d_val := Z.land orig_d_val (supported_dt_flags_1 o) in
      when (negb (new_d_val =? orig_d_val)) (
        _ ← when (negb (quiet o)) (print [PACKAGE_NAME; text ": Replacing unsupported DF_1_* flags "; print_u orig_d_val;
               text " with "; print_u new_d_val; text " in '"; file_name; text "'"; nl]);
        when (negb (dry_run o)) (write_field (element base (ElfDynamicSectionEntryType T) (Z.of_nat j)) (ElfDynamicSectionEntryType T) "d_un" new_d_val)))
    (Mapping (section_image pre es post) p w)
  = Returns (tt, Mapping (section_image pre (<[j := written o clean_entry e]> es) post) p' w).
Proof.
  intros Hl Hj Hfit Hr. unfold written, clean_entry. rewrite Hr. destruct (d_tag e =? DT_FLAGS_1) eqn:Ef; cbn [when].
  - rewrite (bind_returns _ _ _ _ _ (get_un es j e p w Hl Hj Hfit)). cbv zeta.
    destruct (Z.eqb_spec (Z.land (d_un e) (supported_dt_flags_1 o)) (d_un e)) as [Heq | Hne]; cbn [negb when].
    + exists p. assert (e <| d_un ::= fun v => Z.land v (supported_dt_flags_1 o) |> = e) as ->; [destruct e; cbn in *; by f_equal |].
      destruct (dry_run o); by rewrite list_insert_id.
    + edestruct when_print as [p' Hp]. rewrite (bind_returns _ _ _ _ _ Hp). exists p'.
      destruct (dry_run o); cbn [negb when]; [by rewrite list_insert_id | by rewrite (set_un es j e)].
  - exists p. destruct (dry_run o); by rewrite list_insert_id.
Qed.

Lemma clean_entries_ok (fuel : nat) es j last p w : dry_run o = false -> progress es j last -> (j <= length es0)%nat ->
  (length es0 - j + removals es < fuel)%nat ->
  exists es' p' last', clean_entries T o file_name fuel is_aarch64 base (Z.of_nat (length es0)) (Z.of_nat j) (u32 last)
      (Mapping (section_image pre es post) p w) = Returns (tt, Mapping (section_image pre es' post) p' w)
    /\ progress es' (length es0) last'.
Proof.
  intros Hdry. revert es j last p. induction fuel as [|fuel IH]; intros es j last p Hpr Hj Hfuel; [lia |]. cbn [clean_entries].
  pose proof (pr_length _ _ _ Hpr) as Hl.
  destruct (Z.ltb_spec (Z.of_nat j) (Z.of_nat (length es0))) as [Hlt | Hge].
  - destruct (lookup_lt_is_Some_2 es j) as [e He]; [lia |]. pose proof (Forall_lookup_1 _ _ _ _ (pr_fits _ _ _ Hpr) He) as Hfit.
    rewrite (bind_returns _ _ _ _ _ (get_tag es j e p w Hl He Hfit)).
    assert (removable e = match removed_name o is_aarch64 (d_tag e) with Some _ => true | None => false end) as Hr by done.
    destruct (removed_name o is_aarch64 (d_tag e)) as [nm|].
    + destruct (remove_step es j last e Hpr He Hr) as (Hle & y & Hy & Hpr' & Hrem). set (l := Z.to_nat last) in *.
      pose proof (pr_last _ _ _ Hpr). assert (last = Z.of_nat l) as El by lia.
      assert (e <| d_tag := DT_NULL |> = clean_entry e) as Ec by (unfold clean_entry; by rewrite Hr).
      edestruct when_print as [p' Hp]. rewrite (bind_returns _ _ _ _ _ Hp). rewrite Hdry. cbn [negb when].
      rewrite (bind_returns _ _ _ _ _ (set_tag es j e DT_NULL p' w Hl He)), Ec. rewrite (u32_id last), El by lia.
      erewrite bind_returns by (apply (swap_lists _ j l (clean_entry e) y); [by rewrite length_insert | rewrite list_lookup_insert_eq; [done | lia] | done]).
      assert (u32 (u32 (Z.of_nat j - 1) + 1) = Z.of_nat j) as ->.
      { unfold u32, uw. rewrite Zplus_mod_idemp_l, Z.sub_add. apply Z.mod_small. lia. }
      rewrite <- El. apply (IH _ j (last - 1) p' Hpr' Hj). lia.
    + edestruct (mask_flags es j e p w Hl He Hfit Hr) as [p' Hp]. rewrite (bind_returns _ _ _ _ _ Hp). unfold written. rewrite Hdry.
      rewrite (u32_id (Z.of_nat j + 1)) by lia. replace (Z.of_nat j + 1) with (Z.of_nat (S j)) by lia.
      apply IH; [by apply keep_step | lia |]. pose proof (removals_insert es j e (clean_entry e) He) as Hrem. rewrite Hr in Hrem.
      assert (removable (clean_entry e) = false) as Hrc by (unfold clean_entry; rewrite Hr; by destruct (d_tag e =? DT_FLAGS_1)).
      rewrite Hrc in Hrem. lia.
  - exists es, p, last. split; [done |]. by replace (length es0) with j by lia.
Qed.

Lemma progress_done es last : progress es (length es0) last ->
  es ≡ₚ clean_entry <$> es0 /\ ((exists k, compact es0 k) -> exists k, compact es k).
Proof.
  intros Hpr. pose proof (pr_length _ _ _ Hpr). split.
  - rewrite <- (pr_perm _ _ _ Hpr). assert (clean_entry <$> es = es) as ->; [| done].
    apply list_eq. intros i. rewrite list_lookup_fmap. destruct (es !! i) as [e|] eqn:E; [| done]. cbn. f_equal.
    apply (pr_clean _ _ _ Hpr i); [apply lookup_lt_Some in E; lia | done].
  - intros Hc. destruct (pr_front _ _ _ Hpr Hc) as (k & Hk & _). by exists k.
Qed.

(** *** A dry run *)

Lemma list_insert_middle {A} (a b : list A) (x y : A) : <[length a := y]> (a ++ x :: b) = a ++ y :: b.
Proof. rewrite <- (Nat.add_0_r (length a)), insert_app_r. done. Qed.

Lemma app_before {A} (a b c : list A) (x y z : A) : a ++ x :: b ++ y :: z :: c = (a ++ x :: b ++ [y]) ++ z :: c.
Proof. rewrite <- app_assoc. cbn. by rewrite <- app_assoc. Qed.

(** The loop at a turn of a dry run. *)
Let dry_turn (fuel : nat) es j (last : Z) p w : outcome (unit * mapping) :=
  clean_entries T o file_name fuel is_aarch64 base (Z.of_nat (length es0)) (Z.of_nat j) (u32 last) (Mapping (section_image pre es post) p w).

(** An entry that would stay is passed over. *)
Lemma dry_keep (fuel : nat) es j last e p w : dry_run o = true -> es ≡ₚ es0 -> Forall fits es -> es !! j = Some e -> removable e = false ->
  exists p', dry_turn (S fuel) es j last p w = dry_turn fuel es (S j) last p' w.
Proof.
  intros Hdry Hl%Permutation_length Hfit He Hr. pose proof (lookup_lt_Some _ _ _ He) as Hj. unfold dry_turn. cbn [clean_entries].
  rewrite (proj2 (Z.ltb_lt _ _)) by lia. pose proof (Forall_lookup_1 _ _ _ _ Hfit He) as Hfe.
  rewrite (bind_returns _ _ _ _ _ (get_tag es j e p w Hl He Hfe)). unfold removable in Hr.
  edestruct (mask_flags es j e p w Hl He Hfe Hr) as [p' Hp]. destruct (removed_name o is_aarch64 (d_tag e)); [done |].
  rewrite (bind_returns _ _ _ _ _ Hp). unfold written. rewrite Hdry, list_insert_id by done.
  rewrite (u32_id (Z.of_nat j + 1)) by lia. exists p'. do 2 f_equal. lia.
Qed.

(** An entry that would be removed changes places with the one at the index of the last. *)
Lemma dry_swap (fuel : nat) es j l e y p w : dry_run o = true -> es ≡ₚ es0 -> Forall fits es -> es !! j = Some e -> removable e = true ->
  es !! l = Some y ->
  exists p', dry_turn (S fuel) es j (Z.of_nat l) p w = dry_turn fuel (<[l := e]> (<[j := y]> es)) j (Z.of_nat l - 1) p' w.
Proof.
  intros Hdry Hl%Permutation_length Hfit He Hr Hy. pose proof (lookup_lt_Some _ _ _ He) as Hj. pose proof (lookup_lt_Some _ _ _ Hy) as Hjl.
  unfold dry_turn. cbn [clean_entries].
  rewrite (proj2 (Z.ltb_lt _ _)) by lia. pose proof (Forall_lookup_1 _ _ _ _ Hfit He) as Hfe.
  rewrite (bind_returns _ _ _ _ _ (get_tag es j e p w Hl He Hfe)). unfold removable in Hr.
  destruct (removed_name o is_aarch64 (d_tag e)); [| done].
  edestruct when_print as [p' Hp]. rewrite (bind_returns _ _ _ _ _ Hp), Hdry. cbn [negb when].
  rewrite (bind_returns _ _ _ _ tt) by reflexivity. rewrite (u32_id (Z.of_nat l)) by lia.
  rewrite (bind_returns _ _ _ _ _ (swap_lists es j l e y p' w Hl He Hy)).
  exists p'. f_equal. unfold u32, uw. rewrite Zplus_mod_idemp_l, Z.sub_add. apply Z.mod_small. lia.
Qed.

(** Once the index of the last has wrapped around, it is far outside the file. *)
Lemma dry_crash (fuel : nat) es j e p w : dry_run o = true -> Z.of_nat (length (section_image pre es0 post)) < 2 ^ 31 ->
  es ≡ₚ es0 -> Forall fits es -> es !! j = Some e -> removable e = true -> dry_turn (S fuel) es j (-1) p w = Exits SIGBUS.
Proof.
  intros Hdry Hsmall Hl%Permutation_length Hfit He Hr. pose proof (lookup_lt_Some _ _ _ He) as Hj. unfold dry_turn. cbn [clean_entries].
  rewrite (proj2 (Z.ltb_lt _ _)) by lia. pose proof (Forall_lookup_1 _ _ _ _ Hfit He) as Hfe.
  rewrite (bind_returns _ _ _ _ _ (get_tag es j e p w Hl He Hfe)). unfold removable in Hr.
  destruct (removed_name o is_aarch64 (d_tag e)); [| done].
  edestruct when_print as [p' Hp]. rewrite (bind_returns _ _ _ _ _ Hp), Hdry. cbn [negb when].
  rewrite (bind_returns _ _ _ _ tt) by reflexivity. apply bind_exits. unfold swap_entries. rewrite sizeof_dyn.
  change (u32 (-1)) with (2 ^ 32 - 1). rewrite (bind_returns _ _ _ _ _ (load_entry es j e p' w Hl He)). apply bind_exits.
  assert (length (section_image pre es post) = length (section_image pre es0 post)) as Hli
    by (unfold section_image; rewrite !length_app, !dyns_length by done; by rewrite Hl).
  unfold load, inside, element. rewrite sizeof_dyn. cbn [bytes]. rewrite Hli.
  pose proof dyn_word_pos. pose proof dyn_word_small. unfold section_image in Hsmall |- *. rewrite !length_app, dyns_length in *.
  unfold u64. rewrite uw_small by lia. rewrite (proj2 (Z.leb_gt (_ + _) _)) by lia. by rewrite andb_false_r.
Qed.

Lemma dry_end (fuel : nat) es last p w : dry_turn (S fuel) es (length es0) last p w = Returns (tt, Mapping (section_image pre es post) p w).
Proof. unfold dry_turn. cbn [clean_entries]. by rewrite Z.ltb_irrefl. Qed.

Lemma dry_skip (fuel n : nat) es j last p w : dry_run o = true -> es ≡ₚ es0 -> Forall fits es -> (j + n <= length es0)%nat ->
  (forall k e, (j <= k < j + n)%nat -> es !! k = Some e -> removable e = false) ->
  exists p', dry_turn (n + fuel) es j last p w = dry_turn fuel es (j + n) last p' w.
Proof.
  intros Hdry Hp Hfit. revert j p. induction n as [|n IH]; intros j p Hj Hkeep; [exists p; by rewrite Nat.add_0_r |].
  pose proof (Permutation_length Hp) as Hl. destruct (lookup_lt_is_Some_2 es j) as [e He]; [lia |].
  change (S n + fuel)%nat with (S (n + fuel)). destruct (dry_keep (n + fuel) es j last e p w) as [p1 ->]; try done; [apply (Hkeep j); [lia | done] |].
  destruct (IH (S j) p1) as [p2 ->]; [lia | intros k x Hk; apply Hkeep; lia |]. exists p2. f_equal. lia.
Qed.

(** The loop ends, with the entries in some order or outside the file. *)
Lemma dry_loop (fuel : nat) es j last p w : dry_run o = true -> Z.of_nat (length (section_image pre es0 post)) < 2 ^ 31 ->
  es ≡ₚ es0 -> (j <= length es0)%nat -> -1 <= last < Z.of_nat (length es0) -> (length es0 - j + Z.to_nat (last + 1) < fuel)%nat ->
  dry_turn fuel es j last p w = Exits SIGBUS
  \/ exists es' p', dry_turn fuel es j last p w = Returns (tt, Mapping (section_image pre es' post) p' w) /\ es' ≡ₚ es0.
Proof.
  intros Hdry Hsmall. revert es j last p. induction fuel as [|fuel IH]; intros es j last p Hp Hj Hlast Hfuel; [lia |].
  assert (Forall fits es) as Hfit by (by rewrite Hp). pose proof (Permutation_length Hp) as Hl.
  destruct (decide (j = length es0)) as [-> | Hne]; [right; exists es, p; by rewrite dry_end |].
  destruct (lookup_lt_is_Some_2 es j) as [e He]; [lia |]. destruct (removable e) eqn:Hr.
  - destruct (decide (last = -1)) as [-> | Hn1]; [left; by apply (dry_crash fuel es j e) |].
    destruct (lookup_lt_is_Some_2 es (Z.to_nat last)) as [y Hy]; [lia |]. replace last with (Z.of_nat (Z.to_nat last)) by lia.
    destruct (dry_swap fuel es j (Z.to_nat last) e y p w) as [p' ->]; try done. apply IH; [| lia ..].
    etrans; [| exact Hp]. by apply swap_perm.
  - destruct (dry_keep fuel es j last e p w) as [p' ->]; try done. by apply IH; [| lia ..].
Qed.

Lemma dry_unchanged (fuel : nat) last p w : dry_run o = true -> Forall (fun e => removable e = false) es0 -> (length es0 < fuel)%nat ->
  exists p', dry_turn fuel es0 0 last p w = Returns (tt, Mapping (section_image pre es0 post) p' w).
Proof.
  intros Hdry Hkeep Hf. replace fuel with (length es0 + S (fuel - length es0 - 1))%nat by lia.
  destruct (dry_skip (S (fuel - length es0 - 1)) (length es0) es0 0 last p w) as [p' ->]; try done.
  - intros k e _ He. by apply (Forall_lookup_1 _ _ _ _ Hkeep He).
  - exists p'. apply dry_end.
Qed.

Lemma dry_outside (fuel : nat) e es p w : dry_run o = true -> Z.of_nat (length (section_image pre es0 post)) < 2 ^ 31 ->
  es0 = e :: es -> removable e = true -> (1 < fuel)%nat -> dry_turn fuel es0 0 0 p w = Exits SIGBUS.
Proof.
  intros Hdry Hsmall Hes Hr Hf. assert (es0 !! 0%nat = Some e) as He by (by rewrite Hes).
  replace fuel with (S (S (fuel - 2))) by lia. change 0 with (Z.of_nat 0) at 1.
  destruct (dry_swap (S (fuel - 2)) es0 0 0 e e p w) as [p' ->]; try done.
  rewrite !(list_insert_id es0) by done. by apply (dry_crash _ es0 0 e).
Qed.

(** The entry that would be removed goes to the place of the last one, and the loop reaches it there. *)
Lemma dry_moves_back (fuel : nat) a e b x y nulls p w : dry_run o = true -> es0 = a ++ e :: b ++ x :: y :: nulls -> removable e = true ->
  Forall (fun x => removable x = false) (a ++ y :: b ++ [x]) ->
  let l := length (a ++ e :: b ++ [x]) in
  exists p', dry_turn (length a + S (length b + 2 + fuel)) es0 0 (Z.of_nat l) p w
    = dry_turn fuel (a ++ y :: b ++ x :: e :: nulls) l (Z.of_nat l - 1) p' w.
Proof.
  intros Hdry Hes Hr Hk l. set (es1 := a ++ y :: b ++ x :: e :: nulls).
  assert (es1 ≡ₚ es0) as Hp1 by (rewrite Hes; unfold es1; solve_Permutation). assert (Forall fits es1) as Hfit1 by (by rewrite Hp1).
  assert (length es0 = l + 1 + length nulls)%nat as Hlen by (rewrite Hes, app_before; unfold l; rewrite length_app; cbn; lia).
  assert (l = length a + (length b + 2))%nat as Hl by (unfold l; rewrite length_app; cbn [length]; rewrite length_app; cbn; lia).
  assert (l = length (a ++ y :: b ++ [x])) as Hl' by (unfold l; rewrite !length_app; done).
  destruct (dry_skip (S (length b + 2 + fuel)) (length a) es0 0 (Z.of_nat l) p w) as [p1 ->]; try done; [lia | |].
  { intros k z Hlt Hz. rewrite Hes, lookup_app_l in Hz by lia. apply Forall_app in Hk as [Ha _]. by apply (Forall_lookup_1 _ _ _ _ Ha Hz). }
  rewrite Nat.add_0_l. destruct (dry_swap (length b + 2 + fuel) es0 (length a) l e y p1 w) as [p2 ->]; try done.
  { rewrite Hes. by apply list_lookup_middle. }
  { rewrite Hes, app_before. by apply list_lookup_middle. }
  assert (<[l := e]> (<[length a := y]> es0) = es1) as ->.
  { rewrite Hes, list_insert_middle. unfold es1. rewrite !app_before, Hl'. apply list_insert_middle. }
  destruct (dry_skip fuel (length b + 2) es1 (length a) (Z.of_nat l - 1) p2 w) as [p3 ->]; try done; [lia | |].
  { intros k z Hlt Hz. unfold es1 in Hz. rewrite app_before, lookup_app_l in Hz by lia. by apply (Forall_lookup_1 _ _ _ _ Hk Hz). }
  exists p3. by rewrite Hl.
Qed.

(** There it changes places with the entry before it. *)
Lemma dry_moves (fuel : nat) a e b x y nulls p w : dry_run o = true -> es0 = a ++ e :: b ++ x :: y :: nulls -> removable e = true ->
  Forall (fun x => removable x = false) (a ++ b ++ x :: y :: nulls) -> (length es0 + 2 < fuel)%nat ->
  exists p', dry_turn fuel es0 0 (Z.of_nat (length (a ++ e :: b ++ [x]))) p w
    = Returns (tt, Mapping (section_image pre (a ++ y :: b ++ e :: x :: nulls) post) p' w).
Proof.
  intros Hdry Hes Hr [Ha [Hb [Hx [Hy Hn]%Forall_cons]%Forall_cons]%Forall_app]%Forall_app Hf.
  set (l := length (a ++ e :: b ++ [x])). set (es1 := a ++ y :: b ++ x :: e :: nulls). set (es2 := a ++ y :: b ++ e :: x :: nulls).
  assert (es1 ≡ₚ es0) as Hp1 by (rewrite Hes; unfold es1; solve_Permutation). assert (Forall fits es1) as Hfit1 by (by rewrite Hp1).
  assert (es2 ≡ₚ es0) as Hp2 by (rewrite Hes; unfold es2; solve_Permutation). assert (Forall fits es2) as Hfit2 by (by rewrite Hp2).
  assert (length es0 = l + 1 + length nulls)%nat as Hlen by (rewrite Hes, app_before; unfold l; rewrite length_app; cbn; lia).
  assert (l = length a + (length b + 2))%nat as Hl by (unfold l; rewrite length_app; cbn [length]; rewrite length_app; cbn; lia).
  assert (forall z, length (a ++ y :: b ++ [z]) = l) as Hlz by (intros z; unfold l; rewrite !length_app; cbn [length]; rewrite !length_app; done).
  assert (length (a ++ y :: b) = l - 1)%nat as Hlb by (rewrite length_app; cbn [length]; lia).
  assert (exists f, fuel = length a + S (length b + 2 + S (S (length nulls) + S f)))%nat as [f ->] by (exists (fuel - length es0 - 3)%nat; lia).
  destruct (dry_moves_back (S (S (length nulls) + S f)) a e b x y nulls p w) as [p1 Hback]; try done.
  { apply Forall_app. split; [done |]. apply Forall_cons. split; [done |]. by apply Forall_app; split; [| apply Forall_singleton]. }
  cbv zeta in Hback. fold l es1 in Hback. rewrite Hback. clear Hback. replace (Z.of_nat l - 1) with (Z.of_nat (l - 1)) by lia.
  destruct (dry_swap (S (length nulls) + S f) es1 l (l - 1) e x p1 w) as [p2 ->]; try done.
  { unfold es1. rewrite app_before, <- (Hlz x). by apply list_lookup_middle. }
  { unfold es1. rewrite app_comm_cons, app_assoc, <- Hlb. by apply list_lookup_middle. }
  assert (<[(l - 1)%nat := e]> (<[l := x]> es1) = es2) as ->.
  { assert (<[l := x]> es1 = (a ++ y :: b) ++ x :: x :: nulls) as ->.
    - unfold es1. rewrite app_before, <- (Hlz x), list_insert_middle, <- app_before. by rewrite <- app_assoc.
    - rewrite <- Hlb, list_insert_middle. unfold es2. by rewrite <- app_assoc. }
  destruct (dry_skip (S f) (S (length nulls)) es2 l (Z.of_nat (l - 1) - 1) p2 w) as [p3 ->]; try done; [lia | |].
  { intros k z Hlt Hz. unfold es2 in Hz. rewrite app_before, lookup_app_r, (Hlz e) in Hz by (rewrite (Hlz e); lia).
    assert (Forall (fun x => removable x = false) (x :: nulls)) as Hxn by (by apply Forall_cons). by apply (Forall_lookup_1 _ _ _ _ Hxn Hz). }
  exists p3. replace (l + S (length nulls))%nat with (length es0) by lia. apply dry_end.
Qed.

End File.

(** What a dry run makes of the entries; nothing when it leaves the file.  In some order they
    are all there; they stay as they are when none would be removed; a first entry that would be
    removed, with null entries alone behind it, ends the program; and a single entry that would be removed, with
    two others that are not null or more behind it, goes before the last but one, and the last takes its place. *)
Record dry_result es (r : option (list dyn)) : Prop := DryResult {
  dr_perm : forall es', r = Some es' -> es' ≡ₚ es;
  dr_same : Forall (fun e => removable e = false) es -> r = Some es;
  dr_out : forall e nulls, es = e :: nulls -> removable e = true -> Forall (fun x => d_tag x = DT_NULL) nulls -> r = None;
  dr_moved : forall a e b x y nulls, es = a ++ e :: b ++ x :: y :: nulls -> removable e = true ->
    Forall (fun x => removable x = false) (a ++ b ++ [x; y]) -> d_tag y <> DT_NULL -> Forall (fun x => d_tag x = DT_NULL) nulls ->
    r = Some (a ++ y :: b ++ e :: x :: nulls);
}.

(** Cleaning a dynamic section terminates without leaving the file, changes nothing around
    the section, and keeps the entries as a multiset up to the cleaning of each: the entries with
    the tags that the linker of the target API level does not know become null entries, the
    entry of the flags keeps the supported flags, and every other entry is as it was.  When the
    null entries of the section were all at its end, so they are afterwards: no entry that is
    kept is hidden behind a removed one. *)
Lemma dynamic_section_cleaned (pre post : list byte) (es : list dyn) (sh_size : Z) (fuel : nat) (p w : list byte) :
  dry_run o = false -> Forall fits es -> sh_size / Z.of_nat (2 * dyn_word) = Z.of_nat (length es) ->
  0 < Z.of_nat (length es) < 2 ^ 32 -> Z.of_nat (length (section_image pre es post)) < 2 ^ 64 -> (2 * length es < fuel)%nat ->
  exists es' p',
    clean_dynamic_section T o file_name fuel is_aarch64 (Z.of_nat (length pre)) sh_size (Mapping (section_image pre es post) p w)
    = Returns (tt, Mapping (section_image pre es' post) p' w)
    /\ es' ≡ₚ clean_entry <$> es
    /\ ((exists k, compact es k) -> exists k, compact es' k).
Proof.
  intros Hdry Hfits Hn [Hpos Hmany] Hsize Hfuel. unfold clean_dynamic_section. rewrite sizeof_dyn, Hn.
  rewrite (u32_id (_ - 1)) by lia. replace (Z.of_nat (length es) - 1) with (Z.of_nat (length es - 1)) by lia.
  destruct (last_nonnull_ok pre post es Hsize Hmany Hfits fuel (length es - 1) p w) as (l & Hlast & Hl & Hz & Hnn); [lia | lia |].
  rewrite (bind_returns _ _ _ _ _ Hlast). pose proof (removals_length es).
  destruct (clean_entries_ok pre post es Hsize Hmany fuel es 0 (Z.of_nat l) p w Hdry) as (es' & p' & last' & Hrun & Hpr);
    [apply initial_progress; first [done | lia] | lia | lia |].
  exists es', p'. rewrite u32_id in Hrun by lia. split; [exact Hrun |]. by eapply progress_done.
Qed.

(** The file after the loop; none when the loop left it. *)
Definition loop_result pre post w (r : option (list dyn)) p' : outcome (unit * mapping) :=
  match r with Some es' => Returns (tt, Mapping (section_image pre es' post) p' w) | None => Exits SIGBUS end.

(** The result is that of any run that is known. *)
Lemma loop_result_inj pre post w es r r' p p' : Forall fits es -> (forall es', r = Some es' -> es' ≡ₚ es) ->
  (forall es', r' = Some es' -> es' ≡ₚ es) -> loop_result pre post w r p = loop_result pre post w r' p' -> r = r'.
Proof.
  intros Hfit Hr Hr' E. destruct r as [es1|], r' as [es2|]; try done. cbn in E. injection E as E _.
  pose proof (Hr es1 eq_refl) as H1. pose proof (Hr' es2 eq_refl) as H2. f_equal. apply section_image_inj in E; [done | by rewrite H1 | by rewrite H2 |].
  by rewrite H1, H2.
Qed.

(** The index of the last entry that is not null. *)
Lemma last_index es nulls front y l : es = front ++ y :: nulls -> d_tag y <> DT_NULL -> Forall (fun x => d_tag x = DT_NULL) nulls ->
  (l < length es)%nat -> (forall k e, (l < k <= length es - 1)%nat -> es !! k = Some e -> d_tag e = DT_NULL) ->
  (l <> 0%nat -> exists e, es !! l = Some e /\ d_tag e <> DT_NULL) -> l = length front.
Proof.
  intros Hes Hy Hn Hl Hz Hnn. assert (es !! length front = Some y) as Hat by (rewrite Hes; by apply list_lookup_middle).
  assert (length es = length front + S (length nulls))%nat as Hlen by (rewrite Hes, length_app; done).
  destruct (Nat.lt_total l (length front)) as [Hlt | [-> | Hgt]]; [| done |].
  - destruct (Hy (Hz (length front) y ltac:(lia) Hat)).
  - destruct Hnn as (e & He & Hne); [lia |]. exfalso. apply Hne. rewrite Hes, lookup_app_r in He by lia.
    destruct (l - length front)%nat as [|k] eqn:Ek; [lia |]. cbn in He. by apply (Forall_lookup_1 _ _ _ _ Hn He).
Qed.

(** A dry run of the cleaning of a dynamic section. *)
Lemma dynamic_section_dry (pre post : list byte) (es : list dyn) (sh_size : Z) (fuel : nat) (p w : list byte) :
  dry_run o = true -> Forall fits es -> sh_size / Z.of_nat (2 * dyn_word) = Z.of_nat (length es) ->
  0 < Z.of_nat (length es) < 2 ^ 32 -> Z.of_nat (length (section_image pre es post)) < 2 ^ 31 -> (2 * length es < fuel)%nat ->
  exists r p',
    clean_dynamic_section T o file_name fuel is_aarch64 (Z.of_nat (length pre)) sh_size (Mapping (section_image pre es post) p w)
    = loop_result pre post w r p' /\ dry_result es r.
Proof.
  intros Hdry Hfits Hn [Hpos Hmany] Hsmall Hfuel. assert (Z.of_nat (length (section_image pre es post)) < 2 ^ 64) as Hsize by lia.
  unfold clean_dynamic_section. rewrite sizeof_dyn, Hn.
  rewrite (u32_id (_ - 1)) by lia. replace (Z.of_nat (length es) - 1) with (Z.of_nat (length es - 1)) by lia.
  destruct (last_nonnull_ok pre post es Hsize Hmany Hfits fuel (length es - 1) p w) as (l & Hlast & Hl & Hz & Hnn); [lia | lia |].
  rewrite (bind_returns _ _ _ _ _ Hlast). replace (Z.of_nat l) with (u32 (Z.of_nat l)) by (apply u32_id; lia).
  assert (exists r p', clean_entries T o file_name fuel is_aarch64 (Z.of_nat (length pre)) (Z.of_nat (length es)) 0 (u32 (Z.of_nat l))
            (Mapping (section_image pre es post) p w) = loop_result pre post w r p' /\ forall es', r = Some es' -> es' ≡ₚ es) as (r & p' & Hrun & Hperm).
  { destruct (dry_loop pre post es Hsize Hmany Hfits fuel es 0 (Z.of_nat l) p w Hdry Hsmall) as [Hx | (es' & p' & Hx & Hp)]; try done; [lia .. | |].
    - by exists None, p.
    - exists (Some es'), p'. split; [exact Hx |]. by intros ? [= <-]. }
  exists r, p'. split; [exact Hrun |].
  assert (forall r' p'', clean_entries T o file_name fuel is_aarch64 (Z.of_nat (length pre)) (Z.of_nat (length es)) 0 (u32 (Z.of_nat l))
            (Mapping (section_image pre es post) p w) = loop_result pre post w r' p'' -> (forall es', r' = Some es' -> es' ≡ₚ es) -> r = r') as Hsame.
  { intros r' p'' Hx Hp. apply (loop_result_inj pre post w es r r' p' p''); [done .. | by rewrite <- Hrun]. }
  constructor; [done | | |].
  - intros Hkeep. edestruct (dry_unchanged pre post es Hsize Hmany Hfits fuel (Z.of_nat l) p w Hdry Hkeep) as [p'' Hx]; [lia |].
    apply (Hsame (Some es) p'' Hx). by intros ? [= <-].
  - intros e nulls Hes Hr Hnull. apply (Hsame None p); [| done].
    assert (l = 0%nat) as ->. { apply (last_index es nulls [] e); try done; [by apply removable_nonnull | lia]. }
    apply (dry_outside pre post es Hsize Hmany Hfits fuel e nulls p w Hdry Hsmall Hes Hr). lia.
  - intros a e b x y nulls Hes Hr Hkeep Hy Hnull.
    assert (l = length (a ++ e :: b ++ [x])) as El. { apply (last_index es nulls _ y); try done; [by rewrite Hes, app_before | lia]. }
    edestruct (dry_moves pre post es Hsize Hmany Hfits fuel a e b x y nulls p w Hdry Hes Hr) as [p'' Hx].
    + apply Forall_app in Hkeep as [Ha [Hb Hxy]%Forall_app]. apply Forall_app. split; [done |]. apply Forall_app. split; [done |].
      apply (Forall_app _ [x; y]). split; [done |]. apply (Forall_impl _ _ _ Hnull). intros z. apply null_kept.
    + rewrite Hes, app_before, length_app in Hfuel |- *. rewrite length_app in *. cbn [length] in *. rewrite length_app in *. cbn in *. lia.
    + rewrite El in Hsame. apply (Hsame (Some (a ++ y :: b ++ e :: x :: nulls)) p'' Hx). intros ? [= <-]. rewrite Hes. solve_Permutation.
Qed.

End Dynamic.
