(* ===== verification/ElfFileOk.v ===== *)
(** * Cleaning a whole file (elf-cleaner/elf-cleaner.cpp)

    A file as linkers write it: the header, the program headers right behind it, the dynamic
    section, and the section headers.  The command that the build runs aligns the TLS segments of
    the program headers from the second on, cleans the dynamic section and forgets the version
    sections, and changes no other byte.  A dry run changes nothing but the order of the entries
    of the dynamic section, or leaves the file. *)

From S2P Require Import Prelude CString AndroidShell ElfCleaner ElfCleanerOk.
#[local] Open Scope Z_scope.
#[local] Open Scope awg_scope.

(** ** Structures in a file *)

(** The value of a field of a structure, and the structure with another value in it. *)
Definition field_value (l : layout) (f : string) (m : list byte) : Z :=
  le_bytes (take (snd (field_of l f)) (drop (fst (field_of l f)) m)).

Definition with_field (l : layout) (f : string) (v : Z) (m : list byte) : list byte :=
  take (fst (field_of l f)) m ++ bytes_le (snd (field_of l f)) v ++ drop (fst (field_of l f) + snd (field_of l f)) m.

Lemma field_inside (l : layout) (f : string) : (fst (field_of l f) + snd (field_of l f) <= sizeof l)%nat.
Proof.
  induction l as [|[g n] l IH]; cbn [field_of sizeof foldr snd fst]; [lia |].
  destruct (String.eqb f g); [cbn; lia |]. destruct (field_of l f) as [off w]. cbn [fst snd] in *. unfold sizeof in IH. lia.
Qed.

Lemma with_field_length (l : layout) (f : string) (v : Z) (m : list byte) : length m = sizeof l -> length (with_field l f v m) = sizeof l.
Proof.
  intros Hm. pose proof (field_inside l f). unfold with_field. rewrite !length_app, bytes_le_length, length_take, length_drop. lia.
Qed.

(** A structure split at a field. *)
Lemma field_split (l : layout) (f : string) (m : list byte) : length m = sizeof l ->
  m = take (fst (field_of l f)) m ++ take (snd (field_of l f)) (drop (fst (field_of l f)) m) ++ drop (fst (field_of l f) + snd (field_of l f)) m
  /\ length (take (fst (field_of l f)) m) = fst (field_of l f)
  /\ length (take (snd (field_of l f)) (drop (fst (field_of l f)) m)) = snd (field_of l f).
Proof.
  intros Hm. pose proof (field_inside l f). split; [| rewrite !length_take, length_drop; lia].
  by rewrite <- drop_drop, take_drop, take_drop.
Qed.

Lemma read_field_at (a m b p w : list byte) (l : layout) (f : string) :
  length m = sizeof l -> Z.of_nat (length (a ++ m ++ b)) < 2 ^ 64 ->
  read_field (Z.of_nat (length a)) l f (Mapping (a ++ m ++ b) p w) = Returns (field_value l f m, Mapping (a ++ m ++ b) p w).
Proof.
  intros Hm Hs. pose proof (field_inside l f). rewrite !length_app in Hs. destruct (field_split l f m Hm) as (E & Ho & Hw).
  unfold read_field, u64. rewrite uw_small, <- Nat2Z.inj_add by lia.
  set (off := fst (field_of l f)) in *. set (wd := snd (field_of l f)) in *.
  assert (a ++ m ++ b = (a ++ take off m) ++ take wd (drop off m) ++ drop (off + wd) m ++ b) as E2 by (rewrite E at 1; by rewrite <- !app_assoc).
  rewrite E2. replace (length a + off)%nat with (length (a ++ take off m)) by (rewrite length_app; lia).
  by erewrite bind_returns by (by apply load_at).
Qed.

Lemma write_field_at (a m b p w : list byte) (l : layout) (f : string) (v : Z) :
  length m = sizeof l -> Z.of_nat (length (a ++ m ++ b)) < 2 ^ 64 ->
  write_field (Z.of_nat (length a)) l f v (Mapping (a ++ m ++ b) p w) = Returns (tt, Mapping (a ++ with_field l f v m ++ b) p w).
Proof.
  intros Hm Hs. pose proof (field_inside l f). rewrite !length_app in Hs. destruct (field_split l f m Hm) as (E & Ho & Hw).
  unfold write_field, u64. rewrite uw_small, <- Nat2Z.inj_add by lia. unfold with_field.
  set (off := fst (field_of l f)) in *. set (wd := snd (field_of l f)) in *.
  assert (a ++ m ++ b = (a ++ take off m) ++ take wd (drop off m) ++ drop (off + wd) m ++ b) as E2 by (rewrite E at 1; by rewrite <- !app_assoc).
  rewrite E2. replace (length a + off)%nat with (length (a ++ take off m)) by (rewrite length_app; lia).
  rewrite store_at by (by rewrite bytes_le_length). by rewrite <- !app_assoc.
Qed.

(** ** Tables *)

Definition structures (l : layout) (ms : list (list byte)) : Prop := Forall (fun m => length m = sizeof l) ms.

Lemma concat_length (l : layout) (ms : list (list byte)) : structures l ms -> length (concat ms) = (sizeof l * length ms)%nat.
Proof. induction 1 as [|m ms Hm _ IH]; cbn [concat length]; [lia |]. rewrite length_app, Hm, IH. lia. Qed.

(** The structure at an index of a table: what is before it, and its address. *)
Lemma element_at (pre b : list byte) (l : layout) (before : list (list byte)) (m : list byte) (after : list (list byte)) :
  structures l (before ++ m :: after) -> Z.of_nat (length (pre ++ concat (before ++ m :: after) ++ b)) < 2 ^ 64 ->
  element (Z.of_nat (length pre)) l (Z.of_nat (length before)) = Z.of_nat (length (pre ++ concat before))
  /\ length m = sizeof l
  /\ forall m', pre ++ concat (before ++ m' :: after) ++ b = (pre ++ concat before) ++ m' ++ concat after ++ b.
Proof.
  intros Hs Hl. apply Forall_app in Hs as [Hb Hm]. apply Forall_cons in Hm as [Hm Ha].
  rewrite concat_app in Hl. cbn [concat] in Hl. rewrite !length_app, (concat_length l before), Hm in Hl by done. split; [| split].
  - unfold element, u64. rewrite length_app, (concat_length l before) by done. rewrite uw_small by lia. lia.
  - done.
  - intros m'. rewrite concat_app. cbn [concat]. by rewrite <- !app_assoc.
Qed.

Section Tables.
Context (T : elf_types) (o : cleaner_options) (file_name : list byte).

(** *** Program headers *)

Definition aligned (m : list byte) : list byte :=
  if (field_value (ElfProgramHeaderType T) "p_type" m =? PT_TLS)
     && (field_value (ElfProgramHeaderType T) "p_align" m <? Z.of_nat (ElfWord T) * 8)
  then with_field (ElfProgramHeaderType T) "p_align" (Z.of_nat (ElfWord T) * 8) m
  else m.

Lemma aligned_structure (m : list byte) :
  length m = sizeof (ElfProgramHeaderType T) -> length (written o aligned m) = sizeof (ElfProgramHeaderType T).
Proof. intros Hm. unfold written, aligned. destruct (dry_run o); [done |]. destruct (_ && _); [by apply with_field_length | done]. Qed.

(** The header is read as long as it is at the front. *)
Lemma get_header {B} (hdr x p w : list byte) (f : string) (k : Z -> elf B) :
  length hdr = sizeof (ElfHeaderType T) -> Z.of_nat (length (hdr ++ x)) < 2 ^ 64 ->
  (read_field 0 (ElfHeaderType T) f ≫= k) (Mapping (hdr ++ x) p w) = k (field_value (ElfHeaderType T) f hdr) (Mapping (hdr ++ x) p w).
Proof.
  intros Hh Hx. apply bind_returns. change 0 with (Z.of_nat (length (@nil byte))). change (hdr ++ x) with ([] ++ hdr ++ x). by apply read_field_at.
Qed.

Lemma align_step (a m b p w : list byte) :
  length m = sizeof (ElfProgramHeaderType T) -> Z.of_nat (length (a ++ m ++ b)) < 2 ^ 64 ->
  let program_header_entry := Z.of_nat (length a) in
  let tls_min_alignment := Z.of_nat (ElfWord T) * 8 in
  exists p', when (field_value (ElfProgramHeaderType T) "p_type" m =? PT_TLS) (
      p_align ← read_field program_header_entry (ElfProgramHeaderType T) "p_align";
      when (p_align <? tls_min_alignment) (
        _ ← when (negb (quiet o)) (print [PACKAGE_NAME; text ": Changing TLS alignment for '"; file_name; text "' to ";
               print_u (u32 tls_min_alignment); text ", instead of "; print_u (u32 p_align); nl]);
        when (negb (dry_run o)) (write_field program_header_entry (ElfProgramHeaderType T) "p_align" tls_min_alignment)))
    (Mapping (a ++ m ++ b) p w)
  = Returns (tt, Mapping (a ++ written o aligned m ++ b) p' w).
Proof.
  intros Hm Hs. cbv zeta. unfold written, aligned.
  destruct (field_value _ "p_type" m =? PT_TLS); cbn [when andb]; [| exists p; by destruct (dry_run o)].
  rewrite (bind_returns _ _ _ _ _ (read_field_at a m b p w _ "p_align" Hm Hs)).
  destruct (field_value _ "p_align" m <? _); cbn [when]; [| exists p; by destruct (dry_run o)].
  edestruct when_print as [p' Hp]. rewrite (bind_returns _ _ _ _ _ Hp). exists p'. destruct (dry_run o); [done |]. by apply write_field_at.
Qed.

Lemma program_headers_ok (fuel : nat) (hdr between : list byte) (before after : list (list byte)) (post p w : list byte) :
  length hdr = sizeof (ElfHeaderType T) -> structures (ElfProgramHeaderType T) (before ++ after) ->
  field_value (ElfHeaderType T) "e_phnum" hdr = Z.of_nat (length (before ++ after)) -> Z.of_nat (length (before ++ after)) < 2 ^ 31 ->
  Z.of_nat (length (hdr ++ between ++ concat (before ++ after) ++ post)) < 2 ^ 64 -> (length after < fuel)%nat ->
  exists p', program_headers T o file_name fuel (Z.of_nat (length (hdr ++ between))) (Z.of_nat (length before))
      (Mapping (hdr ++ between ++ concat (before ++ after) ++ post) p w)
    = Returns (tt, Mapping (hdr ++ between ++ concat (before ++ map (written o aligned) after) ++ post) p' w).
Proof.
  intros Hh. revert fuel before p. induction after as [|m after IH]; intros [|fuel] before p Hs Hn H31 Hl Hf; try (cbn in Hf; lia);
    cbn [program_headers]; rewrite get_header, Hn by done.
  - rewrite app_nil_r, Z.ltb_irrefl. exists p. cbn [map]. by rewrite app_nil_r.
  - rewrite (proj2 (Z.ltb_lt _ _)) by (rewrite length_app; cbn [length]; lia). rewrite !(app_assoc hdr between) in *.
    destruct (element_at (hdr ++ between) post _ before m after Hs Hl) as (-> & Hm & Heq). rewrite Heq in Hl |- *.
    rewrite (bind_returns _ _ _ _ _ (read_field_at _ m _ p w _ "p_type" Hm Hl)).
    destruct (align_step ((hdr ++ between) ++ concat before) m (concat after ++ post) p w Hm Hl) as [p' Hp].
    rewrite (bind_returns _ _ _ _ _ Hp). unfold u32. rewrite length_app in H31. cbn [length] in H31. rewrite uw_small by lia.
    assert (length (written o aligned m) = length m) as Hal by (rewrite Hm; by apply aligned_structure).
    destruct (IH fuel (before ++ [written o aligned m]) p') as [p'' Hp''].
    + rewrite <- app_assoc. apply Forall_app in Hs as [Hb Hma]. apply Forall_app. split; [done |]. apply Forall_cons in Hma as [_ Ha].
      apply Forall_cons. split; [by rewrite Hal | done].
    + rewrite Hn, !length_app. cbn [length]. lia.
    + rewrite !length_app. cbn [length]. lia.
    + rewrite <- (app_assoc before), app_assoc. cbn [app]. rewrite Heq. rewrite !length_app in *. rewrite Hal. lia.
    + cbn [length] in Hf. lia.
    + exists p''. rewrite <- !(app_assoc before) in Hp''. cbn [app] in Hp''. rewrite <- Heq. cbn [map]. rewrite <- !(app_assoc hdr) in *.
      rewrite <- Hp''. f_equal. rewrite length_app. cbn [length]. lia.
Qed.

(** *** Section headers *)

Definition is_version (sh_type : Z) : bool := (sh_type =? SHT_GNU_verdef) || (sh_type =? SHT_GNU_verneed) || (sh_type =? SHT_GNU_versym).

Definition forgotten (m : list byte) : list byte :=
  if (api_level o <? 23) && is_version (field_value (ElfSectionHeaderType T) "sh_type" m)
  then with_field (ElfSectionHeaderType T) "sh_type" SHT_NULL m
  else m.

(** Not the header of a dynamic section. *)
Definition plain (m : list byte) : Prop := field_value (ElfSectionHeaderType T) "sh_type" m <> SHT_DYNAMIC.

Lemma forgotten_structure (m : list byte) :
  length m = sizeof (ElfSectionHeaderType T) -> length (written o forgotten m) = sizeof (ElfSectionHeaderType T).
Proof. intros Hm. unfold written, forgotten. destruct (dry_run o); [done |]. destruct (_ && _); [by apply with_field_length | done]. Qed.

(** The condition on the number of headers does not change when headers are replaced. *)
Lemma structures_replace (l : layout) (before after : list (list byte)) (m m' : list byte) :
  structures l (before ++ m :: after) -> length m' = sizeof l -> structures l ((before ++ [m']) ++ after).
Proof.
  intros [Hb Hma]%Forall_app Hm'. rewrite <- app_assoc. apply Forall_app. split; [done |]. apply Forall_cons in Hma as [_ Ha]. by apply Forall_cons.
Qed.

Lemma forget_step (a m b p w : list byte) :
  length m = sizeof (ElfSectionHeaderType T) -> Z.of_nat (length (a ++ m ++ b)) < 2 ^ 64 ->
  exists p', forall B (k : elf B), (if (api_level o <? 23) && is_version (field_value (ElfSectionHeaderType T) "sh_type" m) then
      _ ← when (negb (quiet o)) (print [PACKAGE_NAME; text ": Removing version section from '"; file_name; text "'"; nl]);
      _ ← when (negb (dry_run o)) (write_field (Z.of_nat (length a)) (ElfSectionHeaderType T) "sh_type" SHT_NULL);
      k
    else k) (Mapping (a ++ m ++ b) p w) = k (Mapping (a ++ written o forgotten m ++ b) p' w).
Proof.
  intros Hm Hs. unfold written, forgotten. destruct (_ && _); [| exists p; by destruct (dry_run o)].
  edestruct when_print as [p' Hp]. exists p'. intros B k. rewrite (bind_returns _ _ _ _ _ Hp). destruct (dry_run o); cbn [negb when]; [done |].
  by rewrite (bind_returns _ _ _ _ _ (write_field_at a m b p' w _ _ _ Hm Hs)).
Qed.

Lemma plain_headers (fuel : nat) (is_aarch64 : bool) (hdr x : list byte) (before r after : list (list byte)) (post p w : list byte) :
  length hdr = sizeof (ElfHeaderType T) -> structures (ElfSectionHeaderType T) (before ++ r ++ after) -> Forall plain r ->
  field_value (ElfHeaderType T) "e_shnum" hdr = Z.of_nat (length (before ++ r ++ after)) -> Z.of_nat (length (before ++ r ++ after)) < 2 ^ 31 ->
  Z.of_nat (length (hdr ++ x ++ concat (before ++ r ++ after) ++ post)) < 2 ^ 64 ->
  exists p', section_headers T o file_name (length r + fuel) is_aarch64 (Z.of_nat (length (hdr ++ x))) (Z.of_nat (length before))
      (Mapping (hdr ++ x ++ concat (before ++ r ++ after) ++ post) p w)
    = section_headers T o file_name fuel is_aarch64 (Z.of_nat (length (hdr ++ x))) (Z.of_nat (length before + length r))
      (Mapping (hdr ++ x ++ concat (before ++ map (written o forgotten) r ++ after) ++ post) p' w).
Proof.
  intros Hh. revert before p. induction r as [|m r IH]; intros before p Hs Hpl Hn H31 Hl.
  - exists p. cbn [length map app]. by rewrite Nat.add_0_r.
  - apply Forall_cons in Hpl as [Hp Hpl]. cbn [length app map plus section_headers] in *. rewrite get_header, Hn by done.
    rewrite (proj2 (Z.ltb_lt _ _)) by (rewrite length_app; cbn [length]; lia). rewrite !(app_assoc hdr x) in *.
    destruct (element_at (hdr ++ x) post _ before m (r ++ after) Hs Hl) as (-> & Hm & Heq). rewrite Heq in Hl |- *.
    rewrite (bind_returns _ _ _ _ _ (read_field_at _ m _ p w _ "sh_type" Hm Hl)). rewrite (proj2 (Z.eqb_neq _ _) Hp).
    destruct (forget_step _ m _ p w Hm Hl) as [p' Hf]. unfold is_version in Hf. rewrite Hf. clear Hf.
    unfold u32. rewrite length_app in H31. cbn [length] in H31. rewrite uw_small by lia.
    pose proof (forgotten_structure m Hm) as Hfm.
    destruct (IH (before ++ [written o forgotten m]) p') as [p'' Hp''].
    + by apply (structures_replace _ before (r ++ after) m).
    + done.
    + rewrite Hn, !length_app. cbn [length]. rewrite !length_app. lia.
    + rewrite !length_app in *. cbn [length]. lia.
    + rewrite <- (app_assoc before), app_assoc. cbn [app]. rewrite Heq. rewrite !length_app in *. rewrite Hfm, <- Hm. lia.
    + exists p''. rewrite <- !(app_assoc before) in Hp''. cbn [app] in Hp''. rewrite <- Heq. rewrite <- !(app_assoc hdr) in *.
      rewrite (length_app before) in Hp''. cbn [length] in Hp''.
      replace (Z.of_nat (length before) + 1) with (Z.of_nat (length before + 1)) by lia. rewrite Hp''. f_equal. lia.
Qed.

Lemma no_more_headers (fuel : nat) (is_aarch64 : bool) (hdr x p w : list byte) (i table : Z) :
  length hdr = sizeof (ElfHeaderType T) -> field_value (ElfHeaderType T) "e_shnum" hdr <= i -> Z.of_nat (length (hdr ++ x)) < 2 ^ 64 ->
  section_headers T o file_name (S fuel) is_aarch64 table i (Mapping (hdr ++ x) p w) = Returns (true, Mapping (hdr ++ x) p w).
Proof. intros Hh Hi Hl. cbn [section_headers]. rewrite get_header by done. by rewrite (proj2 (Z.ltb_ge _ _)). Qed.

Lemma forgotten_structures (ms : list (list byte)) :
  structures (ElfSectionHeaderType T) ms -> structures (ElfSectionHeaderType T) (map (written o forgotten) ms).
Proof. intros Hs. apply Forall_map. apply (Forall_impl _ _ _ Hs). intros m. apply forgotten_structure. Qed.

(** The headers to the end of the table. *)
Lemma plain_rest (fuel : nat) (is_aarch64 : bool) (hdr x : list byte) (before r : list (list byte)) (post p w : list byte) :
  length hdr = sizeof (ElfHeaderType T) -> structures (ElfSectionHeaderType T) (before ++ r) -> Forall plain r ->
  field_value (ElfHeaderType T) "e_shnum" hdr = Z.of_nat (length (before ++ r)) -> Z.of_nat (length (before ++ r)) < 2 ^ 31 ->
  Z.of_nat (length (hdr ++ x ++ concat (before ++ r) ++ post)) < 2 ^ 64 ->
  exists p', section_headers T o file_name (length r + S fuel) is_aarch64 (Z.of_nat (length (hdr ++ x))) (Z.of_nat (length before))
      (Mapping (hdr ++ x ++ concat (before ++ r) ++ post) p w)
    = Returns (true, Mapping (hdr ++ x ++ concat (before ++ map (written o forgotten) r) ++ post) p' w).
Proof.
  intros Hh Hs Hpl Hn H31 Hl.
  destruct (plain_headers (S fuel) is_aarch64 hdr x before r [] post p w) as [p' Hp]; rewrite ?app_nil_r; try done.
  rewrite !app_nil_r in Hp. rewrite Hp. exists p'. apply no_more_headers; [done | rewrite Hn, length_app; lia |].
  apply Forall_app in Hs as [Hb Hr].
  rewrite concat_app, !length_app, (concat_length _ r Hr) in Hl.
  rewrite concat_app, !length_app, (concat_length _ (map (written o forgotten) r)), length_map by (by apply forgotten_structures). lia.
Qed.

End Tables.

(** ** A file *)

Record elf_parts := ElfParts {
  header : list byte;
  first_program : list byte;
  programs : list (list byte);
  gap : list byte;
  dynamic : list dyn;
  gap' : list byte;
  null_section : list byte;
  sections : list (list byte);
  dynamic_header : list byte;
  sections' : list (list byte);
  rest : list byte;
}.

#[export] Instance eta_elf_parts : Eta elf_parts := fun r =>
  ElfParts (header r) (first_program r) (programs r) (gap r) (dynamic r) (gap' r) (null_section r) (sections r) (dynamic_header r) (sections' r) (rest r).

Section Whole.
Context (T : elf_types) `{ElfTypesOk T}.
Implicit Types (L : elf_parts).

Definition program_table L : list (list byte) := first_program L :: programs L.
Definition section_table L : list (list byte) := null_section L :: sections L ++ dynamic_header L :: sections' L.
Definition before_dynamic L : list byte := header L ++ concat (program_table L) ++ gap L.

Definition file_image L : list byte :=
  header L ++ concat (program_table L) ++ gap L ++ concat (map (dyn_bytes T) (dynamic L)) ++ gap' L ++ concat (section_table L) ++ rest L.

(** The offsets and numbers in the headers are those of the parts. *)
Record well_formed L : Prop := WellFormed {
  wf_header : length (header L) = sizeof (ElfHeaderType T);
  wf_programs : structures (ElfProgramHeaderType T) (program_table L);
  wf_sections : structures (ElfSectionHeaderType T) (section_table L);
  wf_phoff : field_value (ElfHeaderType T) "e_phoff" (header L) = Z.of_nat (length (header L));
  wf_phnum : field_value (ElfHeaderType T) "e_phnum" (header L) = Z.of_nat (length (program_table L));
  wf_shoff : field_value (ElfHeaderType T) "e_shoff" (header L)
             = Z.of_nat (length (before_dynamic L ++ concat (map (dyn_bytes T) (dynamic L)) ++ gap' L));
  wf_shnum : field_value (ElfHeaderType T) "e_shnum" (header L) = Z.of_nat (length (section_table L));
  wf_plain : Forall (plain T) (sections L ++ sections' L);
  wf_type : field_value (ElfSectionHeaderType T) "sh_type" (dynamic_header L) = SHT_DYNAMIC;
  wf_offset : field_value (ElfSectionHeaderType T) "sh_offset" (dynamic_header L) = Z.of_nat (length (before_dynamic L));
  wf_size : field_value (ElfSectionHeaderType T) "sh_size" (dynamic_header L) = Z.of_nat (2 * dyn_word * length (dynamic L));
  wf_dynamic : dynamic L <> [];
  wf_entries : Forall (fits T) (dynamic L);
  wf_length : Z.of_nat (length (file_image L)) < 2 ^ 31;
}.


(** The file after a run that leaves the entries [es]; a dry run changes nothing else. *)
Definition treated (o : cleaner_options) (es : list dyn) L : elf_parts :=
  L <| programs ::= map (written o (aligned T)) |> <| dynamic := es |>
    <| sections ::= map (written o (forgotten T o)) |> <| sections' ::= map (written o (forgotten T o)) |>.


Lemma treated_dry (o : cleaner_options) (es : list dyn) L : dry_run o = true -> treated o es L = L <| dynamic := es |>.
Proof. intros Hdry. unfold treated, written. rewrite Hdry. destruct L. cbn. by rewrite !map_id. Qed.

(** What the loop over the entries [es] makes of them, wherever they are in a file. *)
Definition entries_become (o : cleaner_options) (file_name : list byte) (is_aarch64 : bool) (es : list dyn) (Q : option (list dyn) -> Prop) : Prop :=
  forall pre post fuel p w, Z.of_nat (length (section_image T pre es post)) < 2 ^ 31 -> (2 * length es < fuel)%nat ->
  exists r p', clean_dynamic_section T o file_name fuel is_aarch64 (Z.of_nat (length pre)) (Z.of_nat (2 * dyn_word * length es))
      (Mapping (section_image T pre es post) p w) = loop_result T pre post w r p' /\ Q r.

(** The entries stay as many. *)
Definition keeps_number (es : list dyn) (Q : option (list dyn) -> Prop) : Prop := forall es', Q (Some es') -> length es' = length es.

Lemma section_numbers (pre es post : _) : es <> [] -> Z.of_nat (length (section_image T pre es post)) < 2 ^ 31 ->
  Z.of_nat (2 * dyn_word * length es) / Z.of_nat (2 * dyn_word) = Z.of_nat (length es)
  /\ 0 < Z.of_nat (length es) < 2 ^ 32 /\ Z.of_nat (length (section_image T pre es post)) < 2 ^ 64.
Proof.
  intros Hne Hl. pose proof dyn_word_pos as Hw. assert (0 < length es)%nat as Hpos by (destruct es; cbn; [done | lia]). split_and!.
  - rewrite Nat2Z.inj_mul, Z.mul_comm. apply Z.div_mul. lia.
  - lia.
  - unfold section_image in Hl. rewrite !length_app, dyns_length in Hl. nia.
  - lia.
Qed.


Lemma dry_entries_become (o : cleaner_options) (file_name : list byte) (is_aarch64 : bool) (es : list dyn) :
  dry_run o = true -> es <> [] -> Forall (fits T) es -> entries_become o file_name is_aarch64 es (dry_result o is_aarch64 es).
Proof.
  intros Hdry Hne Hfit pre post fuel p w Hl Hf. destruct (section_numbers pre es post Hne Hl) as (Hd & Hn & _).
  by apply dynamic_section_dry.
Qed.

Definition is_aarch64_file L : bool := field_value (ElfHeaderType T) "e_machine" (header L) =? 183.

(** *** The steps of [process_elf] on it *)

Lemma dynamic_step (o : cleaner_options) (file_name : list byte) (fuel : nat) (is_aarch64 : bool) (hdr y z : list byte) (es : list dyn)
    (before after : list (list byte)) (d post p w : list byte) (Q : option (list dyn) -> Prop) :
  entries_become o file_name is_aarch64 es Q -> length hdr = sizeof (ElfHeaderType T) -> structures (ElfSectionHeaderType T) (before ++ d :: after) ->
  field_value (ElfHeaderType T) "e_shnum" hdr = Z.of_nat (length (before ++ d :: after)) -> Z.of_nat (length before) < 2 ^ 31 ->
  field_value (ElfSectionHeaderType T) "sh_type" d = SHT_DYNAMIC ->
  field_value (ElfSectionHeaderType T) "sh_offset" d = Z.of_nat (length (hdr ++ y)) ->
  field_value (ElfSectionHeaderType T) "sh_size" d = Z.of_nat (2 * dyn_word * length es) ->
  (2 * length es <= fuel)%nat ->
  let image es := hdr ++ (y ++ concat (map (dyn_bytes T) es) ++ z) ++ concat (before ++ d :: after) ++ post in
  let table := Z.of_nat (length (hdr ++ y ++ concat (map (dyn_bytes T) es) ++ z)) in
  Z.of_nat (length (image es)) < 2 ^ 31 ->
  exists r p', section_headers T o file_name (S fuel) is_aarch64 table (Z.of_nat (length before)) (Mapping (image es) p w)
    = match r with
      | Some es' => section_headers T o file_name fuel is_aarch64 table (Z.of_nat (length before + 1)) (Mapping (image es') p' w)
      | None => Exits SIGBUS
      end
    /\ Q r.
Proof.
  intros HQ Hh Hs Hn Hb Ht Ho Hz Hf image table Hl. cbn [section_headers]. unfold image at 1.
  assert (Z.of_nat (length (image es)) < 2 ^ 64) as Hl64 by lia. unfold image in Hl64.
  rewrite get_header, Hn by done. rewrite (proj2 (Z.ltb_lt _ _)) by (rewrite length_app; cbn [length]; lia).
  rewrite (app_assoc hdr) in Hl64 |- *. unfold table. 
  destruct (element_at (hdr ++ y ++ concat (map (dyn_bytes T) es) ++ z) post _ before d after Hs Hl64) as (-> & Hm & Heq).
  rewrite Heq in Hl64 |- *.
  rewrite (bind_returns _ _ _ _ _ (read_field_at _ d _ p w _ "sh_type" Hm Hl64)), Ht. cbn [Z.eqb SHT_DYNAMIC Pos.eqb].
  rewrite (bind_returns _ _ _ _ _ (read_field_at _ d _ p w _ "sh_offset" Hm Hl64)), Ho.
  rewrite (bind_returns _ _ _ _ _ (read_field_at _ d _ p w _ "sh_size" Hm Hl64)), Hz.
  rewrite <- Heq, <- (app_assoc hdr). fold (image es).
  assert (forall es, image es = section_image T (hdr ++ y) es (z ++ concat (before ++ d :: after) ++ post)) as Himg
    by (intros es'; unfold image, section_image; by rewrite <- !app_assoc).
  assert (length (concat (map (dyn_bytes T) es)) = 2 * dyn_word * length es)%nat as Hd by apply dyns_length.
  assert (Z.of_nat (length (hdr ++ y)) + Z.of_nat (2 * dyn_word * length es) <= Z.of_nat (length (image es))) as Hin
    by (rewrite Himg; unfold section_image; rewrite !length_app, Hd; lia).
  rewrite (bind_returns file_size _ _ (Mapping (image es) p w) (Z.of_nat (length (image es)))) by done.
  rewrite uw_small; cycle 1.
  { split; [lia |]. pose proof size_word. apply Z.lt_le_trans with (2 ^ 31); [lia |]. apply Z.pow_le_mono_r; lia. }
  rewrite (proj2 (Z.ltb_ge _ _)) by lia.
  destruct (HQ (hdr ++ y) (z ++ concat (before ++ d :: after) ++ post) (S fuel) p w) as (r & p' & Hrun & Hr); [by rewrite <- Himg | lia |].
  exists r, p'. split; [| done]. rewrite <- Himg in Hrun. destruct r as [es'|]; cbn [loop_result] in Hrun; [| by rewrite (bind_exits _ _ _ _ Hrun)].
  rewrite (bind_returns _ _ _ _ _ Hrun), <- Himg. unfold u32. rewrite uw_small by lia. f_equal. lia.
Qed.

Lemma aligned_programs_length (o : cleaner_options) L : well_formed L ->
  structures (ElfProgramHeaderType T) (first_program L :: map (written o (aligned T)) (programs L))
  /\ length (concat (first_program L :: map (written o (aligned T)) (programs L))) = length (concat (program_table L)).
Proof.
  intros HL. pose proof (wf_programs _ HL) as Hs.
  assert (structures (ElfProgramHeaderType T) (first_program L :: map (written o (aligned T)) (programs L))) as Hs'.
  { unfold program_table in Hs. apply Forall_cons in Hs as [H0 Hs]. apply Forall_cons. split; [done |]. apply Forall_map.
    apply (Forall_impl _ _ _ Hs). intros m. apply aligned_structure. }
  split; [done |]. rewrite !(concat_length (ElfProgramHeaderType T)) by done. unfold program_table. cbn [length]. by rewrite length_map.
Qed.

(** The section headers, once the program headers are done. *)
Lemma section_headers_ok (o : cleaner_options) (file_name : list byte) (fuel : nat) L (y p w : list byte) (Q : option (list dyn) -> Prop) :
  let is_aarch64 := is_aarch64_file L in
  entries_become o file_name is_aarch64 (dynamic L) Q -> keeps_number (dynamic L) Q -> well_formed L -> length y = length (concat (program_table L) ++ gap L) ->
  (length (section_table L) + 2 * length (dynamic L) < fuel)%nat ->
  exists r p',
    section_headers T o file_name fuel is_aarch64 (field_value (ElfHeaderType T) "e_shoff" (header L)) 1
      (Mapping (header L ++ (y ++ concat (map (dyn_bytes T) (dynamic L)) ++ gap' L) ++ concat (section_table L) ++ rest L) p w)
    = match r with
      | Some es' => Returns (true, Mapping (header L ++ (y ++ concat (map (dyn_bytes T) es') ++ gap' L)
          ++ concat (section_table (treated o es' L)) ++ rest L) p' w)
      | None => Exits SIGBUS
      end
    /\ Q r.
Proof.
  intros is_aarch64 HQ Hnum HL Hy Hf. pose proof (wf_length _ HL) as Hlen. unfold file_image in Hlen. pose proof (wf_plain _ HL) as Hpl.
  apply Forall_app in Hpl as [Hpl Hpl']. pose proof (wf_header _ HL) as Hh. pose proof (wf_sections _ HL) as Hs.
  assert (length (section_table L) = S (length (sections L) + S (length (sections' L))))%nat as Hst
    by (unfold section_table; cbn [length]; rewrite length_app; done).
  rewrite wf_shoff by done. unfold before_dynamic.
  set (x := y ++ concat (map (dyn_bytes T) (dynamic L)) ++ gap' L).
  assert (length (header L ++ x) = length ((header L ++ concat (program_table L) ++ gap L) ++ concat (map (dyn_bytes T) (dynamic L)) ++ gap' L))
    as <- by (unfold x; rewrite !length_app in *; lia).
  assert (Z.of_nat (length (header L ++ x ++ concat (section_table L) ++ rest L)) < 2 ^ 31) as Hl1
    by (unfold x; rewrite !length_app in *; lia).
  assert (Z.of_nat (length (section_table L)) < 2 ^ 31) as H31.
  { pose proof size_word. pose proof (field_inside (ElfSectionHeaderType T) "sh_size").
    rewrite !length_app, (concat_length _ (section_table L) Hs) in Hl1. nia. }
  assert (exists f, fuel = (length (sections L) + S (length (sections' L) + S f)) /\ 2 * length (dynamic L) <= length (sections' L) + S f)%nat
    as (f & -> & Hf2) by (exists (fuel - (length (sections L) + length (sections' L) + 2))%nat; lia).
  change 1 with (Z.of_nat (length [null_section L])).
  destruct (plain_headers T o file_name (S (length (sections' L) + S f)) is_aarch64 (header L) x [null_section L] (sections L)
              (dynamic_header L :: sections' L) (rest L) p w) as [p1 Hp1]; try done; [by rewrite wf_shnum | cbn [app]; fold (section_table L); lia |].
  cbn [app] in Hp1. fold (section_table L) in Hp1. rewrite Hp1. clear Hp1.
  set (before := null_section L :: map (written o (forgotten T o)) (sections L)).
  assert (length before = length [null_section L] + length (sections L))%nat as Hbl by (unfold before; cbn; by rewrite length_map).
  rewrite <- Hbl.
  change (null_section L :: map (written o (forgotten T o)) (sections L) ++ dynamic_header L :: sections' L) with (before ++ dynamic_header L :: sections' L).
  assert (structures (ElfSectionHeaderType T) (before ++ dynamic_header L :: sections' L)) as Hs2.
  { unfold section_table in Hs. apply Forall_cons in Hs as [H0 Hs]. apply Forall_app in Hs as [Hs1 Hs2]. apply Forall_cons. split; [done |].
    apply Forall_app. split; [by apply forgotten_structures | done]. }
  assert (length (concat (before ++ dynamic_header L :: sections' L)) = length (concat (section_table L))) as Hcl.
  { rewrite !(concat_length (ElfSectionHeaderType T)) by done. f_equal. rewrite length_app, Hbl, Hst. cbn. lia. }
  destruct (dynamic_step o file_name (length (sections' L) + S f) is_aarch64 (header L) y (gap' L) (dynamic L) before (sections' L)
              (dynamic_header L) (rest L) p1 w Q) as (r & p2 & Hstep & Hr); try done.
  - rewrite wf_shnum, Hst by done. rewrite length_app, Hbl. cbn [length]. lia.
  - rewrite Hbl. cbn [length]. lia.
  - by apply wf_type.
  - rewrite wf_offset by done. f_equal. unfold before_dynamic. rewrite !(length_app (header L)). lia.
  - by apply wf_size.
  - fold x. rewrite !length_app in *. lia.
  - cbv zeta in Hstep. fold x in Hstep. rewrite Hstep. clear Hstep. exists r. destruct r as [es'|]; [| by exists p2].
    pose proof (Hnum es' Hr) as Hes.
    set (x' := y ++ concat (map (dyn_bytes T) es') ++ gap' L).
    assert (length x' = length x) as Hx by (unfold x, x'; rewrite !length_app, !dyns_length by done; by rewrite Hes).
    assert (length (header L ++ x) = length (header L ++ x')) as -> by (rewrite !length_app; lia).
    replace (length before + 1)%nat with (length (before ++ [dynamic_header L])) by (rewrite length_app; done).
    assert (forall l, before ++ dynamic_header L :: l = (before ++ [dynamic_header L]) ++ l) as Happ by (intros l; by rewrite <- app_assoc).
    rewrite (Happ (sections' L)) in Hs2, Hcl |- *.
    destruct (plain_rest T o file_name f is_aarch64 (header L) x' (before ++ [dynamic_header L]) (sections' L) (rest L) p2 w)
      as [p3 ->]; try done; rewrite <- ?(Happ (sections' L)).
    + rewrite wf_shnum, Hst by done. rewrite length_app, Hbl. cbn [length]. lia.
    + rewrite length_app, Hbl. cbn [length]. lia.
    + rewrite (Happ (sections' L)). rewrite !length_app in *. lia.
    + exists p3. split; [| done]. by rewrite <- (Happ (map _ _)).
Qed.

Lemma process_elf_ok (o : cleaner_options) (file_name : list byte) (fuel : nat) L (p w : list byte) (Q : option (list dyn) -> Prop) :
  entries_become o file_name (is_aarch64_file L) (dynamic L) Q -> keeps_number (dynamic L) Q -> well_formed L ->
  (length (programs L) + length (section_table L) + 2 * length (dynamic L) < fuel)%nat ->
  exists r p',
    process_elf T o file_name fuel (Mapping (file_image L) p w)
    = match r with Some es' => Returns (true, Mapping (file_image (treated o es' L)) p' w) | None => Exits SIGBUS end
    /\ Q r.
Proof.
  intros HQ Hnum HL Hf. pose proof (wf_length _ HL) as Hlen. pose proof (wf_header _ HL) as Hh. pose proof header_room. pose proof program_size.
  pose proof (wf_programs _ HL) as Hps. destruct (aligned_programs_length o L HL) as [Hps' Hal].
  set (n := length (file_image L)) in *. assert (n = length (file_image L)) as En by done. unfold file_image in En. rewrite !length_app in En.
  pose proof (concat_length _ _ Hps) as Hc. pose proof (concat_length _ _ (wf_sections _ HL)) as Hc'.
  assert (Z.of_nat (length (file_image L)) < 2 ^ 64) as H64 by lia. unfold process_elf.
  rewrite (bind_returns file_size _ _ (Mapping (file_image L) p w) (Z.of_nat n)) by done. cbv zeta.
  rewrite (proj2 (Z.ltb_ge _ _)) by lia. unfold file_image in H64 |- *.
  rewrite !get_header by done. rewrite wf_phoff, wf_phnum by done.
  unfold u64. rewrite uw_small by lia. rewrite (proj2 (Z.ltb_ge _ _)) by lia.
  set (post := gap L ++ concat (map (dyn_bytes T) (dynamic L)) ++ gap' L ++ concat (section_table L) ++ rest L) in *.
  destruct (program_headers_ok T o file_name fuel (header L) [] [first_program L] (programs L) post p w) as [p1 Hp1]; try done.
  - by rewrite wf_phnum.
  - change (Z.of_nat (length (program_table L)) < 2 ^ 31). nia.
  - lia.
  - cbn [app] in Hp1. rewrite app_nil_r in Hp1. change (first_program L :: programs L) with (program_table L) in Hp1.
    change (Z.of_nat (length [first_program L])) with 1 in Hp1. rewrite (bind_returns _ _ _ _ _ Hp1). clear Hp1.
    assert (Z.of_nat (length (header L ++ concat (first_program L :: map (written o (aligned T)) (programs L)) ++ post)) < 2 ^ 64) as H64'
      by (rewrite !length_app in *; lia).
    rewrite !get_header by done. rewrite wf_shoff, wf_shnum by done.
    rewrite uw_small by (unfold before_dynamic; rewrite !length_app; nia).
    rewrite (proj2 (Z.ltb_ge _ _)) by (unfold before_dynamic; rewrite !length_app; nia). rewrite <- wf_shoff by done.
    destruct (section_headers_ok o file_name fuel L (concat (first_program L :: map (written o (aligned T)) (programs L)) ++ gap L) p1 w Q HQ Hnum HL)
      as (r & p2 & Hrun & Hr); [by rewrite !length_app, Hal | lia |].
    exists r, p2. split; [| exact Hr]. unfold post. rewrite <- !app_assoc in Hrun. etrans; [exact Hrun |]. destruct r as [es'|]; [| done].
    unfold file_image. by rewrite <- !app_assoc.
Qed.

End Whole.

(** ** The command of the build *)

(** The options of a target API level. *)
Definition options_for (level : Z) : cleaner_options :=
  Options (if 23 <=? level then Z.lor (Z.lor DF_1_NOW DF_1_GLOBAL) DF_1_NODELETE else Z.lor DF_1_NOW DF_1_GLOBAL) level false false.

(** The six bytes that say which types a file has. *)
Definition identified (T : elf_types) (hdr : list byte) : Prop :=
  exists c, take 6 hdr = [x7f; x45; x4c; x46; c; x01] /\ (c = x01 /\ T = Elf32 \/ c = x02 /\ T = Elf64).

Lemma argmatch_name `{Platform} (argv : list (list byte)) (sstr lstr name : list byte) (skip : nat) :
  argv !! (skip + 1)%nat = Some name -> head name <> Some "-"%byte -> head sstr = Some "-"%byte -> head lstr = Some "-"%byte ->
  argmatch argv sstr lstr 3 false skip = Returns (false, None, skip).
Proof.
  intros Hn Hh Hs Hl. unfold argmatch. rewrite Hn. destruct sstr as [|c sstr]; [done |]. destruct lstr as [|c' lstr]; [done |].
  injection Hs as ->. injection Hl as ->. destruct name as [|b name]; [done |].
  assert (Byte.eqb b "-"%byte = false) as Hb by (destruct (Byte.eqb b "-"%byte) eqn:E; [apply Byte.byte_dec_bl in E; by subst | done]).
  unfold strcmp_eq. cbn [beq]. rewrite Hb. cbn [andb]. destruct (strsep "="%byte (b :: name)) as [tok val].
  cbn [length take beq]. rewrite Hb. cbn [andb negb]. by rewrite orb_true_r.
Qed.

Section Command.
Context `{P : Platform} (reason : list byte -> list byte).

(** The file after the run, or none when the program left it. *)
Definition file_result (T : elf_types) `{ElfTypesOk T} (file_name : list byte) (d : disk) (L : option elf_parts) (out : list byte) : outcome (Z * disk) :=
  match L with
  | Some L => Returns (0, Disk (replace_file file_name (ElfFile (file_image T L) true true true true) (files d)) out (stderr d))
  | None => Exits SIGBUS
  end.

Lemma parse_file_ok (T : elf_types) `{ElfTypesOk T} (o : cleaner_options) (file_name : list byte) (fuel : nat) (L : elf_parts) (d : disk)
    (Q : option (list dyn) -> Prop) :
  entries_become T o file_name (is_aarch64_file T L) (dynamic L) Q -> keeps_number (dynamic L) Q -> well_formed T L -> identified T (header L) ->
  files d file_name = Some (ElfFile (file_image T L) true true true true) ->
  (length (programs L) + length (section_table L) + 2 * length (dynamic L) < fuel)%nat ->
  exists r out, parse_file reason fuel o file_name d = file_result T file_name d (option_map (fun es' => treated T o es' L) r) out /\ Q r.
Proof.
  intros HQ Hnum HL (c & Hid & Hc) Hfile Hf.
  destruct (process_elf_ok T o file_name fuel L (stdout d) (stderr d) Q HQ Hnum HL Hf) as (r & out & Hrun & Hr).
  exists r, out. split; [| done]. unfold parse_file. rewrite Hfile. cbn [contents fstat_ok mmap_ok negb].
  assert (Z.of_nat (length (file_image T L)) <? Z.of_nat (sizeof Elf32_Ehdr) = false) as ->.
  { apply Z.ltb_ge. unfold file_image. rewrite length_app, (wf_header _ _ HL). change (Z.of_nat (sizeof Elf32_Ehdr)) with 52.
    destruct Hc as [[_ ->] | [_ ->]]; cbn [sizeof foldr snd ElfHeaderType Elf32 Elf64 Elf32_Ehdr Elf64_Ehdr]; lia. }
  assert (exists l, file_image T L = x7f :: x45 :: x4c :: x46 :: c :: x01 :: l) as [l Hl].
  { unfold file_image. rewrite <- (take_drop 6 (header L)), Hid. cbn [app]. by eexists. }
  rewrite Hl in Hrun |- *. unfold byte_at. cbn [nth].
  assert ((if b2z c =? 1 then Some Elf32 else if b2z c =? 2 then Some Elf64 else None) = Some T) as HT
    by (destruct Hc as [[-> ->] | [-> ->]]; reflexivity).
  cbn -[process_elf b2z Elf32 Elf64]. change (b2z x7f =? 127) with true. change (b2z x45 =? 69) with true. change (b2z x4c =? 76) with true.
  change (b2z x46 =? 70) with true. change (b2z x01 =? 1) with true. cbn [andb negb]. rewrite HT, Hrun. by destruct r.
Qed.


Lemma elf_main_dry (fuel : nat) (prog level file_name : list byte) (d : disk) : head file_name <> Some "-"%byte ->
  elf_main reason fuel [prog; text "--api-level"; level; text "--dry-run"; file_name] d
  = parse_files reason fuel ((options_for (atoi level)) <| dry_run := true |>) [file_name] d.
Proof.
  intros Hname. unfold elf_main. cbn [length Nat.eqb]. change (argmatch _ (text "-help") _ _ _ _) with (Returns (false, @None Z, 0%nat)). cbn [obind].
  change (argmatch _ (text "-version") _ _ _ _) with (Returns (false, @None Z, 0%nat)). cbn [obind].
  change (argmatch _ (text "-api-level") _ _ _ _) with (Returns (true, Some (atoi level), 2%nat)). cbn [obind].
  change (argmatch _ (text "-dry-run") _ _ _ _) with (Returns (true, @None Z, 3%nat)). cbn [obind].
  rewrite (argmatch_name _ (text "-quiet") _ file_name) by done. cbn [obind drop plus].
  match goal with |- parse_files _ _ ?x _ _ = parse_files _ _ ?y _ _ => assert (x = y) as ->; [| done] end.
  unfold options_for. cbn -[Z.leb Z.lor]. by destruct (23 <=? atoi level).
Qed.


(** C24: What a dry run, elf-cleaner --api-level N --dry-run FILE, does to a well-formed file.  It
    keeps every byte outside the dynamic section and every entry of the section, but it still
    exchanges entries.  Either it succeeds and leaves the entries in some order, or the index of
    the last entry wraps around and the program ends with an access outside the file.  The order
    is unchanged when no entry would be removed.  The program leaves the file when the first entry
    would be removed and the others are null.  And when a single entry would be removed that has two
    others that are not null or more behind it, the last of them takes its place and it is put before the last but one. *)
Theorem dry_run_reorders (T : elf_types) `{ElfTypesOk T} (fuel : nat) (prog level file_name : list byte) (L : elf_parts) (d : disk) :
  let o := (options_for (atoi level)) <| dry_run := true |> in
  well_formed T L -> identified T (header L) -> head file_name <> Some "-"%byte ->
  files d file_name = Some (ElfFile (file_image T L) true true true true) ->
  (length (programs L) + length (section_table L) + 2 * length (dynamic L) < fuel)%nat ->
  exists r out,
    elf_main reason fuel [prog; text "--api-level"; level; text "--dry-run"; file_name] d
    = match r with
      | Some es' => Returns (0, Disk (replace_file file_name (ElfFile (file_image T (L <| dynamic := es' |>)) true true true true) (files d)) out (stderr d))
      | None => Exits SIGBUS
      end
    /\ dry_result o (is_aarch64_file T L) (dynamic L) r.
Proof.
  intros o HL Hid Hname Hfile Hf.
  pose proof (dry_entries_become T o file_name (is_aarch64_file T L) (dynamic L) eq_refl (wf_dynamic _ _ HL) (wf_entries _ _ HL)) as HQ.
  destruct (parse_file_ok T o file_name fuel L d _ HQ) as (r & out & Hrun & Hres); try done.
  { intros es' Hp. by rewrite (dr_perm _ _ _ _ Hp es' eq_refl). }
  exists r, out. split; [| done]. rewrite elf_main_dry by done. cbn [parse_files]. fold o. rewrite Hrun. destruct r as [es'|]; [| done].
  cbn [option_map file_result]. by rewrite treated_dry.
Qed.

End Command.

(** ** A small file *)

Definition demo_header : list byte :=
  let set f v m := with_field Elf64_Ehdr f v m in
  set "e_machine"%string 183 (set "e_phoff"%string 64 (set "e_phnum"%string 2 (set "e_shoff"%string 240 (set "e_shnum"%string 3
    ([x7f; x45; x4c; x46; x02; x01] ++ repeat x00 58))))).

(** A TLS segment that is not aligned, a dynamic section with a search path between two other
    entries, and a version section. *)
Definition demo_file : elf_parts := {|
  header := demo_header;
  first_program := repeat x00 56;
  programs := [with_field Elf64_Phdr "p_type" PT_TLS (with_field Elf64_Phdr "p_align" 16 (repeat x00 56))];
  gap := [];
  dynamic := [Dyn 1 100; Dyn DT_RPATH 200; Dyn DT_FLAGS_1 9; Dyn DT_NULL 0];
  gap' := [];
  null_section := repeat x00 64;
  sections := [with_field Elf64_Shdr "sh_type" SHT_GNU_versym (repeat x00 64)];
  dynamic_header := with_field Elf64_Shdr "sh_type" SHT_DYNAMIC (with_field Elf64_Shdr "sh_offset" 176
                      (with_field Elf64_Shdr "sh_size" 64 (repeat x00 64)));
  sections' := [];
  rest := text ".dynamic";
|}.

Ltac demo_well_formed :=
  constructor;
  [vm_compute; reflexivity | repeat apply Forall_cons_2; [vm_compute; reflexivity .. | apply Forall_nil_2]
  | repeat apply Forall_cons_2; [vm_compute; reflexivity .. | apply Forall_nil_2]
  | vm_compute; reflexivity | vm_compute; reflexivity | vm_compute; reflexivity | vm_compute; reflexivity
  | apply Forall_singleton; vm_compute; discriminate
  | vm_compute; reflexivity | vm_compute; reflexivity | vm_compute; reflexivity | discriminate
  | repeat apply Forall_cons_2; [.. | apply Forall_nil_2]; (split; (split; [vm_compute; discriminate | vm_compute; reflexivity]))
  | vm_compute; reflexivity].




(** A file whose second entry is a search path, with two entries behind it. *)
Definition demo_dry : elf_parts := demo_file <| dynamic := [Dyn 1 100; Dyn DT_RPATH 200; Dyn 5 300; Dyn 6 400] |>.

Lemma demo_dry_wf : well_formed Elf64 demo_dry.
Proof. demo_well_formed. Qed.

Definition dry_disk : disk := Disk (fun _ => Some (ElfFile (file_image Elf64 demo_dry) true true true true)) [] [].

Lemma dry_run_reorders_witness :
  exists out,
    @elf_main lp64_x86 (fun _ => []) 100 [text "elf-cleaner"; text "--api-level"; text "21"; text "--dry-run"; text "libwg.so"] dry_disk
    = Returns (0, Disk (replace_file (text "libwg.so")
                          (ElfFile (file_image Elf64 (demo_dry <| dynamic := [Dyn 1 100; Dyn 6 400; Dyn DT_RPATH 200; Dyn 5 300] |>)) true true true true)
                          (files dry_disk)) out []).
Proof.
  destruct (@dry_run_reorders lp64_x86 (fun _ => []) Elf64 _ 100 (text "elf-cleaner") (text "21") (text "libwg.so") demo_dry dry_disk)
    as (r & out & Hrun & Hres).
  - exact demo_dry_wf.
  - exists x02. split; [reflexivity | by right].
  - discriminate.
  - reflexivity.
  - cbn. lia.
  - assert (r = Some [Dyn 1 100; Dyn 6 400; Dyn DT_RPATH 200; Dyn 5 300]) as Hr.
    { apply (dr_moved _ _ _ _ Hres [Dyn 1 100] (Dyn DT_RPATH 200) [] (Dyn 5 300) (Dyn 6 400) []); [reflexivity | vm_compute; reflexivity | | discriminate | constructor].
      repeat apply Forall_cons_2; [vm_compute; reflexivity .. | apply Forall_nil_2]. }
    rewrite Hr in Hrun. exists out. exact Hrun.
Defined.
