(* ===== verification/NatPunch.v ===== *)
(** * NAT hole punching (contrib/nat-hole-punching)

    A server remembers from which address each public key last sent a datagram and answers with
    the address of another key; a client asks for the addresses of the peers of its interface
    until it knows them all, and sets them as endpoints.  The client uses a raw socket with a
    packet filter, so that the tunnel keeps its own socket.  Addresses and ports are bytes in
    network order. *)

From S2P Require Import Prelude CString AndroidShell.
#[local] Open Scope Z_scope.
#[local] Open Scope awg_scope.

(** The big-endian integer a buffer holds, and its bytes. *)
Definition be_bytes (s : list byte) : Z := le_bytes (rev s).
Definition bytes_be (n : nat) (z : Z) : list byte := rev (bytes_le n z).

Definition PORT : Z := 49918.

(** ** The server (nat-punch-server.c) *)

Definition MAX_ENTRIES : nat := Z.to_nat 65536.

Record entry := Entry {
  pubkey : list byte;
  ip : list byte;
  port : list byte;
}.

(** The static variables. *)
Record server := Server {
  entries : list entry;
  next_entry : Z;
}.

#[export] Instance eta_entry : Eta entry := fun r => Entry (pubkey r) (ip r) (port r).

Definition zero_entry : entry := Entry (repeat x00 32) (repeat x00 4) (repeat x00 2).
Definition initial_server : server := Server (repeat zero_entry MAX_ENTRIES) 0.

(** The index of the entry. *)
Fixpoint find_from (es : list entry) (key : list byte) (i : nat) : option nat :=
  match es with
  | [] => None
  | e :: es => if beq (pubkey e) key then Some i else find_from es key (S i)
  end.

Definition find_entry (s : server) (key : list byte) : option nat := find_from (entries s) key 0.

Definition find_or_insert_entry (s : server) (key : list byte) : server * nat :=
  match find_entry s key with
  | Some i => (s, i)
  | None =>
      let i := Z.to_nat (next_entry s mod Z.of_nat MAX_ENTRIES) in
      (Server (alter (fun e => e <| pubkey := key |>) i (entries s)) (u32 (next_entry s + 1)), i)
  end.

(** Where a datagram comes from, and what it holds. *)
Record datagram := Datagram {
  from_ip : list byte;
  from_port : list byte;
  payload : list byte;
}.

(** A turn of the loop: the server after it, and the answer to the sender, if there is one.  A
    longer datagram is cut to the size of the packet. *)
Definition serve (s : server) (d : datagram) : server * option (list byte) :=
  if (length (payload d) <? 64)%nat then (s, None)
  else
    let my_pubkey := take 32 (payload d) in
    let their_pubkey := take 32 (drop 32 (payload d)) in
    let '(s, i) := find_or_insert_entry s my_pubkey in
    let s := Server (alter (fun e => e <| ip := from_ip d |> <| port := from_port d |>) i (entries s)) (next_entry s) in
    match find_entry s their_pubkey with
    | Some j => (s, Some (match entries s !! j with Some e => ip e ++ port e | None => [] end))
    | None => (s, Some [])
    end.

Fixpoint serve_all (s : server) (ds : list datagram) : server * list (option (list byte)) :=
  match ds with
  | [] => (s, [])
  | d :: ds => let '(s, a) := serve s d in let '(s, l) := serve_all s ds in (s, a :: l)
  end.

(** [main]: the errors of the three calls before the loop, 0 for none; the loop has no end. *)
Definition server_main (socket_errno setsockopt_errno bind_errno : Z) (ds : list datagram) : Z + list (option (list byte)) :=
  if negb (socket_errno =? 0) then inl socket_errno
  else if negb (setsockopt_errno =? 0) then inl setsockopt_errno
  else if negb (bind_errno =? 0) then inl bind_errno
  else inr (snd (serve_all initial_server ds)).

(** ** The packet filter *)

Inductive sock_filter :=
| BPF_LD_W_ABS (k : Z)
| BPF_LD_H_ABS (k : Z)
| BPF_JEQ_K (k : Z) (jt jf : nat)
| BPF_RET_K (k : Z).

(** The kernel's machine: the bytes of a packet that are kept; a load outside of it drops it. *)
Fixpoint bpf_run (fuel : nat) (prog : list sock_filter) (a : Z) (packet : list byte) : Z :=
  let at_ k n := take n (drop (Z.to_nat k) packet) in
  match fuel, prog with
  | S fuel, BPF_LD_W_ABS k :: prog =>
      if (length (at_ k 4%nat) <? 4)%nat then 0 else bpf_run fuel prog (be_bytes (at_ k 4%nat)) packet
  | S fuel, BPF_LD_H_ABS k :: prog =>
      if (length (at_ k 2%nat) <? 2)%nat then 0 else bpf_run fuel prog (be_bytes (at_ k 2%nat)) packet
  | S fuel, BPF_JEQ_K k jt jf :: prog => bpf_run fuel (drop (if a =? k then jt else jf) prog) a packet
  | S _, BPF_RET_K k :: _ => u32 k
  | _, _ => 0
  end.

(** [apply_bpf]. *)
Definition bpf_filter (port ip : Z) : list sock_filter :=
  [BPF_LD_W_ABS 12; BPF_JEQ_K ip 0 5; BPF_LD_H_ABS 20; BPF_JEQ_K PORT 0 3; BPF_LD_H_ABS 22; BPF_JEQ_K port 0 1; BPF_RET_K (-1); BPF_RET_K 0].

Definition accepts (prog : list sock_filter) (packet : list byte) : bool := negb (bpf_run (length prog) prog 0 packet =? 0).

(** ** The client (nat-punch-client.c) *)

Definition MAX_PEERS : nat := Z.to_nat 65536.
Definition EPERM : Z := 1.
Definition EINVAL : Z := 22.
Definition SEGV : Z := 128 + 11.

(** What the client runs on: [popen] gives an error or the output of a command, [sendto] and
    [recv] errors or the first packet that the filter accepts, [b64_pton] the bytes of at most
    33 of a text. *)
Class Punch := {
  host : Type;
  h_getuid : Z;
  h_popen : host -> list byte -> host * (Z + list byte);
  h_gethostbyname2 : host -> list byte -> Z + list byte;
  h_b64_pton : list byte -> option (list byte);
  h_socket : host -> Z;
  h_setsockopt : host -> Z;
  h_sendto : host -> list byte -> list byte -> host * Z;
  h_recv : host -> (list byte -> bool) -> host * (Z + list byte);
}.

(** [fgets(buf, n, f)]: the bytes it stores, none at the end, and what is left. *)
Fixpoint fgets (n : nat) (s : list byte) : list byte * list byte :=
  match n, s with
  | S (S _ as n), c :: s => if Byte.eqb c x0a then ([c], s) else let '(l, r) := fgets n s in (c :: l, r)
  | _, _ => ([], s)
  end.

Definition strip_newline (s : list byte) : list byte :=
  match rev s with
  | c :: r => if Byte.eqb c x0a then rev r else s
  | [] => s
  end.

(** [printf("%d.%d.%d.%d")] of an address, as [inet_ntoa] does. *)
Definition inet_ntoa (a : list byte) : list byte :=
  let n i := print_u (b2z (byte_at a i)) in n 0%nat ++ text "." ++ n 1%nat ++ text "." ++ n 2%nat ++ text "." ++ n 3%nat.

Section Client.
Context `{Platform} `{Punch}.

(** [cmd]: the first line of the output, or NULL. *)
Definition punch_cmd (h : host) (line : list byte) : outcome (host * option (list byte)) :=
  match h_popen h (take 2046 line) with
  | (_, inl e) => Exits e
  | (h, inr out) =>
      match c_str (fst (fgets 2048 out)) with
      | [] => Returns (h, None)
      | buf => Returns (h, Some (strip_newline buf))
      end
  end.

(** The loop of [read_peers]: a line of 44 characters is read without its newline, which is the
    next string and too short; an index behind the array is out of bounds. *)
Fixpoint punch_peers_loop (fuel : nat) (out : list byte) (peers : list (list byte)) : outcome (list (list byte)) :=
  match fuel with
  | O => OutOfFuel
  | S fuel =>
      match fgets 45 out with
      | ([], _) => Returns peers
      | (buf, out) =>
          if (MAX_PEERS <=? length peers)%nat then Exits SEGV
          else
            let key := c_str buf in
            if negb ((length key =? 44)%nat || (length key =? 45)%nat) then punch_peers_loop fuel out peers
            else punch_peers_loop fuel out (peers ++ [strip_newline key])
      end
  end.

Definition punch_peers (h : host) (interface : list byte) : outcome (host * list (list byte)) :=
  match h_popen h (take 2046 (text "wg show " ++ interface ++ text " peers")) with
  | (_, inl e) => Exits e
  | (h, inr out) => obind (punch_peers_loop (S (length out)) out []) (fun peers => Returns (h, peers))
  end.

(** NULL is read. *)
Definition unbase64 (srckey : option (list byte)) : outcome (list byte) :=
  match srckey with
  | None => Exits SEGV
  | Some s =>
      match h_b64_pton s with
      | Some key => if (length key =? 32)%nat then Returns key else Exits EINVAL
      | None => Exits EINVAL
      end
  end.

(** The UDP header and the keys. *)
Definition punch_packet (source my_pubkey their_pubkey : list byte) : list byte :=
  source ++ bytes_be 2 PORT ++ bytes_be 2 72 ++ [x00; x00] ++ my_pubkey ++ their_pubkey.

Definition set_command (interface key ip port : list byte) : list byte :=
  text "wg set " ++ interface ++ text " peer " ++ key ++ text " persistent-keepalive 25 endpoint "
  ++ inet_ntoa ip ++ text ":" ++ print_u (be_bytes port).

(** What an iteration over a peer does: the error that ends the program, or the host, what is
    printed, and whether the address came. *)
Definition ask_peer (h : host) (addr source my_pubkey interface : list byte) (accept : list byte -> bool) (key : list byte) :
    outcome (host * list byte * (Z + bool)) :=
  let asked := text "[+] Requesting IP and port of " ++ key ++ text ": " in
  obind (unbase64 (Some key)) (fun their_pubkey =>
    match h_sendto h addr (punch_packet source my_pubkey their_pubkey) with
    | (h, 0) =>
        match h_recv h accept with
        | (h, inl e) => Returns (h, asked ++ [x0a], inl e)
        | (h, inr packet) =>
            let reply := take 34 packet in
            if negb (length reply =? 34)%nat then Returns (h, asked ++ text "server does not yet have it" ++ [x0a], inr false)
            else
              let ip := take 4 (drop 28 reply) in
              let port := take 2 (drop 32 reply) in
              obind (punch_cmd h (set_command interface key ip port)) (fun '(h, _) =>
                Returns (h, asked ++ inet_ntoa ip ++ text ":" ++ print_u (be_bytes port) ++ [x0a], inr true))
        end
    | (h, e) => Returns (h, asked ++ [x0a], inl e)
    end).

(** The loop over the peers, those with their flag; [inl] is a return from [main]. *)
Fixpoint ask_peers (h : host) (addr source my_pubkey interface : list byte) (accept : list byte -> bool) (peers : list (list byte * bool)) :
    outcome (host * list byte * (Z + list (list byte * bool))) :=
  match peers with
  | [] => Returns (h, [], inr [])
  | (key, true) :: peers =>
      obind (ask_peers h addr source my_pubkey interface accept peers) (fun '(h, out, l) =>
        Returns (h, out, match l with inl e => inl e | inr l => inr ((key, true) :: l) end))
  | (key, false) :: peers =>
      obind (ask_peer h addr source my_pubkey interface accept key) (fun '(h, out, seen) =>
        match seen with
        | inl e => Returns (h, out, inl e)
        | inr have_seen =>
            obind (ask_peers h addr source my_pubkey interface accept peers) (fun '(h, out', l) =>
              Returns (h, out ++ out', match l with inl e => inl e | inr l => inr ((key, have_seen) :: l) end))
        end)
  end.

(** [check_again], with the number of rounds left. *)
Fixpoint check_again (fuel : nat) (h : host) (addr source my_pubkey interface : list byte) (accept : list byte -> bool)
    (peers : list (list byte * bool)) : outcome (host * list byte * Z) :=
  match fuel with
  | O => OutOfFuel
  | S fuel =>
      obind (ask_peers h addr source my_pubkey interface accept peers) (fun '(h, out, l) =>
        match l with
        | inl e => Returns (h, out, e)
        | inr l =>
            if forallb snd l then Returns (h, out, 0)
            else obind (check_again fuel h addr source my_pubkey interface accept l) (fun '(h, out', ret) => Returns (h, out ++ out', ret))
        end)
  end.

Definition client_main (fuel : nat) (h : host) (argv : list (list byte)) : outcome (host * list byte * Z) :=
  match argv with
  | _ :: server :: interface :: _ =>
      if negb (h_getuid =? 0) then Returns (h, [], EPERM)
      else
        match h_gethostbyname2 h server with
        | inl h_errno => Returns (h, [], h_errno)
        | inr addr =>
            obind (punch_peers h interface) (fun '(h, peers) =>
            obind (punch_cmd h (text "ip link set " ++ interface ++ text " up")) (fun '(h, _) =>
            obind (punch_cmd h (text "wg show " ++ interface ++ text " public-key")) (fun '(h, line) =>
            obind (unbase64 line) (fun my_pubkey =>
            obind (punch_cmd h (text "wg show " ++ interface ++ text " listen-port")) (fun '(h, line) =>
            match line with
            | None => Exits SEGV
            | Some line =>
                let source := bytes_be 2 (atoi line) in
                if negb (h_socket h =? 0) then Returns (h, [], h_socket h)
                else if negb (h_setsockopt h =? 0) then Exits (h_setsockopt h)
                else check_again fuel h addr source my_pubkey interface (accepts (bpf_filter (be_bytes source) (be_bytes addr)))
                       (map (fun key => (key, false)) peers)
            end)))))
        end
  | _ => Returns (h, [], EINVAL)
  end.

End Client.
