(* ===== verification/NatPunchOk.v ===== *)
(** * What hole punching achieves (contrib/nat-hole-punching)

    As long as its table suffices, the server answers with the address from which a key sent
    last.  The filter of the client lets exactly the answers of the server through.  Together: a
    client whose peers are all known to the server sets each peer's endpoint to the address from
    which that peer was last heard, in one round. *)

From S2P Require Import Prelude CString AndroidShell NatPunch.
#[local] Open Scope Z_scope.
#[local] Open Scope awg_scope.

Lemma max_entries : Z.of_nat MAX_ENTRIES = 65536.
Proof. done. Qed.

#[local] Opaque MAX_ENTRIES.

Definition sender (d : datagram) : list byte := take 32 (payload d).
Definition wanted (d : datagram) : list byte := take 32 (drop 32 (payload d)).

(** The address from which a key sent last. *)
Definition last_seen (key : list byte) (ds : list datagram) : option (list byte) :=
  fold_left (fun acc d => if beq (sender d) key then Some (from_ip d ++ from_port d) else acc) ds None.

Lemma last_seen_snoc (key : list byte) (ds : list datagram) (d : datagram) :
  last_seen key (ds ++ [d]) = if beq (sender d) key then Some (from_ip d ++ from_port d) else last_seen key ds.
Proof. unfold last_seen. by rewrite fold_left_app. Qed.

Definition zero_pubkey : list byte := repeat x00 32.

Record request (senders : list (list byte)) (d : datagram) : Prop := Request {
  rq_length : (64 <= length (payload d))%nat;
  rq_sender : sender d <> zero_pubkey;
  rq_wanted : wanted d <> zero_pubkey;
  rq_known : sender d ∈ senders;
}.

(** The table holds the keys heard of in the order of their first datagrams. *)
Record knows (senders : list (list byte)) (s : server) (h : list datagram) (ks : list (list byte)) : Prop := Knows {
  kn_distinct : NoDup ks;
  kn_senders : forall k, k ∈ ks -> k ∈ senders /\ k <> zero_pubkey;
  kn_heard : forall k, k ∈ ks <-> is_Some (last_seen k h);
  kn_next : next_entry s = Z.of_nat (length ks);
  kn_length : length (entries s) = MAX_ENTRIES;
  kn_entries : forall i k, ks !! i = Some k -> exists e, entries s !! i = Some e /\ pubkey e = k /\ last_seen k h = Some (ip e ++ port e);
  kn_free : forall i e, entries s !! i = Some e -> (length ks <= i)%nat -> pubkey e = zero_pubkey;
}.

Lemma find_from_spec (es : list entry) (key : list byte) (n : nat) :
  match find_from es key n with
  | Some j => exists i e, j = (n + i)%nat /\ es !! i = Some e /\ pubkey e = key
  | None => forall i e, es !! i = Some e -> pubkey e <> key
  end.
Proof.
  revert n. induction es as [|e es IH]; intros n; cbn [find_from]; [done |].
  destruct (beq (pubkey e) key) eqn:E.
  - apply beq_eq in E. exists 0%nat, e. split; [lia | done].
  - specialize (IH (S n)). destruct (find_from es key (S n)) as [j|].
    + destruct IH as (i & x & -> & Hx & Hk). exists (S i), x. split; [lia | done].
    + intros [|i] x Hx; [| by apply (IH i)]. injection Hx as <-. intros <-. by rewrite beq_refl in E.
Qed.

Section Server.
Context (senders : list (list byte)) (Hroom : (length senders <= MAX_ENTRIES)%nat).

Lemma knows_room (s : server) (h : list datagram) (ks : list (list byte)) : knows senders s h ks -> (length ks <= MAX_ENTRIES)%nat.
Proof.
  intros Hk. transitivity (length senders); [| done]. apply submseteq_length, NoDup_submseteq; [apply (kn_distinct _ _ _ _ Hk) |].
  intros k Hin. by apply (kn_senders _ _ _ _ Hk).
Qed.

(** A key is found where it is. *)
Lemma find_entry_knows (s : server) (h : list datagram) (ks : list (list byte)) (key : list byte) :
  knows senders s h ks -> key <> zero_pubkey ->
  match find_entry s key with
  | Some i => ks !! i = Some key
  | None => key ∉ ks
  end.
Proof.
  intros Hk Hz. unfold find_entry. pose proof (find_from_spec (entries s) key 0) as Hf.
  destruct (find_from (entries s) key 0) as [j|].
  - destruct Hf as (i & e & -> & He & Hkey). cbn. destruct (decide (i < length ks)%nat) as [Hi | Hi].
    + destruct (lookup_lt_is_Some_2 ks i Hi) as [k Hik]. destruct (kn_entries _ _ _ _ Hk i k Hik) as (e' & He' & Hpk & _). congruence.
    + destruct Hz. rewrite <- Hkey. by apply (kn_free _ _ _ _ Hk i); [| lia].
  - intros [i Hi]%list_elem_of_lookup. destruct (kn_entries _ _ _ _ Hk i key Hi) as (e & He & Hpk & _). by apply (Hf i e).
Qed.

(** The table after an address was stored. *)
Lemma heard_again (s : server) (h : list datagram) (ks : list (list byte)) (d : datagram) (i : nat) :
  knows senders s h ks -> ks !! i = Some (sender d) ->
  knows senders (Server (alter (fun e => e <| ip := from_ip d |> <| port := from_port d |>) i (entries s)) (next_entry s)) (h ++ [d]) ks.
Proof.
  intros [Hnd Hs Hh Hn Hl He Hf] Hi. split; [done | done | | done | by cbn; rewrite length_alter | |]; cbn [entries next_entry].
  - intros k. rewrite last_seen_snoc, Hh. destruct (beq (sender d) k) eqn:E; [| done]. apply beq_eq in E as <-.
    split; [by eexists | intros _]. apply Hh, list_elem_of_lookup. by exists i.
  - intros j k Hj. destruct (He j k Hj) as (e & Hje & Hpk & Hls). rewrite last_seen_snoc. destruct (decide (j = i)) as [-> | Hne].
    + rewrite Hi in Hj. injection Hj as <-. rewrite beq_refl, list_lookup_alter_eq, Hje. by eexists.
    + rewrite list_lookup_alter_ne by done. exists e. split; [done |]. split; [done |].
      destruct (beq (sender d) k) eqn:E; [| done]. apply beq_eq in E as <-. destruct Hne. by apply (NoDup_lookup ks j i (sender d)).
  - intros j e Hj Hle. destruct (decide (j = i)) as [-> | Hne].
    + apply lookup_lt_Some in Hi. lia.
    + rewrite list_lookup_alter_ne in Hj by done. by apply (Hf j).
Qed.

(** The table after a new key was entered and its address stored. *)
Lemma heard_first (s : server) (h : list datagram) (ks : list (list byte)) (d : datagram) :
  knows senders s h ks -> request senders d -> sender d ∉ ks ->
  let i := Z.to_nat (next_entry s mod Z.of_nat MAX_ENTRIES) in
  knows senders
    (Server (alter (fun e => e <| ip := from_ip d |> <| port := from_port d |>) i (alter (fun e => e <| pubkey := sender d |>) i (entries s)))
       (u32 (next_entry s + 1))) (h ++ [d]) (ks ++ [sender d]).
Proof.
  intros Hk Hd Hnew. pose proof Hk as [Hnd Hs Hh Hn Hl He Hf].
  assert (NoDup (ks ++ [sender d])) as Hnd' by (apply NoDup_app; split; [done |]; split; [| apply NoDup_singleton]; intros k Hin ->%list_elem_of_singleton; done).
  assert (length (ks ++ [sender d]) <= MAX_ENTRIES)%nat as Hroom'.
  { transitivity (length senders); [| done]. apply submseteq_length, NoDup_submseteq; [done |]. intros k [Hin | ->%list_elem_of_singleton]%elem_of_app;
      [by apply Hs | by apply rq_known]. }
  rewrite length_app in Hroom'. cbn [length] in Hroom'. pose proof max_entries as Hmax.
  assert (Z.to_nat (next_entry s mod Z.of_nat MAX_ENTRIES) = length ks) as -> by (rewrite Hn, Z.mod_small by lia; lia).
  intros i. subst i. destruct (lookup_lt_is_Some_2 (entries s) (length ks)) as [e0 He0]; [lia |].
  split; [done | | | cbn; unfold u32; rewrite length_app, Hn, uw_small by lia; cbn; lia | cbn; by rewrite !length_alter | |]; cbn [entries].
  - intros k [Hin | ->%list_elem_of_singleton]%elem_of_app; [by apply Hs | by split; [apply rq_known | apply (rq_sender senders)]].
  - intros k. rewrite elem_of_app, list_elem_of_singleton, last_seen_snoc, Hh. destruct (beq (sender d) k) eqn:E.
    + apply beq_eq in E as <-. split; [by eexists | by right].
    + split; [intros [? | ->]; [done | by rewrite beq_refl in E] | by left].
  - intros j k Hj. rewrite last_seen_snoc. destruct (decide (j = length ks)) as [-> | Hne].
    + rewrite lookup_app_r, Nat.sub_diag in Hj by lia. injection Hj as <-. rewrite !list_lookup_alter_eq, He0, beq_refl.
      eexists. split; [reflexivity |]. split; reflexivity.
    + assert (j < length ks)%nat as Hlt by (apply lookup_lt_Some in Hj; rewrite length_app in Hj; cbn in Hj; lia).
      rewrite lookup_app_l in Hj by done. destruct (He j k Hj) as (e & Hje & Hpk & Hls). rewrite !list_lookup_alter_ne by done. exists e.
      split; [done |]. split; [done |]. destruct (beq (sender d) k) eqn:E; [| done]. apply beq_eq in E as <-. destruct Hnew.
      apply list_elem_of_lookup. by exists j.
  - intros j e Hj Hle. rewrite length_app in Hle. cbn in Hle. rewrite !list_lookup_alter_ne in Hj by lia. apply (Hf j e Hj). lia.
Qed.

(** A turn of the loop. *)
Lemma serve_knows (s : server) (h : list datagram) (ks : list (list byte)) (d : datagram) : knows senders s h ks -> request senders d ->
  exists s' ks', serve s d = (s', Some (default [] (last_seen (wanted d) (h ++ [d])))) /\ knows senders s' (h ++ [d]) ks'.
Proof.
  intros Hk Hd. unfold serve. rewrite (proj2 (Nat.ltb_ge _ _)) by (by apply (rq_length senders)). fold (sender d) (wanted d).
  assert (exists s1 i ks', find_or_insert_entry s (sender d) = (s1, i)
    /\ knows senders (Server (alter (fun e => e <| ip := from_ip d |> <| port := from_port d |>) i (entries s1)) (next_entry s1)) (h ++ [d]) ks')
    as (s1 & i & ks' & -> & Hk').
  { unfold find_or_insert_entry. pose proof (find_entry_knows s h ks (sender d) Hk (rq_sender _ _ Hd)) as Hf.
    destruct (find_entry s (sender d)) as [i|].
    - exists s, i, ks. split; [done |]. by apply heard_again.
    - eexists _, _, (ks ++ [sender d]). split; [done |]. by apply heard_first. }
  set (s2 := Server _ _) in *. pose proof (find_entry_knows s2 _ ks' (wanted d) Hk' (rq_wanted _ _ Hd)) as Hf. exists s2, ks'. split; [| done].
  destruct (find_entry s2 (wanted d)) as [j|].
  - destruct (kn_entries _ _ _ _ Hk' j _ Hf) as (e & -> & _ & ->). done.
  - destruct (last_seen (wanted d) (h ++ [d])) as [a|] eqn:E; [| done]. destruct Hf. apply (kn_heard _ _ _ _ Hk'). by rewrite E.
Qed.

(** The answers that a sequence of requests should get. *)
Fixpoint expected (h ds : list datagram) : list (option (list byte)) :=
  match ds with
  | [] => []
  | d :: ds => Some (default [] (last_seen (wanted d) (h ++ [d]))) :: expected (h ++ [d]) ds
  end.

Lemma serve_all_knows (ds : list datagram) (s : server) (h : list datagram) (ks : list (list byte)) :
  knows senders s h ks -> Forall (request senders) ds ->
  exists s' ks', serve_all s ds = (s', expected h ds) /\ knows senders s' (h ++ ds) ks'.
Proof.
  intros Hk Hds. revert s h ks Hk. induction Hds as [|d ds Hd _ IH]; intros s h ks Hk.
  - exists s, ks. by rewrite app_nil_r.
  - destruct (serve_knows s h ks d Hk Hd) as (s1 & ks1 & Hs1 & Hk1). destruct (IH s1 _ ks1 Hk1) as (s2 & ks2 & Hs2 & Hk2).
    exists s2, ks2. cbn [serve_all expected]. rewrite Hs1, Hs2. split; [done |]. by rewrite <- app_assoc in Hk2.
Qed.

Lemma initial_knows : knows senders initial_server [] [].
Proof.
  assert (length (entries initial_server) = MAX_ENTRIES) as Hl by apply repeat_length.
  split; [by apply NoDup_nil | intros k []%not_elem_of_nil | | done | done | done |].
  - intros k. split; [intros []%not_elem_of_nil | intros [a [=]]].
  - intros i e He _. apply list_elem_of_lookup_2, list_elem_of_In, repeat_spec in He as ->. done.
Qed.

(** C13: The server of the hole-punching example refines its purpose: started without errors, it
    answers every request with the address from which the wanted key sent its last request up
    to now, and with an empty datagram when that key was never heard; this as long as no more
    than 65536 keys take part and none of them is zero. *)
Theorem punch_server_answers (ds : list datagram) : Forall (request senders) ds ->
  server_main 0 0 0 ds = inr (expected [] ds).
Proof.
  intros Hds. unfold server_main. cbn [Z.eqb negb].
  destruct (serve_all_knows ds initial_server [] [] initial_knows Hds) as (s & ks & -> & _). done.
Qed.

End Server.

(** ** The filter *)

(** A load succeeds on a packet that is long enough. *)
Lemma load_short (packet : list byte) (k n : nat) : (0 < n)%nat ->
  (length (take n (drop k packet)) <? n)%nat = negb (k + n <=? length packet)%nat.
Proof.
  intros Hn. rewrite length_take, length_drop.
  destruct (Nat.leb_spec (k + n) (length packet)); cbn [negb]; [apply Nat.ltb_ge | apply Nat.ltb_lt]; lia.
Qed.

(** The steps of the machine. *)
Lemma bpf_load_word (f : nat) (k : Z) (prog : list sock_filter) (a : Z) (packet : list byte) :
  bpf_run (S f) (BPF_LD_W_ABS k :: prog) a packet
  = if (Z.to_nat k + 4 <=? length packet)%nat then bpf_run f prog (be_bytes (take 4 (drop (Z.to_nat k) packet))) packet else 0.
Proof. cbn [bpf_run]. rewrite load_short by lia. by destruct (_ <=? _)%nat. Qed.

Lemma bpf_load_half (f : nat) (k : Z) (prog : list sock_filter) (a : Z) (packet : list byte) :
  bpf_run (S f) (BPF_LD_H_ABS k :: prog) a packet
  = if (Z.to_nat k + 2 <=? length packet)%nat then bpf_run f prog (be_bytes (take 2 (drop (Z.to_nat k) packet))) packet else 0.
Proof. cbn [bpf_run]. rewrite load_short by lia. by destruct (_ <=? _)%nat. Qed.

Lemma bpf_jump (f : nat) (k : Z) (jt jf : nat) (prog : list sock_filter) (a : Z) (packet : list byte) :
  bpf_run (S f) (BPF_JEQ_K k jt jf :: prog) a packet
  = if a =? k then bpf_run f (drop jt prog) a packet else bpf_run f (drop jf prog) a packet.
Proof. cbn [bpf_run]. by destruct (a =? k). Qed.

(** The packets that come from the port of the server's address to the port of the tunnel. *)
Lemma filter_exact (sport sip : Z) (packet : list byte) :
  accepts (bpf_filter sport sip) packet
  = (24 <=? length packet)%nat && (be_bytes (take 4 (drop 12 packet)) =? sip) && (be_bytes (take 2 (drop 20 packet)) =? PORT)
    && (be_bytes (take 2 (drop 22 packet)) =? sport).
Proof.
  unfold accepts, bpf_filter. cbn [length].
  repeat first [rewrite bpf_load_word | rewrite bpf_load_half | rewrite bpf_jump | progress cbn [drop]].
  change (Z.to_nat 12) with 12%nat. change (Z.to_nat 20) with 20%nat. change (Z.to_nat 22) with 22%nat. cbn [plus].
  destruct (Nat.leb_spec 24 (length packet)) as [H24 | H24].
  - rewrite !(proj2 (Nat.leb_le _ _)) by lia. by destruct (_ =? sip), (_ =? PORT), (_ =? sport).
  - by destruct (16 <=? length packet)%nat, (22 <=? length packet)%nat, (_ =? sip), (_ =? PORT).
Qed.

(** ** Reading the peers *)

Definition key_line (key : list byte) : Prop := length key = 44%nat /\ Forall (fun c => Byte.eqb c x0a = false /\ Byte.eqb c x00 = false) key.

Lemma fgets_cons (n : nat) (c : byte) (s : list byte) :
  fgets (S (S n)) (c :: s) = if Byte.eqb c x0a then ([c], s) else let '(l, r) := fgets (S n) s in (c :: l, r).
Proof. done. Qed.

Lemma fgets_front (key rest : list byte) (n : nat) : Forall (fun c => Byte.eqb c x0a = false /\ Byte.eqb c x00 = false) key -> n = S (length key) ->
  fgets n (key ++ rest) = (key, rest).
Proof.
  intros Hk. revert n. induction Hk as [|c key [Hc _] _ IH]; intros n ->; [by destruct rest |].
  cbn [app length]. rewrite fgets_cons, Hc. by rewrite (IH (S (length key))).
Qed.

Lemma fgets_line (l rest : list byte) (n : nat) : Forall (fun c => Byte.eqb c x0a = false /\ Byte.eqb c x00 = false) l -> (S (length l) < n)%nat ->
  fgets n (l ++ x0a :: rest) = (l ++ [x0a], rest).
Proof.
  intros Hk. revert n. induction Hk as [|c l [Hc _] _ IH]; intros n Hn; (destruct n as [|[|n]]; [cbn in Hn; lia | cbn in Hn; lia |]);
    cbn [app length] in *; rewrite fgets_cons; [done |]. rewrite Hc, IH by lia. done.
Qed.

Lemma c_str_line (l : list byte) : Forall (fun c => Byte.eqb c x0a = false /\ Byte.eqb c x00 = false) l -> c_str (l ++ [x0a]) = l ++ [x0a].
Proof. induction 1 as [|c l [_ Hc] _ IH]; [done |]. cbn [c_str app]. by rewrite Hc, IH. Qed.

Lemma strip_line (l : list byte) : strip_newline (l ++ [x0a]) = l.
Proof. unfold strip_newline. rewrite rev_app_distr. cbn. apply rev_involutive. Qed.

Lemma c_str_key (key : list byte) : Forall (fun c => Byte.eqb c x0a = false /\ Byte.eqb c x00 = false) key -> c_str key = key.
Proof. induction 1 as [|c key [_ Hc] _ IH]; [done |]. cbn [c_str]. by rewrite Hc, IH. Qed.

Lemma strip_key (key : list byte) : Forall (fun c => Byte.eqb c x0a = false /\ Byte.eqb c x00 = false) key -> strip_newline key = key.
Proof.
  intros Hk. unfold strip_newline. destruct (rev key) as [|c r] eqn:E; [done |].
  assert (In c key) as Hin by (apply in_rev; rewrite E; by left). rewrite Forall_forall in Hk.
  by destruct (Hk c) as [-> _]; [apply list_elem_of_In |].
Qed.

Lemma read_peers_loop_keys (fuel : nat) (keys seen : list (list byte)) : Forall key_line keys -> (length seen + length keys < MAX_PEERS)%nat ->
  (2 * length keys < fuel)%nat -> punch_peers_loop fuel (concat (map (fun k => k ++ [x0a]) keys)) seen = Returns (seen ++ keys).
Proof.
  intros Hk. revert fuel seen. induction Hk as [|k keys [Hl Hc] _ IH]; intros fuel seen Hm Hf; cbn [length map concat] in *.
  - destruct fuel; [lia |]. cbn [punch_peers_loop fgets]. by rewrite app_nil_r.
  - destruct fuel as [|[|fuel]]; [lia | lia |]. cbn [punch_peers_loop]. rewrite <- !app_assoc, (fgets_front k) by (done || by rewrite Hl).
    destruct k as [|c k'] eqn:Ek; [done |]. rewrite <- Ek in *. rewrite (proj2 (Nat.leb_gt _ _)) by lia.
    rewrite c_str_key, Hl by done. cbn [Nat.eqb orb negb]. cbn [app fgets]. change (Byte.eqb x0a x0a) with true. cbv match.
    rewrite (proj2 (Nat.leb_gt _ _)) by (rewrite length_app; cbn [length]; lia). cbn [c_str]. change (Byte.eqb x0a x00) with false.
    cbn [length Nat.eqb orb negb]. rewrite strip_key by done. rewrite IH by (rewrite ?length_app; cbn [length]; lia). by rewrite <- app_assoc.
Qed.

(** ** The client and the server together *)

(** The server behind a network that sends other packets too, and the commands that were run. *)
Record link := Link {
  srv : server;
  queue : list (list byte);
  ran : list (list byte);
  turn : nat;
}.

#[export] Instance eta_link : Eta link := fun r => Link (srv r) (queue r) (ran r) (turn r).

Fixpoint first_accepted (accept : list byte -> bool) (q : list (list byte)) : option (list byte * list (list byte)) :=
  match q with
  | [] => None
  | p :: q => if accept p then Some (p, q) else first_accepted accept q
  end.

Definition EAGAIN : Z := 11.

Section Together.
(** The addresses of the server and of the client as the server sees it, the parts of the headers
    that nobody looks at, the packets that come before the [n]th answer, base64, and what the
    commands print. *)
Context (saddr caddr cport front tail : list byte) (noise : nat -> list (list byte)).
Context (decode : list byte -> option (list byte)) (answers : list byte -> list byte).

(** The IP packet with an answer of the server. *)
Definition answer_packet (dest reply : list byte) : list byte := front ++ saddr ++ caddr ++ bytes_be 2 PORT ++ dest ++ tail ++ reply.

Definition punch_link : Punch := {|
  host := link;
  h_getuid := 0;
  h_popen h line := (h <| ran ::= fun l => l ++ [line] |>, inr (answers line));
  h_gethostbyname2 _ _ := inr saddr;
  h_b64_pton := decode;
  h_socket _ := 0;
  h_setsockopt _ := 0;
  h_sendto h addr packet :=
    let '(s, reply) := serve (srv h) (Datagram caddr cport (drop 8 packet)) in
    let arrived := match reply with Some reply => [answer_packet (take 2 packet) reply] | None => [] end in
    (Link s (queue h ++ noise (turn h) ++ arrived) (ran h) (S (turn h)), 0);
  h_recv h accept :=
    match first_accepted accept (queue h) with
    | Some (p, q) => (h <| queue := q |>, inr p)
    | None => (h, inl EAGAIN)
    end;
|}.

Context `{P : Platform}.
Context (senders : list (list byte)) (Hroom : (length senders <= MAX_ENTRIES)%nat).
Context (my : list byte) (interface source : list byte).

(** The shapes of the parts. *)
Record shapes : Prop := Shapes {
  sh_saddr : length saddr = 4%nat;
  sh_caddr : length caddr = 4%nat;
  sh_front : length front = 12%nat;
  sh_tail : length tail = 4%nat;
  sh_source : length source = 2%nat;
  sh_my : length my = 32%nat /\ my <> zero_pubkey /\ my ∈ senders;
  sh_noise : forall n p, p ∈ noise n -> accepts (bpf_filter (be_bytes source) (be_bytes saddr)) p = false;
}.

(** A peer with its key, and the address from which it was heard. *)
Record heard (h : list datagram) (peer : list byte * (list byte * list byte)) : Prop := Heard {
  he_line : key_line (fst peer);
  he_key : exists k, decode (fst peer) = Some k /\ length k = 32%nat /\ k <> zero_pubkey /\ k <> my
             /\ last_seen k h = Some (fst (snd peer) ++ snd (snd peer));
  he_ip : length (fst (snd peer)) = 4%nat;
  he_port : length (snd (snd peer)) = 2%nat;
}.

Lemma first_accepted_skip (accept : list byte -> bool) (l : list (list byte)) (p : list byte) :
  (forall x, x ∈ l -> accept x = false) -> accept p = true -> first_accepted accept (l ++ [p]) = Some (p, []).
Proof.
  intros Hl Hp. induction l as [|x l IH]; cbn [first_accepted app]; [by rewrite Hp |].
  rewrite Hl by (by apply list_elem_of_here). apply IH. intros y Hy. apply Hl. by apply list_elem_of_further.
Qed.

Lemma answer_accepted (reply : list byte) : shapes -> accepts (bpf_filter (be_bytes source) (be_bytes saddr)) (answer_packet source reply) = true.
Proof.
  intros [H1 H2 H3 H4 H5 _ _]. rewrite filter_exact. unfold answer_packet.
  assert (length (bytes_be 2 PORT) = 2%nat) as H6 by done.
  assert (take 4 (drop 12 (front ++ saddr ++ caddr ++ bytes_be 2 PORT ++ source ++ tail ++ reply)) = saddr) as ->
    by (rewrite drop_app_length', take_app_length' by done; done).
  assert (forall x, drop 20 (front ++ saddr ++ caddr ++ x) = x) as H20.
  { intros x. change 20%nat with (12 + (4 + 4))%nat.
    rewrite <- drop_drop, drop_app_length', <- drop_drop, drop_app_length', drop_app_length' by done. done. }
  assert (forall x, drop 22 (front ++ saddr ++ caddr ++ bytes_be 2 PORT ++ x) = x) as H22.
  { intros x. change 22%nat with (20 + 2)%nat. rewrite <- drop_drop, H20. by apply drop_app_length'. }
  rewrite H20, H22, !take_app_length' by done. rewrite !Z.eqb_refl. change (be_bytes (bytes_be 2 PORT) =? PORT) with true.
  rewrite !andb_true_r. apply Nat.leb_le. rewrite !length_app. lia.
Qed.

Lemma cmd_link (h : link) (line : list byte) : exists l, punch_cmd (H0 := punch_link) h line = Returns (h <| ran ::= fun l => l ++ [take 2046 line] |>, l).
Proof. unfold punch_cmd. cbn [h_popen punch_link]. destruct (c_str _); by eexists. Qed.

(** A command that prints a line. *)
Lemma cmd_line (h : link) (line l : list byte) : answers (take 2046 line) = l ++ [x0a] -> (length l < 2046)%nat ->
  Forall (fun c => Byte.eqb c x0a = false /\ Byte.eqb c x00 = false) l ->
  punch_cmd (H0 := punch_link) h line = Returns (h <| ran ::= fun l => l ++ [take 2046 line] |>, Some l).
Proof.
  intros Ha Hl Hc. unfold punch_cmd. cbn [h_popen punch_link]. rewrite Ha, fgets_line by (done || lia). cbn [fst]. rewrite c_str_line by done.
  destruct (l ++ [x0a]) as [|c r] eqn:E; [by apply app_nil in E as [_ ?] |]. rewrite <- E. by rewrite strip_line.
Qed.

(** The address in an answer. *)
Lemma answer_fields (aip aport : list byte) : shapes -> length aip = 4%nat -> length aport = 2%nat ->
  let reply := take 34 (answer_packet source (aip ++ aport)) in
  length reply = 34%nat /\ take 4 (drop 28 reply) = aip /\ take 2 (drop 32 reply) = aport.
Proof.
  intros [H1 H2 H3 H4 H5 _ _] Hip Hport. cbv zeta. unfold answer_packet. assert (length (bytes_be 2 PORT) = 2%nat) as H6 by done.
  set (pre := front ++ saddr ++ caddr ++ bytes_be 2 PORT ++ source ++ tail).
  assert (length pre = 28%nat) as Hpre by (unfold pre; rewrite !length_app; lia).
  replace (front ++ saddr ++ caddr ++ bytes_be 2 PORT ++ source ++ tail ++ aip ++ aport) with (pre ++ aip ++ aport)
    by (unfold pre; by rewrite <- !app_assoc).
  rewrite take_ge by (rewrite !length_app; lia). split; [rewrite !length_app; lia |]. split.
  - rewrite drop_app_length' by done. by apply take_app_length'.
  - rewrite app_assoc, drop_app_length' by (rewrite length_app; lia). by apply take_ge; rewrite Hport.
Qed.

(** A peer that the server has heard is learnt at once. *)
Lemma ask_peer_heard (s : server) (h : list datagram) (ks : list (list byte)) (r : list (list byte)) (t : nat) (peer : list byte * (list byte * list byte)) :
  shapes -> knows senders s h ks -> heard h peer ->
  exists s' ks' d out,
    ask_peer (H0 := punch_link) (Link s [] r t) saddr source my interface (accepts (bpf_filter (be_bytes source) (be_bytes saddr))) (fst peer)
    = Returns (Link s' [] (r ++ [take 2046 (set_command interface (fst peer) (fst (snd peer)) (snd (snd peer)))]) (S t), out, inr true)
    /\ knows senders s' (h ++ [d]) ks' /\ sender d = my.
Proof.
  intros Hsh Hk [Hline (k & Hdec & Hlk & Hkz & Hkm & Hls) Hip Hport]. pose proof (sh_my Hsh) as (Hlm & Hmz & Hms).
  destruct peer as [b64 [aip aport]]. cbn [fst snd] in *.
  set (d := Datagram caddr cport (my ++ k)).
  assert (sender d = my) as Hsd by (unfold sender, d; cbn [payload]; by rewrite take_app_length').
  assert (wanted d = k) as Hwd by (unfold wanted, d; cbn [payload]; rewrite drop_app_length' by done; by apply take_ge; rewrite Hlk).
  assert (request senders d) as Hrq by (split; rewrite ?Hsd, ?Hwd; [by cbn [payload d]; rewrite length_app, Hlm, Hlk | done ..]).
  destruct (serve_knows senders Hroom s h ks d Hk Hrq) as (s' & ks' & Hserve & Hk').
  rewrite Hwd, last_seen_snoc, Hsd, beq_neq, Hls in Hserve by congruence. cbn [default from_option Datatypes.id] in Hserve.
  unfold ask_peer, unbase64. cbn [h_b64_pton punch_link]. rewrite Hdec, Hlk. cbn [Nat.eqb obind].
  assert (drop 8 (punch_packet source my k) = my ++ k) as Hpl by (unfold punch_packet; rewrite !app_assoc, <- (app_assoc _ my); apply drop_app_length'; rewrite !length_app, (sh_source Hsh); done).
  assert (take 2 (punch_packet source my k) = source) as Hsrc by (unfold punch_packet; by apply take_app_length'; rewrite (sh_source Hsh)).
  cbn [h_sendto punch_link srv]. rewrite Hpl, Hsrc. fold d. rewrite Hserve. cbn [queue ran turn app].
  cbn [h_recv punch_link queue]. rewrite first_accepted_skip; [| by apply (sh_noise Hsh) | by apply answer_accepted].
  destruct (answer_fields aip aport Hsh Hip Hport) as (Hl34 & -> & ->). cbv zeta. rewrite Hl34. cbn [Nat.eqb negb].
  destruct (cmd_link (Link s' [] r (S t)) (set_command interface b64 aip aport)) as [line Hcmd].
  change ((Link s' (noise t ++ [answer_packet source (aip ++ aport)]) r (S t)) <| queue := [] |>) with (Link s' [] r (S t)).
  rewrite Hcmd. cbn [obind]. by eexists s', ks', d, _.
Qed.

(** A round. *)
Lemma ask_peers_heard (peers : list (list byte * (list byte * list byte))) (s : server) (h : list datagram) (ks : list (list byte))
    (r : list (list byte)) (t : nat) :
  shapes -> knows senders s h ks -> Forall (heard h) peers ->
  exists s' t' out,
    ask_peers (H0 := punch_link) (Link s [] r t) saddr source my interface (accepts (bpf_filter (be_bytes source) (be_bytes saddr)))
      (map (fun key => (key, false)) (map fst peers))
    = Returns (Link s' [] (r ++ map (fun p => take 2046 (set_command interface (fst p) (fst (snd p)) (snd (snd p)))) peers) t', out,
               inr (map (fun key => (key, true)) (map fst peers))).
Proof.
  intros Hsh Hk Hps. revert s h ks r t Hk Hps. induction peers as [|p peers IH]; intros s h ks r t Hk Hps.
  - exists s, t, []. cbn. by rewrite app_nil_r.
  - apply Forall_cons in Hps as [Hp Hps].
    destruct (ask_peer_heard s h ks r t p Hsh Hk Hp) as (s1 & ks1 & d & out & Hask & Hk1 & Hd). cbn [map ask_peers]. rewrite Hask. cbn [obind].
    destruct (IH s1 (h ++ [d]) ks1 (r ++ [take 2046 (set_command interface (fst p) (fst (snd p)) (snd (snd p)))]) (S t) Hk1) as (s2 & t2 & out2 & Hr).
    { apply (Forall_impl _ _ _ Hps). intros q [Hq1 (k & Hq2 & Hq3 & Hq4 & Hkm & Hq5) Hq6 Hq7]. split; try done. exists k.
      by rewrite last_seen_snoc, Hd, beq_neq by congruence. }
    rewrite Hr. cbn [obind]. eexists s2, t2, _. by rewrite <- app_assoc.
Qed.

(** C18: The client and the server of the hole-punching example together do what they are for: when
    the server has heard every peer of an interface, the client reads the peers, the key and the
    port of the interface, and within one round sets the endpoint of each peer, in order, to the
    address from which that peer was last heard, and returns 0, whatever other packets arrive
    that are not from the server to the port of the tunnel. *)
Theorem punch_client_learns (fuel : nat) (prog srv_name my_b64 port_line : list byte) (s : server) (h : list datagram) (ks : list (list byte))
    (peers : list (list byte * (list byte * list byte))) :
  shapes -> knows senders s h ks -> Forall (heard h) peers -> (length peers < MAX_PEERS)%nat ->
  answers (take 2046 (text "wg show " ++ interface ++ text " peers")) = concat (map (fun k => k ++ [x0a]) (map fst peers)) ->
  answers (take 2046 (text "wg show " ++ interface ++ text " public-key")) = my_b64 ++ [x0a] -> key_line my_b64 -> decode my_b64 = Some my ->
  answers (take 2046 (text "wg show " ++ interface ++ text " listen-port")) = port_line ++ [x0a] ->
  ((length port_line < 2046)%nat /\ Forall (fun c => Byte.eqb c x0a = false /\ Byte.eqb c x00 = false) port_line) ->
  source = bytes_be 2 (atoi port_line) ->
  exists s' t' out,
    client_main (H0 := punch_link) (S fuel) (Link s [] [] 0) [prog; srv_name; interface]
    = Returns (Link s' []
        ([take 2046 (text "wg show " ++ interface ++ text " peers"); take 2046 (text "ip link set " ++ interface ++ text " up");
          take 2046 (text "wg show " ++ interface ++ text " public-key"); take 2046 (text "wg show " ++ interface ++ text " listen-port")]
         ++ map (fun p => take 2046 (set_command interface (fst p) (fst (snd p)) (snd (snd p)))) peers) t', out, 0).
Proof.
  intros Hsh Hk Hps Hmax Hpeers Hkey [Hkl Hkc] Hdec Hport [Hpn Hpc] Hsrc. unfold client_main.
  cbn [h_getuid h_gethostbyname2 punch_link Z.eqb negb]. unfold punch_peers. cbn [h_popen punch_link]. rewrite Hpeers.
  rewrite (read_peers_loop_keys _ (map fst peers) []); cycle 1.
  { apply Forall_map. apply (Forall_impl _ _ _ Hps). intros p Hp. apply (he_line _ _ Hp). }
  { by rewrite length_map. }
  { clear - Hps. induction Hps as [|p peers [[Hl _] _ _ _] _ IH]; cbn [map concat length] in *; [lia |]. rewrite !length_app, Hl. cbn [length]. lia. }
  cbn [obind app]. destruct (cmd_link (Link s [] [take 2046 (text "wg show " ++ interface ++ text " peers")] 0)
    (text "ip link set " ++ interface ++ text " up")) as [l1 Hl1].
  change ((Link s [] [] 0) <| ran ::= fun l => l ++ [?x] |>) with (Link s [] [x] 0). rewrite Hl1. cbn [obind].
  erewrite cmd_line by (exact Hkey || exact Hkc || (rewrite Hkl; lia)). cbn [obind]. unfold unbase64. cbn [h_b64_pton punch_link].
  rewrite Hdec, (proj1 (sh_my Hsh)). cbn [Nat.eqb obind].
  erewrite cmd_line by (exact Hport || exact Hpc || exact Hpn). cbn [obind h_socket h_setsockopt punch_link Z.eqb negb]. rewrite <- Hsrc.
  match goal with |- context [check_again _ ?x] => change x with (Link s []
    [take 2046 (text "wg show " ++ interface ++ text " peers"); take 2046 (text "ip link set " ++ interface ++ text " up");
     take 2046 (text "wg show " ++ interface ++ text " public-key"); take 2046 (text "wg show " ++ interface ++ text " listen-port")] 0) end.
  cbn [check_again].
  edestruct (ask_peers_heard peers s h ks) as (s' & t' & out & Hr); [done | done | done |]. rewrite Hr. cbn [obind].
  exists s', t', out. assert (forallb snd (map (fun key : list byte => (key, true)) (map fst peers)) = true) as ->; [| done].
  clear. induction peers as [|p peers IH]; [done | exact IH].
Qed.

End Together.

(** ** Two hosts *)

Definition key_a : list byte := repeat "a"%byte 32.
Definition key_b : list byte := repeat "b"%byte 32.
Definition demo_senders : list (list byte) := [key_a; key_b].
Definition ip_b : list byte := [xc0; x00; x02; x02].
Definition port_b : list byte := [xca; x6c].
Definition demo_requests : list datagram := [Datagram ip_b port_b (key_b ++ key_a); Datagram [xc0; x00; x02; x01] [x00; x07] (key_a ++ key_b)].

Lemma demo_room : (length demo_senders <= MAX_ENTRIES)%nat.
Proof. pose proof max_entries. cbn [length demo_senders]. lia. Qed.

Lemma demo_requests_ok : Forall (request demo_senders) demo_requests.
Proof.
  apply Forall_cons_2; [| apply Forall_singleton]; split; try (vm_compute; discriminate).
  - cbn. lia.
  - right. left.
  - cbn. lia.
  - left.
Qed.

(** The first host hears nothing, the second learns the address of the first. *)
Lemma punch_server_answers_witness : server_main 0 0 0 demo_requests = inr [Some []; Some (ip_b ++ port_b)].
Proof. apply (punch_server_answers demo_senders demo_room demo_requests demo_requests_ok). Defined.

Definition demo_decode (t : list byte) : option (list byte) :=
  if beq t (repeat "A"%byte 44) then Some key_a else if beq t (repeat "B"%byte 44) then Some key_b else None.

Definition demo_answers (c : list byte) : list byte :=
  if beq c (text "wg show wg0 peers") then repeat "B"%byte 44 ++ [x0a]
  else if beq c (text "wg show wg0 public-key") then repeat "A"%byte 44 ++ [x0a]
  else if beq c (text "wg show wg0 listen-port") then text "51820" ++ [x0a]
  else [].

Definition saddr0 : list byte := [xc6; x33; x64; x01].
Definition caddr0 : list byte := [xc0; x00; x02; x01].
Definition source0 : list byte := [xca; x6c].
(** A short packet comes before each answer. *)
Definition noise0 (_ : nat) : list (list byte) := [text "noise"].

Lemma demo_shapes : shapes saddr0 caddr0 (repeat x00 12) (repeat x00 4) noise0 demo_senders key_a source0.
Proof.
  split; try reflexivity.
  - split; [reflexivity |]. split; [vm_compute; discriminate | left].
  - intros n p ->%list_elem_of_singleton. reflexivity.
Qed.

Lemma demo_heard : heard demo_decode key_a [Datagram ip_b port_b (key_b ++ key_a)] (repeat "B"%byte 44, (ip_b, port_b)).
Proof.
  split; try reflexivity.
  - split; [reflexivity |]. apply Forall_forall. intros c Hc. apply list_elem_of_In, repeat_spec in Hc as ->. done.
  - exists key_b. split; [reflexivity |]. split; [reflexivity |]. split; [vm_compute; discriminate |]. split; [vm_compute; discriminate | reflexivity].
Qed.

Lemma demo_knows : exists s ks, knows demo_senders s [Datagram ip_b port_b (key_b ++ key_a)] ks.
Proof.
  pose proof demo_requests_ok as H. apply Forall_cons in H as [H _].
  destruct (serve_knows demo_senders demo_room initial_server [] [] _ (initial_knows demo_senders) H) as (s & ks & _ & Hk). by exists s, ks.
Qed.

Lemma punch_client_learns_witness :
  exists s s' t' out,
    @client_main lp64_x86 (punch_link saddr0 caddr0 [x00; x07] (repeat x00 12) (repeat x00 4) noise0 demo_decode demo_answers) 1
      (Link s [] [] 0) [text "nat-punch-client"; text "demo.example"; text "wg0"]
    = Returns (Link s' []
        [text "wg show wg0 peers"; text "ip link set wg0 up"; text "wg show wg0 public-key"; text "wg show wg0 listen-port";
         text "wg set wg0 peer BBBBBBBBBBBBBBBBBBBBBBBBBBBBBBBBBBBBBBBBBBBB persistent-keepalive 25 endpoint 192.0.2.2:51820"] t', out, 0).
Proof.
  destruct demo_knows as (s & ks & Hk). exists s.
  apply (@punch_client_learns saddr0 caddr0 [x00; x07] (repeat x00 12) (repeat x00 4) noise0 demo_decode demo_answers lp64_x86
           demo_senders demo_room key_a (text "wg0") source0 0 (text "nat-punch-client") (text "demo.example") (repeat "A"%byte 44) (text "51820")
           s [Datagram ip_b port_b (key_b ++ key_a)] ks [(repeat "B"%byte 44, (ip_b, port_b))]).
  - exact demo_shapes.
  - exact Hk.
  - apply Forall_singleton. exact demo_heard.
  - unfold MAX_PEERS. cbn [length]. lia.
  - reflexivity.
  - reflexivity.
  - split; [reflexivity |]. apply Forall_forall. intros c Hc. apply list_elem_of_In, repeat_spec in Hc as ->. done.
  - reflexivity.
  - reflexivity.
  - split; [apply Nat.ltb_lt; reflexivity | by repeat (apply Forall_cons_2; [done |])].
  - reflexivity.
Defined.
